(* ===== verification/_CoqProject ===== *)
-Q . S2P
Prelude.v
PyStr.v
PyVal.v
Bytes.v
Json.v
JsonTrip.v
JsonText.v
Sys.v
Held.v
FsRules.v
RealPath.v
Totals.v
Links.v
Publish.v
PublishPair.v
Keeps.v
Steps.v
Oci.v
BindPlan.v
Rootfs.v
RootfsTrip.v
RootfsSafe.v
RootfsScan.v
RootfsScanSafe.v
WriteFile.v
RootfsMain.v
RootfsRun.v
Materialize.v
MaterializeSafe.v
MaterializeRun.v
Storage.v
StorageSafe.v
StorageBuild.v
StorageMain.v
StorageCount.v
StorageRun.v
Image.v
ImageSafe.v
ImageRun.v
DockerConfig.v
DockerConfigSafe.v
ServicePolicy.v
ServicePolicySafe.v
OciLoad.v
OciLoadSafe.v
OciLoadRun.v
RootPath.v
RootPathSafe.v
StorageMount.v
StorageMountSafe.v
MountTable.v
StageBinding.v
StageBindingSafe.v
NativeRecord.v
NativeRecordSafe.v
Deployment.v
DeploymentSafe.v
DeploymentRun.v
ReleaseManifest.v
Binaries.v
BinariesSafe.v
BinariesRun.v
Bootstrap.v
BootstrapSafe.v
BootstrapChain.v
BootstrapRun.v
DockerRoot.v
DockerRootSafe.v
DockerOuter.v
DockerOuterSafe.v
DockerRun.v
