(* ===== verification/Prelude.v ===== *)
(** * A verification of the multikernel runtime's host scripts

    The repository builds a container runtime whose containers run on a second
    kernel.  Its host side is a set of Python programs under src/scripts/ that
    validate what the runtime is given, build the guest's root file system and
    storage, approve boot images and container roots, install the runtime and select
    what is active, and publish files without ever replacing one.  This library
    models those programs and proves what makes them correct.

    ** The language and the machine

    - [Prelude] (exceptions as values of [res], loops, association lists), [PyStr]
      (strings as code points, regular expressions, pathlib and os.path), [PyVal]
      (the values json produces, Python's equality), [Bytes] (byte strings, UTF-8,
      hexadecimal, SHA-256), [Json] (the json scanner and encoder; [loads_fuel]: its
      fuel is never exhausted), [JsonTrip] ([loads] inverts [dumps]), [JsonText] (what
      strings decoded text can hold).
    - [Sys]: a file system maps names to inodes; a program is a state and error
      computation [M]; before each system call other processes may act ([env]) and
      the call may fail ([fault]).  [quiet] is a machine where no other process acts.
      [triple] is partial correctness with a postcondition for exceptions, [runs] a
      complete run.  [Held]: paths below an open directory (/proc/self/fd/N).
      [FsRules]: what a reading program has observed ([observes]) and which names a
      program may change ([changes_only]).  [Keeps]: invariants of programs.  [Steps]:
      a [try] block whose variables survive an exception.  [RealPath]: os.path.realpath
      and where a path leads.  [Totals]: runs that must
      return.  [Links]: replacing symbolic links.  [WriteFile]: what writing leaves.

    ** The programs

    - validate-runtime-oci.py: [Oci] (every check, both projections), [OciLoad]
      (reading the configuration, [main]), [OciLoadSafe], [OciLoadRun].  C1 to C4:
      accepted mounts and capabilities are confined, the guest projection holds nothing
      else, and which exceptions can occur (subscripts raise in the model, and the
      checks before them keep them from it; [accepted_process_bounds]: the process is
      bounded).  C36: the configuration is read from a private file
      ([load_config_private]), the files it writes are the projections, and the
      materializer reads the second as exactly the admitted binds.
    - validate-runtime-root.py: [RootPath], [RootPathSafe].  C5: the container's root is
      a real directory literally below the bundle or where a storage root leads.
    - materialize-runtime-binds.py: [BindPlan] (the plan), [Materialize] (the
      program), [MaterializeSafe], [MaterializeRun].  C6: a projected plan passes
      every check.  [open_real_source_literal]: sources are opened without
      following links.  C33, C34: an accepted copy is exact whatever cp does, and only
      the destination changes.
    - build-runtime-rootfs.py and verify-runtime-rootfs.py: [Rootfs] (manifest, newc
      writer and verifier), [RootfsTrip], [RootfsSafe], [RootfsScan] (scanning and
      [main]), [RootfsScanSafe], [RootfsMain], [RootfsRun].  C7: what is built
      within the format's limits ([tree_ok]) verifies; C8: what an accepted archive is;
      C9: when the parser ends; C10: the symlink policy follows links; C11: what an
      admitted build leaves free, and what the estimate leaves out; C29: a scan
      describes the tree ([scanned_tree_verifies]: and what it describes verifies); C31:
      archive and manifest
      are published together or not at all.
    - runtime_safe_publish.py: [Publish], [PublishPair].  C12, C13: publication is
      all or nothing under any failing call, and succeeds where none fails.
    - build-runtime-storage.py: [Storage] (the program), [StorageSafe] (staging and
      filling the image), [StorageBuild] (publication and clean-up), [StorageMain],
      [StorageCount] (accounting), [StorageRun].  C37: a build leaves what existed and
      publishes only the image it inspected; C38: inodes and bytes are counted exactly.
    - manage-runtime-deployment.py: [Deployment], [DeploymentSafe], [DeploymentRun].
      C14, C15: a verified deployment is content addressed; activation selects it or
      leaves the selection alone.
    - runtime-release-manifest.py and manage-runtime-binaries.py: [ReleaseManifest],
      [Binaries], [BinariesSafe], [BinariesRun].  C16 to C18: the same for releases
      (the directories of the links are made where they are missing).
    - validate-runtime-bootstrap.py: [Bootstrap], [BootstrapSafe], [BootstrapChain],
      [BootstrapRun].  C21, C22: the whole boot chain that an accepted manifest vouches for
      ([kernel_banner_found], [boot_archive_approved]: the kernel and the archive);
      the check of the archive ends.
    - validate-runtime-docker-root.py: [DockerRoot], [DockerRootSafe], [DockerOuter],
      [DockerOuterSafe], [DockerRun].  C23 to C28: copied inputs, ELF dependencies,
      image path resolution, the workloads admitted (exactly) and the helper closure.
    - validate-runtime-image.py: [Image], [ImageSafe], [ImageRun].  C39: the validated
      entrypoint is the file that following its path, and the interpreter lines as the
      code reads them, leads to inside the root; it is the kernel's choice where those
      lines are plain.
    - merge-runtime-docker-config.py: [DockerConfig], [DockerConfigSafe].  C40: the
      merge changes the runtime's entry and live restore only, in a new file, and what
      taking it back gives.
    - runtime_service_policy.py: [ServicePolicy], [ServicePolicySafe].  C20: the policy
      is exactly what the unit declares, and what is observed exactly the policy.
    - validate-runtime-storage-mount.py: [StorageMount], [StorageMountSafe],
      [MountTable] (the kernel's printing of its table, and reading it back).  C32: the
      approved disk, and nothing else, is mounted once, at the approved place.
    - runtime_stage_binding.py, manage-runtime-stage-binding.py: [StageBinding],
      [StageBindingSafe].  C35: an alias is changed by at most one mount, of exactly the
      recorded directories, and the report is true; C30: what is captured describes the
      alias and reads back, and the child that detaches the alias to look beneath does
      so in a private mount namespace of its own.
    - runtime_native_record_fault.py: [NativeRecord], [NativeRecordSafe].  C19: a hidden
      record is never lost or replaced, and is put back.

    Files ending in Safe, Trip, Chain, Count and Main hold theorems (also
    [MountTable]), files ending in Run
    concrete executions that show the hypotheses of the theorems hold together.  The
    comment before each theorem says what it shows.

    ** Conventions and limits

    Exceptions carry their class and the constant part of their message.  A path is
    its list of components; a descriptor is a reference to its inode.  Structural
    recursion is used where the code has it; JSON scanning and newc parsing take fuel
    from the input's length, path resolution the forty links the kernel follows,
    Path.resolve Python's recursion limit, and [while] loops 2^64 turns ([while],
    [mwhile]), more than any loop over data in memory can take: C9, C21, C24, C25, C28
    and C38 show that the loops end.  Programs the scripts start (cp, mke2fs, debugfs,
    e2fsck, modinfo, an executable asked for its version), the gzip and zlib codecs,
    statvfs, mount and umount2 and how mounts propagate, processes and their signals,
    the blocks a file occupies and the random parts of temporary names are parameters; C37 states what it relies on of mke2fs, debugfs, e2fsck and cp
    ([StorageSafe.tools]).

    ** Not modelled

    Argument parsing, printing, the text interpolated in messages, durability across
    a crash of the host, blocking and timing.  The tests, the live trial drivers, the
    audits of recorded evidence and the remaining small qualifiers of src/scripts/;
    the Go runtime, the kernel patches and the guest's shell programs. *)
From Stdlib Require Import ZArith Lia.
From stdpp Require Import base list sets strings option.

(** ** Exceptions and results

    A Python function that may raise is a function into [res].  An exception is
    its class and the constant text of its message: what the source
    interpolates into the text (paths, [repr]s of rejected values) is left out. *)
Inductive exn_class : Type :=
  | ValueError | TypeError | KeyError | AttributeError | IndexError
  | UnicodeError | JSONDecodeError | RecursionError | OSError
  | ApprovalError | RootFSError | VerificationError | PublicationError
  | MaterializationError | ConfigError | StorageBuildError | AuditError
  | EOFError | ZlibError | RuntimeError | SystemExit | SubprocessError | StructError
  | FileNotFoundError | FileExistsError | NotADirectoryError | IsADirectoryError | PermissionError
  | OverflowError | ImageError.

Record exn : Type := Exn { exn_cls : exn_class; exn_msg : string }.

Inductive res (A : Type) : Type :=
  | Ok (a : A)
  | Err (e : exn).
Arguments Ok {A} a.
Arguments Err {A} e.

(** [except OSError]: the subclasses included. *)
Definition is_os_error (c : exn_class) : bool :=
  match c with
  | OSError | FileNotFoundError | FileExistsError | NotADirectoryError | IsADirectoryError | PermissionError => true
  | _ => false
  end.

(** [except ValueError] *)
Definition is_value_error (c : exn_class) : bool :=
  match c with ValueError | UnicodeError | JSONDecodeError => true | _ => false end.

#[export] Instance exn_class_eq_dec : EqDecision exn_class.
Proof. solve_decision. Defined.
#[export] Instance exn_eq_dec : EqDecision exn.
Proof. solve_decision. Defined.
#[export] Instance res_eq_dec {A} `{EqDecision A} : EqDecision (res A).
Proof. solve_decision. Defined.

Declare Scope py_scope.
Delimit Scope py_scope with py.
Open Scope py_scope.

Notation "'let!' x ':=' c 'in' k" :=
  (match c with Ok x => k | Err e => Err e end)
  (at level 10, x pattern, c at level 200, k at level 200) : py_scope.
Notation "c ;; k" :=
  (match c with Ok _ => k | Err e => Err e end)
  (at level 100, k at level 200, right associativity) : py_scope.

Definition raise {A} (c : exn_class) (m : string) : res A := Err (Exn c m).

(** [if b: raise c(m)] *)
Definition raise_if (b : bool) (c : exn_class) (m : string) : res unit :=
  if b then raise c m else Ok tt.

(** The short-circuiting [or], [and] and [not] of conditions that may raise. *)
Definition or_else (a b : res bool) : res bool :=
  let! x := a in if x then Ok true else b.
Definition and_then (a b : res bool) : res bool :=
  let! x := a in if x then b else Ok false.
Definition not_res (a : res bool) : res bool := let! x := a in Ok (negb x).

(** A [for] loop whose body may raise, with the loop's variables as the
    accumulator, and [\[f(x) for x in l\]]. *)
Fixpoint for_each {S A} (f : S -> A -> res S) (s : S) (l : list A) : res S :=
  match l with
  | [] => Ok s
  | x :: t => let! s' := f s x in for_each f s' t
  end.

Fixpoint map_res {A B} (f : A -> res B) (l : list A) : res (list B) :=
  match l with
  | [] => Ok []
  | x :: t => let! y := f x in let! ys := map_res f t in Ok (y :: ys)
  end.

(** [any(f(x) for x in l)], stopping at the first true element. *)
Fixpoint any_res {A} (f : A -> res bool) (l : list A) : res bool :=
  match l with
  | [] => Ok false
  | x :: t => or_else (f x) (any_res f t)
  end.

(** ** Tactics and lemmas on results *)

Lemma raise_if_ok b c m u : raise_if b c m = Ok u <-> b = false.
Proof. destruct b, u; split; done. Qed.

Lemma raise_if_err b c m e : raise_if b c m = Err e <-> b = true /\ e = Exn c m.
Proof. destruct b; unfold raise_if, raise; naive_solver. Qed.

Lemma or_else_false a b : or_else a b = Ok false <-> a = Ok false /\ b = Ok false.
Proof. destruct a as [[]|]; simpl; naive_solver. Qed.

Lemma and_then_true a b : and_then a b = Ok true <-> a = Ok true /\ b = Ok true.
Proof. destruct a as [[]|]; simpl; naive_solver. Qed.

Lemma not_res_ok a b : not_res a = Ok b <-> a = Ok (negb b).
Proof. destruct a as [[]|], b; simpl; naive_solver. Qed.

(** [inv_ok] takes a successful computation apart: every bound result becomes a
    variable with its defining equation, every [raise_if] its negated guard. *)
Ltac inv_ok_step :=
  match goal with
  | H : Ok _ = Ok _ |- _ => injection H as H; try subst
  | H : Err _ = Ok _ |- _ => discriminate H
  | H : Ok _ = Err _ |- _ => discriminate H
  | H : raise _ _ = Ok _ |- _ => discriminate H
  | H : raise_if _ _ _ = Ok _ |- _ => apply raise_if_ok in H
  | H : or_else _ _ = Ok false |- _ => apply or_else_false in H; destruct H
  | H : not_res _ = Ok _ |- _ => apply not_res_ok in H; cbn [negb] in H
  | H : match ?c with Ok _ => _ | Err _ => Err _ end = Ok _ |- _ =>
      let E := fresh "E" in destruct c eqn:E; [|discriminate H]
  end.
Ltac inv_ok := repeat inv_ok_step.

(** Boolean guards become propositions. *)
Ltac bool_prop :=
  repeat match goal with
  | H : _ || _ = false |- _ => apply orb_false_iff in H; destruct H
  | H : _ && _ = true |- _ => apply andb_true_iff in H; destruct H
  | H : negb _ = true |- _ => apply negb_true_iff in H
  | H : negb _ = false |- _ => apply negb_false_iff in H
  | H : bool_decide _ = true |- _ => apply bool_decide_eq_true in H
  | H : bool_decide _ = false |- _ => apply bool_decide_eq_false in H
  | H : (_ <=? _)%Z = true |- _ => apply Z.leb_le in H
  | H : (_ <=? _)%Z = false |- _ => apply Z.leb_gt in H
  | H : (_ <? _)%Z = true |- _ => apply Z.ltb_lt in H
  | H : (_ <? _)%Z = false |- _ => apply Z.ltb_ge in H
  | H : (_ =? _)%Z = true |- _ => apply Z.eqb_eq in H
  | H : (_ =? _)%Z = false |- _ => apply Z.eqb_neq in H
  end.

(** A [while] loop of at most 2^[depth] turns: a turn goes on with a new state or ends
    with a result. *)
Fixpoint loop {S A} (depth : nat) (turn : S -> res (S + A)) (s : S) : res (S + A) :=
  match depth with
  | O => turn s
  | Datatypes.S d => match loop d turn s with Ok (inl s') => loop d turn s' | r => r end
  end.

(** The loops whose turns the source does not count: no run takes 2^64 of them. *)
Definition while {S A} (turn : S -> res (S + A)) (s : S) : res A :=
  match loop 64 turn s with
  | Ok (inr a) => Ok a
  | Ok (inl _) => raise RuntimeError "2^64 turns"
  | Err e => Err e
  end.

Section while_loops.
Context {S A : Type} (turn : S -> res (S + A)).

Lemma loop_inv depth (I : S -> Prop) (Q : A -> Prop) (E : exn -> Prop) s :
  (forall s, I s -> match turn s with Ok (inl s') => I s' | Ok (inr a) => Q a | Err e => E e end) -> I s ->
  match loop depth turn s with Ok (inl s') => I s' | Ok (inr a) => Q a | Err e => E e end.
Proof.
  intros Ht. revert s; induction depth as [|d IH]; intros s Hs; simpl; [by apply Ht|].
  specialize (IH s Hs) as H1. destruct (loop d turn s) as [[s'|a]|e]; [by apply IH|done|done].
Qed.

(** A measure that every turn lowers bounds the number of turns. *)
Lemma loop_measure depth (I : S -> Prop) (m : S -> Z) s :
  (forall s s', I s -> turn s = Ok (inl s') -> I s' /\ 0 <= m s' < m s)%Z -> I s ->
  match loop depth turn s with Ok (inl s') => I s' /\ (0 <= m s' /\ m s' + 2 ^ Z.of_nat depth <= m s)%Z | _ => True end.
Proof.
  intros Ht. revert s; induction depth as [|d IH]; intros s Hs; simpl.
  - destruct (turn s) as [[s'|a]|e] eqn:E; try done. apply Ht in E as [? ?]; [|done]. split; [done|]. simpl. lia.
  - specialize (IH s Hs) as H1. destruct (loop d turn s) as [[s'|a]|e]; try done. destruct H1 as (Hs' & Hm).
    specialize (IH s' Hs') as H2. destruct (loop d turn s') as [[s''|a]|e]; try done. destruct H2 as (Hs'' & Hm').
    split; [done|]. change (2 ^ Z.of_nat (Datatypes.S d))%Z with (2 ^ Z.of_nat (1 + d))%Z. rewrite Nat2Z.inj_add, Z.pow_add_r by lia. simpl (2 ^ Z.of_nat 1)%Z. lia.
Qed.

Lemma while_inv (I : S -> Prop) (Q : A -> Prop) (E : exn -> Prop) s :
  (forall s, I s -> match turn s with Ok (inl s') => I s' | Ok (inr a) => Q a | Err e => E e end) ->
  E (Exn RuntimeError "2^64 turns") -> I s ->
  match while turn s with Ok a => Q a | Err e => E e end.
Proof.
  intros Ht HE Hs. unfold while. pose proof (loop_inv 64 I Q E s Ht Hs) as Hl. by destruct (loop 64 turn s) as [[s'|a]|e].
Qed.

Lemma while_measure (I : S -> Prop) (m : S -> Z) s :
  (forall s s', I s -> turn s = Ok (inl s') -> I s' /\ 0 <= m s' < m s)%Z -> I s -> (m s < 2 ^ 64)%Z ->
  forall e, while turn s = Err e -> exists s', I s' /\ turn s' = Err e.
Proof.
  intros Ht Hs Hm e. unfold while. pose proof (loop_measure 64 I m s Ht Hs) as Hl.
  pose proof (loop_inv 64 I (fun _ => True) (fun e => exists s', I s' /\ turn s' = Err e) s) as Hi.
  destruct (loop 64 turn s) as [[s'|a]|e']; [|done|].
  - destruct Hl as (_ & Hl). change (2 ^ Z.of_nat 64)%Z with (2 ^ 64)%Z in Hl. lia.
  - intros [= <-]. apply Hi; [|done]. intros x Hx. destruct (turn x) as [[x'|a]|e] eqn:E; [|done|eauto]. by eapply Ht in E as [? _].
Qed.
End while_loops.

(** Conversion compares loops before it runs them. *)
#[global] Strategy 1000 [loop while].

Section loops.
Context {S A : Type} (f : S -> A -> res S).

Lemma for_each_app s l1 l2 :
  for_each f s (l1 ++ l2) = let! s' := for_each f s l1 in for_each f s' l2.
Proof. revert s; induction l1 as [|x l1 IH]; intros s; simpl; [done|]. by destruct (f s x). Qed.

(** Invariant rule: [P done s] holds of the elements already visited. *)
Lemma for_each_inv (P : list A -> S -> Prop) l s s' :
  for_each f s l = Ok s' -> P [] s ->
  (forall pre x t s1 s2, l = pre ++ x :: t -> P pre s1 -> f s1 x = Ok s2 -> P (pre ++ [x]) s2) ->
  P l s'.
Proof.
  intros Hrun Hinit Hstep.
  enough (forall l2 l1 s1, l = l1 ++ l2 -> P l1 s1 -> for_each f s1 l2 = Ok s' -> P l s') as H
    by exact (H l [] s eq_refl Hinit Hrun).
  induction l2 as [|x l2 IH]; intros l1 s1 Hl HP Hr; simpl in Hr.
  - rewrite app_nil_r in Hl. by simplify_eq.
  - inv_ok. eapply (IH (l1 ++ [x])); [by rewrite <-app_assoc| |done]. eauto.
Qed.

(** The same for a loop whose body never raises while the invariant holds. *)
Lemma for_each_total (P : list A -> S -> Prop) l s :
  P [] s ->
  (forall pre x t s1, l = pre ++ x :: t -> P pre s1 -> exists s2, f s1 x = Ok s2 /\ P (pre ++ [x]) s2) ->
  exists s', for_each f s l = Ok s' /\ P l s'.
Proof.
  intros Hinit Hstep.
  enough (forall l2 l1 s1, l = l1 ++ l2 -> P l1 s1 -> exists s', for_each f s1 l2 = Ok s' /\ P l s') as H
    by exact (H l [] s eq_refl Hinit).
  induction l2 as [|x l2 IH]; intros l1 s1 Hl HP; simpl.
  - rewrite app_nil_r in Hl. subst. eauto.
  - destruct (Hstep _ _ _ _ Hl HP) as (s2 & -> & HP2). eapply (IH (l1 ++ [x])); [by rewrite <-app_assoc|done].
Qed.
End loops.

(** A loop that only checks has checked every element. *)
Lemma for_each_check {A} (f : unit -> A -> res unit) l x : for_each f tt l = Ok tt -> x ∈ l -> f tt x = Ok tt.
Proof.
  induction l as [|y l IH]; intros Hl Hx; [set_solver|]. simpl in Hl. inv_ok. destruct a.
  apply elem_of_cons in Hx as [->|Hx]; auto.
Qed.

Lemma map_res_ok {A B} (f : A -> res B) l r :
  map_res f l = Ok r <-> Forall2 (fun x y => f x = Ok y) l r.
Proof.
  revert r; induction l as [|x l IH]; intros r; simpl; split; intros H.
  - inv_ok. constructor.
  - by inversion H.
  - inv_ok. constructor; [done|]. by apply IH.
  - inversion H as [|?? ? ? Hx Hl]; subst. rewrite Hx. apply IH in Hl. by rewrite Hl.
Qed.

Lemma any_res_false {A} (f : A -> res bool) l :
  any_res f l = Ok false <-> Forall (fun x => f x = Ok false) l.
Proof.
  induction l as [|x l IH]; simpl; [split; [constructor|done]|].
  rewrite or_else_false, IH, Forall_cons_iff. done.
Qed.

Lemma existsb_false_iff {A} (f : A -> bool) l :
  existsb f l = false <-> (forall x, x ∈ l -> f x = false).
Proof.
  rewrite <-not_true_iff_false, existsb_exists. split.
  - intros H x Hx. apply not_true_iff_false. intros Hf. apply H. exists x. by rewrite <-list_elem_of_In.
  - intros H (x & Hx%list_elem_of_In & Hf). rewrite H in Hf; done.
Qed.

Lemma forallb_elem {A} (f : A -> bool) l :
  forallb f l = true <-> (forall x, x ∈ l -> f x = true).
Proof. rewrite forallb_forall. by setoid_rewrite list_elem_of_In. Qed.

(** ** Which exceptions a computation can raise *)

Definition raises_only {A} (ok : exn_class -> bool) (r : res A) : Prop :=
  match r with Ok _ => True | Err e => ok (exn_cls e) = true end.

Section raises.
Context (ok : exn_class -> bool).

Lemma raises_bind {A B} (r : res A) (k : A -> res B) :
  raises_only ok r -> (forall a, r = Ok a -> raises_only ok (k a)) ->
  raises_only ok (let! a := r in k a).
Proof. destruct r; simpl; auto. Qed.

Lemma raises_raise_if b c m : ok c = true -> raises_only ok (raise_if b c m).
Proof. by destruct b. Qed.

Lemma raises_for_each {S A} (f : S -> A -> res S) s l :
  (forall s x, raises_only ok (f s x)) -> raises_only ok (for_each f s l).
Proof.
  intros Hf. revert s; induction l as [|x l IH]; intros s; simpl; [done|].
  apply raises_bind; [apply Hf|auto].
Qed.
End raises.

(** *** Results and refusals

    [refuses_as ok r Q]: [r] is a value with [Q], or one of the exceptions by which the
    program refuses an input; [refuses]: a [ValueError]. *)
Definition refuses_as {A} (ok : exn_class -> bool) (r : res A) (Q : A -> Prop) : Prop :=
  match r with Ok a => Q a | Err e => ok (exn_cls e) = true end.
Abbreviation refuses := (refuses_as is_value_error).

Lemma refuses_raise {A} m (Q : A -> Prop) : refuses (raise ValueError m) Q.
Proof. done. Qed.

Lemma refuses_raise_if b m : refuses (raise_if b ValueError m) (fun _ => b = false).
Proof. by destruct b. Qed.

Section refusals.
Context {A B : Type} (ok : exn_class -> bool).

Lemma refuses_ok (a : A) (Q : A -> Prop) : Q a -> refuses_as ok (Ok a) Q.
Proof. done. Qed.

Lemma refuses_raise_by c m (Q : A -> Prop) : ok c = true -> refuses_as ok (raise c m) Q.
Proof. done. Qed.

Lemma refuses_raise_if_by b c m : ok c = true -> refuses_as ok (raise_if b c m) (fun _ => b = false).
Proof. by destruct b. Qed.

Lemma refuses_bind (r : res A) (k : A -> res B) (P : A -> Prop) (Q : B -> Prop) :
  refuses_as ok r P -> (forall a, P a -> refuses_as ok (k a) Q) -> refuses_as ok (let! a := r in k a) Q.
Proof. destruct r; simpl; auto. Qed.

Lemma refuses_conseq (r : res A) (P Q : A -> Prop) : refuses_as ok r P -> (forall a, P a -> Q a) -> refuses_as ok r Q.
Proof. destruct r; simpl; auto. Qed.

Lemma refuses_map_res (f : A -> res B) (P : A -> B -> Prop) l :
  (forall x, x ∈ l -> refuses_as ok (f x) (P x)) -> refuses_as ok (map_res f l) (Forall2 P l).
Proof.
  induction l as [|x l IH]; intros Hf; simpl; [constructor|].
  specialize (Hf x ltac:(left)) as Hx. destruct (f x) as [y|e]; [|done]. simpl in *.
  specialize (IH ltac:(intros; apply Hf; by right)). destruct (map_res f l); [|done]. by constructor.
Qed.
End refusals.
Arguments refuses_ok {A} {ok} a Q.
Arguments refuses_bind {A B} {ok} r k P Q.
Arguments refuses_conseq {A} {ok} r P Q.
Arguments refuses_map_res {A B} {ok} f P l.

Lemma refuses_for_each {S A} ok (f : S -> A -> res S) (I : S -> Prop) s l :
  I s -> (forall s x, x ∈ l -> I s -> refuses_as ok (f s x) I) -> refuses_as ok (for_each f s l) I.
Proof.
  revert s; induction l as [|x l IH]; intros s Hs Hf; simpl; [done|].
  eapply (refuses_bind _ _ I); [apply Hf; [left|done]|]. intros s' Hs'. apply IH; [done|].
  intros s2 y Hy. apply Hf. by right.
Qed.

Lemma refuses_bind_unit {B} ok (r : res unit) (k : res B) (P : Prop) (Q : B -> Prop) :
  refuses_as ok r (fun _ => P) -> (P -> refuses_as ok k Q) -> refuses_as ok (r ;; k) Q.
Proof. destruct r; simpl; auto. Qed.

(** Both branches of a [while] loop's turn. *)
Lemma refuses_while {S A} ok (turn : S -> res (S + A)) (I : S -> Prop) (Q : A -> Prop) (m : S -> Z) s :
  (forall s, I s -> refuses_as ok (turn s) (fun r => match r with inl s' => I s' /\ (0 <= m s' < m s)%Z | inr a => Q a end)) ->
  I s -> (m s < 2 ^ 64)%Z -> refuses_as ok (while turn s) Q.
Proof.
  intros Ht Hs Hm. unfold while.
  pose proof (loop_measure turn 64 I m s) as Hl. pose proof (loop_inv turn 64 I Q (fun e => ok (exn_cls e) = true) s) as Hi.
  destruct (loop 64 turn s) as [[s'|a]|e].
  - destruct Hl as (_ & Hl); [|done|].
    + intros x x' Hx Hxx. specialize (Ht x Hx). rewrite Hxx in Ht. exact Ht.
    + change (2 ^ Z.of_nat 64)%Z with (2 ^ 64)%Z in Hl. lia.
  - apply Hi; [|done]. intros x Hx. specialize (Ht x Hx). destruct (turn x) as [[x'|b]|e]; [apply Ht|done|done].
  - apply Hi; [|done]. intros x Hx. specialize (Ht x Hx). destruct (turn x) as [[x'|b]|e']; [apply Ht|done|done].
Qed.

Arguments refuses_for_each {S A} {ok} f I s l.
Arguments refuses_bind_unit {B} {ok} r k P Q.
Arguments refuses_while {S A} {ok} turn I Q m s.

(** ** Dicts with keys of any type

    The items in insertion order; assigning to an existing key keeps its place. *)
Section assoc.
Context {K V : Type} `{EqDecision K}.

Fixpoint alookup (k : K) (l : list (K * V)) : option V :=
  match l with
  | [] => None
  | (k', v) :: t => if bool_decide (k = k') then Some v else alookup k t
  end.

Fixpoint aset (k : K) (v : V) (l : list (K * V)) : list (K * V) :=
  match l with
  | [] => [(k, v)]
  | (k', w) :: t => if bool_decide (k = k') then (k', v) :: t else (k', w) :: aset k v t
  end.

(** [d.setdefault(k, v)] as a statement. *)
Definition asetdefault (k : K) (v : V) (l : list (K * V)) : list (K * V) :=
  match alookup k l with Some _ => l | None => l ++ [(k, v)] end.

Lemma alookup_aset k k' v l :
  alookup k (aset k' v l) = if bool_decide (k = k') then Some v else alookup k l.
Proof.
  induction l as [|[j w] l IH]; simpl; [done|].
  repeat (case_bool_decide; simpl; subst); try done; try congruence.
Qed.

Lemma alookup_app k l1 l2 :
  alookup k (l1 ++ l2) = match alookup k l1 with Some v => Some v | None => alookup k l2 end.
Proof. induction l1 as [|[j w] l IH]; simpl; [done|]. by case_bool_decide. Qed.

Lemma alookup_elem k v l : alookup k l = Some v -> (k, v) ∈ l.
Proof.
  induction l as [|[j w] l IH]; simpl; [done|]. case_bool_decide; intros; simplify_eq; [by left|right; auto].
Qed.

Lemma alookup_none k l : alookup k l = None <-> k ∉ map fst l.
Proof.
  induction l as [|[j w] l IH]; simpl; [set_solver|]. case_bool_decide; [set_solver|]. rewrite IH. set_solver.
Qed.

Lemma alookup_nodup k v l : NoDup (map fst l) -> (k, v) ∈ l -> alookup k l = Some v.
Proof.
  induction l as [|[j w] l IH]; simpl; [set_solver|]. intros [Hj Hn]%list.NoDup_cons [?|H]%elem_of_cons.
  - simplify_eq. by rewrite bool_decide_true.
  - case_bool_decide; [|auto]. subst. destruct Hj. apply list_elem_of_fmap. by exists (j, v).
Qed.

Lemma alookup_asetdefault k k' v l :
  alookup k (asetdefault k' v l) =
  match alookup k l with Some w => Some w | None => if bool_decide (k = k') then Some v else None end.
Proof.
  unfold asetdefault. destruct (alookup k' l) eqn:E.
  - destruct (alookup k l) eqn:E2; [done|]. case_bool_decide; [congruence|done].
  - rewrite alookup_app. destruct (alookup k l); [done|]. simpl. by case_bool_decide.
Qed.

Lemma aset_nodup k v l : NoDup (map fst l) -> NoDup (map fst (aset k v l)).
Proof.
  induction l as [|[j w] l IH]; simpl; intros H; [apply NoDup_singleton|].
  apply list.NoDup_cons in H as [Hj H]. case_bool_decide; simpl; [by constructor|].
  assert (forall x, x ∈ map fst (aset k v l) -> x = k \/ x ∈ map fst l) as Hin'.
  { clear -l. induction l as [|[j w] l IH]; simpl; intros x; [set_solver|]. case_bool_decide; simpl; set_solver. }
  constructor; [|by apply IH]. intros [->|]%Hin'; done.
Qed.
End assoc.

Lemma for_each_map {S A B} (f : S -> B -> res S) (g : A -> B) s l :
  for_each f s (map g l) = for_each (fun s x => f s (g x)) s l.
Proof. revert s; induction l as [|x l IH]; intros s; simpl; [done|]. by destruct (f s (g x)). Qed.

Create HintDb py.
#[export] Hint Resolve Forall_nil_2 Forall_cons_2 NoDup_nil_2 : py.
