(* ===== verification/PyStr.v ===== *)
(** * Python strings, bytes, paths and regular expressions

    The parts of [str], [bytes], [os.path], [pathlib.PurePosixPath] and [re] the
    scripts use.  A [str] is the list of its code points, a [bytes] object the
    list of its bytes.  [re] patterns are terms of [re], matched by derivatives
    ([fullmatch]); [fullmatch_spec] shows the matcher decides the language. *)
From Stdlib Require Import ZArith Lia Ascii.
From Stdlib Require Import Init.Byte Strings.Byte.
From stdpp Require Import base list sets strings option.
From S2P Require Import Prelude.

Open Scope string_scope.
Open Scope list_scope.
Open Scope Z_scope.

(** ** Strings *)

Abbreviation pystr := (list Z).

(** The code points of an ASCII literal. *)
Fixpoint str (s : string) : pystr :=
  match s with
  | EmptyString => []
  | String c t => Z.of_N (N_of_ascii c) :: str t
  end.
Coercion str : string >-> list.
#[global] Arguments str _ : simpl never.
Definition strs (l : list string) : list pystr := map str l.

Definition str_eqb (a b : pystr) : bool := bool_decide (a = b).
Infix "=s" := str_eqb (at level 70) : py_scope.

(** [s in (a, b, ...)] for a tuple or set of strings. *)
Definition mem (s : pystr) (l : list pystr) : bool := bool_decide (s ∈ l).

(** [a.startswith(p)], [a.endswith(p)]. *)
Definition startswith {A} `{EqDecision A} (s p : list A) : bool := bool_decide (p `prefix_of` s).
Definition endswith {A} `{EqDecision A} (s p : list A) : bool := bool_decide (p `suffix_of` s).

(** [c in s] for a one-character string. *)
Definition has_char (c : Z) (s : pystr) : bool := bool_decide (c ∈ s).

(** [a.split(c)] for a one-character separator: never empty. *)
Fixpoint split_on (c : Z) (s : pystr) : list pystr :=
  match s with
  | [] => [[]]
  | x :: t =>
      if x =? c then [] :: split_on c t
      else match split_on c t with
           | [] => [[x]]
           | h :: r => (x :: h) :: r
           end
  end.

(** [c.join(l)] for a one-character separator. *)
Fixpoint join_with (c : Z) (l : list pystr) : pystr :=
  match l with
  | [] => []
  | [x] => x
  | x :: t => x ++ c :: join_with c t
  end.

(** [s.partition(c)[0]] *)
Fixpoint before_char (c : Z) (s : pystr) : pystr :=
  match s with
  | [] => []
  | x :: t => if x =? c then [] else x :: before_char c t
  end.

(** [len(s)] as an integer. *)
Definition zlen {A} (l : list A) : Z := Z.of_nat (length l).

(** ** Characters *)

Lemma zlen_cons {A} (x : A) l : zlen (x :: l) = zlen l + 1.
Proof. unfold zlen. simpl length. lia. Qed.

Lemma zlen_app {A} (a b : list A) : zlen (a ++ b) = zlen a + zlen b.
Proof. unfold zlen. rewrite length_app. lia. Qed.

Lemma zlen_nonneg {A} (a : list A) : 0 <= zlen a.
Proof. unfold zlen. lia. Qed.

(** The middle of [a ++ b ++ c], for any way of giving its bounds. *)

Definition SLASH : Z := 47.
Definition NUL : Z := 0.
Definition EQUALS : Z := 61.

Definition in_range (lo hi c : Z) : bool := (lo <=? c) && (c <=? hi).
Definition is_lower_hex (c : Z) : bool := in_range 48 57 c || in_range 97 102 c.
Definition is_hex (c : Z) : bool := is_lower_hex c || in_range 65 70 c.
Definition is_ascii_digit (c : Z) : bool := in_range 48 57 c.
Definition is_alnum (c : Z) : bool := in_range 48 57 c || in_range 65 90 c || in_range 97 122 c.
Definition one_of (s : string) (c : Z) : bool := has_char c (str s).

(** The first of each run of ten decimal digits (category Nd): what [\d] matches
    in a [str] pattern. *)
Definition nd_zeros : list Z :=
  [48; 1632; 1776; 1984; 2406; 2534; 2662; 2790; 2918; 3046; 3174; 3302;
   3430; 3558; 3664; 3792; 3872; 4160; 4240; 6112; 6160; 6470; 6608; 6784;
   6800; 6992; 7088; 7232; 7248; 42528; 43216; 43264; 43472; 43504; 43600;
   44016; 65296; 66720; 68912; 69734; 69872; 69942; 70096; 70384; 70736;
   70864; 71248; 71360; 71472; 71904; 72016; 72784; 73040; 73120; 92768;
   92864; 93008; 120782; 120792; 120802; 120812; 120822; 123200; 123632;
   125264; 130032].
Definition is_decimal (c : Z) : bool := existsb (fun z => in_range z (z + 9) c) nd_zeros.

(** [s.isdigit()] accepts more than the decimal digits (superscripts, circled
    digits, ...), and [int(s)] of digits only those; its limit on the number of
    digits is the decimal text limit. *)
Definition other_digits : list (Z * Z) :=
  [(0xB2, 0xB3); (0xB9, 0xB9); (0x1369, 0x1371); (0x19DA, 0x19DA); (0x2070, 0x2070); (0x2074, 0x2079);
   (0x2080, 0x2089); (0x2460, 0x2468); (0x2474, 0x247C); (0x2488, 0x2490); (0x24EA, 0x24EA); (0x24F5, 0x24FD);
   (0x24FF, 0x24FF); (0x2776, 0x277E); (0x2780, 0x2788); (0x278A, 0x2792); (0x10A40, 0x10A43);
   (0x10E60, 0x10E68); (0x11052, 0x1105A); (0x1F100, 0x1F10A)].
Definition is_digit (c : Z) : bool := is_decimal c || existsb (fun r => in_range r.1 r.2 c) other_digits.
Definition isdigit (s : pystr) : bool := negb (bool_decide (s = [])) && forallb is_digit s.

Definition decimal_value (c : Z) : option Z :=
  match List.find (fun z => in_range z (z + 9) c) nd_zeros with Some z => Some (c - z) | None => None end.
Fixpoint decimal_fold (acc : Z) (s : pystr) : option Z :=
  match s with
  | [] => Some acc
  | c :: t => match decimal_value c with Some d => decimal_fold (10 * acc + d) t | None => None end
  end.
(** [int(s)] of a non-empty text of digits. *)
Definition int_of_digits (s : pystr) : res Z :=
  if (4300 <? length s)%nat then raise ValueError "Exceeds the limit for integer string conversion"
  else match decimal_fold 0 s with Some n => Ok n | None => raise ValueError "invalid literal for int()" end.

(** ** Paths *)

(** [posixpath.splitroot]: exactly two leading slashes are a root of their own. *)
Definition splitroot (s : pystr) : pystr * pystr :=
  match s with
  | a :: r =>
      if a =? SLASH then
        match r with
        | b :: r' =>
            if b =? SLASH then
              match r' with
              | c :: _ => if c =? SLASH then (str "/", r) else (str "//", r')
              | [] => (str "//", r')
              end
            else (str "/", r)
        | [] => (str "/", r)
        end
      else ([], s)
  | [] => ([], s)
  end.

(** [PurePosixPath(s)]: the root and the components, without the empty and
    [.] components. *)
Record ppath : Type := PPath { pp_root : pystr; pp_comps : list pystr }.

#[export] Instance ppath_eq_dec : EqDecision ppath.
Proof. solve_decision. Defined.

Definition real_component (c : pystr) : bool := negb (c =s str "") && negb (c =s str ".").

Definition pure_path (s : pystr) : ppath :=
  let '(root, rel) := splitroot s in
  PPath root (List.filter real_component (split_on SLASH rel)).

(** [str(p)] and [p.as_posix()] *)
Definition as_posix (p : ppath) : pystr :=
  match pp_root p ++ join_with SLASH (pp_comps p) with
  | [] => str "."
  | s => s
  end.

(** [p.parts] *)
Definition parts (p : ppath) : list pystr :=
  if pp_root p =s str "" then pp_comps p else pp_root p :: pp_comps p.

(** [p.name] *)
Definition path_name (p : ppath) : pystr := List.last (pp_comps p) [].

(** [str.isspace] of one character, [s.strip()], [s.splitlines()] and
    [s.split(c, 1)]. *)
Definition is_py_space (c : Z) : bool :=
  in_range 9 13 c || in_range 28 32 c || (c =? 0x85) || (c =? 0xA0) || (c =? 0x1680) || in_range 0x2000 0x200A c
  || (c =? 0x2028) || (c =? 0x2029) || (c =? 0x202F) || (c =? 0x205F) || (c =? 0x3000).
Fixpoint strip_left (s : pystr) : pystr :=
  match s with x :: t => if is_py_space x then strip_left t else s | [] => [] end.
Definition strip (s : pystr) : pystr := rev (strip_left (rev (strip_left s))).

Definition is_line_break (c : Z) : bool :=
  in_range 10 13 c || in_range 28 30 c || (c =? 0x85) || (c =? 0x2028) || (c =? 0x2029).
(** [cur]: the characters of the current line, last first. *)
Fixpoint splitlines_from (cur : pystr) (s : pystr) : list pystr :=
  match s with
  | [] => match cur with [] => [] | _ => [rev cur] end
  | c :: t =>
      if is_line_break c then
        match t with
        | d :: u => if (c =? 13) && (d =? 10) then rev cur :: splitlines_from [] u else rev cur :: splitlines_from [] t
        | [] => [rev cur]
        end
      else splitlines_from (c :: cur) t
  end.
Definition splitlines (s : pystr) : list pystr := splitlines_from [] s.

(** [s.split()]: the words between white space; [cur] is the current word, last first. *)
Fixpoint words_from (cur : pystr) (s : pystr) : list pystr :=
  match s with
  | [] => match cur with [] => [] | _ => [rev cur] end
  | c :: t =>
      if is_py_space c then match cur with [] => words_from [] t | _ => rev cur :: words_from [] t end
      else words_from (c :: cur) t
  end.
Definition split_words (s : pystr) : list pystr := words_from [] s.

Fixpoint split_once (c : Z) (s : pystr) : option (pystr * pystr) :=
  match s with
  | [] => None
  | x :: t => if x =? c then Some ([], t) else
              match split_once c t with Some (a, b) => Some (x :: a, b) | None => None end
  end.

Example splitlines_example :
  splitlines (str "a" ++ [13; 10] ++ str "b" ++ [10; 10] ++ str "c") = [str "a"; str "b"; []; str "c"].
Proof. reflexivity. Qed.

(** [s.rstrip(c)], and [posixpath.dirname]: everything before the last slash,
    without trailing slashes unless there is nothing else. *)
Fixpoint strip_front (c : Z) (s : pystr) : pystr :=
  match s with x :: t => if x =? c then strip_front c t else s | [] => [] end.
Definition rstrip_char (c : Z) (s : pystr) : pystr := rev (strip_front c (rev s)).
Definition dirname (s : pystr) : pystr :=
  match rev (split_on SLASH s) with
  | _ :: c :: r =>
      let head := join_with SLASH (rev (c :: r)) ++ [SLASH] in
      if forallb (Z.eqb SLASH) head then head else rstrip_char SLASH head
  | _ => []
  end.

Example dirname_examples :
  map dirname (strs ["d/l"; "l"; "/x"; "a/b/"; "a//b"; "//"; ""]) = strs ["d"; ""; "/"; "a/b"; "a"; "//"; ""].
Proof. reflexivity. Qed.

(** [posixpath.normpath]: the [..] of a component is resolved textually. *)
Fixpoint norm_comps (absolute : bool) (acc : list pystr) (l : list pystr) : list pystr :=
  match l with
  | [] => rev acc
  | c :: t =>
      if negb (real_component c) then norm_comps absolute acc t
      else if negb (c =s str "..") then norm_comps absolute (c :: acc) t
      else match acc with
           | [] => norm_comps absolute (if absolute then [] else [c]) t
           | p :: acc' =>
               if p =s str ".." then norm_comps absolute (c :: acc) t
               else norm_comps absolute acc' t
           end
  end.

Definition normpath (s : pystr) : pystr :=
  match s with
  | [] => str "."
  | _ =>
      let '(root, rel) := splitroot s in
      match root ++ join_with SLASH (norm_comps (negb (root =s str "")) [] (split_on SLASH rel)) with
      | [] => str "."
      | r => r
      end
  end.

(** ** Regular expressions *)

Inductive re : Type :=
  | Empty
  | Eps
  | Cls (p : Z -> bool)
  | Cat (a b : re)
  | Alt (a b : re)
  | Star (a : re)
  | Rep (a : re) (m n : nat).

Definition Lit (s : string) : re := foldr (fun c r => Cat (Cls (Z.eqb c)) r) Eps (str s).
Definition Opt (a : re) : re := Alt Eps a.
Definition Plus (a : re) : re := Cat a (Star a).

(** The language of a pattern. *)
Inductive matches : re -> pystr -> Prop :=
  | m_eps : matches Eps []
  | m_cls p c : p c = true -> matches (Cls p) [c]
  | m_cat a b s t : matches a s -> matches b t -> matches (Cat a b) (s ++ t)
  | m_alt_l a b s : matches a s -> matches (Alt a b) s
  | m_alt_r a b s : matches b s -> matches (Alt a b) s
  | m_star_nil a : matches (Star a) []
  | m_star_app a s t : matches a s -> matches (Star a) t -> matches (Star a) (s ++ t)
  | m_rep_nil a n : matches (Rep a 0 n) []
  | m_rep_app a m n s t :
      matches a s -> matches (Rep a (pred m) n) t -> matches (Rep a m (S n)) (s ++ t).

Fixpoint nullable (r : re) : bool :=
  match r with
  | Empty | Cls _ => false
  | Eps | Star _ => true
  | Cat a b => nullable a && nullable b
  | Alt a b => nullable a || nullable b
  | Rep a m n => match m with O => true | _ => (m <=? n)%nat && nullable a end
  end.

Fixpoint deriv (c : Z) (r : re) : re :=
  match r with
  | Empty | Eps => Empty
  | Cls p => if p c then Eps else Empty
  | Cat a b => if nullable a then Alt (Cat (deriv c a) b) (deriv c b) else Cat (deriv c a) b
  | Alt a b => Alt (deriv c a) (deriv c b)
  | Star a => Cat (deriv c a) (Star a)
  | Rep a m n => match n with O => Empty | S n' => Cat (deriv c a) (Rep a (pred m) n') end
  end.

(** [re.fullmatch(r, s) is not None] *)
Definition fullmatch (r : re) (s : pystr) : bool :=
  nullable (foldl (fun r c => deriv c r) r s).

(** Patterns several scripts share. *)
Definition LOWER_HEX : re := Cls is_lower_hex.
Definition HEX64 : re := Rep LOWER_HEX 64 64.

(** ** The matcher decides the language *)

Create HintDb re.
#[export] Hint Constructors matches : re.

Lemma matches_cat_inv a b s :
  matches (Cat a b) s <-> exists s1 s2, s = s1 ++ s2 /\ matches a s1 /\ matches b s2.
Proof. split; [inversion 1; eauto|]. intros (?&?&->&?&?). eauto with re. Qed.

Lemma matches_alt_inv a b s : matches (Alt a b) s <-> matches a s \/ matches b s.
Proof. split; [inversion 1; eauto|]. intros []; eauto with re. Qed.

Lemma matches_cls_inv p s : matches (Cls p) s <-> exists c, s = [c] /\ p c = true.
Proof. split; [inversion 1; eauto|]. intros (?&->&?). eauto with re. Qed.

Lemma rep_pad a m n s : matches a [] -> matches (Rep a (pred m) n) s -> matches (Rep a m (S n)) s.
Proof. intros Ha Hs. apply (m_rep_app a m n [] s Ha Hs). Qed.

Lemma rep_nil a m n : matches (Rep a m n) [] <-> m = O \/ (m <= n)%nat /\ matches a [].
Proof.
  split.
  - revert m. induction n as [|n IH]; intros m H; inversion H as [| | | | | | |? ?|? ? ? s t Ha Ht Heq];
      subst; auto.
    match goal with E : s ++ t = [] |- _ => apply app_eq_nil in E as [-> ->] end.
    destruct m as [|m]; [auto|]. apply IH in Ht as [Hm|[Hm _]]; right; split; auto; simpl in *; lia.
  - intros [->|[Hle Ha]]; [constructor|].
    revert m Hle. induction n as [|n IH]; intros m Hle.
    + assert (m = O) as -> by lia. constructor.
    + destruct m; [constructor|]. apply rep_pad, IH; [done|]. simpl; lia.
Qed.

Lemma nullable_spec r : nullable r = true <-> matches r [].
Proof.
  induction r as [| |p|a IHa b IHb|a IHa b IHb|a IHa|a IHa m n]; simpl.
  - split; [done|inversion 1].
  - split; eauto with re.
  - split; [done|inversion 1].
  - rewrite andb_true_iff, IHa, IHb, matches_cat_inv. split.
    + intros []; exists [], []; auto.
    + intros (s1&s2&E&?&?). symmetry in E. by apply app_eq_nil in E as [-> ->].
  - by rewrite orb_true_iff, IHa, IHb, matches_alt_inv.
  - split; eauto with re.
  - rewrite rep_nil. destruct m as [|m]; [tauto|].
    rewrite andb_true_iff, IHa, Nat.leb_le. split; [tauto|]. by intros [|].
Qed.

Lemma star_cons a c s :
  matches (Star a) (c :: s) -> exists s1 s2, s = s1 ++ s2 /\ matches a (c :: s1) /\ matches (Star a) s2.
Proof.
  remember (Star a) as r eqn:Er. remember (c :: s) as w eqn:Ew. intros H; revert Er c s Ew.
  induction H as [| | | | | |a' s1 t Ha _ Ht IH| |]; intros; simplify_eq.
  destruct s1 as [|x s1]; simplify_list_eq; [by eapply IH|]. by exists s1, t.
Qed.

Lemma rep_cons a m n c s :
  matches (Rep a m n) (c :: s) ->
  exists n' s1 s2, n = S n' /\ s = s1 ++ s2 /\ matches a (c :: s1) /\ matches (Rep a (pred m) n') s2.
Proof.
  revert m. induction n as [|n IH]; intros m H;
    inversion H as [| | | | | | | |? ? ? s1 t Ha Ht Heq]; subst.
  destruct s1 as [|x s1]; simplify_list_eq.
  - destruct (IH _ Ht) as (n'&u1&u2&->&->&Hu&Hr).
    exists (S n'), u1, u2. repeat split; auto. by apply rep_pad.
  - eauto 10.
Qed.

Lemma deriv_spec r c s : matches (deriv c r) s <-> matches r (c :: s).
Proof.
  revert s; induction r as [| |p|a IHa b IHb|a IHa b IHb|a IHa|a IHa m n]; intros s; simpl.
  - split; inversion 1.
  - split; inversion 1.
  - rewrite matches_cls_inv. destruct (p c) eqn:E.
    + split; [inversion 1; subst; eauto|]. intros (?&?&?); simplify_eq. constructor.
    + split; [inversion 1|]. intros (?&?&?); simplify_eq; congruence.
  - assert (matches (Cat (deriv c a) b) s <->
            exists s1 s2, s = s1 ++ s2 /\ matches a (c :: s1) /\ matches b s2) as Hcat.
    { rewrite matches_cat_inv. by setoid_rewrite IHa. }
    destruct (nullable a) eqn:Hn; rewrite ?matches_alt_inv, Hcat, ?IHb, matches_cat_inv.
    + apply nullable_spec in Hn. split.
      * intros [(s1&s2&->&?&?)|?]; [by exists (c :: s1), s2|by exists [], (c :: s)].
      * intros ([|x s1]&s2&E&?&?); simplify_list_eq; eauto 10.
    + split.
      * intros (s1&s2&->&?&?). by exists (c :: s1), s2.
      * intros ([|x s1]&s2&E&Ha&?); simplify_list_eq; eauto.
        apply nullable_spec in Ha. congruence.
  - by rewrite !matches_alt_inv, IHa, IHb.
  - rewrite matches_cat_inv. setoid_rewrite IHa. split.
    + intros (s1&s2&->&?&?). by apply (m_star_app a (c :: s1)).
    + apply star_cons.
  - destruct n as [|n].
    + split; [inversion 1|]. intros H. apply rep_cons in H as (?&?&?&?&?). done.
    + rewrite matches_cat_inv. setoid_rewrite IHa. split.
      * intros (s1&s2&->&?&?). by apply (m_rep_app a m n (c :: s1)).
      * intros (?&s1&s2&?&?&?&?)%rep_cons; simplify_eq. eauto.
Qed.

(** [fullmatch r s] answers whether [s] is in the language of [r]. *)
Lemma fullmatch_spec r s : fullmatch r s = true <-> matches r s.
Proof.
  unfold fullmatch. revert r; induction s as [|c s IH]; intros r; simpl.
  - apply nullable_spec.
  - by rewrite IH, deriv_spec.
Qed.

Lemma matches_rep_cls p m n s :
  matches (Rep (Cls p) m n) s <-> Forall (fun c => p c = true) s /\ (m <= length s <= n)%nat.
Proof.
  revert m n; induction s as [|c s IH]; intros m n.
  - rewrite rep_nil. split.
    + intros [->|[_ H]]; [simpl; split; [constructor|lia]|inversion H].
    + simpl. intros [_ ?]. left; lia.
  - split.
    + intros (n'&s1&s2&->&->&Hc&Hr)%rep_cons. apply matches_cls_inv in Hc as (?&?&?); simplify_eq.
      apply IH in Hr as [? ?]. simpl in *. split; [by constructor|lia].
    + intros [[Hc Hs]%Forall_cons_iff Hl]. destruct n as [|n]; simpl in Hl; [lia|].
      apply (m_rep_app _ m n [c]); [by constructor|]. apply IH. split; [done|lia].
Qed.

(** The characters a pattern can match. *)
Fixpoint re_chars (P : Z -> Prop) (r : re) : Prop :=
  match r with
  | Empty | Eps => True
  | Cls p => forall c, p c = true -> P c
  | Cat a b | Alt a b => re_chars P a /\ re_chars P b
  | Star a | Rep a _ _ => re_chars P a
  end.

Lemma fullmatch_chars P r s : re_chars P r -> fullmatch r s = true -> Forall P s.
Proof.
  intros Hr Hm%fullmatch_spec. induction Hm; simpl in Hr; try destruct Hr; try (by constructor; auto); auto.
  all: apply Forall_app; auto.
Qed.

Lemma hex64_spec s :
  fullmatch HEX64 s = true <-> Forall (fun c => is_lower_hex c = true) s /\ length s = 64%nat.
Proof. unfold HEX64, LOWER_HEX. rewrite fullmatch_spec, matches_rep_cls. naive_solver lia. Qed.

(** ** Splitting, joining and canonical paths *)

Lemma str_eqb_eq a b : (a =s b) = true <-> a = b.
Proof. apply bool_decide_eq_true. Qed.
Lemma str_eqb_refl a : (a =s a) = true.
Proof. by apply str_eqb_eq. Qed.
Lemma str_eqb_neq a b : (a =s b) = false <-> a <> b.
Proof. apply bool_decide_eq_false. Qed.
Lemma mem_elem s l : mem s l = true <-> s ∈ l.
Proof. apply bool_decide_eq_true. Qed.
Lemma mem_not_elem s l : mem s l = false <-> s ∉ l.
Proof. apply bool_decide_eq_false. Qed.
Lemma has_char_elem c s : has_char c s = true <-> c ∈ s.
Proof. apply bool_decide_eq_true. Qed.
Lemma has_char_not_elem c s : has_char c s = false <-> c ∉ s.
Proof. apply bool_decide_eq_false. Qed.
Lemma startswith_prefix {A} `{EqDecision A} (s p : list A) :
  startswith s p = true <-> p `prefix_of` s.
Proof. apply bool_decide_eq_true. Qed.
Lemma startswith_not_prefix {A} `{EqDecision A} (s p : list A) :
  startswith s p = false <-> ~ p `prefix_of` s.
Proof. apply bool_decide_eq_false. Qed.

(** Guards on strings become propositions too. *)
Ltac str_prop :=
  repeat (bool_prop; match goal with
  | H : (_ =s _) = true |- _ => apply str_eqb_eq in H
  | H : (_ =s _) = false |- _ => apply str_eqb_neq in H
  | H : mem _ _ = true |- _ => apply mem_elem in H
  | H : mem _ _ = false |- _ => apply mem_not_elem in H
  | H : has_char _ _ = true |- _ => apply has_char_elem in H
  | H : has_char _ _ = false |- _ => apply has_char_not_elem in H
  | H : startswith _ _ = true |- _ => apply startswith_prefix in H
  | H : startswith _ _ = false |- _ => apply startswith_not_prefix in H
  end); bool_prop.

Lemma split_on_not_nil c s : split_on c s <> [].
Proof. destruct s as [|x s]; simpl; [done|]. destruct (x =? c); [done|]. by destruct (split_on c s). Qed.

Lemma join_cons c x l : l <> [] -> join_with c (x :: l) = x ++ c :: join_with c l.
Proof. by destruct l. Qed.

Lemma join_split c s : join_with c (split_on c s) = s.
Proof.
  induction s as [|x s IH]; simpl; [done|].
  pose proof (split_on_not_nil c s) as Hne.
  destruct (Z.eqb_spec x c) as [->|].
  - by rewrite join_cons, IH.
  - destruct (split_on c s) as [|h [|h2 r]] eqn:E; [done| |]; simpl in *; by f_equal.
Qed.

Lemma split_on_sep_free c s : Forall (fun p => c ∉ p) (split_on c s).
Proof.
  induction s as [|x s IH]; simpl; [repeat constructor; set_solver|].
  destruct (Z.eqb_spec x c) as [->|]; [constructor; [set_solver|done]|].
  destruct (split_on c s); [repeat constructor; set_solver|].
  apply Forall_cons_iff in IH as [??]. constructor; set_solver.
Qed.

Lemma split_on_free c s : c ∉ s -> split_on c s = [s].
Proof.
  induction s as [|x s IH]; intros Hc; [done|]; simpl.
  destruct (Z.eqb_spec x c) as [->|]; [set_solver|]. rewrite IH; set_solver.
Qed.

Lemma split_on_app_sep c s t : c ∉ s -> split_on c (s ++ c :: t) = s :: split_on c t.
Proof.
  induction s as [|x s IH]; intros Hc; simpl; [by rewrite Z.eqb_refl|].
  destruct (Z.eqb_spec x c) as [->|]; [set_solver|]. rewrite IH; set_solver.
Qed.

Lemma split_join c l : l <> [] -> Forall (fun p => c ∉ p) l -> split_on c (join_with c l) = l.
Proof.
  induction l as [|x l IH]; intros Hne Hl; [done|]. apply Forall_cons_iff in Hl as [Hx Hl].
  destruct l as [|y l]; [by apply split_on_free|].
  rewrite join_cons, split_on_app_sep by done. f_equal. by apply IH.
Qed.

(** The components of a canonical path: no empty, [.] or [..] component. *)
Definition good_component (c : pystr) : Prop :=
  c <> [] /\ c <> str "." /\ c <> str ".." /\ SLASH ∉ c.

(** What the scripts call an absolute canonical path:
    [v.startswith("/") and PurePosixPath(v).as_posix() == v
     and ".." not in PurePosixPath(v).parts]. *)
Definition canonical_absolute (v : pystr) : bool :=
  startswith v (str "/") && (as_posix (pure_path v) =s v) && negb (mem (str "..") (parts (pure_path v))).

Lemma real_component_true c : real_component c = true <-> c <> [] /\ c <> str ".".
Proof. unfold real_component. rewrite andb_true_iff, !negb_true_iff, !str_eqb_neq. done. Qed.

Lemma pure_path_comps v : Forall (fun c => c <> [] /\ c <> str "." /\ SLASH ∉ c) (pp_comps (pure_path v)).
Proof.
  unfold pure_path. destruct (splitroot v) as [root rel]. simpl.
  apply List.Forall_forall. intros c [Hin Hr]%filter_In. apply real_component_true in Hr as [??].
  pose proof (split_on_sep_free SLASH rel) as Hf. rewrite List.Forall_forall in Hf. auto.
Qed.

Lemma splitroot_slash v : str "/" `prefix_of` v ->
  (splitroot v).1 = str "/" \/ (splitroot v).1 = str "//".
Proof.
  intros [w ->]. simpl. destruct w as [|b w]; simpl; [auto|].
  destruct (b =? SLASH); [|auto]. destruct w as [|d w]; [auto|]. destruct (d =? SLASH); auto.
Qed.

Lemma canonical_absolute_spec v :
  canonical_absolute v = true ->
  exists comps, pure_path v = PPath (splitroot v).1 comps /\
    ((splitroot v).1 = str "/" \/ (splitroot v).1 = str "//") /\
    v = (splitroot v).1 ++ join_with SLASH comps /\ Forall good_component comps.
Proof.
  unfold canonical_absolute. intros H. str_prop.
  rename H into Hs, H1 into Hp, H0 into Hdd. pose proof (splitroot_slash v Hs) as Hroot.
  pose proof (pure_path_comps v) as Hc.
  assert (pure_path v = PPath (splitroot v).1 (pp_comps (pure_path v))) as Hpp.
  { unfold pure_path. by destruct (splitroot v). }
  exists (pp_comps (pure_path v)). repeat split; auto.
  - rewrite <-Hp at 1. unfold as_posix. rewrite Hpp at 1 2. simpl.
    by destruct Hroot as [-> | ->].
  - apply List.Forall_forall. intros c Hin. rewrite List.Forall_forall in Hc.
    destruct (Hc c Hin) as (?&?&?). repeat split; auto. intros ->.
    apply Hdd, list_elem_of_In. unfold parts. destruct (_ =s _); [done|by right].
Qed.

Lemma join_app c l m : l <> [] -> m <> [] -> join_with c (l ++ m) = join_with c l ++ c :: join_with c m.
Proof.
  induction l as [|x l IH]; intros Hl Hm; [done|].
  destruct l as [|y l]; [by apply (join_cons c x m)|].
  change ((x :: y :: l) ++ m) with (x :: ((y :: l) ++ m)).
  rewrite !join_cons, IH by done. by rewrite <-app_assoc.
Qed.

(** A path whose components extend another's starts with it and a slash. *)
Lemma extends_startswith (cp cd : list pystr) root :
  cp <> [] -> cp `prefix_of` cd ->
  root ++ join_with SLASH cd = root ++ join_with SLASH cp \/
  (root ++ join_with SLASH cp) ++ str "/" `prefix_of` root ++ join_with SLASH cd.
Proof.
  intros Hne [t ->]. destruct (decide (t = [])) as [->|Ht].
  - left. by rewrite app_nil_r.
  - right. rewrite join_app by done. exists (join_with SLASH t). simpl. by rewrite <-!app_assoc.
Qed.

Lemma splitroot_app v : v = (splitroot v).1 ++ (splitroot v).2.
Proof.
  destruct v as [|a v]; [done|]. simpl. destruct (Z.eqb_spec a SLASH) as [->|]; [|done].
  destruct v as [|b v]; [done|]. destruct (Z.eqb_spec b SLASH) as [->|]; [|done].
  destruct v as [|c v]; [done|]. by destruct (c =? SLASH).
Qed.

Lemma norm_comps_good b acc l : Forall good_component l -> norm_comps b acc l = rev acc ++ l.
Proof.
  intros Hl. revert acc; induction Hl as [|c l (H1 & H2 & H3 & _) _ IH]; intros acc; simpl.
  - by rewrite app_nil_r.
  - assert (real_component c = true) as -> by (by apply real_component_true).
    apply str_eqb_neq in H3 as ->. simpl. rewrite IH. simpl. by rewrite <-app_assoc.
Qed.

(** A canonical path is a fixed point of [normpath]. *)
Lemma normpath_canonical v : canonical_absolute v = true -> normpath v = v.
Proof.
  intros (comps & Hp & Hroot & Hv & Hg)%canonical_absolute_spec. unfold normpath.
  pose proof (splitroot_app v) as Hs. destruct (splitroot v) as [root rel]. simpl in *.
  assert (rel = join_with SLASH comps) as -> by (rewrite Hs in Hv at 1; by simplify_list_eq).
  assert (norm_comps (negb (root =s str "")) [] (split_on SLASH (join_with SLASH comps)) = comps) as ->.
  { destruct (decide (comps = [])) as [->|Hne].
    - destruct Hroot as [-> | ->]; reflexivity.
    - rewrite split_join; [by apply norm_comps_good|done|].
      eapply list.Forall_impl; [exact Hg|]. by intros c (_ & _ & _ & ?). }
  rewrite <-Hv. destruct Hroot as [-> | ->]; subst v; done.
Qed.
