(* ===== verification/PyVal.v ===== *)
(** * Python values as [json.loads] builds them

    [None], booleans, integers, floats, strings, lists and dicts with string
    keys.  A dict is the association list of its items in insertion order;
    [wf_val] states that its keys are distinct.  Equality is Python's [==]:
    [True == 1 == 1.0], and dicts compare without regard to order. *)
From Stdlib Require Import ZArith Lia Sorting.Sorted.
From stdpp Require Import base list sets strings option.
From S2P Require Import Prelude PyStr.

Open Scope string_scope.
Open Scope list_scope.
Open Scope Z_scope.

(** A float is [m * 2^e], an infinity or not-a-number. *)
Inductive pyfloat : Type :=
  | FNan
  | FInf (negative : bool)
  | FFin (m e : Z).

Inductive pyval : Type :=
  | VNone
  | VBool (b : bool)
  | VInt (z : Z)
  | VFloat (f : pyfloat)
  | VStr (s : pystr)
  | VList (l : list pyval)
  | VDict (d : list (pystr * pyval)).

Abbreviation dict := (list (pystr * pyval)).

Section pyval_ind.
Variable P : pyval -> Prop.
Hypothesis Hnone : P VNone.
Hypothesis Hbool : forall b, P (VBool b).
Hypothesis Hint : forall z, P (VInt z).
Hypothesis Hfloat : forall f, P (VFloat f).
Hypothesis Hstr : forall s, P (VStr s).
Hypothesis Hlist : forall l, Forall P l -> P (VList l).
Hypothesis Hdict : forall d : dict, Forall (fun kv => P kv.2) d -> P (VDict d).

Fixpoint pyval_ind' (v : pyval) : P v :=
  match v with
  | VNone => Hnone
  | VBool b => Hbool b
  | VInt z => Hint z
  | VFloat f => Hfloat f
  | VStr s => Hstr s
  | VList l => Hlist l ((fix go l : Forall P l :=
      match l with
      | [] => List.Forall_nil _
      | x :: t => @List.Forall_cons _ P x t (pyval_ind' x) (go t)
      end) l)
  | VDict d => Hdict d ((fix go (d : dict) : Forall (fun kv => P kv.2) d :=
      match d with
      | [] => List.Forall_nil _
      | (k, x) :: t => @List.Forall_cons _ (fun kv : pystr * pyval => P kv.2) (k, x) t (pyval_ind' x) (go t)
      end) d)
  end.
End pyval_ind.

(** ** Dicts *)

Fixpoint dget (k : pystr) (d : dict) : option pyval :=
  match d with
  | [] => None
  | (k', v) :: t => if k =s k' then Some v else dget k t
  end.

Definition keys (d : dict) : list pystr := map fst d.
Definition has_key (k : pystr) (d : dict) : bool := mem k (keys d).

(** [d\[k\] = v]: an existing key keeps its place. *)
Fixpoint dset (k : pystr) (v : pyval) (d : dict) : dict :=
  match d with
  | [] => [(k, v)]
  | (k', w) :: t => if k =s k' then (k', v) :: t else (k', w) :: dset k v t
  end.

(** [d.pop(k, None)] *)
Definition ddel (k : pystr) (d : dict) : dict := List.filter (fun kv => negb (k =s kv.1)) d.

(** [d.get(k)] and [d.get(k, v)]. *)
Definition get (d : dict) (k : pystr) : pyval := default VNone (dget k d).
Definition get_or (d : dict) (k : pystr) (v : pyval) : pyval := default v (dget k d).

(** [v.get(k)] and [v\[k\]] for a value of any type. *)
Definition val_get (v : pyval) (k : pystr) : res pyval :=
  match v with VDict d => Ok (get d k) | _ => raise AttributeError "no attribute 'get'" end.
Definition getitem (v : pyval) (k : pystr) : res pyval :=
  match v with
  | VDict d => match dget k d with Some x => Ok x | None => raise KeyError "" end
  | _ => raise TypeError "not subscriptable by a string"
  end.

(** [set(d) - allowed] is empty; [set(d) == fields]. *)
Definition keys_within (d : dict) (allowed : list pystr) : bool :=
  forallb (fun k => mem k allowed) (keys d).
Definition keys_are (d : dict) (fields : list pystr) : bool :=
  keys_within d fields && forallb (fun f => has_key f d) fields.

(** ** Equality, truth, hashing *)

Definition num_of (v : pyval) : option pyfloat :=
  match v with
  | VBool b => Some (FFin (Z.b2z b) 0)
  | VInt z => Some (FFin z 0)
  | VFloat f => Some f
  | _ => None
  end.

(** Exact comparison; not-a-number is the one object [json] makes, equal to
    itself inside containers (which compare by identity first). *)
Definition num_eqb (a b : pyfloat) : bool :=
  match a, b with
  | FNan, FNan => true
  | FInf s, FInf t => eqb s t
  | FFin m e, FFin n f =>
      let g := Z.min e f in (m * 2 ^ (e - g) =? n * 2 ^ (f - g))
  | _, _ => false
  end.

(** [a < b]; not-a-number is below nothing. *)
Definition num_ltb (a b : pyfloat) : bool :=
  match a, b with
  | FInf true, FInf false | FInf true, FFin _ _ | FFin _ _, FInf false => true
  | FFin m e, FFin n f =>
      let g := Z.min e f in (m * 2 ^ (e - g) <? n * 2 ^ (f - g))
  | _, _ => false
  end.

(** [v > n] and [v < n] for an integer [n]. *)
Definition py_gt (v : pyval) (n : Z) : res bool :=
  match num_of v with Some a => Ok (num_ltb (FFin n 0) a) | None => raise TypeError "not supported between these types" end.
Definition py_lt (v : pyval) (n : Z) : res bool :=
  match num_of v with Some a => Ok (num_ltb a (FFin n 0)) | None => raise TypeError "not supported between these types" end.

(** [for x in v]: the elements of a list, the keys of a dict, the characters of a
    string. *)
Definition iterate (v : pyval) : res (list pyval) :=
  match v with
  | VList l => Ok l
  | VDict d => Ok (map (fun kv => VStr kv.1) d)
  | VStr s => Ok (map (fun c => VStr [c]) s)
  | _ => raise TypeError "object is not iterable"
  end.

Fixpoint py_same (v w : pyval) {struct v} : bool :=
  match v, w with
  | VNone, VNone => true
  | VStr a, VStr b => a =s b
  | VList l, VList m =>
      (fix go l m := match l, m with
        | [], [] => true
        | x :: l', y :: m' => py_same x y && go l' m'
        | _, _ => false
        end) l m
  | VDict d, VDict e =>
      (length d =? length e)%nat &&
      (fix go (d : dict) := match d with
        | [] => true
        | (k, x) :: t => match dget k e with Some y => py_same x y | None => false end && go t
        end) d
  | _, _ => match num_of v, num_of w with Some a, Some b => num_eqb a b | _, _ => false end
  end.
#[global] Arguments py_same !v !w : simpl nomatch.

(** [v == w] *)
Definition py_eq (v w : pyval) : bool :=
  match v, w with VFloat FNan, VFloat FNan => false | _, _ => py_same v w end.

Infix "==" := py_eq (at level 70) : py_scope.

Definition truthy (v : pyval) : bool :=
  match v with
  | VNone => false
  | VBool b => b
  | VInt z => negb (z =? 0)
  | VFloat (FFin m _) => negb (m =? 0)
  | VFloat _ => true
  | VStr s => negb (s =s str "")
  | VList l => negb (bool_decide (l = []))
  | VDict d => negb (bool_decide (d = []))
  end.

Definition hashable (v : pyval) : bool :=
  match v with VList _ | VDict _ => false | _ => true end.

Fixpoint nub {A} (eqb : A -> A -> bool) (l : list A) : list A :=
  match l with
  | [] => []
  | x :: t => if existsb (eqb x) t then nub eqb t else x :: nub eqb t
  end.

(** [set(l)] *)
Definition py_set (l : list pyval) : res (list pyval) :=
  if forallb hashable l then Ok (nub py_same l) else raise TypeError "unhashable type".

(** [v in s] for a set (or the keys of a dict) of strings. *)
Definition in_strs (v : pyval) (s : list pystr) : res bool :=
  if hashable v then Ok (match v with VStr x => mem x s | _ => false end)
  else raise TypeError "unhashable type".

(** [s == c] for a set [s] of values and a set [c] of strings. *)
Definition set_is (s : list pyval) (c : list pystr) : bool :=
  forallb (fun v => match v with VStr x => mem x c | _ => false end) s &&
  forallb (fun x => existsb (py_same (VStr x)) s) c.

(** [set(v) != fields] for a value of any type: a dict gives its keys, a list
    its elements, a string its characters. *)
Definition set_differs (v : pyval) (fields : list pystr) : res bool :=
  match v with
  | VDict d => Ok (negb (keys_are d fields))
  | VList l => let! s := py_set l in Ok (negb (set_is s fields))
  | VStr _ => Ok true
  | _ => raise TypeError "object is not iterable"
  end.

(** [isinstance(v, int)] (booleans are integers), [type(v) is int], ... *)
Definition is_dict (v : pyval) : bool := match v with VDict _ => true | _ => false end.
Definition is_list (v : pyval) : bool := match v with VList _ => true | _ => false end.
Definition is_str (v : pyval) : bool := match v with VStr _ => true | _ => false end.
Definition is_bool (v : pyval) : bool := match v with VBool _ => true | _ => false end.
Definition is_int (v : pyval) : bool := match v with VInt _ | VBool _ => true | _ => false end.
Definition type_is_int (v : pyval) : bool := match v with VInt _ => true | _ => false end.

(** An integer that is not a boolean, within bounds: the guard
    [isinstance(v, bool) or not isinstance(v, int) or not lo <= v <= hi] is
    its negation. *)
Definition int_within (lo hi : Z) (v : pyval) : bool :=
  match v with VInt z => (lo <=? z) && (z <=? hi) | _ => false end.

(** The strings of a list, if all its elements are strings. *)
Fixpoint strs_of (l : list pyval) : option (list pystr) :=
  match l with
  | [] => Some []
  | VStr s :: t => match strs_of t with Some r => Some (s :: r) | None => None end
  | _ => None
  end.

(** [object_pairs_hook] of every script: a repeated name is refused, with the
    script's own exception. *)
Fixpoint strict_pairs (c : exn_class) (m : string) (acc : dict) (pairs : dict) : res dict :=
  match pairs with
  | [] => Ok acc
  | (k, v) :: t => if has_key k acc then raise c m else strict_pairs c m (acc ++ [(k, v)]) t
  end.

(** Well-formed values: the keys of every dict are distinct. *)
Fixpoint wf_val (v : pyval) : bool :=
  match v with
  | VList l => forallb wf_val l
  | VDict d => bool_decide (NoDup (map fst d)) && forallb (fun kv => wf_val kv.2) d
  | _ => true
  end.

(** ** Lemmas *)

Lemma dget_in k v d : dget k d = Some v -> (k, v) ∈ d.
Proof.
  induction d as [|[k' w] d IH]; simpl; [done|].
  destruct (k =s k') eqn:E; intros H; simplify_eq.
  - apply str_eqb_eq in E as ->. by left.
  - right. auto.
Qed.

Lemma dget_none k d : dget k d = None <-> k ∉ keys d.
Proof.
  induction d as [|[k' w] d IH]; simpl; [set_solver|].
  destruct (k =s k') eqn:E.
  - apply str_eqb_eq in E as ->. set_solver.
  - apply str_eqb_neq in E. rewrite IH. set_solver.
Qed.

Lemma has_key_dget k d : has_key k d = true <-> is_Some (dget k d).
Proof.
  unfold has_key. rewrite mem_elem. destruct (dget k d) eqn:E.
  - split; [eauto|]. intros _. apply dget_in in E. apply list_elem_of_fmap. by exists (k, p).
  - apply dget_none in E. split; [done|]. by intros [? ?].
Qed.

Lemma has_key_false k d : has_key k d = false <-> dget k d = None.
Proof. rewrite dget_none. apply mem_not_elem. Qed.

Lemma get_has_key d k : has_key k d = false -> get d k = VNone.
Proof. unfold get. intros ->%has_key_false. done. Qed.

Lemma dget_dset k k' v d : dget k (dset k' v d) = if k =s k' then Some v else dget k d.
Proof.
  induction d as [|[j w] d IH]; simpl; [done|].
  destruct (k' =s j) eqn:E; simpl.
  - apply str_eqb_eq in E as ->. by destruct (k =s j).
  - destruct (k =s j) eqn:E2; [|done]. apply str_eqb_eq in E2 as ->.
    destruct (j =s k') eqn:E3; [|done]. apply str_eqb_eq in E3 as ->.
    apply str_eqb_neq in E. done.
Qed.

Lemma dget_ddel k k' d : dget k (ddel k' d) = if k =s k' then None else dget k d.
Proof.
  unfold ddel. induction d as [|[j w] d IH]; simpl; [by destruct (k =s k')|].
  destruct (k' =s j) eqn:E; simpl.
  - apply str_eqb_eq in E as ->. rewrite IH. by destruct (k =s j).
  - rewrite IH. destruct (k =s j) eqn:E2; [|done]. apply str_eqb_eq in E2 as ->.
    destruct (j =s k') eqn:E3; [|done]. apply str_eqb_eq in E3 as ->.
    apply str_eqb_neq in E. done.
Qed.

Lemma keys_within_spec d a : keys_within d a = true <-> keys d ⊆ a.
Proof.
  unfold keys_within. rewrite forallb_forall. split.
  - intros H k Hk. apply mem_elem, H, list_elem_of_In, Hk.
  - intros H k Hk. apply mem_elem, H, list_elem_of_In, Hk.
Qed.

Lemma keys_are_spec d f : keys_are d f = true <-> (forall k, k ∈ keys d <-> k ∈ f).
Proof.
  unfold keys_are, has_key. rewrite andb_true_iff, keys_within_spec, forallb_forall. split.
  - intros [H1 H2] k. split; [apply H1|]. intros Hk. apply mem_elem, H2, list_elem_of_In, Hk.
  - intros H. split; [intros k; apply H|]. intros k Hk. apply mem_elem, H, list_elem_of_In, Hk.
Qed.

Lemma keys_are_get d f k : keys_are d f = true -> k ∈ f -> exists v, dget k d = Some v.
Proof.
  intros H Hk. rewrite keys_are_spec in H. apply H, mem_elem, has_key_dget in Hk as [v Hv]. eauto.
Qed.

Lemma get_some d k v : get d k = v -> v <> VNone -> dget k d = Some v.
Proof. unfold get. destruct (dget k d); simpl; congruence. Qed.

Lemma getitem_get d k v : get d k = v -> v <> VNone -> getitem (VDict d) k = Ok v.
Proof. intros H Hn. simpl. by rewrite (get_some d k v). Qed.

Lemma dget_filter k (f : pystr -> bool) d :
  dget k (List.filter (fun kv => f kv.1) d) = if f k then dget k d else None.
Proof.
  induction d as [|[j w] d IH]; simpl; [by destruct (f k)|].
  destruct (f j) eqn:E; simpl; rewrite IH; destruct (k =s j) eqn:E2; try done;
    apply str_eqb_eq in E2 as ->; by rewrite E.
Qed.

Lemma keys_dset k v d : forall x, x ∈ keys (dset k v d) <-> x = k \/ x ∈ keys d.
Proof.
  intros x. induction d as [|[j w] d IH]; simpl; [set_solver|].
  destruct (k =s j) eqn:E; simpl; [|set_solver]. apply str_eqb_eq in E as ->. set_solver.
Qed.

(** *** Equality *)

Lemma py_eq_str v s : (v == VStr s) = true <-> v = VStr s.
Proof.
  destruct v as [| | |[]|t| |]; simpl; try (split; [done|intros; simplify_eq; done]).
  unfold py_eq. simpl. rewrite str_eqb_eq. split; [by intros ->|by intros [=]].
Qed.

Lemma str_py_eq s v : (VStr s == v) = true -> v = VStr s.
Proof. destruct v; try done. intros H%py_eq_str. congruence. Qed.

Lemma py_eq_str_false v s : (v == VStr s) = false <-> v <> VStr s.
Proof. rewrite <-not_true_iff_false, py_eq_str. done. Qed.

Lemma num_eqb_int a b : num_eqb (FFin a 0) (FFin b 0) = (a =? b).
Proof. simpl. by rewrite !Z.mul_1_r. Qed.
#[global] Arguments num_eqb : simpl never.

Lemma py_same_int a b : py_same (VInt a) (VInt b) = (a =? b).
Proof. apply num_eqb_int. Qed.

(** [v == n] holds of the integer, of the boolean with that value, and of a
    float of exactly that value. *)
Lemma py_eq_int v n : (v == VInt n) = true <->
  v = VInt n \/ (exists b, v = VBool b /\ Z.b2z b = n) \/
  (exists m e, v = VFloat (FFin m e) /\ m * 2 ^ (e - Z.min e 0) = n * 2 ^ (0 - Z.min e 0)).
Proof.
  destruct v as [|b|z|f|t|l|d]; unfold py_eq; simpl; try (split; [done|naive_solver]).
  - rewrite num_eqb_int, Z.eqb_eq. naive_solver.
  - rewrite num_eqb_int, Z.eqb_eq. naive_solver.
  - destruct f; unfold num_eqb; try (split; [done|naive_solver]). rewrite Z.eqb_eq. naive_solver.
Qed.

Lemma py_eq_list_strs v (l : list pystr) : (v == VList (map VStr l)) = true <-> v = VList (map VStr l).
Proof.
  destruct v as [| | |[]| |m|]; try (split; [done|intros; simplify_eq; done]).
  unfold py_eq. enough (py_same (VList m) (VList (map VStr l)) = true <-> m = map VStr l) as ->
    by naive_solver.
  revert l; induction m as [|x m IH]; intros [|s l]; try (split; [done|intros; simplify_eq; done]).
  change (py_same (VList (x :: m)) (VList (map VStr (s :: l))))
    with (py_same x (VStr s) && py_same (VList m) (VList (map VStr l))).
  rewrite andb_true_iff, IH. simpl.
  assert (py_same x (VStr s) = true <-> x = VStr s) as ->
    by (rewrite <-py_eq_str; by destruct x as [| | |[]| | |]).
  naive_solver.
Qed.

(** *** Lists of strings *)

Lemma strs_of_spec l r : strs_of l = Some r <-> l = map VStr r.
Proof.
  revert r; induction l as [|v l IH]; intros r; simpl.
  - split; [intros [= <-]; done|]. by destruct r.
  - destruct v; try (split; [done|by destruct r]).
    destruct (strs_of l) as [r'|].
    + split; [intros [= <-]; simpl; f_equal; by apply IH|].
      destruct r as [|x r]; [done|]. simpl; intros [= -> Hl]. apply IH in Hl. congruence.
    + split; [done|]. destruct r as [|x r]; [done|]. simpl; intros [= -> Hl]. apply IH in Hl. done.
Qed.

Lemma strs_of_all l : forallb is_str l = true <-> exists r, strs_of l = Some r.
Proof.
  induction l as [|v l IH]; simpl; [naive_solver|].
  destruct v; simpl; try (split; [done|by intros []]).
  rewrite IH. destruct (strs_of l); naive_solver.
Qed.

Lemma nub_elem {A} (eqb : A -> A -> bool) l x : x ∈ nub eqb l -> x ∈ l.
Proof.
  induction l as [|y l IH]; simpl; [done|].
  destruct (existsb (eqb y) l); set_solver.
Qed.

Lemma nub_length {A} (eqb : A -> A -> bool) l : (length (nub eqb l) <= length l)%nat.
Proof. induction l as [|y l IH]; simpl; [done|]. destruct (existsb _ _); simpl; lia. Qed.

Lemma existsb_same_strs x l : existsb (py_same (VStr x)) (map VStr l) = mem x l.
Proof.
  unfold mem. induction l as [|y l IH]; simpl; [done|]. rewrite IH.
  apply eq_true_iff_eq. rewrite orb_true_iff, !bool_decide_eq_true, str_eqb_eq. set_solver.
Qed.

Lemma nub_strs_elem l x : x ∈ l -> VStr x ∈ nub py_same (map VStr l).
Proof.
  induction l as [|y l IH]; simpl; [set_solver|]. rewrite existsb_same_strs.
  destruct (mem y l) eqn:E; intros Hx; str_prop; set_solver.
Qed.

(** [len(l) == len(set(l))] says a list of strings has no duplicates. *)
Lemma nub_strs_length l : length (nub py_same (map VStr l)) = length l <-> NoDup l.
Proof.
  induction l as [|x l IH]; simpl; [naive_solver constructor|].
  rewrite existsb_same_strs, list.NoDup_cons.
  pose proof (nub_length py_same (map VStr l)) as Hle. rewrite length_map in Hle.
  destruct (mem x l) eqn:E; str_prop; simpl; [split; [lia|naive_solver]|].
  rewrite <-IH. split; [split; [done|lia]|lia].
Qed.

Lemma py_set_strs l : py_set (map VStr l) = Ok (nub py_same (map VStr l)).
Proof.
  unfold py_set. enough (forallb hashable (map VStr l) = true) as -> by done.
  by induction l.
Qed.

Lemma set_is_strs l c : set_is (nub py_same (map VStr l)) c = true <-> (forall x, x ∈ l <-> x ∈ c).
Proof.
  unfold set_is. rewrite andb_true_iff, !forallb_forall. split.
  - intros [H1 H2] x. split; intros Hx.
    + apply mem_elem. apply (H1 (VStr x)), list_elem_of_In, nub_strs_elem, Hx.
    + apply list_elem_of_In in Hx. apply H2, existsb_exists in Hx as (v & Hv%list_elem_of_In & Hs).
      apply nub_elem, list_elem_of_fmap in Hv as (y & -> & Hy). simpl in Hs.
      by apply str_eqb_eq in Hs as ->.
  - intros H. split.
    + intros v Hv%list_elem_of_In. apply nub_elem, list_elem_of_fmap in Hv as (y & -> & Hy).
      by apply mem_elem, H.
    + intros x Hx. apply existsb_exists. exists (VStr x). split; [|by apply str_eqb_eq].
      apply list_elem_of_In, nub_strs_elem, H, list_elem_of_In, Hx.
Qed.

(** *** Strict objects *)

Lemma strict_pairs_ok c m acc p d :
  NoDup (keys acc) -> strict_pairs c m acc p = Ok d <-> d = acc ++ p /\ NoDup (keys (acc ++ p)).
Proof.
  revert acc; induction p as [|[k v] p IH]; intros acc Hacc; simpl.
  - rewrite app_nil_r. naive_solver.
  - assert (keys (acc ++ (k, v) :: p) = keys acc ++ k :: keys p) as Hk
      by (unfold keys; by rewrite map_app).
    destruct (has_key k acc) eqn:E.
    + apply mem_elem in E. split; [done|]. intros [_ Hnd]. rewrite Hk in Hnd.
      apply list.NoDup_app in Hnd as (_ & Hd & _). by destruct (Hd k E); left.
    + apply mem_not_elem in E. rewrite IH.
      * by rewrite <-app_assoc.
      * unfold keys in *. rewrite map_app. apply list.NoDup_app. split; [done|]. simpl.
        split; [set_solver|]. apply NoDup_singleton.
Qed.

Lemma strict_pairs_class c m acc p e : strict_pairs c m acc p = Err e -> e = Exn c m.
Proof.
  revert acc; induction p as [|[k v] p IH]; intros acc; simpl; [done|].
  destruct (has_key k acc); [by intros [= <-]|apply IH].
Qed.

Lemma int_within_spec lo hi v : int_within lo hi v = true <-> exists z, v = VInt z /\ lo <= z <= hi.
Proof.
  destruct v; simpl; try (split; [done|naive_solver]).
  rewrite andb_true_iff, !Z.leb_le. naive_solver.
Qed.

Lemma in_strs_ok v l b : in_strs v l = Ok b ->
  hashable v = true /\ (b = true <-> exists s, v = VStr s /\ s ∈ l).
Proof.
  unfold in_strs. destruct (hashable v) eqn:Hh; [|done]. intros H. inv_ok. split; [done|].
  destruct v; try (split; [done|naive_solver]). rewrite mem_elem. naive_solver.
Qed.

(** ** Sets of strings and sorting *)

(** [set(l)] for a list of strings, [len(s & t)], [s <= t]. *)
Definition str_set (l : list pystr) : list pystr := remove_dups l.
Definition inter_size (s t : list pystr) : nat := length (List.filter (fun x => mem x t) s).
Definition subset (s t : list pystr) : bool := forallb (fun x => mem x t) s.
Definition set_eq (s t : list pystr) : bool := subset s t && subset t s.

(** [len(l) == len(set(l))] *)
Definition distinct (l : list pystr) : bool := (length l =? length (str_set l))%nat.

Lemma distinct_NoDup l : distinct l = true <-> NoDup l.
Proof.
  unfold distinct, str_set. rewrite Nat.eqb_eq.
  assert (forall l : list pystr, (length (remove_dups l) <= length l)%nat) as Hle.
  { intros k; induction k as [|x k IH]; simpl; [done|]. case_decide; simpl; lia. }
  induction l as [|x l IH]; simpl; [split; [constructor|done]|].
  rewrite list.NoDup_cons. specialize (Hle l). case_decide as Hx; simpl.
  - split; [lia|naive_solver].
  - rewrite <-IH. split; [split; [done|lia]|lia].
Qed.

Lemma subset_spec s t : subset s t = true <-> s ⊆ t.
Proof.
  unfold subset. rewrite forallb_forall. split.
  - intros H x Hx. apply mem_elem, H, list_elem_of_In, Hx.
  - intros H x Hx. apply mem_elem, H, list_elem_of_In, Hx.
Qed.

Lemma str_set_elem x l : x ∈ str_set l <-> x ∈ l.
Proof. apply elem_of_remove_dups. Qed.

Lemma inter_size_one s t : inter_size s t = 1%nat -> exists x, x ∈ s /\ x ∈ t.
Proof.
  unfold inter_size. intros H. destruct (List.filter _ s) as [|x r] eqn:E; [done|].
  assert (In x (List.filter (fun x => mem x t) s)) as Hin by (rewrite E; by left).
  apply filter_In in Hin as [Hin Hm]. exists x. split; [by apply list_elem_of_In|by apply mem_elem].
Qed.

(** Code-point order and [sorted(...)] of a list of strings. *)
Fixpoint str_leb (a b : pystr) : bool :=
  match a, b with
  | [], _ => true
  | _ :: _, [] => false
  | x :: a', y :: b' => if x =? y then str_leb a' b' else x <? y
  end.

Fixpoint insert_by {A} (leb : A -> A -> bool) (x : A) (l : list A) : list A :=
  match l with
  | [] => [x]
  | y :: t => if leb x y then x :: l else y :: insert_by leb x t
  end.
Definition sort_by {A} (leb : A -> A -> bool) (l : list A) : list A := foldr (insert_by leb) [] l.
Definition sorted_strs (l : list pystr) : list pystr := sort_by str_leb l.

Lemma str_leb_total a b : str_leb a b = false -> str_leb b a = true.
Proof.
  revert b; induction a as [|x a IH]; intros [|y b]; simpl; try done.
  destruct (Z.eqb_spec x y) as [->|Hxy]; [rewrite Z.eqb_refl; apply IH|].
  destruct (Z.eqb_spec y x); [lia|]. intros. lia.
Qed.

Lemma str_leb_trans a b c : str_leb a b = true -> str_leb b c = true -> str_leb a c = true.
Proof.
  revert b c; induction a as [|x a IH]; intros [|y b] [|z c]; simpl; try done.
  destruct (Z.eqb_spec x y) as [->|Hxy].
  - destruct (Z.eqb_spec y z) as [->|Hyz]; [apply IH|done].
  - destruct (Z.eqb_spec y z) as [->|Hyz]; [intros Hx _; destruct (Z.eqb_spec x z); [lia|done]|].
    intros. destruct (Z.eqb_spec x z); lia.
Qed.

(** Sorting by any total order. *)
Section sorting.
Context {A : Type} (leb : A -> A -> bool).
Context (leb_total : forall a b, leb a b = false -> leb b a = true)
        (leb_trans : forall a b c, leb a b = true -> leb b c = true -> leb a c = true).

Lemma insert_sorted x l : Sorted.StronglySorted (fun a b => leb a b = true) l ->
  Sorted.StronglySorted (fun a b => leb a b = true) (insert_by leb x l).
Proof.
  induction 1 as [|y l Hl IH Hy]; simpl; [by repeat constructor|].
  destruct (leb x y) eqn:Hxy.
  - constructor; [by constructor|]. constructor; [done|]. eapply list.Forall_impl; [exact Hy|]. intros z. by apply leb_trans.
  - constructor; [done|]. apply list.Forall_forall. intros z Hz.
    assert (z ∈ x :: l) as Hz'.
    { revert Hz. clear. induction l as [|w l IH]; simpl; [done|]. destruct (leb x w); set_solver. }
    apply elem_of_cons in Hz' as [->|Hz']; [by apply leb_total|]. rewrite list.Forall_forall in Hy. by apply Hy.
Qed.

Lemma sort_by_sorted l : Sorted.StronglySorted (fun a b => leb a b = true) (sort_by leb l).
Proof. unfold sort_by. induction l; simpl; [constructor|by apply insert_sorted]. Qed.
End sorting.

Lemma sorted_strs_sorted l : Sorted.StronglySorted (fun a b => str_leb a b = true) (sorted_strs l).
Proof. apply sort_by_sorted; [apply str_leb_total|apply str_leb_trans]. Qed.

Lemma sorted_strs_id l : Sorted.StronglySorted (fun a b => str_leb a b = true) l -> sorted_strs l = l.
Proof.
  unfold sorted_strs, sort_by. induction 1 as [|x l Hl IH Hx]; simpl; [done|]. rewrite IH.
  destruct l as [|y l]; simpl; [done|]. apply Forall_cons_iff in Hx as [-> _]. done.
Qed.

Ltac val_prop :=
  repeat (str_prop; match goal with
  | H : (_ == VStr _) = true |- _ => apply py_eq_str in H
  | H : (_ == VStr _) = false |- _ => apply py_eq_str_false in H
  | H : keys_within _ _ = true |- _ => apply keys_within_spec in H
  | H : keys_are _ _ = true |- _ => apply keys_are_spec in H
  | H : distinct _ = true |- _ => apply distinct_NoDup in H
  | H : subset _ _ = true |- _ => apply subset_spec in H
  | H : int_within _ _ _ = true |- _ => apply int_within_spec in H as (? & ? & ?)
  | H : fullmatch _ _ = true |- _ => apply fullmatch_spec in H
  end); str_prop.
