(* ===== verification/Bytes.v ===== *)
(** * Bytes: integers, text encodings and SHA-256

    [int.from_bytes] and [struct] fields, the UTF-8 decoder in the error modes
    the scripts use, [os.fsencode] and [os.fsdecode], and [hashlib.sha256]. *)
From Stdlib Require Import ZArith Lia.
From Stdlib Require Import Init.Byte Strings.Byte.
From stdpp Require Import base list sets strings option.
From S2P Require Import Prelude PyStr.

Open Scope string_scope.
Open Scope list_scope.
Open Scope Z_scope.

Abbreviation bytes := (list byte).

#[export] Instance byte_eq_dec' : EqDecision byte := Byte.byte_eq_dec.

Definition b2z (b : byte) : Z := Z.of_N (Byte.to_N b).
Definition z2b (z : Z) : byte := default x00 (Byte.of_N (Z.to_N (z mod 256))).

Definition byte_eqb (a b : byte) : bool := bool_decide (a = b).
Definition bytes_eqb (a b : bytes) : bool := bool_decide (a = b).
Infix "=b" := bytes_eqb (at level 70) : py_scope.

(** The bytes of an ASCII literal. *)
Definition bstr (s : string) : bytes := map z2b (str s).

(** [data\[i:j\]] with the clamping of Python slices, for non-negative bounds. *)
Definition slice {A} (i j : Z) (l : list A) : list A :=
  take (Z.to_nat (j - i)) (drop (Z.to_nat i) l).

(** [data\[i:j\]] and [data\[i\]] in general: a negative index counts from the end. *)
Definition pyslice {A} (i j : Z) (l : list A) : list A :=
  let at_ k := if k <? 0 then Z.max 0 (k + zlen l) else k in slice (at_ i) (at_ j) l.
Definition pyindex {A} (i : Z) (l : list A) : res A :=
  let k := if i <? 0 then i + zlen l else i in
  if k <? 0 then raise IndexError "index out of range"
  else match nth_error l (Z.to_nat k) with Some x => Ok x | None => raise IndexError "index out of range" end.

(** [any(data)] *)
Definition any_byte (l : bytes) : bool := existsb (fun b => negb (byte_eqb b x00)) l.

(** ** Integers *)

Fixpoint le_int (l : bytes) : Z :=
  match l with
  | [] => 0
  | b :: t => b2z b + 256 * le_int t
  end.

Fixpoint be_int (acc : Z) (l : bytes) : Z :=
  match l with
  | [] => acc
  | b :: t => be_int (256 * acc + b2z b) t
  end.

(** Little-endian fields of [struct]: [<B], [<H], [<I], [<Q], and [<q]. *)
Definition le_field (off size : Z) (l : bytes) : Z := le_int (slice off (off + size) l).
Definition u8 (off : Z) (l : bytes) : Z := le_field off 1 l.
Definition u16 (off : Z) (l : bytes) : Z := le_field off 2 l.
Definition u32 (off : Z) (l : bytes) : Z := le_field off 4 l.
Definition u64 (off : Z) (l : bytes) : Z := le_field off 8 l.
Definition i64 (off : Z) (l : bytes) : Z :=
  let v := u64 off l in if v <? 2 ^ 63 then v else v - 2 ^ 64.

(** ** Hexadecimal *)

Definition hex_digit (n : Z) : Z := if n <? 10 then 48 + n else 87 + n.

(** [b.hex()] *)
Definition hex_of (l : bytes) : pystr :=
  flat_map (fun b => [hex_digit (b2z b / 16); hex_digit (b2z b mod 16)]) l.

(** [f"{n:x}"] for [n >= 0], and [f"{n:08x}"]: the zeros go after the sign. *)
Fixpoint hex_digits (fuel : nat) (n : Z) : pystr :=
  match fuel with
  | O => []
  | S f => if n <? 16 then [hex_digit n] else hex_digits f (n / 16) ++ [hex_digit (n mod 16)]
  end.
Definition hex_nat (n : Z) : pystr := hex_digits (S (Z.to_nat (Z.log2 n))) n.
Definition zfill (width : nat) (s : pystr) : pystr := repeat 48 (width - length s) ++ s.
Definition hex08 (n : Z) : pystr :=
  if n <? 0 then 45 :: zfill 7 (hex_nat (- n)) else zfill 8 (hex_nat n).

(** [int(data, 16)]: white space around, a sign, a prefix, and single underscores
    between digits are accepted. *)
Definition hex_digit_value (c : Z) : option Z :=
  if in_range 48 57 c then Some (c - 48)
  else if in_range 97 102 c then Some (c - 87)
  else if in_range 65 70 c then Some (c - 55)
  else None.
Definition is_space (c : Z) : bool := in_range 9 13 c || (c =? 32).
Fixpoint lstrip (s : pystr) : pystr :=
  match s with c :: t => if is_space c then lstrip t else s | [] => [] end.

(** Digits up to the end or to trailing white space; [us]: the last character
    was an underscore, or no digit has been read yet. *)
Fixpoint int16_digits (us : bool) (acc : Z) (s : pystr) : option Z :=
  match s with
  | [] => if us then None else Some acc
  | c :: t =>
      match hex_digit_value c with
      | Some d => int16_digits false (16 * acc + d) t
      | None =>
          if us then None
          else if c =? 95 then int16_digits true acc t
          else match lstrip s with [] => Some acc | _ => None end
      end
  end.
Definition skip_underscore (s : pystr) : pystr :=
  match s with c :: t => if c =? 95 then t else s | [] => [] end.
Definition int16_unsigned (s : pystr) : option Z :=
  match s with
  | z :: x :: t =>
      if (z =? 48) && ((x =? 120) || (x =? 88)) then int16_digits true 0 (skip_underscore t)
      else int16_digits true 0 s
  | _ => int16_digits true 0 s
  end.
Definition int16_signed (s : pystr) : option Z :=
  match s with
  | c :: t =>
      if c =? 45 then match int16_unsigned t with Some n => Some (- n) | None => None end
      else if c =? 43 then int16_unsigned t
      else int16_unsigned s
  | [] => None
  end.
Definition int16 (data : bytes) : res Z :=
  match int16_signed (lstrip (map b2z data)) with
  | Some n => Ok n
  | None => raise ValueError "invalid literal for int() with base 16"
  end.

(** ** UTF-8 *)

Inductive utf8_mode := Strict | SurrogatePass | SurrogateEscape.

(** A byte the decoder cannot use: an error, or U+DC80..U+DCFF under
    [surrogateescape]. *)
Definition bad_byte (m : utf8_mode) (b : Z) : res Z :=
  match m with
  | SurrogateEscape => Ok (0xDC00 + b)
  | _ => raise UnicodeError "invalid UTF-8"
  end.

Definition continuation (b : Z) : bool := in_range 0x80 0xBF b.

(** The code point of three (four) bytes is neither overlong, nor above U+10FFFF,
    nor (unless passed) a surrogate. *)
Definition scalar3_ok (m : utf8_mode) (c : Z) : bool :=
  (0x800 <=? c) && (match m with SurrogatePass => true | _ => negb (in_range 0xD800 0xDFFF c) end).
Definition scalar4_ok (c : Z) : bool := (0x10000 <=? c) && (c <=? 0x10FFFF).

Fixpoint utf8_decode (m : utf8_mode) (l : bytes) : res pystr :=
  match l with
  | [] => Ok []
  | b0 :: t0 =>
      let a := b2z b0 in
      let bad := let! c := bad_byte m a in let! r := utf8_decode m t0 in Ok (c :: r) in
      if a <? 0x80 then let! r := utf8_decode m t0 in Ok (a :: r)
      else if in_range 0xC2 0xDF a then
        match t0 with
        | b1 :: t1 =>
            if continuation (b2z b1) then
              let! r := utf8_decode m t1 in Ok ((a - 0xC0) * 64 + (b2z b1 - 0x80) :: r)
            else bad
        | _ => bad
        end
      else if in_range 0xE0 0xEF a then
        match t0 with
        | b1 :: b2 :: t2 =>
            let c := (a - 0xE0) * 4096 + (b2z b1 - 0x80) * 64 + (b2z b2 - 0x80) in
            if continuation (b2z b1) && continuation (b2z b2) && scalar3_ok m c then
              let! r := utf8_decode m t2 in Ok (c :: r)
            else bad
        | _ => bad
        end
      else if in_range 0xF0 0xF4 a then
        match t0 with
        | b1 :: b2 :: b3 :: t3 =>
            let c := (a - 0xF0) * 262144 + (b2z b1 - 0x80) * 4096 + (b2z b2 - 0x80) * 64 + (b2z b3 - 0x80) in
            if continuation (b2z b1) && continuation (b2z b2) && continuation (b2z b3) && scalar4_ok c then
              let! r := utf8_decode m t3 in Ok (c :: r)
            else bad
        | _ => bad
        end
      else bad
  end.

(** [s.encode()]: a surrogate is an error, except that [os.fsencode] writes the
    byte an escaped one stands for. *)
Definition utf8_char (m : utf8_mode) (c : Z) : res bytes :=
  if c <? 0x80 then Ok [z2b c]
  else if c <? 0x800 then Ok [z2b (0xC0 + c / 64); z2b (0x80 + c mod 64)]
  else if in_range 0xD800 0xDFFF c && negb (match m with SurrogatePass => true | _ => false end) then
    match m with
    | SurrogateEscape =>
        if in_range 0xDC80 0xDCFF c then Ok [z2b (c - 0xDC00)] else raise UnicodeError "surrogates not allowed"
    | _ => raise UnicodeError "surrogates not allowed"
    end
  else if c <? 0x10000 then Ok [z2b (0xE0 + c / 4096); z2b (0x80 + c / 64 mod 64); z2b (0x80 + c mod 64)]
  else Ok [z2b (0xF0 + c / 262144); z2b (0x80 + c / 4096 mod 64); z2b (0x80 + c / 64 mod 64); z2b (0x80 + c mod 64)].

Fixpoint utf8_encode (m : utf8_mode) (s : pystr) : res bytes :=
  match s with
  | [] => Ok []
  | c :: t => let! b := utf8_char m c in let! r := utf8_encode m t in Ok (b ++ r)
  end.

Definition fsdecode (l : bytes) : res pystr := utf8_decode SurrogateEscape l.
Definition fsencode (s : pystr) : res bytes := utf8_encode SurrogateEscape s.

(** Text that is known to be ASCII. *)
Definition ascii_bytes (s : pystr) : bytes := map z2b s.

(** [data.decode("ascii")] *)
Definition ascii_decode (l : bytes) : res pystr :=
  if forallb (fun b => b2z b <? 128) l then Ok (map b2z l) else raise UnicodeError "not ASCII".

(** ** SHA-256 *)

Module Sha256.

Definition w32 (z : Z) : Z := Z.land z 0xFFFFFFFF.
Definition rotr (n x : Z) : Z := Z.lor (Z.shiftr x n) (w32 (Z.shiftl x (32 - n))).
Definition shr (n x : Z) : Z := Z.shiftr x n.
Definition xor3 (a b c : Z) : Z := Z.lxor a (Z.lxor b c).
Definition not32 (x : Z) : Z := Z.lxor x 0xFFFFFFFF.

(** The constants are the first 32 bits of the fractional parts of the cube roots
    (square roots) of the first primes. *)
Definition is_prime (n : nat) : bool :=
  forallb (fun d => negb (n mod d =? 0)%nat) (seq 2 (n - 2)).
Definition first_primes (k : nat) : list Z := map Z.of_nat (take k (List.filter is_prime (seq 2 320))).

(** The integer cube root of a number below [2 ^ (3 * bits)], bit by bit. *)
Fixpoint cube_root (bits : nat) (acc n : Z) : Z :=
  match bits with
  | O => acc
  | S b => let c := acc + 2 ^ Z.of_nat b in cube_root b (if c * c * c <=? n then c else acc) n
  end.

Definition K : list Z :=
  Eval vm_compute in map (fun p => w32 (cube_root 40 0 (p * 2 ^ 96))) (first_primes 64).
Definition H0 : list Z := Eval vm_compute in map (fun p => w32 (Z.sqrt (p * 2 ^ 64))) (first_primes 8).

(** The message schedule, most recent word first. *)
Fixpoint extend (n : nat) (w : list Z) : list Z :=
  match n with
  | O => w
  | S n' =>
      let at_ k := nth k w 0 in
      let s0 := let x := at_ 14%nat in xor3 (rotr 7 x) (rotr 18 x) (shr 3 x) in
      let s1 := let x := at_ 1%nat in xor3 (rotr 17 x) (rotr 19 x) (shr 10 x) in
      extend n' (w32 (at_ 15%nat + s0 + at_ 6%nat + s1) :: w)
  end.

Record regs := Regs { ra : Z; rb : Z; rc : Z; rd : Z; re_ : Z; rf : Z; rg : Z; rh : Z }.

Definition round (r : regs) (kw : Z * Z) : regs :=
  let '(k, w) := kw in
  let S1 := xor3 (rotr 6 (re_ r)) (rotr 11 (re_ r)) (rotr 25 (re_ r)) in
  let ch := Z.lxor (Z.land (re_ r) (rf r)) (Z.land (not32 (re_ r)) (rg r)) in
  let t1 := w32 (rh r + S1 + ch + k + w) in
  let S0 := xor3 (rotr 2 (ra r)) (rotr 13 (ra r)) (rotr 22 (ra r)) in
  let maj := xor3 (Z.land (ra r) (rb r)) (Z.land (ra r) (rc r)) (Z.land (rb r) (rc r)) in
  let t2 := w32 (S0 + maj) in
  Regs (w32 (t1 + t2)) (ra r) (rb r) (rc r) (w32 (rd r + t1)) (re_ r) (rf r) (rg r).

Definition of_list (l : list Z) : regs :=
  Regs (nth 0 l 0) (nth 1 l 0) (nth 2 l 0) (nth 3 l 0) (nth 4 l 0) (nth 5 l 0) (nth 6 l 0) (nth 7 l 0).

Definition to_list (r : regs) : list Z := [ra r; rb r; rc r; rd r; re_ r; rf r; rg r; rh r].

Fixpoint words (n : nat) (l : bytes) : list Z :=
  match n with O => [] | S n' => be_int 0 (take 4 l) :: words n' (drop 4 l) end.

Definition compress (h : list Z) (block : bytes) : list Z :=
  let w := rev (extend 48 (rev (words 16 block))) in
  zip_with (fun a b => w32 (a + b)) h (to_list (foldl round (of_list h) (zip K w))).

Fixpoint blocks (n : nat) (h : list Z) (l : bytes) : list Z :=
  match n with O => h | S n' => blocks n' (compress h (take 64 l)) (drop 64 l) end.

Definition be_bytes (n : nat) (z : Z) : bytes :=
  map (fun i => z2b (Z.shiftr z (8 * Z.of_nat i))) (rev (seq 0 n)).

Definition pad (l : bytes) : bytes :=
  l ++ [x80] ++ repeat x00 (Z.to_nat ((55 - zlen l) mod 64)) ++ be_bytes 8 (8 * zlen l).

Definition digest (l : bytes) : bytes :=
  let p := pad l in flat_map (be_bytes 4) (blocks (length p / 64) H0 p).

End Sha256.

(** [hashlib.sha256(data).hexdigest()] *)
Definition sha256 (data : bytes) : pystr := hex_of (Sha256.digest data).

Example sha256_abc :
  sha256 (bstr "abc") = str "ba7816bf8f01cfea414140de5dae2223b00361a396177a9cb410ff61f20015ad".
Proof. vm_compute. reflexivity. Qed.

#[global] Opaque Sha256.digest.

(** ** Lemmas *)

Lemma b2z_range b : 0 <= b2z b < 256.
Proof. unfold b2z. pose proof (Byte.to_N_bounded b). lia. Qed.

Lemma z2b_b2z b : z2b (b2z b) = b.
Proof.
  unfold z2b. pose proof (b2z_range b). rewrite Z.mod_small by lia.
  unfold b2z. by rewrite N2Z.id, Byte.of_to_N.
Qed.

Lemma b2z_z2b z : 0 <= z < 256 -> b2z (z2b z) = z.
Proof.
  intros Hz. unfold z2b. rewrite Z.mod_small by lia.
  destruct (Byte.of_N (Z.to_N z)) as [b|] eqn:E; simpl.
  - apply Byte.to_of_N in E. unfold b2z. rewrite E. lia.
  - apply Byte.of_N_None_iff in E. lia.
Qed.

Lemma z2b_eq z b : z = b2z b -> z2b z = b.
Proof. intros ->. apply z2b_b2z. Qed.

Lemma bytes_eqb_eq a b : (a =b b) = true <-> a = b.
Proof. apply bool_decide_eq_true. Qed.
Lemma bytes_eqb_neq a b : (a =b b) = false <-> a <> b.
Proof. apply bool_decide_eq_false. Qed.

Lemma any_byte_false l : any_byte l = false <-> Forall (fun b => b = x00) l.
Proof.
  unfold any_byte. rewrite existsb_false_iff, list.Forall_forall. unfold byte_eqb.
  setoid_rewrite negb_false_iff. by setoid_rewrite bool_decide_eq_true.
Qed.

Lemma le_int_range l : 0 <= le_int l < 256 ^ zlen l.
Proof.
  induction l as [|b l IH]; [done|]. cbn [le_int]. unfold zlen in *. cbn [length].
  rewrite Nat2Z.inj_succ, Z.pow_succ_r by lia. pose proof (b2z_range b). lia.
Qed.

Lemma slice_length {A} i j (l : list A) : 0 <= i <= j -> j <= zlen l -> zlen (slice i j l) = j - i.
Proof. unfold slice, zlen. rewrite length_take, length_drop. lia. Qed.

Lemma ascii_of_b2z l : Forall (fun c => 0 <= c < 128) l -> map b2z (ascii_bytes l) = l.
Proof.
  unfold ascii_bytes. intros Hl. induction Hl as [|c l Hc _ IH]; simpl; [done|].
  by rewrite b2z_z2b, IH by lia.
Qed.

(** ASCII text is its own UTF-8 encoding, in every mode. *)
Lemma utf8_decode_ascii m l : Forall (fun c => 0 <= c < 128) l -> utf8_decode m (ascii_bytes l) = Ok l.
Proof.
  intros Hl. induction Hl as [|c l Hc _ IH]; [done|]. simpl. rewrite b2z_z2b by lia.
  destruct (Z.ltb_spec c 128); [|lia]. by rewrite IH.
Qed.

Lemma bind_assoc {A B C} (r : res A) (f : A -> res B) (g : B -> res C) :
  (let! b := (let! a := r in f a) in g b) = let! a := r in let! b := f a in g b.
Proof. by destruct r. Qed.

Ltac byte_arith := unfold continuation, scalar3_ok, scalar4_ok in *; bool_prop;
  repeat match goal with H : in_range _ _ _ = true |- _ => unfold in_range in H end; bool_prop;
  repeat match goal with b : byte |- _ => lazymatch goal with
    | H : 0 <= b2z b < 256 |- _ => fail
    | _ => pose proof (b2z_range b) end end.

(** [os.fsencode(os.fsdecode(data)) == data], for all bytes. *)
Lemma fsencode_fsdecode l : (let! s := fsdecode l in fsencode s) = Ok l.
Proof.
  unfold fsdecode, fsencode. remember (length l) as n eqn:Hn. revert l Hn.
  induction n as [n IH] using lt_wf_ind. intros l ->. destruct l as [|b0 t0]; [done|].
  assert (forall t c bs, (length t < S (length t0))%nat -> utf8_char SurrogateEscape c = Ok bs ->
    (let! s := (let! r := utf8_decode SurrogateEscape t in Ok (c :: r)) in utf8_encode SurrogateEscape s)
    = Ok (bs ++ t)) as Hcons.
  { intros t c bs Hlt Hc. specialize (IH _ Hlt t eq_refl). rewrite bind_assoc.
    destruct (utf8_decode SurrogateEscape t); [|done]. cbn [utf8_encode]. by rewrite Hc, IH. }
  assert (128 <= b2z b0 -> (let! s := (let! c := bad_byte SurrogateEscape (b2z b0) in
            let! r := utf8_decode SurrogateEscape t0 in Ok (c :: r)) in utf8_encode SurrogateEscape s)
          = Ok (b0 :: t0)) as Hbad.
  { intros Hge. simpl bad_byte. cbv iota. apply (Hcons _ _ [b0]); [lia|]. pose proof (b2z_range b0).
    unfold utf8_char, in_range.
    destruct (Z.ltb_spec (56320 + b2z b0) 128); [lia|]. destruct (Z.ltb_spec (56320 + b2z b0) 2048); [lia|].
    destruct (Z.leb_spec 55296 (56320 + b2z b0)); [|lia]. destruct (Z.leb_spec (56320 + b2z b0) 57343); [|lia].
    destruct (Z.leb_spec 56448 (56320 + b2z b0)); [|lia]. destruct (Z.leb_spec (56320 + b2z b0) 56575); [|lia].
    simpl. do 2 f_equal. apply z2b_eq. lia. }
  cbn [utf8_decode].
  destruct (Z.ltb_spec (b2z b0) 128) as [Hlt|Hge].
  { apply (Hcons _ _ [b0]); [lia|]. unfold utf8_char. destruct (Z.ltb_spec (b2z b0) 128); [|lia].
    by rewrite z2b_b2z. }
  specialize (Hbad Hge). destruct (in_range 194 223 (b2z b0)) eqn:E2.
  { destruct t0 as [|b1 t1]; [done|]. destruct (continuation (b2z b1)) eqn:C1; [|done]. byte_arith.
    apply (Hcons _ _ [b0; b1]); [simpl; lia|]. unfold utf8_char.
    destruct (Z.ltb_spec ((b2z b0 - 192) * 64 + (b2z b1 - 128)) 128); [lia|].
    destruct (Z.ltb_spec ((b2z b0 - 192) * 64 + (b2z b1 - 128)) 2048); [|lia].
    do 2 f_equal; [|f_equal]; apply z2b_eq; Z.to_euclidean_division_equations; lia. }
  destruct (in_range 224 239 (b2z b0)) eqn:E3.
  { destruct t0 as [|b1 [|b2 t2]]; [done|done|].
    destruct (_ && _) eqn:C1; [|done]. byte_arith. apply (Hcons _ _ [b0; b1; b2]); [simpl; lia|].
    set (c := (b2z b0 - 224) * 4096 + (b2z b1 - 128) * 64 + (b2z b2 - 128)) in *. unfold utf8_char.
    destruct (Z.ltb_spec c 128); [lia|]. destruct (Z.ltb_spec c 2048); [lia|].
    match goal with H : in_range 55296 57343 c = false |- _ => rewrite H end. simpl. destruct (Z.ltb_spec c 65536); [|lia]. subst c.
    do 2 f_equal; [|f_equal; [|f_equal]]; apply z2b_eq; Z.to_euclidean_division_equations; lia. }
  destruct (in_range 240 244 (b2z b0)) eqn:E4; [|done].
  destruct t0 as [|b1 [|b2 [|b3 t3]]]; [done|done|done|].
  destruct (_ && _) eqn:C1; [|done]. byte_arith. apply (Hcons _ _ [b0; b1; b2; b3]); [simpl; lia|].
  set (c := (b2z b0 - 240) * 262144 + (b2z b1 - 128) * 4096 + (b2z b2 - 128) * 64 + (b2z b3 - 128)) in *.
  unfold utf8_char, in_range.
  destruct (Z.ltb_spec c 128); [lia|]. destruct (Z.ltb_spec c 2048); [lia|].
  destruct (Z.leb_spec c 57343); [lia|]. rewrite andb_false_r. simpl. destruct (Z.ltb_spec c 65536); [lia|].
  subst c. do 2 f_equal; [|f_equal; [|f_equal; [|f_equal]]]; apply z2b_eq; Z.to_euclidean_division_equations; lia.
Qed.

Lemma pyslice_nonneg {A} i j (l : list A) : 0 <= i -> 0 <= j -> pyslice i j l = slice i j l.
Proof.
  intros Hi Hj. unfold pyslice. by rewrite (proj2 (Z.ltb_ge i 0)), (proj2 (Z.ltb_ge j 0)) by lia.
Qed.

Lemma slice_app {A} i j (a b c : list A) : zlen a = i -> zlen b = j - i -> slice i j (a ++ b ++ c) = b.
Proof.
  unfold slice, zlen. intros Ha Hb. rewrite <-Ha, Nat2Z.id, drop_app_length.
  replace (Z.to_nat (j - Z.of_nat (length a))) with (length b) by lia. apply take_app_length.
Qed.

(** *** Hexadecimal fields *)

Lemma hex_digit_value_digit d : 0 <= d < 16 -> hex_digit_value (hex_digit d) = Some d.
Proof.
  intros H. unfold hex_digit, hex_digit_value, in_range. destruct (d <? 10) eqn:E; bool_prop.
  - replace (_ && _) with true by lia. f_equal. lia.
  - replace ((48 <=? 87 + d) && (87 + d <=? 57)) with false by lia.
    replace (_ && _) with true by lia. f_equal. lia.
Qed.

Definition hex_fold (acc : Z) (ds : list Z) : Z := foldl (fun a d => 16 * a + d) acc ds.
Definition hex_digits_ok (ds : list Z) : Prop := Forall (fun d => 0 <= d < 16) ds.

Lemma int16_digits_hex us acc ds : hex_digits_ok ds -> (us = false \/ ds <> []) ->
  int16_digits us acc (map hex_digit ds) = Some (hex_fold acc ds).
Proof.
  intros H. revert us acc. induction H as [|d ds Hd Hds IH]; intros us acc Hu; simpl.
  - by destruct Hu as [->|].
  - rewrite hex_digit_value_digit by done. by rewrite IH by auto.
Qed.

Lemma hex_digit_range d : 0 <= d < 16 -> 48 <= hex_digit d <= 57 \/ 97 <= hex_digit d <= 102.
Proof. unfold hex_digit. case_match; bool_prop; lia. Qed.

Lemma int16_hex ds : hex_digits_ok ds -> ds <> [] ->
  int16 (ascii_bytes (map hex_digit ds)) = Ok (hex_fold 0 ds).
Proof.
  intros H Hne. unfold int16. rewrite ascii_of_b2z.
  2:{ clear Hne. induction H as [|d ds Hd]; simpl; constructor; [|done]. apply hex_digit_range in Hd. lia. }
  destruct H as [|d ds Hd H]; [done|]. cbn [map]. pose proof (hex_digit_range d Hd) as Hr.
  cbn [lstrip]. unfold is_space at 1, in_range.
  replace (_ || _) with false by lia. cbn [int16_signed].
  rewrite (proj2 (Z.eqb_neq _ 45)), (proj2 (Z.eqb_neq _ 43)) by lia.
  pose proof (int16_digits_hex true 0 (d :: ds) ltac:(by constructor) ltac:(auto)) as Hi. cbn [map] in Hi.
  unfold int16_unsigned. destruct H as [|e ds He H]; [by rewrite Hi|]. cbn [map] in *.
  pose proof (hex_digit_range e He). rewrite (proj2 (Z.eqb_neq _ 120)), (proj2 (Z.eqb_neq _ 88)) by lia.
  by rewrite andb_false_r, Hi.
Qed.

Lemma hex_digits_spec fuel n : 0 <= n < 2 ^ Z.of_nat fuel -> (0 < fuel)%nat ->
  exists ds, hex_digits fuel n = map hex_digit ds /\ hex_digits_ok ds /\ hex_fold 0 ds = n /\ ds <> [] /\
    (forall k, n < 16 ^ Z.of_nat (S k) -> (length ds <= S k)%nat).
Proof.
  revert n; induction fuel as [|fuel IH]; intros n Hn Hf; [lia|]. cbn [hex_digits].
  destruct (n <? 16) eqn:E; bool_prop.
  - exists [n]. split_and!; [done|constructor; [lia|constructor]|done|done|simpl; lia].
  - assert (0 < n / 16 /\ n = 16 * (n / 16) + n mod 16 /\ 0 <= n mod 16 < 16) as (Hq & Hd & Hm)
      by (Z.to_euclidean_division_equations; lia).
    assert (0 < fuel)%nat as Hpos by (destruct fuel; [simpl in Hn|]; lia).
    rewrite Nat2Z.inj_succ, Z.pow_succ_r in Hn by lia.
    destruct (IH (n / 16) ltac:(lia) Hpos) as (ds & -> & Hok & Hv & Hne & Hlen).
    exists (ds ++ [n mod 16]). split_and!.
    + by rewrite map_app.
    + apply Forall_app_2; [done|constructor; [lia|constructor]].
    + unfold hex_fold in *. rewrite foldl_app, Hv. simpl. lia.
    + by destruct ds.
    + intros k Hk. rewrite length_app. simpl. destruct k as [|k]; [lia|].
      rewrite Nat2Z.inj_succ, Z.pow_succ_r in Hk by lia.
      specialize (Hlen k ltac:(lia)). lia.
Qed.

Lemma hex_fold_zeros k ds : hex_fold 0 (repeat 0 k ++ ds) = hex_fold 0 ds.
Proof. induction k as [|k IH]; [done|]. exact IH. Qed.

(** A field filled with zeros is read back by the parser. *)
Lemma zfill_hex_spec width n : (0 < width)%nat -> 0 <= n < 16 ^ Z.of_nat width ->
  length (zfill width (hex_nat n)) = width /\ int16 (ascii_bytes (zfill width (hex_nat n))) = Ok n.
Proof.
  intros Hw Hn. unfold zfill, hex_nat.
  destruct (hex_digits_spec (S (Z.to_nat (Z.log2 n))) n) as (ds & -> & Hok & Hv & Hne & Hlen); [|lia|].
  - rewrite Nat2Z.inj_succ, Z2Nat.id by apply Z.log2_nonneg.
    destruct (Z.eq_dec n 0) as [->|]; [done|]. split; [lia|]. apply Z.log2_spec. lia.
  - destruct width as [|w]; [lia|]. specialize (Hlen w ltac:(lia)). rewrite length_map. split.
    + rewrite length_app, repeat_length, length_map. lia.
    + replace (repeat 48 (S w - length ds)) with (map hex_digit (repeat 0 (S w - length ds))) by (by rewrite map_repeat).
      rewrite <-map_app, int16_hex.
      * by rewrite hex_fold_zeros, Hv.
      * apply Forall_app_2; [|done]. induction (S w - length ds)%nat; constructor; [lia|done].
      * destruct ds; [done|]. by destruct (repeat 0 _).
Qed.

Lemma hex08_spec n : 0 <= n < 2 ^ 32 ->
  length (hex08 n) = 8%nat /\ int16 (ascii_bytes (hex08 n)) = Ok n.
Proof.
  intros Hn. unfold hex08. rewrite (proj2 (Z.ltb_ge n 0)) by lia. apply (zfill_hex_spec 8); [lia|].
  change (16 ^ Z.of_nat 8) with (2 ^ 32). lia.
Qed.

(** ** Ranges and [struct] *)

(** [range(n)] and [range(a, b, step)] *)
Definition zrange (n : Z) : list Z := map Z.of_nat (seq 0 (Z.to_nat n)).
Definition zrange_step (a b step : Z) : list Z := map (fun i => a + step * i) (zrange ((b - a + step - 1) / step)).

(** [flags & mask], as a condition *)
Definition flag (flags mask : Z) : bool := negb (Z.land flags mask =? 0).
(** [struct.unpack_from] of fields that end at [finish]. *)
Definition unpack {A} (data : bytes) (finish : Z) (fields : A) : res A :=
  if zlen data <? finish then raise StructError "unpack_from requires a larger buffer" else Ok fields.

Lemma refuses_unpack {A} ok data finish (fields : A) : finish <= zlen data -> refuses_as ok (unpack data finish fields) (eq fields).
Proof. intros Hf. unfold unpack. destruct (Z.ltb_spec (zlen data) finish); [lia|done]. Qed.

Lemma refuses_pyindex {A} ok i (l : list A) : 0 <= i < zlen l -> refuses_as ok (pyindex i l) (fun x => x ∈ l).
Proof.
  intros Hi. unfold pyindex. destruct (Z.ltb_spec i 0); [lia|]. destruct (Z.ltb_spec i 0); [lia|].
  destruct (nth_error l (Z.to_nat i)) as [x|] eqn:E; [by apply list_elem_of_In, (nth_error_In l (Z.to_nat i))|].
  apply nth_error_None in E. unfold zlen in Hi. lia.
Qed.

Lemma elem_zrange n i : i ∈ zrange n -> 0 <= i < n.
Proof. unfold zrange. intros (k & -> & Hk)%list_elem_of_fmap. apply elem_of_seq in Hk. lia. Qed.

Lemma zrange_length n : 0 <= n -> zlen (zrange n) = n.
Proof. intros Hn. unfold zrange, zlen. rewrite length_map, length_seq. lia. Qed.

Lemma elem_zrange_step a b s i : 0 < s -> i ∈ zrange_step a b s -> exists k, i = a + s * k /\ 0 <= k /\ i < b.
Proof.
  intros Hs. unfold zrange_step. intros (k & -> & Hk)%list_elem_of_fmap. apply elem_zrange in Hk.
  exists k. split; [done|]. split; [lia|].
  assert (s * ((b - a + s - 1) / s) <= b - a + s - 1) by (apply Z.mul_div_le; lia). nia.
Qed.

Lemma le_field_nonneg off size l : 0 <= le_field off size l.
Proof. unfold le_field. pose proof (le_int_range (slice off (off + size) l)). lia. Qed.

Lemma zlen_take {A} n (l : list A) : 0 <= n <= zlen l -> zlen (slice 0 n l) = n.
Proof. intros Hn. rewrite slice_length; lia. Qed.

Lemma slice_drop {A} n (l : list A) : slice 0 n l ++ drop (Z.to_nat n) l = l.
Proof. unfold slice. rewrite Z.sub_0_r. simpl. rewrite drop_0. apply take_drop. Qed.

Lemma any_byte_zeros data : any_byte data = false -> data = repeat x00 (length data).
Proof.
  unfold any_byte. rewrite existsb_false_iff. induction data as [|b data IH]; simpl; [done|]. intros Hp. f_equal.
  - specialize (Hp b ltac:(left)). apply negb_false_iff, bool_decide_eq_true in Hp. done.
  - apply IH. intros x Hx. apply Hp. by right.
Qed.

Lemma zlen_drop {A} n (l : list A) : 0 <= n -> zlen (drop (Z.to_nat n) l) = Z.max 0 (zlen l - n).
Proof. intros Hn. unfold zlen. rewrite length_drop. lia. Qed.

Lemma slice_nil {A} n (l : list A) : 0 < n -> slice 0 n l = [] -> l = [].
Proof.
  intros Hn Hs. destruct l as [|x l]; [done|]. unfold slice in Hs. rewrite Z.sub_0_r in Hs. simpl in Hs.
  destruct (Z.to_nat n) eqn:E; [lia|done].
Qed.

Lemma any_byte_app a b : any_byte (a ++ b) = any_byte a || any_byte b.
Proof. apply existsb_app. Qed.

Lemma startswith_exists {A} `{EqDecision A} (s p : list A) : startswith s p = true -> exists r, s = p ++ r.
Proof. intros Hs. apply bool_decide_eq_true in Hs. destruct Hs as [r ->]. by exists r. Qed.

Lemma endswith_exists {A} `{EqDecision A} (s p : list A) : endswith s p = true -> exists r, s = r ++ p.
Proof. intros Hs. apply bool_decide_eq_true in Hs. destruct Hs as [r ->]. by exists r. Qed.

Lemma utf8_decode_length m l text : utf8_decode m l = Ok text -> zlen text <= zlen l.
Proof.
  enough (forall n l text, (length l <= n)%nat -> utf8_decode m l = Ok text -> zlen text <= zlen l) as H by eauto.
  clear. induction n as [|n IH]; intros [|b l] text Hn Hd; simpl in Hn, Hd; try lia; inv_ok; try done.
  assert (forall c k r, (k <= length l)%nat -> utf8_decode m (drop k l) = Ok r -> zlen (c :: r) <= zlen (b :: l)) as Hgo.
  { intros c k r Hk Hr. apply IH in Hr; [|rewrite length_drop; lia]. unfold zlen in *. rewrite length_drop in Hr. simpl. lia. }
  repeat case_match; inv_ok; simpl in *;
    first [eapply (Hgo _ 0%nat); [lia|done] | eapply (Hgo _ 1%nat); [simpl; lia|done] | eapply (Hgo _ 2%nat); [simpl; lia|done]
      | eapply (Hgo _ 3%nat); [simpl; lia|done]].
Qed.

Lemma strip_front_length c s : (length (strip_front c s) <= length s)%nat.
Proof. induction s as [|x s IH]; simpl; [done|]. destruct (x =? c); simpl; lia. Qed.

(** [dirname] of a relative path is shorter than the path. *)
Lemma dirname_prefix s : dirname s = [] \/ exists head last, s = head ++ [SLASH] ++ last /\
  dirname s = if forallb (Z.eqb SLASH) (head ++ [SLASH]) then head ++ [SLASH] else rstrip_char SLASH (head ++ [SLASH]).
Proof.
  unfold dirname. destruct (rev (split_on SLASH s)) as [|last [|c r]] eqn:Hr; [by left|by left|right].
  exists (join_with SLASH (rev (c :: r))), last. split; [|done].
  rewrite <-(join_split SLASH s) at 1. rewrite <-(rev_involutive (split_on SLASH s)), Hr. cbn [rev].
  rewrite join_app; [done| |done]. intros Hn. apply (f_equal length) in Hn. rewrite length_app in Hn. simpl in Hn. lia.
Qed.

Lemma rstrip_snoc c s : (length (rstrip_char c (s ++ [c])) <= length s)%nat.
Proof.
  unfold rstrip_char. rewrite rev_app_distr, length_rev. simpl. rewrite Z.eqb_refl. rewrite <-(length_rev s). apply strip_front_length.
Qed.

Lemma dirname_length s : zlen (dirname s) <= zlen s.
Proof.
  unfold zlen. destruct (dirname_prefix s) as [->|(head & last & Hs & ->)]; [simpl; lia|]. rewrite Hs, !length_app.
  destruct (forallb _ _); [rewrite length_app; simpl; lia|]. pose proof (rstrip_snoc SLASH head). simpl. lia.
Qed.

Lemma dirname_shorter s : s <> [] -> startswith s (str "/") = false -> zlen (dirname s) < zlen s.
Proof.
  intros Hne Hs. unfold zlen. destruct (dirname_prefix s) as [->|(head & last & Hh & ->)]; [destruct s; [done|simpl; lia]|].
  destruct (forallb _ _) eqn:Hf.
  - apply bool_decide_eq_false in Hs. destruct Hs. destruct head as [|x head]; rewrite Hh.
    + by exists last.
    + change (Z.eqb SLASH x && forallb (Z.eqb SLASH) (head ++ [SLASH]) = true) in Hf. apply andb_true_iff in Hf as [Hx _]. apply Z.eqb_eq in Hx as <-. by eexists.
  - pose proof (rstrip_snoc SLASH head). rewrite Hh, !length_app. simpl. lia.
Qed.

Arguments refuses_unpack {A} {ok} data finish fields.
Arguments refuses_pyindex {A} {ok} i l.
