(* ===== verification/Json.v ===== *)
(** * [json.loads] and [json.dumps]

    The decoder of the standard library with its [object_pairs_hook] and
    [parse_constant] arguments, and the encoder with sorted keys and ASCII output.
    The decoder recurses on fuel; [loads_fuel] shows that the fuel [loads] gives it
    is never used up.  Python's limit on nesting depth is not modelled. *)
From Stdlib Require Import ZArith Lia.
From Stdlib Require Import Init.Byte.
From stdpp Require Import base list sets strings option.
From S2P Require Import Prelude PyStr PyVal Bytes.

Open Scope string_scope.
Open Scope list_scope.
Open Scope Z_scope.

(** ** Scanning *)

Definition is_ws (c : Z) : bool := (c =? 32) || (c =? 9) || (c =? 10) || (c =? 13).

Fixpoint skip_ws (s : pystr) : pystr :=
  match s with
  | c :: t => if is_ws c then skip_ws t else s
  | [] => []
  end.

Definition bad_json {A} : res A := raise JSONDecodeError "invalid JSON".

(** *** Strings *)

Definition hex_value (c : Z) : option Z :=
  if in_range 48 57 c then Some (c - 48)
  else if in_range 97 102 c then Some (c - 87)
  else if in_range 65 70 c then Some (c - 55)
  else None.

Definition hex4 (a b c d : Z) : option Z :=
  match hex_value a, hex_value b, hex_value c, hex_value d with
  | Some a, Some b, Some c, Some d => Some (4096 * a + 256 * b + 16 * c + d)
  | _, _, _, _ => None
  end.

Definition is_high (c : Z) : bool := in_range 0xD800 0xDBFF c.
Definition is_low (c : Z) : bool := in_range 0xDC00 0xDFFF c.

Definition escape_value (c : Z) : option Z :=
  if c =? 34 then Some 34 else if c =? 92 then Some 92 else if c =? 47 then Some 47
  else if c =? 98 then Some 8 else if c =? 102 then Some 12 else if c =? 110 then Some 10
  else if c =? 114 then Some 13 else if c =? 116 then Some 9 else None.

Definition push (c : Z) (r : res (pystr * pystr)) : res (pystr * pystr) :=
  let! p := r in Ok (c :: p.1, p.2).

(** The rest of a string after its opening quote: its value and what follows the
    closing quote.  An escaped surrogate pair becomes one character. *)
Fixpoint scan_string (s : pystr) : res (pystr * pystr) :=
  match s with
  | [] => bad_json
  | c :: t =>
      if c =? 34 then Ok ([], t)
      else if c <? 32 then bad_json
      else if negb (c =? 92) then push c (scan_string t)
      else match t with
      | e :: t1 =>
          if e =? 117 then
            match t1 with
            | a :: b :: c' :: d :: t2 =>
                match hex4 a b c' d with
                | None => bad_json
                | Some u =>
                    if is_high u then
                      match t2 with
                      | b1 :: u1 :: a2 :: b2 :: c2 :: d2 :: t3 =>
                          match hex4 a2 b2 c2 d2 with
                          | Some v =>
                              if (b1 =? 92) && (u1 =? 117) && is_low v then
                                push (0x10000 + (u - 0xD800) * 1024 + (v - 0xDC00)) (scan_string t3)
                              else push u (scan_string t2)
                          | None => push u (scan_string t2)
                          end
                      | _ => push u (scan_string t2)
                      end
                    else push u (scan_string t2)
                end
            | _ => bad_json
            end
          else match escape_value e with
               | Some v => push v (scan_string t1)
               | None => bad_json
               end
      | [] => bad_json
      end
  end.

(** *** Numbers *)

Fixpoint span_digits (s : pystr) : pystr * pystr :=
  match s with
  | c :: t => if is_ascii_digit c then let '(d, r) := span_digits t in (c :: d, r) else ([], s)
  | [] => ([], [])
  end.

Definition digits_value (d : pystr) : Z := foldl (fun n c => 10 * n + (c - 48)) 0 d.

(** The binary64 value nearest to [n / d], ties to even, for [n >= 0], [d > 0]. *)
Definition nearest_double (n d : Z) : pyfloat :=
  if n =? 0 then FFin 0 0
  else
    let e0 := Z.log2 n - Z.log2 d - 53 in
    let scaled e := if 0 <=? e then (n, Z.shiftl d e) else (Z.shiftl n (- e), d) in
    let fits e := let '(a, b) := scaled e in a / b <? 2 ^ 53 in
    let e := Z.max (-1074) (if fits e0 then e0 else e0 + 1) in
    let '(a, b) := scaled e in
    let q := a / b in
    let r := a mod b in
    let q := if (2 * r <? b) then q else if (b <? 2 * r) then q + 1 else if Z.even q then q else q + 1 in
    if 1023 <? Z.log2 q + e then FInf false else FFin q e.

Definition negate_float (f : pyfloat) : pyfloat :=
  match f with FNan => FNan | FInf b => FInf (negb b) | FFin m e => FFin (- m) e end.

Definition float_value (neg : bool) (int_part frac_part : pystr) (exponent : Z) : pyfloat :=
  let n := digits_value (int_part ++ frac_part) in
  let k := exponent - zlen frac_part in
  let f := if 0 <=? k then nearest_double (n * 10 ^ k) 1 else nearest_double n (10 ^ (- k)) in
  if neg then negate_float f else f.

(** The longest decimal literal [int] accepts from text. *)
Definition INT_MAX_STR_DIGITS : Z := 4300.

Definition scan_int_part (s : pystr) : res (pystr * pystr) :=
  match s with
  | c :: t => if c =? 48 then Ok ([c], t)
              else if in_range 49 57 c then let '(d, r) := span_digits t in Ok (c :: d, r)
              else bad_json
  | [] => bad_json
  end.

Definition scan_frac (s : pystr) : pystr * pystr :=
  match s with
  | c :: t => if c =? 46 then match span_digits t with ([], _) => ([], s) | dr => dr end else ([], s)
  | [] => ([], [])
  end.

Definition scan_exp (s : pystr) : option Z * pystr :=
  match s with
  | c :: t =>
      if (c =? 101) || (c =? 69) then
        let '(sg, u) := match t with
                        | x :: u => if x =? 45 then (-1, u) else if x =? 43 then (1, u) else (1, t)
                        | [] => (1, t)
                        end in
        match span_digits u with
        | ([], _) => (None, s)
        | (d, r) => (Some (sg * digits_value d), r)
        end
      else (None, s)
  | [] => (None, [])
  end.

Definition scan_number (neg : bool) (s : pystr) : res (pyval * pystr) :=
  let! p := scan_int_part s in
  let '(ip, s1) := p in
  let '(fp, s2) := scan_frac s1 in
  let '(ex, s3) := scan_exp s2 in
  match fp, ex with
  | [], None =>
      if INT_MAX_STR_DIGITS <? zlen ip then raise ValueError "Exceeds the limit for integer string conversion"
      else Ok (VInt (if neg then - digits_value ip else digits_value ip), s3)
  | _, _ => Ok (VFloat (float_value neg ip fp (default 0 ex)), s3)
  end.

(** *** Values *)

Definition strip_prefix (p : string) (s : pystr) : option pystr :=
  if startswith s (str p) then Some (drop (length (str p)) s) else None.

Section decoder.
Variable hook : dict -> res dict.
Variable parse_constant : pyfloat -> res pyval.

Definition constant (f : pyfloat) (rest : pystr) : res (pyval * pystr) :=
  let! v := parse_constant f in Ok (v, rest).

(** The values that begin with neither quote, brace nor bracket. *)
Definition scan_atom (s : pystr) : res (pyval * pystr) :=
  match strip_prefix "null" s with Some r => Ok (VNone, r) | None =>
  match strip_prefix "true" s with Some r => Ok (VBool true, r) | None =>
  match strip_prefix "false" s with Some r => Ok (VBool false, r) | None =>
  match strip_prefix "NaN" s with Some r => constant FNan r | None =>
  match strip_prefix "Infinity" s with Some r => constant (FInf false) r | None =>
  match strip_prefix "-Infinity" s with Some r => constant (FInf true) r | None =>
  match s with
  | c :: t => if c =? 45 then scan_number true t else scan_number false s
  | [] => bad_json
  end end end end end end end.

Fixpoint scan_value (fuel : nat) (s : pystr) {struct fuel} : res (pyval * pystr) :=
  match fuel with
  | O => raise RecursionError "fuel"
  | S fuel =>
      match s with
      | [] => bad_json
      | c :: t =>
          if c =? 34 then let! p := scan_string t in Ok (VStr p.1, p.2)
          else if c =? 123 then
            match skip_ws t with
            | x :: r =>
                if x =? 125 then let! d := hook [] in Ok (VDict d, r)
                else let! p := scan_members fuel (x :: r) in let! d := hook p.1 in Ok (VDict d, p.2)
            | [] => bad_json
            end
          else if c =? 91 then
            match skip_ws t with
            | x :: r =>
                if x =? 93 then Ok (VList [], r)
                else let! p := scan_elements fuel (x :: r) in Ok (VList p.1, p.2)
            | [] => bad_json
            end
          else scan_atom s
      end
  end
with scan_members (fuel : nat) (s : pystr) {struct fuel} : res (dict * pystr) :=
  match fuel with
  | O => raise RecursionError "fuel"
  | S fuel =>
      match s with
      | c :: t =>
          if negb (c =? 34) then bad_json
          else
            let! k := scan_string t in
            match skip_ws k.2 with
            | c1 :: t1 =>
                if negb (c1 =? 58) then bad_json
                else
                  let! v := scan_value fuel (skip_ws t1) in
                  match skip_ws v.2 with
                  | c2 :: t2 =>
                      if c2 =? 125 then Ok ([(k.1, v.1)], t2)
                      else if c2 =? 44 then
                        let! rest := scan_members fuel (skip_ws t2) in
                        Ok ((k.1, v.1) :: rest.1, rest.2)
                      else bad_json
                  | [] => bad_json
                  end
            | [] => bad_json
            end
      | [] => bad_json
      end
  end
with scan_elements (fuel : nat) (s : pystr) {struct fuel} : res (list pyval * pystr) :=
  match fuel with
  | O => raise RecursionError "fuel"
  | S fuel =>
      let! v := scan_value fuel s in
      match skip_ws v.2 with
      | c :: t =>
          if c =? 93 then Ok ([v.1], t)
          else if c =? 44 then
            let! rest := scan_elements fuel (skip_ws t) in Ok (v.1 :: rest.1, rest.2)
          else bad_json
      | [] => bad_json
      end
  end.

(** [json.loads(s, object_pairs_hook=hook)] for text: a byte order mark is refused. *)
Definition loads (s : pystr) : res pyval :=
  if startswith s [0xFEFF] then bad_json
  else
    let! p := scan_value (2 * length s + 1) (skip_ws s) in
    match skip_ws p.2 with [] => Ok p.1 | _ => bad_json end.

End decoder.

(** *** Bytes: [json.detect_encoding] *)

Fixpoint utf16_units (big : bool) (l : bytes) : res (list Z) :=
  match l with
  | [] => Ok []
  | a :: b :: t =>
      let! r := utf16_units big t in
      Ok ((if big then 256 * b2z a + b2z b else 256 * b2z b + b2z a) :: r)
  | _ => raise UnicodeError "truncated data"
  end.

Fixpoint join_surrogates (l : list Z) : pystr :=
  match l with
  | u :: t =>
      match t with
      | v :: t' =>
          if is_high u && is_low v then (0x10000 + (u - 0xD800) * 1024 + (v - 0xDC00)) :: join_surrogates t'
          else u :: join_surrogates t
      | [] => [u]
      end
  | [] => []
  end.

Fixpoint utf32_decode (big : bool) (l : bytes) : res pystr :=
  match l with
  | [] => Ok []
  | a :: b :: c :: d :: t =>
      let v := if big then be_int 0 [a; b; c; d] else le_int [a; b; c; d] in
      if 0x10FFFF <? v then raise UnicodeError "code point not in range"
      else let! r := utf32_decode big t in Ok (v :: r)
  | _ => raise UnicodeError "truncated data"
  end.

Definition utf16_decode (big : bool) (l : bytes) : res pystr :=
  let! u := utf16_units big l in Ok (join_surrogates u).

(** [b.decode(detect_encoding(b), "surrogatepass")] *)
Definition decode_json (b : bytes) : res pystr :=
  let is0 i := match nth_error b i with Some x => byte_eqb x x00 | None => false end in
  if startswith b [x00; x00; xfe; xff] then utf32_decode true (drop 4 b)
  else if startswith b [xff; xfe; x00; x00] then utf32_decode false (drop 4 b)
  else if startswith b [xfe; xff] then utf16_decode true (drop 2 b)
  else if startswith b [xff; xfe] then utf16_decode false (drop 2 b)
  else if startswith b [xef; xbb; xbf] then utf8_decode SurrogatePass (drop 3 b)
  else if 4 <=? zlen b then
    if is0 0%nat then (if is0 1%nat then utf32_decode true b else utf16_decode true b)
    else if is0 1%nat then (if is0 2%nat && is0 3%nat then utf32_decode false b else utf16_decode false b)
    else utf8_decode SurrogatePass b
  else if zlen b =? 2 then
    if is0 0%nat then utf16_decode true b
    else if is0 1%nat then utf16_decode false b
    else utf8_decode SurrogatePass b
  else utf8_decode SurrogatePass b.

(** [json.loads(b, object_pairs_hook=hook)] for bytes. *)
Definition loads_bytes (hook : dict -> res dict) (parse_constant : pyfloat -> res pyval) (b : bytes) : res pyval :=
  let! s := decode_json b in loads hook parse_constant s.

(** Without [parse_constant], the three constants are floats. *)
Definition float_constant (f : pyfloat) : res pyval := Ok (VFloat f).

(** ** Encoding *)

(** [int.__repr__] *)
Fixpoint digits_rev (fuel : nat) (n : Z) : pystr :=
  match fuel with
  | O => []
  | S f => if n <? 10 then [48 + n] else (48 + n mod 10) :: digits_rev f (n / 10)
  end.
Definition nat_repr (n : Z) : pystr := rev (digits_rev (S (Z.to_nat (Z.log2 n))) n).
Definition int_repr (z : Z) : pystr := if z <? 0 then 45 :: nat_repr (- z) else nat_repr z.

Definition hex4_of (u : Z) : pystr :=
  [hex_digit (u / 4096); hex_digit (u / 256 mod 16); hex_digit (u / 16 mod 16); hex_digit (u mod 16)].

(** [ensure_ascii]: everything outside printable ASCII is escaped. *)
Definition escape_char (c : Z) : pystr :=
  if c =? 34 then str "\" ++ [34]
  else if c =? 92 then str "\\"
  else if c =? 10 then str "\n" else if c =? 13 then str "\r" else if c =? 9 then str "\t"
  else if c =? 12 then str "\f" else if c =? 8 then str "\b"
  else if in_range 32 126 c then [c]
  else if c <? 0x10000 then str "\u" ++ hex4_of c
  else let v := c - 0x10000 in
       str "\u" ++ hex4_of (0xD800 + v / 1024) ++ str "\u" ++ hex4_of (0xDC00 + v mod 1024).

Definition dumps_string (s : pystr) : pystr := [34] ++ flat_map escape_char s ++ [34].

(** The layout of an encoder: its two separators, whether keys are sorted, and the
    indentation step ([None]: everything on one line). *)
Record layout := Layout { item_sep : pystr; key_sep : pystr; sort_keys : bool; indent : option nat }.

(** [separators=(",", ":"), sort_keys=True]; [sort_keys=True]; no argument;
    [indent=2, sort_keys=True]. *)
Definition compact : layout := Layout (str ",") (str ":") true None.
Definition spaced : layout := Layout (str ", ") (str ": ") true None.
Definition plain : layout := Layout (str ", ") (str ": ") false None.
Definition indented : layout := Layout (str ",") (str ": ") true (Some 2%nat).

(** The line break before an item at nesting level [lvl]. *)
Definition newline (style : layout) (lvl : nat) : pystr :=
  match indent style with None => [] | Some k => 10 :: repeat 32 (k * lvl) end.

Fixpoint join_sep (sep : pystr) (l : list pystr) : pystr :=
  match l with
  | [] => []
  | [x] => x
  | x :: t => x ++ sep ++ join_sep sep t
  end.

Section encoder.
(** [float.__repr__] of a finite float is not modelled. *)
Variable float_repr : pyfloat -> pystr.
Variable style : layout.

(** A bracketed sequence of encoded items. *)
Definition bracket (lvl : nat) (open close : string) (items : list pystr) : pystr :=
  match items with
  | [] => str open ++ str close
  | _ => str open ++ newline style (S lvl) ++
         join_sep (item_sep style ++ newline style (S lvl)) items ++ newline style lvl ++ str close
  end.

Fixpoint dumps_at (lvl : nat) (v : pyval) : pystr :=
  match v with
  | VNone => str "null"
  | VBool true => str "true"
  | VBool false => str "false"
  | VInt z => int_repr z
  | VFloat FNan => str "NaN"
  | VFloat (FInf false) => str "Infinity"
  | VFloat (FInf true) => str "-Infinity"
  | VFloat f => float_repr f
  | VStr s => dumps_string s
  | VList l => bracket lvl "[" "]" (map (dumps_at (S lvl)) l)
  | VDict d =>
      let items := map (fun kv => (kv.1, dumps_at (S lvl) kv.2)) d in
      let items := if sort_keys style then sort_by (fun a b => str_leb a.1 b.1) items else items in
      bracket lvl "{" "}" (map (fun kv => dumps_string kv.1 ++ key_sep style ++ kv.2) items)
  end.

Definition dumps (v : pyval) : pystr := dumps_at O v.

End encoder.

(** The representation to use for values that hold no finite float. *)
Definition no_floats : pyfloat -> pystr := fun _ => [].

(** Decoding with the defaults, and with duplicate names refused. *)
Example loads_example :
  loads (strict_pairs ValueError "duplicate" []) float_constant
    (str "{" ++ [34] ++ str "a" ++ [34] ++ str ": [1, -20, 0.1, true], " ++ [34] ++ str "b" ++ [34] ++ str ":null }")
  = Ok (VDict [(str "a", VList [VInt 1; VInt (-20); VFloat (FFin 7205759403792794 (-56)); VBool true]);
               (str "b", VNone)]).
Proof. vm_compute. reflexivity. Qed.

(** ** The fuel is enough *)

Definition not_fuel (c : exn_class) : bool := negb (bool_decide (c = RecursionError)).

Lemma skip_ws_length s : (length (skip_ws s) <= length s)%nat.
Proof. induction s as [|c s IH]; simpl; [done|]. destruct (is_ws c); simpl; lia. Qed.

Lemma span_digits_length s : (length (span_digits s).2 <= length s)%nat.
Proof.
  induction s as [|c s IH]; simpl; [done|]. destruct (is_ascii_digit c); [|done].
  destruct (span_digits s). simpl in *. lia.
Qed.

Ltac sc_cases :=
  repeat match goal with
  | H : push _ ?r = Ok _ |- _ => unfold push in H
  | H : bad_json = Ok _ |- _ => discriminate H
  | H : (if ?b then _ else _) = Ok _ |- _ => destruct b eqn:?
  | H : match ?v with _ => _ end = Ok _ |- _ => destruct v eqn:?
  | H : Ok _ = Ok _ |- _ => injection H as <-
  | H : Err _ = Ok _ |- _ => discriminate H
  end; simplify_eq.

Lemma scan_string_length s p : scan_string s = Ok p -> (length p.2 < length s)%nat.
Proof.
  remember (length s) as n eqn:Hn. revert s p Hn. induction n as [n IH] using lt_wf_ind.
  intros s p -> H. destruct s as [|c s]; [done|]. simpl in H. sc_cases; simpl;
    try lia;
    match goal with E : scan_string ?t = Ok ?q |- _ =>
      specialize (IH (length t) ltac:(simpl; lia) t q eq_refl E) end; simpl in *; lia.
Qed.

Lemma raises_scan_string s : raises_only not_fuel (scan_string s).
Proof.
  remember (length s) as n eqn:Hn. revert s Hn. induction n as [n IH] using lt_wf_ind. intros s ->.
  assert (forall c t, (length t < length s)%nat -> raises_only not_fuel (push c (scan_string t))) as Hp.
  { intros c t Ht. unfold push. apply raises_bind; [by eapply IH|done]. }
  destruct s as [|c s]; [done|]. simpl.
  repeat first [apply Hp; simpl; lia | case_match; simplify_eq; try done].
Qed.

Lemma strip_prefix_length p s r : strip_prefix p s = Some r -> p <> "" -> (length r < length s)%nat.
Proof.
  unfold strip_prefix, startswith. destruct (bool_decide _) eqn:E; [|done].
  bool_prop. intros [= <-] Hp. rewrite length_drop.
  assert (0 < length (str p))%nat by (destruct p; [done|unfold str; simpl; lia]).
  apply prefix_length in E. lia.
Qed.

Lemma scan_frac_length s : (length (scan_frac s).2 <= length s)%nat.
Proof.
  destruct s as [|c s]; simpl; [done|]. pose proof (span_digits_length s).
  destruct (c =? 46); [|done]. destruct (span_digits s) as [[|x d] r]; simpl in *; lia.
Qed.

Lemma scan_exp_length s : (length (scan_exp s).2 <= length s)%nat.
Proof.
  destruct s as [|c s]; simpl; [done|]. destruct (_ || _); [|done].
  assert (forall (sg : Z) u, (length u <= length s)%nat ->
    (length (match span_digits u with ([], _) => (None, c :: s) | (d, r) => (Some (sg * digits_value d)%Z, r) end).2
     <= S (length s))%nat) as Hd.
  { intros sg u Hu. pose proof (span_digits_length u). destruct (span_digits u) as [[|x d] r]; simpl in *; lia. }
  destruct s as [|x s]; [by apply (Hd 1 [])|].
  destruct (x =? 45); [apply (Hd (-1)); simpl; lia|]. destruct (x =? 43); apply (Hd 1); simpl; lia.
Qed.

Lemma scan_number_length b s p : scan_number b s = Ok p -> (length p.2 < length s)%nat.
Proof.
  unfold scan_number. intros H. inv_ok. destruct a as [ip s1].
  assert (length s1 < length s)%nat as H1.
  { destruct s as [|c s]; [done|]. simpl in E. pose proof (span_digits_length s) as Hs.
    destruct (c =? 48); [simplify_eq; simpl; lia|]. destruct (in_range 49 57 c); [|done].
    destruct (span_digits s). simplify_eq. simpl in *. lia. }
  pose proof (scan_frac_length s1). destruct (scan_frac s1) as [fp s2].
  pose proof (scan_exp_length s2). destruct (scan_exp s2) as [ex s3]. simpl in *.
  repeat case_match; inv_ok; simpl; lia.
Qed.

Section decoder_fuel.
Context (hook : dict -> res dict) (parse_constant : pyfloat -> res pyval).
Context (hook_raises : forall d, raises_only not_fuel (hook d)).
Context (constant_raises : forall f, raises_only not_fuel (parse_constant f)).

Abbreviation value := (scan_value hook parse_constant).
Abbreviation members := (scan_members hook parse_constant).
Abbreviation elements := (scan_elements hook parse_constant).

Lemma scan_atom_length s p : scan_atom parse_constant s = Ok p -> (length p.2 < length s)%nat.
Proof.
  unfold scan_atom, constant. intros H.
  repeat match type of H with
  | match strip_prefix ?x s with _ => _ end = _ =>
      let E := fresh "E" in destruct (strip_prefix x s) eqn:E;
      [apply strip_prefix_length in E; [|done]; inv_ok; done|clear E]
  end.
  destruct s as [|c s]; [done|]. case_match.
  - apply scan_number_length in H. simpl. lia.
  - by apply scan_number_length in H.
Qed.

Lemma raises_scan_atom s : raises_only not_fuel (scan_atom parse_constant s).
Proof.
  assert (forall b t, raises_only not_fuel (scan_number b t)) as Hn.
  { intros b t. unfold scan_number. apply raises_bind.
    - destruct t; [done|]. simpl. repeat case_match; done.
    - intros [ip s1] _. repeat case_match; done. }
  assert (forall f r, raises_only not_fuel (constant parse_constant f r)) as Hc.
  { intros f r. apply raises_bind; [apply constant_raises|done]. }
  unfold scan_atom. repeat case_match; first [done|apply Hc|apply Hn].
Qed.

(** Every scanner consumes at least one character. *)
Lemma scan_consumes fuel :
  (forall s p, value fuel s = Ok p -> (length p.2 < length s)%nat) /\
  (forall s p, members fuel s = Ok p -> (length p.2 < length s)%nat) /\
  (forall s p, elements fuel s = Ok p -> (length p.2 < length s)%nat).
Proof.
  induction fuel as [|fuel (IHv & IHm & IHe)]; [repeat split; done|].
  split_and!; intros s p H; simpl in H.
  - destruct s as [|c t]; [done|]. pose proof (skip_ws_length t) as Hw.
    destruct (c =? 34); [inv_ok; apply scan_string_length in E; simpl; lia|].
    destruct (c =? 123); [|destruct (c =? 91); [|by apply scan_atom_length in H]];
      (destruct (skip_ws t) as [|x r]; [done|]); simpl in Hw.
    + destruct (x =? 125); inv_ok; simpl; [lia|]. apply IHm in E. simpl in E. lia.
    + destruct (x =? 93); inv_ok; simpl; [lia|]. apply IHe in E. simpl in E. lia.
  - destruct s as [|c t]; [done|]. case_match; [done|]. inv_ok.
    apply scan_string_length in E. pose proof (skip_ws_length a.2) as H1.
    destruct (skip_ws a.2) as [|c1 t1]; [done|]. case_match; [done|]. inv_ok.
    apply IHv in E0. pose proof (skip_ws_length t1). pose proof (skip_ws_length a0.2).
    destruct (skip_ws a0.2) as [|c2 t2]; [done|]. simpl in *.
    case_match; inv_ok; simpl; [lia|]. case_match; [|done]. inv_ok. simpl.
    apply IHm in E1. pose proof (skip_ws_length t2). lia.
  - inv_ok. apply IHv in E. pose proof (skip_ws_length a.2).
    destruct (skip_ws a.2) as [|c t]; [done|]. simpl in *.
    case_match; inv_ok; simpl; [lia|]. case_match; [|done]. inv_ok. simpl.
    apply IHe in E0. pose proof (skip_ws_length t). lia.
Qed.

(** With fuel for twice the text's length no scanner runs out of it. *)
Lemma scan_fuel fuel :
  (forall s, (2 * length s + 1 <= fuel)%nat -> raises_only not_fuel (value fuel s)) /\
  (forall s, (2 * length s + 2 <= fuel)%nat -> raises_only not_fuel (members fuel s)) /\
  (forall s, (2 * length s + 2 <= fuel)%nat -> raises_only not_fuel (elements fuel s)).
Proof.
  induction fuel as [|fuel (IHv & IHm & IHe)]; [split_and!; lia|].
  pose proof (scan_consumes fuel) as (Lv & _ & _).
  split_and!; intros s Hs; simpl.
  - destruct s as [|c t]; [done|]. pose proof (skip_ws_length t) as Hw. simpl in Hs.
    destruct (c =? 34); [apply raises_bind; [apply raises_scan_string|done]|].
    destruct (c =? 123).
    { destruct (skip_ws t) as [|x r]; [done|]. simpl in Hw.
      destruct (x =? 125); [apply raises_bind; [apply hook_raises|done]|].
      apply raises_bind; [apply IHm; simpl; lia|]. intros. apply raises_bind; [apply hook_raises|done]. }
    destruct (c =? 91); [|apply raises_scan_atom].
    destruct (skip_ws t) as [|x r]; [done|]. simpl in Hw.
    destruct (x =? 93); [done|]. apply raises_bind; [apply IHe; simpl; lia|done].
  - destruct s as [|c t]; [done|]. simpl in Hs. destruct (negb _); [done|].
    apply raises_bind; [apply raises_scan_string|]. intros k Hk%scan_string_length.
    pose proof (skip_ws_length k.2). destruct (skip_ws k.2) as [|c1 t1]; [done|]. simpl in *.
    destruct (negb _); [done|]. pose proof (skip_ws_length t1).
    apply raises_bind; [apply IHv; lia|]. intros v Hv%Lv.
    pose proof (skip_ws_length v.2). destruct (skip_ws v.2) as [|c2 t2]; [done|]. simpl in *.
    destruct (c2 =? 125); [done|]. destruct (c2 =? 44); [|done].
    pose proof (skip_ws_length t2). apply raises_bind; [apply IHm; lia|done].
  - apply raises_bind; [apply IHv; lia|]. intros v Hv%Lv.
    pose proof (skip_ws_length v.2). destruct (skip_ws v.2) as [|c2 t2]; [done|]. simpl in *.
    destruct (c2 =? 93); [done|]. destruct (c2 =? 44); [|done].
    pose proof (skip_ws_length t2). apply raises_bind; [apply IHe; lia|done].
Qed.

Lemma loads_fuel s : raises_only not_fuel (loads hook parse_constant s).
Proof.
  unfold loads. case_match; [done|]. apply raises_bind.
  - apply scan_fuel. pose proof (skip_ws_length s). lia.
  - intros p _. by case_match.
Qed.
End decoder_fuel.
