(* ===== verification/JsonTrip.v ===== *)
(** * [json.loads(json.dumps(v))]

    The decoder reads back what the encoder wrote, in every layout the scripts use:
    [loads_dumps], for values without floats, whose strings are Python strings
    without an unpaired high surrogate before a low one, whose integers are within
    the limit on decimal text, and whose dicts have distinct keys. *)
From Stdlib Require Import ZArith Lia.
From stdpp Require Import base list sets strings option.
From S2P Require Import Prelude PyStr PyVal Bytes Json.

Open Scope string_scope.
Open Scope list_scope.
Open Scope Z_scope.

(** ** Strings *)

Definition code_point (c : Z) : bool := in_range 0 0x10FFFF c.

Fixpoint no_pair (s : pystr) : bool :=
  match s with
  | c :: t => negb (is_high c && match t with d :: _ => is_low d | [] => false end) && no_pair t
  | [] => true
  end.

Definition text_ok (s : pystr) : bool := forallb code_point s && no_pair s.

Lemma hex_value_digit d : 0 <= d < 16 -> hex_value (hex_digit d) = Some d.
Proof.
  intros H. unfold hex_digit, hex_value, in_range. destruct (d <? 10) eqn:E; bool_prop.
  - replace (_ && _) with true by lia. f_equal. lia.
  - replace ((48 <=? 87 + d) && (87 + d <=? 57)) with false by lia.
    replace (_ && _) with true by lia. f_equal. lia.
Qed.

Lemma hex4_hex4_of u : 0 <= u < 65536 ->
  exists a b c d, hex4_of u = [a; b; c; d] /\ hex4 a b c d = Some u.
Proof.
  intros H. unfold hex4_of. do 4 eexists. split; [done|]. unfold hex4.
  rewrite !hex_value_digit by (try split; Z.to_euclidean_division_equations; lia).
  f_equal. Z.to_euclidean_division_equations. lia.
Qed.

(** What follows an escaped high surrogate and cannot complete it. *)
Definition unpaired (t : pystr) : Prop :=
  match t with
  | b :: u :: a2 :: b2 :: c2 :: d2 :: _ =>
      match hex4 a2 b2 c2 d2 with
      | Some v => (b =? 92) && (u =? 117) && is_low v = false
      | None => True
      end
  | _ => True
  end.

Lemma scan_unicode a b c d u t : hex4 a b c d = Some u -> (is_high u = true -> unpaired t) ->
  scan_string (92 :: 117 :: a :: b :: c :: d :: t) = push u (scan_string t).
Proof.
  intros Hh Hu. simpl. rewrite Hh. destruct (is_high u); [|done].
  specialize (Hu eq_refl). unfold unpaired in Hu.
  destruct t as [|b1 [|u1 [|a2 [|b2 [|c2 [|d2 t3]]]]]]; try done.
  destruct (hex4 a2 b2 c2 d2); [|done]. by rewrite Hu.
Qed.

Lemma scan_pair u v t a b c d a2 b2 c2 d2 :
  hex4 a b c d = Some u -> hex4 a2 b2 c2 d2 = Some v -> is_high u = true -> is_low v = true ->
  scan_string (92 :: 117 :: a :: b :: c :: d :: 92 :: 117 :: a2 :: b2 :: c2 :: d2 :: t)
  = push (0x10000 + (u - 0xD800) * 1024 + (v - 0xDC00)) (scan_string t).
Proof. intros H1 H2 Hu Hv. simpl. by rewrite H1, H2, Hu, Hv. Qed.

Lemma str_u : str "\u" = [92; 117].
Proof. done. Qed.

(** How an encoded character begins. *)
Inductive starts : Z -> pystr -> Prop :=
  | starts_plain c : c <> 92 -> c <> 34 -> 32 <= c -> starts c [c]
  | starts_escape c e : e <> 117 -> escape_value e = Some c -> starts c [92; e]
  | starts_unicode u a b c d : hex4 a b c d = Some u -> starts u [92; 117; a; b; c; d]
  | starts_pair x u v a b c d a2 b2 c2 d2 :
      hex4 a b c d = Some u -> hex4 a2 b2 c2 d2 = Some v -> is_high u = true -> is_low v = true ->
      x = 0x10000 + (u - 0xD800) * 1024 + (v - 0xDC00) ->
      starts x [92; 117; a; b; c; d; 92; 117; a2; b2; c2; d2].

Lemma escape_char_starts c : code_point c = true -> starts c (escape_char c).
Proof.
  unfold code_point, in_range. intros H. bool_prop. unfold escape_char.
  repeat match goal with |- context [c =? ?k] => destruct (c =? k) eqn:?; bool_prop; [subst; by constructor|] end.
  unfold in_range. destruct (_ && _) eqn:E; bool_prop; [by constructor|].
  destruct (c <? 65536) eqn:E2; bool_prop; rewrite !str_u; cbn zeta.
  - destruct (hex4_hex4_of c ltac:(lia)) as (a & b & x & d & -> & Hx). by constructor.
  - set (v := c - 65536). assert (0 <= v < 1048576) as Hv by lia.
    assert (0 <= v / 1024 < 1024) as Hq by (Z.to_euclidean_division_equations; lia).
    assert (0 <= v mod 1024 < 1024) as Hm by (Z.to_euclidean_division_equations; lia).
    assert (v = v / 1024 * 1024 + v mod 1024) as Hd by (Z.to_euclidean_division_equations; lia).
    destruct (hex4_hex4_of (55296 + v / 1024) ltac:(lia)) as (a & b & x & d & -> & Hx).
    destruct (hex4_hex4_of (56320 + v mod 1024) ltac:(lia)) as (a2 & b2 & x2 & d2 & -> & Hx2).
    apply (starts_pair _ _ _ _ _ _ _ _ _ _ _ Hx Hx2); unfold is_high, is_low, in_range; lia.
Qed.

Lemma starts_unpaired c e t : starts c e -> is_low c = false -> unpaired (e ++ t).
Proof.
  intros H Hl. destruct H; simpl.
  - destruct t as [|? [|? [|? [|? [|? ?]]]]]; try done. destruct (hex4 _ _ _ _); [|done].
    by replace (c =? 92) with false by lia.
  - destruct t as [|? [|? [|? [|? ?]]]]; try done. destruct (hex4 _ _ _ _); [|done].
    by replace (e =? 117) with false by lia.
  - by rewrite H.
  - rewrite H. unfold is_high, is_low, in_range in *. lia.
Qed.

Lemma scan_string_dumps s rest : text_ok s = true ->
  scan_string (flat_map escape_char s ++ 34 :: rest) = Ok (s, rest).
Proof.
  unfold text_ok. rewrite andb_true_iff. intros [Hc Hp].
  induction s as [|c s IH]; [done|]. simpl in Hc, Hp. bool_prop.
  specialize (IH ltac:(done) ltac:(done)).
  change (flat_map escape_char (c :: s)) with (escape_char c ++ flat_map escape_char s).
  rewrite <-app_assoc. set (t := flat_map escape_char s ++ 34 :: rest) in *.
  assert (is_high c = true -> unpaired t) as Hu.
  { intros Hh. rewrite Hh in *. destruct s as [|d s]; [by destruct rest as [|? [|? [|? [|? [|? ?]]]]]; try done; simpl; destruct (hex4 _ _ _ _)|].
    simpl in *. bool_prop. unfold t. rewrite <-app_assoc.
    eapply starts_unpaired; [by apply escape_char_starts|done]. }
  destruct (escape_char_starts c ltac:(done)); simpl app.
  - simpl. replace (c =? 34) with false by lia. replace (c <? 32) with false by lia.
    replace (c =? 92) with false by lia. simpl. by rewrite IH.
  - simpl. replace (e =? 117) with false by lia. destruct (escape_value e); simplify_eq. by rewrite IH.
  - rewrite (scan_unicode _ _ _ _ u) by done. by rewrite IH.
  - rewrite (scan_pair u v) by done. by rewrite IH; subst.
Qed.

(** ** Integers *)

Lemma digits_value_snoc l d : digits_value (l ++ [d]) = 10 * digits_value l + (d - 48).
Proof. unfold digits_value. by rewrite foldl_app. Qed.

Lemma digits_rev_spec fuel n : 0 <= n < 2 ^ Z.of_nat fuel -> (0 < fuel)%nat ->
  let l := digits_rev fuel n in
  digits_value (rev l) = n /\ Forall (fun c => is_ascii_digit c = true) l /\
  exists c t, rev l = c :: t /\ (c = 48 -> t = []).
Proof.
  revert n; induction fuel as [|fuel IH]; intros n Hn Hf; [lia|]. simpl.
  destruct (n <? 10) eqn:E; bool_prop.
  - simpl. unfold digits_value, is_ascii_digit, in_range. simpl. split_and!; [lia| |].
    + constructor; [lia|constructor].
    + exists (48 + n), []. done.
  - assert (0 < n / 10 /\ n = 10 * (n / 10) + n mod 10 /\ 0 <= n mod 10 < 10) as (Hq & Hd & Hm)
      by (Z.to_euclidean_division_equations; lia).
    assert (0 < fuel)%nat as Hpos.
    { destruct fuel; [|lia]. simpl in Hn. lia. }
    rewrite Nat2Z.inj_succ, Z.pow_succ_r in Hn by lia.
    specialize (IH (n / 10) ltac:(lia) Hpos) as (Hv & Hall & c & t & Ht & Hc).
    simpl. rewrite digits_value_snoc, Hv. split_and!; [lia| |].
    + constructor; [unfold is_ascii_digit, in_range; lia|done].
    + rewrite Ht. exists c, (t ++ [48 + n mod 10]). split; [done|]. intros Hc48.
      specialize (Hc Hc48). subst. rewrite Ht in Hv. unfold digits_value in Hv. simpl in Hv. lia.
Qed.

Lemma nat_repr_spec n : 0 <= n ->
  digits_value (nat_repr n) = n /\ Forall (fun c => is_ascii_digit c = true) (nat_repr n) /\
  exists c t, nat_repr n = c :: t /\ (c = 48 -> t = []).
Proof.
  intros Hn. unfold nat_repr. set (l := digits_rev _ n).
  destruct (digits_rev_spec (S (Z.to_nat (Z.log2 n))) n) as (H1 & H2 & H3); [|lia|].
  - rewrite Nat2Z.inj_succ, Z2Nat.id by apply Z.log2_nonneg.
    destruct (Z.eq_dec n 0) as [->|]; [done|]. split; [done|]. apply Z.log2_spec. lia.
  - split_and!; [done| |done]. by apply Forall_rev.
Qed.

(** Text at which a number ends. *)
Definition stops (rest : pystr) : bool :=
  match rest with
  | c :: _ => negb (is_ascii_digit c || (c =? 46) || (c =? 101) || (c =? 69))
  | [] => true
  end.

Lemma span_digits_app d rest : Forall (fun c => is_ascii_digit c = true) d -> stops rest = true ->
  span_digits (d ++ rest) = (d, rest).
Proof.
  intros Hd Hs. induction Hd as [|c d Hc Hd IH]; simpl.
  - destruct rest as [|c rest]; [done|]. simpl in *. bool_prop. by rewrite H.
  - by rewrite Hc, IH.
Qed.

Lemma scan_number_repr neg n rest : 0 <= n -> zlen (nat_repr n) <= INT_MAX_STR_DIGITS ->
  stops rest = true ->
  scan_number neg (nat_repr n ++ rest) = Ok (VInt (if neg then - n else n), rest).
Proof.
  intros Hn Hlen Hs. destruct (nat_repr_spec n Hn) as (Hv & Hd & c & t & Ht & Hc).
  unfold scan_number.
  assert (scan_int_part (nat_repr n ++ rest) = Ok (nat_repr n, rest)) as ->.
  { rewrite Ht in *. simpl. inversion Hd as [|? ? Hc1 Hd']; subst. destruct (c =? 48) eqn:E; bool_prop.
    - by rewrite (Hc E).
    - rewrite span_digits_app by done. unfold is_ascii_digit, in_range in *.
      replace ((49 <=? c) && (c <=? 57)) with true by lia. done. }
  assert (scan_frac rest = ([], rest)) as ->.
  { destruct rest as [|x rest]; [done|]. simpl in *. bool_prop. by replace (x =? 46) with false by lia. }
  assert (scan_exp rest = (None, rest)) as ->.
  { destruct rest as [|x rest]; [done|]. simpl in *. bool_prop.
    by replace ((x =? 101) || (x =? 69)) with false by lia. }
  replace (_ <? _) with false by lia. by rewrite Hv.
Qed.

Lemma strip_prefix_none a p s :
  (forall r, s <> Z.of_N (Ascii.N_of_ascii a) :: r) -> strip_prefix (String a p) s = None.
Proof.
  intros Hs. unfold strip_prefix. destruct (startswith s _) eqn:E; [|done].
  apply startswith_prefix in E as [r ->]. by destruct (Hs (str p ++ r)).
Qed.

Lemma strip_prefix_app p rest : strip_prefix p (str p ++ rest) = Some rest.
Proof.
  unfold strip_prefix. replace (startswith _ _) with true
    by (symmetry; apply startswith_prefix; by eexists).
  by rewrite drop_app_length.
Qed.

Lemma startswith_cons (c d : Z) s p :
  startswith (c :: s) (d :: p) = bool_decide (d = c) && startswith s p.
Proof.
  apply eq_true_iff_eq. rewrite andb_true_iff, bool_decide_eq_true, !startswith_prefix. split.
  - intros H. split; [by eapply prefix_cons_inv_1|by eapply prefix_cons_inv_2].
  - intros [-> H]. by apply prefix_cons.
Qed.

Section atoms.
Context (parse_constant : pyfloat -> res pyval).

Lemma scan_atom_int z rest : zlen (nat_repr (Z.abs z)) <= INT_MAX_STR_DIGITS -> stops rest = true ->
  scan_atom parse_constant (int_repr z ++ rest) = Ok (VInt z, rest).
Proof.
  intros Hl Hs. unfold int_repr.
  destruct (nat_repr_spec (Z.abs z) (Z.abs_nonneg z)) as (_ & Hd & c & t & Ht & _).
  assert (48 <= c <= 57) as Hc.
  { rewrite Ht in Hd. inversion Hd as [|? ? H]; subst. unfold is_ascii_digit, in_range in H. lia. }
  unfold scan_atom. destruct (z <? 0) eqn:E; bool_prop.
  - rewrite Z.abs_neq in * by lia.
    assert (strip_prefix "-Infinity" ((45 :: nat_repr (- z)) ++ rest) = None) as Hi.
    { unfold strip_prefix. rewrite Ht. simpl app. change (str "-Infinity") with (45 :: 73 :: str "nfinity").
      rewrite !startswith_cons. by rewrite (bool_decide_false (73 = c)) by lia. }
    rewrite Hi, 5!strip_prefix_none by (cbn -[nat_repr]; intros r [=]).
    simpl. rewrite scan_number_repr by (done || lia). by rewrite Z.opp_involutive.
  - rewrite Z.abs_eq in * by lia.
    rewrite 6!strip_prefix_none by (rewrite Ht; cbn; intros r [= ?]; lia).
    pose proof (scan_number_repr false z rest E Hl Hs) as Hn.
    rewrite Ht in *. change ((c :: t) ++ rest) with (c :: (t ++ rest)) in *. cbv iota beta.
    by rewrite (proj2 (Z.eqb_neq c 45)) by lia.
Qed.
End atoms.

(** ** Layout *)

Definition all_ws (w : pystr) : bool := forallb is_ws w.

(** Separators are a comma or a colon and white space. *)
Definition layout_ok (l : layout) : bool :=
  match item_sep l, key_sep l with
  | c :: w, k :: x => (c =? 44) && all_ws w && (k =? 58) && all_ws x
  | _, _ => false
  end.

Lemma skip_ws_app w s : all_ws w = true -> skip_ws (w ++ s) = skip_ws s.
Proof. induction w as [|c w IH]; [done|]. simpl. intros. bool_prop. rewrite H. auto. Qed.

Lemma skip_ws_first c t : is_ws c = false -> skip_ws (c :: t) = c :: t.
Proof. simpl. by intros ->. Qed.

Lemma stops_ws w c t : all_ws w = true -> stops (c :: t) = true -> stops (w ++ c :: t) = true.
Proof.
  destruct w as [|x w]; [done|]. simpl. intros H _. bool_prop.
  unfold is_ws, is_ascii_digit, in_range in *. lia.
Qed.

Lemma newline_ws l lvl : all_ws (newline l lvl) = true.
Proof. unfold newline. destruct (indent l); [|done]. simpl. by induction (_ * _)%nat. Qed.

(** ** Values *)

Fixpoint jsonable (v : pyval) : bool :=
  match v with
  | VNone | VBool _ => true
  | VInt z => zlen (nat_repr (Z.abs z)) <=? INT_MAX_STR_DIGITS
  | VFloat _ => false
  | VStr s => text_ok s
  | VList l => forallb jsonable l
  | VDict d => bool_decide (NoDup (map fst d)) && forallb (fun kv => text_ok kv.1 && jsonable kv.2) d
  end.

(** What a decoded dump looks like: the keys in the order they were written. *)
Fixpoint canon (style : layout) (v : pyval) : pyval :=
  match v with
  | VList l => VList (map (canon style) l)
  | VDict d =>
      let items := map (fun kv => (kv.1, canon style kv.2)) d in
      VDict (if sort_keys style then sort_by (fun a b => str_leb a.1 b.1) items else items)
  | _ => v
  end.

(** Fuel for a value's text. *)
Fixpoint vsize (v : pyval) : nat :=
  match v with
  | VList l => S (sum_list (map (fun x => S (vsize x)) l))
  | VDict d => S (sum_list (map (fun kv => S (vsize kv.2)) d))
  | _ => 1%nat
  end.

Definition unsorted (style : layout) : layout :=
  Layout (item_sep style) (key_sep style) false (indent style).

Lemma map_sort_by {A B} (g : A -> B) le le' l : (forall a b, le' (g a) (g b) = le a b) ->
  sort_by le' (map g l) = map g (sort_by le l).
Proof.
  intros H. unfold sort_by. induction l as [|x l IH]; simpl; [done|]. rewrite IH. clear IH.
  induction (foldr _ _ l) as [|y r IHr]; simpl; [done|]. rewrite H.
  destruct (le x y); simpl; [done|]. by rewrite IHr.
Qed.

Lemma sort_by_perm {A} le (l : list A) : sort_by le l ≡ₚ l.
Proof.
  unfold sort_by. induction l as [|x l IH]; simpl; [done|]. etrans; [|apply Permutation_skip, IH]. clear IH.
  induction (foldr _ _ l) as [|y r IHr]; simpl; [done|]. destruct (le x y); [done|].
  rewrite IHr. apply Permutation.perm_swap.
Qed.

Section trip.
Context (float_repr : pyfloat -> pystr) (style : layout).

Lemma dumps_canon v : forall lvl,
  dumps_at float_repr style lvl v = dumps_at float_repr (unsorted style) lvl (canon style v).
Proof.
  assert (forall lvl o c l, bracket style lvl o c l = bracket (unsorted style) lvl o c l) as Hb by done.
  induction v as [| | | | |l IH|d IH] using pyval_ind'; intros lvl; try done.
  - simpl. rewrite <-Hb, map_map. f_equal. apply map_ext_in. intros x Hx.
    rewrite list.Forall_forall in IH. by apply IH, list_elem_of_In.
  - simpl. rewrite <-Hb. f_equal.
    assert (map (fun kv => (kv.1, dumps_at float_repr style (S lvl) kv.2)) d =
            map (fun kv => (kv.1, dumps_at float_repr (unsorted style) (S lvl) kv.2))
              (map (fun kv : pystr * pyval => (kv.1, canon style kv.2)) d)) as ->.
    { rewrite map_map. apply map_ext_in. intros kv Hx. rewrite list.Forall_forall in IH. simpl.
      f_equal. by apply IH, list_elem_of_In. }
    destruct (sort_keys style); [|by rewrite !map_map].
    by rewrite (map_sort_by _ (fun a b : pystr * pyval => str_leb a.1 b.1)).
Qed.

Lemma jsonable_canon v : jsonable v = true -> jsonable (canon style v) = true.
Proof.
  induction v as [| | | | |l IH|d IH] using pyval_ind'; try done.
  - simpl. rewrite !forallb_elem. intros H x Hx. apply list_elem_of_fmap in Hx as (y & -> & Hy).
    rewrite list.Forall_forall in IH. auto.
  - simpl. rewrite !andb_true_iff, !bool_decide_eq_true, !forallb_elem. intros [Hnd H].
    set (items := map _ d).
    assert (map fst items = map fst d) as Hk by (unfold items; by rewrite map_map).
    assert (forall kv, kv ∈ items -> text_ok kv.1 && jsonable kv.2 = true) as Hi.
    { intros kv Hx. apply list_elem_of_fmap in Hx as (y & -> & Hy). simpl.
      pose proof (H _ Hy) as Hyy. bool_prop. rewrite list.Forall_forall in IH.
      rewrite andb_true_iff. auto. }
    destruct (sort_keys style); [|by rewrite Hk].
    pose proof (sort_by_perm (fun a b => str_leb a.1 b.1) items) as Hp. split.
    + rewrite (Permutation_map fst Hp). by rewrite Hk.
    + intros kv. rewrite Hp. apply Hi.
Qed.
End trip.

Section scan.
Context (float_repr : pyfloat -> pystr) (style : layout).
Context (hook : dict -> res dict) (parse_constant : pyfloat -> res pyval).
Context (style_ok : layout_ok style = true) (style_unsorted : sort_keys style = false).
Context (hook_id : forall d, NoDup (map fst d) -> hook d = Ok d).

Abbreviation value := (scan_value hook parse_constant).
Abbreviation members := (scan_members hook parse_constant).
Abbreviation elements := (scan_elements hook parse_constant).
Abbreviation text := (dumps_at float_repr style).

Lemma separators : exists w x, item_sep style = 44 :: w /\ all_ws w = true /\
  key_sep style = 58 :: x /\ all_ws x = true.
Proof.
  unfold layout_ok in style_ok. destruct (item_sep style) as [|c w], (key_sep style) as [|k x]; try done.
  bool_prop. subst. eauto 10.
Qed.

(** A value's text begins with neither white space nor a closing bracket. *)
Definition opens (s : pystr) : Prop := exists c t, s = c :: t /\ is_ws c = false /\ c <> 93 /\ c <> 125.

Lemma text_opens lvl v : jsonable v = true -> opens (text lvl v).
Proof.
  unfold opens. destruct v as [|[]|z| |s|l|d]; intros Hj; try done; try (do 2 eexists; split; [done|]; done).
  - simpl. unfold int_repr. case_match; [do 2 eexists; split; [done|]; done|]. bool_prop.
    destruct (nat_repr_spec z ltac:(done)) as (_ & Hd & c & t & Ht & _).
    rewrite Ht in *. apply Forall_cons_iff in Hd as [Hc _]. exists c, t. split; [done|].
    unfold is_ascii_digit, in_range, is_ws in *. lia.
  - simpl. unfold bracket. destruct (map _ l); (do 2 eexists; split; [done|]; done).
  - simpl. unfold bracket. case_match; (do 2 eexists; split; [done|]; done).
Qed.

Definition reads (v : pyval) : Prop := forall lvl fuel rest,
  (vsize v <= fuel)%nat -> stops rest = true -> value fuel (text lvl v ++ rest) = Ok (v, rest).

Definition sep (lvl : nat) : pystr := item_sep style ++ newline style lvl.

Lemma join_sep_cons s x y l : join_sep s (x :: y :: l) = x ++ s ++ join_sep s (y :: l).
Proof. done. Qed.

Lemma opens_app a b : opens a -> opens (a ++ b).
Proof. intros (c & t & -> & H). exists c, (t ++ b). done. Qed.

Lemma skip_ws_opens s : opens s -> skip_ws s = s.
Proof. intros (c & t & -> & H & _). by apply skip_ws_first. Qed.

Lemma elements_read lvl close l fuel rest :
  l <> [] -> all_ws close = true -> Forall reads l -> forallb jsonable l = true ->
  (sum_list (map (fun x => S (vsize x)) l) <= fuel)%nat ->
  elements fuel (join_sep (sep lvl) (map (text lvl) l) ++ close ++ 93 :: rest) = Ok (l, rest).
Proof.
  intros Hne Hcl Hr Hj. revert fuel. induction l as [|x l IH]; intros fuel Hf; [done|].
  destruct fuel as [|fuel]; [simpl in Hf; lia|].
  inversion Hr as [|? ? Hx Hl]; subst. simpl in Hj, Hf. bool_prop.
  destruct l as [|y l].
  - cbn [map join_sep scan_elements]. rewrite Hx by (try lia; by apply stops_ws).
    cbn [fst snd]. rewrite skip_ws_app by done. by rewrite skip_ws_first.
  - cbn [map]. rewrite join_sep_cons. destruct separators as (w & k & Hs & Hw & _).
    unfold sep at 1. rewrite Hs, <-!app_assoc. cbn [scan_elements app].
    rewrite Hx by (done || lia). cbn [fst snd]. rewrite skip_ws_first by done. cbn [Z.eqb Pos.eqb].
    rewrite skip_ws_app by done. rewrite skip_ws_app by apply newline_ws.
    rewrite skip_ws_opens.
    + cbn [map] in IH. rewrite IH by (done || (simpl in Hf |- *; lia)). done.
    + apply opens_app. simpl in H0. bool_prop.
      pose proof (text_opens lvl y ltac:(done)) as Hy. destruct l; [done|].
      cbn [map]. rewrite join_sep_cons. by apply opens_app.
Qed.

Definition member (lvl : nat) (kv : pystr * pyval) : pystr := dumps_string kv.1 ++ key_sep style ++ text lvl kv.2.

Lemma member_opens lvl kv : opens (member lvl kv).
Proof. exists 34. eexists. split; [done|]. done. Qed.

(** One member up to its value. *)
Lemma member_read lvl kv fuel rest :
  text_ok kv.1 = true -> jsonable kv.2 = true -> reads kv.2 -> (vsize kv.2 <= fuel)%nat -> stops rest = true ->
  members (S fuel) (member lvl kv ++ rest) =
  match skip_ws rest with
  | c :: t => if c =? 125 then Ok ([kv], t)
              else if c =? 44 then let! r := members fuel (skip_ws t) in Ok (kv :: r.1, r.2)
              else bad_json
  | [] => bad_json
  end.
Proof.
  intros Ht Hj Hr Hf Hs. unfold member, dumps_string. destruct separators as (w & x & _ & _ & Hk & Hx).
  rewrite Hk, <-!app_assoc. cbn [app scan_members Z.eqb Pos.eqb negb].
  rewrite scan_string_dumps by done. cbn [fst snd]. rewrite skip_ws_first by done. cbn [Z.eqb Pos.eqb negb].
  rewrite skip_ws_app by done. rewrite skip_ws_opens by (by apply opens_app, text_opens).
  rewrite Hr by done. by destruct kv.
Qed.

Lemma members_read lvl close d fuel rest :
  d <> [] -> all_ws close = true -> Forall (fun kv => reads kv.2) d ->
  forallb (fun kv => text_ok kv.1 && jsonable kv.2) d = true ->
  (sum_list (map (fun kv => S (vsize kv.2)) d) <= fuel)%nat ->
  members fuel (join_sep (sep lvl) (map (member lvl) d) ++ close ++ 125 :: rest) = Ok (d, rest).
Proof.
  intros Hne Hcl Hr Hj. revert fuel. induction d as [|x d IH]; intros fuel Hf; [done|].
  destruct fuel as [|fuel]; [simpl in Hf; lia|].
  inversion Hr as [|? ? Hx Hl]; subst. simpl in Hj, Hf. bool_prop. destruct d as [|y d].
  - cbn [map join_sep]. rewrite member_read by (try done; try lia; by apply stops_ws).
    rewrite skip_ws_app by done. by rewrite skip_ws_first.
  - cbn [map]. rewrite join_sep_cons. destruct separators as (w & k & Hs & Hw & _).
    unfold sep at 1. rewrite Hs, <-!app_assoc. rewrite member_read by (done || lia).
    cbn [app]. rewrite skip_ws_first by done. cbn [Z.eqb Pos.eqb].
    rewrite skip_ws_app by done. rewrite skip_ws_app by apply newline_ws.
    rewrite skip_ws_opens.
    + cbn [map] in IH. rewrite IH by (done || (simpl in Hf |- *; lia)). done.
    + apply opens_app. pose proof (member_opens lvl y) as Hy. destruct d; [done|].
      cbn [map]. rewrite join_sep_cons. by apply opens_app.
Qed.

Lemma value_list fuel t : value (S fuel) (91 :: t) =
  match skip_ws t with
  | x :: r => if x =? 93 then Ok (VList [], r)
              else let! p := elements fuel (x :: r) in Ok (VList p.1, p.2)
  | [] => bad_json
  end.
Proof. done. Qed.

Lemma value_dict fuel t : value (S fuel) (123 :: t) =
  match skip_ws t with
  | x :: r => if x =? 125 then let! d := hook [] in Ok (VDict d, r)
              else let! p := members fuel (x :: r) in let! d := hook p.1 in Ok (VDict d, p.2)
  | [] => bad_json
  end.
Proof. done. Qed.

Lemma value_read v : jsonable v = true -> reads v.
Proof.
  induction v as [|b|z|f|s|l IH|d IH] using pyval_ind'; intros Hj lvl fuel rest Hf Hs;
    (destruct fuel as [|fuel]; [simpl in Hf; lia|]).
  - cbn. unfold scan_atom. by rewrite (strip_prefix_app "null").
  - destruct b; cbn; unfold scan_atom; [|].
    + rewrite strip_prefix_none by (cbn; intros r [=]). by rewrite (strip_prefix_app "true").
    + rewrite 2!strip_prefix_none by (cbn; intros r [=]). by rewrite (strip_prefix_app "false").
  - simpl in Hj. bool_prop. pose proof (scan_atom_int parse_constant z rest Hj Hs) as Ha.
    assert (exists c t, int_repr z = c :: t /\ c <> 34 /\ c <> 123 /\ c <> 91) as (c & t & Ht & Hc).
    { unfold int_repr. destruct (z <? 0) eqn:E; bool_prop; [by exists 45; eexists|].
      destruct (nat_repr_spec z E) as (_ & Hd & c & t & Ht & _). rewrite Ht in *.
      apply Forall_cons_iff in Hd as [Hc _]. unfold is_ascii_digit, in_range in Hc. exists c, t.
      split; [done|lia]. }
    cbn [dumps_at]. rewrite Ht in *. cbn [app scan_value] in *.
    rewrite !(proj2 (Z.eqb_neq _ _)) by lia. done.
  - done.
  - simpl in Hj. cbn [dumps_at]. unfold dumps_string. rewrite <-!app_assoc. cbn [app scan_value Z.eqb Pos.eqb].
    by rewrite scan_string_dumps.
  - simpl in Hj, Hf. cbn [dumps_at]. unfold bracket. destruct l as [|x l]; [done|].
    assert (forallb jsonable (x :: l) = true) as Hj' by done.
    assert (Forall reads (x :: l)) as Hr.
    { rewrite forallb_elem in Hj'. rewrite list.Forall_forall in IH |- *. auto. }
    cbn [map]. rewrite <-!app_assoc. change (str "[" ++ ?r) with (91 :: r). rewrite value_list, skip_ws_app by apply newline_ws. change (text ?n x :: map _ l) with (map (text n) (x :: l)).
    fold (sep (S lvl)). change (str "]" ++ rest) with (93 :: rest).
    pose proof (elements_read (S lvl) (newline style lvl) (x :: l) fuel rest) as He.
    assert (opens (join_sep (sep (S lvl)) (map (text (S lvl)) (x :: l)))) as Ho.
    { simpl in Hj'. bool_prop. pose proof (text_opens (S lvl) x ltac:(done)). destruct l; [done|].
      cbn [map]. rewrite join_sep_cons. by apply opens_app. }
    rewrite skip_ws_opens by (by apply opens_app).
    destruct Ho as (c & t & Ht & _ & Hc & _). rewrite Ht in *. cbn [app] in *.
    rewrite (proj2 (Z.eqb_neq c 93)) by lia.
    rewrite He; [done|done|apply newline_ws|done|done|by apply le_S_n].
  - simpl in Hj, Hf. bool_prop. cbn [dumps_at]. rewrite style_unsorted, map_map. unfold bracket. cbn [fst snd].
    destruct d as [|x d]; [cbn; by rewrite hook_id|].
    assert (Forall (fun kv : pystr * pyval => reads kv.2) (x :: d)) as Hr.
    { rewrite forallb_elem in H0. rewrite list.Forall_forall in IH |- *. intros kv Hk.
      apply IH; [done|]. apply H0 in Hk. by bool_prop. }
    cbn [map]. rewrite <-!app_assoc. change (str "{" ++ ?r) with (123 :: r). rewrite value_dict, skip_ws_app by apply newline_ws.
    change (_ :: map _ d) with (map (member (S lvl)) (x :: d)).
    fold (sep (S lvl)). change (str "}" ++ rest) with (125 :: rest).
    pose proof (members_read (S lvl) (newline style lvl) (x :: d) fuel rest) as He.
    assert (opens (join_sep (sep (S lvl)) (map (member (S lvl)) (x :: d)))) as Ho.
    { pose proof (member_opens (S lvl) x). destruct d; [done|].
      cbn [map]. rewrite join_sep_cons. by apply opens_app. }
    rewrite skip_ws_opens by (by apply opens_app).
    destruct Ho as (c & t & Ht & _ & _ & Hc). rewrite Ht in *. cbn [app] in *.
    rewrite (proj2 (Z.eqb_neq c 125)) by lia.
    rewrite He; [cbn [fst snd]; by rewrite hook_id|done|apply newline_ws|done|done|by apply le_S_n].
Qed.

End scan.

(** The fuel [loads] gives is at least what a dump needs. *)
Lemma vsize_text float_repr style v : sort_keys style = false -> jsonable v = true -> forall lvl,
  (vsize v + 1 <= 2 * length (dumps_at float_repr style lvl v))%nat.
Proof.
  intros Hs. assert (forall sep l, sum_list (map length l) <= length (join_sep sep l))%nat as Hj.
  { intros sep. induction l as [|x [|y l] IH]; [done|simpl; lia|].
    rewrite join_sep_cons, !length_app. simpl in *. lia. }
  assert (forall lvl o c l, length (str o) = 1%nat -> length (str c) = 1%nat ->
    2 + sum_list (map length l) <= length (bracket style lvl o c l))%nat as Hb.
  { intros lvl o c l Ho Hc. unfold bracket. destruct l; rewrite !length_app, Ho, Hc; [simpl; lia|].
    match goal with |- context [join_sep ?s ?l] => pose proof (Hj s l) end. lia. }
  induction v as [|b|z|f|s|l IH|d IH] using pyval_ind'; intros Hv lvl; try done.
  - simpl. unfold str. simpl. lia.
  - destruct b; simpl; unfold str; simpl; lia.
  - destruct (text_opens float_repr style lvl (VInt z) Hv) as (c & t & -> & _). simpl. lia.
  - simpl. unfold dumps_string. rewrite !length_app. simpl. lia.
  - cbn [vsize dumps_at]. match goal with |- context [bracket _ _ _ _ ?l] =>
      pose proof (Hb lvl "[" "]" l eq_refl eq_refl) as Hl end. rewrite map_map in Hl. simpl in Hv.
    enough (sum_list (map (fun x => S (vsize x)) l) <=
      2 * sum_list (map (fun x => length (dumps_at float_repr style (S lvl) x)) l))%nat by lia.
    clear Hl. induction IH as [|x l Hx _ IHl]; [done|]. simpl in *. bool_prop.
    pose proof (Hx ltac:(done) (S lvl)). specialize (IHl ltac:(done)). lia.
  - cbn [vsize dumps_at]. match goal with |- context [bracket _ _ _ _ ?l] =>
      pose proof (Hb lvl "{" "}" l eq_refl eq_refl) as Hl end. rewrite Hs, !map_map in *.
    simpl in Hv. bool_prop.
    enough (sum_list (map (fun kv : pystr * pyval => S (vsize kv.2)) d) <=
      2 * sum_list (map (fun kv : pystr * pyval => length (dumps_string kv.1 ++ key_sep style ++
        dumps_at float_repr style (S lvl) kv.2)) d))%nat by (cbn [fst snd] in *; lia).
    clear H Hl. induction IH as [|x d Hx _ IHl]; [done|]. simpl in *. bool_prop.
    pose proof (Hx ltac:(done) (S lvl)). specialize (IHl ltac:(done)). rewrite !length_app. lia.
Qed.

(** The round trip, with text around the value as [loads] allows it. *)
Lemma loads_dumps float_repr style hook parse_constant v tail :
  layout_ok style = true -> (forall d, NoDup (map fst d) -> hook d = Ok d) ->
  jsonable v = true -> all_ws tail = true ->
  loads hook parse_constant (dumps float_repr style v ++ tail) = Ok (canon style v).
Proof.
  intros Hl Hh Hj Ht. unfold dumps. rewrite dumps_canon.
  pose proof (jsonable_canon style v Hj) as Hj'. set (w := canon style v) in *.
  set (s := dumps_at float_repr (unsorted style) 0 w).
  assert (layout_ok (unsorted style) = true) as Hl' by done.
  pose proof (text_opens float_repr (unsorted style) 0 w Hj') as Ho. fold s in Ho.
  assert (opens (s ++ tail)) as Hot by by apply opens_app.
  unfold loads. replace (startswith (s ++ tail) [0xFEFF]) with false.
  - rewrite skip_ws_opens by done. unfold s at 2.
    rewrite (value_read float_repr (unsorted style)); try done.
    + cbn [fst snd]. rewrite <-(app_nil_r tail), skip_ws_app by done. done.
    + pose proof (vsize_text float_repr (unsorted style) w eq_refl Hj' 0). fold s in H.
      rewrite length_app. lia.
    + destruct tail as [|c t]; [done|]. simpl in *. bool_prop. unfold is_ws, is_ascii_digit, in_range in *. lia.
  - (* a dump begins with an ASCII character *)
    symmetry. apply startswith_not_prefix. intros [r Hr].
    assert (forall c t, dumps_at float_repr (unsorted style) 0 w = c :: t -> c < 128) as Hc.
    { intros c t. destruct w as [|[]|z|f|x|l|d]; try (by intros [= <- _]); try done.
      - simpl. unfold int_repr. case_match; [by intros [= <- _]|]. bool_prop.
        destruct (nat_repr_spec z ltac:(done)) as (_ & Hd & c' & t' & Ht' & _). rewrite Ht' in *.
        intros [= -> _]. apply Forall_cons_iff in Hd as [Hc _]. unfold is_ascii_digit, in_range in Hc. lia.
      - simpl. unfold bracket. case_match; by intros [= <- _].
      - simpl. unfold bracket. case_match; by intros [= <- _]. }
    destruct Ho as (c & t & Hs & _). fold s in Hc. rewrite Hs in Hr. simplify_eq/=. by specialize (Hc _ _ Hs).
Qed.

(** ** Dumps as bytes *)

(** ASCII text without control characters below the tabulation. *)
Definition printable (s : pystr) : Prop := Forall (fun c => 9 <= c < 128) s.

Lemma printable_str t : forallb (in_range 9 127) (str t) = true -> printable (str t).
Proof.
  unfold printable. generalize (str t). intros l H. rewrite forallb_elem in H.
  apply list.Forall_forall. intros c Hc%H. unfold in_range in Hc. lia.
Qed.

Lemma printable_app a b : printable a -> printable b -> printable (a ++ b).
Proof. apply Forall_app_2. Qed.

Lemma hex_digit_printable d : 0 <= d < 16 -> 9 <= hex_digit d < 128.
Proof. intros H. unfold hex_digit. case_match; lia. Qed.

Lemma escape_char_printable c : code_point c = true -> printable (escape_char c).
Proof.
  assert (forall u, 0 <= u < 65536 -> printable (str "\u" ++ hex4_of u)) as Hu.
  { intros u Hu. apply printable_app; [by apply printable_str|].
    repeat apply list.Forall_cons_2; try constructor; apply hex_digit_printable;
      Z.to_euclidean_division_equations; lia. }
  unfold code_point, in_range. intros H. bool_prop. unfold escape_char.
  destruct (c =? 34); [by repeat constructor|].
  repeat match goal with |- context [c =? ?k] => destruct (c =? k); [by apply printable_str|] end.
  unfold in_range. destruct (_ && _) eqn:E; bool_prop; [constructor; [lia|constructor]|].
  destruct (c <? 65536) eqn:E2; bool_prop; [apply Hu; lia|]. cbv zeta.
  rewrite app_assoc. apply printable_app; apply Hu; Z.to_euclidean_division_equations; lia.
Qed.

Lemma dumps_string_printable s : text_ok s = true -> printable (dumps_string s).
Proof.
  unfold text_ok, dumps_string. rewrite andb_true_iff. intros [H _].
  apply printable_app; [by repeat constructor|]. apply printable_app; [|by repeat constructor].
  induction s as [|c s IH]; [constructor|]. simpl in *. bool_prop.
  apply printable_app; [by apply escape_char_printable|auto].
Qed.

Lemma join_sep_printable sep l : printable sep -> Forall printable l -> printable (join_sep sep l).
Proof.
  intros Hs. induction 1 as [|x l Hx Hl IH]; [constructor|]. destruct l; [done|].
  rewrite join_sep_cons. by repeat apply printable_app.
Qed.

Lemma all_ws_printable w : all_ws w = true -> printable w.
Proof.
  unfold all_ws. rewrite forallb_elem. intros H. apply list.Forall_forall. intros c Hc%H.
  unfold is_ws in Hc. lia.
Qed.

Lemma dumps_printable float_repr style v : sort_keys style = false -> layout_ok style = true ->
  jsonable v = true -> forall lvl, printable (dumps_at float_repr style lvl v).
Proof.
  intros Hu Hl. destruct (separators style Hl) as (w & x & Hi & Hw & Hk & Hx).
  assert (forall lvl o c l, printable (str o) -> printable (str c) -> Forall printable l ->
    printable (bracket style lvl o c l)) as Hb.
  { intros lvl o c l Ho Hc H. pose proof (all_ws_printable _ (newline_ws style lvl)).
    pose proof (all_ws_printable _ (newline_ws style (S lvl))).
    unfold bracket. destruct l; repeat apply printable_app; try done.
    apply join_sep_printable; [|done]. rewrite Hi. apply printable_app; [|done].
    constructor; [lia|by apply all_ws_printable]. }
  induction v as [|b|z|f|s|l IH|d IH] using pyval_ind'; intros Hj lvl; simpl in Hj; try done.
  - by apply printable_str.
  - destruct b; by apply printable_str.
  - simpl. assert (forall n, 0 <= n -> printable (nat_repr n)) as Hn.
    { intros n Hn. destruct (nat_repr_spec n Hn) as (_ & Hd & _). eapply list.Forall_impl; [done|].
      intros c Hc. simpl in Hc. unfold is_ascii_digit, in_range in Hc. lia. }
    unfold int_repr. case_match; bool_prop; [constructor; [lia|]|]; apply Hn; lia.
  - by apply dumps_string_printable.
  - simpl. apply Hb; [by apply printable_str..|]. rewrite forallb_elem in Hj.
    rewrite list.Forall_forall in IH. apply list.Forall_forall. intros t Ht. apply list_elem_of_fmap in Ht as (y & -> & Hy). auto.
  - simpl. rewrite Hu, map_map. bool_prop. apply Hb; [by apply printable_str..|].
    rewrite forallb_elem in H0. rewrite list.Forall_forall in IH. apply list.Forall_forall.
    intros t Ht. apply list_elem_of_fmap in Ht as (y & -> & Hy). pose proof (H0 y Hy). bool_prop. cbn [fst snd].
    eapply (printable_app (dumps_string y.1)); [by apply dumps_string_printable|]. rewrite Hk.
    apply (printable_app (58 :: x)).
    + constructor; [lia|by apply all_ws_printable].
    + by apply IH.
Qed.

Lemma decode_json_printable s : printable s -> decode_json (ascii_bytes s) = Ok s.
Proof.
  intros Hp. pose proof Hp as H8. eapply list.Forall_impl in H8; [apply utf8_decode_ascii with (m := SurrogatePass) in H8|simpl; lia].
  assert (forall i b, nth_error (ascii_bytes s) i = Some b -> b2z b <> 0 /\ b2z b < 128) as Hb.
  { intros i b Hn%nth_error_In. apply in_map_iff in Hn as (c & <- & Hc%list_elem_of_In).
    unfold printable in Hp. rewrite list.Forall_forall in Hp. apply Hp in Hc. rewrite b2z_z2b; lia. }
  assert (forall i, match nth_error (ascii_bytes s) i with Some x => byte_eqb x Byte.x00 | None => false end = false) as H0.
  { intros i. destruct (nth_error _ i) as [b|] eqn:E; [|done]. apply Hb in E as [E _].
    apply bool_decide_eq_false. intros ->. by destruct E. }
  assert (forall b l, startswith (ascii_bytes s) (b :: l) = true -> b2z b <> 0 /\ b2z b < 128) as Hs.
  { intros b l [r Hr]%startswith_prefix. apply (Hb O). by rewrite Hr. }
  unfold decode_json. cbv zeta. rewrite !H0.
  assert (forall b l, (b2z b =? 0) || (128 <=? b2z b) = true -> startswith (ascii_bytes s) (b :: l) = false) as Hn.
  { intros b l Hv. apply not_true_iff_false. intros [? ?]%Hs. lia. }
  rewrite !Hn by done. rewrite H8. by destruct (4 <=? zlen (ascii_bytes s)), (zlen (ascii_bytes s) =? 2).
Qed.

(** The round trip through bytes. *)
Lemma loads_bytes_dumps float_repr style hook parse_constant v tail :
  layout_ok style = true -> (forall d, NoDup (map fst d) -> hook d = Ok d) ->
  jsonable v = true -> all_ws tail = true ->
  loads_bytes hook parse_constant (ascii_bytes (dumps float_repr style v ++ tail)) = Ok (canon style v).
Proof.
  intros Hl Hh Hj Ht. unfold loads_bytes. rewrite decode_json_printable.
  - by apply loads_dumps.
  - apply printable_app; [|by apply all_ws_printable]. unfold dumps. rewrite dumps_canon.
    apply dumps_printable; [done|done|by apply jsonable_canon].
Qed.

(** ** What is encodable *)

Lemma digits_rev_length fuel n : (length (digits_rev fuel n) <= fuel)%nat.
Proof. revert n; induction fuel as [|fuel IH]; intros n; simpl; [done|]. case_match; simpl; [lia|]. specialize (IH (n / 10)). lia. Qed.

Lemma int_jsonable z : Z.abs z < 2 ^ 4000 -> jsonable (VInt z) = true.
Proof.
  intros H. simpl. apply Z.leb_le. unfold nat_repr, zlen, INT_MAX_STR_DIGITS. rewrite length_rev.
  pose proof (digits_rev_length (S (Z.to_nat (Z.log2 (Z.abs z)))) (Z.abs z)) as Hl.
  assert (Z.log2 (Z.abs z) <= 4000); [|lia].
  destruct (Z.eq_dec (Z.abs z) 0) as [->|]; [done|]. pose proof (Z.abs_nonneg z).
  apply Z.lt_le_incl, Z.log2_lt_pow2; lia.
Qed.

(** Text without a high surrogate. *)
Lemma text_ok_no_high s : Forall (fun c => code_point c = true /\ is_high c = false) s -> text_ok s = true.
Proof.
  intros H. unfold text_ok. apply andb_true_iff. induction H as [|c s [Hc Hh] _ [IH1 IH2]]; [done|].
  simpl. by rewrite Hc, Hh, IH1, IH2.
Qed.

Lemma ascii_text_ok s : Forall (fun c => 0 <= c < 128) s -> text_ok s = true.
Proof.
  intros H. apply text_ok_no_high. eapply list.Forall_impl; [done|]. intros c Hc.
  unfold code_point, is_high, in_range. simpl in Hc. lia.
Qed.

(** A name the operating system gave never has one: its undecodable bytes are low
    surrogates. *)
Lemma fsdecode_text_ok raw s : fsdecode raw = Ok s -> text_ok s = true.
Proof.
  intros H. apply text_ok_no_high. revert s H. unfold fsdecode.
  remember (length raw) as n eqn:Hn. revert raw Hn. induction n as [n IH] using lt_wf_ind. intros raw -> s H.
  destruct raw as [|b0 t0]; [injection H as <-; constructor|]. cbn [utf8_decode] in H. pose proof (b2z_range b0) as Hb0.
  assert (forall t c, (length t < S (length t0))%nat -> code_point c = true -> is_high c = false ->
    (let! r := utf8_decode SurrogateEscape t in Ok (c :: r)) = Ok s ->
    Forall (fun c => code_point c = true /\ is_high c = false) s) as Hcons.
  { intros t c Ht Hc Hh Hr. inv_ok. constructor; [done|]. by eapply IH. }
  assert (128 <= b2z b0 -> (let! c := bad_byte SurrogateEscape (b2z b0) in
    let! r := utf8_decode SurrogateEscape t0 in Ok (c :: r)) = Ok s ->
    Forall (fun c => code_point c = true /\ is_high c = false) s) as Hbad.
  { intros Hge. simpl bad_byte. cbv iota. apply Hcons; [lia|..]; unfold code_point, is_high, in_range; lia. }
  destruct (b2z b0 <? 128) eqn:E1; bool_prop;
    [eapply Hcons; [| | |exact H]; [lia|unfold code_point, in_range; lia|unfold is_high, in_range; lia]|].
  specialize (Hbad E1).
  destruct (in_range 194 223 (b2z b0)) eqn:E2.
  { destruct t0 as [|b1 t1]; [auto|]. destruct (continuation (b2z b1)) eqn:C1; [|auto]. byte_arith.
    eapply Hcons; [| | |exact H]; [simpl; lia|unfold code_point, in_range; lia|unfold is_high, in_range; lia]. }
  destruct (in_range 224 239 (b2z b0)) eqn:E3.
  { destruct t0 as [|b1 [|b2 t2]]; [auto|auto|]. destruct (_ && _) eqn:C1; [|auto]. byte_arith.
    match goal with Hs : in_range 55296 57343 _ = false |- _ => unfold in_range in Hs end.
    eapply Hcons; [| | |exact H]; [simpl; lia|unfold code_point, in_range; lia|unfold is_high, in_range; lia]. }
  destruct (in_range 240 244 (b2z b0)) eqn:E4; [|auto].
  destruct t0 as [|b1 [|b2 [|b3 t3]]]; [auto|auto|auto|]. destruct (_ && _) eqn:C1; [|auto]. byte_arith.
  eapply Hcons; [| | |exact H]; [simpl; lia|unfold code_point, in_range; lia|unfold is_high, in_range; lia].
Qed.

Lemma hex_of_ascii l : Forall (fun c => 0 <= c < 128) (hex_of l).
Proof.
  unfold hex_of. induction l as [|b l IH]; simpl; [constructor|].
  pose proof (b2z_range b) as Hb.
  pose proof (hex_digit_range (b2z b / 16) ltac:(Z.to_euclidean_division_equations; lia)).
  pose proof (hex_digit_range (b2z b mod 16) ltac:(Z.to_euclidean_division_equations; lia)).
  constructor; [lia|]. constructor; [lia|done].
Qed.

Lemma hex_of_text_ok l : text_ok (hex_of l) = true.
Proof. apply ascii_text_ok, hex_of_ascii. Qed.

(** ** A decoded dump equals what was dumped *)

Lemma py_same_dict d e : py_same (VDict d) (VDict e) =
  (length d =? length e)%nat &&
  forallb (fun kv => match dget kv.1 e with Some y => py_same kv.2 y | None => false end) d.
Proof. simpl. f_equal. induction d as [|[k x] d IH]; simpl; [done|]. by rewrite IH. Qed.

Lemma py_same_list l m : length l = length m -> Forall2 (fun x y => py_same x y = true) l m ->
  py_same (VList l) (VList m) = true.
Proof. intros _. simpl. induction 1 as [|x y l m Hx _ IH]; [done|]. by rewrite Hx, IH. Qed.

Lemma py_same_canon style v : jsonable v = true -> py_same (canon style v) v = true.
Proof.
  induction v as [|b|z|f|s|l IH|d IH] using pyval_ind'; intros Hj; try done.
  - by destruct b.
  - cbn [canon]. rewrite py_same_int. lia.
  - cbn. by apply str_eqb_eq.
  - cbn [canon]. apply py_same_list; [by rewrite length_map|]. cbn [jsonable] in Hj. rewrite forallb_elem in Hj.
    rewrite list.Forall_forall in IH. clear -IH Hj. induction l as [|x l IHl]; simpl; constructor.
    + apply IH; [left|]. apply Hj. left.
    + apply IHl; intros y Hy; [apply IH|apply Hj]; by right.
  - cbn [canon jsonable] in *. bool_prop. rewrite forallb_elem in H0. rewrite list.Forall_forall in IH.
    set (items := map (fun kv : pystr * pyval => (kv.1, canon style kv.2)) d).
    set (out := if sort_keys style then _ else items).
    assert (out ≡ₚ items) as Hp by (unfold out; destruct (sort_keys style); [apply sort_by_perm|done]).
    rewrite py_same_dict. apply andb_true_iff. split.
    + apply Nat.eqb_eq. rewrite Hp. unfold items. by rewrite length_map.
    + apply forallb_elem. intros [k y] Hy. rewrite Hp in Hy. unfold items in Hy.
      apply list_elem_of_fmap in Hy as ([k' x] & [= -> ->] & Hx). simpl.
      assert (dget k' d = Some x) as ->.
      { clear -H Hx. induction d as [|[j w] d IHd]; [set_solver|]. simpl in *. apply list.NoDup_cons in H as [Hj Hn].
        apply elem_of_cons in Hx as [[= -> ->]|Hx]; [by rewrite (proj2 (str_eqb_eq j j) eq_refl)|].
        destruct (k' =s j) eqn:E; [|by apply IHd]. apply str_eqb_eq in E as ->. destruct Hj. apply list_elem_of_fmap. by exists (j, x). }
      specialize (IH (k', x) Hx). simpl in IH. apply IH. specialize (H0 (k', x) Hx). bool_prop. done.
Qed.

(** The round trip of a text file. *)
Lemma utf8_dumps float_repr style v tail : layout_ok style = true -> jsonable v = true -> all_ws tail = true ->
  utf8_decode Strict (ascii_bytes (dumps float_repr style v ++ tail)) = Ok (dumps float_repr style v ++ tail).
Proof.
  intros Hl Hj Ht.
  assert (printable (dumps float_repr style v ++ tail)) as Hp.
  { apply printable_app; [|by apply all_ws_printable]. unfold dumps. rewrite dumps_canon.
    apply dumps_printable; [done|done|by apply jsonable_canon]. }
  apply utf8_decode_ascii. eapply list.Forall_impl; [exact Hp|simpl; lia].
Qed.

Lemma loads_utf8_dumps float_repr style hook parse_constant v tail text :
  layout_ok style = true -> (forall d, NoDup (map fst d) -> hook d = Ok d) ->
  jsonable v = true -> all_ws tail = true ->
  utf8_decode Strict (ascii_bytes (dumps float_repr style v ++ tail)) = Ok text ->
  loads hook parse_constant text = Ok (canon style v).
Proof. intros Hl Hh Hj Ht. rewrite utf8_dumps by done. intros [= <-]. by apply loads_dumps. Qed.
