(* ===== verification/JsonText.v ===== *)
(** * Decoded text

    A strict UTF-8 decoder yields scalar values only, and a JSON decoder that reads them
    yields strings in which no high surrogate stands before a low one: what the encoder
    writes for such strings decodes to the same strings. *)
From Stdlib Require Import ZArith Lia.
From Stdlib Require Import Init.Byte.
From stdpp Require Import base list sets strings option.
From S2P Require Import Prelude PyStr PyVal Bytes Json JsonTrip.

Open Scope string_scope.
Open Scope list_scope.
Open Scope Z_scope.

(** A code point that is not a surrogate. *)
Definition scalar (c : Z) : bool := code_point c && negb (in_range 0xD800 0xDFFF c).

(** Every string of the value, the keys included. *)
Fixpoint texts (v : pyval) : bool :=
  match v with
  | VStr s => text_ok s
  | VList l => forallb texts l
  | VDict d => forallb (fun kv => text_ok kv.1 && texts kv.2) d
  | _ => true
  end.

Lemma utf8_strict_scalars l s : utf8_decode Strict l = Ok s -> forallb scalar s = true.
Proof.
  remember (length l) as n eqn:Hn. revert l s Hn. induction n as [n IH] using lt_wf_ind. intros l s -> Hd.
  destruct l as [|b l]; [by injection Hd as <-|]. cbn [utf8_decode] in Hd. pose proof (b2z_range b) as Hb.
  assert (forall c t, (length t < S (length l))%nat -> scalar c = true ->
    (let! r := utf8_decode Strict t in Ok (c :: r)) = Ok s -> forallb scalar s = true) as Hgo.
  { intros c t Ht Hc Hr. inv_ok. cbn [forallb]. rewrite Hc. by apply (IH (length t) ltac:(simpl; lia) t a eq_refl). }
  clear IH. unfold scalar, code_point in Hgo.
  repeat match type of Hd with
  | (if ?b then _ else _) = Ok _ => let E := fresh "E" in destruct b eqn:E
  | match ?t with _ => _ end = Ok _ => destruct t; [done|]
  end; try done;
    match type of Hd with (let! r := utf8_decode Strict ?t in Ok (?c :: r)) = _ =>
      apply (Hgo c t); [simpl; lia| |exact Hd] end;
    clear Hd Hgo; unfold continuation, scalar3_ok, scalar4_ok, in_range in *; bool_prop; lia.
Qed.

(** *** What the scanners leave is part of what they were given *)

Lemma skip_ws_forall (P : Z -> bool) s : forallb P s = true -> forallb P (skip_ws s) = true.
Proof. induction s as [|c s IH]; simpl; [done|]. intros Hp. destruct (is_ws c); [|done]. bool_prop. auto. Qed.

Lemma span_digits_forall (P : Z -> bool) s : forallb P s = true -> forallb P (span_digits s).2 = true.
Proof.
  induction s as [|c s IH]; simpl; [done|]. intros Hp. destruct (is_ascii_digit c); [|done]. bool_prop.
  destruct (span_digits s). auto.
Qed.

Lemma scan_string_forall (P : Z -> bool) s p : scan_string s = Ok p -> forallb P s = true -> forallb P p.2 = true.
Proof.
  remember (length s) as n eqn:Hn. revert s p Hn. induction n as [n IH] using lt_wf_ind.
  intros s p -> H Hp. destruct s as [|c s]; [done|].
  assert (forall t q, (length t <= length s)%nat -> scan_string t = Ok q -> forallb P t = true -> forallb P q.2 = true) as Hgo
    by (intros t q Ht Hs; apply (IH (length t) ltac:(simpl; lia) t q eq_refl Hs)). clear IH.
  simpl in H. sc_cases; cbn [forallb] in Hp; cbn [snd]; rewrite ?andb_true_iff in Hp; destruct_and?; try done;
    (eapply Hgo; [|eassumption|]; [simpl; lia|cbn [forallb]; rewrite ?andb_true_iff; split_and?; done]).
Qed.

(** *** Strings *)

Lemma hex4_range a b c d u : hex4 a b c d = Some u -> 0 <= u < 65536.
Proof.
  unfold hex4. intros Hh.
  assert (forall x v, hex_value x = Some v -> 0 <= v < 16) as Hr.
  { intros x v. unfold hex_value, in_range. repeat case_match; intros [= <-]; bool_prop; lia. }
  destruct (hex_value a) eqn:Ha, (hex_value b) eqn:Hb, (hex_value c) eqn:Hc, (hex_value d) eqn:Hd; try done.
  apply Hr in Ha, Hb, Hc, Hd. injection Hh as <-. lia.
Qed.

Lemma escape_value_range e v : escape_value e = Some v -> 0 <= v < 128.
Proof. unfold escape_value. repeat case_match; intros [= <-]; lia. Qed.

(** Only an escaped low surrogate gives one at the head of the value. *)
Lemma scan_string_low s d v r : forallb scalar s = true -> scan_string s = Ok (d :: v, r) -> is_low d = true ->
  exists a b c e t, s = 92 :: 117 :: a :: b :: c :: e :: t /\ hex4 a b c e = Some d.
Proof.
  intros Hs Hd Hlow. destruct s as [|c s]; [done|]. unfold is_low, scalar, code_point, in_range in *. cbn [forallb] in Hs.
  simpl in Hd. sc_cases; unfold is_high, is_low, in_range in *;
    try match goal with E : escape_value _ = Some _ |- _ => apply escape_value_range in E end;
    bool_prop; try lia; subst; by do 5 eexists.
Qed.

Lemma scan_string_text s p : scan_string s = Ok p -> forallb scalar s = true -> text_ok p.1 = true.
Proof.
  remember (length s) as n eqn:Hn. revert s p Hn. induction n as [n IH] using lt_wf_ind.
  intros s p -> H Hp. destruct s as [|c s]; [done|].
  assert (forall x t q, (length t <= length s)%nat -> scan_string t = Ok q -> forallb scalar t = true -> code_point x = true ->
    (is_high x = true -> forall d v, q.1 = d :: v -> is_low d = false) -> text_ok (x :: q.1) = true) as Hgo.
  { intros x t q Ht Hs Hf Hx Hh. specialize (IH (length t) ltac:(simpl; lia) t q eq_refl Hs Hf). unfold text_ok in *.
    cbn [forallb no_pair]. apply andb_true_iff in IH as [H1 H2]. rewrite Hx, H1, H2. simpl. rewrite andb_true_r.
    destruct (is_high x); [|done]. simpl. destruct q.1 as [|d v] eqn:E; [done|]. by rewrite (Hh eq_refl d v). }
  clear IH. simpl in H. sc_cases; cbn [forallb] in Hp; cbn [fst]; rewrite ?andb_true_iff in Hp; destruct_and?; try done;
    (eapply Hgo; [|eassumption|..]; [simpl; lia|cbn [forallb]; rewrite ?andb_true_iff; split_and?; done|..]).
  all: repeat match goal with
       | E : hex4 _ _ _ _ = Some _ |- _ => pose proof (hex4_range _ _ _ _ _ E); revert E
       | E : escape_value _ = Some _ |- _ => apply escape_value_range in E
       end; intros.
  all: try solve [unfold scalar, code_point, is_high, is_low, in_range in *; bool_prop; lia].
  all: try solve [match goal with Hh : is_high _ = true |- _ => exfalso; clear Hgo;
         unfold scalar, code_point, is_high, is_low, in_range in *; bool_prop; lia end].
  all: match goal with |- is_low ?d = false => destruct (is_low d) eqn:Hlow; [exfalso|done] end.
  all: match goal with E : scan_string ?t = Ok ?a, Hv : ?a.1 = ?d :: ?v |- _ =>
         destruct a as [a1 a2]; cbn [fst] in Hv; subst a1;
         destruct (scan_string_low t d v a2 ltac:(cbn [forallb]; rewrite ?andb_true_iff; split_and?; done) E Hlow)
           as (x1 & x2 & x3 & x4 & tt & Ht & Hx) end.
  all: simplify_eq; by rewrite Hlow in *.
Qed.

(** *** Values *)

Section decoder_texts.
Context (hook : dict -> res dict) (parse_constant : pyfloat -> res pyval).
Hypothesis hook_same : forall d d', hook d = Ok d' -> d' = d.
Hypothesis constant_texts : forall f v, parse_constant f = Ok v -> texts v = true.

Lemma scan_number_texts b s p : forallb scalar s = true -> scan_number b s = Ok p -> texts p.1 = true /\ forallb scalar p.2 = true.
Proof.
  intros Hs Hn. unfold scan_number in Hn. inv_ok. destruct a as [ip s1].
  assert (forallb scalar s1 = true) as H1.
  { unfold scan_int_part in E. destruct s as [|c s]; [done|]. cbn [forallb] in Hs. bool_prop. clear Hn. repeat case_match; inv_ok; simplify_eq; try done.
    match goal with E : span_digits ?t = _ |- _ => pose proof (span_digits_forall scalar t ltac:(done)) as Hd; by rewrite E in Hd end. }
  destruct (scan_frac s1) as [fp s2] eqn:E2.
  assert (forallb scalar s2 = true) as H2.
  { unfold scan_frac in E2. destruct s1 as [|c s1]; [by simplify_eq|]. repeat case_match; simplify_eq; try done.
    cbn [forallb] in H1. bool_prop. match goal with E : span_digits ?t = _ |- _ => pose proof (span_digits_forall scalar t ltac:(done)) as Hd; by rewrite E in Hd end. }
  destruct (scan_exp s2) as [ex s3] eqn:E3.
  assert (forallb scalar s3 = true) as H3.
  { unfold scan_exp in E3. destruct s2 as [|c s2]; [by simplify_eq|]. cbn [forallb] in H2. repeat case_match; simplify_eq; try done.
    all: match goal with E : span_digits ?t = _ |- _ => pose proof (span_digits_forall scalar t) as Hd; rewrite E in Hd; apply Hd end.
    all: cbn [forallb] in H2; rewrite ?andb_true_iff in H2; destruct_and?; cbn [forallb]; rewrite ?andb_true_iff; done. }
  repeat case_match; inv_ok; done.
Qed.

Lemma strip_prefix_forall p s r : strip_prefix p s = Some r -> forallb scalar s = true -> forallb scalar r = true.
Proof.
  unfold strip_prefix. destruct (startswith s (str p)); [|done]. intros [= <-] Hs.
  rewrite <-(take_drop (length (str p)) s), forallb_app in Hs. by apply andb_true_iff in Hs as [_ Hs].
Qed.

Lemma scan_atom_texts s p : forallb scalar s = true -> scan_atom parse_constant s = Ok p ->
  texts p.1 = true /\ forallb scalar p.2 = true.
Proof.
  intros Hs H. unfold scan_atom, constant in H.
  repeat match type of H with
  | match strip_prefix ?x s with _ => _ end = _ =>
      let E := fresh "E" in destruct (strip_prefix x s) eqn:E;
      [apply strip_prefix_forall in E; [|done]; inv_ok; split; [try done; by eapply constant_texts|done]|clear E]
  end.
  destruct s as [|c s]; [done|]. destruct (c =? 45); [|by eapply scan_number_texts].
  eapply scan_number_texts; [|exact H]. cbn [forallb] in Hs. by apply andb_true_iff in Hs as [_ Hs].
Qed.

Abbreviation members_ok d := (forallb (fun kv : pystr * pyval => text_ok kv.1 && texts kv.2) d = true).

Lemma scan_texts fuel :
  (forall s p, forallb scalar s = true -> scan_value hook parse_constant fuel s = Ok p -> texts p.1 = true /\ forallb scalar p.2 = true) /\
  (forall s p, forallb scalar s = true -> scan_members hook parse_constant fuel s = Ok p -> members_ok p.1 /\ forallb scalar p.2 = true) /\
  (forall s p, forallb scalar s = true -> scan_elements hook parse_constant fuel s = Ok p ->
     forallb texts p.1 = true /\ forallb scalar p.2 = true).
Proof.
  induction fuel as [|fuel (IHv & IHm & IHe)]; [repeat split; done|].
  assert (forall s x t, skip_ws s = x :: t -> forallb scalar s = true -> forallb scalar t = true) as Hskip.
  { intros s x t Hx Hs. apply (skip_ws_forall scalar) in Hs. rewrite Hx in Hs. by apply andb_true_iff in Hs as [_ Hs]. }
  split_and!; intros s p Hs H; simpl in H.
  - destruct s as [|c t]; [done|]. pose proof (skip_ws_forall scalar t) as Hw. pose proof (proj2 (proj1 (andb_true_iff _ _) Hs)) as Ht.
    destruct (c =? 34).
    { inv_ok. split; [by apply (scan_string_text t)|by apply (scan_string_forall scalar t)]. }
    destruct (c =? 123); [|destruct (c =? 91); [|by apply scan_atom_texts in H]];
      (destruct (skip_ws t) as [|x r] eqn:Hx; [done|]).
    + destruct (x =? 125); inv_ok; [apply hook_same in E as ->; split; [done|eapply Hskip; [eassumption|done]]|].
      apply hook_same in E0 as ->. by apply IHm in E; [|apply Hw].
    + destruct (x =? 93); inv_ok; [split; [done|eapply Hskip; [eassumption|done]]|]. by apply IHe in E; [|apply Hw].
  - destruct s as [|c t]; [done|]. apply andb_true_iff in Hs as [_ Hs]. case_match; [done|]. inv_ok.
    pose proof (scan_string_text _ _ E Hs) as Hk. pose proof (scan_string_forall scalar _ _ E Hs) as Hks.
    destruct (skip_ws a.2) as [|c1 t1] eqn:Hx; [done|]. case_match; [done|]. inv_ok.
    apply IHv in E0 as [Hv Hr]; [|eapply skip_ws_forall, Hskip; [eassumption|done]]. destruct (skip_ws a0.2) as [|c2 t2] eqn:Hy; [done|].
    case_match; inv_ok; [simpl; rewrite Hk, Hv; split; [done|eapply Hskip; [eassumption|done]]|]. case_match; [|done]. inv_ok.
    apply IHm in E0 as [Hms Hrr]; [|eapply skip_ws_forall, Hskip; [eassumption|done]]. simpl. by rewrite Hk, Hv, Hms.
  - inv_ok. apply IHv in E as [Hv Hr]; [|done]. destruct (skip_ws a.2) as [|c t] eqn:Hx; [done|].
    case_match; inv_ok; [simpl; rewrite Hv; split; [done|eapply Hskip; [eassumption|done]]|]. case_match; [|done]. inv_ok.
    apply IHe in E as [Hes Hrr]; [|eapply skip_ws_forall, Hskip; [eassumption|done]]. simpl. by rewrite Hv, Hes.
Qed.

(** The strings of a value decoded from scalar text. *)
Lemma loads_texts s v : forallb scalar s = true -> loads hook parse_constant s = Ok v -> texts v = true.
Proof.
  intros Hs Hl. unfold loads in Hl. case_match; [done|]. inv_ok. apply (proj1 (scan_texts _)) in E as [E _]; [|by apply skip_ws_forall].
  by case_match; inv_ok.
Qed.
End decoder_texts.

(** A dictionary whose strings are well formed is one in which a lookup finds such. *)
Lemma texts_get d k s : texts (VDict d) = true -> get d k = VStr s -> text_ok s = true.
Proof.
  cbn [texts]. unfold get. intros Hd Hg. destruct (dget k d) as [v|] eqn:E; [|done]. simpl in Hg. subst v.
  induction d as [|[j w] d IH]; [done|]. cbn [forallb dget fst snd] in *. bool_prop. destruct (k =s j); [|by apply IH]. by simplify_eq.
Qed.
