(* ===== verification/Sys.v ===== *)
(** * The operating system the scripts run on

    A file system is a map from names (components below the root) to inodes.  A
    script's system call first lets the environment act on the file system (other
    processes, given by [env]) and may then fail with an injected error ([fault]);
    otherwise it has its usual effect.  Programs are written in the state and error
    monad [M]: the state survives an exception, as it does in Python.  An open
    descriptor is a reference to its inode.  Durability across a crash is not
    modelled: [fsync] can fail but has no other effect. *)
From Stdlib Require Import ZArith Lia.
From Stdlib Require Import Init.Byte.
From stdpp Require Import base list sets strings option gmap.
From S2P Require Import Prelude PyStr PyVal Bytes.

Open Scope string_scope.
Open Scope list_scope.
Open Scope Z_scope.

(** ** File systems *)

Abbreviation path := (list pystr).

(** A device file has the number of its device. *)
Inductive special := CharDevice (rdev : Z) | BlockDevice (rdev : Z) | Fifo | Socket.

Inductive kind :=
  | KDir
  | KFile (data : bytes)
  | KLink (target : pystr)
  | KSpecial (s : special).

Record inode := Inode {
  i_kind : kind; i_perm : Z; i_uid : Z; i_gid : Z; i_dev : Z; i_nlink : Z; i_mtime : Z; i_ctime : Z;
  i_xattrs : list (pystr * bytes) }.

Record fs := FS { names : gmap path Z; nodes : gmap Z inode; fresh : Z; now : Z }.

Definition ifmt_of (k : kind) : Z :=
  match k with KDir => 0x4000 | KFile _ => 0x8000 | KLink _ => 0xA000 
  | KSpecial (CharDevice _) => 0x2000 | KSpecial (BlockDevice _) => 0x6000 | KSpecial Fifo => 0x1000 | KSpecial Socket => 0xC000
  end.

Record stat_result := Stat {
  st_dev : Z; st_ino : Z; st_mode : Z; st_nlink : Z; st_uid : Z; st_gid : Z; st_size : Z;
  st_mtime_ns : Z; st_ctime_ns : Z; st_rdev : Z }.

#[export] Instance stat_result_eq_dec : EqDecision stat_result.
Proof. solve_decision. Defined.

Definition size_of (k : kind) : res Z :=
  match k with
  | KFile d => Ok (zlen d)
  | KLink t => let! raw := fsencode t in Ok (zlen raw)
  | _ => Ok 0
  end.

Definition rdev_of (k : kind) : Z :=
  match k with KSpecial (CharDevice rdev) | KSpecial (BlockDevice rdev) => rdev | _ => 0 end.

Definition stat_of (ino : Z) (n : inode) : stat_result :=
  Stat (i_dev n) ino (Z.lor (ifmt_of (i_kind n)) (Z.land (i_perm n) 0xFFF)) (i_nlink n) (i_uid n) (i_gid n)
    (match size_of (i_kind n) with Ok s => s | Err _ => 0 end) (i_mtime n) (i_ctime n) (rdev_of (i_kind n)).

(** [stat.S_IFMT] and its tests; the kind decides the type bits. *)
Definition s_ifmt (mode : Z) : Z := Z.land mode 0xF000.
Definition s_isdir (mode : Z) : bool := s_ifmt mode =? 0x4000.
Definition s_isreg (mode : Z) : bool := s_ifmt mode =? 0x8000.
Definition s_isblk (mode : Z) : bool := s_ifmt mode =? 0x6000.
Definition s_islnk (mode : Z) : bool := s_ifmt mode =? 0xA000.
Definition s_imode (mode : Z) : Z := Z.land mode 0xFFF.

Lemma s_ifmt_stat ino n : s_ifmt (st_mode (stat_of ino n)) = Z.land (ifmt_of (i_kind n)) 0xF000.
Proof.
  unfold s_ifmt. simpl. rewrite Z.land_lor_distr_l, <-(Z.land_assoc (i_perm n)).
  change (Z.land 0xFFF 0xF000) with 0. by rewrite Z.land_0_r, Z.lor_0_r.
Qed.

Lemma s_isdir_stat ino n : i_kind n = KDir -> s_isdir (st_mode (stat_of ino n)) = true.
Proof. intros Hk. unfold s_isdir. rewrite s_ifmt_stat. by rewrite Hk. Qed.

Definition ENOENT {A} : res A := raise FileNotFoundError "No such file or directory".
Definition EEXIST {A} : res A := raise FileExistsError "File exists".
Definition ENOTDIR {A} : res A := raise NotADirectoryError "Not a directory".
Definition EISDIR {A} : res A := raise IsADirectoryError "Is a directory".
Definition ELOOP {A} : res A := raise OSError "Too many levels of symbolic links".
Definition ENOTEMPTY {A} : res A := raise OSError "Directory not empty".
Definition EINVAL {A} : res A := raise OSError "Invalid argument".

Definition node_at (f : fs) (p : path) : option (Z * inode) :=
  match names f !! p with
  | Some ino => match nodes f !! ino with Some n => Some (ino, n) | None => None end
  | None => None
  end.

Definition is_dir_at (f : fs) (p : path) : bool :=
  match node_at f p with Some (_, n) => match i_kind n with KDir => true | _ => false end | None => false end.

(** ** Walking a path

    The location a path names: its parents resolved, symbolic links followed, the
    last component only when [follow].  At most forty links are followed. *)
Definition MAX_LINKS : nat := 40.

Section resolve.
Variable f : fs.
Variable follow : bool.

(** [links]: what to do at one more symbolic link. *)
Fixpoint walk (links : path -> path -> res path) (pre : path) (rest : path) : res path :=
  match rest with
  | [] => Ok pre
  | c :: t =>
      match node_at f pre with
      | None => ENOENT
      | Some (_, dir) =>
          match i_kind dir with
          | KDir =>
              if mem c (strs [""; "."]) then walk links pre t
              else if c =s str ".." then walk links (removelast pre) t
              else
                let here := pre ++ [c] in
                match node_at f here with
                | Some (_, n) =>
                    match i_kind n with
                    | KLink target =>
                        if bool_decide (t = []) && negb follow then Ok here
                        else if startswith target (str "/") then links [] (split_on SLASH target ++ t)
                        else links pre (split_on SLASH target ++ t)
                    | _ => walk links here t
                    end
                | None => match t with [] => Ok here | _ => ENOENT end
                end
          | _ => ENOTDIR
          end
      end
  end.

Fixpoint resolve_from (fuel : nat) (pre : path) (rest : path) : res path :=
  match fuel with
  | O => ELOOP
  | S fuel => walk (resolve_from fuel) pre rest
  end.

Definition resolve (p : path) : res path := resolve_from (S MAX_LINKS) [] p.
End resolve.

(** An absolute path by its components, its text, and a relative name below a
    directory; [os.path.relpath(target, start)] for canonical absolute paths. *)
Definition abs_path (s : string) : path := pp_comps (pure_path (str s)).
Definition rel_path (s : pystr) : path := pp_comps (pure_path s).
Definition path_text (p : path) : pystr := str "/" ++ join_with SLASH p.

Fixpoint strip_common (a b : path) : path * path :=
  match a, b with
  | x :: a', y :: b' => if x =s y then strip_common a' b' else (a, b)
  | _, _ => (a, b)
  end.
Definition relpath (target start : path) : pystr :=
  let '(t, s) := strip_common target start in
  match repeat (str "..") (length s) ++ t with [] => str "." | l => join_with SLASH l end.

(** ** Operations on a file system *)

Definition set_node (ino : Z) (n : inode) (f : fs) : fs :=
  FS (names f) (<[ino := n]> (nodes f)) (fresh f) (now f).
Definition set_name (p : path) (ino : Z) (f : fs) : fs :=
  FS (<[p := ino]> (names f)) (nodes f) (fresh f) (now f).
Definition del_name (p : path) (f : fs) : fs :=
  FS (delete p (names f)) (nodes f) (fresh f) (now f).
Definition tick (f : fs) : fs := FS (names f) (nodes f) (fresh f) (now f + 1).

(** Link counts change with names; every change stamps the inode. *)
Definition touch_nlink (delta : Z) (ino : Z) (f : fs) : fs :=
  match nodes f !! ino with
  | Some n => set_node ino (Inode (i_kind n) (i_perm n) (i_uid n) (i_gid n) (i_dev n) (i_nlink n + delta)
                              (i_mtime n) (now f) (i_xattrs n)) f
  | None => f
  end.

(** The location of a name that an operation creates, changes or removes: its
    parent directory must exist. *)
Definition locate (f : fs) (p : path) : res path :=
  let! loc := resolve f false p in
  match loc with
  | [] => Ok []
  | _ => if is_dir_at f (removelast loc) then Ok loc else
         match node_at f (removelast loc) with Some _ => ENOTDIR | None => ENOENT end
  end.

Definition fs_stat (follow : bool) (f : fs) (p : path) : res stat_result :=
  let! loc := resolve f follow p in
  match node_at f loc with Some (ino, n) => Ok (stat_of ino n) | None => ENOENT end.

Definition fs_fstat (f : fs) (ino : Z) : res stat_result :=
  match nodes f !! ino with Some n => Ok (stat_of ino n) | None => raise OSError "Bad file descriptor" end.

Definition fs_readlink (f : fs) (p : path) : res pystr :=
  let! loc := resolve f false p in
  match node_at f loc with
  | Some (_, n) => match i_kind n with KLink t => Ok t | _ => EINVAL end
  | None => ENOENT
  end.

(** [open] without [O_CREAT]; [nofollow] refuses a symbolic link at the end. *)
Definition fs_open (nofollow directory : bool) (f : fs) (p : path) : res Z :=
  let! loc := resolve f (negb nofollow) p in
  match node_at f loc with
  | None => ENOENT
  | Some (ino, n) =>
      match i_kind n with
      | KLink _ => ELOOP
      | KDir => Ok ino
      | _ => if directory then ENOTDIR else Ok ino
      end
  end.

Definition fs_read (f : fs) (ino : Z) : res bytes :=
  match nodes f !! ino with
  | Some n => match i_kind n with KFile d => Ok d | KDir => EISDIR | _ => EINVAL end
  | None => raise OSError "Bad file descriptor"
  end.

(** [openat]: the directory is the one the descriptor holds, wherever its name is. *)
Definition location_of (f : fs) (ino : Z) : option path :=
  match List.find (fun kv => kv.2 =? ino) (map_to_list (names f)) with Some kv => Some kv.1 | None => None end.
Definition fs_openat (nofollow directory : bool) (f : fs) (dirfd : Z) (name : pystr) : res Z :=
  match nodes f !! dirfd with
  | None => raise OSError "Bad file descriptor"
  | Some n =>
      match i_kind n, location_of f dirfd with
      | KDir, Some loc => fs_open nofollow directory f (loc ++ [name])
      | KDir, None => ENOENT
      | _, _ => ENOTDIR
      end
  end.

(** The caller's user and group. *)
Record user := User { euid : Z; egid : Z; umask : Z }.

Definition new_node (u : user) (k : kind) (perm : Z) (dev : Z) (f : fs) : inode :=
  Inode k (match k with KLink _ => 0x1FF | _ => Z.ldiff perm (umask u) end) (euid u) (egid u) dev
    (match k with KDir => 2 | _ => 1 end) (now f) (now f) [].

(** A new inode under a name that must not exist. *)
Definition fs_create (u : user) (k : kind) (perm : Z) (f : fs) (p : path) : res (Z * fs) :=
  let! loc := locate f p in
  match node_at f loc with
  | Some _ => EEXIST
  | None =>
      let dev := match node_at f (removelast loc) with Some (_, d) => i_dev d | None => 0 end in
      let ino := fresh f in
      Ok (ino, tick (set_name loc ino
            (FS (names f) (<[ino := new_node u k perm dev f]> (nodes f)) (fresh f + 1) (now f))))
  end.

(** [write] at the end of what has been written, and [O_TRUNC]. *)
Definition fs_truncate (f : fs) (ino : Z) : res fs :=
  match nodes f !! ino with
  | Some n =>
      match i_kind n with
      | KFile _ => Ok (tick (set_node ino (Inode (KFile []) (i_perm n) (i_uid n) (i_gid n) (i_dev n)
                              (i_nlink n) (now f) (now f) (i_xattrs n)) f))
      | _ => EINVAL
      end
  | None => raise OSError "Bad file descriptor"
  end.

Definition fs_write (f : fs) (ino : Z) (data : bytes) : res fs :=
  match nodes f !! ino with
  | Some n =>
      match i_kind n with
      | KFile old => Ok (tick (set_node ino (Inode (KFile (old ++ data)) (i_perm n) (i_uid n) (i_gid n) (i_dev n)
                              (i_nlink n) (now f) (now f) (i_xattrs n)) f))
      | _ => EINVAL
      end
  | None => raise OSError "Bad file descriptor"
  end.

Definition fs_chmod (f : fs) (ino : Z) (perm : Z) : res fs :=
  match nodes f !! ino with
  | Some n => Ok (tick (set_node ino (Inode (i_kind n) perm (i_uid n) (i_gid n) (i_dev n) (i_nlink n)
                    (i_mtime n) (now f) (i_xattrs n)) f))
  | None => raise OSError "Bad file descriptor"
  end.

(** [chown] by root; the set-identity bits of a file go. *)
Definition fs_chown (u : user) (f : fs) (ino uid gid : Z) : res fs :=
  match nodes f !! ino with
  | Some n =>
      if negb (euid u =? 0) then raise PermissionError "Operation not permitted"
      else
        let perm := match i_kind n with
                    | KDir => i_perm n
                    | _ => Z.ldiff (i_perm n) (if Z.land (i_perm n) 0x8 =? 0 then 0x800 else 0xC00)
                    end in
        Ok (tick (set_node ino (Inode (i_kind n) perm uid gid (i_dev n) (i_nlink n) (i_mtime n) (now f) (i_xattrs n)) f))
  | None => raise OSError "Bad file descriptor"
  end.

Definition fs_unlink (f : fs) (p : path) : res fs :=
  let! loc := locate f p in
  match node_at f loc with
  | None => ENOENT
  | Some (ino, n) =>
      match i_kind n with
      | KDir => EISDIR
      | _ => Ok (tick (touch_nlink (-1) ino (del_name loc f)))
      end
  end.

(** [link], without following the source. *)
Definition fs_link (f : fs) (source destination : path) : res fs :=
  let! from := resolve f false source in
  let! to := locate f destination in
  match node_at f from, node_at f to with
  | None, _ => ENOENT
  | Some _, Some _ => EEXIST
  | Some (ino, n), None =>
      match i_kind n with
      | KDir => raise PermissionError "Operation not permitted"
      | _ => Ok (tick (touch_nlink 1 ino (set_name to ino f)))
      end
  end.

(** Everything at or below [from] moves to [to]. *)
Definition below (top k : path) : bool := bool_decide (top `prefix_of` k).
Definition move_names (from to : path) (m : gmap path Z) : gmap path Z :=
  list_to_map (map (fun kv => (if below from kv.1 then to ++ drop (length from) kv.1 else kv.1, kv.2))
    (map_to_list m)).

Definition has_children (f : fs) (p : path) : bool :=
  existsb (fun kv => below p kv.1 && negb (bool_decide (kv.1 = p))) (map_to_list (names f)).

Definition fs_rename (noreplace : bool) (f : fs) (source destination : path) : res fs :=
  let! from := locate f source in
  let! to := locate f destination in
  match node_at f from with
  | None => ENOENT
  | Some (ino, n) =>
      match node_at f to with
      | Some (ino', n') =>
          if noreplace then EEXIST
          else if ino =? ino' then Ok f
          else
            match i_kind n, i_kind n' with
            | KDir, KDir =>
                if has_children f to then ENOTEMPTY
                else Ok (tick (FS (move_names from to (delete to (names f))) (nodes f) (fresh f) (now f)))
            | KDir, _ => ENOTDIR
            | _, KDir => EISDIR
            | _, _ => Ok (tick (touch_nlink (-1) ino' (set_name to ino (del_name from f))))
            end
      | None =>
          match i_kind n with
          | KDir => if below from to then EINVAL
                    else Ok (tick (FS (move_names from to (names f)) (nodes f) (fresh f) (now f)))
          | _ => Ok (tick (set_name to ino (del_name from f)))
          end
      end
  end.

(** [shutil.rmtree] of a directory that is not a symbolic link. *)
Definition fs_rmtree (f : fs) (p : path) : res fs :=
  let! loc := locate f p in
  match node_at f loc with
  | None => ENOENT
  | Some (_, n) =>
      match i_kind n with
      | KDir => Ok (tick (FS (filter (fun kv => below loc kv.1 = false) (names f)) (nodes f) (fresh f) (now f)))
      | _ => raise OSError "Cannot call rmtree on a symbolic link or a file"
      end
  end.

(** [os.scandir]: the names of a directory, in the order of the map. *)
Definition child_of (dir k : path) : option pystr :=
  match drop (length dir) k with
  | [c] => if below dir k then Some c else None
  | _ => None
  end.
Definition fs_listdir (f : fs) (p : path) : res (list pystr) :=
  let! loc := resolve f true p in
  match node_at f loc with
  | None => ENOENT
  | Some (_, n) =>
      match i_kind n with
      | KDir => Ok (omap (fun kv => child_of loc kv.1) (map_to_list (names f)))
      | _ => ENOTDIR
      end
  end.

(** ** Programs *)

Record world := World { w_fs : fs; w_clock : nat }.

(** The machine a program runs on: what other processes do before each system call,
    which calls fail, who runs the program, and its process number. *)
Class machine := Machine {
  env : nat -> fs -> fs;
  fault : nat -> option exn;
  me : user;
  getpid : Z }.

Definition M (A : Type) : Type := world -> res A * world.

Definition mret {A} (a : A) : M A := fun w => (Ok a, w).
Definition mraise {A} (c : exn_class) (m : string) : M A := fun w => (raise c m, w).
Definition lift {A} (r : res A) : M A := fun w => (r, w).
Definition mbind {A B} (m : M A) (k : A -> M B) : M B :=
  fun w => match m w with (Ok a, w') => k a w' | (Err e, w') => (Err e, w') end.

Declare Scope sys_scope.
Delimit Scope sys_scope with sys.
Open Scope sys_scope.
Notation "'let*' x ':=' m 'in' k" := (mbind m (fun x => k))
  (at level 10, x pattern, m at level 200, k at level 200) : sys_scope.
Notation "m ;;; k" := (mbind m (fun _ => k)) (at level 100, k at level 200, right associativity) : sys_scope.

Definition mraise_if (b : bool) (c : exn_class) (m : string) : M unit := lift (raise_if b c m).

(** [try: body except: handler], [try: body finally: last]. *)
Definition mcatch {A} (body : M A) (handler : exn -> M A) : M A :=
  fun w => match body w with (Ok a, w') => (Ok a, w') | (Err e, w') => handler e w' end.
Definition mfinally {A} (body : M A) (last : M unit) : M A :=
  fun w => let '(r, w1) := body w in
           match last w1 with (Ok _, w2) => (r, w2) | (Err e, w2) => (Err e, w2) end.

Fixpoint mfor_each {S A} (g : S -> A -> M S) (s : S) (l : list A) : M S :=
  match l with
  | [] => mret s
  | x :: t => let* s' := g s x in mfor_each g s' t
  end.
Fixpoint mmap {A B} (g : A -> M B) (l : list A) : M (list B) :=
  match l with
  | [] => mret []
  | x :: t => let* y := g x in let* ys := mmap g t in mret (y :: ys)
  end.

(** A [while] loop of programs, as [while] of results. *)
Fixpoint mloop {S A} (depth : nat) (turn : S -> M (S + A)) (s : S) : M (S + A) :=
  match depth with
  | O => turn s
  | Datatypes.S d => let* r := mloop d turn s in match r with inl s' => mloop d turn s' | inr a => mret (inr a) end
  end.
Definition mwhile {S A} (turn : S -> M (S + A)) (s : S) : M A :=
  let* r := mloop 64 turn s in match r with inr a => mret a | inl _ => mraise RuntimeError "2^64 turns" end.

Section calls.
Context `{machine}.

(** One system call: the environment's turn, then the call or its failure. *)
Definition syscall {A} (op : fs -> res (A * fs)) : M A :=
  fun w =>
    let f := env (w_clock w) (w_fs w) in
    let c := S (w_clock w) in
    match fault (w_clock w) with
    | Some e => (Err e, World f c)
    | None => match op f with Ok (a, f') => (Ok a, World f' c) | Err e => (Err e, World f c) end
    end.

Definition query {A} (op : fs -> res A) : M A := syscall (fun f => let! a := op f in Ok (a, f)).
Definition change (op : fs -> res fs) : M unit := syscall (fun f => let! f' := op f in Ok (tt, f')).

Definition lstat (p : path) : M stat_result := query (fun f => fs_stat false f p).
Definition stat (p : path) : M stat_result := query (fun f => fs_stat true f p).
Definition fstat (fd : Z) : M stat_result := query (fun f => fs_fstat f fd).
Definition readlink (p : path) : M pystr := query (fun f => fs_readlink f p).
Definition listdir (p : path) : M (list pystr) := query (fun f => fs_listdir f p).
Definition open_ (nofollow directory : bool) (p : path) : M Z := query (fun f => fs_open nofollow directory f p).
Definition openat (nofollow directory : bool) (dirfd : Z) (name : pystr) : M Z :=
  query (fun f => fs_openat nofollow directory f dirfd name).
Definition read_fd (fd : Z) : M bytes := query (fun f => fs_read f fd).
Definition fsync (fd : Z) : M unit := query (fun f => Ok tt).
Definition close (fd : Z) : M unit := query (fun f => Ok tt).
Definition create_excl (perm : Z) (p : path) : M Z := syscall (fun f => fs_create me (KFile []) perm f p).
Definition mkdir (perm : Z) (p : path) : M unit :=
  change (fun f => let! r := fs_create me KDir perm f p in Ok r.2).
Definition symlink (target : pystr) (p : path) : M unit :=
  change (fun f => let! r := fs_create me (KLink target) 0 f p in Ok r.2).
Definition write_fd (fd : Z) (data : bytes) : M unit := change (fun f => fs_write f fd data).
Definition fchmod (fd : Z) (perm : Z) : M unit := change (fun f => fs_chmod f fd perm).
Definition chmod (p : path) (perm : Z) : M unit :=
  change (fun f => let! ino := fs_open false false f p in fs_chmod f ino perm).
Definition chown (p : path) (uid gid : Z) : M unit :=
  change (fun f => let! ino := fs_open false false f p in fs_chown me f ino uid gid).
Definition unlink (p : path) : M unit := change (fun f => fs_unlink f p).
Definition link (source destination : path) : M unit := change (fun f => fs_link f source destination).
Definition rename (source destination : path) : M unit := change (fun f => fs_rename false f source destination).
Definition rename_noreplace (source destination : path) : M unit :=
  change (fun f => fs_rename true f source destination).
Definition rmtree (p : path) : M unit := change (fun f => fs_rmtree f p).

(** [os.path.lexists], [Path.is_symlink], [Path.is_dir], [Path.exists]: an error is
    "no". *)
Definition or_false (m : M bool) : M bool :=
  mcatch m (fun e => if is_os_error (exn_cls e) then mret false else fun w => (Err e, w)).
Definition lexists (p : path) : M bool := or_false (let* _ := lstat p in mret true).
Definition exists_ (p : path) : M bool := or_false (let* _ := stat p in mret true).
Definition is_symlink (p : path) : M bool := or_false (let* s := lstat p in mret (s_islnk (st_mode s))).
Definition is_dir (p : path) : M bool := or_false (let* s := stat p in mret (s_isdir (st_mode s))).

(** [Path.read_bytes]: open, read, close. *)
Definition read_bytes (p : path) : M bytes :=
  let* fd := open_ false false p in let* data := read_fd fd in close fd ;;; mret data.

(** [open(p, "wb")]: truncated, or created with the default mode where the path leads
    (through a symbolic link to nothing too). *)
Definition open_truncate (p : path) : M Z :=
  syscall (fun f =>
    match fs_open false false f p with
    | Ok ino => let! f' := fs_truncate f ino in Ok (ino, f')
    | Err e => if bool_decide (exn_cls e = FileNotFoundError) then
               let! loc := resolve f true p in fs_create me (KFile []) 0x1B6 f loc
             else Err e
    end).
Definition write_bytes (p : path) (data : bytes) : M unit :=
  let* fd := open_truncate p in mfinally (write_fd fd data) (close fd).

Definition reraise {A} (e : exn) : M A := fun w => (Err e, w).

(** [os.mkdir] in [Path.mkdir(exist_ok=True)], and [Path.mkdir(mode, parents=True,
    exist_ok=True)] with the path given from its end: the parents are made with the
    default mode. *)
Definition mkdir_exist_ok (perm : Z) (p : path) : M unit :=
  mcatch (mkdir perm p) (fun e =>
    if is_os_error (exn_cls e) && negb (bool_decide (exn_cls e = FileNotFoundError)) then
      let* d := is_dir p in if d then mret tt else reraise e
    else reraise e).
Fixpoint mkdir_parents (perm : Z) (rev_path : path) : M unit :=
  mcatch (mkdir_exist_ok perm (rev rev_path)) (fun e =>
    if bool_decide (exn_cls e = FileNotFoundError) then
      match rev_path with
      | [] => reraise e
      | _ :: up => mkdir_parents 0x1FF up ;;; mkdir_exist_ok perm (rev rev_path)
      end
    else reraise e).

(** [except FileNotFoundError: pass], and [shutil.rmtree(..., ignore_errors=True)]. *)
Definition ignore_not_found (m : M unit) : M unit :=
  mcatch m (fun e => if bool_decide (exn_cls e = FileNotFoundError) then mret tt else reraise e).
Definition ignore_errors (m : M unit) : M unit :=
  mcatch m (fun e => if is_os_error (exn_cls e) then mret tt else reraise e).

(** A loop inside [try]: the state reached, and the exception that ended it. *)
Fixpoint mfor_until {S A} (g : S -> A -> M S) (s : S) (l : list A) : M (S * option exn) :=
  match l with
  | [] => mret (s, None)
  | x :: t => fun w => match g s x w with
                       | (Ok s', w') => mfor_until g s' t w'
                       | (Err e, w') => (Ok (s, Some e), w')
                       end
  end.
End calls.

(** ** Reasoning about programs

    [triple P m Q E]: started where [P] holds, [m] ends where [Q] holds of its result,
    or raises where [E] holds. *)
Definition triple {A} (P : fs -> Prop) (m : M A) (Q : A -> fs -> Prop) (E : fs -> Prop) : Prop :=
  forall w, P (w_fs w) ->
    match m w with (Ok a, w') => Q a (w_fs w') | (Err _, w') => E (w_fs w') end.

Section rules.
Context {A B : Type}.

Lemma triple_ret (P : fs -> Prop) (a : A) (Q : A -> fs -> Prop) E : (forall f, P f -> Q a f) -> triple P (mret a) Q E.
Proof. intros H w Hw. simpl. auto. Qed.

Lemma triple_raise (P E : fs -> Prop) c m (Q : A -> fs -> Prop) : (forall f, P f -> E f) -> triple P (mraise c m) Q E.
Proof. intros H w Hw. simpl. auto. Qed.

Lemma triple_reraise (P E : fs -> Prop) e (Q : A -> fs -> Prop) : (forall f, P f -> E f) -> triple P (reraise e) Q E.
Proof. intros H w Hw. simpl. auto. Qed.

Lemma triple_lift (P E : fs -> Prop) (r : res A) (Q : A -> fs -> Prop) :
  (forall a f, r = Ok a -> P f -> Q a f) -> (forall f, P f -> E f) -> triple P (lift r) Q E.
Proof. intros HQ HE w Hw. unfold lift. destruct r; auto. Qed.

Lemma triple_lift_ok (P E : fs -> Prop) (a : A) (k : A -> M B) Q : triple P (k a) Q E -> triple P (mbind (lift (Ok a)) k) Q E.
Proof. done. Qed.

Lemma triple_bind (P : fs -> Prop) (m : M A) (R : A -> fs -> Prop) (k : A -> M B) Q E :
  triple P m R E -> (forall a, triple (R a) (k a) Q E) -> triple P (mbind m k) Q E.
Proof.
  intros Hm Hk w Hw. unfold mbind. specialize (Hm w Hw). destruct (m w) as [[a|e] w']; [by apply Hk|done].
Qed.

Lemma triple_catch (P : fs -> Prop) (m : M A) h Q (E' E : fs -> Prop) :
  triple P m Q E' -> (forall e, triple E' (h e) Q E) -> triple P (mcatch m h) Q E.
Proof.
  intros Hm Hh w Hw. unfold mcatch. specialize (Hm w Hw). destruct (m w) as [[a|e] w']; [done|by apply Hh].
Qed.

Lemma triple_finally (P : fs -> Prop) (m : M A) last (Q Q' : A -> fs -> Prop) (E E' : fs -> Prop) :
  triple P m Q E -> (forall a, triple (Q a) last (fun _ => Q' a) E') -> triple E last (fun _ => E') E' ->
  triple P (mfinally m last) Q' E'.
Proof.
  intros Hm HQ HE w Hw. unfold mfinally. specialize (Hm w Hw). destruct (m w) as [[a|e] w'].
  - specialize (HQ a w' Hm). destruct (last w') as [[]]; done.
  - specialize (HE w' Hm). destruct (last w') as [[]]; done.
Qed.

Lemma triple_conseq (P P' : fs -> Prop) (m : M A) (Q Q' : A -> fs -> Prop) (E E' : fs -> Prop) :
  triple P' m Q' E' -> (forall f, P f -> P' f) -> (forall a f, Q' a f -> Q a f) -> (forall f, E' f -> E f) ->
  triple P m Q E.
Proof.
  intros H HP HQ HE w Hw. specialize (H w (HP _ Hw)). destruct (m w) as [[a|e] w']; auto.
Qed.

Lemma triple_pre (P : fs -> Prop) (m : M A) (Q : A -> fs -> Prop) E :
  (forall f0, P f0 -> triple (fun f => f = f0) m Q E) -> triple P m Q E.
Proof. intros H w Hw. by apply (H (w_fs w) Hw w). Qed.
End rules.

Lemma triple_for_each {S A} (I : fs -> Prop) (g : S -> A -> M S) s l E :
  (forall s x, triple I (g s x) (fun _ => I) E) -> triple I (mfor_each g s l) (fun _ => I) E.
Proof.
  intros H. revert s; induction l as [|x l IH]; intros s; simpl; [by apply triple_ret|].
  eapply triple_bind; [apply H|]. intros s'. apply IH.
Qed.

(** A loop keeps its invariant; one whose turns lower a measure ends. *)
Lemma triple_mloop {S A} depth (turn : S -> M (S + A)) (I : S -> fs -> Prop) (Q : A -> fs -> Prop) (E : fs -> Prop) s :
  (forall s, triple (I s) (turn s) (fun r => match r with inl s' => I s' | inr a => Q a end) E) ->
  triple (I s) (mloop depth turn s) (fun r => match r with inl s' => I s' | inr a => Q a end) E.
Proof.
  intros Ht. revert s; induction depth as [|d IH]; intros s; [apply Ht|]. simpl. eapply triple_bind; [apply IH|].
  intros [s'|a]; [apply IH|]. by apply triple_ret.
Qed.

Lemma triple_mwhile {S A} (turn : S -> M (S + A)) (I : S -> fs -> Prop) (Q : A -> fs -> Prop) (E : fs -> Prop) s :
  (forall s, triple (I s) (turn s) (fun r => match r with inl s' => I s' | inr a => Q a end) E) ->
  (forall s f, I s f -> E f) -> triple (I s) (mwhile turn s) Q E.
Proof.
  intros Ht HE. eapply triple_bind; [by apply triple_mloop|]. intros [s'|a]; [apply triple_raise; apply HE|by apply triple_ret].
Qed.

(** A machine on which nothing else changes the file system. *)
Definition quiet `{machine} : Prop := forall n f, env n f = f.

Section quiet_rules.
Context `{machine} (Hquiet : quiet).

Lemma triple_syscall {A} (P : fs -> Prop) (op : fs -> res (A * fs)) (Q : A -> fs -> Prop) (E : fs -> Prop) :
  (forall f, P f -> E f) -> (forall f a f', P f -> op f = Ok (a, f') -> Q a f') -> triple P (syscall op) Q E.
Proof.
  intros HE HQ w Hw. unfold syscall. rewrite Hquiet. destruct (fault (w_clock w)); [simpl; auto|].
  destruct (op (w_fs w)) as [[a f']|e] eqn:Ho; simpl; [by eapply HQ|auto].
Qed.

Lemma triple_query {A} (P : fs -> Prop) (op : fs -> res A) (Q : A -> fs -> Prop) (E : fs -> Prop) :
  (forall f, P f -> E f) -> (forall f a, P f -> op f = Ok a -> Q a f) -> triple P (query op) Q E.
Proof.
  intros HE HQ. apply triple_syscall; [done|]. intros f a f' Hf Ho. inv_ok. by eapply HQ.
Qed.

Lemma triple_change (P : fs -> Prop) (op : fs -> res fs) (Q : unit -> fs -> Prop) (E : fs -> Prop) :
  (forall f, P f -> E f) -> (forall f f', P f -> op f = Ok f' -> Q tt f') -> triple P (change op) Q E.
Proof.
  intros HE HQ. apply triple_syscall; [done|]. intros f [] f' Hf Ho. inv_ok. by eapply HQ.
Qed.

(** Queries leave the file system alone, whatever they answer. *)
Lemma triple_query_same {A} (P : fs -> Prop) (op : fs -> res A) : triple P (query op) (fun _ => P) P.
Proof. by apply triple_query. Qed.

Lemma triple_or_false (P : fs -> Prop) (m : M bool) : triple P m (fun _ => P) P -> triple P (or_false m) (fun _ => P) P.
Proof.
  intros Hm. eapply triple_catch; [done|]. intros e. destruct (is_os_error _); [by apply triple_ret|].
  by apply (triple_reraise P P e).
Qed.

Lemma triple_is_dir (P : fs -> Prop) p : triple P (is_dir p) (fun _ => P) P.
Proof. apply triple_or_false. eapply triple_bind; [apply triple_query_same|]. intros s. by apply triple_ret. Qed.
End quiet_rules.

(** *** Runs without interference

    On a machine where nothing else runs and no call fails, a program's run is
    determined by the file system: [runs m f r f']. *)
Definition faultless `{machine} : Prop := quiet /\ forall n, fault n = None.

Definition runs {A} (m : M A) (f : fs) (r : res A) (f' : fs) : Prop :=
  forall c, exists c', m (World f c) = (r, World f' c').

Section runs.
Context `{machine} (Hok : faultless).

Lemma runs_ret {A} (a : A) f : runs (mret a) f (Ok a) f.
Proof. intros c. by exists c. Qed.

Lemma runs_lift {A} (r : res A) f : runs (lift r) f r f.
Proof. intros c. by exists c. Qed.

Lemma runs_syscall {A} (op : fs -> res (A * fs)) f :
  runs (syscall op) f (match op f with Ok (a, _) => Ok a | Err e => Err e end)
    (match op f with Ok (_, f') => f' | Err _ => f end).
Proof.
  intros c. exists (S c). unfold syscall. destruct Hok as [Hq Hf]. simpl. rewrite Hq, Hf.
  by destruct (op f) as [[a f']|e].
Qed.

Lemma runs_query {A} (op : fs -> res A) f r : op f = r -> runs (query op) f r f.
Proof.
  intros <-. intros c. destruct (runs_syscall (fun f => let! a := op f in Ok (a, f)) f c) as [c' Hc].
  exists c'. unfold query. rewrite Hc. by destruct (op f).
Qed.

Lemma runs_change op f f' : op f = Ok f' -> runs (change op) f (Ok tt) f'.
Proof.
  intros Ho c. destruct (runs_syscall (fun f => let! f' := op f in Ok (tt, f')) f c) as [c' Hc].
  exists c'. unfold change. rewrite Hc. by rewrite Ho.
Qed.

Lemma runs_change_err op f e : op f = Err e -> runs (change op) f (Err e) f.
Proof.
  intros Ho c. destruct (runs_syscall (fun f => let! f' := op f in Ok (tt, f')) f c) as [c' Hc].
  exists c'. unfold change. rewrite Hc. by rewrite Ho.
Qed.

Lemma runs_bind {A B} (m : M A) (k : A -> M B) f a f1 r f2 :
  runs m f (Ok a) f1 -> runs (k a) f1 r f2 -> runs (mbind m k) f r f2.
Proof.
  intros Hm Hk c. destruct (Hm c) as [c1 H1]. destruct (Hk c1) as [c2 H2]. exists c2. unfold mbind. by rewrite H1.
Qed.

Lemma runs_bind_err {A B} (m : M A) (k : A -> M B) f e f1 : runs m f (Err e) f1 -> runs (mbind m k) f (Err e) f1.
Proof. intros Hm c. destruct (Hm c) as [c1 H1]. exists c1. unfold mbind. by rewrite H1. Qed.

Lemma runs_catch {A} (m : M A) h f a f1 : runs m f (Ok a) f1 -> runs (mcatch m h) f (Ok a) f1.
Proof. intros Hm c. destruct (Hm c) as [c1 H1]. exists c1. unfold mcatch. by rewrite H1. Qed.

Lemma runs_catch_err {A} (m : M A) h f e f1 r f2 :
  runs m f (Err e) f1 -> runs (h e) f1 r f2 -> runs (mcatch m h) f r f2.
Proof.
  intros Hm Hh c. destruct (Hm c) as [c1 H1]. destruct (Hh c1) as [c2 H2]. exists c2. unfold mcatch. by rewrite H1.
Qed.

Lemma runs_finally {A} (m : M A) last f r f1 u f2 :
  runs m f r f1 -> runs last f1 (Ok u) f2 -> runs (mfinally m last) f r f2.
Proof.
  intros Hm Hl c. destruct (Hm c) as [c1 H1]. destruct (Hl c1) as [c2 H2]. exists c2. unfold mfinally. by rewrite H1, H2.
Qed.

Lemma runs_reraise {A} e f : runs (@reraise A e) f (Err e) f.
Proof. intros c. by exists c. Qed.
End runs.

(** ** Paths without symbolic links *)

Definition plain_name (c : pystr) : bool := negb (mem c (strs [""; "."; ".."])).

(** Every prefix of a path is a directory. *)
Definition real_dir (f : fs) (p : path) : Prop := forall q, q `prefix_of` p -> is_dir_at f q = true.

Lemma walk_real f follow links pre rest :
  Forall (fun c => plain_name c = true) rest -> real_dir f (pre ++ rest) -> walk f follow links pre rest = Ok (pre ++ rest).
Proof.
  revert pre; induction rest as [|c t IH]; intros pre Hc Hd; cbn [walk app]; [by rewrite app_nil_r|].
  apply Forall_cons_iff in Hc as [Hc Ht].
  assert (is_dir_at f pre = true) as Hpre by (apply Hd; by eexists).
  assert (is_dir_at f (pre ++ [c]) = true) as Hhere by (apply Hd; exists t; by rewrite <-app_assoc).
  unfold is_dir_at in *. destruct (node_at f pre) as [[i n]|]; [|done]. destruct (i_kind n); try done.
  unfold plain_name in Hc. bool_prop. apply mem_not_elem in Hc.
  assert (mem c (strs [""; "."]) = false) as -> by (apply mem_not_elem; set_solver).
  assert (c =s str ".." = false) as -> by (apply str_eqb_neq; set_solver).
  destruct (node_at f (pre ++ [c])) as [[j m]|]; [|done]. destruct (i_kind m); try done.
  rewrite IH; [by rewrite <-app_assoc|done|by rewrite <-app_assoc].
Qed.

Lemma walk_app f follow links pre a b :
  Forall (fun c => plain_name c = true) a -> real_dir f (pre ++ a) ->
  walk f follow links pre (a ++ b) = walk f follow links (pre ++ a) b.
Proof.
  revert pre; induction a as [|c t IH]; intros pre Hc Hd; cbn [walk app]; [by rewrite app_nil_r|].
  apply Forall_cons_iff in Hc as [Hc Ht].
  assert (is_dir_at f pre = true) as Hpre by (apply Hd; by eexists).
  assert (is_dir_at f (pre ++ [c]) = true) as Hhere by (apply Hd; exists t; by rewrite <-app_assoc).
  unfold is_dir_at in *. destruct (node_at f pre) as [[i n]|]; [|done]. destruct (i_kind n); try done.
  unfold plain_name in Hc. bool_prop. apply mem_not_elem in Hc.
  assert (mem c (strs [""; "."]) = false) as -> by (apply mem_not_elem; set_solver).
  assert (c =s str ".." = false) as -> by (apply str_eqb_neq; set_solver).
  destruct (node_at f (pre ++ [c])) as [[j m]|]; [|done]. destruct (i_kind m); try done.
  rewrite IH; [by rewrite <-app_assoc|done|by rewrite <-app_assoc].
Qed.

(** A plain name in a real directory is its own location. *)
Lemma resolve_real f dir c : Forall (fun c => plain_name c = true) dir -> plain_name c = true -> real_dir f dir ->
  resolve f false (dir ++ [c]) = Ok (dir ++ [c]).
Proof.
  intros Hd Hc Hr. unfold resolve. cbn [resolve_from]. rewrite (walk_app f false _ [] dir [c]) by done. cbn [walk app].
  assert (is_dir_at f dir = true) as Hdir by (apply Hr; exists []; by rewrite app_nil_r).
  unfold is_dir_at in Hdir. destruct (node_at f dir) as [[i n]|]; [|done]. destruct (i_kind n); try done.
  unfold plain_name in Hc. bool_prop. apply mem_not_elem in Hc.
  assert (mem c (strs [""; "."]) = false) as -> by (apply mem_not_elem; set_solver).
  assert (c =s str ".." = false) as -> by (apply str_eqb_neq; set_solver).
  destruct (node_at f (dir ++ [c])) as [[j m]|]; [|done]. by destruct (i_kind m).
Qed.

Lemma locate_real f dir c : Forall (fun c => plain_name c = true) dir -> plain_name c = true -> real_dir f dir ->
  locate f (dir ++ [c]) = Ok (dir ++ [c]).
Proof.
  intros Hd Hc Hr. unfold locate. rewrite resolve_real by done. rewrite removelast_last.
  rewrite (Hr dir) by (exists []; by rewrite app_nil_r). by destruct (dir ++ [c]).
Qed.
