(* ===== verification/Held.v ===== *)
(** * Paths below an open directory

    [/proc/self/fd/N/a/b] names what the descriptor holds, wherever its name is; the
    path is [N] and the components below it. *)
From Stdlib Require Import ZArith Lia.
From Stdlib Require Import Init.Byte.
From stdpp Require Import base list sets strings option gmap.
From S2P Require Import Prelude PyStr PyVal Bytes Sys.

Open Scope string_scope.
Open Scope list_scope.
Open Scope Z_scope.

Definition held_path (f : fs) (fd : Z) (p : path) : res path :=
  match location_of f fd with Some loc => Ok (loc ++ p) | None => ENOENT end.

(** What the path names; the magic link itself is always followed. *)
Definition held_node (follow : bool) (f : fs) (fd : Z) (p : path) : res (Z * inode) :=
  match p with
  | [] => match nodes f !! fd with Some n => Ok (fd, n) | None => raise OSError "Bad file descriptor" end
  | _ =>
      let! q := held_path f fd p in
      let! loc := resolve f follow q in
      match node_at f loc with Some r => Ok r | None => ENOENT end
  end.

Definition fs_held_stat (follow : bool) (f : fs) (fd : Z) (p : path) : res stat_result :=
  let! r := held_node follow f fd p in Ok (stat_of r.1 r.2).
Definition fs_held_open (f : fs) (fd : Z) (p : path) : res Z :=
  let! r := held_node true f fd p in Ok r.1.
Definition fs_held_readlink (f : fs) (fd : Z) (p : path) : res pystr :=
  let! r := held_node false f fd p in match i_kind r.2 with KLink t => Ok t | _ => EINVAL end.
Definition fs_held_listxattr (follow : bool) (f : fs) (fd : Z) (p : path) : res (list pystr) :=
  let! r := held_node follow f fd p in Ok (map fst (i_xattrs r.2)).
Definition fs_held_getxattr (follow : bool) (f : fs) (fd : Z) (p : path) (name : pystr) : res bytes :=
  let! r := held_node follow f fd p in
  match alookup name (i_xattrs r.2) with Some v => Ok v | None => raise OSError "No data available" end.

(** A directory without a name any more has no entries. *)
Definition fs_held_listdir (f : fs) (fd : Z) (p : path) : res (list pystr) :=
  let! r := held_node true f fd p in
  match i_kind r.2, location_of f fd with
  | KDir, Some loc => fs_listdir f (loc ++ p)
  | KDir, None => Ok []
  | _, _ => ENOTDIR
  end.

(** [os.pread(descriptor, size, offset)] *)
Definition fs_pread (f : fs) (fd size offset : Z) : res bytes :=
  let! d := fs_read f fd in
  Ok (take (Z.to_nat (Z.min size (zlen d - offset))) (drop (Z.to_nat (Z.min offset (zlen d))) d)).

(** [os.open(path, O_RDONLY | O_DIRECTORY | O_NOFOLLOW)] *)
Definition fs_held_opendir (f : fs) (fd : Z) (p : path) : res Z :=
  let! q := held_path f fd p in fs_open true true f q.

Section held_calls.
Context `{machine}.

Definition held_stat (follow : bool) (fd : Z) (p : path) : M stat_result := query (fun f => fs_held_stat follow f fd p).
Definition held_open (fd : Z) (p : path) : M Z := query (fun f => fs_held_open f fd p).
Definition held_readlink (fd : Z) (p : path) : M pystr := query (fun f => fs_held_readlink f fd p).
Definition held_listxattr (follow : bool) (fd : Z) (p : path) : M (list pystr) :=
  query (fun f => fs_held_listxattr follow f fd p).
Definition held_getxattr (follow : bool) (fd : Z) (p : path) (name : pystr) : M bytes :=
  query (fun f => fs_held_getxattr follow f fd p name).
Definition held_listdir (fd : Z) (p : path) : M (list pystr) := query (fun f => fs_held_listdir f fd p).

(** [try: m except OSError: raise c(...)] *)
Definition os_error_as {A} (c : exn_class) (m : string) (body : M A) : M A :=
  mcatch body (fun e => if is_os_error (exn_cls e) then mraise c m else reraise e).

Definition held_opendir (fd : Z) (p : path) : M Z := query (fun f => fs_held_opendir f fd p).
Definition pread (fd size offset : Z) : M bytes := query (fun f => fs_pread f fd size offset).

(** Calls that change the tree. *)
Definition held_change (op : fs -> path -> res fs) (fd : Z) (p : path) : M unit :=
  change (fun f => let! q := held_path f fd p in op f q).
Definition held_mkdir (perm fd : Z) (p : path) : M unit :=
  held_change (fun f q => let! r := fs_create me KDir perm f q in Ok r.2) fd p.
Definition held_create (perm fd : Z) (p : path) : M Z :=
  syscall (fun f => let! q := held_path f fd p in fs_create me (KFile []) perm f q).
Definition held_unlink (fd : Z) (p : path) : M unit := held_change fs_unlink fd p.
Definition held_rmtree (fd : Z) (p : path) : M unit := held_change fs_rmtree fd p.
End held_calls.

