(* ===== verification/FsRules.v ===== *)
(** * Observations and frames

    Two ways to reason about programs of [Sys] on a machine where no other process
    runs but any system call may fail: what a program that only reads has seen when
    it returns ([observes]), and which names a program may change ([changes_only]). *)
From Stdlib Require Import ZArith Lia.
From Stdlib Require Import Init.Byte.
From stdpp Require Import base list sets strings option gmap.
From S2P Require Import Prelude PyStr PyVal Bytes Sys.

Open Scope string_scope.
Open Scope list_scope.
Open Scope Z_scope.

(** ** Programs that only read *)

(** [m] leaves [f] as it is; when it returns [a], [phi a] holds. *)
Definition observes {A} (f : fs) (m : M A) (phi : A -> Prop) : Prop :=
  triple (fun x => x = f) m (fun a x => x = f /\ phi a) (fun x => x = f).

Create HintDb reads.

Section observations.
Context `{machine} (Hquiet : quiet) (f : fs).

Lemma obs_ret {A} (a : A) (phi : A -> Prop) : phi a -> observes f (mret a) phi.
Proof. intros Hp. by apply triple_ret. Qed.

Lemma obs_raise {A} c m (phi : A -> Prop) : observes f (mraise c m) phi.
Proof. by apply triple_raise. Qed.

Lemma obs_reraise {A} e (phi : A -> Prop) : observes f (reraise e) phi.
Proof. by apply triple_reraise. Qed.

Lemma obs_lift {A} (r : res A) : observes f (lift r) (fun a => r = Ok a).
Proof. by apply triple_lift. Qed.

Lemma obs_raise_if b c m : observes f (mraise_if b c m) (fun _ => b = false).
Proof. intros w Hw. unfold mraise_if, lift, raise_if. by destruct b. Qed.

Lemma obs_query {A} (op : fs -> res A) : observes f (query op) (fun a => op f = Ok a).
Proof. apply triple_query; [done..|]. by intros f' a ->. Qed.

Lemma obs_bind {A B} (m : M A) (psi : A -> Prop) (k : A -> M B) phi :
  observes f m psi -> (forall a, psi a -> observes f (k a) phi) -> observes f (mbind m k) phi.
Proof.
  intros Hm Hk. eapply triple_bind; [apply Hm|]. intros a w [Hw Ha]. by apply (Hk a Ha).
Qed.

Lemma obs_conseq {A} (m : M A) (psi phi : A -> Prop) : observes f m psi -> (forall a, psi a -> phi a) -> observes f m phi.
Proof. intros Hm Hi. eapply triple_conseq; [apply Hm|done|naive_solver|done]. Qed.

Lemma obs_any {A} (m : M A) (psi : A -> Prop) : observes f m psi -> observes f m (fun _ => True).
Proof. intros Hm. by eapply obs_conseq. Qed.

Lemma obs_catch {A} (m : M A) h phi : observes f m phi -> (forall e, observes f (h e) phi) -> observes f (mcatch m h) phi.
Proof. intros Hm Hh. eapply triple_catch; [apply Hm|]. apply Hh. Qed.

Lemma obs_finally {A} (m : M A) last phi : observes f m phi -> observes f last (fun _ => True) -> observes f (mfinally m last) phi.
Proof.
  intros Hm Hl w Hw. specialize (Hm w Hw). unfold mfinally. destruct (m w) as [[a|e] w1].
  - destruct Hm as [H1 Ha]. specialize (Hl w1 H1). destruct (last w1) as [[u|e] w2]; naive_solver.
  - specialize (Hl w1 Hm). destruct (last w1) as [[u|e'] w2]; naive_solver.
Qed.

(** "Yes" is what was seen; "no" may also be an error. *)
Lemma obs_or_false (m : M bool) (phi : Prop) : observes f m (fun b => b = true -> phi) ->
  observes f (or_false m) (fun b => b = true -> phi).
Proof.
  intros Hm. apply obs_catch; [done|]. intros e. destruct (is_os_error _); [by apply obs_ret|apply obs_reraise].
Qed.

Lemma obs_for_each {S A} (I : list A -> S -> Prop) (g : S -> A -> M S) s l :
  I [] s ->
  (forall done x rest s, l = done ++ x :: rest -> I done s -> observes f (g s x) (I (done ++ [x]))) ->
  observes f (mfor_each g s l) (I l).
Proof.
  intros H0 Hg. assert (forall rest don s, l = don ++ rest -> I don s -> observes f (mfor_each g s rest) (I l)) as Hgo.
  { induction rest as [|x rest IH]; intros don s' Hl HI; simpl.
    - apply obs_ret. by rewrite Hl, app_nil_r.
    - eapply obs_bind; [by eapply Hg|]. intros s2 H2. apply (IH (don ++ [x])); [|done]. by rewrite <-app_assoc. }
  by apply (Hgo l []).
Qed.

(** A loop in [try]: where it was not stopped, its invariant holds of the whole list. *)
Lemma obs_for_until {S A} (I : list A -> S -> Prop) (g : S -> A -> M S) s l :
  (forall don x rest s, l = don ++ x :: rest -> I don s -> observes f (g s x) (I (don ++ [x]))) -> I [] s ->
  observes f (mfor_until g s l) (fun r => r.2 = None -> I l r.1).
Proof.
  intros Hg. assert (forall rest don s, l = don ++ rest -> I don s ->
    observes f (mfor_until g s rest) (fun r => r.2 = None -> I l r.1)) as Hgo; [|by apply (Hgo l [])].
  induction rest as [|x rest IH]; intros don s' Hl Hi; simpl; [by apply obs_ret; rewrite Hl, app_nil_r|].
  intros w Hw. specialize (Hg don x rest s' Hl Hi w Hw). destruct (g s' x w) as [[a|e] w']; [|done].
  destruct Hg as [Hf Ha]. apply (IH (don ++ [x])); [by rewrite <-app_assoc|done|done].
Qed.

Lemma obs_mmap {A B} (phi : A -> B -> Prop) (g : A -> M B) l :
  (forall x, x ∈ l -> observes f (g x) (phi x)) -> observes f (mmap g l) (Forall2 phi l).
Proof.
  induction l as [|x l IH]; intros Hg; simpl; [by apply obs_ret|].
  eapply obs_bind; [apply Hg; left|]. intros y Hy. eapply obs_bind; [apply IH; intros; apply Hg; by right|].
  intros ys Hys. apply obs_ret. by constructor.
Qed.

Lemma obs_while {S A} (turn : S -> M (S + A)) (I : S -> Prop) (phi : A -> Prop) s :
  (forall s, I s -> observes f (turn s) (fun r => match r with inl s' => I s' | inr a => phi a end)) -> I s ->
  observes f (mwhile turn s) phi.
Proof.
  intros Ht Hs. eapply triple_conseq; [apply (triple_mwhile turn (fun s x => x = f /\ I s) (fun a x => x = f /\ phi a) (fun x => x = f))|..].
  - intros s'. intros w [Hw Hi]. specialize (Ht s' Hi w Hw). destruct (turn s' w) as [[[|]|] w']; naive_solver.
  - naive_solver.
  - intros x ->. done.
  - done.
  - done.
Qed.

Lemma obs_lexists p : observes f (lexists p) (fun b => b = true -> exists s, fs_stat false f p = Ok s).
Proof.
  apply obs_or_false. eapply obs_bind; [by apply obs_query|]. intros s Hs. cbv beta in Hs. apply obs_ret. eauto.
Qed.

Lemma obs_exists p : observes f (exists_ p) (fun b => b = true -> exists s, fs_stat true f p = Ok s).
Proof.
  apply obs_or_false. eapply obs_bind; [by apply obs_query|]. intros s Hs. cbv beta in Hs. apply obs_ret. eauto.
Qed.

Lemma obs_is_symlink p :
  observes f (is_symlink p) (fun b => b = true -> exists s, fs_stat false f p = Ok s /\ s_islnk (st_mode s) = true).
Proof.
  apply obs_or_false. eapply obs_bind; [by apply obs_query|]. intros s Hs. cbv beta in Hs. apply obs_ret. eauto.
Qed.

Lemma obs_is_dir p :
  observes f (is_dir p) (fun b => b = true -> exists s, fs_stat true f p = Ok s /\ s_isdir (st_mode s) = true).
Proof.
  apply obs_or_false. eapply obs_bind; [by apply obs_query|]. intros s Hs. cbv beta in Hs. apply obs_ret. eauto.
Qed.

Lemma obs_read_bytes p :
  observes f (read_bytes p) (fun d => exists ino, fs_open false false f p = Ok ino /\ fs_read f ino = Ok d).
Proof.
  eapply obs_bind; [by apply obs_query|]. intros ino Ho. eapply obs_bind; [by apply obs_query|]. intros d Hd.
  eapply obs_bind; [by apply obs_query|]. intros _ _. cbv beta in *. apply obs_ret. eauto.
Qed.

(** The result of a program that only reads. *)
Lemma obs_run {A} (m : M A) phi w : observes f m phi -> w_fs w = f ->
  match m w with (Ok a, w') => w_fs w' = f /\ phi a | (Err _, w') => w_fs w' = f end.
Proof. intros Hm Hw. exact (Hm w Hw). Qed.

(** A program that only reads, in a state known up to a property. *)
Lemma obs_triple {A} (P : fs -> Prop) (m : M A) (phi : fs -> A -> Prop) :
  (forall f, P f -> observes f m (phi f)) -> triple P m (fun a f => P f /\ phi f a) P.
Proof.
  intros Hm w Hw. specialize (Hm _ Hw w eq_refl). destruct (m w) as [[a|e] w']; [|by rewrite Hm].
  destruct Hm as [-> Ha]. done.
Qed.
End observations.

#[export] Hint Resolve obs_ret obs_raise obs_reraise obs_lift obs_raise_if obs_query obs_lexists obs_exists
  obs_is_symlink obs_is_dir obs_read_bytes : reads.

(** One step of an observation: the head of a [let*]. *)
Ltac obs_step :=
  match goal with
  | |- observes _ (mbind _ _) _ => eapply obs_bind; [solve [eauto with reads]|intros ? ?; cbv beta in *]
  | |- observes _ (if ?b then _ else _) _ => let E := fresh "E" in destruct b eqn:E
  | |- observes _ (match ?v with _ => _ end) _ => destruct v eqn:?
  end.

(** A program of reading calls only leaves the file system alone. *)
Ltac reads_only :=
  repeat first
    [ apply obs_ret; exact I
    | apply obs_raise
    | apply obs_reraise
    | eapply obs_any; apply obs_query; assumption
    | eapply obs_any; apply obs_lift
    | eapply obs_any; apply obs_raise_if
    | match goal with
      | |- observes ?f (mbind _ _) _ => apply (obs_bind f _ (fun _ => True)); [|intros ? _]
      | |- observes ?f (mcatch _ _) _ => apply obs_catch; [|intros ?]
      | |- observes ?f (mfinally _ _) _ => apply obs_finally
      | |- observes ?f (mfor_each _ _ _) _ => apply (obs_for_each f (fun _ _ => True)); [exact I|intros ? ? ? ? _ _]
      | |- observes ?f (mwhile _ _) _ => apply (obs_while f _ (fun _ => True)); [intros ? _|exact I]
      | |- observes _ (if ?b then _ else _) _ => destruct b
      | |- observes _ (match ?v with _ => _ end) _ => destruct v
      end ].

(** What a reading program has seen, where that depends on a property of the state. *)
Lemma obs_when {A} (P : Prop) f (m : M A) (psi : A -> Prop) :
  observes f m (fun _ => True) -> (P -> observes f m psi) -> observes f m (fun a => P -> psi a).
Proof.
  intros Ht Hp w Hw. specialize (Ht w Hw). specialize (fun H => Hp H w Hw) as Hp'.
  destruct (m w) as [[a|e] w']; [|done]. split; [by apply Ht|]. intros H. by apply Hp'.
Qed.

(** ** What a regular file is *)

(** The path names, without a symbolic link at its end, a node. *)
Definition node_of (f : fs) (p : path) (ino : Z) (n : inode) : Prop :=
  exists loc, resolve f false p = Ok loc /\ node_at f loc = Some (ino, n).

Definition not_link (k : kind) : Prop := match k with KLink _ => False | _ => True end.

Lemma walk_nonlink f l1 l2 pre rest loc ino n :
  (forall a b, l1 a b = Ok loc -> l2 a b = Ok loc) ->
  node_at f loc = Some (ino, n) -> not_link (i_kind n) ->
  walk f false l1 pre rest = Ok loc -> walk f true l2 pre rest = Ok loc.
Proof.
  intros Hl Hn Hk. revert pre; induction rest as [|c t IH]; intros pre; cbn [walk]; [done|].
  destruct (node_at f pre) as [[i d]|]; [|done]. destruct (i_kind d); try done.
  destruct (mem c _); [apply IH|]. destruct (c =s _); [apply IH|].
  destruct (node_at f (pre ++ [c])) as [[j m]|] eqn:Hm; [|done].
  destruct (i_kind m) as [| |tg|] eqn:Hkm; try apply IH. rewrite andb_false_r, andb_true_r.
  case_bool_decide as Ht.
  - subst t. intros [= <-]. rewrite Hm in Hn. injection Hn as <- <-. by rewrite Hkm in Hk.
  - destruct (startswith _ _); apply Hl.
Qed.

Lemma resolve_nonlink f p loc ino n : resolve f false p = Ok loc -> node_at f loc = Some (ino, n) ->
  not_link (i_kind n) -> resolve f true p = Ok loc.
Proof.
  intros Hr Hn Hk. unfold resolve in *. revert Hr. generalize (S MAX_LINKS) as fuel. intros fuel.
  generalize (@nil pystr) as pre. revert p. induction fuel as [|fuel IH]; intros p pre; cbn [resolve_from]; [done|].
  apply (walk_nonlink f _ _ pre p loc ino n); [|done..]. intros a b. apply IH.
Qed.

Lemma stat_node f p s : fs_stat false f p = Ok s -> exists ino n, node_of f p ino n /\ s = stat_of ino n.
Proof.
  unfold fs_stat. intros Hs. inv_ok. destruct (node_at f _) as [[ino n]|] eqn:Hn; [|done]. inv_ok.
  exists ino, n. split; [|done]. by exists a.
Qed.

Lemma node_of_functional f p i n j m : node_of f p i n -> node_of f p j m -> i = j /\ n = m.
Proof. intros (l & Hl & Hn) (l' & Hl' & Hm). rewrite Hl in Hl'. injection Hl' as <-. rewrite Hn in Hm. by injection Hm. Qed.

(** Reading a path whose end is not a link reads that node. *)
Lemma open_node f p ino n fd : node_of f p ino n -> not_link (i_kind n) -> fs_open false false f p = Ok fd -> fd = ino.
Proof.
  intros (loc & Hr & Hn) Hk. unfold fs_open. simpl. rewrite (resolve_nonlink _ _ _ _ _ Hr Hn Hk). simpl. rewrite Hn.
  destruct (i_kind n); naive_solver.
Qed.

Lemma open_nofollow directory f p ino n fd : node_of f p ino n -> fs_open true directory f p = Ok fd -> fd = ino.
Proof.
  intros (loc & Hr & Hn). unfold fs_open. simpl. rewrite Hr. simpl. rewrite Hn. destruct (i_kind n), directory; naive_solver.
Qed.

Lemma s_isreg_kind ino n : s_isreg (st_mode (stat_of ino n)) = true ->
  exists d, i_kind n = KFile d.
Proof. unfold s_isreg. rewrite s_ifmt_stat. destruct (i_kind n) as [|d| |[]]; try done. eauto. Qed.

Lemma s_isdir_kind ino n : s_isdir (st_mode (stat_of ino n)) = true -> i_kind n = KDir.
Proof. unfold s_isdir. rewrite s_ifmt_stat. by destruct (i_kind n) as [| | |[]]. Qed.

Lemma s_islnk_kind ino n : s_islnk (st_mode (stat_of ino n)) = true -> exists t, i_kind n = KLink t.
Proof. unfold s_islnk. rewrite s_ifmt_stat. destruct (i_kind n) as [| |t|[]]; try done. eauto. Qed.

Lemma node_at_nodes f loc ino n : node_at f loc = Some (ino, n) -> names f !! loc = Some ino /\ nodes f !! ino = Some n.
Proof.
  unfold node_at. destruct (names f !! loc) as [i|]; [|done]. destruct (nodes f !! i) eqn:E; [|done]. by intros [= -> ->].
Qed.

Lemma read_regular f p ino n fd d : node_of f p ino n -> s_isreg (st_mode (stat_of ino n)) = true ->
  fs_open false false f p = Ok fd -> fs_read f fd = Ok d -> i_kind n = KFile d.
Proof.
  intros Hn Hreg Ho Hread. apply s_isreg_kind in Hreg as [d0 Hreg].
  assert (fd = ino) as -> by (eapply open_node; [done| |done]; by rewrite Hreg).
  destruct Hn as (loc & _ & Hn). apply node_at_nodes in Hn as [_ Hn]. unfold fs_read in Hread. rewrite Hn in Hread.
  destruct (i_kind n); naive_solver.
Qed.

(** ** What a program may change *)

(** A file as it was, up to its link count and the time that changed. *)
Definition same_file (n n' : inode) : Prop :=
  i_kind n' = i_kind n /\ i_perm n' = i_perm n /\ i_uid n' = i_uid n /\ i_gid n' = i_gid n /\ i_dev n' = i_dev n /\
  i_mtime n' = i_mtime n /\ i_xattrs n' = i_xattrs n.

(** Inode numbers are allocated in order. *)
Definition fresh_ok (f : fs) : Prop := forall ino n, nodes f !! ino = Some n -> ino < fresh f.

(** Only names in [S] change; every file keeps its content, and directories stay. *)
Record changes_only (S : path -> Prop) (f f' : fs) : Prop := {
  co_names : forall k, ~ S k -> names f' !! k = names f !! k;
  co_nodes : forall ino n, nodes f !! ino = Some n -> exists n', nodes f' !! ino = Some n' /\ same_file n n';
  co_dirs : forall k, is_dir_at f k = true -> is_dir_at f' k = true;
  co_fresh : fresh_ok f' }.

(** A symbolic link with this target, at this name. *)
Definition linked (f : fs) (p : path) (target : pystr) : Prop :=
  exists ino n, node_at f p = Some (ino, n) /\ i_kind n = KLink target.

Lemma same_file_refl n : same_file n n.
Proof. done. Qed.

Lemma same_file_trans a b c : same_file a b -> same_file b c -> same_file a c.
Proof. unfold same_file. intuition congruence. Qed.

Lemma changes_only_refl S f : fresh_ok f -> changes_only S f f.
Proof. intros Hf. constructor; eauto using same_file_refl. Qed.

Lemma changes_only_trans S f g h : changes_only S f g -> changes_only S g h -> changes_only S f h.
Proof.
  intros [Hn Hi Hd _] [Hn' Hi' Hd' Hf]. constructor; [|..|done].
  - intros k Hk. by rewrite Hn', Hn.
  - intros ino n H. destruct (Hi _ _ H) as (n1 & H1 & S1). destruct (Hi' _ _ H1) as (n2 & H2 & S2).
    exists n2. split; [done|]. by eapply same_file_trans.
  - auto.
Qed.

Lemma changes_only_mono (S S' : path -> Prop) f g : (forall k, S k -> S' k) -> changes_only S f g -> changes_only S' f g.
Proof. intros Hs [Hn Hi Hd Hf]. constructor; [|done..]. intros k Hk. apply Hn. auto. Qed.

Lemma changes_only_linked S f g p t : changes_only S f g -> ~ S p -> linked f p t -> linked g p t.
Proof.
  intros [Hn Hi _ _] Hp (ino & n & Ha & Hk). apply node_at_nodes in Ha as [Hna Hno].
  destruct (Hi _ _ Hno) as (n' & Hn' & Hs). exists ino, n'. unfold node_at. rewrite (Hn _ Hp), Hna, Hn'.
  split; [done|]. destruct Hs as [-> _]. done.
Qed.

Lemma changes_only_real S f g d : changes_only S f g -> real_dir f d -> real_dir g d.
Proof. intros Hc Hr q Hq. apply (co_dirs _ _ _ Hc). by apply Hr. Qed.

Lemma changes_only_node S f g ino n : changes_only S f g -> nodes f !! ino = Some n -> exists n', nodes g !! ino = Some n' /\ same_file n n'.
Proof. intros Hc. apply (co_nodes _ _ _ Hc). Qed.

Lemma is_dir_kind f k : is_dir_at f k = true <-> exists ino n, node_at f k = Some (ino, n) /\ i_kind n = KDir.
Proof.
  unfold is_dir_at. split.
  - destruct (node_at f k) as [[i n]|]; [|done]. destruct (i_kind n) eqn:Hk; try done. eauto.
  - intros (i & n & -> & ->). done.
Qed.

(** How [changes_only] is established for one operation: names other than [p] stay,
    nodes are kept, and what was at [p] was not a directory. *)
Lemma changes_only_at p f f' :
  (forall k, k <> p -> names f' !! k = names f !! k) ->
  (forall ino n, nodes f !! ino = Some n -> exists n', nodes f' !! ino = Some n' /\ same_file n n') ->
  is_dir_at f p = false -> fresh_ok f' -> changes_only (fun k => k = p) f f'.
Proof.
  intros Hn Hi Hp Hf. constructor; [done|done| |done]. intros k Hk. apply is_dir_kind in Hk as (ino & n & Hk & Hd).
  assert (k <> p) as Hkp by (intros ->; unfold is_dir_at in Hp; rewrite Hk, Hd in Hp; done).
  apply node_at_nodes in Hk as [Hk Hno]. destruct (Hi _ _ Hno) as (n' & Hn' & Hs).
  apply is_dir_kind. exists ino, n'. unfold node_at. rewrite (Hn _ Hkp), Hk, Hn'. split; [done|]. destruct Hs as [-> _]. done.
Qed.

Lemma touch_names d ino f : names (touch_nlink d ino f) = names f.
Proof. unfold touch_nlink. by destruct (nodes f !! ino). Qed.

Lemma touch_fresh d ino f : fresh (touch_nlink d ino f) = fresh f.
Proof. unfold touch_nlink. by destruct (nodes f !! ino). Qed.

Lemma touch_nodes d ino f i n : nodes f !! i = Some n -> exists n', nodes (touch_nlink d ino f) !! i = Some n' /\ same_file n n'.
Proof.
  unfold touch_nlink. intros Hi. destruct (nodes f !! ino) as [m|] eqn:Hm; [|by exists n].
  simpl. destruct (decide (i = ino)) as [->|Hne].
  - rewrite lookup_insert_eq. eexists. split; [done|]. by simplify_eq.
  - rewrite lookup_insert_ne by done. by exists n.
Qed.

Lemma touch_fresh_ok d ino f : fresh_ok f -> fresh_ok (touch_nlink d ino f).
Proof.
  intros Hf i n. rewrite touch_fresh. unfold touch_nlink. destruct (nodes f !! ino) as [m|] eqn:Hm; [|apply Hf].
  simpl. destruct (decide (i = ino)) as [->|Hne]; [intros _; by eapply Hf|]. rewrite lookup_insert_ne by done. apply Hf.
Qed.

Lemma create_changes u k perm f p loc ino f' : fresh_ok f -> locate f p = Ok loc -> fs_create u k perm f p = Ok (ino, f') ->
  changes_only (fun x => x = loc) f f' /\ exists n, node_at f' loc = Some (ino, n) /\ i_kind n = k.
Proof.
  intros Hf Hl. unfold fs_create. rewrite Hl. simpl. destruct (node_at f loc) eqn:Hn; [done|]. intros [= <- <-].
  assert (nodes f !! fresh f = None) as Hfresh.
  { destruct (nodes f !! fresh f) eqn:E; [|done]. apply Hf in E. lia. }
  split.
  - apply changes_only_at; simpl.
    + intros x Hx. by rewrite lookup_insert_ne.
    + intros i n Hi. exists n. rewrite lookup_insert_ne by congruence. done.
    + unfold is_dir_at. by rewrite Hn.
    + intros i n. simpl. destruct (decide (i = fresh f)) as [->|Hne]; [lia|]. rewrite lookup_insert_ne by done.
      intros Hi. apply Hf in Hi. lia.
  - unfold node_at. simpl. rewrite !lookup_insert_eq. eexists. split; [done|]. done.
Qed.

Lemma unlink_changes f p loc f' : fresh_ok f -> locate f p = Ok loc -> fs_unlink f p = Ok f' ->
  changes_only (fun x => x = loc) f f' /\ names f' !! loc = None.
Proof.
  intros Hf Hl. unfold fs_unlink. rewrite Hl. simpl. destruct (node_at f loc) as [[ino n]|] eqn:Hn; [|done].
  assert (i_kind n <> KDir -> changes_only (fun x => x = loc) f (tick (touch_nlink (-1) ino (del_name loc f)))
          /\ names (tick (touch_nlink (-1) ino (del_name loc f))) !! loc = None) as Hgo.
  { intros Hk. split.
    - apply changes_only_at; simpl.
      + intros x Hx. rewrite touch_names. simpl. by rewrite lookup_delete_ne.
      + intros i m Hi. by apply touch_nodes.
      + unfold is_dir_at. rewrite Hn. by destruct (i_kind n).
      + by apply (touch_fresh_ok (-1) ino (del_name loc f)).
    - simpl. rewrite touch_names. simpl. by rewrite lookup_delete_eq. }
  destruct (i_kind n); [done|..]; intros [= <-]; by apply Hgo.
Qed.

(** Moving a file or a link. *)
Lemma rename_changes f a b la lb ino n f' : fresh_ok f -> locate f a = Ok la -> locate f b = Ok lb ->
  node_at f la = Some (ino, n) -> i_kind n <> KDir -> fs_rename false f a b = Ok f' ->
  changes_only (fun x => x = la \/ x = lb) f f' /\
  exists n', node_at f' lb = Some (ino, n') /\ same_file n n'.
Proof.
  intros Hf Ha Hb Hn Hk. unfold fs_rename. rewrite Ha. simpl. rewrite Hb. simpl. rewrite Hn.
  pose proof (node_at_nodes _ _ _ _ Hn) as [Hna Hno].
  assert (forall g, (forall i m, nodes f !! i = Some m -> exists m', nodes g !! i = Some m' /\ same_file m m') ->
    names g = <[lb := ino]> (delete la (names f)) -> fresh_ok g -> is_dir_at f lb = false ->
    changes_only (fun x => x = la \/ x = lb) f (tick g) /\
    exists n', node_at (tick g) lb = Some (ino, n') /\ same_file n n') as Hgo.
  { intros g Hi Hg Hfg Hlb. split.
    - eapply changes_only_trans.
      + eapply (changes_only_mono (fun x => x = la)); [tauto|]. apply (changes_only_at la f (del_name la f)); simpl.
        * intros x Hx. by rewrite lookup_delete_ne.
        * intros i m Hm. exists m. by split; [|apply same_file_refl].
        * unfold is_dir_at. rewrite Hn. by destruct (i_kind n).
        * done.
      + eapply (changes_only_mono (fun x => x = lb)); [tauto|]. apply changes_only_at; simpl.
        * intros x Hx. rewrite Hg. by rewrite lookup_insert_ne.
        * done.
        * unfold is_dir_at, node_at in *. simpl. destruct (decide (lb = la)) as [->|Hne]; [by rewrite lookup_delete_eq|].
          by rewrite lookup_delete_ne.
        * done.
    - destruct (Hi _ _ Hno) as (n' & Hn' & Hs). exists n'. unfold node_at. simpl. rewrite Hg, lookup_insert_eq, Hn'. done. }
  destruct (node_at f lb) as [[j m]|] eqn:Hm.
  - destruct (Z.eqb_spec ino j) as [->|Hne].
    + intros [= <-]. split; [by apply changes_only_refl|]. apply node_at_nodes in Hm as [Hm1 Hm2].
      exists m. unfold node_at. rewrite Hm1, Hm2. split; [done|]. simplify_eq. apply same_file_refl.
    + assert (i_kind m <> KDir ->
        changes_only (fun x => x = la \/ x = lb) f (tick (touch_nlink (-1) j (set_name lb ino (del_name la f)))) /\
        exists n', node_at (tick (touch_nlink (-1) j (set_name lb ino (del_name la f)))) lb = Some (ino, n') /\ same_file n n').
      { intros Hmk. apply Hgo.
        - intros i x Hx. by apply touch_nodes.
        - by rewrite touch_names.
        - by apply touch_fresh_ok.
        - unfold is_dir_at. rewrite Hm. by destruct (i_kind m). }
      destruct (i_kind n); try done; destruct (i_kind m); try done; intros [= <-]; auto.
  - assert (changes_only (fun x => x = la \/ x = lb) f (tick (set_name lb ino (del_name la f))) /\
        exists n', node_at (tick (set_name lb ino (del_name la f))) lb = Some (ino, n') /\ same_file n n').
    { apply Hgo; [|done|done|]. intros i x Hx. exists x. by split; [|apply same_file_refl]. unfold is_dir_at. by rewrite Hm. }
    destruct (i_kind n); try done; intros [= <-]; auto.
Qed.

(** ** Directories that exist *)

Definition plain_path (p : path) : Prop := Forall (fun c => plain_name c = true) p.

Lemma plain_app p q : plain_path (p ++ q) <-> plain_path p /\ plain_path q.
Proof. apply Forall_app. Qed.

Lemma plain_prefix p q : p `prefix_of` q -> plain_path q -> plain_path p.
Proof. intros [r ->] Hp. by apply plain_app in Hp as [? _]. Qed.

Lemma real_prefix f p q : p `prefix_of` q -> real_dir f q -> real_dir f p.
Proof. intros Hp Hq r Hr. apply Hq. by etrans. Qed.

Lemma real_snoc f d c : real_dir f d -> is_dir_at f (d ++ [c]) = true -> real_dir f (d ++ [c]).
Proof.
  intros Hd Hc q [r Hr]. destruct r as [|x r _] using rev_ind.
  - rewrite app_nil_r in Hr. by subst q.
  - rewrite app_assoc in Hr. apply app_inj_tail in Hr as [-> _]. apply Hd. by exists r.
Qed.

Lemma locate_self f p : plain_path p -> real_dir f p -> locate f p = Ok p.
Proof.
  intros Hp Hr. destruct p as [|c q _] using rev_ind; [done|]. apply plain_app in Hp as [Hq Hc].
  apply Forall_cons_iff in Hc as [Hc _]. apply locate_real; [done|done|]. eapply real_prefix; [|done]. by eexists.
Qed.

Lemma locate_child f d c : plain_path (d ++ [c]) -> real_dir f d -> locate f (d ++ [c]) = Ok (d ++ [c]).
Proof. intros [Hd Hc]%plain_app Hr. apply Forall_cons_iff in Hc as [Hc _]. by apply locate_real. Qed.

Lemma resolve_child f d c : plain_path (d ++ [c]) -> real_dir f d -> resolve f false (d ++ [c]) = Ok (d ++ [c]).
Proof. intros [Hd Hc]%plain_app Hr. apply Forall_cons_iff in Hc as [Hc _]. by apply resolve_real. Qed.

Section existing.
Context `{machine} (Hquiet : quiet) (f : fs).

Lemma obs_refused op (phi : unit -> Prop) : (forall f', op f <> Ok f') -> observes f (change op) phi.
Proof. intros Ho. apply (triple_change Hquiet); [done|]. intros x f' -> Hx. by destruct (Ho f'). Qed.

Lemma mkdir_refused perm p f' : plain_path p -> real_dir f p ->
  (let! r := fs_create me KDir perm f p in Ok r.2) <> Ok f'.
Proof.
  intros Hp Hr. unfold fs_create. rewrite locate_self by done. simpl. specialize (Hr p). unfold is_dir_at in Hr.
  destruct (node_at f p) as [[]|]; [done|]. discriminate Hr. by exists []; rewrite app_nil_r.
Qed.

Lemma obs_mkdir_exist_ok perm p : plain_path p -> real_dir f p -> observes f (mkdir_exist_ok perm p) (fun _ => True).
Proof.
  intros Hp Hr. apply obs_catch; [apply obs_refused; intros; by apply mkdir_refused|]. intros e.
  case_match; [|apply obs_reraise]. eapply obs_bind; [by apply obs_is_dir|]. intros [] _; [by apply obs_ret|apply obs_reraise].
Qed.

Lemma obs_mkdir_parents perm rp : plain_path (rev rp) -> real_dir f (rev rp) ->
  observes f (mkdir_parents perm rp) (fun _ => True).
Proof.
  revert perm; induction rp as [|c rp IH]; intros perm Hp Hr; cbn [mkdir_parents];
    (apply obs_catch; [by apply obs_mkdir_exist_ok|]); intros e; case_bool_decide; try apply obs_reraise.
  eapply obs_bind; [apply IH|].
  - simpl in Hp. by apply plain_app in Hp as [? _].
  - simpl in Hr. eapply real_prefix; [|done]. by eexists.
  - intros ? _. by apply obs_mkdir_exist_ok.
Qed.
End existing.

(** ** Directories made on the way

    A path on which no symbolic link and no file stands: every prefix is a directory or
    does not exist. *)
Definition clear_at (f : fs) (q : path) : Prop := is_dir_at f q = true \/ names f !! q = None.
Definition way (f : fs) (p : path) : Prop := forall q, q `prefix_of` p -> clear_at f q.

Lemma real_way f p : real_dir f p -> way f p.
Proof. intros Hr q Hq. left. by apply Hr. Qed.

Lemma way_prefix f p q : p `prefix_of` q -> way f q -> way f p.
Proof. intros Hp Hw r Hr. apply Hw. by etrans. Qed.

Lemma prefix_snoc_cases {A} (q p : list A) c : q `prefix_of` p ++ [c] -> q `prefix_of` p \/ q = p ++ [c].
Proof.
  intros [r Hr]. destruct r as [|x r _] using rev_ind; [rewrite app_nil_r in Hr; by right|left].
  rewrite app_assoc in Hr. apply app_inj_tail in Hr as [-> _]. by exists r.
Qed.

(** Walking such a path reaches exactly the path, and all of it but its end exists. *)
Lemma walk_way f follow links pre rest loc : plain_path rest ->
  (forall q, q `prefix_of` pre ++ rest -> (q <> pre ++ rest \/ follow = true) -> clear_at f q) ->
  (forall q, q `prefix_of` pre -> q <> pre -> is_dir_at f q = true) ->
  walk f follow links pre rest = Ok loc ->
  loc = pre ++ rest /\ forall q, q `prefix_of` pre ++ rest -> q <> pre ++ rest -> is_dir_at f q = true.
Proof.
  revert pre; induction rest as [|c t IH]; intros pre Hp Hw Hs Hr; cbn [walk] in Hr.
  { injection Hr as <-. rewrite app_nil_r. done. }
  apply Forall_cons_iff in Hp as [Hc Hp]. destruct (node_at f pre) as [[i n]|] eqn:Hn; [|done].
  destruct (i_kind n) eqn:Hk; try done.
  assert (is_dir_at f pre = true) as Hd by (unfold is_dir_at; by rewrite Hn, Hk).
  assert (forall q, q `prefix_of` pre -> is_dir_at f q = true) as Hpre.
  { intros q Hq. destruct (decide (q = pre)) as [->|Hne]; [done|auto]. }
  unfold plain_name in Hc. bool_prop. apply mem_not_elem in Hc.
  assert (mem c (strs [""; "."]) = false) as Hdot by (apply mem_not_elem; set_solver). rewrite Hdot in Hr.
  assert (c =s str ".." = false) as Hup by (apply str_eqb_neq; set_solver). rewrite Hup in Hr.
  assert (forall q, q `prefix_of` pre ++ [c] -> q <> pre ++ [c] -> is_dir_at f q = true) as Hs'.
  { intros q Hq%prefix_snoc_cases Hne. destruct Hq as [Hq| ->]; [auto|done]. }
  replace (pre ++ c :: t) with ((pre ++ [c]) ++ t) in * by (by rewrite <-app_assoc).
  destruct (node_at f (pre ++ [c])) as [[j m]|] eqn:Hm.
  - assert (clear_at f (pre ++ [c]) -> i_kind m = KDir) as Hdir.
    { intros [Hx|Hx]; [unfold is_dir_at in Hx; rewrite Hm in Hx; by destruct (i_kind m)|].
      unfold node_at in Hm. by rewrite Hx in Hm. }
    destruct (decide (t = [])) as [->|Ht].
    + rewrite app_nil_r in *. destruct (i_kind m) eqn:Hkm; try (cbn [walk] in Hr; injection Hr as <-; done).
      destruct follow; [|by injection Hr as <-]. discriminate Hdir. apply Hw; [done|by right].
    + rewrite Hdir in Hr; [by apply (IH (pre ++ [c])) in Hr|]. apply Hw; [by exists t|]. left. intros He.
      apply (f_equal length) in He. rewrite (length_app _ t) in He. destruct t; simpl in He; [done|lia].
  - destruct t; [|done]. injection Hr as <-. by rewrite app_nil_r.
Qed.

Lemma resolve_way f follow p loc : plain_path p ->
  (forall q, q `prefix_of` p -> (q <> p \/ follow = true) -> clear_at f q) -> resolve f follow p = Ok loc ->
  loc = p /\ forall q, q `prefix_of` p -> q <> p -> is_dir_at f q = true.
Proof.
  intros Hp Hw Hr. unfold resolve in Hr. cbn [resolve_from] in Hr.
  apply (walk_way f follow _ [] p loc) in Hr; [done|done|done|]. by intros q ->%prefix_nil_inv.
Qed.

Lemma resolve_below f d c loc : plain_path (d ++ [c]) -> way f d -> resolve f false (d ++ [c]) = Ok loc ->
  loc = d ++ [c] /\ real_dir f d.
Proof.
  intros Hp Hw Hr. apply resolve_way in Hr as [-> Hd]; [|done|].
  - split; [done|]. intros q Hq. apply Hd; [by apply prefix_app_r|]. intros ->. apply prefix_length in Hq.
    rewrite length_app in Hq. simpl in Hq. lia.
  - intros q Hq%prefix_snoc_cases [Hne|?]; [|done]. destruct Hq as [Hq| ->]; [by apply Hw|done].
Qed.

Lemma locate_below f d c loc : plain_path (d ++ [c]) -> way f d -> locate f (d ++ [c]) = Ok loc ->
  loc = d ++ [c] /\ real_dir f d.
Proof.
  intros Hp Hw. unfold locate. destruct (resolve f false (d ++ [c])) as [l|] eqn:Hr; [|done].
  apply resolve_below in Hr as [-> Hd]; [|done|done]. simpl. destruct (d ++ [c]); [intros [= <-]; done|].
  case_match; [|by case_match]. by intros [= <-].
Qed.

Lemma locate_way f p loc : plain_path p -> way f p -> locate f p = Ok loc ->
  loc = p /\ forall q, q `prefix_of` p -> q <> p -> is_dir_at f q = true.
Proof.
  intros Hp Hw. unfold locate. destruct (resolve f false p) as [l|] eqn:Hr; [|done].
  apply resolve_way in Hr as [-> Hd]; [|done|intros q Hq _; by apply Hw]. simpl. destruct p; [by intros [= <-]|].
  case_match; [|by case_match]. by intros [= <-].
Qed.

(** What making [p] with its parents did so far: only missing prefixes of it can have
    appeared, and what appeared are directories. *)
Record grown (p : path) (f g : fs) : Prop := {
  gr_changes : changes_only (fun k => k `prefix_of` p /\ names f !! k = None) f g;
  gr_dirs : forall q, is_dir_at g q = true \/ names g !! q = names f !! q }.

Lemma grown_refl p f : fresh_ok f -> grown p f f.
Proof. intros Hf. split; [by apply changes_only_refl|by right]. Qed.

Lemma grown_trans p q f g h : q `prefix_of` p -> grown q f g -> grown p g h -> grown p f h.
Proof.
  intros Hq [Hc Hd] [Hc' Hd']. split.
  - eapply changes_only_trans; [eapply changes_only_mono; [|exact Hc]; intros k [Hk Hn]; split; [by etrans|done]|].
    constructor; [|apply Hc'..]. intros k Hk. destruct (names g !! k) eqn:Hg.
    + rewrite (co_names _ _ _ Hc'); [done|]. intros [_ Hn]. congruence.
    + destruct (names f !! k) eqn:Hf.
      * exfalso. rewrite (co_names _ _ _ Hc) in Hg; [congruence|]. intros [_ Hn]. congruence.
      * rewrite (co_names _ _ _ Hc'); [done|]. intros [Hp _]. by apply Hk.
  - intros k. destruct (Hd' k) as [?| ->]; [by left|]. destruct (Hd k) as [Hx|]; [|by right].
    left. by apply (co_dirs _ _ _ Hc').
Qed.

Lemma grown_way p q f g : grown p f g -> way f q -> way g q.
Proof.
  intros [Hc Hd] Hw k Hk. destruct (Hd k) as [?|He]; [by left|]. unfold clear_at.
  destruct (Hw k Hk) as [Hx|Hx]; [left; by apply (co_dirs _ _ _ Hc)|right]. congruence.
Qed.

Lemma grown_linked p f g q t : grown p f g -> linked f q t -> linked g q t.
Proof.
  intros [Hc _] Hl. eapply changes_only_linked; [exact Hc| |exact Hl]. intros [_ Hn].
  destruct Hl as (i & n & Hn' & _). unfold node_at in Hn'. by rewrite Hn in Hn'.
Qed.

Section made.
Context `{machine} (Hquiet : quiet).

Lemma mkdir_exist_ok_triple f perm p : fresh_ok f -> plain_path p -> way f p ->
  triple (fun x => x = f) (mkdir_exist_ok perm p) (fun _ g => grown p f g /\ real_dir g p) (fun g => g = f).
Proof.
  intros Hf Hp Hw. eapply (triple_catch _ _ _ _ (fun g => g = f)).
  - apply (triple_change Hquiet); [done|]. intros x f' -> Hm. inv_ok. rename E into Hcr. destruct a as [ino g].
    destruct (locate f p) as [loc|] eqn:Hl; [|unfold fs_create in Hcr; by rewrite Hl in Hcr].
    destruct (locate_way _ _ _ Hp Hw Hl) as [-> Hd].
    destruct (create_changes _ _ _ _ _ _ _ _ Hf Hl Hcr) as (Hc & n & Hn & Hk).
    assert (is_dir_at g p = true) as Hg by (unfold is_dir_at; by rewrite Hn, Hk).
    assert (names f !! p = None) as Hnone.
    { destruct (Hw p (reflexivity p)) as [Hx|Hx]; [|exact Hx]. unfold fs_create in Hcr. rewrite Hl in Hcr. simpl in Hcr.
      apply is_dir_kind in Hx as (i & m & Hm' & _). by rewrite Hm' in Hcr. }
    split; [split|].
    + eapply changes_only_mono; [|exact Hc]. by intros k ->.
    + intros q. destruct (decide (q = p)) as [->|Hne]; [by left|right]. by apply (co_names _ _ _ Hc).
    + intros q Hq. destruct (decide (q = p)) as [->|Hne]; [done|]. apply (co_dirs _ _ _ Hc). auto.
  - intros e. case_match; [|by apply triple_reraise].
    eapply (triple_bind _ _ (fun b x => x = f /\ (b = true -> real_dir f p))).
    + eapply triple_conseq; [apply (obs_is_dir Hquiet f)|done| |done]. intros b x [-> Hb]. split; [done|]. intros Ht.
      destruct (Hb Ht) as (st & Hs & Hd). unfold fs_stat in Hs.
      destruct (resolve f true p) as [loc|] eqn:Hl; [|done].
      apply resolve_way in Hl as [-> Hq]; [|done|intros q Hq' _; by apply Hw].
      destruct (node_at f p) as [[ino n]|] eqn:Hn; [|done]. injection Hs as <-.
      intros q Hpre. destruct (decide (q = p)) as [->|Hne]; [|auto]. unfold is_dir_at. rewrite Hn.
      by rewrite (s_isdir_kind _ _ Hd).
    + intros b. apply triple_pre. intros x [-> Hb]. destruct b; [|by apply triple_reraise].
      apply triple_ret. intros g ->. split; [by apply grown_refl|auto].
Qed.

Lemma mkdir_parents_triple f perm rp : fresh_ok f -> plain_path (rev rp) -> way f (rev rp) ->
  triple (fun x => x = f) (mkdir_parents perm rp) (fun _ g => grown (rev rp) f g /\ real_dir g (rev rp))
    (grown (rev rp) f).
Proof.
  revert perm f; induction rp as [|c rp IH]; intros perm f Hf Hp Hw; cbn [mkdir_parents];
    (eapply (triple_catch _ _ _ _ (fun g => g = f)); [by apply mkdir_exist_ok_triple|]);
    intros e; (case_bool_decide; [|apply triple_reraise; intros g ->; by apply grown_refl]).
  - apply triple_reraise. intros g ->. by apply grown_refl.
  - simpl in Hp, Hw |- *. assert (rev rp `prefix_of` rev rp ++ [c]) as Hpre by (by exists [c]).
    assert (forall g h, grown (rev rp) f g -> grown (rev rp ++ [c]) g h -> grown (rev rp ++ [c]) f h) as Htr
      by (intros g h; by apply grown_trans).
    eapply triple_bind.
    + eapply triple_conseq; [apply (IH 0x1FF f Hf)|done| |].
      * by eapply plain_prefix.
      * by eapply way_prefix.
      * intros ? g Hg. exact Hg.
      * intros g Hg. eapply Htr; [exact Hg|apply grown_refl, (co_fresh _ _ _ (gr_changes _ _ _ Hg))].
    + intros ?. apply triple_pre. intros g [Hg _]. pose proof (co_fresh _ _ _ (gr_changes _ _ _ Hg)) as Hfg.
      eapply triple_conseq; [apply (mkdir_exist_ok_triple g perm (rev rp ++ [c]) Hfg Hp); by eapply grown_way|done| |].
      * intros ? h [Hh Hr]. split; [by eapply Htr|done].
      * intros h ->. eapply Htr; [exact Hg|by apply grown_refl].
Qed.
End made.

(** ** Loops and frames *)

Lemma triple_for_each_done {S A} (I : list A -> S -> fs -> Prop) (g : S -> A -> M S) s l E :
  (forall don x rest s, l = don ++ x :: rest -> triple (I don s) (g s x) (I (don ++ [x])) E) ->
  triple (I [] s) (mfor_each g s l) (I l) E.
Proof.
  intros Hg. assert (forall rest don s, l = don ++ rest -> triple (I don s) (mfor_each g s rest) (I l) E) as Hgo.
  { induction rest as [|x rest IH]; intros don s' Hl; simpl.
    - apply triple_ret. by rewrite Hl, app_nil_r.
    - eapply triple_bind; [by eapply Hg|]. intros s2. apply IH. by rewrite <-app_assoc. }
  by apply (Hgo l []).
Qed.

(** A program that keeps to [S] from wherever it starts, after others that did. *)
Lemma triple_frame {A} (S : path -> Prop) f1 (P : fs -> Prop) (m : M A) (phi : A -> fs -> Prop) :
  (forall f, changes_only S f1 f -> P f ->
     triple (fun x => x = f) m (fun a g => changes_only S f g /\ phi a g) (changes_only S f)) ->
  triple (fun f => changes_only S f1 f /\ P f) m (fun a g => changes_only S f1 g /\ phi a g) (changes_only S f1).
Proof.
  intros Hm. apply triple_pre. intros f [Hf HP]. eapply triple_conseq; [by apply (Hm f)|done|..].
  - intros a g [Hg Hphi]. split; [by eapply changes_only_trans|done].
  - intros g Hg. by eapply changes_only_trans.
Qed.

Lemma obs_frame {A} (S : path -> Prop) f1 (P : fs -> Prop) (m : M A) (phi : fs -> A -> Prop) :
  (forall f, P f -> observes f m (phi f)) ->
  triple (fun f => changes_only S f1 f /\ P f) m (fun a f => (changes_only S f1 f /\ P f) /\ phi f a) (changes_only S f1).
Proof.
  intros Hm w [Hw HP]. specialize (Hm _ HP w eq_refl). destruct (m w) as [[a|e] w']; [|by rewrite Hm].
  destruct Hm as [-> Ha]. done.
Qed.

Lemma obs_keep {A} (S : path -> Prop) f1 (P : fs -> Prop) (m : M A) : (forall f, observes f m (fun _ => True)) ->
  triple (fun f => changes_only S f1 f /\ P f) m (fun _ f => changes_only S f1 f /\ P f) (changes_only S f1).
Proof.
  intros Hm. eapply triple_conseq; [apply (obs_frame S f1 P m (fun _ _ => True)); auto|done|naive_solver|done].
Qed.

(** ** Concrete file systems *)

(** The machine of a user, where nothing else runs and only the calls in [faults]
    fail. *)
Definition lone_machine (u : user) (faults : list nat) : machine :=
  Machine (fun _ f => f) (fun n => if bool_decide (n ∈ faults) then Some (Exn OSError "Input/output error") else None) u 77.

Definition superuser : user := User 0 0 0x12.

Definition empty_fs : fs := FS {[ [] := 1 ]} {[ 1 := Inode KDir 0x1ED 0 0 1 2 0 0 [] ]} 2 0.

Definition plant (p : path) (k : kind) (perm : Z) (f : fs) : fs :=
  tick (set_name p (fresh f) (FS (names f) (<[fresh f := Inode k perm 0 0 1 1 0 0 []]> (nodes f)) (fresh f + 1) (now f))).
Fixpoint plant_dirs (pre rest : path) (f : fs) : fs :=
  match rest with
  | [] => f
  | c :: t => let p := pre ++ [c] in
              plant_dirs p t (match names f !! p with Some _ => f | None => plant p KDir 0x1ED f end)
  end.
Definition plant_file (f : fs) (pd : path * bytes) : fs :=
  plant pd.1 (KFile pd.2) 0x1A4 (plant_dirs [] (removelast pd.1) f).

(** Decision procedures for the well-formedness of a concrete file system. *)
Definition fresh_okb (f : fs) : bool := forallb (fun kv => kv.1 <? fresh f) (map_to_list (nodes f)).

Lemma fresh_okb_ok f : fresh_okb f = true -> fresh_ok f.
Proof.
  unfold fresh_okb. rewrite forallb_forall. intros Hf ino n Hn. apply elem_of_map_to_list, list_elem_of_In in Hn.
  apply Hf in Hn. simpl in Hn. lia.
Qed.

Lemma lone_quiet u l : @quiet (lone_machine u l).
Proof. done. Qed.
