(* ===== verification/RealPath.v ===== *)
(** * [os.path.realpath]

    Python resolves a path one component at a time, with a system call for each, and
    remembers where the links it met lead.  [leads] is the specification: following the
    links of a path, component by component, leads to a location.  In strict mode a missing
    component is an error, and the result is the location that the path leads to. *)
From Stdlib Require Import ZArith Lia.
From Stdlib Require Import Init.Byte.
From stdpp Require Import base list sets strings option gmap.
From S2P Require Import Prelude PyStr PyVal Bytes Sys FsRules.

Open Scope string_scope.
Open Scope list_scope.
Open Scope Z_scope.

Module RealPath.

(** The links followed so far and where they led; without strict mode a link met again
    before it is resolved ends the walk, as does Python's limit on nested calls. *)
Definition seen_t : Type := list (path * option path).
Definition seen_at (p : path) (seen : seen_t) : option (option path) :=
  option_map snd (List.find (fun kv => bool_decide (kv.1 = p)) seen).

Section realpath.
Context `{machine}.
Variable strict : bool.

Definition link_at (p : path) : M bool :=
  if strict then let* s := lstat p in mret (s_islnk (st_mode s)) else is_symlink p.

Fixpoint real_comps (follow : path -> pystr -> seen_t -> M (path * bool * seen_t)) (p : path) (rest : path) (seen : seen_t)
    : M (path * bool * seen_t) :=
  match rest with
  | [] => mret (p, true, seen)
  | name :: t =>
      if mem name (strs [""; "."]) then real_comps follow p t seen
      else if name =s str ".." then real_comps follow (removelast p) t seen
      else
        let newpath := p ++ [name] in
        let* link := link_at newpath in
        if negb link then real_comps follow newpath t seen
        else
          let fresh :=
            let* target := readlink newpath in
            let* r := follow p target ((newpath, None) :: seen) in
            let '(q, ok, seen) := r in
            if negb ok then mret (q ++ t, false, seen) else real_comps follow q t ((newpath, Some q) :: seen) in
          match seen_at newpath seen with
          | Some (Some q) => real_comps follow q t seen
          | Some None => if strict then let* _ := stat newpath in fresh else mret (newpath ++ t, false, seen)
          | None => fresh
          end
  end.

Fixpoint joinrealpath (depth : nat) (p : path) (rest : pystr) (seen : seen_t) : M (path * bool * seen_t) :=
  match depth with
  | O => mraise RecursionError "maximum recursion depth exceeded"
  | S depth => real_comps (joinrealpath depth) (if startswith rest (str "/") then [] else p) (split_on SLASH rest) seen
  end.
End realpath.

(** [Path(text).resolve(strict=True)] in the working directory [cwd]. *)
Definition resolve_strict `{machine} (cwd : path) (text : pystr) : M path :=
  mcatch (let* r := joinrealpath true 1000 cwd text [] in mret r.1.1) (fun e =>
    if bool_decide (Err e = @ELOOP unit) then mraise RuntimeError "Symlink loop" else reraise e).

(** ** Where a path leads *)

Section leads.
Context (f : fs).

(** Where a link's target starts from, when the link is in the directory [dir]. *)
Definition base (dir : path) (target : pystr) : path := if startswith target (str "/") then [] else dir.

Inductive leads : path -> path -> path -> Prop :=
  | LDone pre : leads pre [] pre
  | LSkip pre c t r : c ∈ strs [""; "."] -> leads pre t r -> leads pre (c :: t) r
  | LUp pre t r : leads (removelast pre) t r -> leads pre (str ".." :: t) r
  | LStep pre c t r i n : plain_name c = true -> node_at f (pre ++ [c]) = Some (i, n) -> not_link (i_kind n) ->
      leads (pre ++ [c]) t r -> leads pre (c :: t) r
  | LLink pre c t r i n target q : plain_name c = true -> node_at f (pre ++ [c]) = Some (i, n) -> i_kind n = KLink target ->
      leads (base pre target) (split_on SLASH target) q -> leads q t r -> leads pre (c :: t) r.

Lemma skip_not_plain c : c ∈ strs [""; "."] -> plain_name c = false /\ c <> str "..".
Proof. by intros [->|[->|[]%list.not_elem_of_nil]%elem_of_cons]%elem_of_cons. Qed.

(** A path leads to one location. *)
Lemma leads_functional pre rest a b : leads pre rest a -> leads pre rest b -> a = b.
Proof.
  intros Ha. revert b. induction Ha as [pre|pre c t r Hc Ha IH|pre t r Ha IH|pre c t r i n Hp Hn Hl Ha IH|pre c t r i n tg q Hp Hn Hk Ha IHa Hb IHb];
    intros b Hb'; inversion Hb' as [|? ? ? ? Hc2|?|? ? ? ? ? ? Hp2 Hn2 Hl2|? ? ? ? ? ? ? q2 Hp2 Hn2 Hk2 Hq2 Hr2]; subst; auto;
    try (apply skip_not_plain in Hc as [Hc ?]); try (apply skip_not_plain in Hc2 as [Hc2 ?]); try congruence; try discriminate.
  - rewrite Hn in Hn2. injection Hn2 as <- <-. by rewrite Hk2 in Hl.
  - rewrite Hn in Hn2. injection Hn2 as <- <-. by rewrite Hk in Hl2.
  - rewrite Hn in Hn2. injection Hn2 as <- <-. rewrite Hk in Hk2. injection Hk2 as <-. apply IHa in Hq2 as <-. auto.
Qed.

(** A location without links: directories above, something that is not a link at the end. *)
Definition spine (p : path) : Prop :=
  plain_path p /\ (forall q, q `prefix_of` p -> q <> p -> is_dir_at f q = true) /\
  (p <> [] -> exists i n, node_at f p = Some (i, n) /\ not_link (i_kind n)).

Lemma spine_root : spine [].
Proof. split_and!; [constructor| |done]. intros q Hq Hne. by apply prefix_nil_inv in Hq. Qed.

Lemma spine_parent p : spine p -> spine (removelast p).
Proof.
  intros (Hp & Hd & _). destruct p as [|c q _] using rev_ind; [exact spine_root|]. rewrite removelast_last.
  apply plain_app in Hp as [Hp _].
  assert (forall r, r `prefix_of` q -> is_dir_at f r = true) as Hq.
  { intros r Hr. apply Hd; [by apply prefix_app_r|]. intros ->. apply prefix_length in Hr. rewrite length_app in Hr. simpl in Hr. lia. }
  split_and!; [done|auto|]. intros _. specialize (Hq q ltac:(done)). apply is_dir_kind in Hq as (i & n & Hn & Hk). exists i, n. by rewrite Hk.
Qed.

(** Only a directory has something below it. *)
Lemma lstat_child p c s : spine p -> plain_name c = true -> fs_stat false f (p ++ [c]) = Ok s ->
  real_dir f p /\ exists i n, node_at f (p ++ [c]) = Some (i, n) /\ s = stat_of i n.
Proof.
  intros (Hp & Hd & Hn) Hc Hs. assert (real_dir f p) as Hr.
  { intros q Hq. destruct (decide (q = p)) as [->|]; [|by apply Hd]. unfold fs_stat, resolve in Hs. cbn [resolve_from] in Hs.
    destruct p as [|d p _] using rev_ind.
    - cbn [walk app] in Hs. unfold is_dir_at. destruct (node_at f []) as [[j m]|]; [|done]. by destruct (i_kind m).
    - assert (real_dir f p) as Hrp.
      { intros r Hr. apply Hd; [by apply prefix_app_r|]. intros ->. apply prefix_length in Hr. rewrite length_app in Hr. simpl in Hr. lia. }
      apply plain_app in Hp as [Hp Hdn]. apply Forall_cons_iff in Hdn as [Hdn _].
      rewrite <-app_assoc in Hs. rewrite (walk_app f false _ [] p) in Hs by done. cbn [app walk] in Hs.
      destruct (Hn ltac:(by destruct p)) as (i & n & Hi & Hl). unfold is_dir_at. rewrite Hi in Hs |- *.
      specialize (Hrp p ltac:(done)). unfold is_dir_at in Hrp. destruct (node_at f p) as [[j m]|]; [|done]. destruct (i_kind m); try done.
      unfold plain_name in Hdn. bool_prop. apply mem_not_elem in Hdn.
      assert (mem d (strs [""; "."]) = false) as Hm1 by (apply mem_not_elem; set_solver).
      assert (d =s str ".." = false) as Hm2 by (apply str_eqb_neq; set_solver). rewrite Hm1, Hm2 in Hs.
      destruct (i_kind n); done. }
  split; [done|]. unfold fs_stat in Hs. rewrite resolve_child in Hs; [|apply plain_app; split; [done|by constructor]|done].
  destruct (node_at f (p ++ [c])) as [[i n]|]; [|done]. injection Hs as <-. eauto.
Qed.

Lemma spine_child p c i n : spine p -> real_dir f p -> plain_name c = true -> node_at f (p ++ [c]) = Some (i, n) -> not_link (i_kind n) ->
  spine (p ++ [c]).
Proof.
  intros (Hp & _ & _) Hr Hc Hn Hl. split_and!; [apply plain_app; split; [done|by constructor]| |eauto].
  intros q [r Hq] Hne. apply Hr. destruct r as [|x r _] using rev_ind; [by rewrite app_nil_r in Hq|].
  rewrite app_assoc in Hq. apply app_inj_tail in Hq as [-> _]. by eexists.
Qed.
End leads.

(** ** Strict resolution *)

Section strict.
Context `{machine} (Hquiet : quiet) (f : fs).

(** What is remembered of a link is where it leads. *)
Definition seen_ok (seen : seen_t) : Prop := forall p q, seen_at p seen = Some (Some q) ->
  spine f q /\ exists i n target, node_at f p = Some (i, n) /\ i_kind n = KLink target /\
    leads f (base (removelast p) target) (split_on SLASH target) q.

Lemma seen_ok_nil : seen_ok [].
Proof. intros p q. done. Qed.

Lemma seen_ok_cons p v seen : seen_ok seen -> (forall q, v = Some q -> spine f q /\ exists i n target, node_at f p = Some (i, n) /\
    i_kind n = KLink target /\ leads f (base (removelast p) target) (split_on SLASH target) q) -> seen_ok ((p, v) :: seen).
Proof.
  intros Hs Hv p' q. unfold seen_at. cbn [List.find fst]. case_bool_decide as Hp; [subst; cbn; intros [= ->]; auto|]. apply Hs.
Qed.

Definition resolved_from (pre rest : path) (r : path * bool * seen_t) : Prop :=
  r.1.2 = true /\ spine f r.1.1 /\ seen_ok r.2 /\ leads f pre rest r.1.1.

Lemma obs_real_comps follow :
  (forall p target seen, spine f p -> seen_ok seen -> observes f (follow p target seen) (resolved_from (base p target) (split_on SLASH target))) ->
  forall rest p seen, spine f p -> seen_ok seen -> observes f (real_comps true follow p rest seen) (resolved_from p rest).
Proof.
  intros Hfollow. induction rest as [|c t IH]; intros p seen Hp Hs; cbn [real_comps]; [by apply obs_ret; split_and!; [..|constructor]|].
  destruct (mem c (strs [""; "."])) eqn:E1.
  { apply mem_elem in E1. eapply obs_conseq; [by apply IH|]. intros r (? & ? & ? & ?). split_and!; try done. by apply LSkip. }
  destruct (c =s str "..") eqn:E2.
  { apply str_eqb_eq in E2 as ->. eapply obs_conseq; [apply IH; [by apply spine_parent|done]|]. intros r (? & ? & ? & ?).
    split_and!; try done. by apply LUp. }
  assert (plain_name c = true) as Hc.
  { apply mem_not_elem in E1. apply str_eqb_neq in E2. unfold plain_name. apply negb_true_iff, mem_not_elem. intros Hin.
    apply elem_of_cons in Hin as [->|[->|[->|[]%list.not_elem_of_nil]%elem_of_cons]%elem_of_cons]; [by destruct E1; left|by destruct E1; right; left|done]. }
  unfold link_at. eapply (obs_bind f _ (fun l => real_dir f p /\ exists i n, node_at f (p ++ [c]) = Some (i, n) /\ l = s_islnk (st_mode (stat_of i n)))).
  { eapply obs_bind; [by apply obs_query|]. intros s (Hr & i & n & Hn & ->)%lstat_child; [|done|done]. apply obs_ret. eauto. }
  intros l (Hr & i & n & Hn & ->). destruct (s_islnk _) eqn:El; cbn [negb].
  2:{ assert (not_link (i_kind n)) as Hl.
      { unfold s_islnk in El. rewrite s_ifmt_stat in El. by destruct (i_kind n). }
      eapply obs_conseq; [apply IH; [by eapply spine_child|done]|]. intros r (? & ? & ? & ?). split_and!; try done. by eapply LStep. }
  apply s_islnk_kind in El as [target Hk]. set (fresh := mbind (readlink _) _).
  assert (observes f fresh (resolved_from p (c :: t))) as Hfresh.
  { unfold fresh. eapply obs_bind; [by apply obs_query|]. intros target' Ht. cbv beta in Ht.
    assert (target' = target) as ->.
    { unfold fs_readlink in Ht. rewrite resolve_child in Ht; [|apply plain_app; split; [apply Hp|by constructor]|done]. rewrite Hn, Hk in Ht. congruence. }
    eapply obs_bind; [apply (Hfollow p target); [done|]; by apply seen_ok_cons|]. intros [[q ok] seen'] (Hok & Hq & Hs' & Hl). cbn [fst snd] in *. subst ok.
    cbn [negb]. eapply obs_conseq; [apply IH; [done|]|].
    - apply seen_ok_cons; [done|]. intros q' [= <-]. split; [done|]. exists i, n, target. rewrite removelast_last. done.
    - intros r (? & ? & ? & ?). split_and!; try done. by eapply LLink. }
  destruct (seen_at (p ++ [c]) seen) as [[q|]|] eqn:Es; [|eapply obs_bind; [by apply obs_query|]; done|done].
  apply Hs in Es as (Hq & j & m & tg & Hm & Hkm & Hl). rewrite Hn in Hm. injection Hm as <- <-. rewrite Hk in Hkm. injection Hkm as <-.
  rewrite removelast_last in Hl. eapply obs_conseq; [by apply IH|]. intros r (? & ? & ? & ?). split_and!; try done. by eapply LLink.
Qed.

Lemma obs_joinrealpath depth p target seen : spine f p -> seen_ok seen ->
  observes f (joinrealpath true depth p target seen) (resolved_from (base p target) (split_on SLASH target)).
Proof.
  revert p target seen; induction depth as [|depth IH]; intros p target seen Hp Hs; cbn [joinrealpath]; [apply obs_raise|].
  apply obs_real_comps; [exact IH| |done]. unfold base. destruct (startswith _ _); [apply spine_root|done].
Qed.

(** Strict resolution refines [leads], and its result has no link on it. *)
Lemma obs_resolve_strict cwd text : spine f cwd ->
  observes f (resolve_strict cwd text) (fun loc => leads f (base cwd text) (split_on SLASH text) loc /\ spine f loc).
Proof.
  intros Hc. apply obs_catch; [|intros e; case_match; [apply obs_raise|apply obs_reraise]].
  eapply obs_bind; [apply obs_joinrealpath; [done|apply seen_ok_nil]|]. intros r (_ & Hq & _ & Hl). by apply obs_ret.
Qed.
End strict.
End RealPath.
