(* ===== verification/Totals.v ===== *)
(** * Programs that must return

    [reads f m phi]: on a machine where no call fails and no other process runs, [m]
    returns a value with [phi], and leaves the file system [f] as it is.  Unlike the
    triples, which speak of a run that returns, this includes that loops end. *)
From Stdlib Require Import ZArith Lia.
From Stdlib Require Import Init.Byte.
From stdpp Require Import base list sets strings option gmap.
From S2P Require Import Prelude PyStr PyVal Bytes Sys Held FsRules.

Open Scope string_scope.
Open Scope list_scope.
Open Scope Z_scope.

(** ** The calls raise the errors of the system *)

Lemma walk_os f follow links pre rest : (forall a b, raises_only is_os_error (links a b)) ->
  raises_only is_os_error (walk f follow links pre rest).
Proof.
  intros Hl. revert pre; induction rest as [|c t IH]; intros pre; simpl; [done|].
  destruct (node_at f pre) as [[? d]|]; [|done]. destruct (i_kind d); try done. destruct (mem c _); [done|]. destruct (c =s _); [done|].
  destruct (node_at f (pre ++ [c])) as [[? n]|]; [|by destruct t]. destruct (i_kind n); try done.
  destruct (_ && _); [done|]. destruct (startswith _ _); apply Hl.
Qed.

Lemma resolve_os f follow p : raises_only is_os_error (resolve f follow p).
Proof.
  unfold resolve. generalize (S MAX_LINKS) as fuel. intros fuel. generalize (@nil pystr) as pre. revert p.
  induction fuel as [|fuel IH]; intros p pre; [done|]. apply walk_os. intros a b. apply IH.
Qed.

Lemma held_node_os follow f fd p : raises_only is_os_error (held_node follow f fd p).
Proof.
  unfold held_node, held_path. destruct p as [|c p]; [by destruct (nodes f !! fd)|]. destruct (location_of f fd) as [loc|]; [|done].
  apply raises_bind; [apply resolve_os|]. intros l _. by destruct (node_at f l).
Qed.

(** ** Reading *)

Section reads.
Context `{machine} (Hok : faultless) (f : fs).

Definition reads {A} (m : M A) (phi : A -> Prop) : Prop := exists a, runs m f (Ok a) f /\ phi a.

Lemma reads_ret {A} (a : A) (phi : A -> Prop) : phi a -> reads (mret a) phi.
Proof. exists a. split; [apply runs_ret|done]. Qed.

Lemma reads_bind {A B} (m : M A) (k : A -> M B) psi phi : reads m psi -> (forall a, psi a -> reads (k a) phi) -> reads (mbind m k) phi.
Proof. intros (a & Ha & Hp) Hk. destruct (Hk a Hp) as (b & Hb & Hq). exists b. split; [by eapply runs_bind|done]. Qed.

Lemma reads_conseq {A} (m : M A) (psi phi : A -> Prop) : reads m psi -> (forall a, psi a -> phi a) -> reads m phi.
Proof. intros (a & Ha & Hp) Hi. exists a. auto. Qed.

Lemma reads_query {A} (op : fs -> res A) a (phi : A -> Prop) : op f = Ok a -> phi a -> reads (query op) phi.
Proof. intros Ho Ha. exists a. split; [by apply (runs_query Hok)|done]. Qed.

(** A question whose answer is "no" on an error of the system. *)
Lemma reads_or_false {A} (op : fs -> res A) (g : A -> bool) (phi : bool -> Prop) : raises_only is_os_error (op f) ->
  match op f with Ok a => phi (g a) | Err _ => phi false end -> reads (or_false (let* a := query op in mret (g a))) phi.
Proof.
  intros Hr Hp. destruct (op f) as [a|e] eqn:Ho.
  - exists (g a). split; [|done]. apply runs_catch. eapply runs_bind; [by apply (runs_query Hok _ _ (Ok a))|apply runs_ret].
  - exists false. split; [|done]. eapply runs_catch_err; [apply runs_bind_err; by apply (runs_query Hok _ _ (Err e))|]. simpl in Hr. rewrite Hr. apply runs_ret.
Qed.

Lemma reads_for_each {S A} (I : list A -> S -> Prop) (g : S -> A -> M S) s l :
  (forall don x rest s, l = don ++ x :: rest -> I don s -> reads (g s x) (I (don ++ [x]))) -> I [] s -> reads (mfor_each g s l) (I l).
Proof.
  intros Hg. assert (forall rest don s, l = don ++ rest -> I don s -> reads (mfor_each g s rest) (I l)) as Hgo; [|by apply (Hgo l [])].
  induction rest as [|x rest IH]; intros don s' Hl Hs; simpl.
  - apply reads_ret. by rewrite Hl, app_nil_r.
  - eapply reads_bind; [by eapply Hg|]. intros s2 Hs2. apply (IH (don ++ [x])); [by rewrite <-app_assoc|done].
Qed.

(** A loop with a measure that no turn leaves as it was. *)
Lemma reads_loop {S A} depth (turn : S -> M (S + A)) (I : S -> Prop) (phi : A -> Prop) (m : S -> Z) s :
  (forall s, I s -> reads (turn s) (fun r => match r with inl s' => I s' /\ 0 <= m s' < m s | inr a => phi a end)) -> I s ->
  reads (mloop depth turn s) (fun r => match r with inl s' => I s' /\ 0 <= m s' /\ m s' + 2 ^ Z.of_nat depth <= m s | inr a => phi a end).
Proof.
  intros Ht. revert s; induction depth as [|d IH]; intros s Hs; cbn [mloop].
  - eapply reads_conseq; [by apply Ht|]. intros [s'|a]; [|done]. change (2 ^ Z.of_nat 0) with 1. intros [? ?]. split_and!; [done|lia..].
  - eapply reads_bind; [by apply IH|]. intros [s'|a]; [|intros Ha; by apply reads_ret]. intros (Hs' & Hm & Hd). eapply reads_conseq; [by apply IH|].
    intros [s2|a]; [|done]. intros (H2 & Hm2 & Hd2). rewrite Nat2Z.inj_succ, Z.pow_succ_r by lia. split_and!; [done|lia..].
Qed.

Lemma reads_while {S A} (turn : S -> M (S + A)) (I : S -> Prop) (phi : A -> Prop) (m : S -> Z) s :
  (forall s, I s -> reads (turn s) (fun r => match r with inl s' => I s' /\ 0 <= m s' < m s | inr a => phi a end)) -> I s -> m s < 2 ^ 64 ->
  reads (mwhile turn s) phi.
Proof.
  intros Ht Hs Hm. eapply reads_bind; [by apply (reads_loop 64 turn I phi m)|]. intros [s'|a].
  - intros (_ & ? & Hd). change (2 ^ Z.of_nat 64) with (2 ^ 64) in Hd. lia.
  - intros Ha. by apply reads_ret.
Qed.
End reads.
