(* ===== verification/Links.v ===== *)
(** * Replacing symbolic links

    Both managers replace a link by renaming a temporary one over it.  Their
    [atomic_symlink] is [swap_link], up to the text of one message; here is what it
    guarantees under any pattern of failing system calls, with the loop rule the
    managers' activation needs. *)
From Stdlib Require Import ZArith Lia.
From Stdlib Require Import Init.Byte.
From stdpp Require Import base list sets strings option gmap.
From S2P Require Import Prelude PyStr PyVal Bytes Json Sys FsRules.

Open Scope string_scope.
Open Scope list_scope.
Open Scope Z_scope.

(** ** One link *)

Section links.
Context `{machine} (Hquiet : quiet).

Variable message : string.

Definition temporary_link (p : path) : path :=
  removelast p ++ [str "." ++ List.last p [] ++ str ".multikernel-" ++ int_repr getpid].

Definition sync_directory (p : path) : M unit :=
  let* descriptor := open_ false true p in mfinally (fsync descriptor) (close descriptor).

Definition swap_made (target : pystr) (p : path) : M unit :=
  let temporary := temporary_link p in
  let* e := lexists temporary in
  mraise_if e ValueError message ;;;
  symlink target temporary ;;;
  mcatch (rename temporary p ;;; sync_directory (removelast p))
    (fun e => ignore_not_found (unlink temporary) ;;; reraise e).

Definition swap_link (target : pystr) (p : path) : M unit :=
  mkdir_parents 0x1FF (rev (removelast p)) ;;; swap_made target p.

(** The names [swap_link] touches. *)
Definition own_link (p k : path) : Prop := k = p \/ k = temporary_link p.

Definition temporary_name (c : pystr) : pystr := str "." ++ c ++ str ".multikernel-" ++ int_repr getpid.

Lemma temporary_link_snoc d c : temporary_link (d ++ [c]) = d ++ [temporary_name c].
Proof. unfold temporary_link. by rewrite removelast_last, last_last. Qed.

Lemma temporary_plain c : plain_name (temporary_name c) = true.
Proof.
  unfold plain_name, temporary_name. apply negb_true_iff, mem_not_elem. intros Hc.
  assert (13 <= length (str "." ++ c ++ str ".multikernel-" ++ int_repr getpid))%nat as Hlen.
  { rewrite !length_app. simpl. lia. }
  repeat (apply elem_of_cons in Hc as [Hc|Hc]; [rewrite Hc in Hlen; simpl in Hlen; lia|]). by apply elem_of_nil in Hc.
Qed.

Lemma temporary_differs d c : d ++ [temporary_name c] <> d ++ [c].
Proof.
  intros He. apply app_inj_tail in He as [_ He]. apply (f_equal length) in He. unfold temporary_name in He.
  rewrite !length_app in He. simpl in He. lia.
Qed.

Lemma obs_sync f p : observes f (sync_directory p) (fun _ => True).
Proof.
  eapply obs_bind; [by apply obs_query|]. intros fd _.
  apply obs_finally; eapply obs_any; by apply obs_query.
Qed.

(** A failed or a finished replacement of one link. *)
Definition replaced (f1 : fs) (p : path) (target : pystr) (f : fs) : Prop :=
  changes_only (own_link p) f1 f /\ (names f !! p = names f1 !! p \/ linked f p target).

Lemma replaced_refl f p t : fresh_ok f -> replaced f p t f.
Proof. intros Hf. split; [by apply changes_only_refl|by left]. Qed.

(** Removing the temporary name undoes nothing else. *)
Lemma unlink_temporary f1 d c t : plain_path (d ++ [c]) -> real_dir f1 d ->
  triple (replaced f1 (d ++ [c]) t) (ignore_not_found (unlink (d ++ [temporary_name c])))
    (fun _ => replaced f1 (d ++ [c]) t) (replaced f1 (d ++ [c]) t).
Proof.
  intros Hp Hr. eapply (triple_catch _ _ _ _ (replaced f1 (d ++ [c]) t)).
  - apply (triple_change Hquiet); [done|]. intros f f' [Hc Hn] Hu.
    assert (locate f (d ++ [temporary_name c]) = Ok (d ++ [temporary_name c])) as Hl.
    { apply plain_app in Hp as [Hd _]. apply locate_child; [|by eapply changes_only_real].
      apply plain_app. split; [done|]. constructor; [apply temporary_plain|done]. }
    destruct (unlink_changes _ _ _ _ (co_fresh _ _ _ Hc) Hl Hu) as [Hc' _]. split.
    + eapply changes_only_trans; [done|]. eapply changes_only_mono; [|done]. intros k ->. right.
      by rewrite temporary_link_snoc.
    + assert (d ++ [c] <> d ++ [temporary_name c]) as Hne by (intros He; by eapply temporary_differs).
      destruct Hn as [Hn|Hn]; [left; by rewrite (co_names _ _ _ Hc')|right; by eapply changes_only_linked].
  - intros e. case_bool_decide; [by apply triple_ret|by apply triple_reraise].
Qed.

(** In a directory that exists. *)
Lemma swap_made_triple f1 target d c : fresh_ok f1 -> plain_path (d ++ [c]) -> real_dir f1 d ->
  triple (fun x => x = f1) (swap_made target (d ++ [c]))
    (fun _ f => changes_only (own_link (d ++ [c])) f1 f /\ linked f (d ++ [c]) target)
    (replaced f1 (d ++ [c]) target).
Proof.
  intros Hf Hp Hr. unfold swap_made. rewrite removelast_last, temporary_link_snoc.
  assert (plain_path (d ++ [temporary_name c])) as Hpt.
  { apply plain_app in Hp as [Hd _]. apply plain_app. split; [done|]. constructor; [apply temporary_plain|done]. }
  pose proof (replaced_refl f1 (d ++ [c]) target Hf) as Hrefl.
  assert (forall A (m : M A) phi, observes f1 m phi ->
    triple (fun x => x = f1) m (fun _ x => x = f1) (replaced f1 (d ++ [c]) target)) as Hobs.
  { intros A m phi Hm. eapply triple_conseq; [apply Hm|done|naive_solver|naive_solver]. }
  eapply triple_bind; [by eapply Hobs, obs_lexists|]. intros e.
  eapply triple_bind; [by eapply Hobs, obs_raise_if|]. intros ?.
  eapply (triple_bind _ _ (fun _ f => changes_only (fun x => x = d ++ [temporary_name c]) f1 f /\
     linked f (d ++ [temporary_name c]) target)).
  { apply (triple_change Hquiet); [by intros f ->|]. intros f f' -> Hs. inv_ok. rename E into Hcr. destruct a0 as [ino g]. simpl.
    destruct (create_changes _ _ _ _ _ _ _ _ Hf (locate_child _ _ _ Hpt Hr) Hcr) as (Hc & n & Hn & Hk).
    split; [done|]. by exists ino, n. }
  intros ?. eapply triple_catch; [|intros e'; eapply triple_bind; [by apply unlink_temporary|]; intros ?; by apply triple_reraise].
  eapply (triple_bind _ _ (fun _ f => changes_only (own_link (d ++ [c])) f1 f /\ linked f (d ++ [c]) target)).
  - apply (triple_change Hquiet).
    + intros f [Hc _]. split.
      * eapply changes_only_mono; [|done]. intros k ->. right. by rewrite temporary_link_snoc.
      * left. apply (co_names _ _ _ Hc). intros He. by eapply temporary_differs.
    + intros f f' [Hc (ino & n & Hn & Hk)] Hren.
      pose proof (changes_only_real _ _ _ _ Hc Hr) as Hr'.
      destruct (rename_changes _ _ _ _ _ _ _ _ (co_fresh _ _ _ Hc) (locate_child _ _ _ Hpt Hr') (locate_child _ _ _ Hp Hr')
                  Hn ltac:(by rewrite Hk) Hren) as (Hc' & n' & Hn' & Hs).
      split; [|exists ino, n'; split; [done|]; by destruct Hs as [-> _]].
      eapply changes_only_trans; (eapply changes_only_mono; [|done]); unfold own_link; rewrite temporary_link_snoc; naive_solver.
  - intros ?. eapply triple_conseq.
    { apply (obs_triple (fun f => changes_only (own_link (d ++ [c])) f1 f /\ linked f (d ++ [c]) target) _ (fun _ _ => True)).
      intros f _. apply obs_sync. }
    { done. } { by intros ? ? []. }
    intros f [Hc Hl]. split; [done|by right].
Qed.

Lemma swap_link_triple f1 target d c : fresh_ok f1 -> plain_path (d ++ [c]) -> real_dir f1 d ->
  triple (fun x => x = f1) (swap_link target (d ++ [c]))
    (fun _ f => changes_only (own_link (d ++ [c])) f1 f /\ linked f (d ++ [c]) target)
    (replaced f1 (d ++ [c]) target).
Proof.
  intros Hf Hp Hr. unfold swap_link. rewrite removelast_last. eapply triple_bind; [|intros ?; by apply swap_made_triple].
  eapply triple_conseq; [apply (obs_mkdir_parents Hquiet f1)|done|by intros ? ? []|intros f ->; by apply replaced_refl];
    rewrite rev_involutive; [|done]. by apply plain_app in Hp as [? _].
Qed.

(** Where the directory may have to be made first. *)
Definition swapped (f1 : fs) (d : path) (c : pystr) (f : fs) : Prop :=
  exists g, grown d f1 g /\ changes_only (own_link (d ++ [c])) g f.

Lemma swap_link_made f1 target d c : fresh_ok f1 -> plain_path (d ++ [c]) -> way f1 d ->
  triple (fun x => x = f1) (swap_link target (d ++ [c]))
    (fun _ f => swapped f1 d c f /\ linked f (d ++ [c]) target)
    (fun f => swapped f1 d c f /\ (names f !! (d ++ [c]) = names f1 !! (d ++ [c]) \/ linked f (d ++ [c]) target)).
Proof.
  intros Hf Hp Hw. unfold swap_link. rewrite removelast_last.
  assert (forall g, grown d f1 g -> names g !! (d ++ [c]) = names f1 !! (d ++ [c])) as Hkeep.
  { intros g Hg. apply (co_names _ _ _ (gr_changes _ _ _ Hg)). intros [Hpre%prefix_length _].
    rewrite length_app in Hpre. simpl in Hpre. lia. }
  eapply (triple_bind _ _ (fun _ g => grown d f1 g /\ real_dir g d)).
  - pose proof (mkdir_parents_triple Hquiet f1 0x1FF (rev d) Hf) as Hm. rewrite rev_involutive in Hm.
    eapply triple_conseq; [apply Hm; [by apply plain_app in Hp as [? _]|done]|done|done|].
    intros g Hg. split; [|left; by apply Hkeep]. exists g. split; [done|]. apply changes_only_refl, (co_fresh _ _ _ (gr_changes _ _ _ Hg)).
  - intros ?. apply triple_pre. intros g [Hg Hr]. pose proof (co_fresh _ _ _ (gr_changes _ _ _ Hg)) as Hfg.
    eapply triple_conseq; [by apply (swap_made_triple g target d c Hfg Hp Hr)|done|..].
    + intros ? f [Hc Hl]. split; [by exists g|done].
    + intros f [Hc Ho]. split; [by exists g|]. destruct Ho as [Ho|Ho]; [left|by right]. by rewrite Ho, Hkeep.
Qed.

End links.

Lemma triple_until {S A} (I : list A -> S -> fs -> Prop) (J : S -> fs -> Prop) (g : S -> A -> M S) s l :
  (forall don x rest s, l = don ++ x :: rest -> triple (I don s) (g s x) (I (don ++ [x])) (J s)) ->
  triple (I [] s) (mfor_until g s l)
    (fun r f => match r.2 with None => I l r.1 f | Some _ => J r.1 f end) (fun _ => False).
Proof.
  intros Hg. assert (forall rest don s, l = don ++ rest -> triple (I don s) (mfor_until g s rest)
    (fun r f => match r.2 with None => I l r.1 f | Some _ => J r.1 f end) (fun _ => False)) as Hgo.
  { induction rest as [|x rest IH]; intros don s' Hl; simpl.
    - apply triple_ret. simpl. by rewrite Hl, app_nil_r.
    - intros w Hw. specialize (Hg don x rest s' Hl w Hw). destruct (g s' x w) as [[s2|e] w'].
      + apply (IH (don ++ [x]) s2); [by rewrite <-app_assoc|done].
      + done. }
  by apply (Hgo l []).
Qed.

