(* ===== verification/Publish.v ===== *)
(** * No-replace publication with exact-identity rollback
    (scripts/runtime_safe_publish.py)

    A file is written under a temporary name, linked to its destination, which must
    not exist, and the temporary name is removed; every removal first moves the name
    to a quarantine name and checks that the inode is the expected one. *)
From Stdlib Require Import ZArith Lia.
From Stdlib Require Import Init.Byte.
From stdpp Require Import base list sets strings option gmap.
From S2P Require Import Prelude PyStr PyVal Bytes Sys Held.

Open Scope string_scope.
Open Scope list_scope.
Open Scope Z_scope.

Module Publish.

Definition identity : Type := Z * Z.

(** [f"{n:x}"] *)
Definition hex_int (n : Z) : pystr := if n <? 0 then 45 :: hex_nat (- n) else hex_nat n.

(** [path.name], [path.parent] and [path.with_name(name)]. *)
Definition name_of (p : path) : pystr := List.last p [].
Definition parent_of (p : path) : path := removelast p.
Definition with_name (p : path) (name : pystr) : res path :=
  match p with [] => raise ValueError "has an empty name" | _ => Ok (removelast p ++ [name]) end.

(** A directory given by its path, by an inherited descriptor as [/proc/self/fd/N], or
    by a path below one. *)
Inductive directory_ref := ProcFd (fd : Z) | AtPath (p : path) | BelowFd (fd : Z) (p : path).
Definition PROC_FD : re := Cat (Lit "/proc/self/fd/") (Plus (Cls is_ascii_digit)).

Section publish.
Context `{machine}.

Definition dup (fd : Z) : M Z := query (fun f => let! _ := fs_fstat f fd in Ok fd).

Definition open_directory_nofollow (d : directory_ref) : M Z :=
  let* descriptor := match d with
                     | ProcFd fd => dup fd
                     | AtPath p => open_ true true p
                     | BelowFd fd p => held_opendir fd p
                     end in
  let* info := fstat descriptor in
  if negb (s_isdir (st_mode info)) then
    close descriptor ;;; mraise NotADirectoryError "descriptor is not a directory"
  else mret descriptor.

Definition _rename_noreplace (source destination : path) : M unit := rename_noreplace source destination.

Definition file_identity (p : path) : M identity :=
  let* value := lstat p in mret (st_dev value, st_ino value).

Definition descriptor_identity (descriptor : Z) : M identity :=
  let* value := fstat descriptor in mret (st_dev value, st_ino value).

Definition sync_directory (p : path) : M unit :=
  let* directory := open_ false true p in mfinally (fsync directory) (close directory).

Definition rollback_name (p : path) (expected : identity) : pystr :=
  str "." ++ name_of p ++ str ".rollback-" ++ hex_int expected.1 ++ str "-" ++ hex_int expected.2.

(** A result that [FileNotFoundError] turns into [return False]. *)
Definition not_found {A} (m : M A) : M (option A) :=
  mcatch (let* a := m in mret (Some a)) (fun e =>
    if bool_decide (exn_cls e = FileNotFoundError) then mret None else reraise e).

(** [try: ... except OSError: pass] *)
Definition ignore_os_error (m : M unit) : M unit :=
  mcatch m (fun e => if is_os_error (exn_cls e) then mret tt else reraise e).

Definition remove_if_identity (p : path) (expected : identity) : M bool :=
  let* observed := not_found (file_identity p) in
  match observed with
  | None => mret false
  | Some i =>
      if negb (bool_decide (i = expected)) then mret false
      else
        let* quarantine := lift (with_name p (rollback_name p expected)) in
        let* moved := not_found (_rename_noreplace p quarantine) in
        match moved with
        | None => mret false
        | Some _ =>
            let* j := file_identity quarantine in
            if negb (bool_decide (j = expected)) then
              ignore_os_error (_rename_noreplace quarantine p) ;;;
              mraise PublicationError "output identity changed during rollback quarantine"
            else
              unlink quarantine ;;; sync_directory (parent_of p) ;;; mret true
        end
  end.

(** The identity of a path that is a directory. *)
Definition directory_matches (expected : identity) (value : stat_result) : bool :=
  bool_decide ((st_dev value, st_ino value) = expected) && s_isdir (st_mode value).

Definition remove_directory_if_identity (p : path) (expected : identity) : M bool :=
  let* observed := not_found (lstat p) in
  match observed with
  | None => mret false
  | Some value =>
      if negb (directory_matches expected value) then mret false
      else
        let* quarantine := lift (with_name p (rollback_name p expected)) in
        let* moved := not_found (_rename_noreplace p quarantine) in
        match moved with
        | None => mret false
        | Some _ =>
            let* value := lstat quarantine in
            if negb (directory_matches expected value) then
              ignore_os_error (_rename_noreplace quarantine p) ;;;
              mraise PublicationError "directory identity changed during cleanup quarantine"
            else
              rmtree quarantine ;;; sync_directory (parent_of p) ;;; mret true
        end
  end.

(** The exception continues after the clean-up, unless the clean-up raises. *)
Definition publish_existing (source destination : path) (expected : identity) : M identity :=
  let* i := file_identity source in
  mraise_if (negb (bool_decide (i = expected))) PublicationError
    "temporary output identity changed before publication" ;;;
  mcatch
    (mcatch (link source destination) (fun e =>
       if bool_decide (exn_cls e = FileExistsError) then
         mraise PublicationError "refusing to overwrite existing output"
       else reraise e))
    (fun e => remove_if_identity source expected ;;; reraise e) ;;;
  mcatch
    (let* j := file_identity destination in
     mraise_if (negb (bool_decide (j = expected))) PublicationError
       "published output identity changed before verification" ;;;
     let* removed := remove_if_identity source expected in
     (if removed then mret tt
      else
        let* remaining := not_found (file_identity source) in
        match remaining with
        | None => mret tt
        | Some _ => mraise PublicationError "temporary output identity changed before cleanup"
        end) ;;;
     sync_directory (parent_of destination) ;;;
     mret expected)
    (fun e => remove_if_identity destination expected ;;; remove_if_identity source expected ;;; reraise e).

(** [tempfile.mkstemp(prefix, dir)] with the random names it tries. *)
Fixpoint mkstemp (dir : path) (prefix : pystr) (candidates : list pystr) : M (Z * path) :=
  match candidates with
  | [] => mraise FileExistsError "No usable temporary file name found"
  | c :: t =>
      let p := dir ++ [prefix ++ c] in
      mcatch (let* fd := create_excl 0x180 p in mret (fd, p)) (fun e =>
        if bool_decide (exn_cls e = FileExistsError) then mkstemp dir prefix t else reraise e)
  end.

(** A caller's [write] that writes a sequence of chunks. *)
Definition write_chunks (fd : Z) (chunks : list bytes) : M unit :=
  mfor_each (fun _ c => write_fd fd c) tt chunks.

Definition atomic_write (candidates : list pystr) (p : path) (write : Z -> M unit) : M identity :=
  mkdir_parents 0x1FF (rev (parent_of p)) ;;;
  let* t := mkstemp (parent_of p) (str "." ++ name_of p ++ str ".") candidates in
  let '(descriptor, temporary_path) := t in
  let* expected := descriptor_identity descriptor in
  mcatch
    (mfinally
       (write descriptor ;;;
        fchmod descriptor 0x180 ;;;
        fsync descriptor ;;;
        let* i := descriptor_identity descriptor in
        mraise_if (negb (bool_decide (i = expected))) PublicationError
          "temporary output identity changed while writing")
       (close descriptor) ;;;
     publish_existing temporary_path p expected)
    (fun e => remove_if_identity temporary_path expected ;;; reraise e).

End publish.

(** ** Publication under failing system calls

    The file system before the call is [f0]; the directory is real, and no name or
    inode uses the number the temporary file gets. *)
Section safety.
Context `{machine} (Hquiet : quiet).
Context (f0 : fs) (dir : path) (name : pystr) (content : bytes).
Context (dir_plain : Forall (fun c => plain_name c = true) dir) (name_plain : plain_name name = true)
        (dir_real : real_dir f0 dir)
        (t_free : forall k, names f0 !! k <> Some (fresh f0))
        (no_dangling : forall k i, names f0 !! k = Some i -> is_Some (nodes f0 !! i)).

Abbreviation t := (fresh f0).
Abbreviation dest := (dir ++ [name]).

(** The names the publication makes besides the destination. *)
Definition own (k : path) : Prop :=
  exists c, k = dir ++ [c] /\ c <> name /\ plain_name c = true /\
    (startswith c (str "." ++ name ++ str ".") || startswith c (str ".." ++ name ++ str ".") = true).

(** Nothing that existed is renamed, removed or changed; every new name is the
    destination or one of its own and refers to the temporary file's inode. *)
Record kept (f : fs) : Prop := {
  kept_names : forall k i, names f0 !! k = Some i -> names f !! k = Some i;
  kept_new : forall k i, names f !! k = Some i -> names f0 !! k = None -> i = t /\ (k = dest \/ own k);
  kept_nodes : forall i, i <> t -> nodes f !! i = nodes f0 !! i;
  kept_file : exists n d, nodes f !! t = Some n /\ i_kind n = KFile d;
  kept_fresh : t < fresh f }.

Definition complete (f : fs) : Prop :=
  exists n, nodes f !! t = Some n /\ i_kind n = KFile content /\ i_perm n = 0x180.

Definition unpublished (f : fs) : Prop := kept f /\ names f !! dest = names f0 !! dest.
Definition publishable (f : fs) : Prop := kept f /\ complete f.

(** The stages of the program; [remove_if_identity] works in all of them. *)
Inductive stage := Writing | Linked | Published.
Definition holds (X : stage) (f : fs) : Prop :=
  match X with
  | Writing => unpublished f
  | Linked => publishable f
  | Published => publishable f /\ names f !! dest = Some t
  end.

(** Where the program may stop: the destination is as it was, or complete. *)
Definition settled (f : fs) : Prop := kept f /\ (names f !! dest = Some t -> complete f).

Lemma holds_settled X f : holds X f -> settled f.
Proof.
  destruct X; [intros [Hk Hd]|intros [Hk Hc]|intros [[Hk Hc] _]]; split; try done.
  rewrite Hd. intros Ht. by destruct (t_free dest).
Qed.

Lemma kept_real f : kept f -> real_dir f dir.
Proof.
  intros Hk q Hq. specialize (dir_real q Hq). unfold is_dir_at, node_at in *.
  destruct (names f0 !! q) as [i|] eqn:E; [|done]. rewrite (kept_names f Hk q i E).
  rewrite (kept_nodes f Hk i); [done|]. intros ->. by apply (t_free q).
Qed.

Lemma kept_resolve f c : kept f -> plain_name c = true ->
  resolve f false (dir ++ [c]) = Ok (dir ++ [c]) /\ locate f (dir ++ [c]) = Ok (dir ++ [c]).
Proof. intros Hk Hc. split; [apply resolve_real|apply locate_real]; auto using kept_real. Qed.

Lemma kept_tick f : kept f -> kept (tick f).
Proof. by intros [? ? ? ? ?]. Qed.

Lemma kept_touch d f : kept f -> kept (touch_nlink d t f).
Proof.
  intros [H1 H2 H3 (n & x & Hn & Hd) H5]. unfold touch_nlink. rewrite Hn.
  constructor; [done|done| | |done].
  - intros i Hi. simpl. rewrite lookup_insert_ne by done. auto.
  - eexists _, x. split; [apply lookup_insert_eq|done].
Qed.

(** Removing a name that refers to the temporary file. *)
Lemma kept_del f k : kept f -> names f !! k = Some t -> kept (del_name k f).
Proof.
  intros [H1 H2 H3 H4 H5] Hk. constructor; simpl; [|intros k' i Hi; destruct (decide (k = k')) as [->|]|done|done|done].
  - intros k' i Hi. rewrite lookup_delete_ne; [auto|]. intros ->. rewrite (H1 _ _ Hi) in Hk.
    injection Hk as ->. by apply (t_free k').
  - by rewrite lookup_delete_eq in Hi.
  - rewrite lookup_delete_ne in Hi by done. auto.
Qed.

(** Giving the temporary file another name, in a place that was free. *)
Lemma kept_set f k : kept f -> names f !! k = None -> k = dest \/ own k -> kept (set_name k t f).
Proof.
  intros [H1 H2 H3 H4 H5] Hk Ho. constructor; simpl; [| |done|done|done].
  - intros k' i Hi. rewrite lookup_insert_ne; [auto|]. intros ->. by rewrite (H1 _ _ Hi) in Hk.
  - intros k' i Hi Hn. destruct (decide (k = k')) as [->|].
    + rewrite lookup_insert_eq in Hi. by injection Hi as <-.
    + rewrite lookup_insert_ne in Hi by done. auto.
Qed.

Lemma complete_touch d f : complete f -> complete (touch_nlink d t f).
Proof.
  intros (n & Hn & Hk & Hp). unfold touch_nlink. rewrite Hn. eexists. split; [apply lookup_insert_eq|]. done.
Qed.

Lemma own_not_dest k : own k -> k <> dest.
Proof. intros (c & -> & Hc & _) Heq. apply app_inj_2 in Heq as [_ Heq]; [|done]. congruence. Qed.

Lemma own_free_f0 k f : kept f -> names f !! k = Some t -> names f0 !! k = None.
Proof.
  intros Hk Hn. destruct (names f0 !! k) as [i|] eqn:E; [|done].
  rewrite (kept_names f Hk k i E) in Hn. injection Hn as ->. by destruct (t_free k).
Qed.

Lemma node_at_ino f k i n : node_at f k = Some (i, n) -> names f !! k = Some i.
Proof. unfold node_at. destruct (names f !! k); [|done]. case_match; [|done]. by intros [= -> _]. Qed.

(** Moving a name of the temporary file to one of its own names. *)
Lemma move_own X f a b : holds X f -> names f !! a = Some t -> (X <> Linked -> a <> dest) ->
  names f !! b = None -> own b -> holds X (tick (set_name b t (del_name a f))).
Proof.
  intros Hf Ha Had Hb Hown.
  assert (kept f) as Hk by (by apply (holds_settled X f Hf)).
  assert (kept (tick (set_name b t (del_name a f)))) as Hk'.
  { apply kept_tick, kept_set; [by apply kept_del| |by right]. simpl.
    destruct (decide (a = b)) as [->|]; [apply lookup_delete_eq|by rewrite lookup_delete_ne]. }
  pose proof (own_not_dest b Hown).
  assert (X <> Linked -> names (tick (set_name b t (del_name a f))) !! dest = names f !! dest) as Hd.
  { intros HX. specialize (Had HX). simpl. by rewrite lookup_insert_ne, lookup_delete_ne. }
  destruct X; [destruct Hf as [_ Hf]|destruct Hf as [_ Hf]|destruct Hf as [[_ Hf] Hp]; split]; try split; try done;
    rewrite Hd by done; done.
Qed.

Lemma node_at_none f k : kept f -> node_at f k = None -> names f !! k = None.
Proof.
  intros Hk. unfold node_at. destruct (names f !! k) as [i|] eqn:E; [|done].
  destruct (nodes f !! i) eqn:En; [done|]. intros _. exfalso.
  destruct (decide (i = t)) as [->|Hi].
  - destruct (kept_file f Hk) as (n & d & Hn & _). congruence.
  - destruct (names f0 !! k) as [j|] eqn:E0.
    + pose proof (kept_names f Hk k j E0). simplify_eq. destruct (no_dangling k i E0) as [n Hn].
      rewrite (kept_nodes f Hk i Hi) in En. congruence.
    + by destruct (kept_new f Hk k i E E0).
Qed.

Lemma holds_kept X f : holds X f -> kept f.
Proof. intros Hf. by apply (holds_settled X f). Qed.

Lemma kept_node f k : kept f -> names f !! k = Some t -> exists n d, node_at f k = Some (t, n) /\ i_kind n = KFile d.
Proof. intros Hk Hn. destruct (kept_file f Hk) as (n & d & Hf & Hd). exists n, d. unfold node_at. by rewrite Hn, Hf. Qed.

(** *** Names *)

Definition temp_name (c : pystr) : Prop := startswith c (str "." ++ name ++ str ".") = true.

Lemma long_plain c : (2 < length c)%nat -> plain_name c = true.
Proof.
  intros Hl. apply negb_true_iff, mem_not_elem. intros Hin. unfold strs in Hin. cbn [map] in Hin.
  repeat (apply elem_of_cons in Hin as [->|Hin]; [simpl in Hl; lia|]). by inversion Hin.
Qed.

Lemma name_not_nil : name <> [].
Proof. intros ->. done. Qed.

Lemma temp_own c : temp_name c -> own (dir ++ [c]).
Proof.
  intros Hc. exists c. unfold temp_name in Hc. split_and!; [done| | |by rewrite Hc].
  - intros ->. apply startswith_prefix in Hc as [r Hr]. apply (f_equal length) in Hr.
    rewrite !length_app in Hr. simpl in Hr. lia.
  - apply long_plain. apply startswith_prefix in Hc as [r ->]. rewrite !length_app.
    pose proof name_not_nil. destruct name; [done|]. simpl. lia.
Qed.

Lemma rollback_own p c expected : p = dir ++ [c] -> c = name \/ temp_name c ->
  with_name p (rollback_name p expected) = Ok (dir ++ [rollback_name p expected]) /\
  own (dir ++ [rollback_name p expected]) /\ plain_name (rollback_name p expected) = true.
Proof.
  intros -> Hc. unfold with_name, rollback_name, name_of. rewrite last_last, removelast_last.
  set (r := str "." ++ c ++ str ".rollback-" ++ hex_int expected.1 ++ str "-" ++ hex_int expected.2).
  assert (10 + length c < length r)%nat as Hlen by (unfold r; rewrite !length_app; simpl; lia).
  pose proof (long_plain r ltac:(lia)) as Hp.
  split_and!; [by destruct dir| |done]. exists r. split_and!; [done| |done|].
  - intros Heq. rewrite Heq in Hlen. destruct Hc as [->|Hc]; [lia|].
    apply startswith_prefix in Hc as [x ->]. rewrite !length_app in Hlen. lia.
  - destruct Hc as [->|Hc]; apply orb_true_iff; [left|right]; apply startswith_prefix.
    + eexists. unfold r. by rewrite <-!app_assoc.
    + apply startswith_prefix in Hc as [x ->]. eexists. unfold r.
      change (str "..") with (str "." ++ str "."). by rewrite <-!app_assoc.
Qed.

(** *** The steps of a removal *)

Lemma triple_not_found {A} (P : fs -> Prop) (m : M A) (Q : A -> fs -> Prop) (E : fs -> Prop) :
  triple P m Q E -> triple P (not_found m) (fun o f => match o with Some a => Q a f | None => E f end) E.
Proof.
  intros Hm. eapply (triple_catch _ _ _ _ E).
  - eapply triple_bind; [done|]. intros a. by apply triple_ret.
  - intros e. case_bool_decide; [by apply triple_ret|by apply triple_reraise].
Qed.

Lemma triple_identity (X : fs -> Prop) c : (forall f, X f -> kept f) -> plain_name c = true ->
  triple X (file_identity (dir ++ [c]))
    (fun i f => X f /\ exists n, node_at f (dir ++ [c]) = Some (i.2, n) /\ i.1 = i_dev n) X.
Proof.
  intros HX Hc. eapply triple_bind.
  - apply (triple_query Hquiet X _ (fun v f => X f /\ exists n, node_at f (dir ++ [c]) = Some (st_ino v, n) /\ st_dev v = i_dev n)); [done|].
    intros f v Hf Hv. split; [done|]. unfold fs_stat in Hv.
    rewrite (proj1 (kept_resolve f c (HX f Hf) Hc)) in Hv.
    destruct (node_at f (dir ++ [c])) as [[ino n]|]; [|done]. inv_ok. by exists n.
  - intros v. by apply triple_ret.
Qed.

Lemma triple_move X a b n : plain_name a = true -> plain_name b = true -> own (dir ++ [b]) ->
  (X <> Linked -> dir ++ [a] <> dest) ->
  triple (fun f => holds X f /\ node_at f (dir ++ [a]) = Some (t, n)) (_rename_noreplace (dir ++ [a]) (dir ++ [b]))
    (fun _ f => holds X f /\ node_at f (dir ++ [b]) = Some (t, n)) (holds X).
Proof.
  intros Ha Hb Hown Had. apply (triple_change Hquiet); [by intros f []|].
  intros f f' [Hf Hn] Hr. pose proof (holds_kept X f Hf) as Hk. unfold fs_rename in Hr.
  rewrite (proj2 (kept_resolve f a Hk Ha)), (proj2 (kept_resolve f b Hk Hb)) in Hr.
  pose proof (node_at_ino _ _ _ _ Hn) as Hna.
  destruct (kept_node f _ Hk Hna) as (n' & d & Hn' & Hd). rewrite Hn in Hn'. injection Hn' as <-. rewrite Hn in Hr.
  destruct (node_at f (dir ++ [b])) as [[i m]|] eqn:Eb; [done|]. apply node_at_none in Eb; [|done].
  rewrite Hd in Hr. inv_ok. split; [by apply move_own|]. unfold node_at in Hn |- *. rewrite Hna in Hn. simpl.
  rewrite lookup_insert_eq. by destruct (nodes f !! t).
Qed.

Lemma triple_unlink X b : plain_name b = true -> own (dir ++ [b]) ->
  triple (fun f => holds X f /\ names f !! (dir ++ [b]) = Some t) (unlink (dir ++ [b])) (fun _ => holds X) (holds X).
Proof.
  intros Hb Hown. apply (triple_change Hquiet); [by intros f []|].
  intros f f' [Hf Hn] Hr. pose proof (holds_kept X f Hf) as Hk. unfold fs_unlink in Hr.
  rewrite (proj2 (kept_resolve f b Hk Hb)) in Hr.
  destruct (kept_node f _ Hk Hn) as (n & d & Hna & Hd). rewrite Hna, Hd in Hr. inv_ok.
  assert (kept (tick (touch_nlink (-1) t (del_name (dir ++ [b]) f)))) as Hk'
    by (by apply kept_tick, kept_touch, kept_del).
  assert (names (tick (touch_nlink (-1) t (del_name (dir ++ [b]) f))) !! dest = names f !! dest) as Hdest.
  { pose proof (own_not_dest _ Hown). unfold touch_nlink. simpl.
    destruct (nodes f !! t); simpl; by rewrite lookup_delete_ne. }
  assert (complete f -> complete (tick (touch_nlink (-1) t (del_name (dir ++ [b]) f)))) as Hcomp
    by (intros Hco; by apply (complete_touch (-1) (del_name _ f))).
  destruct X; [destruct Hf as [_ Hf]|destruct Hf as [_ Hf]|destruct Hf as [[_ Hf] Hpub]; split]; try split; auto; congruence.
Qed.

Lemma triple_sync (X : fs -> Prop) p : triple X (sync_directory p) (fun _ => X) X.
Proof.
  eapply triple_bind; [apply (triple_query_same Hquiet)|]. intros fd.
  apply (triple_finally X _ _ (fun _ => X) (fun _ => X) X X); intros; apply (triple_query_same Hquiet).
Qed.

Lemma remove_safe X c dev : plain_name c = true -> (c = name /\ X = Linked \/ temp_name c) ->
  triple (holds X) (remove_if_identity (dir ++ [c]) (dev, t)) (fun _ => holds X) (holds X).
Proof.
  intros Hc Hcase.
  destruct (rollback_own (dir ++ [c]) c (dev, t) eq_refl) as (Hq & Hown & Hqp); [by destruct Hcase as [[? _]|?]; auto|].
  set (q := rollback_name (dir ++ [c]) (dev, t)) in *.
  assert (X <> Linked -> dir ++ [c] <> dest) as Hne.
  { intros HXu. destruct Hcase as [[_ HXp]|Ht]; [done|by apply own_not_dest, temp_own]. }
  eapply triple_bind; [apply triple_not_found, triple_identity; [apply holds_kept|done]|].
  intros [i|]; [|by apply triple_ret]. case_bool_decide as Hi; cbn [negb]; [|apply triple_ret; by intros f []].
  subst i. cbn [fst snd]. fold q. rewrite Hq. apply triple_lift_ok.
  apply triple_pre. intros f1 (Hf1 & n & Hn1 & Hdev). eapply triple_bind.
  - eapply (triple_conseq _ (fun f => holds X f /\ node_at f (dir ++ [c]) = Some (t, n))).
    + by apply triple_not_found, (triple_move X c q n).
    + by intros f ->.
    + intros a f Ha. exact Ha.
    + done.
  - intros [u|]; [|by apply triple_ret].
    eapply triple_bind.
    { eapply triple_conseq; [apply (triple_identity (fun f => holds X f /\ node_at f (dir ++ [q]) = Some (t, n))); [|done]|done| |].
      - intros f [Hf _]. by eapply holds_kept.
      - intros a f Ha. exact Ha.
      - by intros f []. }
    intros j. case_bool_decide as Hj; cbn [negb].
    + eapply (triple_bind _ _ (fun _ => holds X)); [eapply triple_conseq; [by apply (triple_unlink X q)| |done|done]|].
      { intros f [[Hf Hn] Hx]. split; [done|]. by eapply node_at_ino. }
      intros ?. eapply triple_bind; [apply triple_sync|]. intros ?. by apply triple_ret.
    + apply triple_pre. intros f ([Hf Hnq] & n' & Hn' & Hd'). exfalso. apply Hj.
      rewrite Hnq in Hn'. injection Hn' as Hi <-. destruct j as [jd ji]. simpl in *. congruence.
Qed.

(** *** Publishing *)

Definition ready (f : fs) : Prop := unpublished f /\ complete f.

Lemma triple_link c n : plain_name c = true ->
  triple (fun f => ready f /\ node_at f (dir ++ [c]) = Some (t, n)) (link (dir ++ [c]) dest)
    (fun _ => holds Published) ready.
Proof.
  intros Hc. apply (triple_change Hquiet); [by intros f []|]. intros f f' [[[Hk Hd] Hco] Hn] Hr.
  unfold fs_link in Hr. rewrite (proj1 (kept_resolve f c Hk Hc)), (proj2 (kept_resolve f name Hk name_plain)), Hn in Hr.
  destruct (kept_node f _ Hk (node_at_ino _ _ _ _ Hn)) as (n' & d & Hn' & Hkd). rewrite Hn in Hn'. injection Hn' as <-.
  destruct (node_at f dest) as [[]|] eqn:Ed; [done|]. apply node_at_none in Ed; [|done]. rewrite Hkd in Hr. inv_ok.
  split; [split|].
  - apply kept_tick, kept_touch, kept_set; [done|done|by left].
  - by apply (complete_touch 1 (set_name dest t f)).
  - unfold touch_nlink. simpl. destruct (nodes f !! t); simpl; apply lookup_insert_eq.
Qed.

Lemma publish_existing_safe c dev : plain_name c = true -> temp_name c ->
  triple ready (publish_existing (dir ++ [c]) dest (dev, t))
    (fun i f => i = (dev, t) /\ holds Published f) settled.
Proof.
  intros Hc Ht. assert (forall f, ready f -> settled f) as Hrs by (intros f [Hf _]; by apply (holds_settled Writing)).
  eapply triple_bind.
  { eapply triple_conseq; [apply (triple_identity ready c); [by intros f [[Hk _] _]|done]|done| |done]. intros a f Ha. exact Ha. }
  intros i. eapply (triple_bind _ _ (fun _ f => i = (dev, t) /\ ready f /\ exists n, node_at f (dir ++ [c]) = Some (t, n))).
  { apply triple_lift; [|by intros f [Hf _]; apply Hrs]. intros [] f Hi (Hf & n & Hn & _).
    apply raise_if_ok in Hi. bool_prop. subst i. eauto. }
  intros ?. apply triple_pre. intros f1 (-> & Hf1 & n & Hn).
  eapply (triple_bind _ _ (fun _ => holds Published)).
  - eapply (triple_catch _ _ _ _ ready).
    + eapply (triple_catch _ _ _ _ ready).
      * eapply triple_conseq; [by apply (triple_link c n)| |done|done]. by intros f ->.
      * intros e. case_bool_decide; [by apply triple_raise|by apply triple_reraise].
    + intros e. eapply (triple_bind _ _ (fun _ => holds Writing)).
      * eapply triple_conseq; [apply (remove_safe Writing c dev); auto|by intros f []|done|].
        intros f Hf. by apply (holds_settled Writing).
      * intros ?. apply triple_reraise. intros f Hf. by apply (holds_settled Writing).
  - intros ?. eapply (triple_catch _ _ _ _ (holds Published)).
    + eapply (triple_bind _ _ (fun _ => holds Published)).
      { eapply triple_conseq; [apply (triple_identity (holds Published) name); [apply holds_kept|done]|done|by intros ? ? []|done]. }
      intros j. eapply (triple_bind _ _ (fun _ => holds Published)); [by apply triple_lift|]. intros ?.
      eapply (triple_bind _ _ (fun _ => holds Published)); [apply (remove_safe Published c dev); auto|].
      intros removed. eapply (triple_bind _ _ (fun _ => holds Published)).
      * destruct removed; [by apply triple_ret|]. eapply (triple_bind _ _ (fun _ => holds Published)).
        -- eapply triple_conseq; [apply triple_not_found, (triple_identity (holds Published) c); [apply holds_kept|done]|done| |done].
           intros [x|] f; [by intros []|done].
        -- intros [x|]; [by apply triple_raise|by apply triple_ret].
      * intros ?. eapply triple_bind; [apply triple_sync|]. intros ?. by apply triple_ret.
    + intros e. eapply (triple_bind _ _ (fun _ => holds Linked)).
      * eapply triple_conseq; [apply (remove_safe Linked name dev); auto|by intros f []|done|].
        intros f Hf. by apply (holds_settled Linked).
      * intros ?. eapply (triple_bind _ _ (fun _ => holds Linked)).
        -- eapply triple_conseq; [apply (remove_safe Linked c dev); auto|done|done|].
           intros f Hf. by apply (holds_settled Linked).
        -- intros ?. apply triple_reraise. intros f Hf. by apply (holds_settled Linked).
Qed.

(** *** Writing the temporary file *)

Definition start (f : fs) : Prop := f = f0.

Lemma settled_stage f : settled f -> holds Writing f \/ holds Linked f.
Proof.
  intros [Hk Hc]. destruct (names f0 !! dest) as [i|] eqn:E0.
  - left. split; [done|]. rewrite E0. by apply (kept_names f Hk).
  - destruct (names f !! dest) as [i|] eqn:E; [|left; split; [done|congruence]].
    destruct (kept_new f Hk _ _ E E0) as [-> _]. right. split; auto.
Qed.

(** Removing the temporary name is safe wherever the program may stop. *)
Lemma remove_settled c dev : plain_name c = true -> temp_name c ->
  triple settled (remove_if_identity (dir ++ [c]) (dev, t)) (fun _ => settled) settled.
Proof.
  intros Hc Ht. apply triple_pre. intros f Hf. destruct (settled_stage f Hf) as [Hs|Hs].
  - eapply triple_conseq; [apply (remove_safe Writing c dev); auto|by intros g ->| |]; intros; by apply (holds_settled Writing).
  - eapply triple_conseq; [apply (remove_safe Linked c dev); auto|by intros g ->| |]; intros; by apply (holds_settled Linked).
Qed.

Lemma prefix_plain p : p `prefix_of` dir -> Forall (fun c => plain_name c = true) p.
Proof. intros [r Hr]. pose proof dir_plain as Hd. rewrite Hr in Hd. by apply Forall_app in Hd as [? _]. Qed.

Lemma create_refused perm p : p `prefix_of` dir -> fs_create me KDir perm f0 p = EEXIST.
Proof.
  intros Hp. pose proof (dir_real p Hp) as Hd. unfold is_dir_at in Hd.
  assert (locate f0 p = Ok p) as Hl.
  { pose proof (prefix_plain p Hp) as Hpl. destruct p as [|c q _] using rev_ind; [done|].
    apply Forall_app in Hpl as [Hpq Hpc]. apply Forall_cons_iff in Hpc as [Hpc _].
    apply locate_real; [done|done|]. intros r Hr. apply dir_real. etrans; [exact Hr|]. etrans; [|exact Hp]. by eexists. }
  unfold fs_create. rewrite Hl. by destruct (node_at f0 p) as [[]|].
Qed.

Lemma mkdir_existing perm p : p `prefix_of` dir ->
  triple start (mkdir_exist_ok perm p) (fun _ => start) start.
Proof.
  intros Hp. eapply (triple_catch _ _ _ _ start).
  - apply (triple_change Hquiet); [done|]. intros f f' -> Hr. by rewrite create_refused in Hr.
  - intros e. case_match; [|by apply triple_reraise].
    eapply triple_bind; [apply (triple_is_dir Hquiet)|]. intros []; [by apply triple_ret|by apply triple_reraise].
Qed.

Lemma mkdir_parents_existing perm rp : rev rp `prefix_of` dir ->
  triple start (mkdir_parents perm rp) (fun _ => start) start.
Proof.
  revert perm; induction rp as [|c rp IH]; intros perm Hp; cbn [mkdir_parents].
  - eapply (triple_catch _ _ _ _ start); [by apply mkdir_existing|]. intros e.
    case_bool_decide; by apply triple_reraise.
  - eapply (triple_catch _ _ _ _ start); [by apply mkdir_existing|]. intros e.
    case_bool_decide; [|by apply triple_reraise]. eapply triple_bind.
    + apply IH. etrans; [|exact Hp]. simpl. by eexists.
    + intros ?. by apply mkdir_existing.
Qed.

(** [d] is what the temporary file holds. *)
Definition written (d : bytes) (f : fs) : Prop :=
  unpublished f /\ exists n, nodes f !! t = Some n /\ i_kind n = KFile d.

Lemma written_settled d f : written d f -> settled f.
Proof. intros [Hf _]. by apply (holds_settled Writing). Qed.

(** Where [atomic_write] may stop. *)
Definition outcome (f : fs) : Prop := f = f0 \/ settled f.

Lemma triple_mkstemp candidates :
  triple start (mkstemp dir (str "." ++ name ++ str ".") candidates)
    (fun r f => r.1 = t /\ (exists c, r.2 = dir ++ [c] /\ temp_name c) /\ written [] f) start.
Proof.
  induction candidates as [|x l IH]; cbn [mkstemp]; [by apply triple_raise|].
  set (c := (str "." ++ name ++ str ".") ++ x).
  assert (temp_name c) as Hc by (apply startswith_prefix; by exists x).
  destruct (temp_own c Hc) as (c' & Heq & Hcn & Hpl & _). apply app_inj_2 in Heq as [_ Heq]; [|done].
  injection Heq as <-.
  eapply (triple_catch _ _ _ _ start).
  - eapply (triple_bind _ _ (fun fd f => fd = t /\ written [] f)); [|intros fd; apply triple_ret; naive_solver].
    apply (triple_syscall Hquiet); [done|]. intros f fd f' -> Hr. unfold fs_create in Hr.
    rewrite locate_real in Hr by done. destruct (node_at f0 (dir ++ [c])) as [[]|] eqn:En; [done|].
    inv_ok. split; [done|].
    assert (names f0 !! (dir ++ [c]) = None) as Hfree.
    { unfold node_at in En. destruct (names f0 !! (dir ++ [c])) as [i|] eqn:Ei; [|done].
      destruct (no_dangling _ _ Ei) as [n Hn]. by rewrite Hn in En. }
    split; [split|].
    + constructor; simpl.
      * intros k i Hk. rewrite lookup_insert_ne; [done|]. congruence.
      * intros k i Hk Hk0. destruct (decide (dir ++ [c] = k)) as [<-|].
        -- rewrite lookup_insert_eq in Hk. injection Hk as <-. split; [done|right; by apply temp_own].
        -- rewrite lookup_insert_ne in Hk by done. congruence.
      * intros i Hi. by rewrite lookup_insert_ne.
      * eexists _, []. split; [apply lookup_insert_eq|done].
      * lia.
    + simpl. rewrite lookup_insert_ne; [done|]. by apply own_not_dest, temp_own.
    + eexists. simpl. split; [apply lookup_insert_eq|done].
  - intros e. case_bool_decide; [apply IH|by apply triple_reraise].
Qed.

(** A change of the temporary file's inode only. *)
Lemma unpublished_node n d f : unpublished f -> i_kind n = KFile d -> unpublished (tick (set_node t n f)).
Proof.
  intros [[H1 H2 H3 H4 H5] Hd] Hn. split; [|done]. constructor; [done|done| | |done].
  - intros i Hi. simpl. rewrite lookup_insert_ne by done. auto.
  - exists n, d. split; [apply lookup_insert_eq|done].
Qed.

Lemma triple_write d x : triple (written d) (write_fd t x) (fun _ => written (d ++ x)) (holds Writing).
Proof.
  apply (triple_change Hquiet); [by intros f []|]. intros f f' [Hu (n & Hn & Hk)] Hr.
  unfold fs_write in Hr. rewrite Hn, Hk in Hr. inv_ok. split.
  - by eapply unpublished_node.
  - eexists. split; [apply lookup_insert_eq|done].
Qed.

Lemma triple_chunks d chunks :
  triple (written d) (write_chunks t chunks) (fun _ => written (d ++ concat chunks)) (holds Writing).
Proof.
  unfold write_chunks. generalize tt. revert d; induction chunks as [|x l IH]; intros d u; simpl.
  - apply triple_ret. intros f. by rewrite app_nil_r.
  - eapply triple_bind; [apply triple_write|]. intros v. rewrite app_assoc. apply IH.
Qed.

Lemma triple_fchmod : triple (written content) (fchmod t 0x180) (fun _ => ready) (holds Writing).
Proof.
  apply (triple_change Hquiet); [by intros f []|]. intros f f' [Hu (n & Hn & Hk)] Hr.
  unfold fs_chmod in Hr. rewrite Hn in Hr. inv_ok. split.
  - by eapply unpublished_node.
  - eexists. split; [apply lookup_insert_eq|done].
Qed.

Lemma triple_descriptor (P : fs -> Prop) : triple P (descriptor_identity t) (fun i f => i.2 = t /\ P f) P.
Proof.
  eapply (triple_bind _ _ (fun v f => st_ino v = t /\ P f)).
  - apply (triple_query Hquiet); [done|]. intros f v Hf Hv. unfold fs_fstat in Hv.
    destruct (nodes f !! t); [|done]. by inv_ok.
  - intros v. by apply triple_ret.
Qed.

Lemma atomic_write_by candidates write :
  triple (written []) (write t) (fun _ => written content) (holds Writing) ->
  triple start (atomic_write candidates dest write) (fun i f => i.2 = t /\ holds Published f) outcome.
Proof.
  intros Hwrite. assert (forall f, settled f -> outcome f) as Hso by (by right).
  assert (parent_of dest = dir /\ name_of dest = name) as [Hpar Hnam].
  { unfold parent_of, name_of. by rewrite removelast_last, last_last. }
  unfold atomic_write. rewrite Hpar, Hnam.
  eapply (triple_bind _ _ (fun _ => start)).
  { eapply triple_conseq; [apply mkdir_parents_existing|done|done|by left]. rewrite rev_involutive. exists []. by rewrite app_nil_r. }
  intros ?. eapply triple_bind; [eapply triple_conseq; [apply triple_mkstemp|done|intros ? ? Ha; exact Ha|by left]|].
  intros [fd temporary]. cbn [fst snd]. apply triple_pre. intros f1 (-> & (c & -> & Hc) & Hw).
  eapply (triple_bind _ _ (fun i f => i.2 = t /\ written [] f)).
  { eapply triple_conseq; [apply (triple_descriptor (written []))|by intros f ->|done|].
    intros f Hf. by eapply Hso, written_settled. }
  intros [dev i]. cbn [fst snd]. apply triple_pre. intros f2 (-> & Hw2).
  destruct (temp_own c Hc) as (c' & Heq & _ & Hpl & _). apply app_inj_2 in Heq as [_ Heq]; [|done]. injection Heq as <-.
  eapply (triple_catch _ _ _ _ settled).
  - eapply (triple_bind _ _ (fun _ => ready)).
    + apply (triple_finally _ _ _ (fun _ => ready) (fun _ => ready) (holds Writing) settled).
      * eapply (triple_bind _ _ (fun _ => written content)).
        { eapply triple_conseq; [exact Hwrite|by intros f ->|done|done]. }
        intros ?. eapply triple_bind; [apply triple_fchmod|]. intros ?.
        eapply (triple_bind _ _ (fun _ => ready)).
        { eapply triple_conseq; [apply (triple_query_same Hquiet ready)|done|done|by intros f []]. }
        intros ?. eapply (triple_bind _ _ (fun _ => ready)).
        { eapply triple_conseq; [apply (triple_descriptor ready)|done|by intros ? ? []|by intros f []]. }
        intros ?. apply triple_lift; [done|by intros f []].
      * intros ?. eapply triple_conseq; [apply (triple_query_same Hquiet ready)|done|done|].
        intros f [Hf _]. by apply (holds_settled Writing).
      * eapply triple_conseq; [apply (triple_query_same Hquiet (holds Writing))|done| |];
          intros; by apply (holds_settled Writing).
    + intros ?. eapply triple_conseq; [by apply (publish_existing_safe c dev)|done|by intros ? ? [-> ?]|done].
  - intros e. eapply triple_bind.
    + eapply triple_conseq; [by apply (remove_settled c dev)|done|intros ? ? Ha; exact Ha|done].
    + intros ?. by apply triple_reraise.
Qed.

Lemma atomic_write_triple candidates chunks : concat chunks = content ->
  triple start (atomic_write candidates dest (fun fd => write_chunks fd chunks)) (fun i f => i.2 = t /\ holds Published f) outcome.
Proof.
  intros Hcontent. apply atomic_write_by. eapply triple_conseq; [apply (triple_chunks [] chunks)|done|by rewrite Hcontent|done].
Qed.


(** *** The run without failures *)

Section success.
Context (Hok : faultless) (own_free : forall k, own k -> names f0 !! k = None) (dest_free : names f0 !! dest = None).

Lemma runs_identity f c n : kept f -> plain_name c = true -> node_at f (dir ++ [c]) = Some (t, n) ->
  runs (file_identity (dir ++ [c])) f (Ok (i_dev n, t)) f.
Proof.
  intros Hk Hc Hn. apply (runs_bind _ _ f (stat_of t n) f); [|apply (runs_ret (i_dev n, t))].
  apply (runs_query Hok _ _ (Ok (stat_of t n))). unfold fs_stat.
  by rewrite (proj1 (kept_resolve f c Hk Hc)), Hn.
Qed.

Lemma runs_descriptor f n : nodes f !! t = Some n -> runs (descriptor_identity t) f (Ok (i_dev n, t)) f.
Proof.
  intros Hn. apply (runs_bind _ _ f (stat_of t n) f); [|apply (runs_ret (i_dev n, t))].
  apply (runs_query Hok _ _ (Ok (stat_of t n))). unfold fs_fstat. by rewrite Hn.
Qed.

(** Following the links of a path that has none. *)
Lemma real_resolve f p : kept f -> p `prefix_of` dir -> resolve f true p = Ok p.
Proof.
  intros Hk Hp. unfold resolve. cbn [resolve_from]. apply (walk_real f true _ [] p).
  - by apply prefix_plain.
  - intros q Hq. apply (kept_real f Hk). by etrans.
Qed.

Lemma runs_sync f : kept f -> runs (sync_directory dir) f (Ok tt) f.
Proof.
  intros Hk. assert (dir `prefix_of` dir) as Hp by (exists []; by rewrite app_nil_r).
  pose proof (kept_real f Hk dir Hp) as Hd. unfold is_dir_at in Hd.
  destruct (node_at f dir) as [[i n]|] eqn:En; [|done]. destruct (i_kind n) eqn:Ek; try done.
  eapply (runs_bind _ _ f i f).
  - apply (runs_query Hok _ _ (Ok i)). unfold fs_open. cbn [negb]. rewrite (real_resolve f dir Hk Hp), En. by rewrite Ek.
  - eapply runs_finally; by apply (runs_query Hok).
Qed.

(** Removing a name of the temporary file through its quarantine. *)
Lemma runs_remove f c n : kept f -> plain_name c = true -> temp_name c ->
  node_at f (dir ++ [c]) = Some (t, n) -> names f !! (dir ++ [rollback_name (dir ++ [c]) (i_dev n, t)]) = None ->
  exists f', runs (remove_if_identity (dir ++ [c]) (i_dev n, t)) f (Ok true) f' /\ kept f' /\
    names f' = delete (dir ++ [c]) (names f) /\
    (complete f -> complete f').
Proof.
  intros Hk Hc Ht Hn Hfree. set (q := rollback_name (dir ++ [c]) (i_dev n, t)) in *.
  destruct (rollback_own (dir ++ [c]) c (i_dev n, t) eq_refl (or_intror Ht)) as (Hq & Hown & Hqp). fold q in Hq, Hown, Hqp.
  pose proof (node_at_ino _ _ _ _ Hn) as Hnt. destruct (kept_node f _ Hk Hnt) as (n' & d & Hn' & Hkd).
  rewrite Hn in Hn'. injection Hn' as <-.
  assert (nodes f !! t = Some n) as Hnode.
  { unfold node_at in Hn. rewrite Hnt in Hn. destruct (nodes f !! t); congruence. }
  assert (dir ++ [c] <> dir ++ [q]) as Hcq by (intros Heq; congruence).
  set (f1 := tick (set_name (dir ++ [q]) t (del_name (dir ++ [c]) f))).
  set (f2 := tick (touch_nlink (-1) t (del_name (dir ++ [q]) f1))).
  assert (kept f1) as Hk1.
  { apply kept_tick, kept_set; [by apply kept_del| |by right]. simpl. by rewrite lookup_delete_ne. }
  assert (names f1 !! (dir ++ [q]) = Some t) as Hq1 by apply lookup_insert_eq.
  assert (node_at f1 (dir ++ [q]) = Some (t, n)) as Hn1 by (unfold node_at; by rewrite Hq1; simpl; rewrite Hnode).
  assert (kept f2) as Hk2 by (by apply kept_tick, kept_touch, kept_del).
  exists f2. split_and!.
  - unfold remove_if_identity.
    eapply runs_bind; [apply runs_catch; eapply runs_bind; [by apply runs_identity|apply runs_ret]|].
    cbv beta iota. rewrite bool_decide_true by done. cbn [negb]. fold q. rewrite Hq.
    eapply runs_bind; [apply runs_lift|].
    eapply (runs_bind _ _ f (Some tt) f1).
    { apply runs_catch. eapply runs_bind; [|apply runs_ret]. apply (runs_change Hok). unfold fs_rename.
      rewrite (proj2 (kept_resolve f c Hk Hc)), (proj2 (kept_resolve f q Hk Hqp)), Hn.
      unfold node_at at 1. rewrite Hfree. by rewrite Hkd. }
    eapply runs_bind; [by apply runs_identity|]. rewrite bool_decide_true by done. cbn [negb].
    eapply (runs_bind _ _ f1 tt f2).
    { apply (runs_change Hok). unfold fs_unlink. by rewrite (proj2 (kept_resolve f1 q Hk1 Hqp)), Hn1, Hkd. }
    eapply runs_bind; [|apply runs_ret]. unfold parent_of. rewrite removelast_last. by apply runs_sync.
  - done.
  - unfold f2, touch_nlink. simpl. destruct (nodes f !! t); simpl; rewrite delete_insert_id; try done;
      by rewrite lookup_delete_ne.
  - intros Hco. by apply (complete_touch (-1) (del_name _ f1)).
Qed.

Lemma runs_mkdir_parents perm : runs (mkdir_parents perm (rev dir)) f0 (Ok tt) f0.
Proof.
  assert (dir `prefix_of` dir) as Hp by (exists []; by rewrite app_nil_r).
  pose proof (dir_real dir Hp) as Hd. unfold is_dir_at in Hd.
  destruct (node_at f0 dir) as [[i n]|] eqn:En; [|done]. destruct (i_kind n) eqn:Ek; try done.
  assert (runs (mkdir_exist_ok perm dir) f0 (Ok tt) f0) as Hm.
  { eapply runs_catch_err; [apply (runs_change_err Hok); by rewrite create_refused|]. cbn.
    eapply (runs_bind _ _ f0 true f0); [|apply runs_ret].
    apply runs_catch. eapply (runs_bind _ _ f0 (stat_of i n) f0); [|rewrite <-(s_isdir_stat i n Ek); apply runs_ret].
    - apply (runs_query Hok). unfold fs_stat.
      assert (resolve f0 true dir = Ok dir) as ->; [|by rewrite En].
      unfold resolve. cbn [resolve_from]. apply (walk_real f0 true _ [] dir); [done|done]. }
  destruct (rev dir) as [|c rp] eqn:Er; cbn [mkdir_parents]; rewrite <-Er, rev_involutive; by apply runs_catch.
Qed.

Lemma runs_mkstemp x l : let c := (str "." ++ name ++ str ".") ++ x in
  exists f1 n, runs (mkstemp dir (str "." ++ name ++ str ".") (x :: l)) f0 (Ok (t, dir ++ [c])) f1 /\
    unpublished f1 /\ names f1 = <[dir ++ [c] := t]> (names f0) /\ nodes f1 !! t = Some n /\ i_kind n = KFile [].
Proof.
  intros c. assert (temp_name c) as Hc by (apply startswith_prefix; by exists x).
  pose proof (temp_own c Hc) as Hown. pose proof (own_free _ Hown) as Hfree.
  assert (plain_name c = true) as Hpl.
  { destruct Hown as (c' & Heq & _ & Hpl & _). apply app_inj_2 in Heq as [_ Heq]; [|done]. by injection Heq as <-. }
  set (f1 := tick (set_name (dir ++ [c]) t (FS (names f0)
    (<[t := new_node me (KFile []) 0x180 (match node_at f0 (removelast (dir ++ [c])) with Some (_, d) => i_dev d | None => 0 end) f0]>
      (nodes f0)) (t + 1) (now f0)))).
  exists f1. eexists.
  assert (runs (mkstemp dir (str "." ++ name ++ str ".") (x :: l)) f0 (Ok (t, dir ++ [c])) f1) as Hrun.
  { cbn [mkstemp]. fold c. apply runs_catch. eapply (runs_bind _ _ f0 t f1); [|apply runs_ret].
    intros k. destruct (runs_syscall Hok (fun f => fs_create me (KFile []) 0x180 f (dir ++ [c])) f0 k) as [k' Hk].
    exists k'. unfold create_excl. rewrite Hk. unfold fs_create. rewrite locate_real by done.
    unfold node_at at 1 3. by rewrite Hfree. }
  split_and!; [done| |done|apply lookup_insert_eq|done].
  destruct (Hrun O) as [k' Hk]. pose proof (triple_mkstemp (x :: l) (World f0 0) eq_refl) as Ht. rewrite Hk in Ht.
  by destruct Ht as (_ & _ & [Hu _]).
Qed.

Lemma runs_chunks chunks f n d : nodes f !! t = Some n -> i_kind n = KFile d -> unpublished f ->
  exists f' n', runs (write_chunks t chunks) f (Ok tt) f' /\ names f' = names f /\ unpublished f' /\
    nodes f' !! t = Some n' /\ i_kind n' = KFile (d ++ concat chunks) /\ i_dev n' = i_dev n.
Proof.
  unfold write_chunks. revert f n d; induction chunks as [|x l IH]; intros f n d Hn Hk Hu.
  - exists f, n. simpl. rewrite app_nil_r. split_and!; try done. apply runs_ret.
  - set (n1 := Inode (KFile (d ++ x)) (i_perm n) (i_uid n) (i_gid n) (i_dev n) (i_nlink n) (now f) (now f) (i_xattrs n)).
    destruct (IH (tick (set_node t n1 f)) n1 (d ++ x)) as (f' & n' & Hr & Hnm & Hu' & Hn' & Hk' & Hd'); try done.
    + apply lookup_insert_eq.
    + by eapply unpublished_node.
    + exists f', n'. split_and!; try done; [|by rewrite Hk'; simpl; rewrite app_assoc].
      cbn [mfor_each]. eapply runs_bind; [|exact Hr]. apply (runs_change Hok). unfold fs_write. by rewrite Hn, Hk.
Qed.

(** Publishing a complete temporary file. *)
Lemma runs_publish f n tc : ready f -> temp_name tc -> names f = <[dir ++ [tc] := t]> (names f0) ->
  nodes f !! t = Some n ->
  exists f', runs (publish_existing (dir ++ [tc]) dest (i_dev n, t)) f (Ok (i_dev n, t)) f' /\
    names f' = <[dest := t]> (names f0) /\ complete f'.
Proof.
  intros [[Hk Hd] Hco] Htc Hnm Hn. pose proof (temp_own tc Htc) as Hown. pose proof (own_not_dest _ Hown) as Hnd.
  assert (plain_name tc = true) as Hpl.
  { destruct Hown as (c' & Heq & _ & Hpl & _). apply app_inj_2 in Heq as [_ Heq]; [|done]. by injection Heq as <-. }
  assert (names f !! (dir ++ [tc]) = Some t) as Htemp by (rewrite Hnm; apply lookup_insert_eq).
  assert (node_at f (dir ++ [tc]) = Some (t, n)) as Hnode by (unfold node_at; by rewrite Htemp, Hn).
  assert (names f !! dest = None) as Hdest by congruence.
  destruct (kept_node f _ Hk Htemp) as (n' & d & Hn' & Hkd). rewrite Hnode in Hn'. injection Hn' as <-.
  set (f1 := tick (touch_nlink 1 t (set_name dest t f))).
  assert (kept f1) as Hk1 by (apply kept_tick, kept_touch, kept_set; [done|done|by left]).
  assert (complete f1) as Hco1 by (by apply (complete_touch 1 (set_name dest t f))).
  assert (names f1 = <[dest := t]> (names f)) as Hnm1 by (unfold f1, touch_nlink; simpl; by rewrite Hn).
  assert (exists n1, nodes f1 !! t = Some n1 /\ i_dev n1 = i_dev n) as (n1 & Hn1 & Hdev).
  { unfold f1, touch_nlink. simpl. rewrite Hn. eexists. split; [apply lookup_insert_eq|done]. }
  assert (forall k, names f1 !! k = Some t -> node_at f1 k = Some (t, n1)) as Hat
    by (intros k Hk'; unfold node_at; by rewrite Hk', Hn1).
  destruct (runs_remove f1 tc n1 Hk1 Hpl Htc) as (f2 & Hr2 & Hk2 & Hnm2 & Hco2).
  { apply Hat. rewrite Hnm1, lookup_insert_ne by done. done. }
  { destruct (rollback_own (dir ++ [tc]) tc (i_dev n1, t) eq_refl (or_intror Htc)) as (_ & Hqo & _).
    rewrite Hnm1, Hnm, lookup_insert_ne, lookup_insert_ne; [by apply own_free| |by apply not_eq_sym, own_not_dest].
    intros Heq. apply app_inj_2 in Heq as [_ Heq]; [|done]. injection Heq as Heq. apply (f_equal length) in Heq.
    unfold rollback_name, name_of in Heq. rewrite last_last, !length_app in Heq. simpl in Heq. lia. }
  rewrite Hdev in Hr2. exists f2. split_and!; [| |auto].
  - unfold publish_existing. eapply runs_bind; [by apply runs_identity|].
    rewrite bool_decide_true by done. eapply runs_bind; [apply runs_lift|].
    eapply (runs_bind _ _ f tt f1).
    { apply runs_catch, runs_catch, (runs_change Hok). unfold fs_link.
      rewrite (proj1 (kept_resolve f tc Hk Hpl)), (proj2 (kept_resolve f name Hk name_plain)), Hnode.
      unfold node_at at 1. rewrite Hdest. by rewrite Hkd. }
    apply runs_catch. eapply runs_bind.
    { apply (runs_identity f1 name n1); [done|done|]. apply Hat. rewrite Hnm1. apply lookup_insert_eq. }
    rewrite Hdev, bool_decide_true by done. eapply runs_bind; [apply runs_lift|].
    eapply runs_bind; [exact Hr2|]. cbv iota. eapply runs_bind; [apply runs_ret|].
    eapply runs_bind; [|apply runs_ret]. unfold parent_of. rewrite removelast_last. by apply runs_sync.
  - rewrite Hnm2, Hnm1, Hnm. rewrite delete_insert_ne by done. rewrite delete_insert_id; [done|].
    by apply own_free.
Qed.

End success.
End safety.

(** ** A directory to publish in *)

Definition sample_dir : inode := Inode KDir 0x1ed 0 0 1 2 0 0 [].
Definition sample_fs : fs := FS {[ [] := 1; [str "out"] := 2 ]} {[ 1 := sample_dir; 2 := sample_dir ]} 10 0.

(** A machine on which every third call fails, and one on which none does. *)
Definition failing_machine : machine :=
  Machine (fun _ f => f) (fun n => if (n mod 3 =? 2)%nat then Some (Exn OSError "injected") else None) (User 0 0 0x12) 77.
Definition good_machine : machine := Machine (fun _ f => f) (fun _ => None) (User 0 0 0x12) 77.

Lemma sample_names k i : names sample_fs !! k = Some i -> k = [] /\ i = 1 \/ k = [str "out"] /\ i = 2.
Proof. simpl. rewrite lookup_insert_Some, lookup_singleton_Some. naive_solver. Qed.

Lemma sample_real : real_dir sample_fs [str "out"].
Proof.
  intros q [r Hr]. destruct q as [|c [|d q]]; [reflexivity| |done]. by injection Hr as <- _.
Qed.

Lemma sample_free k : names sample_fs !! k <> Some (fresh sample_fs).
Proof. intros Hk. by apply sample_names in Hk as [[_ Hi]|[_ Hi]]. Qed.

Lemma sample_dangling k i : names sample_fs !! k = Some i -> is_Some (nodes sample_fs !! i).
Proof. intros Hk. by apply sample_names in Hk as [[_ ->]|[_ ->]]; eexists. Qed.

Lemma sample_plain : Forall (fun c => plain_name c = true) [str "out"].
Proof. by repeat constructor. Qed.


Lemma sample_own k : own [str "out"] (str "m") k -> names sample_fs !! k = None.
Proof.
  intros (c & -> & _). destruct (names sample_fs !! ([str "out"] ++ [c])) eqn:E; [|done].
  by apply sample_names in E as [[? _]|[? _]].
Qed.

End Publish.
