(* ===== verification/PublishPair.v ===== *)
(** * Publishing two files, and taking the first back

    A program that publishes a file and then another, and removes the first when the
    second cannot be published, never touches what existed before. *)
From Stdlib Require Import ZArith Lia.
From Stdlib Require Import Init.Byte.
From stdpp Require Import base list sets strings option gmap.
From S2P Require Import Prelude PyStr PyVal Bytes Sys FsRules Publish.

Open Scope string_scope.
Open Scope list_scope.
Open Scope Z_scope.

Module PublishPair.
Import Publish.

(** A file system whose numbers are allocated in order, without dangling names. *)
Record based (f : fs) : Prop := {
  bs_fresh : fresh_ok f;
  bs_node : forall k i, names f !! k = Some i -> is_Some (nodes f !! i) }.

(** Everything that existed is there, unchanged. *)
Record extends (f0 f : fs) : Prop := {
  ex_names : forall k i, names f0 !! k = Some i -> names f !! k = Some i;
  ex_nodes : forall i n, nodes f0 !! i = Some n -> nodes f !! i = Some n }.

#[global] Instance extends_refl : Reflexive extends.
Proof. by constructor. Qed.
#[global] Instance extends_trans : Transitive extends.
Proof. intros f g h [] []. constructor; auto. Qed.

Lemma based_free f : based f -> forall k, names f !! k <> Some (fresh f).
Proof. intros Hb k Hk. destruct (bs_node f Hb _ _ Hk) as [n Hn]. apply (bs_fresh f Hb) in Hn. lia. Qed.

Lemma extends_real f0 f d : extends f0 f -> real_dir f0 d -> real_dir f d.
Proof.
  intros He Hr q Hq. specialize (Hr q Hq). unfold is_dir_at, node_at in *. destruct (names f0 !! q) as [i|] eqn:E; [|done].
  rewrite (ex_names _ _ He _ _ E). destruct (nodes f0 !! i) as [n|] eqn:En; [|done]. by rewrite (ex_nodes _ _ He _ _ En).
Qed.

Section kept.
Context (f0 : fs) (Hb : based f0) (dir : path) (name : pystr).

Lemma kept_extends f : kept f0 dir name f -> extends f0 f.
Proof.
  intros Hk. constructor; [apply Hk|]. intros i n Hi. rewrite (kept_nodes _ _ _ _ Hk); [done|].
  intros ->. apply (bs_fresh f0 Hb) in Hi. lia.
Qed.

Lemma kept_based f : kept f0 dir name f -> based f.
Proof.
  intros Hk. destruct (kept_file _ _ _ _ Hk) as (m & d & Hm & _). constructor.
  - intros i n Hi. pose proof (kept_fresh _ _ _ _ Hk). destruct (decide (i = fresh f0)) as [->|Hne]; [lia|].
    rewrite (kept_nodes _ _ _ _ Hk) in Hi by done. apply (bs_fresh f0 Hb) in Hi. lia.
  - intros k i Hi. destruct (names f0 !! k) as [j|] eqn:E.
    + rewrite (kept_names _ _ _ _ Hk _ _ E) in Hi. injection Hi as <-. destruct (bs_node f0 Hb _ _ E) as [n Hn].
      exists n. by apply (ex_nodes _ _ (kept_extends f Hk)).
    + destruct (kept_new _ _ _ _ Hk _ _ Hi E) as [-> _]. by exists m.
Qed.
End kept.

(** ** Removing a file that was not there before *)
Section removal.
Context `{machine} (Hquiet : quiet) (f0 : fs) (Hb : based f0) (dir : path) (c : pystr) (t : Z).
Context (Hplain : plain_path (dir ++ [c])) (Hreal : real_dir f0 dir) (Ht : nodes f0 !! t = None).

Definition new_file (f : fs) : Prop := extends f0 f /\ exists n d, nodes f !! t = Some n /\ i_kind n = KFile d.

Lemma new_located f x : new_file f -> plain_name x = true ->
  resolve f false (dir ++ [x]) = Ok (dir ++ [x]) /\ locate f (dir ++ [x]) = Ok (dir ++ [x]).
Proof.
  intros [He _] Hx. assert (plain_path (dir ++ [x])) as Hp.
  { apply plain_app in Hplain as [? _]. apply plain_app. split; [done|]. by constructor. }
  assert (real_dir f dir) by (by eapply extends_real). split; [by apply resolve_child|by apply locate_child].
Qed.

Lemma old_not_t k i : names f0 !! k = Some i -> i <> t.
Proof. intros Hk ->. destruct (bs_node f0 Hb _ _ Hk) as [n Hn]. congruence. Qed.

(** A name of the new file may go. *)
Lemma new_delete f k : new_file f -> names f !! k = Some t -> new_file (del_name k f).
Proof.
  intros [He Hf] Hk. split; [|done]. constructor; [|apply He]. intros k' i Hi. simpl. rewrite lookup_delete_ne; [by apply He|].
  intros ->. rewrite (ex_names _ _ He _ _ Hi) in Hk. injection Hk as ->. by apply (old_not_t k' t).
Qed.

Lemma new_insert f k : new_file f -> node_at f k = None -> new_file (set_name k t f).
Proof.
  intros [He Hf] Hk. split; [|done]. constructor; [|apply He]. intros k' i Hi. simpl. rewrite lookup_insert_ne; [by apply He|].
  intros ->. destruct (bs_node f0 Hb _ _ Hi) as [n Hn]. unfold node_at in Hk.
  rewrite (ex_names _ _ He _ _ Hi), (ex_nodes _ _ He _ _ Hn) in Hk. done.
Qed.

Lemma new_touch f d : new_file f -> new_file (touch_nlink d t f).
Proof.
  intros [He (n & x & Hn & Hk)]. unfold touch_nlink. rewrite Hn. split.
  - constructor; simpl; [apply He|]. intros i m Hi. rewrite lookup_insert_ne by congruence. by apply He.
  - eexists _, x. split; [apply lookup_insert_eq|done].
Qed.

Lemma new_tick f : new_file f -> new_file (tick f).
Proof. intros [[? ?] ?]. by split. Qed.

Lemma identity_triple x : plain_name x = true ->
  triple new_file (file_identity (dir ++ [x]))
    (fun i f => new_file f /\ exists n, node_at f (dir ++ [x]) = Some (i.2, n) /\ i_dev n = i.1) new_file.
Proof.
  intros Hx. eapply (triple_bind _ _ (fun v f => new_file f /\ exists n, node_at f (dir ++ [x]) = Some (st_ino v, n) /\ i_dev n = st_dev v)).
  - apply (triple_query Hquiet); [done|]. intros f v Hf Hv. unfold fs_stat in Hv. rewrite (proj1 (new_located f x Hf Hx)) in Hv.
    destruct (node_at f (dir ++ [x])) as [[i n]|] eqn:Hn; [|done]. injection Hv as <-. split; [done|]. by exists n.
  - intros v. by apply triple_ret.
Qed.

Lemma move_triple a b n : plain_name a = true -> plain_name b = true ->
  triple (fun f => new_file f /\ node_at f (dir ++ [a]) = Some (t, n)) (_rename_noreplace (dir ++ [a]) (dir ++ [b]))
    (fun _ f => new_file f /\ node_at f (dir ++ [b]) = Some (t, n)) new_file.
Proof.
  intros Ha Hbp. apply (triple_change Hquiet); [by intros f []|]. intros f f' [Hf Hn] Hr. unfold fs_rename in Hr.
  rewrite (proj2 (new_located f a Hf Ha)), (proj2 (new_located f b Hf Hbp)), Hn in Hr.
  pose proof (node_at_nodes _ _ _ _ Hn) as [Hna Hno]. destruct (proj2 Hf) as (n' & d & Hn' & Hd). rewrite Hno in Hn'. injection Hn' as <-.
  destruct (node_at f (dir ++ [b])) as [[]|] eqn:Eb; [done|]. rewrite Hd in Hr. injection Hr as <-. split.
  - apply new_tick, new_insert; [by apply new_delete|]. unfold node_at in Eb |- *. simpl.
    destruct (decide (dir ++ [a] = dir ++ [b])) as [->|Hne]; [by rewrite lookup_delete_eq|by rewrite lookup_delete_ne].
  - unfold node_at. simpl. by rewrite lookup_insert_eq, Hno.
Qed.

Lemma unlink_new_triple x : plain_name x = true ->
  triple (fun f => new_file f /\ names f !! (dir ++ [x]) = Some t) (unlink (dir ++ [x])) (fun _ => new_file) new_file.
Proof.
  intros Hx. apply (triple_change Hquiet); [by intros f []|]. intros f f' [Hf Hn] Hr. unfold fs_unlink in Hr.
  rewrite (proj2 (new_located f x Hf Hx)) in Hr. destruct (proj2 Hf) as (n & d & Hno & Hd).
  unfold node_at in Hr. rewrite Hn, Hno, Hd in Hr. injection Hr as <-. by apply new_tick, new_touch, new_delete.
Qed.

Lemma remove_new dev : triple new_file (remove_if_identity (dir ++ [c]) (dev, t)) (fun _ => new_file) new_file.
Proof.
  assert (plain_name c = true) as Hc by (apply plain_app in Hplain as [_ Hp]; by apply Forall_cons_iff in Hp as [? _]).
  set (q := rollback_name (dir ++ [c]) (dev, t)).
  assert (plain_name q = true) as Hq.
  { apply (long_plain q). unfold q, rollback_name. rewrite !length_app. simpl. lia. }
  assert (with_name (dir ++ [c]) q = Ok (dir ++ [q])) as Hw by (unfold with_name; rewrite removelast_last; by destruct (dir ++ [c]) eqn:E; [destruct dir|]).
  eapply triple_bind; [apply triple_not_found, identity_triple; exact Hc|].
  intros [i|]; [|by apply triple_ret]. case_bool_decide as Hi; cbn [negb]; [|apply triple_ret; by intros f []].
  subst i. cbn [fst snd]. fold q. rewrite Hw. apply triple_lift_ok.
  apply triple_pre. intros f1 (Hf1 & n & Hn1 & Hdev). eapply triple_bind.
  - eapply (triple_conseq _ (fun f => new_file f /\ node_at f (dir ++ [c]) = Some (t, n)));
      [by apply triple_not_found, (move_triple c q n)|by intros f ->|intros a f Ha; exact Ha|done].
  - intros [u|]; [|by apply triple_ret].
    eapply (triple_bind _ _ (fun j f => j = (dev, t) /\ new_file f /\ names f !! (dir ++ [q]) = Some t)).
    { apply (triple_pre (fun f => new_file f /\ node_at f (dir ++ [q]) = Some (t, n))). intros f2 [Hf2 Hn2].
      eapply triple_conseq; [apply (obs_triple (fun f => f = f2) (file_identity (dir ++ [q])) (fun _ i => i = (dev, t)))|done| |].
      - intros f ->. eapply obs_bind; [by apply obs_query|]. intros v Hv. cbv beta in Hv. unfold fs_stat in Hv.
        rewrite (proj1 (new_located f2 q Hf2 Hq)), Hn2 in Hv. injection Hv as <-. apply obs_ret. simpl. by rewrite Hdev.
      - intros i f [-> ->]. split_and!; [done|done|by apply node_at_nodes in Hn2 as []].
      - by intros f ->. }
    intros j. apply triple_pre. intros f2 (-> & Hf2 & Hn2). rewrite bool_decide_true by done. cbn [negb].
    eapply (triple_bind _ _ (fun _ => new_file)); [eapply triple_conseq; [by apply (unlink_new_triple q)|by intros f ->|done|done]|].
    intros ?. eapply triple_bind; [by apply triple_sync|]. intros ?. by apply triple_ret.
Qed.
End removal.
End PublishPair.
