(* ===== verification/Keeps.v ===== *)
(** * Invariants of programs

    [keeps I m]: wherever [I] holds before [m], it holds after it, also when a system
    call fails.  Rules for the constructs of programs, and the invariants that the
    removal and publication of files keep: every file keeps its content and metadata,
    and what a given file system holds stays. *)
From Stdlib Require Import ZArith Lia.
From Stdlib Require Import Init.Byte.
From stdpp Require Import base list sets strings option gmap.
From S2P Require Import Prelude PyStr PyVal Bytes Sys Held FsRules Publish PublishPair.

Open Scope string_scope.
Open Scope list_scope.
Open Scope Z_scope.

Module Keeps.
Import PublishPair.

Definition keeps {A} (I : fs -> Prop) (m : M A) : Prop := triple I m (fun _ => I) I.

(** Two postconditions of one run. *)
Lemma triple_and {A} (P1 P2 : fs -> Prop) (m : M A) Q1 Q2 (E1 E2 : fs -> Prop) :
  triple P1 m Q1 E1 -> triple P2 m Q2 E2 ->
  triple (fun f => P1 f /\ P2 f) m (fun a f => Q1 a f /\ Q2 a f) (fun f => E1 f /\ E2 f).
Proof. intros H1 H2 w [Hw1 Hw2]. specialize (H1 w Hw1). specialize (H2 w Hw2). by destruct (m w) as [[a|e] w']. Qed.

Lemma keeps_and {A} I J (m : M A) : keeps I m -> keeps J m -> keeps (fun f => I f /\ J f) m.
Proof. apply triple_and. Qed.

Section rules.
Context (I : fs -> Prop).

Lemma keeps_ret {A} (a : A) : keeps I (mret a).
Proof. by apply triple_ret. Qed.
Lemma keeps_raise {A} c m : keeps I (@mraise A c m).
Proof. by apply triple_raise. Qed.
Lemma keeps_reraise {A} e : keeps I (@reraise A e).
Proof. by apply triple_reraise. Qed.
Lemma keeps_lift {A} (r : res A) : keeps I (lift r).
Proof. by apply triple_lift. Qed.
Lemma keeps_raise_if b c m : keeps I (mraise_if b c m).
Proof. apply keeps_lift. Qed.
Lemma keeps_bind {A B} (m : M A) (k : A -> M B) : keeps I m -> (forall a, keeps I (k a)) -> keeps I (mbind m k).
Proof. intros Hm Hk. by eapply triple_bind. Qed.
Lemma keeps_catch {A} (m : M A) h : keeps I m -> (forall e, keeps I (h e)) -> keeps I (mcatch m h).
Proof. intros Hm Hh. by eapply triple_catch. Qed.
Lemma keeps_finally {A} (m : M A) last : keeps I m -> keeps I last -> keeps I (mfinally m last).
Proof. intros Hm Hl. by eapply triple_finally. Qed.
Lemma keeps_for_each {S A} (g : S -> A -> M S) s l : (forall s x, keeps I (g s x)) -> keeps I (mfor_each g s l).
Proof. intros Hg. by apply triple_for_each. Qed.
Lemma keeps_while {S A} (turn : S -> M (S + A)) s : (forall s, keeps I (turn s)) -> keeps I (mwhile turn s).
Proof.
  intros Ht. apply (triple_mwhile turn (fun _ => I)); [|done]. intros s'. eapply triple_conseq; [apply Ht|done| |done].
  by intros [|] f.
Qed.

Context `{machine} (Hquiet : quiet).
Lemma keeps_query {A} (op : fs -> res A) : keeps I (query op).
Proof. by apply (triple_query Hquiet). Qed.
Lemma keeps_change (op : fs -> res fs) : (forall f f', I f -> op f = Ok f' -> I f') -> keeps I (change op).
Proof. intros Ho. apply (triple_change Hquiet); [done|]. eauto. Qed.
Lemma keeps_syscall {A} (op : fs -> res (A * fs)) : (forall f a f', I f -> op f = Ok (a, f') -> I f') -> keeps I (syscall op).
Proof. intros Ho. apply (triple_syscall Hquiet); [done|]. eauto. Qed.
End rules.

(** One step of a program, as far as its structure decides it. *)
Ltac keeps_step :=
  match goal with
  | |- keeps _ (mret _) => apply keeps_ret
  | |- keeps _ (mraise _ _) => apply keeps_raise
  | |- keeps _ (reraise _) => apply keeps_reraise
  | |- keeps _ (fun w => (Err _, w)) => apply keeps_reraise
  | |- keeps _ (lift _) => apply keeps_lift
  | |- keeps _ (mraise_if _ _ _) => apply keeps_raise_if
  | |- keeps _ (query _) => apply keeps_query; assumption
  | |- keeps _ (mbind _ _) => apply keeps_bind; [|intros ?]
  | |- keeps _ (mcatch _ _) => apply keeps_catch; [|intros ?]
  | |- keeps _ (mfinally _ _) => apply keeps_finally
  | |- keeps _ (mfor_each _ _ _) => apply keeps_for_each; intros ? ?
  | |- keeps _ (mwhile _ _) => apply keeps_while; intros ?
  | |- keeps _ (if ?b then _ else _) => destruct b
  | |- keeps _ (match ?x with _ => _ end) => destruct x
  | |- keeps _ (let '(_, _) := ?x in _) => destruct x
  end.
Ltac keeps_tac := repeat (keeps_step || cbv zeta).

(** A program that changes nothing. *)
Lemma keeps_observes {A} f (m : M A) : keeps (fun g => g = f) m -> observes f m (fun _ => True).
Proof. intros Hm. eapply triple_conseq; [exact Hm|done|done|done]. Qed.

Create HintDb keeps.

(** ** Files keep what they are *)

Definition node_like (i : Z) (n : inode) (f : fs) : Prop := exists n', nodes f !! i = Some n' /\ same_file n n'.

Lemma like_touch i n d ino f : node_like i n f -> node_like i n (touch_nlink d ino f).
Proof.
  intros (n' & Hn & Hs). destruct (touch_nodes d ino f i n' Hn) as (n2 & H2 & Hs2). exists n2. split; [done|]. by eapply same_file_trans.
Qed.

Lemma rename_like i n f a b f' : node_like i n f -> fs_rename true f a b = Ok f' -> node_like i n f'.
Proof.
  intros Hl Hr. unfold fs_rename in Hr. inv_ok. destruct (node_at f a0) as [[j m]|]; [|done].
  destruct (node_at f a1) as [[]|]; [done|]. destruct (i_kind m); try (destruct (below _ _); [done|]); injection Hr as <-; done.
Qed.

Lemma unlink_like i n f a f' : node_like i n f -> fs_unlink f a = Ok f' -> node_like i n f'.
Proof.
  intros Hl Hr. unfold fs_unlink in Hr. inv_ok. destruct (node_at f a0) as [[j m]|]; [|done].
  destruct (i_kind m); try done; injection Hr as <-; apply (like_touch i n (-1) j (del_name a0 f)); done.
Qed.

Lemma link_like i n f a b f' : node_like i n f -> fs_link f a b = Ok f' -> node_like i n f'.
Proof.
  intros Hl Hr. unfold fs_link in Hr. inv_ok. destruct (node_at f a0) as [[j m]|]; [|done].
  destruct (node_at f a1) as [[]|]; [done|]. destruct (i_kind m); try done; injection Hr as <-; apply (like_touch i n 1 j (set_name a1 j f)); done.
Qed.

Lemma rmtree_like i n f a f' : node_like i n f -> fs_rmtree f a = Ok f' -> node_like i n f'.
Proof.
  intros Hl Hr. unfold fs_rmtree in Hr. inv_ok. destruct (node_at f a0) as [[j m]|]; [|done]. destruct (i_kind m); try done; by injection Hr as <-.
Qed.

(** *** Numbers stay allocated, names do not dangle *)

Lemma based_touch d ino f : based f -> based (touch_nlink d ino f).
Proof.
  intros [Hf Hn]. constructor; [by apply touch_fresh_ok|]. intros k i. rewrite touch_names. intros Hk. destruct (Hn k i Hk) as [n Hi].
  destruct (touch_nodes d ino f i n Hi) as (n' & H' & _). by exists n'.
Qed.

Lemma based_tick f : based f -> based (tick f).
Proof. by intros []. Qed.

Lemma based_names f names' t : based f -> (forall k i, names' !! k = Some i -> exists k', names f !! k' = Some i) ->
  based (FS names' (nodes f) (fresh f) t).
Proof. intros [Hf Hn] Hs. constructor; [exact Hf|]. intros k i Hk. destruct (Hs k i Hk) as [k' Hk']. by apply (Hn k'). Qed.

Lemma move_values (from to k : path) (m : gmap path Z) (i : Z) : move_names from to m !! k = Some i -> exists k', m !! k' = Some i.
Proof.
  unfold move_names. intros Hk. apply elem_of_list_to_map_2, list_elem_of_fmap in Hk as ([k' j] & Heq & Hin). injection Heq as _ ->.
  exists k'. by apply elem_of_map_to_list.
Qed.

Lemma based_rename f a b f' : based f -> fs_rename true f a b = Ok f' -> based f'.
Proof.
  intros Hb Hr. unfold fs_rename in Hr. inv_ok. destruct (node_at f a0) as [[j m]|] eqn:Hj; [|done].
  destruct (node_at f a1) as [[]|]; [done|]. apply node_at_nodes in Hj as [Hj _].
  destruct (i_kind m); try (destruct (below _ _); [done|]); injection Hr as <-; apply (based_names f _ (now f + 1) Hb); simpl; intros k i;
    [by apply move_values|..]; intros [[_ <-]|[_ [_ Hk]%lookup_delete_Some]]%lookup_insert_Some; eauto.
Qed.

Lemma based_unlink f a f' : based f -> fs_unlink f a = Ok f' -> based f'.
Proof.
  intros Hb Hr. unfold fs_unlink in Hr. inv_ok. destruct (node_at f a0) as [[j m]|]; [|done].
  assert (based (del_name a0 f)) as Hd by (apply (based_names f _ (now f) Hb); intros k i [_ Hk]%lookup_delete_Some; eauto).
  destruct (i_kind m); try done; injection Hr as <-; by apply based_tick, based_touch.
Qed.

Lemma based_link f a b f' : based f -> fs_link f a b = Ok f' -> based f'.
Proof.
  intros Hb Hr. unfold fs_link in Hr. inv_ok. destruct (node_at f a0) as [[j m]|] eqn:Hj; [|done].
  destruct (node_at f a1) as [[]|]; [done|]. apply node_at_nodes in Hj as [Hj _].
  assert (based (set_name a1 j f)) as Hd by (apply (based_names f _ (now f) Hb); intros k i [[_ <-]|[_ Hk]]%lookup_insert_Some; eauto).
  destruct (i_kind m); try done; injection Hr as <-; by apply based_tick, based_touch.
Qed.

#[export] Hint Resolve rename_like unlink_like link_like rmtree_like based_rename based_unlink based_link : keeps.

Section removal.
Context `{machine} (Hquiet : quiet) (i : Z) (n : inode).

Ltac like_tac := repeat (keeps_step || (apply keeps_change; [assumption|solve [eauto with keeps]])).

Lemma like_remove p e : keeps (node_like i n) (Publish.remove_if_identity p e).
Proof.
  unfold Publish.remove_if_identity, Publish.not_found, Publish.file_identity, Publish._rename_noreplace, rename_noreplace,
    Publish.ignore_os_error, Publish.sync_directory, unlink, lstat, open_, fsync, close. like_tac.
Qed.

Lemma like_remove_directory p e : keeps (node_like i n) (Publish.remove_directory_if_identity p e).
Proof.
  unfold Publish.remove_directory_if_identity, Publish.not_found, Publish._rename_noreplace, rename_noreplace,
    Publish.ignore_os_error, Publish.sync_directory, rmtree, lstat, open_, fsync, close. like_tac.
Qed.

Lemma like_publish a b e : keeps (node_like i n) (Publish.publish_existing a b e).
Proof.
  unfold Publish.publish_existing, Publish.not_found, Publish.file_identity, Publish.sync_directory, link, lstat, open_, fsync, close.
  repeat (keeps_step || apply like_remove || (apply keeps_change; [assumption|solve [eauto with keeps]])).
Qed.

Lemma based_remove p e : keeps based (Publish.remove_if_identity p e).
Proof.
  unfold Publish.remove_if_identity, Publish.not_found, Publish.file_identity, Publish._rename_noreplace, rename_noreplace,
    Publish.ignore_os_error, Publish.sync_directory, unlink, lstat, open_, fsync, close. like_tac.
Qed.

Lemma based_publish a b e : keeps based (Publish.publish_existing a b e).
Proof.
  unfold Publish.publish_existing, Publish.not_found, Publish.file_identity, Publish.sync_directory, link, lstat, open_, fsync, close.
  repeat (keeps_step || apply based_remove || (apply keeps_change; [assumption|solve [eauto with keeps]])).
Qed.
End removal.

(** ** Removing a directory that was not there before *)

(** Every name is in a named directory. *)
Definition closed (g : fs) : Prop := forall k x i, names g !! (k ++ [x]) = Some i -> is_Some (names g !! k).

Lemma closed_outside g a k i : closed g -> names g !! a = None -> names g !! k = Some i -> ~ a `prefix_of` k.
Proof.
  intros Hc Ha Hk [r ->]. revert i Hk; induction r as [|x r IH] using rev_ind; intros i Hk.
  - rewrite app_nil_r in Hk. congruence.
  - rewrite app_assoc in Hk. destruct (Hc _ _ _ Hk) as [j Hj]. by eapply IH.
Qed.

Lemma move_outside (from to k : path) (m : gmap path Z) (i : Z) : ~ from `prefix_of` k -> ~ to `prefix_of` k -> m !! k = Some i ->
  move_names from to m !! k = Some i.
Proof.
  intros Hf Ht Hk. unfold move_names. apply elem_of_list_to_map_1'.
  - intros y Hy. apply list_elem_of_fmap in Hy as ([k' j] & Heq & Hin). cbn [fst snd] in Heq. unfold below in Heq.
    apply elem_of_map_to_list in Hin. case_bool_decide.
    + injection Heq as -> _. destruct Ht. by eexists.
    + injection Heq as -> ->. congruence.
  - apply list_elem_of_fmap. exists (k, i). cbn [fst snd]. unfold below. rewrite bool_decide_false by done. split; [done|]. by apply elem_of_map_to_list.
Qed.

Section staging.
Context (g : fs) (Hclosed : closed g) (Hbased : based g).

Lemma extends_free f k : extends g f -> node_at f k = None -> names g !! k = None.
Proof.
  intros He Hn. destruct (names g !! k) as [i|] eqn:Hk; [|done]. destruct (bs_node g Hbased _ _ Hk) as [n Hi]. unfold node_at in Hn.
  rewrite (ex_names _ _ He _ _ Hk), (ex_nodes _ _ He _ _ Hi) in Hn. done.
Qed.

Lemma extends_rename f a b la lb f' : extends g f -> locate f a = Ok la -> locate f b = Ok lb -> names g !! la = None ->
  fs_rename true f a b = Ok f' -> extends g f' /\ names g !! lb = None.
Proof.
  intros He Ha Hb Hla Hr. unfold fs_rename in Hr. rewrite Ha, Hb in Hr. destruct (node_at f la) as [[j m]|]; [|done].
  destruct (node_at f lb) as [[]|] eqn:Hlb; [done|]. apply extends_free in Hlb; [|done]. split; [|done].
  assert (forall k i, names g !! k = Some i -> ~ la `prefix_of` k /\ ~ lb `prefix_of` k) as Hout by (intros k i Hk; split; by eapply closed_outside).
  destruct (i_kind m); try (destruct (below _ _); [done|]); injection Hr as <-; constructor; simpl; try apply He; intros k i Hk;
    destruct (Hout k i Hk) as [H1 H2].
  1: apply move_outside; [done|done|by apply He].
  all: rewrite lookup_insert_ne by (intros ->; by apply H2); rewrite lookup_delete_ne by (intros ->; by apply H1); by apply He.
Qed.

Lemma extends_rmtree f a la f' : extends g f -> locate f a = Ok la -> names g !! la = None -> fs_rmtree f a = Ok f' -> extends g f'.
Proof.
  intros He Ha Hla Hr. unfold fs_rmtree in Hr. rewrite Ha in Hr. destruct (node_at f la) as [[j m]|]; [|done].
  destruct (i_kind m); try done. injection Hr as <-. constructor; simpl; [|apply He]. intros k i Hk.
  apply map_lookup_filter_Some. split; [by apply He|]. cbn [fst]. unfold below. apply bool_decide_eq_false. by eapply closed_outside.
Qed.

Context `{machine} (Hquiet : quiet) (dir : path) (c : pystr).
Context (Hplain : plain_path (dir ++ [c])) (Hreal : real_dir g dir) (Hfree : names g !! (dir ++ [c]) = None).

Lemma extends_locate f x : extends g f -> plain_name x = true -> locate f (dir ++ [x]) = Ok (dir ++ [x]).
Proof.
  intros He Hx. apply locate_child; [|by eapply extends_real]. apply plain_app in Hplain as [? _]. apply plain_app. split; [done|]. by constructor.
Qed.

Lemma rename_new a b : plain_name a = true -> plain_name b = true -> names g !! (dir ++ [a]) = None ->
  triple (extends g) (Publish._rename_noreplace (dir ++ [a]) (dir ++ [b])) (fun _ f => extends g f /\ names g !! (dir ++ [b]) = None) (extends g).
Proof.
  intros Ha Hb Hn. apply (triple_change Hquiet); [done|]. intros f f' Hf Hr.
  apply (extends_rename f (dir ++ [a]) (dir ++ [b]) (dir ++ [a]) (dir ++ [b]) f'); auto using extends_locate.
Qed.

Lemma remove_new_directory e : keeps (extends g) (Publish.remove_directory_if_identity (dir ++ [c]) e).
Proof.
  assert (plain_name c = true) as Hc by (apply plain_app in Hplain as [_ Hp]; by apply Forall_cons_iff in Hp as [? _]).
  set (q := Publish.rollback_name (dir ++ [c]) e).
  assert (plain_name q = true) as Hq.
  { apply (Publish.long_plain q). unfold q, Publish.rollback_name. rewrite !length_app. simpl. lia. }
  assert (Publish.with_name (dir ++ [c]) q = Ok (dir ++ [q])) as Hw by (unfold Publish.with_name; rewrite removelast_last; by destruct (dir ++ [c]) eqn:E; [destruct dir|]).
  assert (forall A (m : M A), keeps (extends g) m -> triple (extends g) m (fun _ => extends g) (extends g)) as Hk by done.
  unfold Publish.remove_directory_if_identity. eapply triple_bind.
  { apply Hk. unfold Publish.not_found, lstat. keeps_tac. }
  intros [value|]; [|by apply triple_ret]. destruct (negb _); [by apply triple_ret|]. fold q. rewrite Hw. apply triple_lift_ok.
  eapply triple_bind; [by apply Publish.triple_not_found, rename_new|]. intros [u|]; [|by apply triple_ret].
  apply triple_pre. intros f1 [Hf1 Hqf]. apply (triple_conseq _ (extends g) _ _ (fun _ => extends g) _ (extends g)); [|by intros f ->|done|done].
  eapply triple_bind; [apply Hk; unfold lstat; keeps_tac|]. intros value2. destruct (negb _).
  - eapply (triple_bind _ _ (fun _ => extends g)); [|intros u2; by apply triple_raise]. apply keeps_catch.
    + eapply triple_conseq; [by apply (rename_new q c)|done|by intros a f []|done].
    + intros e2. keeps_tac.
  - eapply (triple_bind _ _ (fun _ => extends g)).
    + apply (triple_change Hquiet); [done|]. intros f f' Hf Hr. apply (extends_rmtree f (dir ++ [q]) (dir ++ [q]) f'); auto using extends_locate.
    + intros u2. apply Hk. unfold Publish.sync_directory, open_, fsync, close. keeps_tac.
Qed.
End staging.
End Keeps.
