(* ===== verification/Steps.v ===== *)
(** * Steps with local variables

    A [try] block whose [finally] or [except] clause consults local variables: the
    variables are explicit, and survive an exception. *)
From Stdlib Require Import ZArith Lia.
From stdpp Require Import base list sets strings option gmap.
From S2P Require Import Prelude PyStr PyVal Bytes Sys FsRules Keeps.

Open Scope string_scope.
Open Scope list_scope.
Open Scope Z_scope.

Declare Scope step_scope.
Delimit Scope step_scope with step.

Module Steps.
Import Keeps.

(** The variables and the value or exception, after a piece of the block. *)
Definition step (V A : Type) : Type := V -> M (V * res A).
Definition perform {V A} (m : M A) : step V A :=
  fun v w => match m w with (r, w') => (Ok (v, r), w') end.
Definition assign {V} (g : V -> V) : step V unit := fun v => mret (g v, Ok tt).
Definition sbind {V A B} (m : step V A) (k : A -> step V B) : step V B :=
  fun v => let* r := m v in match r.2 with Ok a => k a r.1 | Err e => mret (r.1, Err e) end.

(** [while] in a block. *)
Definition swhile {V S A} (turn : S -> step V (S + A)) (s : S) : step V A :=
  fun v => mwhile (fun x => let* r := turn x.2 x.1 in
    match r.2 with
    | Ok (inl s') => mret (inl (r.1, s'))
    | Ok (inr a) => mret (inr (r.1, Ok a))
    | Err e => mret (inr (r.1, Err e))
    end) (v, s).

Notation "x <- m ;; k" := (sbind m (fun x => k)) (at level 100, m at next level, right associativity) : step_scope.
Notation "m ;+ k" := (sbind m (fun _ => k)) (at level 100, right associativity) : step_scope.

Section rules.
Context {V : Type}.

(** ** Reasoning about steps *)

(** From the variables [v] and the state [P]: the steps end with [Q], or stop with [E]. *)
Definition stepping {A} (v : V) (P : fs -> Prop) (m : step V A) (Q : A -> V -> fs -> Prop) (E : V -> fs -> Prop) : Prop :=
  triple P (m v) (fun r f => match r.2 with Ok a => Q a r.1 f | Err _ => E r.1 f end) (fun _ => False).

Lemma stepping_perform {A} v P (m : M A) Q E (Q' : A -> V -> fs -> Prop) :
  triple P m Q (E v) -> (forall a f, Q a f -> Q' a v f) -> stepping v P (perform m) Q' E.
Proof.
  intros Hm HQ w Hw. specialize (Hm w Hw). unfold perform. destruct (m w) as [[a|e] w']; simpl; auto.
Qed.

Lemma stepping_bind {A B} v P (m : step V A) (k : A -> step V B) Q R E :
  stepping v P m Q E -> (forall a v', stepping v' (Q a v') (k a) R E) -> stepping v P (sbind m k) R E.
Proof.
  intros Hm Hk w Hw. specialize (Hm w Hw). unfold sbind, mbind in *. destruct (m v w) as [[[v' [a|e]]|e] w']; simpl in *; [|done|done].
  by apply (Hk a v').
Qed.

(** Steps that assign nothing. *)
Lemma stepping_same {A B} v P (m : step V A) (k : A -> step V B) Q R E :
  stepping v P m (fun a v' f => v' = v /\ Q a f) E -> (forall a, stepping v (Q a) (k a) R E) -> stepping v P (sbind m k) R E.
Proof. intros Hm Hk. eapply stepping_bind; [exact Hm|]. intros a v' w [-> Hw]. by apply Hk. Qed.

(** One call, and the rest. *)
Lemma stepping_call {A B} v P (m : M A) (k : A -> step V B) Q R E :
  triple P m Q (E v) -> (forall a, stepping v (Q a) (k a) R E) -> stepping v P (sbind (perform m) k) R E.
Proof. intros Hm. apply stepping_same. by eapply stepping_perform. Qed.

Lemma stepping_value {A} v P (a : A) E : stepping v P (perform (mret a)) (fun _ v' f => v' = v /\ P f) E.
Proof. by intros w Hw. Qed.

Lemma stepping_assign {B} v P g (k : unit -> step V B) R E : stepping (g v) P (k tt) R E -> stepping v P (sbind (assign g) k) R E.
Proof. intros Hk w Hw. apply (Hk w Hw). Qed.

Lemma stepping_set v P g (Q : unit -> V -> fs -> Prop) E : (forall f, P f -> Q tt (g v) f) -> stepping v P (assign g) Q E.
Proof. intros HQ w Hw. by apply HQ. Qed.

(** A call that only looks, and the rest. *)
Lemma stepping_look {A B} v P (m : M A) (k : A -> step V B) R E :
  keeps P m -> (forall f, P f -> E v f) -> (forall a, stepping v P (k a) R E) -> stepping v P (sbind (perform m) k) R E.
Proof. intros Hm HE Hk. apply (stepping_call v P m k (fun _ => P)); [|done]. by eapply triple_conseq. Qed.

Lemma stepping_pre {A} v P (m : step V A) Q E : (forall f, P f -> stepping v (fun g => g = f) m Q E) -> stepping v P m Q E.
Proof. intros Hm. by apply triple_pre. Qed.
End rules.

(** ** Steps that only look *)

Section looking.
Context {V : Type} (f : fs).

(** The value and the variables the steps end with, if they do; the file system is [f]
    throughout. *)
Definition looks {A} (v : V) (m : step V A) (Q : A -> V -> Prop) : Prop :=
  observes f (m v) (fun r => match r.2 with Ok a => Q a r.1 | Err _ => True end).

Lemma looks_value {A} v (a : A) (Q : A -> V -> Prop) : Q a v -> looks v (perform (mret a)) Q.
Proof. by intros HQ w Hw. Qed.

Lemma looks_raise {A} v c m (Q : A -> V -> Prop) : looks v (perform (mraise c m)) Q.
Proof. by intros w Hw. Qed.

Lemma looks_bind {A B} v (m : step V A) (k : A -> step V B) Q R : looks v m Q -> (forall a v', Q a v' -> looks v' (k a) R) ->
  looks v (sbind m k) R.
Proof.
  intros Hm Hk. eapply obs_bind; [exact Hm|]. intros [v' [a|e]] Ha; cbn [fst snd] in *; [by apply Hk|by apply obs_ret].
Qed.

Lemma looks_call {A B} v (m : M A) (k : A -> step V B) phi Q : observes f m phi -> (forall a, phi a -> looks v (k a) Q) ->
  looks v (sbind (perform m) k) Q.
Proof.
  intros Hm Hk. apply (looks_bind _ _ _ (fun a v' => v' = v /\ phi a)); [|intros a v' [-> Ha]; by apply Hk].
  intros w Hw. specialize (Hm w Hw). unfold perform. destruct (m w) as [[a|e] w']; simpl; naive_solver.
Qed.

Lemma looks_assign {B} v g (k : unit -> step V B) Q : looks (g v) (k tt) Q -> looks v (sbind (assign g) k) Q.
Proof. intros Hk w Hw. apply (Hk w Hw). Qed.

Lemma looks_while {S A} (turn : S -> step V (S + A)) (I : S -> V -> Prop) (Q : A -> V -> Prop) s v :
  (forall s v, I s v -> looks v (turn s) (fun r v' => match r with inl s' => I s' v' | inr a => Q a v' end)) -> I s v ->
  looks v (swhile turn s) Q.
Proof.
  intros Ht Hs. apply (obs_while f _ (fun x => I x.2 x.1)); [|done]. intros [v1 s1] H1. cbn [fst snd] in *.
  eapply obs_bind; [by apply (Ht s1 v1)|]. intros [v2 [[s2|a]|e]] H2; by apply obs_ret.
Qed.
End looking.

(** A step that reads the variables first. *)
Ltac read_variables :=
  match goal with |- looks ?f ?v ?m ?Q => let body := eval cbv beta in (m v) in match body with ?b v => change (looks f v b Q) end end.
End Steps.
