(* ===== verification/Oci.v ===== *)
(** * The OCI configuration validator (scripts/validate-runtime-oci.py)

    [validate] admits the Multikernel subset of an OCI configuration,
    [guest_projection] builds the configuration the child kernel sees and
    [bind_projection] the plan the bind materializer executes.  [validate] is one
    function in the source; its consecutive blocks are separate definitions here,
    composed in order by [validate]. *)
From Stdlib Require Import ZArith Lia.
From stdpp Require Import base list sets strings option.
From S2P Require Import Prelude PyStr PyVal.

Open Scope string_scope.
Open Scope list_scope.
Open Scope Z_scope.

Module Oci.

(** ** Constants *)

Definition TOP_LEVEL : list pystr :=
  strs ["ociVersion"; "process"; "root"; "linux"; "annotations"; "mounts"; "hostname"].

Definition PROCESS : list pystr :=
  strs ["terminal"; "consoleSize"; "user"; "args"; "env"; "cwd"; "noNewPrivileges"; "rlimits";
   "capabilities"; "apparmorProfile"; "oomScoreAdj"].

Definition USER : list pystr :=
  strs ["uid"; "gid"; "additionalGids"].

Definition CAPABILITY_SETS : list pystr :=
  strs ["bounding"; "effective"; "inheritable"; "permitted"; "ambient"].

Definition CAPABILITIES : list pystr :=
  strs ["CAP_CHOWN"; "CAP_DAC_OVERRIDE"; "CAP_DAC_READ_SEARCH"; "CAP_FOWNER"; "CAP_FSETID";
   "CAP_KILL"; "CAP_SETGID"; "CAP_SETUID"; "CAP_SETPCAP"; "CAP_LINUX_IMMUTABLE";
   "CAP_NET_BIND_SERVICE"; "CAP_NET_BROADCAST"; "CAP_NET_ADMIN"; "CAP_NET_RAW";
   "CAP_IPC_LOCK"; "CAP_IPC_OWNER"; "CAP_SYS_MODULE"; "CAP_SYS_RAWIO"; "CAP_SYS_CHROOT";
   "CAP_SYS_PTRACE"; "CAP_SYS_PACCT"; "CAP_SYS_ADMIN"; "CAP_SYS_BOOT"; "CAP_SYS_NICE";
   "CAP_SYS_RESOURCE"; "CAP_SYS_TIME"; "CAP_SYS_TTY_CONFIG"; "CAP_MKNOD"; "CAP_LEASE";
   "CAP_AUDIT_WRITE"; "CAP_AUDIT_CONTROL"; "CAP_SETFCAP"; "CAP_MAC_OVERRIDE";
   "CAP_MAC_ADMIN"; "CAP_SYSLOG"; "CAP_WAKE_ALARM"; "CAP_BLOCK_SUSPEND"; "CAP_AUDIT_READ";
   "CAP_PERFMON"; "CAP_BPF"; "CAP_CHECKPOINT_RESTORE"].

Definition RLIMITS : list pystr :=
  strs ["RLIMIT_AS"; "RLIMIT_CORE"; "RLIMIT_CPU"; "RLIMIT_DATA"; "RLIMIT_FSIZE"; "RLIMIT_LOCKS";
   "RLIMIT_MEMLOCK"; "RLIMIT_MSGQUEUE"; "RLIMIT_NICE"; "RLIMIT_NOFILE"; "RLIMIT_NPROC";
   "RLIMIT_RSS"; "RLIMIT_RTPRIO"; "RLIMIT_RTTIME"; "RLIMIT_SIGPENDING"; "RLIMIT_STACK"].

Definition ROOT : list pystr :=
  strs ["path"; "readonly"].

Definition LINUX : list pystr :=
  strs ["namespaces"; "resources"; "cgroupsPath"; "maskedPaths"; "readonlyPaths"; "sysctl"].

Definition NAMESPACE : list pystr :=
  strs ["type"; "path"].

Definition CHILD_BOUNDARY_NAMESPACES : list pystr :=
  strs ["pid"; "ipc"; "uts"; "mount"; "cgroup"].

Definition SAFE_MASKED_PATHS : list pystr :=
  strs ["/proc/acpi"; "/proc/asound"; "/proc/interrupts"; "/proc/kcore"; "/proc/keys";
   "/proc/latency_stats"; "/proc/timer_list"; "/proc/timer_stats"; "/proc/sched_debug";
   "/sys/firmware"; "/sys/devices/virtual/powercap"; "/proc/scsi"].

Definition SAFE_READONLY_PATHS : list pystr :=
  strs ["/proc/bus"; "/proc/fs"; "/proc/irq"; "/proc/sys"; "/proc/sysrq-trigger"].

Definition CHILD_DEFAULT_SYSCTLS : pyval :=
  VDict [(str "net.ipv4.ip_unprivileged_port_start", VStr (str "1024"));
         (str "net.ipv4.ping_group_range", VStr (str "1 0"))].

Definition MAX_PROCESS_ARGS : Z := 256.

Definition MAX_PROCESS_ENV : Z := 1024.

Definition MAX_PROCESS_TEXT : Z := Z.shiftl 128 10.

Definition MAX_SUPPLEMENTAL_GIDS : Z := 256.

Definition MAX_CONFIG_BYTES : Z := Z.shiftl 1 20.

(** Destination, then the required type, source and set of options. *)
Definition DEFAULT_MOUNTS : list (pystr * (pystr * pystr * list pystr)) :=
  [(str "/proc", (str "proc", str "proc", strs ["nosuid"; "noexec"; "nodev"]));
   (str "/dev", (str "tmpfs", str "tmpfs", strs ["nosuid"; "strictatime"; "mode=755"; "size=65536k"]));
   (str "/dev/pts", (str "devpts", str "devpts", strs ["nosuid"; "noexec"; "newinstance"; "ptmxmode=0666"; "mode=0620"; "gid=5"]));
   (str "/dev/shm", (str "tmpfs", str "shm", strs ["nosuid"; "noexec"; "nodev"; "mode=1777"; "size=65536k"]));
   (str "/dev/mqueue", (str "mqueue", str "mqueue", strs ["nosuid"; "noexec"; "nodev"]));
   (str "/sys", (str "sysfs", str "sysfs", strs ["nosuid"; "noexec"; "nodev"; "ro"]));
   (str "/sys/fs/cgroup", (str "cgroup", str "cgroup", strs ["ro"; "nosuid"; "noexec"; "nodev"]));
   (str "/run", (str "tmpfs", str "tmpfs", strs ["nosuid"; "strictatime"; "mode=755"; "size=65536k"]))].

Definition DEFAULT_MOUNT_OPTION_ALIASES : list (pystr * list (list pystr)) :=
  [(str "/dev/shm", [strs ["nosuid"; "noexec"; "nodev"; "mode=1777"; "size=67108864"]])].

Definition READONLY_BIND_KINDS : list pystr :=
  strs ["bind"; "rbind"].

Definition READONLY_BIND_OPTIONAL : list pystr :=
  strs ["private"; "rprivate"; "nodev"; "nosuid"; "noexec"; "relatime"; "noatime"; "strictatime"].

Definition READONLY_BIND_MARKERS : list pystr :=
  strs ["ro"; "rro"].

Definition SANITIZED_READONLY_BIND_OPTIONS : list pystr :=
  strs ["bind"; "ro"; "nodev"; "nosuid"; "noexec"].

Definition PROTECTED_BIND_DESTINATIONS : list pystr :=
  strs ["/dev"; "/proc"; "/run"; "/sys"].

Definition MAX_READONLY_BINDS : Z := 8.

Definition DOCKER_ROOT : re :=
  Cat (Lit "/var/lib/docker/rootfs/overlayfs/") HEX64.

Definition DOCKER_PRIVATE_SEEDS : list pystr :=
  strs ["/etc/resolv.conf"; "/etc/hostname"; "/etc/hosts"].

Definition DENY_ALL_DEVICES : list pyval :=
  [VDict [(str "allow", VBool false); (str "access", VStr (str "rwm"))]].

Definition CONTAINERD_DEFAULT_DEVICES : list pyval :=
  DENY_ALL_DEVICES ++
  [VDict [(str "allow", VBool true); (str "type", VStr (str "c")); (str "major", VInt (1)); (str "minor", VInt (3)); (str "access", VStr (str "rwm"))];
   VDict [(str "allow", VBool true); (str "type", VStr (str "c")); (str "major", VInt (1)); (str "minor", VInt (8)); (str "access", VStr (str "rwm"))];
   VDict [(str "allow", VBool true); (str "type", VStr (str "c")); (str "major", VInt (1)); (str "minor", VInt (7)); (str "access", VStr (str "rwm"))];
   VDict [(str "allow", VBool true); (str "type", VStr (str "c")); (str "major", VInt (5)); (str "minor", VInt (0)); (str "access", VStr (str "rwm"))];
   VDict [(str "allow", VBool true); (str "type", VStr (str "c")); (str "major", VInt (1)); (str "minor", VInt (5)); (str "access", VStr (str "rwm"))];
   VDict [(str "allow", VBool true); (str "type", VStr (str "c")); (str "major", VInt (1)); (str "minor", VInt (9)); (str "access", VStr (str "rwm"))];
   VDict [(str "allow", VBool true); (str "type", VStr (str "c")); (str "major", VInt (5)); (str "minor", VInt (1)); (str "access", VStr (str "rwm"))];
   VDict [(str "allow", VBool true); (str "type", VStr (str "c")); (str "major", VInt (136)); (str "access", VStr (str "rwm"))];
   VDict [(str "allow", VBool true); (str "type", VStr (str "c")); (str "major", VInt (5)); (str "minor", VInt (2)); (str "access", VStr (str "rwm"))]].

Definition DOCKER_UNRESTRICTED_DEVICES : list pyval :=
  [VDict [(str "allow", VBool false); (str "access", VStr (str "rwm"))];
   VDict [(str "allow", VBool true); (str "type", VStr (str "c")); (str "major", VInt (1)); (str "minor", VInt (5)); (str "access", VStr (str "rwm"))];
   VDict [(str "allow", VBool true); (str "type", VStr (str "c")); (str "major", VInt (1)); (str "minor", VInt (3)); (str "access", VStr (str "rwm"))];
   VDict [(str "allow", VBool true); (str "type", VStr (str "c")); (str "major", VInt (1)); (str "minor", VInt (9)); (str "access", VStr (str "rwm"))];
   VDict [(str "allow", VBool true); (str "type", VStr (str "c")); (str "major", VInt (1)); (str "minor", VInt (8)); (str "access", VStr (str "rwm"))];
   VDict [(str "allow", VBool true); (str "type", VStr (str "c")); (str "major", VInt (5)); (str "minor", VInt (0)); (str "access", VStr (str "rwm"))];
   VDict [(str "allow", VBool true); (str "type", VStr (str "c")); (str "major", VInt (5)); (str "minor", VInt (1)); (str "access", VStr (str "rwm"))];
   VDict [(str "allow", VBool false); (str "type", VStr (str "c")); (str "major", VInt (10)); (str "minor", VInt (229)); (str "access", VStr (str "rwm"))];
   VDict [(str "allow", VBool false); (str "access", VStr (str "rwm"))];
   VDict [(str "allow", VBool true); (str "type", VStr (str "c")); (str "major", VInt (1)); (str "minor", VInt (5)); (str "access", VStr (str "rwm"))];
   VDict [(str "allow", VBool true); (str "type", VStr (str "c")); (str "major", VInt (1)); (str "minor", VInt (3)); (str "access", VStr (str "rwm"))];
   VDict [(str "allow", VBool true); (str "type", VStr (str "c")); (str "major", VInt (1)); (str "minor", VInt (9)); (str "access", VStr (str "rwm"))];
   VDict [(str "allow", VBool true); (str "type", VStr (str "c")); (str "major", VInt (1)); (str "minor", VInt (8)); (str "access", VStr (str "rwm"))];
   VDict [(str "allow", VBool true); (str "type", VStr (str "c")); (str "major", VInt (5)); (str "minor", VInt (0)); (str "access", VStr (str "rwm"))];
   VDict [(str "allow", VBool true); (str "type", VStr (str "c")); (str "major", VInt (5)); (str "minor", VInt (1)); (str "access", VStr (str "rwm"))];
   VDict [(str "allow", VBool false); (str "type", VStr (str "c")); (str "major", VInt (10)); (str "minor", VInt (229)); (str "access", VStr (str "rwm"))];
   VDict [(str "allow", VBool true); (str "type", VStr (str "a")); (str "major", VInt (-1)); (str "minor", VInt (-1)); (str "access", VStr (str "rwm"))]].

(** ** Helpers *)

Definition strict_object (pairs : dict) : res dict :=
  strict_pairs ValueError "duplicate JSON object name" [] pairs.

Definition require_object (value : pyval) : res dict :=
  match value with
  | VDict d => Ok d
  | _ => raise ValueError "must be an object"
  end.

Definition reject_unknown (value : dict) (allowed : list pystr) : res unit :=
  raise_if (negb (keys_within value allowed)) ValueError "unsupported field(s)".

(** [d\[k\]], a [KeyError] when the name is absent, and [l\[0\]], an
    [IndexError] on the empty list. *)
Definition subscript (d : dict) (k : pystr) : res pyval := getitem (VDict d) k.

Definition first_item (l : list pyval) : res pyval :=
  match l with x :: _ => Ok x | [] => raise IndexError "list index out of range" end.

Definition require_uint32 (value : pyval) : res unit :=
  raise_if (negb (int_within 0 0xFFFFFFFF value)) ValueError "must be an unsigned 32-bit integer".

(** ** Namespaces *)

(** [path not in (None, "")] *)
Definition names_a_path (path : pyval) : bool :=
  negb ((path == VNone) || (path == VStr [])).

(** The body of the loop over [linux.namespaces]; the accumulator is [seen]. *)
Definition namespace_step (seen : list pystr) (item : pyval) : res (list pystr) :=
  let! item := require_object item in
  reject_unknown item NAMESPACE ;;
  let kind := get item "type" in
  let path := get_or item "path" (VStr []) in
  let! dup := in_strs kind seen in
  raise_if dup ValueError "duplicate Linux namespace type" ;;
  match kind with
  | VStr k =>
      if k =s "network" then
        match path with
        | VStr p =>
            raise_if (negb (p =s []) && negb (canonical_absolute p))
              ValueError "network namespace path must be absolute and canonical" ;;
            Ok (k :: seen)
        | _ => raise ValueError "network namespace path must be a string"
        end
      else if mem k CHILD_BOUNDARY_NAMESPACES then
        raise_if (names_a_path path) ValueError "joining an existing namespace is unsupported" ;;
        Ok (k :: seen)
      else raise ValueError "unsupported Linux namespace type"
  | _ => raise ValueError "unsupported Linux namespace type"
  end.

Definition validate_namespaces (value : pyval) : res unit :=
  let! linux := require_object value in
  reject_unknown linux LINUX ;;
  match get linux "namespaces" with
  | VList namespaces =>
      let! seen := for_each namespace_step [] namespaces in
      raise_if (negb (mem "network" seen)) ValueError "exactly one Linux network namespace is required"
  | _ => raise ValueError "linux.namespaces must be an array"
  end.

(** ** Mounts *)

Definition canonical_absolute_path (value : pyval) : res pystr :=
  match value with
  | VStr v =>
      raise_if (negb (startswith v (str "/")) || has_char NUL v || (4096 <? zlen v) ||
                negb (as_posix (pure_path v) =s v) || mem (str "..") (parts (pure_path v)))
        ValueError "must be an absolute canonical bounded path" ;;
      Ok v
  | _ => raise ValueError "must be an absolute canonical bounded path"
  end.

(** [destination] is [item.get("destination")], already known to be a string. *)
Definition docker_private_seed (item : dict) (destination root_path : pystr) : bool :=
  if negb (fullmatch DOCKER_ROOT root_path) || negb (mem destination DOCKER_PRIVATE_SEEDS) then false
  else
    let identity := drop (length (str "/var/lib/docker/rootfs/overlayfs/")) root_path in
    let basename := path_name (pure_path destination) in
    (get item "type" == VStr "bind") &&
    (get item "source" == VStr (str "/var/lib/docker/containers/" ++ identity ++ str "/" ++ basename)) &&
    (get item "options" == VList (map VStr (strs ["rbind"; "rprivate"]))).

(** [destination == p or destination.startswith(p + "/")] *)
Definition at_or_below (destination p : pystr) : bool :=
  (destination =s p) || startswith destination (p ++ str "/").

Definition protected (destination : pystr) : bool :=
  (destination =s "/") || existsb (at_or_below destination) PROTECTED_BIND_DESTINATIONS.

Definition overlaps (destination prior : pystr) : bool :=
  at_or_below destination prior || startswith prior (destination ++ str "/").

(** The option contract of a read-only bind, on the strings of the list. *)
Definition readonly_options (options : list pystr) : bool :=
  let option_set := str_set options in
  negb (negb (length options =? length option_set)%nat ||
        negb (inter_size option_set READONLY_BIND_MARKERS =? 1)%nat ||
        negb (inter_size option_set READONLY_BIND_KINDS =? 1)%nat ||
        negb (subset option_set (READONLY_BIND_MARKERS ++ READONLY_BIND_KINDS ++ READONLY_BIND_OPTIONAL)) ||
        (1 <? inter_size option_set (strs ["private"; "rprivate"]))%nat).

Definition readonly_bind (actual_options : pyval) : bool :=
  match actual_options with
  | VList l => match strs_of l with Some options => readonly_options options | None => false end
  | _ => false
  end.

(** A mount on one of the default destinations must be the default mount. *)
Definition default_mount_differs (item : dict) (destination : pystr)
    (contract : pystr * pystr * list pystr) (actual_options : pyval) : res bool :=
  let '(mount_type, source, options) := contract in
  let aliases := default [] (option_map snd (List.find (fun e => destination =s e.1) DEFAULT_MOUNT_OPTION_ALIASES)) in
  let allowed_options := options :: aliases in
  or_else (Ok (negb (get item "type" == VStr mount_type)))
  (or_else (Ok (negb (get item "source" == VStr source)))
  match actual_options with
  | VList l =>
      let! s := py_set l in
      Ok (negb (length l =? length s)%nat || negb (existsb (set_is s) allowed_options))
  | _ => Ok true
  end).

Record mount_state := MountState {
  seen_defaults : list pystr;
  bind_destinations : list pystr;
  readonly_binds : list dict;
  private_seeds : list dict;
}.

(** The part of the loop body that handles a bind mount. *)
Definition bind_step (root_path : pystr) (st : mount_state) (item : dict) (actual_options : pyval)
    : res mount_state :=
  let! destination := canonical_absolute_path (get item "destination") in
  let! source := canonical_absolute_path (get item "source") in
  raise_if (source =s "/") ValueError "read-only bind source may not be the host root" ;;
  raise_if (negb (get item "type" == VStr "bind")) ValueError "unsupported OCI mount type" ;;
  let private_seed := docker_private_seed item destination root_path in
  raise_if (negb (readonly_bind actual_options) && negb private_seed)
    ValueError "read-only bind differs from the enforced option contract" ;;
  raise_if (protected destination) ValueError "read-only bind destination overlaps a runtime-owned path" ;;
  raise_if (existsb (overlaps destination) (bind_destinations st))
    ValueError "read-only bind destinations must be unique and non-overlapping" ;;
  Ok (MountState (seen_defaults st) (bind_destinations st ++ [destination])
        (if private_seed then readonly_binds st else readonly_binds st ++ [item])
        (if private_seed then private_seeds st ++ [item] else private_seeds st)).

Definition mount_step (root_path : pystr) (st : mount_state) (item : pyval) : res mount_state :=
  let! item := require_object item in
  reject_unknown item (strs ["destination"; "type"; "source"; "options"]) ;;
  let destination := get item "destination" in
  let actual_options := get_or item "options" (VList []) in
  let! is_default := in_strs destination (map fst DEFAULT_MOUNTS) in
  match is_default, destination with
  | true, VStr d =>
      raise_if (mem d (seen_defaults st)) ValueError "unsupported or duplicate OCI mount destination" ;;
      match List.find (fun e => d =s e.1) DEFAULT_MOUNTS with
      | Some (_, contract) =>
          let! differs := default_mount_differs item d contract actual_options in
          raise_if differs ValueError "OCI mount differs from the enforced default contract" ;;
          Ok (MountState (d :: seen_defaults st) (bind_destinations st) (readonly_binds st) (private_seeds st))
      | None => raise KeyError ""
      end
  | _, _ => bind_step root_path st item actual_options
  end.

Definition validate_mounts (value : pyval) (root_path : pystr) : res (list dict * list dict) :=
  match value with
  | VList items =>
      let! st := for_each (mount_step root_path) (MountState [] [] [] []) items in
      raise_if (MAX_READONLY_BINDS <? zlen (bind_destinations st))
        ValueError "at most 8 read-only bind inputs are supported" ;;
      Ok (readonly_binds st, private_seeds st)
  | _ => raise ValueError "mounts must be an array"
  end.

Definition validate_path_policy (values : pyval) (allowed : list pystr) : res unit :=
  match values with
  | VList l =>
      match strs_of l with
      | Some items =>
          raise_if (negb (distinct items) || existsb (fun i => negb (mem i allowed)) items)
            ValueError "contains a duplicate or unsupported path"
      | None => raise ValueError "must be a string array"
      end
  | _ => raise ValueError "must be a string array"
  end.

(** ** The blocks of [validate] *)

Definition VERSION : re :=
  Cat (Lit "1.") (Cat (Alt (Lit "0") (Alt (Lit "1") (Alt (Lit "2") (Lit "3")))) (Cat (Lit ".")
  (Cat (Plus (Cls is_decimal)) (Opt (Cat (Lit "-") (Plus (Cls (fun c => is_alnum c || one_of ".-" c)))))))).

Definition validate_version (config : dict) : res unit :=
  match get config "ociVersion" with
  | VStr version =>
      raise_if (negb (fullmatch VERSION version)) ValueError "ociVersion must be a supported OCI 1.0-1.3 version"
  | _ => raise ValueError "ociVersion must be a supported OCI 1.0-1.3 version"
  end.

(** [for field in ("width", "height")] *)
Definition console_field (console_size : dict) (field : pystr) : res unit :=
  let! value := subscript console_size field in
  raise_if (negb (int_within 0 65535 value)) ValueError "process.consoleSize must fit a Linux PTY dimension".

Definition validate_console_size (process : dict) : res unit :=
  let! value := subscript process "consoleSize" in
  let! console_size := require_object value in
  reject_unknown console_size (strs ["width"; "height"]) ;;
  raise_if (negb (keys_are console_size (strs ["width"; "height"])))
    ValueError "process.consoleSize requires width and height" ;;
  let! _ := for_each (fun _ field => console_field console_size field) tt (strs ["width"; "height"]) in
  raise_if (match get process "terminal" with VBool true => false | _ => true end)
    ValueError "process.consoleSize requires process.terminal=true".

(** [terminal], [consoleSize], [apparmorProfile] and [oomScoreAdj]. *)
Definition validate_console (process : dict) : res unit :=
  let! bad := and_then (Ok (has_key "terminal" process))
    (let! terminal := subscript process "terminal" in Ok (negb (is_bool terminal))) in
  raise_if bad ValueError "process.terminal must be boolean" ;;
  (if has_key "consoleSize" process then validate_console_size process else Ok tt) ;;
  let! bad := and_then (Ok (has_key "apparmorProfile" process))
    (let! profile := subscript process "apparmorProfile" in Ok (negb (profile == VStr "unconfined"))) in
  raise_if bad ValueError "process.apparmorProfile must be the explicit unconfined compatibility value" ;;
  if has_key "oomScoreAdj" process then
    let! oom_score_adj := subscript process "oomScoreAdj" in
    raise_if (match oom_score_adj with VInt 0 => false | _ => true end)
      ValueError "process.oomScoreAdj must be the inert integer zero compatibility value"
  else Ok tt.

Definition nul_free (l : list pystr) : bool := forallb (fun s => negb (has_char NUL s)) l.

(** [sum(len(item) + 1 for item in l)] *)
Definition text_size (l : list pystr) : Z := foldr (fun s n => zlen s + 1 + n) 0 l.

(** [isinstance(item, str) and "\0" not in item] *)
Definition text_without_nul (item : pyval) : bool :=
  match item with VStr s => negb (has_char NUL s) | _ => false end.

(** The arguments are returned as the strings the environment block counts. *)
Definition validate_args (process : dict) : res (list pystr) :=
  match get process "args" with
  | VList l =>
      let! bad :=
        or_else (Ok (negb (truthy (VList l))))
        (or_else (Ok (MAX_PROCESS_ARGS <? zlen l))
        (or_else (Ok (negb (forallb text_without_nul l)))
        (let! arg0 := first_item l in Ok (negb (truthy arg0))))) in
      raise_if bad ValueError "process.args must contain a bounded non-empty argv[0] without NUL" ;;
      match strs_of l with
      | Some args => Ok args
      | None => raise TypeError "object has no len()"
      end
  | _ => raise ValueError "process.args must contain a bounded non-empty argv[0] without NUL"
  end.

Definition validate_env (process : dict) (args : list pystr) : res unit :=
  match get_or process "env" (VList []) with
  | VList l =>
      match strs_of l with
      | Some env =>
          raise_if ((MAX_PROCESS_ENV <? zlen l) || negb (nul_free env))
            ValueError "process.env must be a bounded string array without NUL" ;;
          let environment_names := map (before_char EQUALS) env in
          raise_if (existsb (fun item => negb (has_char EQUALS item) || (before_char EQUALS item =s [])) env ||
                    negb (distinct environment_names))
            ValueError "process.env entries must have unique non-empty names" ;;
          raise_if (MAX_PROCESS_TEXT <? text_size (args ++ env))
            ValueError "process args and environment exceed the retained byte limit"
      | None => raise ValueError "process.env must be a bounded string array without NUL"
      end
  | _ => raise ValueError "process.env must be a bounded string array without NUL"
  end.

Definition validate_cwd (process : dict) : res unit :=
  match get process "cwd" with
  | VStr cwd =>
      raise_if (negb (startswith cwd (str "/")) || has_char NUL cwd || (4096 <? zlen cwd) ||
                negb (as_posix (pure_path cwd) =s cwd) || mem (str "..") (parts (pure_path cwd)))
        ValueError "process.cwd must be absolute, canonical, and bounded"
  | _ => raise ValueError "process.cwd must be absolute, canonical, and bounded"
  end.

Definition validate_no_new_privileges (process : dict) : res unit :=
  let! bad := and_then (Ok (has_key "noNewPrivileges" process))
    (let! value := subscript process "noNewPrivileges" in Ok (negb (is_bool value))) in
  raise_if bad ValueError "process.noNewPrivileges must be boolean" ;;
  raise_if (match get process "noNewPrivileges" with VBool false => true | _ => false end)
    ValueError "disabling no-new-privileges is not supported".

Definition UINT64_MAX : Z := 0xFFFFFFFFFFFFFFFF.

(** [a > b] of two integers; an ordering with any other kind of value is not
    one the loop reaches. *)
Definition int_gt (a b : pyval) : res bool :=
  match a, b with VInt x, VInt y => Ok (y <? x) | _, _ => raise TypeError "'>' not supported" end.

Definition rlimit_step (seen_limits : list pystr) (limit : pyval) : res (list pystr) :=
  let! limit := require_object limit in
  reject_unknown limit (strs ["type"; "hard"; "soft"]) ;;
  let kind := get limit "type" in
  let! known := in_strs kind RLIMITS in
  let! dup := in_strs kind seen_limits in
  raise_if (negb known || dup) ValueError "unsupported or duplicate process rlimit" ;;
  raise_if (negb (int_within 0 UINT64_MAX (get limit "hard"))) ValueError "process.rlimits must be uint64" ;;
  raise_if (negb (int_within 0 UINT64_MAX (get limit "soft"))) ValueError "process.rlimits must be uint64" ;;
  let! soft := subscript limit "soft" in
  let! hard := subscript limit "hard" in
  let! exceeds := int_gt soft hard in
  raise_if exceeds ValueError "process.rlimits soft limit exceeds hard limit" ;;
  Ok (match kind with VStr k => k :: seen_limits | _ => seen_limits end).

Definition validate_rlimits (process : dict) : res unit :=
  match get_or process "rlimits" (VList []) with
  | VList rlimits =>
      raise_if (32 <? zlen rlimits) ValueError "process.rlimits must be an array of at most 32 limits" ;;
      let! _ := for_each rlimit_step [] rlimits in Ok tt
  | _ => raise ValueError "process.rlimits must be an array of at most 32 limits"
  end.

Definition SUPPORTED_CAPABILITIES : list pystr :=
  strs ["CAP_CHOWN"; "CAP_DAC_OVERRIDE"; "CAP_FOWNER"; "CAP_FSETID"; "CAP_KILL";
        "CAP_SETGID"; "CAP_SETUID"; "CAP_SETPCAP"; "CAP_NET_BIND_SERVICE"; "CAP_NET_RAW";
        "CAP_SYS_CHROOT"; "CAP_MKNOD"; "CAP_AUDIT_WRITE"; "CAP_SETFCAP"].

(** One item of [capabilities.items()]. *)
Definition capability_values (values : pyval) : res unit :=
  match values with
  | VList l =>
      match strs_of l with
      | Some items =>
          raise_if (zlen CAPABILITIES <? zlen l) ValueError "process.capabilities must be a bounded string array" ;;
          raise_if (negb (distinct items) || existsb (fun i => negb (mem i CAPABILITIES)) items)
            ValueError "process.capabilities contains an unknown or duplicate capability" ;;
          raise_if (existsb (fun i => negb (mem i SUPPORTED_CAPABILITIES)) items)
            ValueError "requested capability is outside the supported workload policy"
      | None => raise ValueError "process.capabilities must be a bounded string array"
      end
  | _ => raise ValueError "process.capabilities must be a bounded string array"
  end.

(** [set(capabilities.get(name, \[\]))], once every value is a list of strings. *)
Definition capability_set (capabilities : dict) (name : pystr) : list pystr :=
  match get_or capabilities name (VList []) with
  | VList l => default [] (strs_of l)
  | _ => []
  end.

Definition capability_containment (capabilities : dict) : res unit :=
  let bounding := capability_set capabilities "bounding" in
  let permitted := capability_set capabilities "permitted" in
  let effective := capability_set capabilities "effective" in
  let inheritable := capability_set capabilities "inheritable" in
  let ambient := capability_set capabilities "ambient" in
  raise_if (negb (subset permitted bounding) || negb (subset effective permitted) ||
            negb (subset ambient permitted && subset ambient inheritable))
    ValueError "process capability sets violate containment" ;;
  raise_if (negb (set_eq bounding permitted) || negb (set_eq permitted effective))
    ValueError "root bounding, permitted, and effective capabilities must match".

Definition validate_capabilities (process : dict) : res unit :=
  match get process "capabilities" with
  | VNone => Ok tt
  | value =>
      let! capabilities := require_object value in
      reject_unknown capabilities CAPABILITY_SETS ;;
      let! _ := for_each (fun _ kv => capability_values kv.2) tt capabilities in
      let! uid := val_get (get_or process "user" (VDict [])) "uid" in
      raise_if (negb (uid == VInt 0) && existsb truthy (map snd capabilities))
        ValueError "non-root processes may not request capability grants" ;;
      capability_containment capabilities
  end.

Definition gid_step (seen_gids : list Z) (gid : pyval) : res (list Z) :=
  require_uint32 gid ;;
  match gid with
  | VInt g =>
      raise_if (bool_decide (g ∈ seen_gids)) ValueError "process.user.additionalGids must contain unique values" ;;
      Ok (g :: seen_gids)
  | _ => Ok seen_gids
  end.

Definition validate_user (process : dict) : res unit :=
  let! user := require_object (get process "user") in
  reject_unknown user USER ;;
  require_uint32 (get user "uid") ;;
  require_uint32 (get user "gid") ;;
  match get_or user "additionalGids" (VList []) with
  | VList gids =>
      raise_if (MAX_SUPPLEMENTAL_GIDS <? zlen gids)
        ValueError "process.user.additionalGids must be a bounded array" ;;
      let! _ := for_each gid_step [] gids in Ok tt
  | _ => raise ValueError "process.user.additionalGids must be a bounded array"
  end.

(** The checks of the root; [root] is kept for the mounts. *)
Definition validate_root (config : dict) : res dict :=
  let! root := require_object (get config "root") in
  reject_unknown root ROOT ;;
  let! bad := or_else (Ok (negb (is_str (get root "path"))))
    (let! path := subscript root "path" in Ok (negb (truthy path))) in
  raise_if bad ValueError "root.path must be a non-empty string" ;;
  let! bad := and_then (Ok (has_key "readonly" root))
    (let! readonly := subscript root "readonly" in Ok (negb (is_bool readonly))) in
  raise_if bad ValueError "root.readonly must be boolean" ;;
  Ok root.

Definition standard_resources (resources : pyval) : res bool :=
  match resources with
  | VDict r =>
      and_then (Ok (keys_are r (strs ["devices"]) || keys_are r (strs ["cpu"; "devices"])))
      (and_then (Ok ((get r "devices" == VList DENY_ALL_DEVICES) || (get r "devices" == VList CONTAINERD_DEFAULT_DEVICES)))
      (or_else (Ok (negb (has_key "cpu" r)))
      (let! cpu := subscript r "cpu" in Ok (cpu == VDict [(str "shares", VInt 1024)]))))
  | _ => Ok false
  end.

Definition docker_unrestricted_resources (resources : pyval) : bool :=
  resources == VDict [(str "devices", VList DOCKER_UNRESTRICTED_DEVICES); (str "blockIO", VDict [])].

Definition DOCKER_CGROUP : re := Cat (Lit "system.slice:docker:") HEX64.

Definition cgroups_path_ok (path : pyval) : bool :=
  match path with
  | VStr p => canonical_absolute p && (zlen p <=? 4096) || fullmatch DOCKER_CGROUP p
  | _ => false
  end.

Definition validate_linux (config : dict) : res unit :=
  let value := get config "linux" in
  validate_namespaces value ;;
  let! linux := require_object value in
  (if has_key "resources" linux then
     let! resources := subscript linux "resources" in
     let! standard := standard_resources resources in
     raise_if (negb standard && negb (docker_unrestricted_resources resources))
       ValueError "only exact default resource contracts are supported"
   else Ok tt) ;;
  (if has_key "cgroupsPath" linux then
     let! path := subscript linux "cgroupsPath" in
     raise_if (negb (cgroups_path_ok path))
       ValueError "linux.cgroupsPath must be canonical absolute or exact Docker systemd form"
   else Ok tt) ;;
  let! bad := and_then (Ok (has_key "sysctl" linux))
    (let! sysctl := subscript linux "sysctl" in Ok (negb (sysctl == CHILD_DEFAULT_SYSCTLS))) in
  raise_if bad ValueError "linux.sysctl must exactly match the explicit child-kernel defaults" ;;
  validate_path_policy (get_or linux "maskedPaths" (VList [])) SAFE_MASKED_PATHS ;;
  validate_path_policy (get_or linux "readonlyPaths" (VList [])) SAFE_READONLY_PATHS.

Definition HOSTNAME : re :=
  Cat (Cls is_alnum) (Opt (Cat (Star (Cls (fun c => is_alnum c || one_of ".-" c))) (Cls is_alnum))).

Definition validate_hostname (config : dict) : res unit :=
  match get_or config "hostname" (VStr []) with
  | VStr h =>
      raise_if ((63 <? zlen h) || (negb (h =s []) && negb (fullmatch HOSTNAME h)))
        ValueError "hostname must be an RFC1123-compatible value of at most 63 bytes"
  | _ => raise ValueError "hostname must be an RFC1123-compatible value of at most 63 bytes"
  end.

Definition validate_annotations (config : dict) : res unit :=
  match get_or config "annotations" (VDict []) with
  | VDict a =>
      raise_if (negb (forallb (fun kv => is_str kv.2) a)) ValueError "annotations must be a string-to-string object"
  | _ => raise ValueError "annotations must be a string-to-string object"
  end.

Definition validate_process (config : dict) : res unit :=
  let! process := require_object (get config "process") in
  reject_unknown process PROCESS ;;
  validate_console process ;;
  let! args := validate_args process in
  validate_env process args ;;
  validate_cwd process ;;
  validate_no_new_privileges process ;;
  validate_rlimits process ;;
  validate_capabilities process ;;
  validate_user process.

(** [root\["path"\]] where a string is wanted. *)
Definition root_string (root : dict) : res pystr :=
  let! path := subscript root "path" in
  match path with VStr p => Ok p | _ => raise TypeError "expected string" end.

Definition validate (config : pyval) : res unit :=
  let! config := require_object config in
  reject_unknown config TOP_LEVEL ;;
  validate_version config ;;
  validate_process config ;;
  let! root := validate_root config in
  validate_linux config ;;
  let! root_path := root_string root in
  let! _ := validate_mounts (get_or config "mounts" (VList [])) root_path in
  validate_hostname config ;;
  validate_annotations config.

(** ** Projections *)

(** [config\["root"\]\["path"\]]; after [validate] it is a string. *)
Definition root_path_of (config : pyval) : res pystr :=
  let! root := getitem config "root" in
  let! path := getitem root "path" in
  match path with VStr p => Ok p | _ => raise TypeError "expected string" end.

Definition mounts_of (config : pyval) : res (list dict * list dict) :=
  match config with
  | VDict d => let! p := root_path_of config in validate_mounts (get_or d "mounts" (VList [])) p
  | _ => raise AttributeError "no attribute 'get'"
  end.

Definition guest_mount (item : dict) : res pyval :=
  let! destination := getitem (VDict item) "destination" in
  Ok (VDict [(str "destination", destination); (str "type", VStr "bind"); (str "source", destination);
             (str "options", VList (map VStr (sorted_strs SANITIZED_READONLY_BIND_OPTIONS)))]).

Definition guest_projection (config : pyval) : res pyval :=
  let! process := getitem config "process" in
  let! process := match process with VDict p => Ok p | _ => raise AttributeError "no attribute 'items'" end in
  let process := List.filter (fun kv => negb (mem kv.1 (strs ["apparmorProfile"; "oomScoreAdj"]))) process in
  let! root := getitem config "root" in
  let result := [(str "ociVersion", VStr "1.1.0"); (str "process", VDict process); (str "root", root)] in
  let! hostname := val_get config "hostname" in
  let result := if truthy hostname then dset "hostname" hostname result else result in
  let! linux := getitem config "linux" in
  let! linux := match linux with VDict l => Ok l | _ => raise TypeError "not subscriptable" end in
  let policy := List.flat_map (fun name => match dget name linux with Some v => [(name, v)] | None => [] end)
                  (strs ["maskedPaths"; "readonlyPaths"]) in
  let result := if bool_decide (policy = []) then result else dset "linux" (VDict policy) result in
  let! binds := mounts_of config in
  let! mounts := map_res guest_mount binds.1 in
  Ok (VDict (if bool_decide (binds.1 = []) then result else dset "mounts" (VList mounts) result)).

Definition plan_entry (mode : pystr) (item : dict) : res pyval :=
  let! destination := getitem (VDict item) "destination" in
  let! source := getitem (VDict item) "source" in
  Ok (VDict [(str "destination", destination); (str "type", VStr "bind"); (str "source", source);
             (str "options", VList (map VStr [str "bind"; mode; str "nodev"; str "nosuid"; str "noexec"]))]).

Definition bind_projection (config : pyval) : res pyval :=
  let! binds := mounts_of config in
  let! readonly := map_res (plan_entry "ro") binds.1 in
  let! seeds := map_res (plan_entry "rw") binds.2 in
  Ok (VDict [(str "schema_version", VInt 1); (str "readonly_binds", VList (readonly ++ seeds))]).

(** ** What an accepted list of mounts is *)

Definition destination_of (item : dict) : pyval := get item "destination".

(** A bind destination the validator lets through. *)
Definition admitted_destination (d : pystr) : Prop :=
  canonical_absolute d = true /\ NUL ∉ d /\ zlen d <= 4096 /\ protected d = false.

(** Two destinations of which neither is the other nor an ancestor of it. *)
Definition disjoint_destinations (d e : pystr) : Prop := overlaps d e = false.

(** A bind source the validator lets through. *)
Definition admitted_source (item : dict) : Prop :=
  exists s, get item "source" = VStr s /\ canonical_absolute s = true /\ s <> str "/".

Definition readonly_item (item : dict) : Prop :=
  get item "type" = VStr "bind" /\ admitted_source item /\
  readonly_bind (get_or item "options" (VList [])) = true.

Definition seed_item (root_path : pystr) (item : dict) : Prop :=
  exists d, destination_of item = VStr d /\ admitted_source item /\
            docker_private_seed item d root_path = true.

Lemma canonical_absolute_path_ok v p :
  canonical_absolute_path v = Ok p <->
  v = VStr p /\ canonical_absolute p = true /\ NUL ∉ p /\ zlen p <= 4096.
Proof.
  unfold canonical_absolute_path, canonical_absolute. destruct v as [| | | |s| |]; simpl;
    try (split; [done|naive_solver]).
  split.
  - intros H. inv_ok. str_prop. rewrite !andb_true_iff, negb_true_iff. repeat split; auto.
    + by apply startswith_prefix.
    + by apply str_eqb_eq.
    + by apply mem_not_elem.
  - intros ([= ->] & Hc & Hn & Hl). apply has_char_not_elem in Hn.
    rewrite !andb_true_iff, negb_true_iff in Hc. destruct Hc as [[-> ->] ->].
    rewrite Hn. apply Z.ltb_ge in Hl as ->. done.
Qed.

Lemma overlaps_sym d e : overlaps d e = overlaps e d.
Proof.
  unfold overlaps, at_or_below. apply eq_true_iff_eq.
  rewrite !orb_true_iff, !str_eqb_eq. naive_solver.
Qed.

(** The state of the loop over the mounts. *)
Definition mounts_inv (root_path : pystr) (st : mount_state) : Prop :=
  map destination_of (readonly_binds st) ++ map destination_of (private_seeds st)
    ≡ₚ map VStr (bind_destinations st) /\
  Forall admitted_destination (bind_destinations st) /\
  (forall i j d e, bind_destinations st !! i = Some d -> bind_destinations st !! j = Some e ->
     i <> j -> disjoint_destinations d e) /\
  Forall readonly_item (readonly_binds st) /\
  Forall (seed_item root_path) (private_seeds st).

Lemma pairwise_snoc {A} (R : A -> A -> Prop) (l : list A) x :
  (forall a b, R a b -> R b a) ->
  (forall i j d e, l !! i = Some d -> l !! j = Some e -> i <> j -> R d e) ->
  Forall (R x) l ->
  forall i j d e, (l ++ [x]) !! i = Some d -> (l ++ [x]) !! j = Some e -> i <> j -> R d e.
Proof.
  intros Hsym Hl Hx i j d e Hi Hj Hij. rewrite Forall_lookup in Hx.
  apply lookup_app_Some in Hi, Hj.
  destruct Hi as [Hi|[Hi Hi']], Hj as [Hj|[Hj Hj']]; eauto.
  - apply list_lookup_singleton_Some in Hj' as [? ->]. eauto.
  - apply list_lookup_singleton_Some in Hi' as [? ->]. eauto.
  - apply list_lookup_singleton_Some in Hi' as [? ->], Hj' as [? ->]. lia.
Qed.

Lemma bind_step_inv root_path st item options st' :
  options = get_or item "options" (VList []) ->
  mounts_inv root_path st -> bind_step root_path st item options = Ok st' -> mounts_inv root_path st'.
Proof.
  intros -> (Hperm & Hadm & Hpair & Hro & Hseed) H. unfold bind_step in H. inv_ok.
  apply canonical_absolute_path_ok in E as (Hd & Hc & Hn & Hl).
  apply canonical_absolute_path_ok in E0 as (Hs & Hsc & _). val_prop.
  assert (admitted_source item) as Hsrc by (eexists; eauto).
  assert (admitted_destination a) as Ha by (repeat split; auto).
  assert (Forall (disjoint_destinations a) (bind_destinations st)) as Hnew.
  { apply list.Forall_forall. by apply existsb_false_iff. }
  unfold mounts_inv. cbn [bind_destinations readonly_binds private_seeds].
  rewrite !map_app. cbn [map]. destruct (docker_private_seed item a root_path) eqn:Hseed'.
  - rewrite map_app, app_assoc, Hperm. cbn [map]. unfold destination_of at 1. rewrite Hd. split; [done|].
    rewrite Forall_app. repeat split; auto with py.
    + eapply pairwise_snoc; eauto. intros ??. unfold disjoint_destinations. by rewrite overlaps_sym.
    + apply Forall_app. split; [done|]. constructor; [|done]. by exists a.
  - rewrite map_app. cbn [map]. unfold destination_of at 2. rewrite Hd.
    rewrite (Permutation_app_comm _ [VStr a]), <-app_assoc, Hperm.
    split; [apply Permutation_app_comm|]. rewrite !Forall_app. repeat split; auto with py.
    + eapply pairwise_snoc; eauto. intros ??. unfold disjoint_destinations. by rewrite overlaps_sym.
    + constructor; [|done]. split; [by val_prop|]. split; [done|]. cbn in *. by destruct (readonly_bind _).
Qed.

Lemma mount_step_inv root_path st item st' :
  mounts_inv root_path st -> mount_step root_path st item = Ok st' -> mounts_inv root_path st'.
Proof.
  intros Hinv H. unfold mount_step in H. inv_ok.
  destruct a1, (get a "destination"); eauto using bind_step_inv.
  inv_ok. destruct (List.find _ _) as [[? contract]|]; [|done]. by inv_ok.
Qed.

Lemma validate_mounts_inv value root_path ro seeds :
  validate_mounts value root_path = Ok (ro, seeds) ->
  exists st, mounts_inv root_path st /\ readonly_binds st = ro /\ private_seeds st = seeds /\
             zlen (bind_destinations st) <= MAX_READONLY_BINDS.
Proof.
  unfold validate_mounts. destruct value as [| | | | |items|]; try done. intros H. inv_ok. bool_prop.
  exists a. split; [|done].
  eapply (for_each_inv _ (fun _ st => mounts_inv root_path st)); [done| |eauto using mount_step_inv].
  repeat split; simpl; auto with py. done.
Qed.

Lemma validate_mounts_safe_aux value root_path ro seeds :
  validate_mounts value root_path = Ok (ro, seeds) ->
  exists ds, map destination_of ro ++ map destination_of seeds ≡ₚ map VStr ds /\
    zlen ds <= 8 /\ Forall admitted_destination ds /\
    (forall i j d e, ds !! i = Some d -> ds !! j = Some e -> i <> j -> disjoint_destinations d e) /\
    Forall readonly_item ro /\ Forall (seed_item root_path) seeds.
Proof.
  intros (st & (Hperm & Hadm & Hpair & Hro & Hseed) & <- & <- & Hlen)%validate_mounts_inv.
  exists (bind_destinations st). auto 10.
Qed.

(** Component view of the textual checks, for a destination with one leading slash. *)
Definition comps (d : pystr) : list pystr := pp_comps (pure_path d).
Definition one_slash (d : pystr) : Prop := (splitroot d).1 = str "/".

Lemma canonical_comps d : canonical_absolute d = true -> one_slash d ->
  d = str "/" ++ join_with SLASH (comps d) /\ Forall good_component (comps d).
Proof.
  intros (cs & Hp & _ & Hd & Hg)%canonical_absolute_spec Hs. unfold comps. rewrite Hp.
  split; [|done]. etransitivity; [exact Hd|]. by rewrite Hs.
Qed.

Lemma at_or_below_extends d p cp :
  canonical_absolute d = true -> one_slash d -> p = str "/" ++ join_with SLASH cp -> cp <> [] ->
  cp `prefix_of` comps d -> at_or_below d p = true.
Proof.
  intros Hd H1 -> Hne Hpre. destruct (canonical_comps d Hd H1) as [Heq _].
  unfold at_or_below. apply orb_true_iff. rewrite str_eqb_eq, startswith_prefix, Heq.
  by apply extends_startswith.
Qed.

Lemma protected_comps d :
  admitted_destination d -> one_slash d ->
  exists c cs, comps d = c :: cs /\ c ∉ strs ["dev"; "proc"; "run"; "sys"].
Proof.
  intros (Hc & _ & _ & Hp) H1. unfold protected in Hp. str_prop.
  destruct (comps d) as [|c cs] eqn:E.
  - destruct (canonical_comps d Hc H1) as [Heq _]. rewrite E in Heq. done.
  - exists c, cs. split; [done|]. intros Hin.
    match goal with Hx : existsb _ _ = false |- _ => rewrite <-not_true_iff_false in Hx; apply Hx end.
    apply existsb_exists. exists (str "/" ++ c). split.
    + apply list_elem_of_In in Hin. simpl in Hin.
      destruct Hin as [<-|[<-|[<-|[<-|[]]]]]; simpl; auto 10.
    + apply (at_or_below_extends d _ [c]); auto. rewrite E. by exists cs.
Qed.

Lemma overlaps_comps d e :
  admitted_destination d -> admitted_destination e -> one_slash d -> one_slash e ->
  disjoint_destinations d e -> ~ comps e `prefix_of` comps d.
Proof.
  intros Hd He H1 H2 Hdis Hpre. unfold disjoint_destinations, overlaps in Hdis. bool_prop.
  destruct (protected_comps e He H2) as (c & cs & Ee & _).
  destruct He as [He _], Hd as [Hd _]. destruct (canonical_comps e He H2) as [Heq _].
  apply (at_or_below_extends d e (comps e)) in Hpre; auto; [congruence|by rewrite Ee].
Qed.

(** *** The mounts theorem

    C1: when [validate_mounts] accepts, the read-only binds and private seeds it
    returns have between them at most eight destinations, all absolute and
    canonical; none of those written with one leading slash is at or below
    [/dev], [/proc], [/run] or [/sys], and no two of those are equal or nested;
    every read-only bind satisfies the option contract and every private seed is
    one of Docker's three generated files for the container whose root this is. *)
Theorem validate_mounts_safe value root_path ro seeds :
  validate_mounts value root_path = Ok (ro, seeds) ->
  exists ds,
    map destination_of ro ++ map destination_of seeds ≡ₚ map VStr ds /\
    zlen ds <= 8 /\
    Forall (fun d => canonical_absolute d = true) ds /\
    (forall d, d ∈ ds -> one_slash d ->
       exists c cs, comps d = c :: cs /\ c ∉ strs ["dev"; "proc"; "run"; "sys"]) /\
    (forall i j d e, ds !! i = Some d -> ds !! j = Some e -> i <> j ->
       one_slash d -> one_slash e -> ~ comps e `prefix_of` comps d) /\
    Forall readonly_item ro /\ Forall (seed_item root_path) seeds.
Proof.
  intros (ds & Hperm & Hlen & Hadm & Hpair & Hro & Hseed)%validate_mounts_safe_aux.
  exists ds. rewrite list.Forall_forall in Hadm.
  repeat split; auto.
  - apply list.Forall_forall. intros d Hd. apply Hadm, Hd.
  - intros d Hd Hs. apply protected_comps; auto.
  - intros i j d e Hi Hj Hij H1 H2. apply overlaps_comps; eauto using list_elem_of_lookup_2.
Qed.

Definition example_bind (destination source : string) (options : list string) : pyval :=
  VDict [(str "destination", VStr destination); (str "type", VStr "bind");
         (str "source", VStr source); (str "options", VList (map VStr (strs options)))].

Lemma validate_mounts_safe_witness :
  exists ds, map VStr (strs ["/data"; "/srv/app"]) ≡ₚ map VStr ds /\ zlen ds <= 8.
Proof.
  destruct (validate_mounts_safe
    (VList [example_bind "/data" "/host/data" ["rbind"; "ro"]; example_bind "/srv/app" "/host/app" ["bind"; "rro"; "nodev"]])
    "rootfs" _ _ eq_refl) as (ds & Hp & Hl & _).
  exists ds. split; [exact Hp|exact Hl].
Defined.

(** The textual checks do not see through a second leading slash: [//proc/x]
    is accepted although it names a path below [/proc], and [//data] and [/data]
    are accepted together although they name one directory. *)
Example double_slash_destination_accepted :
  exists ro, validate_mounts (VList [example_bind "//proc/x" "/host" ["rbind"; "ro"];
                                     example_bind "/data" "/host" ["rbind"; "ro"];
                                     example_bind "//data" "/host" ["rbind"; "ro"]]) "rootfs" = Ok (ro, [])
             /\ length ro = 3%nat.
Proof. eexists. split; vm_compute; reflexivity. Qed.

(** ** What an accepted configuration is *)

Lemma require_object_ok v d : require_object v = Ok d <-> v = VDict d.
Proof. destruct v; simpl; naive_solver. Qed.

(** [inv_ok] with the facts about [require_object] and the unit results. *)
Ltac inv_val := inv_ok; val_prop;
  repeat match goal with H : require_object _ = Ok _ |- _ => apply require_object_ok in H end;
  repeat match goal with u : unit |- _ => destruct u end.

(** The root object passed its checks and its path is [rp]. *)
Definition validated_root (c : dict) (rp : pystr) : Prop :=
  exists r, validate_root c = Ok r /\ root_string r = Ok rp.

Lemma validate_inv config :
  validate config = Ok tt ->
  exists c rp binds, config = VDict c /\ keys c ⊆ TOP_LEVEL /\ validate_version c = Ok tt /\
    validate_process c = Ok tt /\ validated_root c rp /\ validate_linux c = Ok tt /\
    validate_mounts (get_or c "mounts" (VList [])) rp = Ok binds /\
    validate_hostname c = Ok tt /\ validate_annotations c = Ok tt.
Proof.
  unfold validate, validated_root, reject_unknown. intros H. inv_val. subst. eauto 20.
Qed.

Lemma subscript_ok d k v : subscript d k = Ok v -> get d k = v.
Proof. unfold subscript, get. simpl. destruct (dget k d); naive_solver. Qed.

Lemma validate_root_inv c rp :
  validated_root c rp -> exists r, get c "root" = VDict r /\ get r "path" = VStr rp /\ rp <> [].
Proof.
  unfold validated_root, validate_root, root_string. intros (r & H & Hs). inv_val. exists r. split; [done|].
  match goal with Hx : subscript _ _ = Ok _ |- _ => apply subscript_ok in Hx as -> end.
  destruct a; try done. inv_ok. split; [done|]. by intros ->.
Qed.

Lemma mounts_of_validated c rp :
  validated_root c rp -> mounts_of (VDict c) = validate_mounts (get_or c "mounts" (VList [])) rp.
Proof.
  intros (r & Hr & Hp & _)%validate_root_inv. unfold mounts_of, root_path_of.
  rewrite (getitem_get c _ _ Hr) by done. by rewrite (getitem_get r _ _ Hp).
Qed.

(** The entry of the guest's mount list for a destination. *)
Definition guest_entry (d : pystr) : pyval :=
  VDict [(str "destination", VStr d); (str "type", VStr "bind"); (str "source", VStr d);
         (str "options", VList (map VStr (strs ["bind"; "nodev"; "noexec"; "nosuid"; "ro"])))].

Lemma bound_destinations value rp ro seeds :
  validate_mounts value rp = Ok (ro, seeds) ->
  forall item, item ∈ ro ++ seeds -> exists d, destination_of item = VStr d.
Proof.
  intros (ds & Hp & _)%validate_mounts_safe_aux item Hi.
  assert (destination_of item ∈ map VStr ds) as (d & -> & _)%list_elem_of_fmap; [|eauto].
  rewrite <-Hp, <-map_app. by apply list_elem_of_fmap_2.
Qed.

Lemma guest_mounts_ok value rp ro seeds :
  validate_mounts value rp = Ok (ro, seeds) ->
  exists ds, map destination_of ro = map VStr ds /\ map_res guest_mount ro = Ok (map guest_entry ds).
Proof.
  intros Hv. pose proof (bound_destinations _ _ _ _ Hv) as Hb. clear Hv.
  induction ro as [|item ro IH]; [by exists []|].
  destruct IH as (ds & Hds & Hm); [intros i Hi; apply Hb; set_solver|].
  destruct (Hb item) as [d Hd]; [set_solver|]. exists (d :: ds). simpl. rewrite Hd, Hds.
  split; [done|]. unfold guest_mount at 1. unfold destination_of in Hd.
  rewrite (getitem_get item _ _ Hd) by done. by rewrite Hm.
Qed.

Lemma validate_linux_inv c : validate_linux c = Ok tt -> exists l, get c "linux" = VDict l /\ keys l ⊆ LINUX.
Proof.
  unfold validate_linux, validate_namespaces, reject_unknown. intros H. inv_val.
  simplify_eq. eauto.
Qed.

Lemma validate_process_inv c : validate_process c = Ok tt ->
  exists p args, get c "process" = VDict p /\ keys p ⊆ PROCESS /\ validate_console p = Ok tt /\
    validate_args p = Ok args /\ validate_env p args = Ok tt /\ validate_cwd p = Ok tt /\
    validate_no_new_privileges p = Ok tt /\ validate_rlimits p = Ok tt /\
    validate_capabilities p = Ok tt /\ validate_user p = Ok tt.
Proof.
  unfold validate_process, reject_unknown. intros H. inv_val. eauto 20.
Qed.

(** The two fields that never reach the guest. *)
Definition INERT_PROCESS_FIELDS : list pystr := strs ["apparmorProfile"; "oomScoreAdj"].

Definition linux_policy (l : dict) : dict :=
  List.flat_map (fun name => match dget name l with Some v => [(name, v)] | None => [] end)
    (strs ["maskedPaths"; "readonlyPaths"]).

Lemma linux_policy_keys l : keys (linux_policy l) ⊆ strs ["maskedPaths"; "readonlyPaths"].
Proof. unfold linux_policy, strs. simpl. do 2 (case_match; simpl); set_solver. Qed.

Lemma guest_projection_eq c rp p l ro seeds ds :
  validated_root c rp -> get c "process" = VDict p -> get c "linux" = VDict l ->
  validate_mounts (get_or c "mounts" (VList [])) rp = Ok (ro, seeds) ->
  map destination_of ro = map VStr ds -> map_res guest_mount ro = Ok (map guest_entry ds) ->
  exists g, guest_projection (VDict c) = Ok (VDict g) /\
    keys g ⊆ strs ["ociVersion"; "process"; "root"; "hostname"; "linux"; "mounts"] /\
    dget "ociVersion" g = Some (VStr "1.1.0") /\
    dget "process" g = Some (VDict (List.filter (fun kv => negb (mem kv.1 INERT_PROCESS_FIELDS)) p)) /\
    dget "root" g = dget "root" c /\
    dget "linux" g = (if bool_decide (linux_policy l = []) then None else Some (VDict (linux_policy l))) /\
    dget "mounts" g = (if bool_decide (ro = []) then None else Some (VList (map guest_entry ds))).
Proof.
  intros Hroot Hp Hl Hm Hds Hmap. pose proof (mounts_of_validated c rp Hroot) as Hmo.
  destruct (validate_root_inv c rp Hroot) as (r & Hr & _).
  unfold guest_projection. rewrite (getitem_get c _ _ Hp), (getitem_get c _ _ Hr) by done.
  rewrite (getitem_get c _ _ Hl), Hmo, Hm by done. cbn [fst snd]. rewrite Hmap.
  fold (linux_policy l). rewrite (get_some c _ _ Hr) by done. eexists. split; [reflexivity|].
  set (h := get c "hostname"). split.
  - intros k. repeat case_bool_decide; destruct (truthy h); rewrite ?keys_dset; simpl; set_solver.
  - repeat case_bool_decide; destruct (truthy h); rewrite ?dget_dset; done.
Qed.

(** C2: for every accepted configuration [guest_projection] returns, and what the
    guest sees is confined to six top-level fields: the process without its two
    inert compatibility fields and otherwise unchanged, the root, at most the two
    path policies of [linux], and for each read-only bind an entry whose source is
    the guest destination itself, never a host path, with exactly the sanitized
    options. Private seeds and default mounts are not projected. *)
Theorem guest_projection_confined config :
  validate config = Ok tt ->
  exists c p g ro seeds ds,
    config = VDict c /\ get c "process" = VDict p /\ guest_projection config = Ok (VDict g) /\
    keys g ⊆ strs ["ociVersion"; "process"; "root"; "hostname"; "linux"; "mounts"] /\
    dget "ociVersion" g = Some (VStr "1.1.0") /\
    (exists p', dget "process" g = Some (VDict p') /\
       forall k, dget k p' = if mem k INERT_PROCESS_FIELDS then None else dget k p) /\
    dget "root" g = dget "root" c /\
    (forall l, dget "linux" g = Some l ->
       exists l', l = VDict l' /\ keys l' ⊆ strs ["maskedPaths"; "readonlyPaths"]) /\
    mounts_of config = Ok (ro, seeds) /\ map destination_of ro = map VStr ds /\
    dget "mounts" g = if bool_decide (ro = []) then None else Some (VList (map guest_entry ds)).
Proof.
  intros (c & rp & [ro seeds] & -> & _ & _ & Hp & Hr & Hl & Hm & _)%validate_inv.
  apply validate_process_inv in Hp as (p & _ & Hp & _).
  apply validate_linux_inv in Hl as (l & Hl & _).
  destruct (guest_mounts_ok _ _ _ _ Hm) as (ds & Hds & Hmap).
  destruct (guest_projection_eq c rp p l ro seeds ds) as (g & Hg & Hk & Hv & Hpp & Hrt & Hlx & Hmt); auto.
  exists c, p, g, ro, seeds, ds. repeat split; auto.
  - eexists. split; [exact Hpp|]. intros k.
    rewrite (dget_filter k (fun x => negb (mem x INERT_PROCESS_FIELDS))). by destruct (mem _ _).
  - rewrite Hlx. intros l' Hl'. case_bool_decide; simplify_eq. eauto using linux_policy_keys.
  - by rewrite (mounts_of_validated c rp Hr).
Qed.

(** ** Errors *)

Definition rejects (c : exn_class) : bool :=
  match c with ValueError | TypeError | AttributeError => true | _ => false end.

Create HintDb oci_raises.

(** A subscript fails unless the name was seen to be there first. *)
Lemma raises_subscript d k : has_key k d = true -> raises_only rejects (subscript d k).
Proof. intros [v Hv]%has_key_dget. unfold subscript. simpl. by rewrite Hv. Qed.

Lemma raises_first_item l : truthy (VList l) = true -> raises_only rejects (first_item l).
Proof. by destruct l. Qed.

Lemma raises_and_then b r :
  (b = true -> raises_only rejects r) -> raises_only rejects (and_then (Ok b) r).
Proof. destruct b; simpl; auto. Qed.

Lemma raises_or_else b r :
  (b = false -> raises_only rejects r) -> raises_only rejects (or_else (Ok b) r).
Proof. destruct b; simpl; auto. Qed.

(** What the guards of the validator say about the keys of an object. *)
Lemma has_key_get d k : get d k <> VNone -> has_key k d = true.
Proof. intros H. destruct (has_key k d) eqn:E; [done|]. by apply get_has_key in E. Qed.

Lemma int_within_key lo hi d k : int_within lo hi (get d k) = true -> has_key k d = true.
Proof. intros H. apply has_key_get. by destruct (get d k). Qed.

Lemma is_str_key d k : is_str (get d k) = true -> has_key k d = true.
Proof. intros H. apply has_key_get. by destruct (get d k). Qed.

(** Finds the guard that makes a subscript safe. *)
Ltac key_known :=
  repeat match goal with
  | H : raise_if _ _ _ = Ok _ |- _ => apply raise_if_ok in H
  | H : negb _ = false |- _ => apply negb_false_iff in H
  end;
  solve [assumption | eapply int_within_key; eassumption | eapply is_str_key; eassumption].

(** Walks through a computation; calls are closed by the lemmas of [oci_raises]. *)
Ltac raises :=
  repeat (match goal with
  | |- raises_only _ (Ok _) => exact I
  | |- raises_only _ (raise _ _) => reflexivity
  | |- raises_only _ (raise_if _ _ _) => apply raises_raise_if; reflexivity
  | |- raises_only _ (for_each _ _ _) => apply raises_for_each; intros
  | |- raises_only _ (subscript _ _) => apply raises_subscript; key_known
  | |- raises_only _ (first_item _) => apply raises_first_item; key_known
  | |- raises_only _ (and_then (Ok _) _) => apply raises_and_then; intros
  | |- raises_only _ (or_else (Ok _) _) => apply raises_or_else; intros
  | |- raises_only _ (match ?r with Ok _ => _ | Err _ => Err _ end) => apply raises_bind; [|intros]
  | |- raises_only _ (if ?b then _ else _) => destruct b eqn:?
  | |- raises_only _ (match ?v with _ => _ end) => destruct v
  | |- raises_only _ (let _ := _ in _) => cbv zeta
  | |- raises_only _ _ => solve [eauto with oci_raises]
  end).

Lemma raises_require_object v : raises_only rejects (require_object v).
Proof. by destruct v. Qed.
Lemma raises_reject_unknown d a : raises_only rejects (reject_unknown d a).
Proof. unfold reject_unknown. raises. Qed.
Lemma raises_require_uint32 v : raises_only rejects (require_uint32 v).
Proof. unfold require_uint32. raises. Qed.
Lemma raises_in_strs v l : raises_only rejects (in_strs v l).
Proof. unfold in_strs. raises. Qed.
Lemma raises_py_set l : raises_only rejects (py_set l).
Proof. unfold py_set. raises. Qed.
Lemma raises_val_get v k : raises_only rejects (val_get v k).
Proof. unfold val_get. raises. Qed.
Lemma raises_canonical v : raises_only rejects (canonical_absolute_path v).
Proof. unfold canonical_absolute_path. raises. Qed.
#[local] Hint Resolve raises_require_object raises_reject_unknown raises_require_uint32 raises_in_strs
  raises_py_set raises_val_get raises_canonical : oci_raises.

Lemma raises_bind_step rp st i o : raises_only rejects (bind_step rp st i o).
Proof. unfold bind_step. raises. Qed.
Lemma raises_default_mount i d k o : raises_only rejects (default_mount_differs i d k o).
Proof. unfold default_mount_differs. raises. Qed.
#[local] Hint Resolve raises_bind_step raises_default_mount : oci_raises.

Lemma default_mounts_find v d :
  in_strs v (map fst DEFAULT_MOUNTS) = Ok true -> v = VStr d ->
  exists e, List.find (fun e => d =s e.1) DEFAULT_MOUNTS = Some e.
Proof.
  intros [_ Hin]%in_strs_ok ->. destruct (List.find _ _) as [e|] eqn:Hf; [eauto|].
  destruct (proj1 Hin eq_refl) as (s & [= <-] & (e & -> & He%list_elem_of_In)%list_elem_of_fmap).
  eapply List.find_none in Hf; [|exact He]. str_prop. done.
Qed.

Lemma raises_mount_step rp st i : raises_only rejects (mount_step rp st i).
Proof.
  unfold mount_step. apply raises_bind; [raises|intros item _]. apply raises_bind; [raises|intros _ _].
  cbv zeta. apply raises_bind; [raises|intros def Hdef].
  destruct def, (get item "destination") eqn:Hd; try solve [raises].
  apply raises_bind; [raises|intros _ _].
  destruct (default_mounts_find _ _ Hdef eq_refl) as [[? ?] ->]. raises.
Qed.
#[local] Hint Resolve raises_mount_step : oci_raises.

Lemma raises_validate_mounts v rp : raises_only rejects (validate_mounts v rp).
Proof. unfold validate_mounts. raises. Qed.
Lemma raises_validate_linux c : raises_only rejects (validate_linux c).
Proof. unfold validate_linux, validate_namespaces, namespace_step, validate_path_policy, standard_resources. raises. Qed.
Lemma raises_capabilities p : raises_only rejects (validate_capabilities p).
Proof.
  assert (forall v, raises_only rejects (capability_values v)) by (intros; unfold capability_values; raises).
  assert (forall c, raises_only rejects (capability_containment c)) by (intros; unfold capability_containment; raises).
  unfold validate_capabilities. raises.
Qed.
Lemma raises_console_size p : has_key "consoleSize" p = true -> raises_only rejects (validate_console_size p).
Proof.
  intros Hk. unfold validate_console_size. apply raises_bind; [raises|intros v _].
  apply raises_bind; [raises|intros cs _]. apply raises_bind; [raises|intros _ _].
  apply raises_bind; [raises|]. intros _ Hkeys%raise_if_ok. bool_prop.
  assert (forall f, f ∈ strs ["width"; "height"] -> raises_only rejects (console_field cs f)).
  { intros f Hf. destruct (keys_are_get _ _ f Hkeys Hf) as [x Hx]. unfold console_field.
    assert (has_key f cs = true) by (apply has_key_dget; eauto). raises. }
  apply raises_bind; [|intros; raises]. unfold strs, for_each, map.
  repeat (apply raises_bind; [solve [auto; set_solver]|intros]). raises.
Qed.
Lemma raises_int_gt a b : raises_only rejects (int_gt a b).
Proof. by destruct a, b. Qed.
#[local] Hint Resolve raises_console_size raises_int_gt : oci_raises.

Lemma raises_validate_process c : raises_only rejects (validate_process c).
Proof.
  pose proof raises_capabilities.
  assert (forall p, raises_only rejects (validate_console p)) by (intros; unfold validate_console; raises).
  assert (forall p, raises_only rejects (validate_args p)) by (intros; unfold validate_args; raises).
  assert (forall p a, raises_only rejects (validate_env p a)) by (intros; unfold validate_env; raises).
  assert (forall p, raises_only rejects (validate_cwd p)) by (intros; unfold validate_cwd; raises).
  assert (forall p, raises_only rejects (validate_rlimits p))
    by (intros; unfold validate_rlimits, rlimit_step; raises).
  assert (forall p, raises_only rejects (validate_user p)) by (intros; unfold validate_user, gid_step; raises).
  unfold validate_process, validate_no_new_privileges. raises.
Qed.
#[local] Hint Resolve raises_validate_mounts raises_validate_linux raises_validate_process : oci_raises.

Lemma raises_validate_root c : raises_only rejects (validate_root c).
Proof. unfold validate_root. raises. Qed.

Lemma raises_root_string c r : validate_root c = Ok r -> raises_only rejects (root_string r).
Proof.
  unfold validate_root, root_string. intros H. inv_ok. raises.
Qed.
#[local] Hint Resolve raises_validate_root raises_root_string : oci_raises.

(** C4: a configuration is either accepted or refused with [ValueError],
    [TypeError] or [AttributeError], whatever value [json.loads] produced. Every
    subscript of the validator can fail, with a [KeyError] on an absent name
    and an [IndexError] on an empty list; none does, because each stands behind
    a guard that has seen the name or the element. *)
Theorem validate_errors config : raises_only rejects (validate config).
Proof.
  unfold validate, validate_version, validate_hostname, validate_annotations. raises.
Qed.

(** ** Privileges and bounds *)

Lemma capability_values_ok v u :
  capability_values v = Ok u ->
  exists items, v = VList (map VStr items) /\ NoDup items /\ items ⊆ SUPPORTED_CAPABILITIES.
Proof.
  unfold capability_values. destruct v as [| | | | |l|]; try done.
  destruct (strs_of l) as [items|] eqn:E; [|done]. intros H. inv_val. apply strs_of_spec in E as ->.
  exists items. repeat split; auto. intros x Hx.
  match goal with
  | Hy : existsb (fun i => negb (mem i SUPPORTED_CAPABILITIES)) _ = false |- _ =>
      rewrite existsb_false_iff in Hy; apply Hy in Hx
  end.
  by val_prop.
Qed.

Lemma set_eq_spec s t : set_eq s t = true <-> (forall x, x ∈ s <-> x ∈ t).
Proof. unfold set_eq. rewrite andb_true_iff, !subset_spec. set_solver. Qed.

Lemma capability_loop caps u :
  for_each (fun _ kv => capability_values kv.2) tt caps = Ok u ->
  Forall (fun kv : pystr * pyval => exists items, kv.2 = VList (map VStr items) /\ NoDup items /\
                    items ⊆ SUPPORTED_CAPABILITIES) caps.
Proof.
  intros H. eapply (for_each_inv _ (fun pre _ => Forall _ pre)); [exact H|constructor|].
  intros pre x t s1 s2 -> Hpre Hx. apply Forall_app. split; [done|]. constructor; [|done].
  by eapply capability_values_ok.
Qed.

Lemma capability_containment_ok caps u :
  capability_containment caps = Ok u ->
  capability_set caps "ambient" ⊆ capability_set caps "permitted" /\
  capability_set caps "ambient" ⊆ capability_set caps "inheritable" /\
  (forall x, x ∈ capability_set caps "bounding" <-> x ∈ capability_set caps "permitted") /\
  (forall x, x ∈ capability_set caps "permitted" <-> x ∈ capability_set caps "effective").
Proof.
  unfold capability_containment. cbv zeta. intros H. inv_ok. bool_prop.
  rewrite set_eq_spec in *. val_prop. auto.
Qed.

Lemma no_grants (caps : dict) :
  Forall (fun kv : pystr * pyval => exists items, kv.2 = VList (map VStr items) /\ NoDup items /\
                    items ⊆ SUPPORTED_CAPABILITIES) caps ->
  existsb truthy (map snd caps) = false -> Forall (fun kv : pystr * pyval => kv.2 = VList []) caps.
Proof.
  induction 1 as [|[k v] caps (items & Hv & _) _ IH]; simpl; [constructor|]. simpl in Hv. intros [Hx Hy]%orb_false_iff.
  constructor; [|auto]. simpl. rewrite Hv in Hx |- *. simpl in Hx. bool_prop. by rewrite Hx.
Qed.

Lemma validate_user_ok p u :
  validate_user p = Ok u ->
  exists user uid, get p "user" = VDict user /\ get user "uid" = VInt uid /\ 0 <= uid < 2 ^ 32.
Proof.
  unfold validate_user, reject_unknown, require_uint32. intros H. inv_val. subst.
  exists a, x0. repeat split; auto; lia.
Qed.

(** C3: when an accepted configuration requests capabilities, every requested
    set holds distinct capabilities of the fourteen supported ones; ambient is
    contained in permitted and in inheritable; bounding, permitted and effective
    are the same set; and a process whose uid is not zero requests none. *)
Theorem accepted_capabilities config :
  validate config = Ok tt ->
  exists c p user uid,
    config = VDict c /\ get c "process" = VDict p /\ get p "user" = VDict user /\
    get user "uid" = VInt uid /\ 0 <= uid < 2 ^ 32 /\
    (get p "capabilities" = VNone \/ exists caps,
      get p "capabilities" = VDict caps /\ keys caps ⊆ CAPABILITY_SETS /\
      Forall (fun kv => exists items, kv.2 = VList (map VStr items) /\ NoDup items /\
                        items ⊆ SUPPORTED_CAPABILITIES) caps /\
      capability_set caps "ambient" ⊆ capability_set caps "permitted" /\
      capability_set caps "ambient" ⊆ capability_set caps "inheritable" /\
      (forall x, x ∈ capability_set caps "bounding" <-> x ∈ capability_set caps "permitted") /\
      (forall x, x ∈ capability_set caps "permitted" <-> x ∈ capability_set caps "effective") /\
      (uid <> 0 -> Forall (fun kv => kv.2 = VList []) caps)).
Proof.
  intros (c & rp & binds & -> & _ & _ & Hp & _)%validate_inv.
  apply validate_process_inv in Hp as (p & args & Hp & _ & _ & _ & _ & _ & _ & _ & Hcap & Huser).
  apply validate_user_ok in Huser as (user & uid & Hu & Huid & Hr).
  exists c, p, user, uid. repeat (split; [done|]).
  unfold validate_capabilities, reject_unknown in Hcap.
  destruct (get p "capabilities") as [| | | | | |caps] eqn:Ec; try done; [by left|right].
  cbn [require_object] in Hcap. exists caps.
  unfold get_or in Hcap. rewrite (get_some p _ _ Hu) in Hcap by done. simpl in Hcap. inv_ok.
  rewrite Huid in *. apply capability_loop in E0. bool_prop. val_prop.
  apply capability_containment_ok in Hcap. repeat (split; [naive_solver|]).
  intros Hne. apply no_grants; [done|].
  match goal with Hx : negb _ && _ = false |- _ => unfold py_eq in Hx; rewrite py_same_int in Hx end.
  apply Z.eqb_neq in Hne. by rewrite Hne in *.
Qed.

Lemma validate_args_ok p args :
  validate_args p = Ok args ->
  get p "args" = VList (map VStr args) /\ args <> [] /\ head args <> Some [] /\
  zlen args <= 256 /\ (forall a, a ∈ args -> NUL ∉ a).
Proof.
  unfold validate_args. destruct (get p "args") as [| | | | |l|]; try done. intros H. inv_ok.
  destruct (strs_of l) as [r|] eqn:Es; [|done]. inv_ok. apply strs_of_spec in Es as ->. val_prop.
  destruct args as [|arg0 args]; [done|]. repeat split; auto.
  - simpl in *. simplify_eq. by intros [= ->].
  - unfold zlen in *. rewrite length_map in *. unfold MAX_PROCESS_ARGS in *. lia.
  - intros b Hb. apply (list_elem_of_fmap_2 VStr) in Hb.
    match goal with Hx : forallb _ _ = true |- _ => rewrite forallb_elem in Hx; apply Hx in Hb end.
    simpl in Hb. by val_prop.
Qed.

Lemma validate_env_ok p args u :
  validate_env p args = Ok u ->
  exists env, get_or p "env" (VList []) = VList (map VStr env) /\ zlen env <= 1024 /\
    NoDup (map (before_char EQUALS) env) /\ text_size (args ++ env) <= 128 * 1024 /\
    (forall e, e ∈ env -> NUL ∉ e /\ EQUALS ∈ e /\ before_char EQUALS e <> []).
Proof.
  unfold validate_env, nul_free. destruct (get_or p "env" (VList [])) as [| | | | |l|]; try done.
  destruct (strs_of l) as [env|] eqn:E; [|done]. apply strs_of_spec in E as ->. intros H. inv_ok. val_prop.
  rewrite forallb_elem, existsb_false_iff in *. exists env. split; [done|]. split.
  { unfold zlen in *. rewrite length_map in *. unfold MAX_PROCESS_ENV in *. lia. }
  split; [done|]. split; [done|]. intros e1 He.
  repeat match goal with Hx : forall x, x ∈ env -> _ |- _ => pose proof (Hx e1 He); clear Hx end.
  by val_prop.
Qed.

(** The process of an accepted configuration has between 1 and 256 arguments
    with a non-empty [argv\[0\]], at most 1024 environment entries of the form
    name=value with distinct non-empty names, no NUL in any of them, at most
    128 KiB of text in all (each string counted with its terminator), and an
    absolute canonical working directory. *)
Theorem accepted_process_bounds config :
  validate config = Ok tt ->
  exists c p args env cwd,
    config = VDict c /\ get c "process" = VDict p /\
    get p "args" = VList (map VStr args) /\ args <> [] /\ head args <> Some [] /\ zlen args <= 256 /\
    get_or p "env" (VList []) = VList (map VStr env) /\ zlen env <= 1024 /\
    NoDup (map (before_char EQUALS) env) /\
    (forall e, e ∈ env -> EQUALS ∈ e /\ before_char EQUALS e <> []) /\
    (forall s, s ∈ args ++ env -> NUL ∉ s) /\ text_size (args ++ env) <= 128 * 1024 /\
    get p "cwd" = VStr cwd /\ canonical_absolute cwd = true.
Proof.
  intros (c & rp & binds & -> & _ & _ & Hp & _)%validate_inv.
  apply validate_process_inv in Hp as (p & args & Hp & _ & _ & Ha & He & Hc & _).
  apply validate_args_ok in Ha as (Ha1 & Ha2 & Ha3 & Ha4 & Ha5).
  apply validate_env_ok in He as (env & He1 & He2 & He3 & He4 & He5).
  unfold validate_cwd in Hc. destruct (get p "cwd") as [| | | |cwd| |] eqn:Ecwd; try done.
  inv_ok. bool_prop. exists c, p, args, env, cwd. repeat (split; [done|]).
  split; [intros e Hx; apply He5 in Hx; tauto|].
  split; [intros s [Hs|Hs]%elem_of_app; [auto|by apply He5]|].
  split; [done|]. split; [done|]. unfold canonical_absolute.
  repeat match goal with Hx : _ = true |- _ => rewrite Hx | Hx : mem _ _ = false |- _ => rewrite Hx end. done.
Qed.

(** A configuration in the shape containerd and Docker generate. *)
Definition example_config : pyval := VDict
  [(str "ociVersion", VStr "1.2.0");
   (str "process", VDict
      [(str "terminal", VBool true);
       (str "consoleSize", VDict [(str "width", VInt 80); (str "height", VInt 24)]);
       (str "user", VDict [(str "uid", VInt 0); (str "gid", VInt 0); (str "additionalGids", VList [VInt 10])]);
       (str "args", VList (map VStr (strs ["/bin/sh"; "-c"; "id"])));
       (str "env", VList (map VStr (strs ["PATH=/bin"; "TERM=xterm"])));
       (str "cwd", VStr "/"); (str "noNewPrivileges", VBool true);
       (str "apparmorProfile", VStr "unconfined"); (str "oomScoreAdj", VInt 0);
       (str "rlimits", VList [VDict [(str "type", VStr "RLIMIT_NOFILE"); (str "hard", VInt 1024); (str "soft", VInt 1024)]]);
       (str "capabilities", VDict
          [(str "bounding", VList [VStr "CAP_KILL"]); (str "permitted", VList [VStr "CAP_KILL"]);
           (str "effective", VList [VStr "CAP_KILL"])])]);
   (str "root", VDict [(str "path", VStr "rootfs")]);
   (str "hostname", VStr "guest-1");
   (str "mounts", VList [VDict [(str "destination", VStr "/proc"); (str "type", VStr "proc"); (str "source", VStr "proc");
                                (str "options", VList (map VStr (strs ["nosuid"; "noexec"; "nodev"])))];
                         example_bind "/data" "/host/data" ["rbind"; "ro"]]);
   (str "linux", VDict
      [(str "namespaces", VList [VDict [(str "type", VStr "network"); (str "path", VStr "/run/netns/x")];
                                 VDict [(str "type", VStr "pid")]]);
       (str "resources", VDict [(str "devices", VList DENY_ALL_DEVICES)]);
       (str "cgroupsPath", VStr "/default/x");
       (str "maskedPaths", VList [VStr "/proc/kcore"]); (str "readonlyPaths", VList [VStr "/proc/sys"])])].

Lemma guest_projection_confined_witness :
  exists c p g ro seeds ds, example_config = VDict c /\ get c "process" = VDict p /\
    guest_projection example_config = Ok (VDict g) /\ mounts_of example_config = Ok (ro, seeds) /\
    map destination_of ro = map VStr ds.
Proof.
  destruct (guest_projection_confined example_config) as (c & p & g & ro & seeds & ds & H1 & H2 & H3 & _ & _ & _ & _ & _ & H4 & H5 & _);
    [vm_compute; reflexivity|].
  exists c, p, g, ro, seeds, ds. auto.
Defined.

Lemma accepted_capabilities_witness : exists c p, example_config = VDict c /\ get c "process" = VDict p.
Proof.
  destruct (accepted_capabilities example_config) as (c & p & _ & _ & H1 & H2 & _); [vm_compute; reflexivity|].
  exists c, p. auto.
Defined.

Lemma accepted_process_bounds_witness :
  exists c p args env cwd, example_config = VDict c /\ get c "process" = VDict p /\
    get p "args" = VList (map VStr args) /\ get_or p "env" (VList []) = VList (map VStr env) /\
    get p "cwd" = VStr cwd.
Proof.
  destruct (accepted_process_bounds example_config)
    as (c & p & args & env & cwd & H1 & H2 & H3 & _ & _ & _ & H4 & _ & _ & _ & _ & _ & H5 & _);
    [vm_compute; reflexivity|].
  exists c, p, args, env, cwd. auto 10.
Defined.

(** Without their guards the subscripts do fail. *)
Example unguarded_subscripts :
  console_field [(str "width", VInt 80)] "height" = Err (Exn KeyError "") /\
  validate_console_size [] = Err (Exn KeyError "") /\ root_string [] = Err (Exn KeyError "") /\
  first_item [] = Err (Exn IndexError "list index out of range").
Proof. repeat split. Qed.

(** A namespace type that is not hashable is refused with a [TypeError], which
    [main] does not catch. *)
Example unhashable_namespace_type :
  validate_namespaces (VDict [(str "namespaces", VList [VDict [(str "type", VList [])]])])
  = Err (Exn TypeError "unhashable type").
Proof. reflexivity. Qed.

End Oci.
