(* ===== verification/BindPlan.v ===== *)
(** * The bind plan the materializer executes (scripts/materialize-runtime-binds.py)

    [main] of the materializer checks the plan, then each record before it opens
    the record's source.  The checks are modelled here; [plan_checks] runs them
    over a whole plan.  [bind_projection_accepted] shows that the plan the OCI
    validator writes for an accepted configuration passes all of them. *)
From Stdlib Require Import ZArith Lia.
From stdpp Require Import base list sets strings option.
From S2P Require Import Prelude PyStr PyVal Oci.

Open Scope string_scope.
Open Scope list_scope.
Open Scope Z_scope.

Module BindPlan.

Definition strict_object (pairs : dict) : res dict :=
  strict_pairs MaterializationError "duplicate bind-plan key" [] pairs.

(** The checks on the whole plan; the result is [plan\["readonly_binds"\]]. *)
Definition plan_records (plan : pyval) : res (list pyval) :=
  let! bad := or_else (set_differs plan (strs ["schema_version"; "readonly_binds"]))
             (or_else (let! v := getitem plan "schema_version" in Ok (negb (v == VInt 1)))
                      (let! v := getitem plan "readonly_binds" in Ok (negb (is_list v)))) in
  raise_if bad MaterializationError "invalid read-only bind plan" ;;
  let! records := getitem plan "readonly_binds" in
  match records with
  | VList l =>
      raise_if (8 <? zlen l) MaterializationError "at most eight read-only bind inputs are supported" ;;
      Ok l
  | _ => raise TypeError "object has no len()"
  end.

Definition READONLY_OPTIONS : pyval := VList (map VStr (strs ["bind"; "ro"; "nodev"; "nosuid"; "noexec"])).
Definition PRIVATE_SEED_OPTIONS : pyval := VList (map VStr (strs ["bind"; "rw"; "nodev"; "nosuid"; "noexec"])).

(** [destination == p or destination.startswith(p + "/")] *)
Definition at_or_below (destination p : pystr) : bool :=
  (destination =s p) || startswith destination (p ++ str "/").

Definition runtime_owned (destination : pystr) : bool :=
  (destination =s "/") || existsb (at_or_below destination) (strs ["/dev"; "/proc"; "/run"; "/sys"]).

Record bind_record := BindRecord {
  br_source : pystr;
  br_destination : pystr;
  br_private_seed : bool;
}.

(** The checks on one record, with the destinations of the records before it. *)
Definition record_check (destinations : list pystr) (item : pyval) : res bind_record :=
  match item with
  | VDict d =>
      raise_if (negb (keys_are d (strs ["destination"; "type"; "source"; "options"])))
        MaterializationError "invalid read-only bind record" ;;
      let options := get d "options" in
      match get d "type" == VStr "bind", (options == READONLY_OPTIONS) || (options == PRIVATE_SEED_OPTIONS),
            get d "source", get d "destination" with
      | true, true, VStr source, VStr destination =>
          raise_if (runtime_owned destination)
            MaterializationError "read-only bind destination overlaps a runtime-owned path" ;;
          raise_if (existsb (fun prior => at_or_below destination prior || startswith prior (destination ++ str "/"))
                      destinations)
            MaterializationError "read-only bind destinations overlap" ;;
          Ok (BindRecord source destination (options == PRIVATE_SEED_OPTIONS))
      | _, _, _, _ => raise MaterializationError "read-only bind record differs from the enforced contract"
      end
  | _ => raise MaterializationError "invalid read-only bind record"
  end.

(** The path checks with which [open_real_source] starts:
    [path.is_absolute()], [Path(os.path.normpath(path)) == path], [path != Path("/")]. *)
Definition source_path_check (source : pystr) : res unit :=
  let path := pure_path source in
  raise_if ((pp_root path =s "") || negb (bool_decide (pure_path (normpath (as_posix path)) = path)) ||
            bool_decide (path = pure_path "/"))
    MaterializationError "must be absolute and canonical".

(** The path checks with which [destination_path] starts. *)
Definition destination_path_check (destination : pystr) : res unit :=
  raise_if (negb (startswith destination (str "/")) || negb (as_posix (pure_path destination) =s destination) ||
            (destination =s "/") || mem (str "..") (parts (pure_path destination)))
    MaterializationError "bind destination is not absolute and canonical".

(** Every check [main] makes of the plan before it touches the file system. *)
Definition record_step (acc : list bind_record) (item : pyval) : res (list bind_record) :=
  let! r := record_check (map br_destination acc) item in
  source_path_check (br_source r) ;;
  destination_path_check (br_destination r) ;;
  Ok (acc ++ [r]).

Definition plan_checks (plan : pyval) : res (list bind_record) :=
  let! records := plan_records plan in for_each record_step [] records.

(** ** The validator's plan passes the checks *)

(** The record the materializer makes of an admitted bind. *)
Definition record_of (seed : bool) (item : dict) : bind_record :=
  BindRecord (match get item "source" with VStr s => s | _ => [] end)
             (match get item "destination" with VStr d => d | _ => [] end) seed.

Definition admitted_item (item : dict) : Prop :=
  exists d, Oci.destination_of item = VStr d /\ Oci.admitted_destination d /\ Oci.admitted_source item.

Lemma source_path_check_ok s : canonical_absolute s = true -> s <> str "/" -> source_path_check s = Ok tt.
Proof.
  intros Hc Hs. pose proof (normpath_canonical s Hc) as Hn.
  destruct (canonical_absolute_spec s Hc) as (comps & Hp & Hroot & Hv & _).
  assert (as_posix (pure_path s) = s) as Hap.
  { unfold canonical_absolute in Hc. by str_prop. }
  unfold source_path_check. rewrite Hap, Hn, bool_decide_true by done. rewrite Hp. cbn [pp_root].
  assert ((splitroot s).1 =s "" = false) as -> by (destruct Hroot as [-> | ->]; done).
  rewrite bool_decide_false; [done|]. intros Heq. apply Hs.
  assert (PPath (splitroot s).1 comps = PPath (str "/") []) as [= H1 H2] by exact Heq.
  rewrite Hv, H1, H2. done.
Qed.

Lemma destination_path_check_ok d : Oci.admitted_destination d -> destination_path_check d = Ok tt.
Proof.
  intros (Hc & _ & _ & Hp). unfold destination_path_check, canonical_absolute in *.
  unfold Oci.protected in Hp. bool_prop.
  repeat match goal with H : _ = true |- _ => rewrite H | H : _ = false |- _ => rewrite H end. done.
Qed.

Lemma record_step_entry acc item seed :
  admitted_item item ->
  Forall (fun r => Oci.overlaps (br_destination (record_of seed item)) (br_destination r) = false) acc ->
  exists entry, Oci.plan_entry (if seed then "rw" else "ro") item = Ok entry /\
    record_step acc entry = Ok (acc ++ [record_of seed item]).
Proof.
  intros (d & Hd & Had & s & Hs & Hsc & Hne) Hover. unfold Oci.destination_of in Hd.
  unfold Oci.plan_entry. rewrite (getitem_get item _ _ Hd), (getitem_get item _ _ Hs) by done.
  eexists. split; [reflexivity|].
  assert (record_of seed item = BindRecord s d seed) as Hr by (unfold record_of; by rewrite Hd, Hs).
  rewrite Hr in *. cbn [br_destination] in Hover. unfold record_step.
  set (entry := VDict _).
  assert (record_check (map br_destination acc) entry = Ok (BindRecord s d seed)) as ->.
  { transitivity (raise_if (runtime_owned d) MaterializationError
                    "read-only bind destination overlaps a runtime-owned path" ;;
                  raise_if (existsb (fun prior => at_or_below d prior || startswith prior (d ++ str "/"))
                    (map br_destination acc)) MaterializationError "read-only bind destinations overlap" ;;
                  Ok (BindRecord s d seed)); [by destruct seed|].
    change (runtime_owned d) with (Oci.protected d). destruct Had as (_ & _ & _ & ->). simpl.
    rewrite (proj2 (existsb_false_iff _ _)); [done|].
    intros e (r & -> & Hin)%list_elem_of_fmap. rewrite list.Forall_forall in Hover. by apply Hover. }
  cbn [br_source br_destination]. by rewrite source_path_check_ok, destination_path_check_ok.
Qed.

(** Destinations that are pairwise disjoint, in any order. *)
Definition separated (ds : list pystr) : Prop :=
  NoDup ds /\ forall d e, d ∈ ds -> e ∈ ds -> d <> e -> Oci.overlaps d e = false.

Lemma separated_of_pairwise ds :
  (forall i j d e, ds !! i = Some d -> ds !! j = Some e -> i <> j -> Oci.disjoint_destinations d e) ->
  separated ds.
Proof.
  intros H. split.
  - apply NoDup_alt. intros i j d Hi Hj. destruct (decide (i = j)) as [|Hij]; [done|].
    specialize (H i j d d Hi Hj Hij). unfold Oci.disjoint_destinations, Oci.overlaps, Oci.at_or_below in H.
    str_prop. done.
  - intros d e [i Hi]%list_elem_of_lookup [j Hj]%list_elem_of_lookup Hne.
    apply (H i j); auto. intros ->. congruence.
Qed.

Lemma plan_entries_accepted acc items seed :
  Forall admitted_item items ->
  separated (map br_destination acc ++ map (fun i => br_destination (record_of seed i)) items) ->
  exists entries, map_res (Oci.plan_entry (if seed then "rw" else "ro")) items = Ok entries /\
    for_each record_step acc entries = Ok (acc ++ map (record_of seed) items).
Proof.
  revert acc. induction items as [|item items IH]; intros acc Hadm Hsep.
  - exists []. simpl. by rewrite app_nil_r.
  - apply Forall_cons_iff in Hadm as [Hi Hadm].
    destruct (record_step_entry acc item seed Hi) as (entry & He & Hst).
    { destruct Hsep as [Hnd Hdis]. apply list.NoDup_app in Hnd as (_ & Hd & _). simpl in *.
      apply list.Forall_forall. intros r Hr.
      assert (br_destination r ∈ map br_destination acc) by (by apply list_elem_of_fmap_2).
      apply Hdis; [set_solver|set_solver|]. intros Heq. eapply Hd; [done|]. rewrite <-Heq. left. }
    destruct (IH (acc ++ [record_of seed item]) Hadm) as (entries & Hes & Hfe).
    { rewrite map_app, <-app_assoc. exact Hsep. }
    exists (entry :: entries). cbn [map_res for_each map]. rewrite He, Hes, Hst. split; [done|].
    rewrite Hfe. by rewrite <-app_assoc.
Qed.

(** What [validate_mounts] guarantees of its items, in the order of the plan. *)
Lemma mounts_separated value rp ro seeds :
  Oci.validate_mounts value rp = Ok (ro, seeds) ->
  Forall admitted_item (ro ++ seeds) /\
  separated (map (fun i => br_destination (record_of false i)) (ro ++ seeds)) /\
  (length (ro ++ seeds) <= 8)%nat.
Proof.
  intros (ds & Hp & Hlen & Hadm & Hpair & Hro & Hseeds)%Oci.validate_mounts_safe_aux.
  rewrite <-map_app in Hp. apply Permutation_map_inv in Hp as Hp'. destruct Hp' as (l & Hl & Hperm).
  apply separated_of_pairwise in Hpair as [Hnd Hdis].
  assert (map (fun i => br_destination (record_of false i)) (ro ++ seeds) = l) as Heq.
  { clear -Hl. revert l Hl. induction (ro ++ seeds) as [|i items IH]; intros [|d l] Hl; simplify_list_eq; [done|].
    f_equal; [|by apply IH]. unfold record_of, Oci.destination_of in *. simpl. by rewrite H. }
  rewrite Heq. split; [|split].
  - apply list.Forall_forall. intros i Hi.
    assert (Oci.destination_of i ∈ map VStr l) as (d & Hd & Hin)%list_elem_of_fmap.
    { rewrite <-Hl. by apply list_elem_of_fmap_2. }
    exists d. split; [done|]. rewrite list.Forall_forall in Hadm. split; [apply Hadm; by rewrite Hperm|].
    rewrite list.Forall_forall in Hro, Hseeds.
    apply elem_of_app in Hi as [(_ & Hs & _)%Hro|(? & _ & Hs & _)%Hseeds]; done.
  - split; [by rewrite <-Hperm|]. intros d e Hd He. rewrite <-Hperm in Hd, He. by apply Hdis.
  - rewrite <-(length_map Oci.destination_of), Hl, length_map, <-(Permutation_length Hperm).
    unfold zlen in Hlen. lia.
Qed.

Lemma bind_projection_plan config :
  Oci.validate config = Ok tt ->
  exists ro seeds plan,
    Oci.mounts_of config = Ok (ro, seeds) /\ Oci.bind_projection config = Ok plan /\
    plan_checks plan = Ok (map (record_of false) ro ++ map (record_of true) seeds).
Proof.
  intros (c & rp & [ro seeds] & -> & _ & _ & _ & Hr & _ & Hm & _)%Oci.validate_inv.
  pose proof (Oci.mounts_of_validated c rp Hr) as Hmo. rewrite Hm in Hmo.
  destruct (mounts_separated _ _ _ _ Hm) as (Hadm & Hsep & Hlen).
  apply Forall_app in Hadm as [Hro Hseeds]. rewrite map_app in Hsep.
  destruct (plan_entries_accepted [] ro false) as (e1 & He1 & Hf1); auto.
  { destruct Hsep as [Hnd Hdis]. apply list.NoDup_app in Hnd as (? & _ & _). split; [done|].
    intros d e Hd He. apply Hdis; apply elem_of_app; auto. }
  destruct (plan_entries_accepted (map (record_of false) ro) seeds true) as (e2 & He2 & Hf2); auto.
  { rewrite map_map. exact Hsep. }
  exists ro, seeds, (VDict [(str "schema_version", VInt 1); (str "readonly_binds", VList (e1 ++ e2))]).
  split; [done|]. unfold Oci.bind_projection. rewrite Hmo. cbn [fst snd]. rewrite He1, He2. split; [done|].
  assert (length (e1 ++ e2) = length (ro ++ seeds)) as Hl.
  { apply map_res_ok in He1, He2. apply Forall2_length in He1, He2. rewrite !length_app. lia. }
  unfold plan_checks.
  assert (plan_records (VDict [(str "schema_version", VInt 1); (str "readonly_binds", VList (e1 ++ e2))])
          = Ok (e1 ++ e2)) as ->.
  { transitivity (raise_if (8 <? zlen (e1 ++ e2)) MaterializationError
                    "at most eight read-only bind inputs are supported" ;; Ok (e1 ++ e2)); [done|].
    unfold zlen. rewrite Hl. by destruct (Z.ltb_spec 8 (Z.of_nat (length (ro ++ seeds)))); [lia|]. }
  rewrite for_each_app, Hf1. exact Hf2.
Qed.

(** C6: for every accepted OCI configuration the validator's [bind_projection]
    returns a plan that passes every check the materializer makes before it
    touches the file system, and the materializer then works on exactly the
    admitted binds: first the read-only ones, then the private seeds, each with
    its own source and destination. *)
Theorem bind_projection_accepted config :
  Oci.validate config = Ok tt ->
  exists ro seeds plan,
    Oci.mounts_of config = Ok (ro, seeds) /\ Oci.bind_projection config = Ok plan /\
    plan_checks plan = Ok (map (record_of false) ro ++ map (record_of true) seeds).
Proof. apply bind_projection_plan. Qed.

Lemma bind_projection_accepted_witness :
  exists plan records, Oci.bind_projection Oci.example_config = Ok plan /\ plan_checks plan = Ok records.
Proof.
  destruct (bind_projection_accepted Oci.example_config) as (ro & seeds & plan & _ & Hp & Hc);
    [vm_compute; reflexivity|]. eauto.
Defined.

(** The host root written [//] is not recognized as the host root, neither by the
    validator nor by the materializer: a read-only bind of it is planned. *)
Example double_slash_host_root_accepted :
  Oci.validate_mounts (VList [Oci.example_bind "/data" "//" ["rbind"; "ro"]]) "rootfs"
    = Ok ([[(str "destination", VStr "/data"); (str "type", VStr "bind"); (str "source", VStr "//");
            (str "options", VList [VStr "rbind"; VStr "ro"])]], []) /\
  source_path_check "//" = Ok tt.
Proof. split; vm_compute; reflexivity. Qed.

End BindPlan.
