(* ===== verification/Rootfs.v ===== *)
(** * The root file system archive: builder and verifier

    [BuildRootfs] models the pure part of [scripts/build-runtime-rootfs.py]: the
    symlink policy, the canonical manifest, the newc writer and the admission checks
    of [main].  [VerifyRootfs] models [scripts/verify-runtime-rootfs.py]: the newc
    parser and the comparison of an archive with its manifest.  The gzip codec is a
    parameter.  The theorems state that what the builder writes the verifier
    accepts, and what an accepted archive is. *)
From Stdlib Require Import ZArith Lia.
From Stdlib Require Import Init.Byte.
From stdpp Require Import base list sets strings option.
From S2P Require Import Prelude PyStr PyVal Bytes Json JsonTrip.

Open Scope string_scope.
Open Scope list_scope.
Open Scope Z_scope.

(** [stat.S_IFMT] and the three kinds an archive may hold. *)
Definition S_IFMT (mode : Z) : Z := Z.land mode 0xF000.
Definition S_IFDIR : Z := 0x4000.
Definition S_IFREG : Z := 0x8000.
Definition S_IFLNK : Z := 0xA000.

(** The normalization policy both programs write out in full. *)
Definition normalization : dict :=
  [(str "archive", VStr (str "cpio-newc"));
   (str "mtime", VInt 0);
   (str "inode_assignment", VStr (str "lexical-path-with-hardlink-groups"));
   (str "xattrs", VStr (str "rejected-except-realized-overlay-opacity"));
   (str "overlay_opacity", VStr (str "materialized-view-normalized"));
   (str "sparse_extents", VStr (str "normalized-to-regular-bytes"));
   (str "device_nodes", VStr (str "rejected"))].

Module BuildRootfs.

Record Entry := mkEntry {
  e_path : pystr; e_mode : Z; e_uid : Z; e_gid : Z; e_size : Z; e_kind : pystr;
  e_digest : option pystr; e_target : option pystr; e_hardlink : option pystr }.

(** ** The symlink policy *)

Definition counted (part : pystr) : bool := negb (mem part (strs [""; "."])).

(** The loop over the parts of a relative target: [None] is the [return False]. *)
Fixpoint walk_depth (depth : Z) (target_parts : list pystr) : option Z :=
  match target_parts with
  | [] => Some depth
  | part :: t =>
      if mem part (strs [""; "."]) then walk_depth depth t
      else if part =s str ".." then
        if depth =? 0 then None else walk_depth (depth - 1) t
      else walk_depth (depth + 1) t
  end.

Definition _safe_target (path target : pystr) : bool :=
  if startswith target (str "/") then true
  else
    let depth := zlen (List.filter counted (split_on SLASH (dirname path))) in
    match walk_depth depth (split_on SLASH target) with Some _ => true | None => false end.

(** ** The manifest *)

Definition optional (key : string) (v : option pystr) : dict :=
  match v with Some s => [(str key, VStr s)] | None => [] end.

Definition manifest_entry (item : Entry) : pyval :=
  VDict ([(str "path", VStr (e_path item));
          (str "type", VStr (e_kind item));
          (str "mode", VInt (Z.land (e_mode item) 0xFFFF));
          (str "uid", VInt (e_uid item));
          (str "gid", VInt (e_gid item));
          (str "size", VInt (e_size item))]
         ++ optional "sha256" (e_digest item)
         ++ optional "target" (e_target item)
         ++ optional "hardlink" (e_hardlink item)).

Definition manifest_body (entries : list Entry) : pyval :=
  VDict [(str "schema_version", VInt 1);
         (str "normalization", VDict normalization);
         (str "entries", VList (map manifest_entry entries))].

Definition manifest (entries : list Entry) : bytes :=
  ascii_bytes (dumps no_floats compact (manifest_body entries) ++ [10]).

(** ** The newc writer *)

Definition _pad (count : Z) : bytes := repeat x00 (Z.to_nat ((- count) mod 4)).

Definition emit (name : pystr) (mode uid gid nlink ino : Z) (data : bytes) : res bytes :=
  let! raw := fsencode name in
  let encoded_name := raw ++ [x00] in
  let fields := [ino; mode; uid; gid; nlink; 0; zlen data; 0; 0; 0; 0; zlen encoded_name; 0] in
  Ok (bstr "070701" ++ flat_map (fun field => ascii_bytes (hex08 field)) fields
      ++ encoded_name ++ _pad (110 + zlen encoded_name) ++ data ++ _pad (zlen data)).

(** An empty link name is no hardlink: [if entry.hardlink]. *)
Definition link_of (e : Entry) : option pystr :=
  match e_hardlink e with Some [] => None | h => h end.

Definition count_link (counts : list (pystr * Z)) (e : Entry) : list (pystr * Z) :=
  match link_of e with
  | Some h => aset h (default 0 (alookup h counts) + 1) counts
  | None => counts
  end.
Definition link_counts (entries : list Entry) : list (pystr * Z) := foldl count_link [] entries.

Record writer := Writer {
  next_inode : Z; assigned : list (pystr * Z); emitted_link_data : list pystr; stream : bytes }.

Definition contents_t : Type := list (pystr * bytes).

Definition content_at (contents : contents_t) (path : pystr) : res bytes :=
  match alookup path contents with Some d => Ok d | None => raise KeyError "" end.

(** The inode, link count and data of one entry, and the writer's state after it. *)
Definition place (counts : list (pystr * Z)) (contents : contents_t) (w : writer) (e : Entry)
    : res (Z * Z * bytes * writer) :=
  match link_of e with
  | Some h =>
      let '(asg, nxt) := match alookup h (assigned w) with
                         | Some _ => (assigned w, next_inode w)
                         | None => (aset h (next_inode w) (assigned w), next_inode w + 1)
                         end in
      let ino := default 0 (alookup h asg) in
      let! nlink := match alookup h counts with Some n => Ok n | None => raise KeyError "" end in
      let! data := if mem h (emitted_link_data w) then Ok [] else content_at contents (e_path e) in
      Ok (ino, nlink, data, Writer nxt asg (h :: emitted_link_data w) (stream w))
  | None =>
      Ok (next_inode w, if e_kind e =s str "directory" then 2 else 1,
          default [] (alookup (e_path e) contents),
          Writer (next_inode w + 1) (assigned w) (emitted_link_data w) (stream w))
  end.

Definition write_entry (counts : list (pystr * Z)) (contents : contents_t) (w : writer) (e : Entry) : res writer :=
  let! p := place counts contents w e in
  let '(ino, nlink, data, w') := p in
  let! out := emit (e_path e) (e_mode e) (e_uid e) (e_gid e) nlink ino data in
  Ok (Writer (next_inode w') (assigned w') (emitted_link_data w') (stream w' ++ out)).

(** The first loop of the source fills [inode_by_link], which nothing reads. *)
Definition write_newc (entries : list Entry) (contents : contents_t) : res bytes :=
  let! w := for_each (write_entry (link_counts entries) contents) (Writer 1 [] [] []) entries in
  let! trailer := emit (str "TRAILER!!!") 0 0 0 1 (next_inode w) [] in
  Ok (stream w ++ trailer).

(** ** The admission checks of [main] *)

Record arguments := Arguments_ {
  manifest_only : bool; max_bytes : Z; max_inodes : Z; min_free_bytes : Z; min_free_inodes : Z }.
Record statvfs := Statvfs { f_bavail : Z; f_frsize : Z; f_favail : Z }.

Definition payload_bytes (entries : list Entry) : Z :=
  foldl Z.add 0 (map e_size (List.filter (fun e => e_kind e =s str "regular") entries)).

Definition worst_case_archive (entries : list Entry) : Z :=
  payload_bytes entries + zlen entries * 512 + 1024.

(** Everything [main] checks before it publishes the first file: the configured limits,
    then the capacity of the file system it publishes to. *)
Definition admit_limits (args : arguments) (entries : list Entry) : res unit :=
  raise_if (negb (max_bytes args =? 0) && (max_bytes args <? payload_bytes entries))
    RootFSError "payload bytes exceed limit" ;;
  raise_if (negb (max_inodes args =? 0) && (max_inodes args <? zlen entries))
    RootFSError "entry count exceeds limit" ;;
  raise_if ((min_free_inodes args <? 0) || (2 ^ 30 <? min_free_inodes args))
    RootFSError "free-inode reserve is outside the supported bounds".

Definition admit_capacity (args : arguments) (capacity : statvfs) (entries : list Entry) : res unit :=
  if manifest_only args then
    raise_if (f_favail capacity <? min_free_inodes args + 1) RootFSError "high-water refusal"
  else
    let available := f_bavail capacity * f_frsize capacity in
    let required_inodes := min_free_inodes args + 2 in
    raise_if ((available - worst_case_archive entries <? min_free_bytes args)
              || (f_favail capacity <? required_inodes))
      RootFSError "high-water refusal".

Definition admit_build (args : arguments) (capacity : statvfs) (entries : list Entry) : res unit :=
  admit_limits args entries ;; admit_capacity args capacity entries.

End BuildRootfs.

Module VerifyRootfs.

Definition strict_object (pairs : dict) : res dict :=
  strict_pairs VerificationError "duplicate manifest key" [] pairs.
Definition reject_constant (f : pyfloat) : res pyval :=
  raise VerificationError "invalid JSON numeric constant".

Definition align (value : Z) : Z := Z.land (value + 3) (Z.lnot 3).

Record newc := Newc {
  n_path : pystr; n_mode : Z; n_uid : Z; n_gid : Z; n_nlink : Z; n_mtime : Z; n_size : Z; n_ino : Z;
  n_data : bytes }.

(** The thirteen fields of a header. *)
Definition header_fields (data : bytes) (offset : Z) : res (list Z) :=
  map_res (fun index => int16 (pyslice (offset + 6 + index * 8) (offset + 14 + index * 8) data))
    (map Z.of_nat (seq 0 13)).

Definition field (fields : list Z) (i : nat) : Z := nth i fields 0.

(** One turn of the loop: [None] is the [break] at the trailer. *)
Definition parse_step (data : bytes) (offset : Z) : res (option (newc * Z)) :=
  raise_if ((zlen data <? offset + 110) || negb (pyslice offset (offset + 6) data =b bstr "070701"))
    VerificationError "invalid newc header" ;;
  let! fields := match header_fields data offset with
                 | Ok f => Ok f
                 | Err _ => raise VerificationError "invalid newc field"
                 end in
  let size := field fields 6 in
  let namesize := field fields 11 in
  raise_if (namesize <? 2) VerificationError "invalid newc name length" ;;
  let name_start := offset + 110 in
  let name_end := name_start + namesize in
  let! unterminated :=
    (if zlen data <? name_end then Ok true
     else let! b := pyindex (name_end - 1) data in Ok (negb (byte_eqb b x00))) in
  raise_if unterminated VerificationError "unterminated newc name" ;;
  let! name := fsdecode (pyslice name_start (name_end - 1) data) in
  let payload_start := align name_end in
  let payload_end := payload_start + size in
  raise_if (zlen data <? payload_end) VerificationError "truncated newc payload" ;;
  let payload := pyslice payload_start payload_end data in
  let offset' := align payload_end in
  if name =s str "TRAILER!!!" then
    raise_if (negb (size =? 0) || any_byte (pyslice offset' (zlen data) data))
      VerificationError "invalid data after newc trailer" ;;
    Ok None
  else
    raise_if (startswith name (str "/") || (name =s str "")
              || existsb (fun part => part =s str "..") (split_on SLASH name))
      VerificationError "unsafe newc path" ;;
    Ok (Some (Newc name (field fields 1) (field fields 2) (field fields 3) (field fields 4)
                (field fields 5) size (field fields 0) payload, offset')).

(** [while True], on fuel: see [parse_loop_fuel] and [negative_size_never_ends]. *)
Fixpoint parse_loop (fuel : nat) (data : bytes) (offset : Z) (entries : list newc) : res (list newc) :=
  match fuel with
  | O => raise RecursionError "fuel"
  | S fuel =>
      let! r := parse_step data offset in
      match r with
      | None => Ok entries
      | Some (e, offset') => parse_loop fuel data offset' (entries ++ [e])
      end
  end.

Definition parse_newc (data : bytes) : res (list newc) :=
  let! entries := parse_loop (S (length data)) data 0 [] in
  raise_if (negb (distinct (map n_path entries))) VerificationError "duplicate newc path" ;;
  Ok entries.

(** ** Comparing an archive with its manifest *)

(** [data_by_inode]: the first non-empty content of each inode. *)
Definition note_data (data_by_inode : list (Z * bytes)) (e : newc) : res (list (Z * bytes)) :=
  match n_data e with
  | [] => Ok data_by_inode
  | _ =>
      let d := asetdefault (n_ino e) (n_data e) data_by_inode in
      raise_if (negb (default [] (alookup (n_ino e) d) =b n_data e))
        VerificationError "one inode contains conflicting hardlink data" ;;
      Ok d
  end.

Definition note_group (groups : list (Z * list pystr)) (e : newc) : list (Z * list pystr) :=
  aset (n_ino e) (default [] (alookup (n_ino e) groups) ++ [n_path e]) groups.

Definition common_fields : list pystr := strs ["path"; "type"; "mode"; "uid"; "gid"; "size"].

Definition kind_fields (kind : pyval) : list pystr :=
  common_fields
  ++ (if kind == VStr (str "regular") then strs ["sha256"]
      else if kind == VStr (str "symlink") then strs ["target"] else [])
  ++ (if kind == VStr (str "regular") then strs ["hardlink"] else []).

Definition required_kind (kind : pyval) : res (option Z) :=
  if negb (hashable kind) then raise TypeError "unhashable type"
  else Ok (if kind == VStr (str "directory") then Some S_IFDIR
           else if kind == VStr (str "regular") then Some S_IFREG
           else if kind == VStr (str "symlink") then Some S_IFLNK
           else None).

Definition hardlinks_t : Type := list (pystr * (Z * list pystr)).

(** The body of the loop over the manifest and the archive together. *)
Definition check_entry (data_by_inode : list (Z * bytes)) (hardlinks : hardlinks_t) (p : dict * newc)
    : res hardlinks_t :=
  let '(wanted, observed) := p in
  let kind := get wanted (str "type") in
  raise_if (negb (keys_within wanted (kind_fields kind)) || negb (subset common_fields (keys wanted)))
    VerificationError "invalid manifest fields" ;;
  let mode_kind := S_IFMT (n_mode observed) in
  let! required := required_kind kind in
  raise_if (match required with None => true | Some k => negb (mode_kind =? k) end)
    VerificationError "type mismatch" ;;
  raise_if (negb (get wanted (str "mode") == VInt (n_mode observed))) VerificationError "mode mismatch" ;;
  raise_if (negb (get wanted (str "uid") == VInt (n_uid observed))) VerificationError "uid mismatch" ;;
  raise_if (negb (get wanted (str "gid") == VInt (n_gid observed))) VerificationError "gid mismatch" ;;
  raise_if (negb (n_mtime observed =? 0)) VerificationError "nonzero mtime" ;;
  let content := default (n_data observed) (alookup (n_ino observed) data_by_inode) in
  let regular := kind == VStr (str "regular") in
  let logical_size := if regular then zlen content else n_size observed in
  raise_if (negb (get wanted (str "size") == VInt logical_size)) VerificationError "size mismatch" ;;
  raise_if (regular && negb (get wanted (str "sha256") == VStr (sha256 content)))
    VerificationError "content digest mismatch" ;;
  let! bad_target :=
    (if kind == VStr (str "symlink") then
       let! target := fsdecode (n_data observed) in
       Ok (negb (get wanted (str "target") == VStr target))
     else Ok false) in
  raise_if bad_target VerificationError "symlink target mismatch" ;;
  let link := get wanted (str "hardlink") in
  if truthy link then
    match link with
    | VStr l =>
        let '(ino, paths) := default (n_ino observed, []) (alookup l hardlinks) in
        Ok (aset l (ino, if mem (n_path observed) paths then paths else paths ++ [n_path observed]) hardlinks)
    | _ => raise VerificationError "invalid hardlink identity"
    end
  else
    raise_if (negb (n_nlink observed =? (if kind == VStr (str "directory") then 2 else 1)))
      VerificationError "unexpected link count" ;;
    Ok hardlinks.

(** The first entry with an inode: [actual\[inodes.index(inode)\]]. *)
Definition first_with (ino : Z) (actual : list newc) : option newc :=
  List.find (fun e => n_ino e =? ino) actual.

Definition check_group (groups : list (Z * list pystr)) (actual : list newc) (u : unit)
    (g : pystr * (Z * list pystr)) : res unit :=
  let '(_, (inode, paths)) := g in
  match alookup inode groups, first_with inode actual with
  | Some members, Some first =>
      raise_if (negb (set_eq members paths) || negb (zlen paths =? n_nlink first))
        VerificationError "hardlink group mismatch"
  | _, _ => raise KeyError ""
  end.

Record summary := Summary { archive_sha256 : pystr; manifest_sha256 : pystr; entry_count : Z; uncompressed_bytes : Z }.

(** The manifest's objects, if every element is one. *)
Fixpoint dicts_of (l : list pyval) : option (list dict) :=
  match l with
  | [] => Some []
  | VDict d :: t => match dicts_of t with Some r => Some (d :: r) | None => None end
  | _ => None
  end.

Definition as_verification {A} (r : res A) (caught : exn_class -> bool) (m : string) : res A :=
  match r with
  | Ok a => Ok a
  | Err e => if caught (exn_cls e) then raise VerificationError m else Err e
  end.

Definition header_deterministic (encoded : bytes) : bool :=
  (10 <=? zlen encoded) && (slice 0 2 encoded =b [x1f; x8b]) && (slice 4 8 encoded =b [x00; x00; x00; x00])
  && negb (Z.testbit (u8 3 encoded) 3).

(** The manifest's entries, after the checks on the object around them. *)
Definition manifest_entries (manifest_bytes : bytes) : res (list pyval) :=
  let! manifest := as_verification (loads_bytes strict_object reject_constant manifest_bytes)
    (fun c => bool_decide (c ∈ [OSError; JSONDecodeError; UnicodeError])) "invalid manifest" in
  match manifest with
  | VDict d =>
      raise_if (negb (keys_are d (strs ["schema_version"; "normalization"; "entries"])))
        VerificationError "manifest fields differ from schema" ;;
      raise_if (negb (get d (str "schema_version") == VInt 1) || is_bool (get d (str "schema_version"))
                || negb (is_list (get d (str "entries"))))
        VerificationError "unsupported manifest schema" ;;
      raise_if (negb (get d (str "normalization") == VDict normalization))
        VerificationError "manifest normalization policy differs from builder contract" ;;
      match get d (str "entries") with VList l => Ok l | _ => Ok [] end
  | _ => raise VerificationError "manifest fields differ from schema"
  end.

(** The part of [verify] after both inputs are decoded. *)
Definition compare_entries (actual : list newc) (expected : list pyval) : res unit :=
  match dicts_of expected with
  | None => raise VerificationError "manifest entries must be objects"
  | Some wanted =>
      raise_if (negb (VList (map (fun d => get d (str "path")) wanted) == VList (map VStr (map n_path actual))))
        VerificationError "archive path order/content differs from manifest" ;;
      let! data_by_inode := for_each note_data [] actual in
      let groups := foldl note_group [] actual in
      let! hardlinks := for_each (check_entry data_by_inode) [] (combine wanted actual) in
      for_each (check_group groups actual) tt hardlinks
  end.

Section codec.
(** [gzip.decompress] *)
Variable decompress : bytes -> res bytes.

Definition verify (encoded manifest_bytes : bytes) : res summary :=
  raise_if (negb (header_deterministic encoded)) VerificationError "gzip header is not deterministic" ;;
  let! unpacked := as_verification (decompress encoded)
    (fun c => bool_decide (c ∈ [OSError; EOFError])) "invalid gzip stream" in
  let! actual := parse_newc unpacked in
  let! expected := manifest_entries manifest_bytes in
  compare_entries actual expected ;;
  Ok (Summary (sha256 encoded) (sha256 manifest_bytes) (zlen actual) (zlen unpacked)).

(** [main]: the exit status, or the exception that escapes it. *)
Definition main (encoded manifest_bytes : bytes) : res Z :=
  match verify encoded manifest_bytes with
  | Ok _ => Ok 0
  | Err e => if bool_decide (exn_cls e ∈ [OSError; VerificationError]) then Ok 1 else Err e
  end.
End codec.

End VerifyRootfs.
