(* ===== verification/RootfsTrip.v ===== *)
(** * What the builder writes, the verifier accepts

    The newc records of [write_newc] are parsed back by [parse_newc], the manifest
    is read back by the JSON decoder, and the comparison of the two succeeds:
    [build_then_verify].  The hypotheses on the entries ([tree_ok]) are what a scan
    of a directory produces. *)
From Stdlib Require Import ZArith Lia.
From Stdlib Require Import Init.Byte.
From stdpp Require Import base list sets strings option.
From S2P Require Import Prelude PyStr PyVal Bytes Json JsonTrip Rootfs.

Open Scope string_scope.
Open Scope list_scope.
Open Scope Z_scope.

Module RootfsTrip.
Import BuildRootfs VerifyRootfs.

(** ** Alignment and padding *)

Lemma align_pad v : align v = v + (- v) mod 4.
Proof.
  unfold align. change (Z.lnot 3) with (Z.lnot (Z.ones 2)). rewrite <-Z.ldiff_land, Z.ldiff_ones_r by lia.
  rewrite Z.shiftr_div_pow2, Z.shiftl_mul_pow2 by lia. change (2 ^ 2) with 4.
  Z.to_euclidean_division_equations. lia.
Qed.

Lemma pad_length n : zlen (_pad n) = (- n) mod 4.
Proof. unfold _pad, zlen. rewrite repeat_length. apply Z2Nat.id. apply Z.mod_pos_bound. lia. Qed.

Lemma pad_shift off v : off mod 4 = 0 -> (- (off + v)) mod 4 = (- v) mod 4.
Proof. intros H. Z.to_euclidean_division_equations. lia. Qed.

(** ** Slices of a concatenation *)

Lemma pyslice_middle {A} i j (d a b c : list A) :
  d = a ++ b ++ c -> zlen a = i -> zlen b = j - i -> pyslice i j d = b.
Proof.
  intros -> Ha Hb. pose proof (zlen_nonneg a). pose proof (zlen_nonneg b).
  rewrite pyslice_nonneg by lia. by apply slice_app.
Qed.

(** *** Header fields *)

Lemma fields_read a k fields data pre post :
  Forall (fun f => 0 <= f < 2 ^ 32) fields ->
  data = pre ++ flat_map (fun f => ascii_bytes (hex08 f)) fields ++ post ->
  zlen pre = a + Z.of_nat k * 8 ->
  map_res (fun index => int16 (pyslice (a + index * 8) (a + 8 + index * 8) data))
    (map Z.of_nat (seq k (length fields))) = Ok fields.
Proof.
  intros Hf. revert k pre. induction Hf as [|f fields Hf _ IH]; intros k pre Hd Hp; [done|].
  destruct (hex08_spec f Hf) as [Hl Hr].
  assert (zlen (ascii_bytes (hex08 f)) = 8) as Hl8 by (unfold zlen, ascii_bytes; rewrite length_map; lia).
  cbn [length seq map map_res flat_map] in *.
  rewrite (pyslice_middle _ _ data pre (ascii_bytes (hex08 f)) (flat_map (fun f => ascii_bytes (hex08 f)) fields ++ post)).
  - rewrite Hr. rewrite (IH (S k) (pre ++ ascii_bytes (hex08 f))); [done| |].
    + by rewrite Hd, <-!app_assoc.
    + rewrite zlen_app, Hp, Hl8. lia.
  - by rewrite Hd, <-!app_assoc.
  - lia.
  - lia.
Qed.

(** ** One record *)

Definition u32_ok (z : Z) : Prop := 0 <= z < 2 ^ 32.

(** A name the operating system gave: [raw] is what [fsencode] makes of it. *)
Definition os_name (name : pystr) (raw : bytes) : Prop :=
  fsdecode raw = Ok name /\ raw <> [] /\ u32_ok (zlen raw + 1).

Lemma os_name_encode name raw : fsdecode raw = Ok name -> fsencode name = Ok raw.
Proof. intros H. pose proof (fsencode_fsdecode raw) as Hr. by rewrite H in Hr. Qed.

Definition record_bytes (name : pystr) (raw : bytes) (mode uid gid nlink ino : Z) (data : bytes) : bytes :=
  bstr "070701"
  ++ flat_map (fun f => ascii_bytes (hex08 f))
       [ino; mode; uid; gid; nlink; 0; zlen data; 0; 0; 0; 0; zlen raw + 1; 0]
  ++ (raw ++ [x00]) ++ _pad (110 + (zlen raw + 1)) ++ data ++ _pad (zlen data).

Lemma emit_bytes name raw mode uid gid nlink ino data : fsencode name = Ok raw ->
  emit name mode uid gid nlink ino data = Ok (record_bytes name raw mode uid gid nlink ino data).
Proof. intros H. unfold emit, record_bytes. rewrite H, zlen_app. done. Qed.

Definition safe_name (name : pystr) : bool :=
  negb (startswith name (str "/") || (name =s str "")
        || existsb (fun part => part =s str "..") (split_on SLASH name)).

Section one_record.
Context (name : pystr) (raw : bytes) (mode uid gid nlink ino : Z) (data : bytes).
Context (Hname : os_name name raw).
Context (Hmode : u32_ok mode) (Huid : u32_ok uid) (Hgid : u32_ok gid) (Hnlink : u32_ok nlink)
        (Hino : u32_ok ino) (Hdata : u32_ok (zlen data)).

Abbreviation out := (record_bytes name raw mode uid gid nlink ino data).

Lemma header_length l : length l = 13%nat -> Forall u32_ok l ->
  zlen (flat_map (fun f => ascii_bytes (hex08 f)) l) = 104.
Proof.
  intros Hl Hf. assert (zlen (flat_map (fun f => ascii_bytes (hex08 f)) l) = 8 * Z.of_nat (length l)) as ->; [|lia].
  clear Hl. induction Hf as [|f l Hx _ IH]; [done|]. cbn [flat_map length]. rewrite zlen_app, IH.
  destruct (hex08_spec f Hx) as [H8 _]. unfold zlen at 1, ascii_bytes. rewrite length_map. lia.
Qed.

Lemma fields_ok : Forall u32_ok [ino; mode; uid; gid; nlink; 0; zlen data; 0; 0; 0; 0; zlen raw + 1; 0].
Proof.
  destruct Hname as (_ & _ & Hr). repeat (constructor; [done|]). constructor.
Qed.

Definition after (off : Z) : Z := off + zlen out.

Lemma out_length : zlen out = 110 + (zlen raw + 1) + (- (110 + (zlen raw + 1))) mod 4 + zlen data + (- zlen data) mod 4.
Proof.
  unfold record_bytes. rewrite !zlen_app, header_length by (done || apply fields_ok).
  rewrite !pad_length. change (zlen (bstr "070701")) with 6. change (zlen [x00]) with 1. lia.
Qed.

Lemma out_aligned : zlen out mod 4 = 0.
Proof. rewrite out_length. Z.to_euclidean_division_equations. lia. Qed.

(** Parsing a record at an aligned offset, the trailer included. *)
Lemma parse_step_record pre post : zlen pre mod 4 = 0 ->
  parse_step (pre ++ out ++ post) (zlen pre) =
  if name =s str "TRAILER!!!" then
    raise_if (negb (zlen data =? 0) || any_byte post) VerificationError "invalid data after newc trailer" ;; Ok None
  else
    raise_if (negb (safe_name name)) VerificationError "unsafe newc path" ;;
    Ok (Some (Newc name mode uid gid nlink 0 (zlen data) ino data, after (zlen pre))).
Proof.
  intros Ha. pose proof out_length as Hol. pose proof (zlen_nonneg post) as Hpo. pose proof (zlen_nonneg pre) as Hpp.
  pose proof (zlen_nonneg data) as Hdd. pose proof (zlen_nonneg raw) as Hrr.
  set (D := pre ++ out ++ post). set (off := zlen pre) in *.
  assert (zlen D = off + zlen out + zlen post) as HD by (unfold D; rewrite !zlen_app; lia).
  pose proof (Z.mod_pos_bound (- (110 + (zlen raw + 1))) 4 ltac:(lia)) as Hp1.
  pose proof (Z.mod_pos_bound (- zlen data) 4 ltac:(lia)) as Hp2.
  assert (zlen raw <> 0) as Hr0.
  { destruct Hname as (_ & Hr & _). destruct raw; [done|]. unfold zlen. simpl. lia. }
  set (hdr := flat_map (fun f => ascii_bytes (hex08 f)) [ino; mode; uid; gid; nlink; 0; zlen data; 0; 0; 0; 0; zlen raw + 1; 0]).
  assert (zlen hdr = 104) as Hhdr by (apply header_length; [done|apply fields_ok]).
  assert (D = pre ++ bstr "070701" ++ hdr ++ raw ++ [x00] ++ _pad (110 + (zlen raw + 1)) ++ data ++ _pad (zlen data) ++ post)
    as HDe by (unfold D, record_bytes; by rewrite <-!app_assoc).
  unfold parse_step. rewrite (proj2 (Z.ltb_ge (zlen D) (off + 110))) by lia.
  rewrite (pyslice_middle off (off + 6) D pre (bstr "070701") _ HDe eq_refl)
    by (change (zlen (bstr "070701")) with 6; lia).
  rewrite (proj2 (bytes_eqb_eq _ _)) by done. cbn [orb negb raise_if].
  assert (header_fields D off = Ok [ino; mode; uid; gid; nlink; 0; zlen data; 0; 0; 0; 0; zlen raw + 1; 0]) as ->.
  { unfold header_fields.
    rewrite <-(fields_read (off + 6) 0 _ D (pre ++ bstr "070701") (raw ++ [x00] ++ _pad (110 + (zlen raw + 1)) ++ data ++ _pad (zlen data) ++ post) fields_ok).
    - apply f_equal2; [|done]. by rewrite <-!Z.add_assoc.
    - rewrite HDe. unfold hdr. by rewrite <-!app_assoc.
    - rewrite zlen_app. change (zlen (bstr "070701")) with 6. lia. }
  cbn [field nth]. rewrite (proj2 (Z.ltb_ge (zlen raw + 1) 2)) by lia. cbn [raise_if].
  rewrite (proj2 (Z.ltb_ge (zlen D) (off + 110 + (zlen raw + 1)))) by lia.
  set (P := pre ++ bstr "070701" ++ hdr).
  assert (zlen P = off + 110) as HP by (unfold P; rewrite !zlen_app, Hhdr; change (zlen (bstr "070701")) with 6; lia).
  assert (pyindex (off + 110 + (zlen raw + 1) - 1) D = Ok x00) as ->.
  { unfold pyindex. rewrite (proj2 (Z.ltb_ge (off + 110 + (zlen raw + 1) - 1) 0)) by lia.
    rewrite (proj2 (Z.ltb_ge _ 0)) by lia.
    replace (Z.to_nat _) with (length (P ++ raw)) by (rewrite length_app; unfold zlen in *; lia).
    assert (D = (P ++ raw) ++ x00 :: (_pad (110 + (zlen raw + 1)) ++ data ++ _pad (zlen data) ++ post)) as ->.
    { rewrite HDe. unfold P. by rewrite <-!app_assoc. }
    by rewrite nth_error_app2, Nat.sub_diag by lia. }
  cbn [byte_eqb]. change (negb (byte_eqb x00 x00)) with false. cbn [raise_if].
  rewrite (pyslice_middle (off + 110) _ D P raw ([x00] ++ _pad (110 + (zlen raw + 1)) ++ data ++ _pad (zlen data) ++ post)); [| |lia|lia].
  2:{ rewrite HDe. unfold P. by rewrite <-!app_assoc. }
  destruct Hname as (-> & _ & _).
  rewrite (align_pad (off + 110 + (zlen raw + 1))).
  replace (off + 110 + (zlen raw + 1)) with (off + (110 + (zlen raw + 1))) by lia.
  rewrite (pad_shift off (110 + (zlen raw + 1)) Ha).
  set (start := off + (110 + (zlen raw + 1)) + (- (110 + (zlen raw + 1))) mod 4).
  rewrite (proj2 (Z.ltb_ge (zlen D) (start + zlen data))) by lia. cbn [raise_if].
  assert (start mod 4 = 0) as Hsm by (unfold start; Z.to_euclidean_division_equations; lia).
  rewrite (align_pad (start + zlen data)), (pad_shift start (zlen data) Hsm).
  assert (start + zlen data + (- zlen data) mod 4 = after off) as -> by (unfold after, start; lia).
  rewrite (pyslice_middle start _ D (P ++ raw ++ [x00] ++ _pad (110 + (zlen raw + 1))) data (_pad (zlen data) ++ post)); [| | |lia].
  2:{ rewrite HDe. unfold P. by rewrite <-!app_assoc. }
  2:{ rewrite !zlen_app, pad_length, HP. change (zlen [x00]) with 1. unfold start. lia. }
  rewrite (pyslice_middle (after off) (zlen D) D (pre ++ out) post []).
  - unfold safe_name. by rewrite negb_involutive.
  - unfold D. by rewrite app_nil_r, app_assoc.
  - rewrite zlen_app. done.
  - unfold after. lia.
Qed.
End one_record.

(** ** The records of a list of entries *)

(** Entries with the same key share an inode. *)
Definition key (e : Entry) : pystr + pystr :=
  match link_of e with Some h => inl h | None => inr (e_path e) end.

Definition data_of (contents : contents_t) (e : Entry) : bytes := default [] (alookup (e_path e) contents).

Definition nlink_of (counts : list (pystr * Z)) (e : Entry) : Z :=
  match link_of e with
  | Some h => default 0 (alookup h counts)
  | None => if e_kind e =s str "directory" then 2 else 1
  end.

Section records.
Context (counts : list (pystr * Z)) (contents : contents_t).

Definition record (e : Entry) (ino : Z) (data : bytes) : newc :=
  Newc (e_path e) (e_mode e) (e_uid e) (e_gid e) (nlink_of counts e) 0 (zlen data) ino data.

(** The inodes given so far, and the next one. *)
Fixpoint records (given : list ((pystr + pystr) * Z)) (next : Z) (entries : list Entry) : list newc :=
  match entries with
  | [] => []
  | e :: t =>
      match alookup (key e) given with
      | Some ino => record e ino [] :: records given next t
      | None => record e next (data_of contents e) :: records (given ++ [(key e, next)]) (next + 1) t
      end
  end.

Fixpoint final_given (given : list ((pystr + pystr) * Z)) (next : Z) (entries : list Entry) : list ((pystr + pystr) * Z) :=
  match entries with
  | [] => given
  | e :: t =>
      match alookup (key e) given with
      | Some _ => final_given given next t
      | None => final_given (given ++ [(key e, next)]) (next + 1) t
      end
  end.

(** The writer's maps agree with the inodes given. *)
Record agrees (w : writer) (given : list ((pystr + pystr) * Z)) : Prop := {
  agrees_assigned : forall h, alookup h (assigned w) = alookup (inl h) given;
  agrees_emitted : forall h, mem h (emitted_link_data w) = true <-> alookup (inl h) given <> None }.

(** What the writer needs of an entry to place it. *)
Definition placeable (e : Entry) : Prop :=
  match link_of e with
  | Some h => alookup h counts <> None /\ alookup (e_path e) contents <> None
  | None => True
  end.

Lemma place_record w given e : agrees w given -> placeable e ->
  (forall p, key e = inr p -> alookup (inr p) given = None) ->
  exists w', agrees w' (match alookup (key e) given with Some _ => given | None => given ++ [(key e, next_inode w)] end) /\
    next_inode w' = (match alookup (key e) given with Some _ => next_inode w | None => next_inode w + 1 end) /\
    stream w' = stream w /\
    place counts contents w e = Ok
      (match alookup (key e) given with
       | Some ino => (ino, nlink_of counts e, [], w')
       | None => (next_inode w, nlink_of counts e, data_of contents e, w')
       end).
Proof.
  intros [Ha He] Hp Hu. unfold place, key, nlink_of, placeable, data_of in *.
  destruct (link_of e) as [h|] eqn:Hl.
  - destruct Hp as [Hc Hd]. specialize (Ha h) as Hah. specialize (He h) as Heh.
    destruct (alookup h counts) as [n|]; [|done]. unfold content_at.
    destruct (alookup (e_path e) contents) as [d|]; [|done]. rewrite Hah.
    destruct (alookup (inl h) given) as [ino|] eqn:Hg.
    + eexists. split; [|split; [|split; [|rewrite Hah, (proj2 Heh) by done; done]]]; [|done|done].
      constructor; [done|]. intros h'. simpl. rewrite mem_elem, elem_of_cons, <-mem_elem, He.
      split; [intros [->|?]; congruence|auto].
    + assert (mem h (emitted_link_data w) = false) as Hm.
      { apply not_true_iff_false. rewrite Heh. by intros []. }
      eexists. split; [|split; [|split; [|rewrite Hm, alookup_aset, bool_decide_true by done; done]]]; [|done|done].
      constructor; simpl; intros h'.
      * rewrite alookup_aset, alookup_app, Ha. simpl.
        destruct (decide (h' = h)) as [->|Hne]; [by rewrite Hg, !bool_decide_true|].
        rewrite !bool_decide_false by congruence. by destruct (alookup (inl h') given).
      * rewrite mem_elem, elem_of_cons, <-mem_elem, He, alookup_app. simpl.
        destruct (alookup (inl h') given); [naive_solver|]. case_bool_decide; naive_solver.
  - rewrite (Hu (e_path e) eq_refl). eexists. split; [|split; [|split; [|done]]]; [|done|done].
    constructor; simpl; intros h'; rewrite alookup_app; simpl; [rewrite Ha|rewrite He];
      destruct (alookup (inl h') given); naive_solver.
Qed.

Record writable (e : Entry) : Prop := {
  w_name : exists raw, os_name (e_path e) raw;
  w_safe : safe_name (e_path e) = true;
  w_trailer : e_path e <> str "TRAILER!!!";
  w_mode : u32_ok (e_mode e); w_uid : u32_ok (e_uid e); w_gid : u32_ok (e_gid e);
  w_nlink : u32_ok (nlink_of counts e);
  w_data : u32_ok (zlen (data_of contents e));
  w_place : placeable e }.

(** One entry is written as one record, which parses back to it. *)
Lemma write_entry_record w given e : agrees w given -> writable e -> u32_ok (next_inode w) ->
  Forall (fun kz => u32_ok kz.2) given ->
  (forall p, key e = inr p -> alookup (inr p) given = None) ->
  exists w' out r, write_entry counts contents w e = Ok w' /\
    agrees w' (match alookup (key e) given with Some _ => given | None => given ++ [(key e, next_inode w)] end) /\
    next_inode w' = (match alookup (key e) given with Some _ => next_inode w | None => next_inode w + 1 end) /\
    r = (match alookup (key e) given with
         | Some ino => record e ino [] | None => record e (next_inode w) (data_of contents e) end) /\
    stream w' = stream w ++ out /\ zlen out mod 4 = 0 /\ out <> [] /\
    (forall raw, fsencode (e_path e) = Ok raw -> zlen out <= 117 + zlen raw + zlen (data_of contents e)) /\
    (forall post, zlen (stream w) mod 4 = 0 ->
      parse_step (stream w' ++ post) (zlen (stream w)) = Ok (Some (r, zlen (stream w')))).
Proof.
  intros Ha [[raw Hraw] Hs Ht Hm Hu Hg Hn Hd Hp] Hino Hgiven Hfresh.
  destruct (place_record w given e Ha Hp Hfresh) as (w1 & Ha1 & Hn1 & Hs1 & Hpl).
  set (ino := match alookup (key e) given with Some i => i | None => next_inode w end).
  set (data := match alookup (key e) given with Some _ => [] | None => data_of contents e end).
  assert (u32_ok ino) as Hino'.
  { unfold ino. destruct (alookup (key e) given) as [z|] eqn:E; [|done].
    apply alookup_elem in E. rewrite list.Forall_forall in Hgiven. by apply (Hgiven (key e, z)). }
  assert (u32_ok (zlen data)) as Hdata by (unfold data; destruct (alookup (key e) given); [done|done]).
  set (out := record_bytes (e_path e) raw (e_mode e) (e_uid e) (e_gid e) (nlink_of counts e) ino data).
  exists (Writer (next_inode w1) (assigned w1) (emitted_link_data w1) (stream w1 ++ out)), out, (record e ino data).
  split_and!.
  - unfold write_entry. rewrite Hpl. unfold ino, data in *.
    destruct (alookup (key e) given); rewrite (emit_bytes _ raw) by (by apply os_name_encode, Hraw); done.
  - destruct Ha1 as [H1 H2]. by constructor.
  - done.
  - unfold ino, data. by destruct (alookup (key e) given).
  - simpl. by rewrite Hs1.
  - by apply out_aligned.
  - by destruct (record_bytes (e_path e) raw (e_mode e) (e_uid e) (e_gid e) (nlink_of counts e) ino data) eqn:E.
  - intros raw' Hraw'. rewrite (os_name_encode _ raw) in Hraw' by apply Hraw. injection Hraw' as <-.
    unfold out. rewrite out_length by done.
    assert (zlen data <= zlen (data_of contents e)).
    { unfold data. destruct (alookup (key e) given); [apply zlen_nonneg|lia]. }
    pose proof (Z.mod_pos_bound (- (110 + (zlen raw + 1))) 4 ltac:(lia)).
    pose proof (Z.mod_pos_bound (- zlen data) 4 ltac:(lia)). lia.
  - intros post Hal. simpl. rewrite Hs1, <-app_assoc. unfold out. rewrite parse_step_record by done.
    rewrite (proj2 (str_eqb_neq _ _)) by done. rewrite Hs. cbn [negb raise_if].
    unfold after. by rewrite zlen_app.
Qed.

(** An upper bound of a record's length, for entries whose size bound is [cost]. *)
Definition within (cost : Entry -> Z) (e : Entry) : Prop :=
  forall raw, fsencode (e_path e) = Ok raw -> 117 + zlen raw + zlen (data_of contents e) <= cost e.

Lemma write_entries w given entries :
  agrees w given -> Forall writable entries -> 0 <= next_inode w -> next_inode w + zlen entries < 2 ^ 32 ->
  Forall (fun kz => u32_ok kz.2) given ->
  NoDup (map e_path entries) -> Forall (fun e => alookup (inr (e_path e)) given = None) entries ->
  zlen (stream w) mod 4 = 0 ->
  exists w' out, for_each (write_entry counts contents) w entries = Ok w' /\
    next_inode w <= next_inode w' <= next_inode w + zlen entries /\
    stream w' = stream w ++ out /\ zlen (stream w') mod 4 = 0 /\ (length entries <= length out)%nat /\
    (forall cost, Forall (within cost) entries -> zlen out <= foldr Z.add 0 (map cost entries)) /\
    (forall post fuel acc,
      parse_loop (length entries + fuel) (stream w' ++ post) (zlen (stream w)) acc =
      parse_loop fuel (stream w' ++ post) (zlen (stream w')) (acc ++ records given (next_inode w) entries)).
Proof.
  revert w given. induction entries as [|e entries IH]; intros w given Ha Hw H0 Hn Hgiven Hnd Hfr Hal.
  { exists w, []. split_and!; try done; try lia; [unfold zlen; simpl; lia|by rewrite app_nil_r|].
    intros. simpl. by rewrite app_nil_r. }
  apply Forall_cons_iff in Hw as [He Hw]. apply Forall_cons_iff in Hfr as [Hfe Hfr].
  simpl in Hnd. apply list.NoDup_cons in Hnd as [Hne Hnd].
  assert (zlen (e :: entries) = zlen entries + 1) as Hz by (unfold zlen; simpl; lia).
  pose proof (zlen_nonneg entries). rewrite Hz in Hn |- *.
  destruct (write_entry_record w given e Ha He ltac:(unfold u32_ok; lia) Hgiven)
    as (w1 & out1 & r & Hwe & Ha1 & Hn1 & Hr & Hs1 & Ho1 & Hne1 & Hb1 & Hp1).
  { intros p Hk. unfold key in Hk. destruct (link_of e); [done|]. by simplify_eq. }
  set (given1 := match alookup (key e) given with Some _ => given | None => given ++ [(key e, next_inode w)] end) in *.
  assert (zlen (stream w1) mod 4 = 0) as Hal1.
  { rewrite Hs1, zlen_app. Z.to_euclidean_division_equations. lia. }
  destruct (IH w1 given1 Ha1 Hw) as (w2 & out2 & Hrun & Hn2 & Hs2 & Hal2 & Hl2 & Hb2 & Hp2); try done.
  - rewrite Hn1. case_match; lia.
  - rewrite Hn1. case_match; lia.
  - unfold given1. case_match; [done|]. apply Forall_app_2; [done|].
    constructor; [unfold u32_ok; simpl; lia|constructor].
  - rewrite list.Forall_forall in Hfr |- *. intros e' He'. unfold given1.
    case_match; [by apply Hfr|]. rewrite alookup_app, Hfr by done. simpl.
    rewrite bool_decide_false; [done|]. unfold key. destruct (link_of e); [done|].
    intros [= Heq]. apply Hne. apply list_elem_of_fmap. by exists e'.
  - exists w2, (out1 ++ out2). split_and!; try done.
    + simpl. by rewrite Hwe.
    + rewrite Hn1 in Hn2. case_match; lia.
    + rewrite Hn1 in Hn2. case_match; lia.
    + by rewrite Hs2, Hs1, app_assoc.
    + rewrite length_app. destruct out1; [done|]. simpl. lia.
    + intros cost Hc. apply Forall_cons_iff in Hc as [Hce Hc]. cbn [map foldr]. rewrite zlen_app.
      specialize (Hb2 cost Hc). destruct (w_name e He) as [raw [Hraw _]]. apply os_name_encode in Hraw.
      specialize (Hb1 raw Hraw). specialize (Hce raw Hraw). lia.
    + intros post fuel acc. simpl. rewrite Hs2 at 1. rewrite <-app_assoc, Hp1 by done.
      rewrite Hp2. f_equal. rewrite <-app_assoc. f_equal. rewrite Hr, Hn1.
      unfold given1. by destruct (alookup (key e) given).
Qed.

Lemma records_paths given next entries : map n_path (records given next entries) = map e_path entries.
Proof.
  revert given next; induction entries as [|e t IH]; intros given next; simpl; [done|].
  case_match; simpl; by rewrite IH.
Qed.

Lemma records_length given next entries : length (records given next entries) = length entries.
Proof. rewrite <-(length_map n_path), records_paths. apply length_map. Qed.
End records.

(** The archive of a list of entries, and what the parser reads from it. *)
Lemma write_parse entries contents :
  Forall (writable (link_counts entries) contents) entries -> zlen entries + 1 < 2 ^ 32 ->
  NoDup (map e_path entries) ->
  exists archive, write_newc entries contents = Ok archive /\
    parse_newc archive = Ok (records (link_counts entries) contents [] 1 entries) /\
    (forall cost, Forall (within contents cost) entries -> zlen archive <= foldr Z.add 0 (map cost entries) + 124).
Proof.
  intros Hw Hlen Hnd. set (w0 := Writer 1 [] [] []). set (counts := link_counts entries) in *.
  destruct (write_entries counts contents w0 [] entries) as (w & out & Hrun & Hn & Hs & Hal & Hl & Hb & Hp); try done.
  - unfold w0. cbn [next_inode]. lia.
  - by apply list.Forall_forall.
  - assert (os_name (str "TRAILER!!!") (bstr "TRAILER!!!")) as Ht by done.
    assert (u32_ok (next_inode w)) as Hnw by (unfold u32_ok; simpl in Hn; lia).
    assert (u32_ok 0 /\ u32_ok 1 /\ u32_ok (zlen (@nil byte))) as (Hu0 & Hu1 & Hul) by done.
    set (trailer := record_bytes (str "TRAILER!!!") (bstr "TRAILER!!!") 0 0 0 1 (next_inode w) []).
    exists (stream w ++ trailer). split_and!.
    + unfold write_newc. fold counts w0. rewrite Hrun.
      rewrite (emit_bytes _ (bstr "TRAILER!!!")) by by apply os_name_encode. done.
    + unfold parse_newc.
      replace (S (length (stream w ++ trailer))) with
        (length entries + S (length (stream w ++ trailer) - length entries))%nat
        by (rewrite Hs, !length_app; simpl; lia).
      change 0 with (zlen (stream w0)) at 1. rewrite Hp. cbn [parse_loop].
      pose proof (parse_step_record _ _ 0 0 0 1 (next_inode w) [] Ht Hu0 Hu0 Hu0 Hu1 Hnw Hul (stream w) [] Hal) as Hstep.
      rewrite app_nil_r in Hstep. fold trailer in Hstep. rewrite Hstep.
      rewrite (proj2 (str_eqb_eq _ _)) by done.
      change (negb (zlen (@nil byte) =? 0) || any_byte []) with false. cbn [raise_if app].
      rewrite (proj2 (distinct_NoDup _)); [done|]. by rewrite records_paths.
    + intros cost Hc. rewrite zlen_app, Hs. simpl app. specialize (Hb cost Hc).
      assert (zlen trailer = 124) by (unfold trailer; rewrite out_length by done; done). lia.
Qed.

(** ** Inodes and contents of the records *)

Lemma final_given_extends given next entries k z :
  alookup k given = Some z -> alookup k (final_given given next entries) = Some z.
Proof.
  revert given next; induction entries as [|e t IH]; intros given next H; simpl; [done|].
  case_match; apply IH; [done|]. by rewrite alookup_app, H.
Qed.

(** Inodes are given to keys one to one. *)
Definition one_to_one (given : list ((pystr + pystr) * Z)) (next : Z) : Prop :=
  NoDup (map fst given) /\ NoDup (map snd given) /\ Forall (fun kz => kz.2 < next) given.

Lemma one_to_one_give given next k : one_to_one given next -> alookup k given = None ->
  one_to_one (given ++ [(k, next)]) (next + 1).
Proof.
  intros (H1 & H2 & H3) Hk. rewrite alookup_none in Hk. unfold one_to_one. rewrite !map_app. simpl. split_and!.
  - apply list.NoDup_app. split; [done|]. split; [set_solver|apply NoDup_singleton].
  - apply list.NoDup_app. split; [done|]. split; [|apply NoDup_singleton].
    intros z Hz. apply list_elem_of_fmap in Hz as (kz & -> & Hkz).
    rewrite list.Forall_forall in H3. apply H3 in Hkz. rewrite list_elem_of_singleton. lia.
  - apply Forall_app_2; [|constructor; [simpl; lia|constructor]].
    eapply list.Forall_impl; [done|]. simpl. lia.
Qed.

Lemma final_one_to_one given next entries : one_to_one given next ->
  exists next', one_to_one (final_given given next entries) next'.
Proof.
  revert given next; induction entries as [|e t IH]; intros given next H; simpl; [eauto|].
  case_match; [by apply IH|]. by apply IH, one_to_one_give.
Qed.

Lemma one_to_one_inj given next k k' z : one_to_one given next ->
  alookup k given = Some z -> alookup k' given = Some z -> k = k'.
Proof.
  intros (_ & H & _) H1%alookup_elem H2%alookup_elem. clear next.
  induction given as [|[j w] given IH]; [by inversion H1|]. simpl in H. apply list.NoDup_cons in H as [Hw H].
  assert (forall x, (x, w) ∉ given) as Hx by (intros x Hx; apply Hw, list_elem_of_fmap; by exists (x, w)).
  apply elem_of_cons in H1 as [?|H1], H2 as [?|H2]; simplify_eq; try done; [by destruct (Hx k')|by destruct (Hx k)|auto].
Qed.

Section contents.
Context (counts : list (pystr * Z)) (contents : contents_t).

Lemma records_inodes given next entries :
  Forall2 (fun e r => alookup (key e) (final_given given next entries) = Some (n_ino r))
    entries (records counts contents given next entries).
Proof.
  revert given next; induction entries as [|e t IH]; intros given next; simpl; [constructor|].
  destruct (alookup (key e) given) as [z|] eqn:E; (constructor; [|apply IH]).
  - by apply final_given_extends.
  - apply final_given_extends. rewrite alookup_app, E. simpl. by rewrite bool_decide_true.
Qed.

(** [content k] is the content of every entry with key [k]. *)
Context (content : pystr + pystr -> bytes).

(** The verifier's content of an inode is the content of its key. *)
Definition holds_data (given : list ((pystr + pystr) * Z)) (d : list (Z * bytes)) : Prop :=
  (forall k z, alookup k given = Some z -> default [] (alookup z d) = content k) /\
  (forall z, z ∉ map snd given -> alookup z d = None).

Lemma note_data_records given next entries d : one_to_one given next ->
  Forall (fun e => data_of contents e = content (key e)) entries -> holds_data given d ->
  exists d', for_each note_data d (records counts contents given next entries) = Ok d' /\
    holds_data (final_given given next entries) d'.
Proof.
  revert given next d. induction entries as [|e t IH]; intros given next d Hg Hc Hd; simpl; [eauto|].
  apply Forall_cons_iff in Hc as [He Hc]. destruct (alookup (key e) given) as [z|] eqn:E.
  - simpl. by apply IH.
  - simpl. destruct Hd as (H1 & H2).
    assert (alookup next d = None) as Hn.
    { apply H2. intros Hin. apply list_elem_of_fmap in Hin as (kz & -> & Hkz).
      destruct Hg as (_ & _ & Hlt). rewrite list.Forall_forall in Hlt. apply Hlt in Hkz. lia. }
    assert (forall d1, alookup next d1 = (match content (key e) with [] => None | c => Some c end) ->
      (forall z, z <> next -> alookup z d1 = alookup z d) ->
      holds_data (given ++ [(key e, next)]) d1) as Hext.
    { intros d1 Hnew Hold. split.
      - intros k z Hk. rewrite alookup_app in Hk. destruct (alookup k given) as [z'|] eqn:Ek.
        + simplify_eq. rewrite Hold; [by apply H1|]. intros ->.
          destruct Hg as (_ & _ & Hlt). rewrite list.Forall_forall in Hlt.
          apply alookup_elem, Hlt in Ek. simpl in Ek. lia.
        + simpl in Hk. case_bool_decide; [|done]. simplify_eq. rewrite Hnew. by destruct (content (key e)).
      - intros z Hz. rewrite map_app in Hz. simpl in Hz. rewrite Hold by set_solver. apply H2. set_solver. }
    unfold note_data at 1. cbn [n_data n_ino record]. rewrite He. destruct (content (key e)) as [|b c] eqn:Ec.
    + apply IH; [by apply one_to_one_give|done|]. by apply Hext.
    + assert (alookup next (asetdefault next (b :: c) d) = Some (b :: c)) as Hl
        by (rewrite alookup_asetdefault, Hn; by rewrite bool_decide_true).
      rewrite Hl. simpl default. rewrite (proj2 (bytes_eqb_eq _ _)) by done. cbn [negb raise_if].
      apply IH; [by apply one_to_one_give|done|]. apply Hext; [done|].
      intros z Hz. rewrite alookup_asetdefault, bool_decide_false by done. by destruct (alookup z d).
Qed.
End contents.

(** ** Entries as a scan produces them *)

Definition regular_ok (contents : contents_t) (e : Entry) : Prop :=
  exists data, alookup (e_path e) contents = Some data /\ u32_ok (zlen data) /\
    e_kind e = str "regular" /\ S_IFMT (e_mode e) = S_IFREG /\ e_size e = zlen data /\
    e_digest e = Some (sha256 data) /\ e_target e = None /\
    (forall h, e_hardlink e = Some h -> h <> [] /\ text_ok h = true).

Definition directory_ok (contents : contents_t) (e : Entry) : Prop :=
  alookup (e_path e) contents = None /\ e_kind e = str "directory" /\ S_IFMT (e_mode e) = S_IFDIR /\
  e_size e = 0 /\ e_digest e = None /\ e_target e = None /\ e_hardlink e = None.

Definition symlink_ok (contents : contents_t) (e : Entry) : Prop :=
  exists raw target, alookup (e_path e) contents = Some raw /\ fsdecode raw = Ok target /\ u32_ok (zlen raw) /\
    e_kind e = str "symlink" /\ S_IFMT (e_mode e) = S_IFLNK /\ e_size e = zlen raw /\
    e_digest e = None /\ e_target e = Some target /\ e_hardlink e = None.

Record entry_ok (contents : contents_t) (e : Entry) : Prop := {
  ok_name : exists raw, os_name (e_path e) raw;
  ok_safe : safe_name (e_path e) = true;
  ok_trailer : e_path e <> str "TRAILER!!!";
  ok_mode : 0 <= e_mode e < 2 ^ 16;
  ok_uid : u32_ok (e_uid e); ok_gid : u32_ok (e_gid e);
  ok_kind : regular_ok contents e \/ directory_ok contents e \/ symlink_ok contents e }.

Record tree_ok (entries : list Entry) (contents : contents_t) : Prop := {
  tree_entries : Forall (entry_ok contents) entries;
  tree_paths : NoDup (map e_path entries);
  tree_count : zlen entries + 1 < 2 ^ 32;
  tree_links : forall e1 e2 h, e1 ∈ entries -> e2 ∈ entries -> e_hardlink e1 = Some h -> e_hardlink e2 = Some h ->
    data_of contents e1 = data_of contents e2 }.

(** *** Link counts *)

Definition has_link (h : pystr) (e : Entry) : bool := bool_decide (link_of e = Some h).

Lemma link_counts_spec entries h :
  alookup h (link_counts entries) =
  match List.filter (has_link h) entries with [] => None | l => Some (zlen l) end.
Proof.
  unfold link_counts. induction entries as [|e l IH] using rev_ind; [done|].
  rewrite foldl_app, List.filter_app. simpl. unfold count_link at 1, has_link at 2.
  destruct (link_of e) as [h'|]; [|by rewrite bool_decide_false, app_nil_r].
  rewrite alookup_aset. destruct (decide (h = h')) as [->|Hne].
  - rewrite !bool_decide_true by done. rewrite IH. destruct (List.filter (has_link h') l) as [|x r]; [done|].
    simpl. f_equal. unfold zlen. simpl. rewrite length_app. simpl. lia.
  - rewrite !bool_decide_false by congruence. by rewrite app_nil_r.
Qed.

Lemma filter_elem {A} (f : A -> bool) l x : x ∈ List.filter f l <-> x ∈ l /\ f x = true.
Proof. rewrite !list_elem_of_In. apply filter_In. Qed.

Lemma filter_length_le {A} (f : A -> bool) l : (length (List.filter f l) <= length l)%nat.
Proof. induction l as [|x l IH]; simpl; [done|]. destruct (f x); simpl; lia. Qed.

Lemma link_count_elem entries e h : e ∈ entries -> link_of e = Some h ->
  alookup h (link_counts entries) = Some (zlen (List.filter (has_link h) entries)).
Proof.
  intros He Hl. rewrite link_counts_spec.
  assert (e ∈ List.filter (has_link h) entries) as Hin by (apply filter_elem; split; [done|by apply bool_decide_eq_true]).
  destruct (List.filter (has_link h) entries); [by inversion Hin|done].
Qed.

Lemma tree_writable entries contents : tree_ok entries contents ->
  Forall (writable (link_counts entries) contents) entries.
Proof.
  intros [He _ Hc _]. rewrite list.Forall_forall in He |- *. intros e Hin.
  destruct (He e Hin) as [Hn Hs Ht Hm Hu Hg Hk].
  assert (forall h, link_of e = Some h -> alookup (e_path e) contents <> None) as Hdata.
  { intros h Hl. unfold link_of in Hl. destruct Hk as [(d & -> & _)|[(_ & _ & _ & _ & _ & _ & Hh)|(raw & t & -> & _)]]; try done.
    by rewrite Hh in Hl. }
  constructor; try done.
  - unfold u32_ok. lia.
  - unfold nlink_of. destruct (link_of e) as [h|] eqn:Hl; [|by case_match].
    rewrite (link_count_elem entries e h) by done. simpl. unfold u32_ok.
    pose proof (filter_length_le (has_link h) entries). unfold zlen in *. lia.
  - unfold data_of. destruct Hk as [(d & -> & ? & _)|[(-> & _)|(raw & t & -> & _ & ? & _)]]; done.
  - unfold placeable. destruct (link_of e) as [h|] eqn:Hl; [|done]. split; [|by eapply Hdata].
    by rewrite (link_count_elem entries e h).
Qed.

(** ** The manifest as the verifier reads it *)

Definition wanted (e : Entry) : dict :=
  match canon compact (manifest_entry e) with VDict d => d | _ => [] end.

Lemma canon_entry e : canon compact (manifest_entry e) = VDict (wanted e).
Proof. unfold wanted, manifest_entry. by destruct (e_digest e), (e_target e), (e_hardlink e). Qed.

Definition opt_str (o : option pystr) : pyval := match o with Some s => VStr s | None => VNone end.

Lemma wanted_get e :
  get (wanted e) (str "path") = VStr (e_path e) /\ get (wanted e) (str "type") = VStr (e_kind e) /\
  get (wanted e) (str "mode") = VInt (Z.land (e_mode e) 0xFFFF) /\
  get (wanted e) (str "uid") = VInt (e_uid e) /\ get (wanted e) (str "gid") = VInt (e_gid e) /\
  get (wanted e) (str "size") = VInt (e_size e) /\
  get (wanted e) (str "sha256") = opt_str (e_digest e) /\ get (wanted e) (str "target") = opt_str (e_target e) /\
  get (wanted e) (str "hardlink") = opt_str (e_hardlink e).
Proof. unfold wanted, manifest_entry. by destruct (e_digest e), (e_target e), (e_hardlink e). Qed.

(** A linked entry joins the set of its link's paths. *)
Definition join_link (e : Entry) (ino : Z) (hardlinks : hardlinks_t) : hardlinks_t :=
  match link_of e with
  | Some h =>
      let '(i, paths) := default (ino, []) (alookup h hardlinks) in
      aset h (i, if mem (e_path e) paths then paths else paths ++ [e_path e]) hardlinks
  | None => hardlinks
  end.

Lemma land_mode m : 0 <= m < 2 ^ 16 -> Z.land m 0xFFFF = m.
Proof. intros H. change 0xFFFF with (Z.ones 16). rewrite Z.land_ones by lia. by apply Z.mod_small. Qed.

Lemma py_eq_int_refl n : (VInt n == VInt n) = true.
Proof. apply py_eq_int. by left. Qed.
Lemma py_eq_str_refl t : (VStr t == VStr t) = true.
Proof. by apply py_eq_str. Qed.

Section check.
Context (counts : list (pystr * Z)) (contents : contents_t) (d : list (Z * bytes)).

Record matched (e : Entry) (r : newc) : Prop := {
  m_record : r = record counts e (n_ino r) (n_data r);
  m_unlinked : link_of e = None -> n_data r = data_of contents e;
  m_content : default (n_data r) (alookup (n_ino r) d) = data_of contents e }.

Ltac entry_fields H :=
  let Hg := fresh "Hg" in pose proof (wanted_get H) as Hg; destruct Hg as (_ & Hty & Hmo & Hui & Hgi & Hsi & Hsh & Hta & Hha).

Ltac decide_kinds :=
  unfold required_kind;
  repeat match goal with |- context [VStr (str ?a) == VStr (str ?b)] =>
    let v := eval vm_compute in (VStr (str a) == VStr (str b)) in
    change (VStr (str a) == VStr (str b)) with v end;
  cbn [hashable negb orb andb raise_if]; rewrite ?Z.eqb_refl, ?py_eq_int_refl, ?py_eq_str_refl;
  cbn [negb orb andb raise_if opt_str truthy].

Lemma check_entry_matched hardlinks e r : entry_ok contents e -> matched e r ->
  check_entry d hardlinks (wanted e, r) = Ok (join_link e (n_ino r) hardlinks).
Proof.
  intros [_ _ _ Hm _ _ Hk] [Hr Hul Hco]. entry_fields e.
  assert (n_path r = e_path e /\ n_mode r = e_mode e /\ n_uid r = e_uid e /\ n_gid r = e_gid e /\
    n_mtime r = 0 /\ n_size r = zlen (n_data r) /\ n_nlink r = nlink_of counts e)
    as (Rp & Rm & Ru & Rg & Rt & Rs & Rn) by (rewrite Hr; done).
  unfold check_entry. cbv zeta.
  rewrite Hty, Hmo, Hui, Hgi, Hsi, Hsh, Hta, Hha, Rp, Rm, Ru, Rg, Rt, land_mode, !py_eq_int_refl by done.
  destruct Hk as [(data & Hd & _ & Hk & Hf & Hs & Hdg & Htg & Hh)|[(Hd & Hk & Hf & Hs & Hdg & Htg & Hh)|
    (raw & t & Hd & Hdec & _ & Hk & Hf & Hs & Hdg & Htg & Hh)]];
    rewrite Hk, Hf, Hs, Hdg, Htg; unfold data_of in Hco, Hul; rewrite Hd in Hco, Hul; simpl default in Hco, Hul.
  - assert (keys_within (wanted e) (kind_fields (VStr (str "regular"))) = true /\
      subset common_fields (keys (wanted e)) = true) as [-> ->].
    { unfold wanted, manifest_entry. rewrite Hdg, Htg. by destruct (e_hardlink e). }
    rewrite Hco. decide_kinds. cbn [opt_str]. rewrite py_eq_str_refl. cbn [negb raise_if].
    unfold join_link, link_of. destruct (e_hardlink e) as [[|x h]|] eqn:Eh; cbn [opt_str truthy].
    + by destruct (Hh [] eq_refl).
    + change (negb (x :: h =s str "")) with true. cbv iota. by destruct (default (n_ino r, []) (alookup (x :: h) hardlinks)).
    + rewrite Rn. unfold nlink_of, link_of. by rewrite Eh, Hk.
  - assert (link_of e = None) as Hln by (unfold link_of; by rewrite Hh).
    assert (keys_within (wanted e) (kind_fields (VStr (str "directory"))) = true /\
      subset common_fields (keys (wanted e)) = true) as [-> ->].
    { unfold wanted, manifest_entry. by rewrite Hdg, Htg, Hh. }
    rewrite Rs, Hul, Hh by done. decide_kinds. rewrite Rn. unfold nlink_of, join_link. by rewrite Hln, Hk.
  - assert (link_of e = None) as Hln by (unfold link_of; by rewrite Hh).
    assert (keys_within (wanted e) (kind_fields (VStr (str "symlink"))) = true /\
      subset common_fields (keys (wanted e)) = true) as [-> ->].
    { unfold wanted, manifest_entry. by rewrite Hdg, Htg, Hh. }
    rewrite Rs, Hul, Hh by done. decide_kinds. rewrite Hdec. decide_kinds. rewrite Rn. unfold nlink_of, join_link. by rewrite Hln, Hk.
Qed.
End check.

(** ** The comparison succeeds *)

Lemma groups_spec groups recs z :
  alookup z (foldl note_group groups recs) =
  match List.filter (fun r => n_ino r =? z) recs with
  | [] => alookup z groups
  | l => Some (default [] (alookup z groups) ++ map n_path l)
  end.
Proof.
  revert groups; induction recs as [|r recs IH]; intros groups; [done|].
  cbn [foldl List.filter]. rewrite IH. unfold note_group. rewrite alookup_aset. destruct (n_ino r =? z) eqn:E; bool_prop.
  - rewrite bool_decide_true by done. subst z. destruct (List.filter _ recs); simpl; [done|].
    by rewrite <-app_assoc.
  - by rewrite bool_decide_false by congruence.
Qed.

Lemma find_filter {A} (f : A -> bool) l : List.find f l = head (List.filter f l).
Proof. induction l as [|x l IH]; simpl; [done|]. by destruct (f x). Qed.

Lemma set_eq_refl l : set_eq l l = true.
Proof. unfold set_eq. by rewrite andb_diag, subset_spec. Qed.

Lemma records_shape counts contents given next entries :
  NoDup (map e_path entries) -> Forall (fun e => alookup (inr (e_path e)) given = None) entries ->
  Forall2 (fun e r => r = record counts e (n_ino r) (n_data r) /\
      (n_data r = [] \/ n_data r = data_of contents e) /\ (link_of e = None -> n_data r = data_of contents e))
    entries (records counts contents given next entries).
Proof.
  revert given next; induction entries as [|e t IH]; intros given next Hnd Hfr; simpl; [constructor|].
  simpl in Hnd. apply list.NoDup_cons in Hnd as [Hne Hnd]. apply Forall_cons_iff in Hfr as [Hfe Hfr].
  destruct (alookup (key e) given) as [z|] eqn:E; (constructor; [|apply IH; [done|]]); try done.
  - split_and!; [done|by left|]. unfold key in E. by destruct (link_of e); [|congruence].
  - split_and!; [done|by right|done].
  - rewrite list.Forall_forall in Hfr |- *. intros e' He'. rewrite alookup_app, Hfr by done. simpl.
    rewrite bool_decide_false; [done|]. unfold key. destruct (link_of e); [done|].
    intros [= Heq]. apply Hne, list_elem_of_fmap. by exists e'.
Qed.

(** Entries of one link and records of its inode correspond. *)
Definition corresponds counts G (e : Entry) (r : newc) : Prop :=
  n_path r = e_path e /\ n_nlink r = nlink_of counts e /\ alookup (key e) G = Some (n_ino r).

Lemma filter_inode counts G entries recs h z : (forall k, alookup k G = Some z -> k = inl h) -> alookup (inl h) G = Some z ->
  Forall2 (corresponds counts G) entries recs ->
  Forall2 (corresponds counts G) (List.filter (has_link h) entries) (List.filter (fun r => n_ino r =? z) recs).
Proof.
  intros Hinj Hz. induction 1 as [|e r es rs (Hp & Hn & He) _ IH]; [constructor|]. simpl.
  assert (has_link h e = (n_ino r =? z)) as ->; [|by case_match; [constructor|]].
  apply eq_true_iff_eq. unfold has_link. rewrite bool_decide_eq_true, Z.eqb_eq. unfold key in He. split.
  - intros Hl. rewrite Hl in He. congruence.
  - intros <-. specialize (Hinj _ He). destruct (link_of e); by simplify_eq.
Qed.

Section compare.
Context (entries : list Entry) (contents : contents_t) (Htree : tree_ok entries contents).

Abbreviation counts := (link_counts entries).
Abbreviation recs := (records counts contents [] 1 entries).
Abbreviation G := (final_given [] 1 entries).

Lemma recs_inodes : Forall2 (corresponds counts G) entries recs.
Proof.
  pose proof (records_inodes counts contents [] 1 entries) as H1.
  pose proof (records_shape counts contents [] 1 entries (tree_paths _ _ Htree)
    ltac:(by apply list.Forall_forall)) as H2.
  clear Htree. revert H1 H2. generalize G, recs, counts. intros g rs0 cs H1 H2. induction H2 as [|e r es rs (Hr & _) _ IH]; [constructor|].
  inversion H1; subst. constructor; [|by apply IH]. split_and!; [by rewrite Hr|by rewrite Hr|done].
Qed.

Lemma content_of_key : exists content, Forall (fun e => data_of contents e = content (key e)) entries.
Proof.
  exists (fun k => match List.find (fun e => bool_decide (key e = k)) entries with Some e => data_of contents e | None => [] end).
  apply list.Forall_forall. intros e He. destruct (List.find _ entries) as [e'|] eqn:Hf.
  - apply find_some in Hf as [Hin%list_elem_of_In Hk]. bool_prop. unfold key, link_of in Hk.
    destruct (e_hardlink e) as [[|c h]|] eqn:E1, (e_hardlink e') as [[|c' h']|] eqn:E2; simplify_eq;
      try (unfold data_of; by rewrite Hk).
    eapply (tree_links _ _ Htree); eauto.
  - eapply find_none in Hf; [|by apply list_elem_of_In]. by rewrite bool_decide_true in Hf.
Qed.

Lemma recs_matched : exists d, for_each note_data [] recs = Ok d /\ Forall2 (matched counts contents d) entries recs.
Proof.
  destruct content_of_key as [content Hc].
  destruct (note_data_records counts contents content [] 1 entries []) as (d & Hd & Hhold & _); try done.
  { split_and!; try constructor. }
  exists d. split; [done|].
  pose proof recs_inodes as H1.
  pose proof (records_shape counts contents [] 1 entries (tree_paths _ _ Htree)
    ltac:(by apply list.Forall_forall)) as H2.
  clear Hd Htree. revert H1 H2 Hc Hhold. generalize G, recs, counts. intros g rs0 cs H1 H2. induction H2 as [|e r es rs (Hr & Hdat & Hun) _ IH]; [constructor|].
  intros Hc Hh. apply Forall_cons_iff in Hc as [He Hc]. inversion H1 as [|? ? ? ? (_ & _ & Hk)]; subst.
  constructor; [|by apply IH]. constructor; [done|done|].
  specialize (Hh _ _ Hk). destruct (alookup (n_ino r) d) as [x|]; simpl in *; [congruence|].
  destruct Hdat; congruence.
Qed.

Lemma one_to_one_G : exists next, one_to_one G next.
Proof. apply final_one_to_one. split_and!; constructor. Qed.

(** The verifier's hardlink map after some of the entries. *)
Definition links_so_far (pre : list (Entry * newc)) (H : hardlinks_t) : Prop :=
  NoDup (map fst H) /\
  forall h, match alookup h H with
  | Some (z, ps) => alookup (inl h) G = Some z /\ ps <> [] /\ ps = map e_path (List.filter (has_link h) (map fst pre))
  | None => List.filter (has_link h) (map fst pre) = []
  end.

Lemma join_link_so_far pre e r H : links_so_far pre H -> alookup (key e) G = Some (n_ino r) ->
  e_path e ∉ map e_path (map fst pre) -> links_so_far (pre ++ [(e, r)]) (join_link e (n_ino r) H).
Proof.
  intros [Hnd HH] Hk Hp. unfold join_link, links_so_far. destruct (link_of e) as [h|] eqn:Hl.
  - unfold key in Hk. rewrite Hl in Hk. destruct (default (n_ino r, []) (alookup h H)) as [i ps] eqn:Ed.
    split; [by apply aset_nodup|]. intros h'. rewrite map_app, List.filter_app, alookup_aset. simpl.
    specialize (HH h') as Hh. unfold has_link at 2 4. rewrite Hl.
    destruct (decide (h' = h)) as [->|Hne].
    + rewrite !bool_decide_true by done.
      assert (ps = map e_path (List.filter (has_link h) (map fst pre)) /\ alookup (inl h) G = Some i) as [Hps Hi].
      { destruct (alookup h H) as [[z l]|]; simpl in Ed; simplify_eq; [by destruct Hh as (? & _ & ?)|].
        by rewrite Hh. }
      assert (mem (e_path e) ps = false) as ->.
      { apply mem_not_elem. intros Hin. apply Hp. rewrite Hps in Hin.
        apply list_elem_of_fmap in Hin as (x & Hx & Hf). apply filter_elem in Hf as [Hf _].
        apply list_elem_of_fmap. by exists x. }
      split_and!; [done|by destruct ps|]. by rewrite map_app, Hps.
    + rewrite !bool_decide_false by congruence. by rewrite app_nil_r.
  - split; [done|]. intros h'. rewrite map_app, List.filter_app. simpl. unfold has_link at 2 4. rewrite Hl.
    rewrite bool_decide_false by done. rewrite app_nil_r. apply HH.
Qed.

Lemma combine_wanted (rs : list newc) :
  combine (map wanted entries) rs = map (fun er => (wanted er.1, er.2)) (combine entries rs).
Proof. clear Htree. revert rs; induction entries as [|e t IH]; intros [|r rs]; simpl; [done..|]. by rewrite IH. Qed.

Lemma forall2_combine {A B} (P : A -> B -> Prop) l m x : Forall2 P l m -> x ∈ combine l m -> P x.1 x.2.
Proof. induction 1; simpl; [by inversion 1|]. intros [->|?]%elem_of_cons; auto. Qed.

Lemma combine_fst {A B} (P : A -> B -> Prop) l m : Forall2 P l m -> map fst (combine l m) = l.
Proof. induction 1; simpl; congruence. Qed.

Lemma check_entries d : Forall2 (matched counts contents d) entries recs ->
  exists H, for_each (check_entry d) [] (combine (map wanted entries) recs) = Ok H /\
    links_so_far (combine entries recs) H.
Proof.
  intros Hm. rewrite combine_wanted, for_each_map. apply for_each_total.
  - split; [constructor|done].
  - intros pre [e r] post H Hl Hinv. cbn [fst snd].
    assert ((e, r) ∈ combine entries recs) as Hin by (rewrite Hl; set_solver).
    pose proof (forall2_combine _ _ _ _ Hm Hin) as Hmat. pose proof (forall2_combine _ _ _ _ recs_inodes Hin) as (_ & _ & Hk).
    assert (map fst (combine entries recs) = entries) as Hfst by (eapply combine_fst, Hm).
    exists (join_link e (n_ino r) H). split.
    + apply (check_entry_matched counts contents); [|done]. pose proof (tree_entries _ _ Htree) as He.
      rewrite list.Forall_forall in He. apply He. rewrite <-Hfst. apply list_elem_of_fmap. by exists (e, r).
    + apply join_link_so_far; [done|done|]. pose proof (tree_paths _ _ Htree) as Hnd.
      rewrite <-Hfst, Hl, !map_app in Hnd. simpl in Hnd. apply list.NoDup_app in Hnd as (_ & Hd & _).
      intros Hx. apply (Hd _ Hx). by left.
Qed.

Lemma check_groups H : links_so_far (combine entries recs) H ->
  for_each (check_group (foldl note_group [] recs) recs) tt H = Ok tt.
Proof.
  intros [Hnd HH].
  destruct (for_each_total (check_group (foldl note_group [] recs) recs) (fun _ _ => True) H tt) as ([] & Hr & _); [done| |done].
  intros pre [h [z ps]] t [] Hl _. exists tt. split; [|done].
  assert (alookup h H = Some (z, ps)) as Hh by (apply alookup_nodup; [done|rewrite Hl; set_solver]).
  specialize (HH h). rewrite Hh in HH. destruct HH as (Hz & Hne & Hps).
  rewrite (combine_fst _ _ _ recs_inodes) in Hps.
  destruct one_to_one_G as [next Hone].
  pose proof (filter_inode counts G entries recs h z (fun k Hk => one_to_one_inj _ _ _ _ _ Hone Hk Hz) Hz recs_inodes) as Hf.
  unfold check_group. rewrite groups_spec. unfold first_with. rewrite find_filter.
  assert (map n_path (List.filter (fun r => n_ino r =? z) recs) = ps) as Hmem.
  { rewrite Hps. clear -Hf. induction Hf as [|e r es rs [Hp _] _ IH]; simpl; congruence. }
  destruct (List.filter (fun r => n_ino r =? z) recs) as [|r0 rs]; [by simpl in Hmem; congruence|].
  cbn [head default alookup app]. rewrite Hmem, set_eq_refl. cbn [negb orb].
  inversion Hf as [|e0 ? es0 ? (_ & Hn0 & _) _ He0]; subst.
  assert (e0 ∈ List.filter (has_link h) entries) as [Hin0 Hl0]%filter_elem by (rewrite <-He0; left).
  unfold has_link in Hl0. bool_prop. rewrite Hn0. unfold nlink_of.
  rewrite Hl0, (link_count_elem entries e0 h) by done. simpl default.
  replace (zlen (map e_path _)) with (zlen (List.filter (has_link h) entries)) by (unfold zlen; by rewrite length_map).
  by rewrite Z.eqb_refl.
Qed.

Lemma dicts_of_wanted : dicts_of (map (canon compact) (map manifest_entry entries)) = Some (map wanted entries).
Proof. clear Htree. induction entries as [|e t IH]; [done|]. cbn [map]. rewrite canon_entry. simpl. by rewrite IH. Qed.

Lemma compare_records :
  compare_entries recs (map (canon compact) (map manifest_entry entries)) = Ok tt.
Proof.
  unfold compare_entries. rewrite dicts_of_wanted.
  assert (map (fun d => get d (str "path")) (map wanted entries) = map VStr (map n_path recs)) as ->.
  { rewrite records_paths, !map_map. apply map_ext. intros e. by destruct (wanted_get e) as [-> _]. }
  rewrite (proj2 (py_eq_list_strs _ _)) by done. cbn [negb raise_if].
  destruct recs_matched as (d & -> & Hm). destruct (check_entries d Hm) as (H & -> & HH).
  by apply check_groups.
Qed.
End compare.

(** ** The manifest round trip *)

(** Entries the manifest states exactly: text without surrogate pairs, integers json
    can read back, a mode of sixteen bits. *)
Record entry_text (e : Entry) : Prop := {
  et_path : text_ok (e_path e) = true;
  et_kind : text_ok (e_kind e) = true;
  et_mode : 0 <= e_mode e < 2 ^ 16;
  et_ints : Forall (fun z => Z.abs z < 2 ^ 64) [e_uid e; e_gid e; e_size e];
  et_options : forall t, e_digest e = Some t \/ e_target e = Some t \/ e_hardlink e = Some t -> text_ok t = true }.

Lemma int64_jsonable z : Z.abs z < 2 ^ 64 -> jsonable (VInt z) = true.
Proof. intros Hz. apply int_jsonable. apply Z.lt_trans with (2 ^ 64); [lia|]. apply Z.pow_lt_mono_r; lia. Qed.

Lemma entry_text_jsonable e : entry_text e -> jsonable (manifest_entry e) = true.
Proof.
  intros [Hp Hk Hm Hi Ho]. rewrite !Forall_cons_iff in Hi. destruct Hi as (Hu & Hg & Hs & _).
  assert (Z.abs (e_mode e) < 2 ^ 64) as Hm' by lia.
  apply int64_jsonable in Hu, Hg, Hs, Hm'. unfold manifest_entry. rewrite land_mode by done. cbn [jsonable] in Hu, Hg, Hs, Hm'.
  destruct (e_digest e) as [t1|], (e_target e) as [t2|], (e_hardlink e) as [t3|];
    cbn -[Z.leb text_ok nat_repr INT_MAX_STR_DIGITS bool_decide];
    rewrite ?Hu, ?Hg, ?Hs, ?Hm', ?Hp, ?Hk, ?(Ho t1), ?(Ho t2), ?(Ho t3) by auto;
    vm_compute; reflexivity.
Qed.

Lemma entry_ok_text contents e : entry_ok contents e -> entry_text e.
Proof.
  intros [[raw [Hraw _]] _ _ Hm Hu Hg Hk]. apply fsdecode_text_ok in Hraw. unfold u32_ok in *.
  assert (Z.abs (e_size e) < 2 ^ 64 /\ text_ok (e_kind e) = true /\
    (forall t, e_digest e = Some t \/ e_target e = Some t \/ e_hardlink e = Some t -> text_ok t = true)) as (J1 & J2 & J3).
  { destruct Hk as [(d & _ & Hl & -> & _ & -> & -> & -> & Hh)|[(_ & -> & _ & -> & -> & -> & ->)|
      (r & t & _ & Ht & Hl & -> & _ & -> & -> & -> & ->)]]; unfold u32_ok in *; split_and!; try done; try lia.
    - intros t [[= <-]|[?|Ht]]; [apply hex_of_text_ok|done|by apply Hh].
    - by intros t [?|[?|?]].
    - intros t' [?|[[= <-]|?]]; [done|by eapply fsdecode_text_ok|done]. }
  constructor; try done. repeat constructor; lia.
Qed.

Lemma manifest_body_jsonable entries : Forall entry_text entries -> jsonable (manifest_body entries) = true.
Proof.
  intros H. unfold manifest_body. cbn [jsonable map fst snd forallb].
  replace (forallb jsonable (map manifest_entry entries)) with true.
  - vm_compute. reflexivity.
  - symmetry. apply forallb_elem. intros v Hv. apply list_elem_of_fmap in Hv as (e & -> & He).
    rewrite list.Forall_forall in H. by apply entry_text_jsonable, H.
Qed.

Lemma manifest_read entries contents : Forall (entry_ok contents) entries ->
  manifest_entries (manifest entries) = Ok (map (canon compact) (map manifest_entry entries)).
Proof.
  intros H. unfold manifest_entries, manifest. rewrite loads_bytes_dumps; try done.
  - intros d Hd. unfold strict_object. apply strict_pairs_ok; [constructor|done].
  - apply manifest_body_jsonable. eapply list.Forall_impl; [exact H|]. intros e. apply entry_ok_text.
Qed.

(** The manifest determines its entries. *)
Lemma manifest_injective es et : Forall entry_text es -> Forall entry_text et -> manifest es = manifest et -> es = et.
Proof.
  intros Hs Ht Heq.
  assert (forall l, Forall entry_text l ->
    loads_bytes strict_object reject_constant (manifest l) = Ok (canon compact (manifest_body l))) as Hl.
  { intros l Hl. apply loads_bytes_dumps; try done; [|by apply manifest_body_jsonable].
    intros d Hd. apply strict_pairs_ok; [constructor|done]. }
  pose proof (Hl es Hs) as H1. rewrite Heq, (Hl et Ht) in H1. injection H1 as H1. clear Hl Heq.
  revert et Ht H1; induction Hs as [|e es He Hs IH]; intros [|e' et] Ht H1; try done.
  apply Forall_cons_iff in Ht as [He' Ht]. cbn [map] in H1. rewrite !canon_entry in H1. injection H1 as Hw H1.
  f_equal; [|by apply IH]. pose proof (wanted_get e) as W. rewrite <-Hw in W. pose proof (wanted_get e') as W'.
  destruct W as (P1 & P2 & P3 & P4 & P5 & P6 & P7 & P8 & P9). destruct W' as (Q1 & Q2 & Q3 & Q4 & Q5 & Q6 & Q7 & Q8 & Q9).
  rewrite P1 in Q1. rewrite P2 in Q2. rewrite P3 in Q3. rewrite P4 in Q4. rewrite P5 in Q5. rewrite P6 in Q6.
  rewrite P7 in Q7. rewrite P8 in Q8. rewrite P9 in Q9. rewrite !land_mode in Q3 by (by apply et_mode).
  assert (forall a b, opt_str a = opt_str b -> a = b) as Hopt by (intros [a|] [b|] H; simpl in H; congruence).
  apply Hopt in Q7, Q8, Q9. destruct e, e'; simpl in *. congruence.
Qed.

Section codec.
(** A gzip codec: what it compresses it restores, and its header is the one
    [GzipFile(filename="", mtime=0)] writes. *)
Context (compress : bytes -> bytes) (decompress : bytes -> res bytes).
Context (decompress_compress : forall data, decompress (compress data) = Ok data).
Context (compress_header : forall data, header_deterministic (compress data) = true).

Lemma build_then_verify_aux entries contents : tree_ok entries contents ->
  exists archive, write_newc entries contents = Ok archive /\
    verify decompress (compress archive) (manifest entries) =
    Ok (Summary (sha256 (compress archive)) (sha256 (manifest entries)) (zlen entries) (zlen archive)).
Proof.
  intros H. destruct (write_parse entries contents (tree_writable _ _ H) (tree_count _ _ H) (tree_paths _ _ H))
    as (archive & Hw & Hp & _). exists archive. split; [done|].
  unfold verify. rewrite compress_header, decompress_compress. cbn [negb raise_if as_verification].
  rewrite Hp, (manifest_read entries contents (tree_entries _ _ H)), compare_records by done.
  do 2 f_equal. unfold zlen. by rewrite records_length.
Qed.

(** C7. For every list of entries within the limits of the archive format, the newc
    writer succeeds, and the verifier accepts the compressed archive together with the
    manifest written for the same entries, reporting the number of entries and the
    archive's exact length.  The limits ([tree_ok]) are: distinct relative names
    without [..] that the file system encoding can write, none of them [TRAILER!!!];
    modes of 16 bits, owners below 2^32, files and targets below 4 GiB; fewer than
    2^32 - 1 entries; size, digest and target those of the content, and one content
    per hardlink group.  A scan also produces trees outside them (a file named as the
    trailer, a file of 4 GiB), and for those nothing is claimed: see
    [trailer_name_written].  The theorem covers the JSON encoder and decoder, the
    hexadecimal fields, the alignment, the inode numbering and the hardlink groups,
    for any codec that restores what it compresses behind a deterministic header. *)
Theorem build_then_verify entries contents : tree_ok entries contents ->
  exists archive, write_newc entries contents = Ok archive /\
    verify decompress (compress archive) (manifest entries) =
    Ok (Summary (sha256 (compress archive)) (sha256 (manifest entries)) (zlen entries) (zlen archive)).
Proof. apply build_then_verify_aux. Qed.
End codec.
End RootfsTrip.
