(* ===== verification/RootfsSafe.v ===== *)
(** * What an accepted archive is, and the limits of both programs

    Soundness of the verifier, termination of its parser and the input on which it
    does not terminate, the symlink policy of the builder as a walk over real
    directories, and how far the builder's capacity estimate bounds the archive. *)
From Stdlib Require Import ZArith Lia.
From Stdlib Require Import Init.Byte.
From stdpp Require Import base list sets strings option.
From S2P Require Import Prelude PyStr PyVal Bytes Json JsonTrip Rootfs RootfsTrip.

Open Scope string_scope.
Open Scope list_scope.
Open Scope Z_scope.

Module RootfsSafe.
Import BuildRootfs VerifyRootfs RootfsTrip.

(** ** Soundness of the verifier *)

Lemma parse_step_safe data off r off' : parse_step data off = Ok (Some (r, off')) -> safe_name (n_path r) = true.
Proof.
  unfold parse_step. intros H. inv_ok. destruct (_ =s str "TRAILER!!!"); inv_ok; [done|].
  simpl. unfold safe_name. by apply negb_true_iff.
Qed.

Lemma parse_loop_prefix fuel data off acc actual : parse_loop fuel data off acc = Ok actual ->
  exists l, actual = acc ++ l.
Proof.
  revert off acc; induction fuel as [|fuel IH]; intros off acc H; [done|]. simpl in H. inv_ok.
  destruct a as [[r off']|]; [|inv_ok; exists []; by rewrite app_nil_r].
  destruct (IH _ _ H) as [l ->]. exists (r :: l). by rewrite <-app_assoc.
Qed.

Lemma align_ge v : v <= align v.
Proof. rewrite align_pad. pose proof (Z.mod_pos_bound (- v) 4 ltac:(lia)). lia. Qed.

Lemma parse_loop_safe fuel data off acc actual : parse_loop fuel data off acc = Ok actual ->
  Forall (fun r => safe_name (n_path r) = true) acc -> Forall (fun r => safe_name (n_path r) = true) actual.
Proof.
  revert off acc; induction fuel as [|fuel IH]; intros off acc H Ha; [done|]. simpl in H. inv_ok.
  destruct a as [[r off']|]; [|by inv_ok]. eapply IH; [done|].
  apply Forall_app_2; [done|]. constructor; [by eapply parse_step_safe|constructor].
Qed.

(** The bytes the archive carries for an inode: the data of the first of its records
    that has any. *)
Definition carries (ino : Z) (r : newc) : bool := (n_ino r =? ino) && bool_decide (n_data r <> []).
Definition archived_content (actual : list newc) (ino : Z) : bytes :=
  match List.find (carries ino) actual with Some r => n_data r | None => [] end.

Lemma find_snoc {A} (f : A -> bool) l x :
  List.find f (l ++ [x]) = match List.find f l with Some y => Some y | None => if f x then Some x else None end.
Proof. induction l as [|y l IH]; simpl; [done|]. by destruct (f y). Qed.

(** What the verifier looks up for an inode is what the archive carries for it. *)
Lemma note_data_first actual d : for_each note_data [] actual = Ok d ->
  forall i, alookup i d = option_map n_data (List.find (carries i) actual).
Proof.
  intros H. eapply (for_each_inv note_data (fun pre d => forall i,
    alookup i d = option_map n_data (List.find (carries i) pre))); [exact H|done|].
  intros pre r t d1 d2 _ HP Hstep i. rewrite find_snoc. unfold note_data in Hstep. unfold carries at 2.
  destruct (n_data r) as [|b l] eqn:Ed.
  - inv_ok. rewrite HP, andb_false_r. by destruct (List.find _ _).
  - inv_ok. rewrite alookup_asetdefault, HP. destruct (List.find (carries i) pre); simpl; [done|].
    rewrite andb_true_r. destruct (Z.eqb_spec (n_ino r) i) as [<-|Hne]; simpl.
    + by rewrite Ed, bool_decide_true.
    + by rewrite bool_decide_false by congruence.
Qed.

(** Every content the verifier recorded for an inode is that of all its entries. *)
Lemma note_data_sound actual d : for_each note_data [] actual = Ok d ->
  forall r, r ∈ actual -> n_data r <> [] -> alookup (n_ino r) d = Some (n_data r).
Proof.
  intros H. eapply (for_each_inv note_data (fun pre d => forall r, r ∈ pre -> n_data r <> [] ->
    alookup (n_ino r) d = Some (n_data r))); [exact H|by inversion 1|].
  intros pre r t d1 d2 _ HP Hstep r' Hr' Hne. unfold note_data in Hstep.
  destruct (n_data r) as [|b l] eqn:Ed.
  - inv_ok. apply elem_of_app in Hr' as [Hr'|Hr'%list_elem_of_singleton]; [by apply HP|congruence].
  - inv_ok. bool_prop. apply bytes_eqb_eq in E. rewrite alookup_asetdefault in *.
    apply elem_of_app in Hr' as [Hr'|Hr'%list_elem_of_singleton]; [by rewrite HP|subst r'].
    destruct (alookup (n_ino r) d1); simpl in E; [congruence|]. by rewrite Ed, bool_decide_true.
Qed.

(** The manifest's description of an entry holds of the archive's: a regular file's
    size and digest are those of the bytes the archive carries for its inode, the
    size of a directory or symlink is its record's size field. *)
Record describes (actual : list newc) (wanted : dict) (r : newc) : Prop := {
  d_mtime : n_mtime r = 0;
  d_mode : (get wanted (str "mode") == VInt (n_mode r)) = true;
  d_owner : (get wanted (str "uid") == VInt (n_uid r)) = true /\ (get wanted (str "gid") == VInt (n_gid r)) = true;
  d_kind : get wanted (str "type") = VStr (str "directory") /\ S_IFMT (n_mode r) = S_IFDIR \/
           get wanted (str "type") = VStr (str "regular") /\ S_IFMT (n_mode r) = S_IFREG \/
           get wanted (str "type") = VStr (str "symlink") /\ S_IFMT (n_mode r) = S_IFLNK;
  d_content : get wanted (str "type") = VStr (str "regular") ->
    get wanted (str "sha256") = VStr (sha256 (archived_content actual (n_ino r))) /\
    (get wanted (str "size") == VInt (zlen (archived_content actual (n_ino r)))) = true /\
    forall r', r' ∈ actual -> n_ino r' = n_ino r -> n_data r' = [] \/ n_data r' = archived_content actual (n_ino r);
  d_size : get wanted (str "type") <> VStr (str "regular") -> (get wanted (str "size") == VInt (n_size r)) = true;
  d_target : get wanted (str "type") = VStr (str "symlink") ->
    exists target, fsdecode (n_data r) = Ok target /\ get wanted (str "target") = VStr target }.

Lemma required_kind_ok kind k : required_kind kind = Ok (Some k) ->
  kind = VStr (str "directory") /\ k = S_IFDIR \/ kind = VStr (str "regular") /\ k = S_IFREG \/
  kind = VStr (str "symlink") /\ k = S_IFLNK.
Proof.
  unfold required_kind. destruct (hashable kind); [|done]. simpl. intros H. inv_ok.
  destruct (kind == VStr (str "directory")) eqn:E1; [val_prop; simplify_eq; auto|].
  destruct (kind == VStr (str "regular")) eqn:E2; [val_prop; simplify_eq; auto|].
  destruct (kind == VStr (str "symlink")) eqn:E3; [val_prop; simplify_eq; auto|done].
Qed.

(** The content the loop compares is the one the archive carries. *)
Lemma content_archived actual d r : for_each note_data [] actual = Ok d -> r ∈ actual ->
  default (n_data r) (alookup (n_ino r) d) = archived_content actual (n_ino r).
Proof.
  intros Hd Hr. unfold archived_content. rewrite (note_data_first _ _ Hd).
  destruct (List.find _ _) eqn:Hf; [done|]. simpl.
  eapply List.find_none in Hf; [|by apply list_elem_of_In]. unfold carries in Hf. rewrite Z.eqb_refl in Hf.
  apply andb_false_iff in Hf as [?|Hf]; [done|]. apply bool_decide_eq_false in Hf. by destruct (n_data r); [|destruct Hf].
Qed.

Lemma check_entry_sound actual d H wanted r H' :
  for_each note_data [] actual = Ok d -> r ∈ actual ->
  check_entry d H (wanted, r) = Ok H' -> describes actual wanted r.
Proof.
  intros Hnote Hin Hc. pose proof (note_data_sound _ _ Hnote) as Hd. unfold check_entry in Hc.
  rewrite (content_archived actual d r Hnote Hin) in Hc. inv_ok. bool_prop.
  destruct a0 as [k|]; [|done]. bool_prop. apply required_kind_ok in E0 as Hk.
  constructor; try done.
  - by destruct Hk as [[-> ->]|[[-> ->]|[-> ->]]]; auto.
  - intros Hr. rewrite Hr in E6, E7.
    change (VStr (str "regular") == VStr (str "regular")) with true in *. cbn [andb] in E7. bool_prop.
    apply py_eq_str in E7. split_and!; [done|done|]. intros r' Hr' Hi.
    destruct (n_data r') as [|b l] eqn:En; [by left|right]. rewrite <-En in *.
    specialize (Hd r' Hr' ltac:(congruence)). rewrite <-(content_archived actual d r Hnote Hin), <-Hi, Hd. done.
  - intros Hr. destruct (get wanted (str "type") == VStr (str "regular")) eqn:Ek; [|done]. val_prop. done.
  - intros Hr. rewrite Hr in E8. change (VStr (str "symlink") == VStr (str "symlink")) with true in E8.
    destruct (fsdecode (n_data r)) as [t|] eqn:Et; [|done]. exists t. split; [done|].
    subst a8. injection E8 as E8. bool_prop. by apply py_eq_str.
Qed.

Lemma dicts_of_spec l ds : dicts_of l = Some ds <-> l = map VDict ds.
Proof.
  revert ds; induction l as [|v l IH]; intros ds; simpl.
  - destruct ds; simpl; split; congruence.
  - destruct v; try (split; [done|by destruct ds]). destruct (dicts_of l) as [r|].
    + split; [intros [= <-]; simpl; f_equal; by apply IH|]. destruct ds as [|x ds]; [done|].
      simpl. intros [= -> Hl]. apply IH in Hl. congruence.
    + split; [done|]. destruct ds as [|x ds]; [done|]. simpl. intros [= -> Hl]. by apply IH in Hl.
Qed.

Lemma check_entries_sound actual d H wanted rs H' :
  for_each note_data [] actual = Ok d -> (forall r, r ∈ rs -> r ∈ actual) ->
  length wanted = length rs -> for_each (check_entry d) H (combine wanted rs) = Ok H' ->
  Forall2 (describes actual) wanted rs.
Proof.
  intros Hd. revert rs H; induction wanted as [|w wanted IH]; intros [|r rs] H Hin Hl Hr; [constructor|done|done|].
  simpl in Hl. cbn [combine for_each] in Hr. destruct (check_entry d H (w, r)) as [H1|] eqn:E; [|done].
  constructor; [eapply check_entry_sound; [exact Hd|set_solver|exact E]|].
  eapply IH; [set_solver|lia|exact Hr].
Qed.

(** As long as no record has a negative size, each record's data has the length of
    its size field. *)
Lemma parse_step_size data off r off' : parse_step data off = Ok (Some (r, off')) ->
  0 <= off -> 0 <= n_size r -> 0 <= off' /\ zlen (n_data r) = n_size r.
Proof.
  unfold parse_step. intros H. inv_ok. destruct (_ =s str "TRAILER!!!"); inv_ok; [done|].
  simpl. bool_prop. intros Hoff Hs.
  set (start := align (off + 110 + field a0 11)) in *.
  assert (0 <= start). { pose proof (align_ge (off + 110 + field a0 11)). unfold start. lia. }
  pose proof (align_ge (start + field a0 6)). split; [lia|]. rewrite pyslice_nonneg, slice_length by lia. lia.
Qed.

Lemma parse_loop_sizes fuel data off acc actual : parse_loop fuel data off acc = Ok actual -> 0 <= off ->
  Forall (fun r => zlen (n_data r) = n_size r) acc -> Forall (fun r => 0 <= n_size r) actual ->
  Forall (fun r => zlen (n_data r) = n_size r) actual.
Proof.
  revert off acc; induction fuel as [|fuel IH]; intros off acc H Hoff Ha Hn; [done|]. simpl in H. inv_ok.
  destruct a as [[r off']|]; [|by inv_ok].
  assert (0 <= n_size r) as Hr.
  { destruct (parse_loop_prefix _ _ _ _ _ H) as [l ->]. rewrite !Forall_app, Forall_singleton in Hn. tauto. }
  destruct (parse_step_size _ _ _ _ E Hoff Hr). eapply IH; [exact H|done| |done].
  apply Forall_app_2; [done|]. by apply Forall_singleton.
Qed.

(** C8. An archive the verifier accepts is described by its manifest: the parsed
    entries have distinct, relative paths without [..], in the manifest's order; each
    has the mode, owner and type the manifest states and a zero time stamp. The size
    and digest the manifest gives for a regular file are those of the bytes the
    archive carries for its inode ([archived_content], the data of the inode's first
    record that has any, empty if none has), and every record of that inode carries
    those bytes or none. The size of a directory or a symlink is its record's size
    field, and a symlink has the manifest's target. The size field of every record is
    the length of its data, unless the archive holds a record of negative size, which
    the parser's [int(field, 16)] admits. *)
Theorem verified_archive decompress encoded manifest_bytes s :
  verify decompress encoded manifest_bytes = Ok s ->
  exists unpacked actual wanted,
    decompress encoded = Ok unpacked /\ parse_newc unpacked = Ok actual /\
    manifest_entries manifest_bytes = Ok (map VDict wanted) /\
    entry_count s = zlen actual /\ uncompressed_bytes s = zlen unpacked /\
    NoDup (map n_path actual) /\ Forall (fun r => safe_name (n_path r) = true) actual /\
    map (fun d => get d (str "path")) wanted = map VStr (map n_path actual) /\
    Forall2 (describes actual) wanted actual /\
    (Forall (fun r => 0 <= n_size r) actual -> Forall (fun r => zlen (n_data r) = n_size r) actual).
Proof.
  unfold verify. intros H. inv_ok. rename a0 into unpacked, a1 into actual.
  assert (decompress encoded = Ok unpacked) as Hdec.
  { unfold as_verification in E0. destruct (decompress encoded); [congruence|]. by case_match. }
  unfold compare_entries in E3. destruct (dicts_of a2) as [wanted|] eqn:Hw; [|done].
  apply dicts_of_spec in Hw as ->. inv_ok. bool_prop.
  match goal with Hp : (VList _ == VList _) = true |- _ => apply py_eq_list_strs in Hp; injection Hp as Hpaths end.
  unfold parse_newc in E1. inv_ok. bool_prop. val_prop.
  exists unpacked, actual, wanted. split_and!; try done.
  - unfold parse_newc. match goal with Hl : parse_loop _ _ _ _ = Ok _ |- _ => rewrite Hl end.
    rewrite (proj2 (distinct_NoDup _)); done.
  - by eapply parse_loop_safe; [|constructor].
  - eapply check_entries_sound; [done|done| |done].
    apply (f_equal length) in Hpaths. by rewrite !length_map in Hpaths.
  - intros Hn. eapply parse_loop_sizes; [eassumption|done|constructor|exact Hn].
Qed.

(** ** Termination of the parser *)

Lemma parse_step_advance data off r off' : parse_step data off = Ok (Some (r, off')) ->
  0 <= n_size r -> off + 112 <= off' /\ off + 110 <= zlen data.
Proof.
  unfold parse_step. intros H. inv_ok. destruct (_ =s str "TRAILER!!!"); inv_ok; [done|].
  simpl. bool_prop. intros Hs. split; [|lia].
  pose proof (align_ge (off + 110 + field a0 11)). pose proof (align_ge (align (off + 110 + field a0 11) + field a0 6)). lia.
Qed.

Lemma raises_utf8_decode m l : raises_only not_fuel (utf8_decode m l).
Proof.
  remember (length l) as n eqn:Hn. revert l Hn. induction n as [n IH] using lt_wf_ind. intros l ->.
  destruct l as [|b t]; [done|].
  assert (forall t' c, (length t' < length (b :: t))%nat ->
    raises_only not_fuel (let! r := utf8_decode m t' in Ok (c :: r))) as Hc.
  { intros t' c Ht. apply raises_bind; [by eapply IH|done]. }
  assert (raises_only not_fuel (let! c := bad_byte m (b2z b) in let! r := utf8_decode m t in Ok (c :: r))) as Hb.
  { apply raises_bind; [by destruct m|]. intros c _. apply Hc. simpl. lia. }
  cbn [utf8_decode].
  repeat first [exact Hb | apply Hc; simpl; lia | case_match; subst].
Qed.

Lemma raises_parse_step data off : raises_only not_fuel (parse_step data off).
Proof.
  unfold parse_step.
  repeat first [done | apply raises_utf8_decode | apply raises_raise_if | (apply raises_bind; [|intros]) | case_match].
  unfold pyindex. by repeat case_match.
Qed.

Lemma parse_loop_terminates data fuel off acc :
  0 <= off -> (Z.to_nat (zlen data - off) < fuel)%nat ->
  raises_only not_fuel (parse_loop fuel data off acc) \/
  exists at_ r off', 0 <= at_ /\ parse_step data at_ = Ok (Some (r, off')) /\ n_size r < 0.
Proof.
  revert off acc; induction fuel as [|fuel IH]; intros off acc Hoff Hf; [lia|]. cbn [parse_loop].
  pose proof (raises_parse_step data off) as Hr. destruct (parse_step data off) as [[[r off']|]|] eqn:E; [|by left..].
  destruct (Z.ltb_spec (n_size r) 0); [by right; exists off, r, off'|].
  destruct (parse_step_advance _ _ _ _ E ltac:(done)). apply IH; lia.
Qed.

(** C9. The parser terminates, within one turn per byte of input, unless it meets a
    record whose size field is negative: the fuel of [parse_newc] is exhausted only on
    inputs that hold such a record. *)
Theorem parse_newc_terminates data :
  raises_only not_fuel (parse_newc data) \/
  exists off r off', 0 <= off /\ parse_step data off = Ok (Some (r, off')) /\ n_size r < 0.
Proof.
  unfold parse_newc.
  destruct (parse_loop_terminates data (S (length data)) 0 []) as [H|H]; [done|unfold zlen; lia| |by right].
  left. apply raises_bind; [done|]. intros. apply raises_bind; [by apply raises_raise_if|done].
Qed.

(** A record of 112 bytes whose size field is [-0000070]: minus 112. *)
Definition looping_archive : bytes :=
  bstr "070701" ++ bstr "00000001" ++ bstr "000081a4" ++ bstr "00000000" ++ bstr "00000000" ++ bstr "00000001"
  ++ bstr "00000000" ++ bstr "-0000070" ++ bstr "00000000" ++ bstr "00000000" ++ bstr "00000000" ++ bstr "00000000"
  ++ bstr "00000002" ++ bstr "00000000" ++ bstr "a" ++ [x00].

(** [int(field, 16)] accepts a sign, so a record can have a negative size; here the
    next offset is the record's own, and the loop of [parse_newc] never ends, adding
    an entry to its list at every turn. *)
Theorem negative_size_never_ends fuel acc :
  parse_loop fuel looping_archive 0 acc = raise RecursionError "fuel".
Proof.
  assert (exists r, parse_step looping_archive 0 = Ok (Some (r, 0))) as [r Hr]
    by (eexists; vm_compute; reflexivity).
  revert acc; induction fuel as [|fuel IH]; intros acc; [done|]. cbn [parse_loop]. by rewrite Hr.
Qed.

(** ** The symlink policy *)

(** Following the parts of a relative path from a directory given by the names
    below the root; [None] is a step above the root. *)
Fixpoint follow (dir : list pystr) (target_parts : list pystr) : option (list pystr) :=
  match target_parts with
  | [] => Some dir
  | part :: t =>
      if mem part (strs [""; "."]) then follow dir t
      else if part =s str ".." then match dir with [] => None | _ :: up => follow up t end
      else follow (part :: dir) t
  end.

Lemma walk_follow target_parts dir : walk_depth (zlen dir) target_parts = option_map zlen (follow dir target_parts).
Proof.
  revert dir; induction target_parts as [|p t IH]; intros dir; simpl; [done|].
  destruct (mem p _); [done|]. destruct (p =s str "..").
  - destruct dir as [|x up]; [done|]. rewrite (proj2 (Z.eqb_neq _ 0)) by (unfold zlen; simpl; lia).
    rewrite <-IH. f_equal. unfold zlen. simpl. lia.
  - rewrite <-IH. f_equal. unfold zlen. simpl. lia.
Qed.

(** C10. The builder's depth counter decides whether a relative symlink stays in the
    tree: a link is accepted exactly when following its target part by part, from the
    directory that holds it, never steps above the root. *)
Theorem safe_target_follows path target : startswith target (str "/") = false ->
  _safe_target path target = true <->
  exists dir, follow (rev (List.filter counted (split_on SLASH (dirname path)))) (split_on SLASH target) = Some dir.
Proof.
  intros Ht. unfold _safe_target. rewrite Ht. set (up := List.filter counted _).
  replace (zlen up) with (zlen (rev up)) by (unfold zlen; by rewrite length_rev).
  rewrite walk_follow. destruct (follow (rev up) _); simpl; naive_solver.
Qed.

(** ** The capacity estimate *)

Lemma sum_fold l : forall a, foldl Z.add a l = a + foldr Z.add 0 l.
Proof. induction l as [|x l IH]; intros a; simpl; [lia|]. rewrite IH. lia. Qed.

(** What a build leaves on the file system it was admitted to, in bytes: the
    available bytes less the two files it writes. *)
Definition bytes_left (compress : bytes -> bytes) (capacity : statvfs) (entries : list Entry) (archive : bytes) : Z :=
  f_bavail capacity * f_frsize capacity - zlen (compress archive) - zlen (manifest entries).

(** By how much the two files exceed the stream the estimate is made of: what the
    compressor adds to data it cannot shrink, and the manifest. *)
Definition excess (compress : bytes -> bytes) (entries : list Entry) (archive : bytes) : Z :=
  Z.max 0 (zlen (compress archive) - zlen archive) + zlen (manifest entries).

(** C11. For a tree within the limits of the format ([tree_ok]) whose names (together
    with the target, for a symlink) are at most 395 bytes, the uncompressed newc
    stream is within the estimate the admission check uses.  So an admitted build
    leaves the configured reserve of free bytes, less what the estimate does not
    count: the manifest, and what the compressor adds, if it adds anything.  Both
    conditions are needed: see [estimate_exceeded] for longer names and
    [reserve_not_kept] for the manifest. *)
Theorem admitted_build_fits compress args capacity entries contents archive :
  tree_ok entries contents -> manifest_only args = false ->
  admit_build args capacity entries = Ok tt -> write_newc entries contents = Ok archive ->
  Forall (fun e => forall raw, fsencode (e_path e) = Ok raw ->
    zlen raw + (if e_kind e =s str "regular" then 0 else e_size e) <= 395) entries ->
  zlen archive <= worst_case_archive entries /\
  min_free_bytes args - excess compress entries archive <= bytes_left compress capacity entries archive.
Proof.
  intros Ht Hm Ha Hw Hn.
  set (cost := fun e => 512 + (if e_kind e =s str "regular" then e_size e else 0)).
  assert (zlen archive <= worst_case_archive entries) as Hle.
  { destruct (write_parse entries contents (tree_writable _ _ Ht) (tree_count _ _ Ht) (tree_paths _ _ Ht))
      as (a & Hw' & _ & Hb). rewrite Hw in Hw'. injection Hw' as <-. specialize (Hb cost).
    assert (foldr Z.add 0 (map cost entries) = payload_bytes entries + zlen entries * 512) as Hsum.
    { unfold payload_bytes. rewrite sum_fold. clear. induction entries as [|e l IH]; [done|].
      cbn [map foldr List.filter]. rewrite IH. replace (zlen (e :: l)) with (zlen l + 1) by (unfold zlen; simpl; lia).
      unfold cost. destruct (e_kind e =s str "regular"); cbn [map foldr]; lia. }
    unfold worst_case_archive. rewrite Hsum in Hb. etrans; [apply Hb|lia].
    pose proof (tree_entries _ _ Ht) as He. rewrite list.Forall_forall in He, Hn |- *.
    intros e Hin raw Hraw. specialize (Hn e Hin raw Hraw). unfold cost, data_of.
    destruct (ok_kind _ _ (He e Hin)) as [(d & -> & _ & Hk & _ & Hs & _)|[(-> & Hk & _ & Hs & _)|(r & t & -> & _ & _ & Hk & _ & Hs & _)]];
      rewrite Hk, Hs in *;
      [change (str "regular" =s str "regular") with true in *
      |change (str "directory" =s str "regular") with false in *
      |change (str "symlink" =s str "regular") with false in *];
      cbn [default from_option] in *; unfold id in *; try change (zlen (@nil byte)) with 0; lia. }
  split; [done|]. unfold admit_build, admit_capacity in Ha. rewrite Hm in Ha. inv_ok. bool_prop.
  unfold excess, bytes_left. lia.
Qed.

(** ** A tree with a directory, a hardlinked file and a symlink *)

Definition hello : bytes := bstr "hello".
Definition sample_entries : list Entry :=
  [mkEntry (str ".") 0x41ed 0 0 0 (str "directory") None None None;
   mkEntry (str "a") 0x81a4 1000 1000 5 (str "regular") (Some (sha256 hello)) None (Some (str "h0011223344556677"));
   mkEntry (str "b") 0x81a4 1000 1000 5 (str "regular") (Some (sha256 hello)) None (Some (str "h0011223344556677"));
   mkEntry (str "l") 0xa1ff 0 0 1 (str "symlink") None (Some (str "a")) None].
Definition sample_contents : contents_t := [(str "a", hello); (str "b", hello); (str "l", bstr "a")].

(** A codec that stores its input behind the header gzip writes. *)
Definition stored (data : bytes) : bytes := [x1f; x8b; x08; x00; x00; x00; x00; x00; x02; xff] ++ data.
Definition unstored (data : bytes) : res bytes := Ok (drop 10 data).

Lemma stored_header data : header_deterministic (stored data) = true.
Proof.
  unfold header_deterministic. replace (10 <=? zlen (stored data)) with true; [done|].
  symmetry. apply Z.leb_le. unfold stored. rewrite zlen_app. pose proof (zlen_nonneg data).
  change (zlen [x1f; x8b; x08; x00; x00; x00; x00; x00; x02; xff]) with 10. lia.
Qed.

Lemma sample_entry contents e raw :
  fsdecode raw = Ok (e_path e) -> bool_decide (raw <> []) && (zlen raw + 1 <? 2 ^ 32) && safe_name (e_path e)
    && negb (e_path e =s str "TRAILER!!!") && (0 <=? e_mode e) && (e_mode e <? 2 ^ 16) && (0 <=? e_uid e)
    && (e_uid e <? 2 ^ 32) && (0 <=? e_gid e) && (e_gid e <? 2 ^ 32) = true ->
  regular_ok contents e \/ directory_ok contents e \/ symlink_ok contents e -> entry_ok contents e.
Proof.
  intros Hd Hb Hk. bool_prop. apply str_eqb_neq in H6. pose proof (zlen_nonneg raw).
  constructor; try done; unfold u32_ok; try lia. exists raw. unfold os_name, u32_ok. split_and!; [done|done|lia|lia].
Qed.

Lemma sample_tree : tree_ok sample_entries sample_contents.
Proof.
  constructor.
  - unfold sample_entries. repeat apply list.Forall_cons_2; [..|apply list.Forall_nil_2].
    + apply (sample_entry _ _ (bstr ".")); [reflexivity|reflexivity|]. right; left. done.
    + apply (sample_entry _ _ (bstr "a")); [reflexivity|reflexivity|]. left. exists hello.
      split_and!; try done. by intros h [= <-].
    + apply (sample_entry _ _ (bstr "b")); [reflexivity|reflexivity|]. left. exists hello.
      split_and!; try done. by intros h [= <-].
    + apply (sample_entry _ _ (bstr "l")); [reflexivity|reflexivity|]. right; right. by exists (bstr "a"), (str "a").
  - apply distinct_NoDup. reflexivity.
  - reflexivity.
  - intros e1 e2 h H1 H2 E1 E2. unfold sample_entries in *.
    repeat (apply elem_of_cons in H1 as [->|H1]; [|]); try (by inversion H1); try done;
    repeat (apply elem_of_cons in H2 as [->|H2]; [|]); try (by inversion H2); done.
Qed.

Lemma build_then_verify_witness : exists archive,
  write_newc sample_entries sample_contents = Ok archive /\
  verify unstored (stored archive) (manifest sample_entries) =
  Ok (Summary (sha256 (stored archive)) (sha256 (manifest sample_entries)) (zlen sample_entries) (zlen archive)).
Proof. apply (build_then_verify stored unstored (fun data => eq_refl) stored_header). exact sample_tree. Defined.

Lemma sample_sizes :
  match write_newc sample_entries sample_contents with
  | Ok archive => match parse_newc archive with Ok actual => forallb (fun r => 0 <=? n_size r) actual | Err _ => false end
  | Err _ => false
  end = true.
Proof. vm_compute. reflexivity. Qed.

Lemma verified_archive_witness : exists archive s unpacked actual wanted,
  write_newc sample_entries sample_contents = Ok archive /\
  unstored (stored archive) = Ok unpacked /\ parse_newc unpacked = Ok actual /\
  manifest_entries (manifest sample_entries) = Ok (map VDict wanted) /\
  entry_count s = zlen actual /\ uncompressed_bytes s = zlen unpacked /\
  NoDup (map n_path actual) /\ Forall (fun r => safe_name (n_path r) = true) actual /\
  map (fun d => get d (str "path")) wanted = map VStr (map n_path actual) /\
  Forall2 (describes actual) wanted actual /\ Forall (fun r => zlen (n_data r) = n_size r) actual.
Proof.
  destruct (build_then_verify_aux stored unstored (fun data => eq_refl) stored_header _ _ sample_tree) as (archive & Hw & V).
  exists archive. eexists.
  destruct (verified_archive unstored _ _ _ V) as (u & a & w & Hu & Hp & He & Hc & Hb & Hn & Hf & Hm & Hd & Hs).
  exists u, a, w. refine (conj Hw (conj Hu (conj Hp (conj He (conj Hc (conj Hb (conj Hn (conj Hf (conj Hm (conj Hd _)))))))))).
  apply Hs, list.Forall_forall. intros r Hr.
  pose proof sample_sizes as Hsz. rewrite Hw in Hsz. change (Ok archive = Ok u) in Hu. injection Hu as <-. rewrite Hp in Hsz.
  rewrite forallb_elem in Hsz. by apply Z.leb_le, Hsz.
Defined.

Lemma safe_target_follows_witness : startswith (str "../x") (str "/") = false /\
  _safe_target (str "d/l") (str "../x") = true /\ _safe_target (str "l") (str "../x") = false.
Proof.
  assert (startswith (str "../x") (str "/") = false) as H by reflexivity.
  split; [exact H|]. split.
  - apply (safe_target_follows (str "d/l") (str "../x") H). eexists. vm_compute. reflexivity.
  - reflexivity.
Defined.

Definition sample_capacity : statvfs := Statvfs 100 4096 10.
Definition sample_arguments : arguments := Arguments_ false 0 0 4096 4.

Lemma admitted_build_fits_witness : exists archive,
  write_newc sample_entries sample_contents = Ok archive /\ zlen archive <= worst_case_archive sample_entries /\
  4096 - excess stored sample_entries archive <= bytes_left stored sample_capacity sample_entries archive.
Proof.
  destruct (write_newc sample_entries sample_contents) as [archive|] eqn:E; [|vm_compute in E; discriminate E].
  exists archive. split; [done|].
  apply (admitted_build_fits stored sample_arguments sample_capacity sample_entries sample_contents archive sample_tree
    eq_refl eq_refl E).
  repeat apply list.Forall_cons_2; [..|apply list.Forall_nil_2]; intros raw Hr; vm_compute in Hr; injection Hr as <-;
    vm_compute; discriminate.
Defined.

(** Names or targets above 395 bytes can exceed the estimate the admission check
    uses: a symlink's target is part of the archive but not of [payload_bytes]. *)
Definition long_target : bytes := repeat x61 2000.
Definition long_link : Entry :=
  mkEntry (str "l") 0xa1ff 0 0 2000 (str "symlink") None (Some (repeat 97 2000)) None.

Example estimate_exceeded :
  match write_newc [long_link] [(str "l", long_target)] with
  | Ok archive => worst_case_archive [long_link] <? zlen archive
  | Err _ => false
  end = true.
Proof. vm_compute. reflexivity. Qed.

(** An admitted build that does not leave the configured reserve: the archive is within
    the estimate, but the manifest is written to the same file system and is not part
    of it. *)
Definition long_directory (c : Z) : Entry :=
  mkEntry (c :: repeat 97 389) 0x41ed 0 0 0 (str "directory") None None None.
Definition long_directories : list Entry := map long_directory [98; 99; 100].

Example reserve_not_kept :
  admit_build sample_arguments (Statvfs 7000 1 10) long_directories = Ok tt /\
  match write_newc long_directories [] with
  | Ok archive => (zlen archive <=? worst_case_archive long_directories)
                  && (bytes_left (fun data => data) (Statvfs 7000 1 10) long_directories archive
                      <? min_free_bytes sample_arguments)
  | Err _ => false
  end = true.
Proof. split; vm_compute; reflexivity. Qed.

(** A file at the root named as the trailer is written by the builder and ends the
    archive for every reader: the verifier refuses what the builder made. *)
Definition trailer_file : Entry :=
  mkEntry (str "TRAILER!!!") 0x81a4 0 0 5 (str "regular") (Some (sha256 hello)) None None.

Example trailer_name_written :
  (let! archive := write_newc [trailer_file] [(str "TRAILER!!!", hello)] in parse_newc archive)
  = raise VerificationError "invalid data after newc trailer".
Proof. vm_compute. reflexivity. Qed.
End RootfsSafe.
