(* ===== verification/RootfsScan.v ===== *)
(** * Reading a root directory into an archive
    (the file-system part of scripts/build-runtime-rootfs.py)

    [_scan_held] walks the tree below an open directory, refuses what the archive
    cannot describe, reads every file with its identity checked on both sides of the
    read, and walks the tree once more at the end.  [main] checks the limits, publishes
    the archive and then the manifest, and takes the archive back when the manifest
    cannot be published. *)
From Stdlib Require Import ZArith Lia.
From Stdlib Require Import Init.Byte.
From stdpp Require Import base list sets strings option gmap.
From S2P Require Import Prelude PyStr PyVal Bytes Json Sys Held Publish Rootfs.

Open Scope string_scope.
Open Scope list_scope.
Open Scope Z_scope.

(** [sorted(l, key=lambda x: os.fsencode(name(x)), reverse=...)]: equal keys keep their
    order. *)
Definition sorted_by_fsencode {A} (reverse : bool) (name : A -> pystr) (l : list A) : res (list A) :=
  let! keyed := map_res (fun x => let! raw := fsencode (name x) in Ok (map b2z raw, x)) l in
  Ok (map snd (sort_by (fun a b => if reverse then str_leb b.1 a.1 else str_leb a.1 b.1) keyed)).

Module RootfsScan.
Export BuildRootfs.

Definition OVERLAY_OPAQUE_XATTRS : list pystr := strs ["trusted.overlay.opaque"; "user.overlay.opaque"].

Definition _identity (value : stat_result) : list Z :=
  [st_dev value; st_ino value; st_mode value; st_uid value; st_gid value; st_size value;
   st_mtime_ns value; st_ctime_ns value].

(** A node of the first walk: its name below the root, its path, and its [stat]. *)
Record raw_entry := RawEntry { r_relative : pystr; r_path : path; r_info : stat_result }.

Definition child_relative (relative name : pystr) : pystr :=
  if relative =s str "." then name else relative ++ str "/" ++ name.

Section scan.
Context `{machine}.

(** Is this the synthetic root, whose link is followed? *)
Definition is_root (relative : pystr) : bool := relative =s str ".".

Definition _read_stable (fd : Z) (p : path) (before : stat_result) : M bytes :=
  let* stream := held_open fd p in
  let* r := mfinally
    (let* data := read_fd stream in let* after_fd := fstat stream in mret (data, after_fd))
    (close stream) in
  let* after_path := held_stat false fd p in
  mraise_if (negb (bool_decide (_identity before = _identity r.2))
             || negb (bool_decide (_identity before = _identity after_path)))
    RootFSError "input mutated while reading" ;;;
  mret r.1.

Definition _entry_stat (fd : Z) (p : path) (relative : pystr) : M stat_result := held_stat (is_root relative) fd p.

(** The names in a directory, the greatest encoding first. *)
Definition sorted_children (fd : Z) (p : path) : M (list pystr) :=
  let* names := held_listdir fd p in lift (sorted_by_fsencode true id names).

(** The children are pushed in that order, so that the smallest is on top. *)
Definition push_children (relative : pystr) (current : path) (stack : list (pystr * path)) (children : list pystr)
    : list (pystr * path) :=
  foldl (fun stack child => (child_relative relative child, current ++ [child]) :: stack) stack children.

(** *** The walk at the end *)

Definition observed_t : Type := list (pystr * list Z).

Definition revalidate_turn (fd : Z) (s : list (pystr * path) * observed_t)
    : M ((list (pystr * path) * observed_t) + observed_t) :=
  match s with
  | ([], observed) => mret (inr observed)
  | ((relative, current) :: stack, observed) =>
      let* info := _entry_stat fd current relative in
      let observed := aset relative (_identity info) observed in
      if s_isdir (st_mode info) then
        let* children := sorted_children fd current in
        mret (inl (push_children relative current stack children, observed))
      else mret (inl (stack, observed))
  end.

Definition _revalidate_tree (fd : Z) (raw : list raw_entry) : M unit :=
  let expected := foldl (fun d r => aset (r_relative r) (_identity (r_info r)) d) [] raw in
  let* observed := os_error_as RootFSError "input tree mutated during final validation"
    (mwhile (revalidate_turn fd) ([(str ".", [])], [])) in
  mraise_if (negb (set_eq (map fst expected) (map fst observed)))
    RootFSError "input tree membership mutated during build" ;;;
  mfor_each (fun _ kv =>
      match alookup kv.1 observed with
      | None => mraise KeyError ""
      | Some identity => mraise_if (negb (bool_decide (identity = kv.2))) RootFSError "input mutated during build"
      end) tt expected.

(** *** The first walk *)

Definition check_component (u : unit) (name : pystr) : res unit :=
  raise_if (mem name (strs ["."; ".."]) || has_char SLASH name || has_char NUL name)
    RootFSError "unsafe path component".

Definition walk_turn (fd : Z) (s : list (pystr * path) * list raw_entry)
    : M ((list (pystr * path) * list raw_entry) + list raw_entry) :=
  match s with
  | ([], raw) => mret (inr raw)
  | ((relative, current) :: stack, raw) =>
      let* info := _entry_stat fd current relative in
      let raw := raw ++ [RawEntry relative current info] in
      if s_isdir (st_mode info) then
        let* children := os_error_as RootFSError "cannot scan" (sorted_children fd current) in
        lift (for_each check_component tt children) ;;;
        mret (inl (push_children relative current stack children, raw))
      else mret (inl (stack, raw))
  end.

(** *** Hard links *)

Definition inode_key (r : raw_entry) : Z * Z := (st_dev (r_info r), st_ino (r_info r)).

Definition groups_t : Type := list ((Z * Z) * list pystr).

Definition note_link (groups : groups_t) (r : raw_entry) : groups_t :=
  if s_isreg (st_mode (r_info r)) && (1 <? st_nlink (r_info r)) then
    aset (inode_key r) (default [] (alookup (inode_key r) groups) ++ [r_relative r]) groups
  else groups.
Definition hardlink_groups (raw : list raw_entry) : groups_t := foldl note_link [] raw.

(** ["h" + hashlib.sha256("\0".join(paths).encode()).hexdigest()[:16]] *)
Definition hardlink_id (paths : list pystr) : res pystr :=
  let! encoded := utf8_encode Strict (join_with NUL paths) in Ok (str "h" ++ take 16 (sha256 encoded)).

Definition hardlink_ids (groups : groups_t) : res (list ((Z * Z) * pystr)) :=
  map_res (fun kv => let! i := hardlink_id kv.2 in Ok (kv.1, i)) groups.

(** [next(...)] of the nodes with this identity. *)
Definition check_group (raw : list raw_entry) (u : unit) (kv : (Z * Z) * list pystr) : res unit :=
  match List.find (fun r => bool_decide (inode_key r = kv.1)) raw with
  | None => raise RuntimeError "StopIteration"
  | Some r => raise_if (negb (st_nlink (r_info r) =? zlen kv.2)) RootFSError "hardlink group crosses the root boundary"
  end.

(** *** The entries *)

(** The only extended attribute that may be present is the overlay's opacity mark, on a
    directory. *)
Definition check_xattrs (fd : Z) (r : raw_entry) : M unit :=
  let* xattrs := os_error_as RootFSError "cannot inspect xattrs"
    (held_listxattr (is_root (r_relative r)) fd (r_path r)) in
  mraise_if (existsb (fun x => negb (mem x OVERLAY_OPAQUE_XATTRS)) xattrs) RootFSError "unsupported xattrs" ;;;
  mfor_each (fun _ name =>
      let* value := os_error_as RootFSError "cannot inspect overlay opacity"
        (held_getxattr (is_root (r_relative r)) fd (r_path r) name) in
      mraise_if (negb (s_isdir (st_mode (r_info r))) || negb (bool_decide (value = bstr "y" \/ value = bstr "x")))
        RootFSError "malformed overlay opacity metadata")
    tt (List.filter (fun x => mem x OVERLAY_OPAQUE_XATTRS) xattrs).

(** The fields of a symbolic link's [stat] that must not change while it is read. *)
Definition link_identity (value : stat_result) : list Z :=
  [st_dev value; st_ino value; st_mode value; st_uid value; st_gid value; st_mtime_ns value; st_ctime_ns value].

Definition scan_entry (fd : Z) (ids : list ((Z * Z) * pystr)) (s : list Entry * contents_t) (r : raw_entry)
    : M (list Entry * contents_t) :=
  let '(entries, contents) := s in
  let relative := r_relative r in
  let info := r_info r in
  check_xattrs fd r ;;;
  if s_isdir (st_mode info) then
    mret (entries ++ [mkEntry relative (st_mode info) (st_uid info) (st_gid info) 0 (str "directory") None None None], contents)
  else if s_isreg (st_mode info) then
    let* data := _read_stable fd (r_path r) info in
    mret (entries ++ [mkEntry relative (st_mode info) (st_uid info) (st_gid info) (zlen data) (str "regular")
                        (Some (sha256 data)) None (alookup (inode_key r) ids)],
          aset relative data contents)
  else if s_islnk (st_mode info) then
    let* target := held_readlink fd (r_path r) in
    let* after := held_stat false fd (r_path r) in
    mraise_if (negb (bool_decide (link_identity info = link_identity after)))
      RootFSError "input symlink mutated while reading" ;;;
    mraise_if (negb (_safe_target relative target)) RootFSError "escaping symlink" ;;;
    let* encoded := lift (fsencode target) in
    mret (entries ++ [mkEntry relative (st_mode info) (st_uid info) (st_gid info) (zlen encoded) (str "symlink")
                        None (Some target) None],
          aset relative encoded contents)
  else mraise RootFSError "unsupported file type".

Definition _scan_held (fd : Z) : M (list Entry * contents_t) :=
  let* walked := mwhile (walk_turn fd) ([(str ".", [])], []) in
  let* raw := lift (sorted_by_fsencode false r_relative walked) in
  let groups := hardlink_groups raw in
  let* ids := lift (hardlink_ids groups) in
  lift (for_each (check_group raw) tt groups) ;;;
  let* result := mfor_each (scan_entry fd ids) ([], []) raw in
  _revalidate_tree fd raw ;;;
  mret result.

Definition scan (root : Publish.directory_ref) : M (list Entry * contents_t) :=
  let* root_fd := os_error_as RootFSError "cannot open root directory without following symlinks"
    (Publish.open_directory_nofollow root) in
  mfinally (_scan_held root_fd) (close root_fd).

(** *** The program

    [statvfs] of a path and the pieces in which [GzipFile] writes the compressed stream
    are parameters; [names] are the random suffixes of the two temporary files. *)
Context (statvfs_at : fs -> path -> res statvfs) (compress : bytes -> list bytes).

(** The values of the JSON line that [main] prints. *)
Record report := Report {
  rep_manifest_sha256 : pystr; rep_initramfs_sha256 : option pystr; rep_entries : Z; rep_payload_bytes : Z }.

Definition archive (entries : list Entry) (contents : contents_t) (stream : Z) : M unit :=
  let* raw := lift (write_newc entries contents) in Publish.write_chunks stream (compress raw).

Definition publish_manifest (candidates : list pystr) (p : path) (encoded : bytes) : M Publish.identity :=
  Publish.atomic_write candidates p (fun stream => Publish.write_chunks stream [encoded]).

Definition main (args : arguments) (names : list pystr * list pystr) (root : Publish.directory_ref)
    (output manifest_path : path) : M report :=
  let* scanned := scan root in
  let '(entries, contents) := scanned in
  lift (admit_limits args entries) ;;;
  let encoded_manifest := manifest entries in
  let* capacity := query (fun f =>
    statvfs_at f (Publish.parent_of (if manifest_only args then manifest_path else output))) in
  lift (admit_capacity args capacity entries) ;;;
  if manifest_only args then
    publish_manifest names.2 manifest_path encoded_manifest ;;;
    mret (Report (sha256 encoded_manifest) None (zlen entries) (payload_bytes entries))
  else
    let* archive_identity := Publish.atomic_write names.1 output (archive entries contents) in
    mcatch (publish_manifest names.2 manifest_path encoded_manifest ;;; mret tt)
      (fun e => Publish.remove_if_identity output archive_identity ;;; reraise e) ;;;
    let* published := read_bytes output in
    mret (Report (sha256 encoded_manifest) (Some (sha256 published)) (zlen entries) (payload_bytes entries)).
End scan.
End RootfsScan.
