(* ===== verification/RootfsScanSafe.v ===== *)
(** * What a scanned root directory is

    On a machine where no other process runs (and any system call may fail), a scan
    that returns describes the whole tree below the root, each node once, in the order
    of the encoded names, with complete hard-link groups; and what the builder writes
    for it, the verifier accepts. *)
From Stdlib Require Import ZArith Lia.
From Stdlib Require Import Init.Byte Sorting.Sorted.
From stdpp Require Import base list sets strings option gmap.
From S2P Require Import Prelude PyStr PyVal Bytes Json JsonTrip Sys Held FsRules Publish Rootfs RootfsTrip RootfsScan.

Open Scope string_scope.
Open Scope list_scope.
Open Scope Z_scope.

Module RootfsScanSafe.
Import VerifyRootfs RootfsTrip.
Export RootfsScan.

(** ** Well-formed file systems *)

(** Every name is in a directory and has a component's text, refers to a node, and a
    directory has one name only. *)
Record fs_wf (f : fs) : Prop := {
  wf_parent : forall k c i, names f !! (k ++ [c]) = Some i -> is_dir_at f k = true /\ plain_name c = true;
  wf_node : forall k i, names f !! k = Some i -> is_Some (nodes f !! i);
  wf_one : forall k k' i, names f !! k = Some i -> names f !! k' = Some i -> is_dir_at f k = true -> k = k' }.

Section well_formed.
Context (f : fs) (Hwf : fs_wf f).

Lemma dir_named k : is_dir_at f k = true -> exists i, names f !! k = Some i.
Proof. unfold is_dir_at, node_at. destruct (names f !! k); [eauto|done]. Qed.

Lemma named_parent k c i : names f !! (k ++ [c]) = Some i -> exists j, names f !! k = Some j.
Proof. intros Hk. apply (wf_parent f Hwf) in Hk as [Hd _]. by apply dir_named. Qed.

Lemma named_dirs k i : names f !! k = Some i -> forall q, q `prefix_of` k -> q <> k -> is_dir_at f q = true.
Proof.
  revert i; induction k as [|c k IH] using rev_ind; intros i Hk q Hq Hne.
  - by apply prefix_nil_inv in Hq.
  - destruct (wf_parent f Hwf _ _ _ Hk) as [Hd _]. destruct (dir_named _ Hd) as [j Hj].
    destruct Hq as [r Hr]. destruct r as [|x r _] using rev_ind; [by rewrite app_nil_r in Hr|].
    rewrite app_assoc in Hr. apply app_inj_tail in Hr as [Hr _]. destruct (decide (q = k)) as [->|Hqk]; [done|].
    apply (IH j Hj); [by exists r|done].
Qed.

Lemma named_plain k i : names f !! k = Some i -> plain_path k.
Proof.
  revert i; induction k as [|c k IH] using rev_ind; intros i Hk; [constructor|].
  destruct (wf_parent f Hwf _ _ _ Hk) as [Hd Hc]. destruct (dir_named _ Hd) as [j Hj].
  apply plain_app. split; [by eapply IH|by constructor].
Qed.

Lemma dir_real k : is_dir_at f k = true -> real_dir f k.
Proof.
  intros Hd q Hq. destruct (dir_named _ Hd) as [i Hi]. destruct (decide (q = k)) as [->|]; [done|]. by eapply named_dirs.
Qed.

Lemma named_prefix k i q : names f !! k = Some i -> q `prefix_of` k -> exists j, names f !! q = Some j.
Proof.
  intros Hk Hq. destruct (decide (q = k)) as [->|Hne]; [eauto|]. by eapply dir_named, named_dirs.
Qed.

Lemma named_at k i : names f !! k = Some i -> exists n, node_at f k = Some (i, n).
Proof. intros Hk. destruct (wf_node f Hwf _ _ Hk) as [n Hn]. exists n. unfold node_at. by rewrite Hk, Hn. Qed.

(** A name is its own location. *)
Lemma named_resolve k i : names f !! k = Some i -> resolve f false k = Ok k.
Proof.
  intros Hk. pose proof (named_plain _ _ Hk) as Hp. destruct k as [|c k _] using rev_ind; [done|].
  apply resolve_child; [done|]. apply dir_real. by eapply (wf_parent f Hwf).
Qed.

Lemma location_of_dir k i : names f !! k = Some i -> is_dir_at f k = true -> location_of f i = Some k.
Proof.
  intros Hk Hd. unfold location_of. destruct (List.find _ _) as [[k' j]|] eqn:Hf.
  - apply find_some in Hf as [Hin Hj]. simpl in Hj. apply Z.eqb_eq in Hj as ->.
    apply list_elem_of_In, elem_of_map_to_list in Hin. simpl. f_equal. symmetry. by eapply (wf_one f Hwf).
  - exfalso. eapply find_none in Hf; [|by apply list_elem_of_In, elem_of_map_to_list]. simpl in Hf. lia.
Qed.

(** ** The children of a directory *)

Lemma child_of_spec d k c : child_of d k = Some c <-> k = d ++ [c].
Proof.
  unfold child_of, below. split.
  - destruct (drop (length d) k) as [|x [|]] eqn:Hd; try done. case_bool_decide as Hp; [|done]. intros [= ->].
    destruct Hp as [r ->]. by rewrite drop_app_length in Hd; subst r.
  - intros ->. rewrite drop_app_length. rewrite bool_decide_true; [done|by eexists].
Qed.

Definition children (d : path) : list pystr := omap (fun kv => child_of d kv.1) (map_to_list (names f)).

Lemma elem_children d c : c ∈ children d <-> exists i, names f !! (d ++ [c]) = Some i.
Proof.
  unfold children. rewrite list_elem_of_omap. split.
  - intros ([k i] & Hin & Hc). apply elem_of_map_to_list in Hin. cbn [fst] in Hc. apply child_of_spec in Hc. subst k. eauto.
  - intros [i Hi]. exists (d ++ [c], i). split; [by apply elem_of_map_to_list|by apply child_of_spec].
Qed.

Lemma children_nodup d : NoDup (children d).
Proof.
  unfold children. pose proof (NoDup_fst_map_to_list (names f)) as Hnd. revert Hnd.
  induction (map_to_list (names f)) as [|[k i] l IH]; simpl; intros Hnd; [constructor|].
  apply NoDup_cons in Hnd as [Hk Hl]. destruct (child_of d k) as [c|] eqn:Hc; [|by apply IH]. apply NoDup_cons. split; [|auto].
  intros Hin. apply list_elem_of_omap in Hin as ([k' j] & Hin & Hc'). simpl in Hc'.
  apply child_of_spec in Hc, Hc'. subst. apply Hk. apply list_elem_of_fmap. by eexists (_, j).
Qed.
End well_formed.

Lemma forall2_impl_in {A B} (P Q : A -> B -> Prop) l m :
  (forall x y, x ∈ l -> P x y -> Q x y) -> Forall2 P l m -> Forall2 Q l m.
Proof.
  intros Hi Hf. induction Hf as [|x y l m Hx _ IH]; constructor; [apply Hi; [left|done]|].
  apply IH. intros ? ? ?. apply Hi. by right.
Qed.

(** ** Sorting by the encoded name *)

Lemma sorted_by_fsencode_perm {A} reverse (name : A -> pystr) l l' :
  sorted_by_fsencode reverse name l = Ok l' -> l' ≡ₚ l.
Proof.
  unfold sorted_by_fsencode. intros Hs. inv_ok. rewrite sort_by_perm. apply map_res_ok in E.
  clear -E. induction E as [|x y l m Hx _ IH]; simpl; [done|]. inv_ok. by simpl; rewrite IH.
Qed.

Definition encoded_before (a b : pystr) : Prop :=
  exists ra rb, fsencode a = Ok ra /\ fsencode b = Ok rb /\ str_leb (map b2z ra) (map b2z rb) = true.

Lemma sorted_by_fsencode_sorted {A} (name : A -> pystr) l l' :
  sorted_by_fsencode false name l = Ok l' -> StronglySorted encoded_before (map name l').
Proof.
  unfold sorted_by_fsencode. intros Hs. inv_ok. rename a into keyed.
  pose proof (sort_by_sorted (fun a b => str_leb a.1 b.1) ltac:(intros ? ?; apply str_leb_total)
    ltac:(intros ? ? ?; apply str_leb_trans) keyed) as Hsort.
  assert (Forall (fun kx => exists raw, fsencode (name kx.2) = Ok raw /\ kx.1 = map b2z raw)
            (sort_by (fun a b : list Z * A => str_leb a.1 b.1) keyed)) as Hkeys.
  { apply list.Forall_forall. intros kx Hin. rewrite sort_by_perm in Hin. apply map_res_ok in E.
    apply list_elem_of_lookup in Hin as [j Hj]. destruct (Forall2_lookup_r _ _ _ _ _ E Hj) as (x & _ & Hx).
    cbv beta in Hx. inv_ok. eauto. }
  revert Hsort Hkeys. generalize (sort_by (fun a b : list Z * A => str_leb a.1 b.1) keyed). clear.
  induction 1 as [|[k x] l Hl IH Hx]; intros Hk; simpl; [constructor|].
  apply Forall_cons_iff in Hk as [(ra & Hra & Hka) Hk]. constructor; [auto|]. simpl in *. subst k.
  rewrite map_map. apply Forall_map. rewrite list.Forall_forall in Hx, Hk |- *. intros [k y] Hy.
  destruct (Hk _ Hy) as (rb & Hrb & Hkb). specialize (Hx _ Hy). simpl in *. subst k. by exists ra, rb.
Qed.

(** ** The tree below a directory *)

(** The name of a node below the root. *)
Definition text (p : path) : pystr := match p with [] => str "." | _ => join_with SLASH p end.
Definition clean (p : path) : Prop := Forall (fun c => SLASH ∉ c) p.

Lemma text_split p : p <> [] -> clean p -> split_on SLASH (text p) = p.
Proof. intros Hp Hc. destruct p; [done|]. by apply split_join. Qed.

Lemma text_root p : plain_path p -> clean p -> is_root (text p) = true -> p = [].
Proof.
  intros Hp Hc Hr. apply str_eqb_eq in Hr. destruct p as [|c p]; [done|]. exfalso.
  pose proof (text_split (c :: p) ltac:(done) Hc) as Hs. rewrite Hr in Hs. change (split_on SLASH (str ".")) with [str "."] in Hs.
  injection Hs as <- _. apply Forall_cons_iff in Hp as [Hp _]. done.
Qed.

Lemma text_inj p q : plain_path p -> clean p -> plain_path q -> clean q -> text p = text q -> p = q.
Proof.
  intros Hp Hcp Hq Hcq He. destruct (decide (p = [])) as [->|Hne].
  - symmetry. apply text_root; [done|done|]. rewrite <-He. done.
  - destruct (decide (q = [])) as [->|Hnq]; [exfalso; apply Hne, text_root; [done|done|by rewrite He]|].
    rewrite <-(text_split p), <-(text_split q), He; done.
Qed.

Lemma text_child p c : plain_path p -> clean p -> child_relative (text p) c = text (p ++ [c]).
Proof.
  intros Hp Hc. unfold child_relative. change (text p =s str ".") with (is_root (text p)).
  destruct (is_root (text p)) eqn:Hr; [by rewrite (text_root p)|].
  destruct p as [|x p]; [done|]. unfold text. cbn [app]. change (x :: p ++ [c]) with ((x :: p) ++ [c]). by rewrite join_app.
Qed.

(** Reading a file through a path that names it. *)
Lemma obs_read_stable `{machine} (Hquiet : quiet) f fd p i n d :
  held_node true f fd p = Ok (i, n) -> nodes f !! i = Some n -> i_kind n = KFile d ->
  observes f (_read_stable fd p (stat_of i n)) (fun data => data = d).
Proof.
  intros Hp Hn Hk. unfold _read_stable. eapply obs_bind; [by apply obs_query|]. intros fd' Hfd. cbv beta in Hfd.
  unfold fs_held_open in Hfd. rewrite Hp in Hfd. injection Hfd as <-. cbn [fst].
  eapply (obs_bind f _ (fun r => r.1 = d)).
  { apply obs_finally; [|eapply obs_any; by apply obs_query]. eapply obs_bind; [by apply obs_query|]. intros data Hd. cbv beta in Hd.
    eapply obs_bind; [by apply obs_query|]. intros after _. apply obs_ret. simpl.
    unfold fs_read in Hd. rewrite Hn, Hk in Hd. congruence. }
  intros [data after] Hd. simpl in Hd. subst data. eapply obs_bind; [by eapply obs_query|]. intros after' _.
  eapply obs_bind; [by apply obs_raise_if|]. intros _ _. by apply obs_ret.
Qed.

Lemma obs_os_error_as {A} `{machine} f c m (body : M A) phi : observes f body phi -> observes f (os_error_as c m body) phi.
Proof. intros Hb. apply obs_catch; [done|]. intros e. destruct (is_os_error _); [apply obs_raise|apply obs_reraise]. Qed.

Section walk.
Context `{machine} (Hquiet : quiet) (f : fs) (Hwf : fs_wf f) (loc : path) (fd : Z).
Context (Hroot : names f !! loc = Some fd) (Hdir : is_dir_at f loc = true).

(** A node of the tree. *)
Definition present (p : path) (i : Z) (n : inode) : Prop := node_at f (loc ++ p) = Some (i, n).

Lemma present_named p i n : present p i n -> names f !! (loc ++ p) = Some i /\ nodes f !! i = Some n.
Proof. apply node_at_nodes. Qed.

Lemma present_plain p i n : present p i n -> plain_path p.
Proof. intros [Hp _]%present_named. apply (named_plain f Hwf), plain_app in Hp. by destruct Hp. Qed.

Lemma held_location : location_of f fd = Some loc.
Proof. by apply location_of_dir. Qed.

Lemma held_spec follow p i n : present p i n -> (follow = true -> not_link (i_kind n)) -> held_node follow f fd p = Ok (i, n).
Proof.
  intros Hp Hf. pose proof (present_named _ _ _ Hp) as [Hn Hi]. unfold held_node. destruct p as [|c p].
  - rewrite app_nil_r in Hn. simplify_eq. by rewrite Hi.
  - unfold held_path. rewrite held_location. pose proof (named_resolve f Hwf _ _ Hn) as Hr.
    assert (resolve f follow (loc ++ c :: p) = Ok (loc ++ c :: p)) as ->; [|by rewrite Hp].
    destruct follow; [|done]. by eapply resolve_nonlink; [..|apply Hf].
Qed.

(** The root is a directory: following its link changes nothing. *)
Lemma root_not_link i n : present [] i n -> i_kind n = KDir.
Proof.
  unfold present. rewrite app_nil_r. intros Hn. unfold is_dir_at in Hdir. rewrite Hn in Hdir. by destruct (i_kind n).
Qed.

Lemma follow_ok p i n : present p i n -> clean p -> is_root (text p) = true -> not_link (i_kind n).
Proof.
  intros Hp Hc Hr. assert (p = []) as -> by (apply text_root; [by eapply present_plain|done|done]).
  by rewrite (root_not_link i n Hp).
Qed.

Lemma obs_held_stat follow p i n : present p i n -> (follow = true -> not_link (i_kind n)) ->
  observes f (held_stat follow fd p) (fun s => s = stat_of i n).
Proof.
  intros Hp Hf. eapply obs_conseq; [by apply obs_query|]. intros s. cbv beta. unfold fs_held_stat.
  rewrite (held_spec follow p i n) by done. simpl. by intros [= <-].
Qed.

Lemma obs_entry_stat p i n : present p i n -> clean p -> observes f (_entry_stat fd p (text p)) (fun s => s = stat_of i n).
Proof. intros Hp Hc. apply obs_held_stat; [done|]. by eapply follow_ok. Qed.

Lemma held_listdir_children p i n : present p i n -> i_kind n = KDir -> fs_held_listdir f fd p = Ok (children f (loc ++ p)).
Proof.
  intros Hp Hk. unfold fs_held_listdir. rewrite (held_spec true p i n); [|done|by rewrite Hk]. cbn [snd mbind].
  rewrite Hk, held_location. unfold fs_listdir. destruct (present_named _ _ _ Hp) as [Hn _].
  rewrite (resolve_nonlink f (loc ++ p) (loc ++ p) i n); [|by eapply named_resolve|done|by rewrite Hk].
  unfold present in Hp. by rewrite Hp, Hk.
Qed.

Lemma obs_children p i n : present p i n -> i_kind n = KDir ->
  observes f (sorted_children fd p) (fun cs => cs ≡ₚ children f (loc ++ p)).
Proof.
  intros Hp Hk. eapply obs_bind; [by apply obs_query|]. intros l Hl. cbv beta in Hl.
  eapply obs_conseq; [by apply obs_lift|]. intros cs Hcs. cbv beta in Hcs. apply sorted_by_fsencode_perm in Hcs.
  rewrite Hcs. rewrite (held_listdir_children p i n Hp Hk) in Hl. by injection Hl as <-.
Qed.

Lemma push_children_spec relative current stack cs :
  push_children relative current stack cs =
  map (fun c => (child_relative relative c, current ++ [c])) (rev cs) ++ stack.
Proof.
  unfold push_children. revert stack; induction cs as [|c cs IH]; intros stack; [done|]. cbn [foldl rev]. rewrite IH.
  by rewrite map_app, <-app_assoc.
Qed.

(** *** The invariant of the walk

    Every node has been seen or is below a path of the stack; no two paths of the stack
    are below each other, and none is above a node that has been seen. *)
Definition waiting (s : pystr * path) : Prop := s.1 = text s.2 /\ clean s.2 /\ exists i n, present s.2 i n.
Definition seen (r : raw_entry) : Prop :=
  r_relative r = text (r_path r) /\ clean (r_path r) /\
  exists i n, present (r_path r) i n /\ r_info r = stat_of i n.

Record walking (stack : list (pystr * path)) (raw : list raw_entry) : Prop := {
  wk_stack : Forall waiting stack;
  wk_raw : Forall seen raw;
  wk_all : forall p i, names f !! (loc ++ p) = Some i ->
    p ∈ map r_path raw \/ exists s, s ∈ stack /\ s.2 `prefix_of` p;
  wk_nodup : NoDup (map r_path raw);
  wk_apart : forall s r, s ∈ stack -> r ∈ raw -> ~ s.2 `prefix_of` r_path r;
  wk_stack_nodup : NoDup (map snd stack);
  wk_stack_apart : forall s s', s ∈ stack -> s' ∈ stack -> s.2 `prefix_of` s'.2 -> s.2 = s'.2 }.

Lemma walking_start : walking [(str ".", [])] [].
Proof.
  constructor; simpl.
  - constructor; [|constructor]. split_and!; [done|constructor|]. simpl. destruct (named_at f Hwf _ _ Hroot) as [n Hn].
    exists fd, n. unfold present. by rewrite app_nil_r.
  - constructor.
  - intros p i _. right. eexists. split; [by left|]. apply prefix_nil.
  - constructor.
  - intros s r _ Hr. by inversion Hr.
  - apply NoDup_singleton.
  - intros s s' Hs Hs'. apply list_elem_of_singleton in Hs, Hs'. by subst.
Qed.

(** Nothing is below a node that is not a directory. *)
Lemma below_dir p i n q j : present p i n -> names f !! (loc ++ q) = Some j -> p `prefix_of` q -> p <> q -> i_kind n = KDir.
Proof.
  intros Hp Hq Hpre Hne. assert (is_dir_at f (loc ++ p) = true) as Hd.
  { eapply named_dirs; [done|exact Hq|by apply prefix_app|]. intros Heq. by apply app_inv_head in Heq. }
  unfold present in Hp. unfold is_dir_at in Hd. rewrite Hp in Hd. by destruct (i_kind n).
Qed.

Lemma walking_pop relative p stack raw i n : walking ((relative, p) :: stack) raw -> present p i n ->
  let raw' := raw ++ [RawEntry relative p (stat_of i n)] in
  Forall seen raw' /\ NoDup (map r_path raw') /\
  (forall s r, s ∈ stack -> r ∈ raw' -> ~ s.2 `prefix_of` r_path r) /\
  Forall waiting stack /\ NoDup (map snd stack) /\ (forall s, s ∈ stack -> ~ p `prefix_of` s.2 /\ ~ s.2 `prefix_of` p).
Proof.
  intros [Hs Hr Ha Hn Hap Hsn Hsa] Hp raw'. apply Forall_cons_iff in Hs as [(Hrel & Hc & _) Hs]. simpl in Hrel, Hc.
  apply NoDup_cons in Hsn as [Hpn Hsn].
  assert (forall s, s ∈ stack -> ~ p `prefix_of` s.2 /\ ~ s.2 `prefix_of` p) as Hother.
  { intros s Hin. split; intros Hpre; [apply (Hsa (relative, p) s) in Hpre|apply (Hsa s (relative, p)) in Hpre];
      try (by left); try (by right); simpl in Hpre; apply Hpn; apply list_elem_of_fmap; exists s; done. }
  split_and!; [|..|done|done|done].
  - apply list.Forall_app. split; [done|]. constructor; [|done]. split_and!; [done|done|]. by exists i, n.
  - unfold raw'. rewrite map_app. apply NoDup_app. split_and!; [done| |apply NoDup_singleton]. intros x Hx Hx'.
    apply list_elem_of_singleton in Hx'. simpl in Hx'. subst x. apply list_elem_of_fmap in Hx as (r & Hx' & Hx).
    apply (Hap (relative, p) r); [by left|done|]. simpl. by rewrite Hx'.
  - intros s r Hin Hr'. apply elem_of_app in Hr' as [Hr'|Hr'%list_elem_of_singleton]; [apply Hap; [by right|done]|].
    subst r. by apply Hother.
Qed.

Lemma walking_leaf relative p stack raw i n : walking ((relative, p) :: stack) raw -> present p i n -> i_kind n <> KDir ->
  walking stack (raw ++ [RawEntry relative p (stat_of i n)]).
Proof.
  intros Hw Hp Hk. destruct (walking_pop _ _ _ _ _ _ Hw Hp) as (H1 & H2 & H3 & H4 & H5 & _). destruct Hw as [_ _ Ha _ _ _ Hsa].
  constructor; try done.
  - intros q j Hq. destruct (Ha q j Hq) as [Hin|(s & Hin & Hpre)]; [left; rewrite map_app; set_solver|].
    apply elem_of_cons in Hin as [->|Hin]; [|by right; exists s]. left. simpl in Hpre.
    destruct (decide (p = q)) as [->|Hne]; [rewrite map_app; apply elem_of_app; right; by left|].
    exfalso. apply Hk. by eapply below_dir.
  - intros s s' Hs Hs'. apply Hsa; by right.
Qed.

Lemma elem_pushed relative p cs stack s :
  s ∈ push_children relative p stack cs <-> (exists c, c ∈ cs /\ s = (child_relative relative c, p ++ [c])) \/ s ∈ stack.
Proof.
  rewrite push_children_spec, elem_of_app, list_elem_of_fmap. setoid_rewrite list_elem_of_In. setoid_rewrite <-in_rev. naive_solver.
Qed.

Lemma child_prefix (p q : path) c : p ++ [c] `prefix_of` q -> p `prefix_of` q.
Proof. intros Hq. etrans; [|exact Hq]. by eexists. Qed.

Lemma prefix_child (q p : path) c : q `prefix_of` p ++ [c] -> q `prefix_of` p \/ q = p ++ [c].
Proof.
  intros [r Hr]. destruct r as [|x r _] using rev_ind; [right; by rewrite app_nil_r in Hr|].
  rewrite app_assoc in Hr. apply app_inj_tail in Hr as [-> _]. left. by exists r.
Qed.

Lemma walking_dir relative p stack raw i n cs : walking ((relative, p) :: stack) raw -> present p i n ->
  cs ≡ₚ children f (loc ++ p) -> Forall (fun c => SLASH ∉ c) cs ->
  walking (push_children relative p stack cs) (raw ++ [RawEntry relative p (stat_of i n)]).
Proof.
  intros Hw Hp Hcs Hcl. destruct (walking_pop _ _ _ _ _ _ Hw Hp) as (H1 & H2 & H3 & H4 & H5 & H6).
  destruct Hw as [Hst _ Ha _ Hap _ Hsa]. apply Forall_cons_iff in Hst as [(Hrel & Hc & _) Hst]. simpl in Hrel, Hc.
  rewrite list.Forall_forall in Hcl.
  assert (forall c, c ∈ cs <-> exists j, names f !! (loc ++ (p ++ [c])) = Some j) as Hin.
  { intros c. rewrite Hcs, elem_children. by rewrite <-app_assoc. }
  constructor; try done.
  - apply list.Forall_forall. intros s [(c & Hcin & ->)|Hs]%elem_pushed; [|by eapply list.Forall_forall in H4].
    split_and!; simpl; [subst relative; apply text_child; [by eapply present_plain|done]| |].
    + apply list.Forall_app. split; [done|]. constructor; [auto|done].
    + apply Hin in Hcin as [j Hj]. destruct (named_at f Hwf _ _ Hj) as [m Hm]. by exists j, m.
  - intros q j Hq. destruct (Ha q j Hq) as [Hq'|(s & Hs & Hpre)]; [left; rewrite map_app; set_solver|].
    apply elem_of_cons in Hs as [->|Hs]; [|right; exists s; split; [apply elem_pushed; by right|done]]. simpl in Hpre.
    destruct Hpre as [[|c r] ->]; [left; rewrite map_app, app_nil_r; apply elem_of_app; right; by left|].
    right. exists (child_relative relative c, p ++ [c]). split; [|exists r; simpl; by rewrite <-app_assoc].
    apply elem_pushed. left. exists c. split; [|done]. apply Hin. eapply (named_prefix f Hwf); [exact Hq|].
    apply prefix_app. exists r. by rewrite <-app_assoc.
  - intros s r [(c & _ & ->)|Hs]%elem_pushed Hr; [|by apply H3]. simpl. intros Hpre.
    apply elem_of_app in Hr as [Hr|Hr%list_elem_of_singleton].
    + apply (Hap (relative, p) r); [by left|done|]. by eapply child_prefix.
    + subst r. simpl in Hpre. apply prefix_length in Hpre. rewrite length_app in Hpre. simpl in Hpre. lia.
  - rewrite push_children_spec, map_app. apply NoDup_app. split_and!; [| |done].
    + rewrite map_map. simpl. apply NoDup_fmap_2; [intros a b Heq; by apply app_inj_tail in Heq as [_ ->]|].
      rewrite <-Permutation_rev, Hcs. apply children_nodup.
    + intros q Hq Hq'. apply list_elem_of_fmap in Hq as (s & -> & Hq). apply list_elem_of_fmap in Hq as (c & -> & _).
      apply list_elem_of_fmap in Hq' as (s & Heq & Hs). simpl in Heq. apply (proj1 (H6 s Hs)). rewrite <-Heq. by eexists.
  - intros s s' [(c & _ & ->)|Hs]%elem_pushed [(c' & _ & ->)|Hs']%elem_pushed; simpl.
    + intros [r Hr]. apply (f_equal length) in Hr as Hl. rewrite !length_app in Hl. simpl in Hl.
      destruct r; [by rewrite app_nil_r in Hr|simpl in Hl; lia].
    + intros Hpre. exfalso. apply (proj1 (H6 s' Hs')). by eapply child_prefix.
    + intros [Hpre|Heq]%prefix_child; [|done]. exfalso. by apply (proj2 (H6 s Hs)).
    + intros Hpre. apply Hsa; [by right|by right|done].
Qed.

Lemma check_components cs : for_each check_component tt cs = Ok tt -> Forall (fun c => SLASH ∉ c) cs.
Proof.
  intros Hc. apply list.Forall_forall. intros c Hin. eapply for_each_check in Hc; [|done]. unfold check_component in Hc.
  inv_ok. bool_prop. unfold has_char in *. by bool_prop.
Qed.

Lemma obs_walk : observes f (mwhile (walk_turn fd) ([(str ".", [])], [])) (walking []).
Proof.
  apply (obs_while f _ (fun s => walking s.1 s.2)); [|apply walking_start]. intros [stack raw] Hw. simpl in Hw.
  destruct stack as [|[relative p] stack]; [by apply obs_ret|]. cbn [walk_turn].
  pose proof (wk_stack _ _ Hw) as Hst. apply Forall_cons_iff in Hst as [(Hrel & Hc & i & n & Hp) _]. cbn [fst snd] in *. subst relative.
  eapply obs_bind; [by apply obs_entry_stat|]. intros info ->. destruct (s_isdir _) eqn:Hd.
  - apply s_isdir_kind in Hd. eapply obs_bind; [by eapply obs_os_error_as, obs_children|]. intros cs Hcs.
    eapply obs_bind; [by apply obs_lift|]. intros [] Hck. cbv beta in Hck. apply obs_ret. simpl.
    eapply walking_dir; [done..|]. by apply check_components.
  - apply obs_ret. simpl. eapply walking_leaf; [done..|]. intros Hk. by rewrite s_isdir_stat in Hd.
Qed.

(** *** Hard links *)

Definition linked_as (k : Z * Z) (r : raw_entry) : bool :=
  s_isreg (st_mode (r_info r)) && (1 <? st_nlink (r_info r)) && bool_decide (inode_key r = k).

Lemma note_links_spec raw groups k :
  alookup k (foldl note_link groups raw) =
  match List.filter (linked_as k) raw with
  | [] => alookup k groups
  | l => Some (default [] (alookup k groups) ++ map r_relative l)
  end.
Proof.
  revert groups; induction raw as [|r raw IH]; intros groups; [done|]. cbn [foldl List.filter]. rewrite IH.
  unfold linked_as at 2, note_link. destruct (_ && _); [|done]. cbn [andb].
  rewrite alookup_aset. case_bool_decide as Hk.
  - subst k. rewrite bool_decide_true by done. cbn [map default from_option]. unfold id.
    destruct (List.filter _ raw); [done|]. by rewrite <-app_assoc.
  - by rewrite bool_decide_false.
Qed.

Lemma hardlink_groups_spec raw k : alookup k (hardlink_groups raw) =
  match List.filter (linked_as k) raw with [] => None | l => Some (map r_relative l) end.
Proof. unfold hardlink_groups. by rewrite note_links_spec. Qed.

Lemma ids_spec groups ids k : hardlink_ids groups = Ok ids ->
  match alookup k groups with
  | Some paths => exists h, alookup k ids = Some h /\ hardlink_id paths = Ok h
  | None => alookup k ids = None
  end.
Proof.
  unfold hardlink_ids. rewrite map_res_ok. induction 1 as [|[k' ps] [k2 h] groups ids Hx _ IH]; [done|]. inv_ok.
  simpl in *. case_bool_decide; [|done]. eauto.
Qed.

(** The identity of a hard-link group: its paths are all the names of the inode, and as
    many as its link count. *)
Definition link_spec (i : Z) (n : inode) (link : option pystr) : Prop :=
  if 1 <? i_nlink n then
    exists paths h, link = Some h /\ hardlink_id paths = Ok h /\ zlen paths = i_nlink n /\ NoDup paths /\
      forall x, x ∈ paths <-> exists p, names f !! (loc ++ p) = Some i /\ x = text p
  else link = None.

Section collected.
Context (raw : list raw_entry) (Hseen : Forall seen raw) (Hnodup : NoDup (map r_path raw)).
Context (Hall : forall p i, names f !! (loc ++ p) = Some i -> p ∈ map r_path raw).

Lemma raw_seen r : r ∈ raw -> seen r.
Proof. rewrite list.Forall_forall in Hseen. apply Hseen. Qed.

Lemma seen_inj r r' : seen r -> seen r' -> r_relative r = r_relative r' -> r_path r = r_path r'.
Proof.
  intros (Hr & Hc & i & n & Hp & _) (Hr' & Hc' & i' & n' & Hp' & _) Heq.
  apply text_inj; try done; [by eapply present_plain..|congruence].
Qed.

Lemma relative_nodup : NoDup (map r_relative raw).
Proof.
  clear Hall. induction raw as [|r l IH]; [constructor|]. apply Forall_cons_iff in Hseen as [Hr Hl].
  apply NoDup_cons in Hnodup as [Hn Hd]. apply NoDup_cons. split; [|auto]. intros Hin. apply Hn.
  apply list_elem_of_fmap in Hin as (r' & Heq & Hin). apply list_elem_of_fmap. exists r'. split; [|done].
  apply seen_inj; [done| |done]. rewrite list.Forall_forall in Hl. auto.
Qed.

Lemma present_raw p i n : present p i n -> exists r, r ∈ raw /\ r_path r = p /\ r_relative r = text p /\ r_info r = stat_of i n.
Proof.
  intros Hp. destruct (present_named _ _ _ Hp) as [Hn _]. apply Hall, list_elem_of_fmap in Hn as (r & -> & Hr).
  exists r. destruct (raw_seen r Hr) as (H1 & _ & i' & n' & Hp' & H2). unfold present in *. rewrite Hp in Hp'. by simplify_eq.
Qed.

(** Two nodes of the walk with the same identity are one inode. *)
Lemma same_inode r i n : r ∈ raw -> nodes f !! i = Some n -> inode_key r = (i_dev n, i) ->
  present (r_path r) i n /\ r_info r = stat_of i n.
Proof.
  intros Hr Hn Hk. destruct (raw_seen r Hr) as (_ & _ & j & m & Hp & Hi). unfold inode_key in Hk. rewrite Hi in Hk. simpl in Hk.
  injection Hk as _ ->. destruct (present_named _ _ _ Hp) as [_ Hm]. rewrite Hn in Hm. injection Hm as <-. done.
Qed.

Lemma group_names i n d : nodes f !! i = Some n -> i_kind n = KFile d -> 1 < i_nlink n ->
  forall x, x ∈ map r_relative (List.filter (linked_as (i_dev n, i)) raw) <->
    exists p, names f !! (loc ++ p) = Some i /\ x = text p.
Proof.
  intros Hn Hk Hl x. rewrite list_elem_of_fmap. setoid_rewrite list_elem_of_In. setoid_rewrite filter_In.
  setoid_rewrite <-list_elem_of_In. split.
  - intros (r & -> & Hr & Hla). unfold linked_as in Hla. bool_prop.
    destruct (same_inode r i n Hr Hn) as [Hp _]; [done|]. exists (r_path r). split; [by apply present_named in Hp as []|].
    by destruct (raw_seen r Hr).
  - intros (p & Hp & ->). assert (present p i n) as Hpr by (unfold present, node_at; by rewrite Hp, Hn).
    destruct (present_raw p i n Hpr) as (r & Hr & Hrp & Hrr & Hri). exists r. split_and!; [done|done|].
    unfold linked_as, inode_key. rewrite Hri. simpl. rewrite bool_decide_true by done.
    unfold s_isreg. change (Z.lor _ _) with (st_mode (stat_of i n)). rewrite s_ifmt_stat, Hk. simpl.
    rewrite andb_true_r. by apply Z.ltb_lt.
Qed.

Lemma links_complete ids i n d : hardlink_ids (hardlink_groups raw) = Ok ids ->
  for_each (check_group raw) tt (hardlink_groups raw) = Ok tt ->
  nodes f !! i = Some n -> i_kind n = KFile d -> (exists p, names f !! (loc ++ p) = Some i) ->
  link_spec i n (alookup (i_dev n, i) ids).
Proof.
  intros Hids Hck Hn Hk [p Hp]. pose proof (ids_spec _ _ (i_dev n, i) Hids) as Hid. unfold link_spec.
  pose proof (hardlink_groups_spec raw (i_dev n, i)) as Hg.
  destruct (1 <? i_nlink n) eqn:Hl.
  - bool_prop. pose proof (group_names i n d Hn Hk Hl) as Hnames.
    destruct (List.filter _ raw) as [|r0 l0] eqn:Hf.
    { exfalso. assert (text p ∈ @nil pystr) as Hin by (apply (Hnames (text p)); eauto). by inversion Hin. }
    rewrite <-Hf in *. clear r0 l0 Hf. set (paths := map r_relative _) in *. rewrite Hg in Hid. destruct Hid as (h & Hh & Hid).
    exists paths, h. split_and!; [done|done| | |done].
    + eapply for_each_check in Hck; [|by apply alookup_elem]. unfold check_group in Hck. cbn [fst snd] in Hck.
      destruct (List.find _ raw) as [r|] eqn:Hfind; [|done]. apply find_some in Hfind as [Hr Hkey].
      apply list_elem_of_In in Hr. bool_prop. destruct (same_inode r i n Hr Hn Hkey) as [_ Hi]. inv_ok. rewrite Hi in Hck. simpl in Hck.
      bool_prop. lia.
    + pose proof relative_nodup as Hrn. unfold paths. revert Hrn. clear. induction raw as [|r l IH]; simpl; [done|].
      intros [Hr Hl]%NoDup_cons. destruct (linked_as _ r); [|auto]. apply NoDup_cons. split; [|auto].
      intros Hin. apply Hr. apply list_elem_of_fmap in Hin as (r' & Heq & Hin). apply list_elem_of_fmap. exists r'. split; [done|].
      apply list_elem_of_In, filter_In in Hin as [Hin _]. by apply list_elem_of_In.
  - destruct (List.filter _ raw) as [|r0 l0] eqn:Hf; [by rewrite Hg in Hid|]. exfalso.
    assert (r0 ∈ List.filter (linked_as (i_dev n, i)) raw) as Hin by (rewrite Hf; by left).
    apply list_elem_of_In, filter_In in Hin as [Hin Hla]. apply list_elem_of_In in Hin. unfold linked_as in Hla. bool_prop.
    destruct (same_inode r0 i n Hin Hn) as [_ Hi]; [done|]. rewrite Hi in *. simpl in *. lia.
Qed.

(** *** Entries *)

(** The only extended attributes are the opacity marks of a directory. *)
Definition xattrs_ok (n : inode) : Prop :=
  forall name v, alookup name (i_xattrs n) = Some v ->
    name ∈ OVERLAY_OPAQUE_XATTRS /\ i_kind n = KDir /\ (v = bstr "y" \/ v = bstr "x").

(** What the archive holds for a node. *)
Definition data_spec (n : inode) (data : option bytes) : Prop :=
  match i_kind n with
  | KFile d => data = Some d
  | KLink t => exists encoded, fsencode t = Ok encoded /\ data = Some encoded
  | _ => data = None
  end.

Record entry_spec (p : path) (i : Z) (n : inode) (e : Entry) : Prop := {
  es_path : e_path e = text p;
  es_mode : e_mode e = st_mode (stat_of i n);
  es_uid : e_uid e = i_uid n; es_gid : e_gid e = i_gid n;
  es_xattrs : xattrs_ok n;
  es_kind :
    match i_kind n with
    | KDir => e_kind e = str "directory" /\ e_size e = 0 /\ e_digest e = None /\ e_target e = None /\ e_hardlink e = None
    | KFile d => e_kind e = str "regular" /\ e_size e = zlen d /\ e_digest e = Some (sha256 d) /\ e_target e = None /\
        link_spec i n (e_hardlink e)
    | KLink t => e_kind e = str "symlink" /\ e_digest e = None /\ e_target e = Some t /\ e_hardlink e = None /\
        _safe_target (text p) t = true /\ exists encoded, fsencode t = Ok encoded /\ e_size e = zlen encoded
    | KSpecial _ => False
    end }.

Lemma obs_check_xattrs r i n : seen r -> present (r_path r) i n -> r_info r = stat_of i n ->
  observes f (check_xattrs fd r) (fun _ => xattrs_ok n).
Proof.
  intros (Hrel & Hc & _) Hp Hi. unfold check_xattrs.
  assert (is_root (r_relative r) = true -> not_link (i_kind n)) as Hroot' by (rewrite Hrel; by eapply follow_ok).
  eapply obs_bind; [by eapply obs_os_error_as, obs_query|]. intros xs Hxs. cbv beta in Hxs. unfold fs_held_listxattr in Hxs.
  rewrite (held_spec _ _ i n) in Hxs by done. injection Hxs as <-. cbn [snd].
  eapply obs_bind; [by apply obs_raise_if|]. intros u0 Hun. cbv beta in Hun. set (opaque := List.filter _ _).
  eapply obs_conseq.
  { apply (obs_for_each f (fun don _ => forall name, name ∈ don -> i_kind n = KDir /\
      exists v, alookup name (i_xattrs n) = Some v /\ (v = bstr "y" \/ v = bstr "x"))).
    - intros name Hin. by inversion Hin.
    - intros don name rest _ _ Hdon. eapply obs_bind; [by eapply obs_os_error_as, obs_query|]. intros v Hv. cbv beta in Hv.
      unfold fs_held_getxattr in Hv. rewrite (held_spec _ _ i n) in Hv by done. cbn [snd] in Hv.
      eapply obs_conseq; [by apply obs_raise_if|]. intros u1 Hb name' [Hin|Hin%list_elem_of_singleton]%elem_of_app; [by apply Hdon|].
      subst name'. apply orb_false_iff in Hb as [Hb Hyx]. bool_prop. rewrite Hi in Hb. apply s_isdir_kind in Hb. split; [done|].
      destruct (alookup name _) as [v'|]; [|done]. injection Hv as ->. eauto. }
  intros u2 Hop name v Hv. cbv beta in Hop.
  assert (mem name OVERLAY_OPAQUE_XATTRS = true) as Hm.
  { assert (name ∈ map fst (i_xattrs n)) as Hin.
    { apply alookup_elem in Hv. apply list_elem_of_fmap. by exists (name, v). }
    rewrite existsb_false_iff in Hun. specialize (Hun name Hin). by bool_prop. }
  destruct (Hop name) as (Hd & v' & Hv' & Hyx).
  { apply list_elem_of_In, filter_In. split; [|done]. apply list_elem_of_In. apply alookup_elem in Hv. apply list_elem_of_fmap. by exists (name, v). }
  split_and!; [by apply mem_elem in Hm|done|]. congruence.
Qed.

(** One entry: what is added to the entries and to the contents. *)
Lemma obs_scan_entry ids entries contents r i n :
  (forall i n d, nodes f !! i = Some n -> i_kind n = KFile d -> (exists p, names f !! (loc ++ p) = Some i) ->
    link_spec i n (alookup (i_dev n, i) ids)) ->
  seen r -> present (r_path r) i n -> r_info r = stat_of i n ->
  observes f (scan_entry fd ids (entries, contents) r) (fun s =>
    exists e data, s = (entries ++ [e], match data with Some d => aset (r_relative r) d contents | None => contents end) /\
      entry_spec (r_path r) i n e /\ data_spec n data).
Proof.
  intros Hids Hr Hp Hi. unfold scan_entry. eapply obs_bind; [by eapply obs_check_xattrs|]. intros u3 Hx. cbv beta in Hx. rewrite Hi.
  destruct (present_named _ _ _ Hp) as [Hna Hno]. destruct Hr as (Hrel & Hc & _).
  destruct (s_isdir _) eqn:Hd.
  { apply s_isdir_kind in Hd. apply obs_ret. eexists _, None. split_and!; [done| |unfold data_spec; by rewrite Hd].
    constructor; try done. by rewrite Hd. }
  destruct (s_isreg _) eqn:Hreg.
  { apply s_isreg_kind in Hreg as [d Hreg]. eapply obs_bind; [apply obs_read_stable; [done|by apply held_spec; [|rewrite Hreg]|done|done]|]. intros data ->. apply obs_ret.
    eexists _, (Some d). split_and!; [done| |unfold data_spec; by rewrite Hreg].
    constructor; try done. rewrite Hreg. split_and!; try done. unfold inode_key. rewrite Hi. simpl. eapply Hids; eauto. }
  destruct (s_islnk _) eqn:Hlnk; [|apply obs_raise].
  apply s_islnk_kind in Hlnk as [t Hlnk]. eapply obs_bind; [by apply obs_query|]. intros target Ht. cbv beta in Ht.
  unfold fs_held_readlink in Ht. rewrite (held_spec _ _ i n) in Ht by done. cbn [snd] in Ht. rewrite Hlnk in Ht. injection Ht as <-.
  eapply obs_bind; [by apply obs_query|]. intros after _. eapply obs_bind; [by apply obs_raise_if|]. intros _ _.
  eapply obs_bind; [by apply obs_raise_if|]. intros u4 Hs. cbv beta in Hs. eapply obs_bind; [by apply obs_lift|]. intros encoded He.
  cbv beta in He. apply obs_ret. eexists _, (Some encoded). split_and!; [done| |unfold data_spec; rewrite Hlnk; eauto].
  constructor; try done. rewrite Hlnk. rewrite Hrel in Hs. bool_prop. split_and!; eauto.
Qed.

(** The entries and contents of the nodes visited so far. *)
Definition so_far (visited : list raw_entry) (s : list Entry * contents_t) : Prop :=
  Forall2 (fun r e => exists i n, present (r_path r) i n /\ entry_spec (r_path r) i n e /\
    data_spec n (alookup (r_relative r) s.2)) visited s.1 /\
  (forall x, x ∉ map r_relative visited -> alookup x s.2 = None).

Lemma so_far_add visited r s i n e data : so_far visited s -> r_relative r ∉ map r_relative visited ->
  present (r_path r) i n -> entry_spec (r_path r) i n e -> data_spec n data ->
  so_far (visited ++ [r]) (s.1 ++ [e], match data with Some d => aset (r_relative r) d s.2 | None => s.2 end).
Proof.
  intros [Hf Hn] Hr Hp He Hd. set (c := match data with Some d => aset (r_relative r) d s.2 | None => s.2 end).
  assert (forall x, alookup x c = if bool_decide (x = r_relative r) then data else alookup x s.2) as Hc.
  { intros x. unfold c. destruct data as [d|]; [by rewrite alookup_aset|]. case_bool_decide; [|done]. subst x. by apply Hn. }
  split; cbn [fst snd].
  - apply Forall2_app.
    + eapply forall2_impl_in; [|exact Hf]. intros r0 e0 Hin (j & m & H1 & H2 & H3). exists j, m. split_and!; [done|done|].
      rewrite Hc, bool_decide_false; [done|]. intros Heq. apply Hr. rewrite <-Heq. apply list_elem_of_fmap. by exists r0.
    + constructor; [|constructor]. exists i, n. split_and!; [done|done|]. by rewrite Hc, bool_decide_true.
  - intros x Hx. rewrite map_app in Hx. rewrite Hc, bool_decide_false; [apply Hn; set_solver|].
    intros ->. apply Hx. apply elem_of_app. right. by left.
Qed.

Lemma obs_entries ids :
  (forall i n d, nodes f !! i = Some n -> i_kind n = KFile d -> (exists p, names f !! (loc ++ p) = Some i) ->
    link_spec i n (alookup (i_dev n, i) ids)) ->
  observes f (mfor_each (scan_entry fd ids) ([], []) raw) (so_far raw).
Proof.
  intros Hids. apply obs_for_each; [split; [constructor|done]|]. intros don r rest [entries contents] Hl Hso.
  assert (r ∈ raw) as Hin by (rewrite Hl; apply elem_of_app; right; by left).
  pose proof (raw_seen r Hin) as Hr. destruct Hr as (Hrel & Hc & i & n & Hp & Hi).
  eapply obs_conseq; [by eapply obs_scan_entry; [exact Hids|by apply raw_seen|..]|]. intros s (e & data & -> & He & Hd).
  apply (so_far_add don r (entries, contents) i n e data); try done.
  pose proof relative_nodup as Hnd. rewrite Hl, map_app in Hnd. apply NoDup_app in Hnd as (_ & Hnd & _).
  intros Hx. apply (Hnd _ Hx). by left.
Qed.
End collected.

(** A scan that returned: each entry is a node of the tree, and each node has an entry. *)
Record scanned (entries : list Entry) (contents : contents_t) : Prop := {
  sd_order : StronglySorted encoded_before (map e_path entries);
  sd_nodup : NoDup (map e_path entries);
  sd_entries : forall e, e ∈ entries -> exists p i n, present p i n /\ clean p /\ entry_spec p i n e /\
    data_spec n (alookup (e_path e) contents);
  sd_all : forall p i, names f !! (loc ++ p) = Some i -> text p ∈ map e_path entries }.

Lemma obs_sorted_children p : observes f (sorted_children fd p) (fun _ => True).
Proof. eapply obs_bind; [by apply obs_query|]. intros l _. eapply obs_any. by apply obs_lift. Qed.

Lemma obs_revalidate raw : observes f (_revalidate_tree fd raw) (fun _ => True).
Proof.
  unfold _revalidate_tree. eapply (obs_bind f _ (fun _ => True)).
  - apply obs_os_error_as. apply (obs_while f _ (fun _ => True)); [|done]. intros [[|[relative p] stack] observed] _; [by apply obs_ret|].
    cbn [revalidate_turn]. eapply obs_bind; [by apply obs_query|]. intros info _. destruct (s_isdir _); [|by apply obs_ret].
    eapply obs_bind; [by apply obs_sorted_children|]. intros cs _. by apply obs_ret.
  - intros observed _. eapply obs_bind; [by apply obs_raise_if|]. intros _ _. apply (obs_for_each f (fun _ _ => True)); [done|].
    intros don kv rest u _ _. destruct (alookup _ observed); [|apply obs_raise]. eapply obs_any. by apply obs_raise_if.
Qed.

Lemma obs_scan_held : observes f (_scan_held fd) (fun s => scanned s.1 s.2).
Proof.
  unfold _scan_held. eapply obs_bind; [apply obs_walk|]. intros walked [_ Hseen Hall Hnd _ _ _].
  eapply obs_bind; [by apply obs_lift|]. intros raw Hraw. cbv beta in Hraw.
  pose proof (sorted_by_fsencode_perm _ _ _ _ Hraw) as Hperm. rewrite <-Hperm in Hseen, Hnd.
  assert (forall p i, names f !! (loc ++ p) = Some i -> p ∈ map r_path raw) as Hall'.
  { intros p i Hp. rewrite Hperm. destruct (Hall p i Hp) as [?|(s & Hs & _)]; [done|]. by inversion Hs. }
  eapply obs_bind; [by apply obs_lift|]. intros ids Hids. cbv beta in Hids.
  eapply obs_bind; [by apply obs_lift|]. intros [] Hck. cbv beta in Hck.
  eapply obs_bind; [apply (obs_entries raw Hseen Hnd Hall'); intros; by eapply links_complete|].
  intros [entries contents] [Hf Hno]. cbn [fst snd] in *.
  eapply obs_bind; [apply obs_revalidate|]. intros u0 _. apply obs_ret. cbn [fst snd].
  assert (map e_path entries = map r_relative raw) as Hpaths.
  { clear -Hf Hseen. induction Hf as [|r e l m (i & n & _ & He & _) _ IH]; simpl; [done|].
    apply Forall_cons_iff in Hseen as [(Hr & _) Hs]. f_equal; [|auto]. rewrite (es_path _ _ _ _ He). done. }
  constructor; rewrite ?Hpaths.
  - by eapply sorted_by_fsencode_sorted.
  - by apply relative_nodup.
  - intros e He. apply list_elem_of_lookup in He as [j Hj]. destruct (Forall2_lookup_r _ _ _ _ _ Hf Hj) as (r & Hr & i & n & Hp & Hs & Hd).
    exists (r_path r), i, n. apply list_elem_of_lookup_2 in Hr. rewrite list.Forall_forall in Hseen. destruct (Hseen r Hr) as (Hrel & Hc & _).
    rewrite (es_path _ _ _ _ Hs), <-Hrel. done.
  - intros p i Hp. apply Hall', list_elem_of_fmap in Hp as (r & -> & Hr). apply list_elem_of_fmap. exists r.
    rewrite list.Forall_forall in Hseen. destruct (Hseen r Hr) as (Hrel & _). done.
Qed.

(** ** From a scan to a verified archive *)

(** What the archive format can hold: names and sizes within their fields, owners of 32
    bits, no node with the trailer's name; names and targets come from the kernel's
    bytes; and different hard-link groups have different identifiers. *)
Record archivable (entries : list Entry) : Prop := {
  ar_names : forall p i, names f !! (loc ++ p) = Some i -> text p <> str "TRAILER!!!" /\
    exists raw, fsdecode raw = Ok (text p) /\ zlen raw + 1 < 2 ^ 32;
  ar_nodes : forall p i n, present p i n -> u32_ok (i_uid n) /\ u32_ok (i_gid n) /\
    match i_kind n with
    | KFile d => zlen d < 2 ^ 32
    | KLink t => exists raw, fsdecode raw = Ok t /\ zlen raw < 2 ^ 32
    | _ => True
    end;
  ar_count : zlen entries + 1 < 2 ^ 32;
  ar_links : forall e1 e2 p1 p2 i1 i2 h, e1 ∈ entries -> e2 ∈ entries -> e_hardlink e1 = Some h -> e_hardlink e2 = Some h ->
    e_path e1 = text p1 -> e_path e2 = text p2 -> names f !! (loc ++ p1) = Some i1 -> names f !! (loc ++ p2) = Some i2 ->
    i1 = i2 }.

Lemma mode_range i n : 0 <= st_mode (stat_of i n) < 2 ^ 16.
Proof.
  simpl. set (perm := Z.land (i_perm n) 0xFFF).
  assert (0 <= perm < 2 ^ 12) as Hp by (unfold perm; change 0xFFF with (Z.ones 12); rewrite Z.land_ones by lia; by apply Z.mod_pos_bound).
  assert (Z.land (ifmt_of (i_kind n)) perm = 0) as Hl.
  { unfold perm. rewrite (Z.land_comm (i_perm n)), Z.land_assoc.
    assert (Z.land (ifmt_of (i_kind n)) 0xFFF = 0) as -> by (by destruct (i_kind n) as [| | |[]]). done. }
  rewrite <-Z.lxor_lor, <-Z.add_nocarry_lxor by done. destruct (i_kind n) as [| | |[]]; simpl; lia.
Qed.

Lemma text_safe p : plain_path p -> clean p -> safe_name (text p) = true.
Proof.
  intros Hp Hc. unfold safe_name. destruct (decide (p = [])) as [->|Hne]; [done|]. rewrite text_split by done.
  destruct p as [|c p]; [done|]. pose proof (Forall_cons_iff (fun c => plain_name c = true) c p) as Hiff.
  destruct (proj1 Hiff Hp) as [Hpc _]. apply Forall_cons_iff in Hc as [Hcc _].
  assert (c <> []) as Hcn by (intros ->; done).
  assert (exists x t, text (c :: p) = x :: t /\ x <> SLASH) as (x & t & Ht & Hx).
  { destruct c as [|x c]; [done|]. exists x. assert (x <> SLASH) as Hx by set_solver. destruct p; simpl; eauto. }
  assert (existsb (fun part => part =s str "..") (c :: p) = false) as ->.
  { apply existsb_false_iff. intros y Hy. apply str_eqb_neq. intros ->. unfold plain_path in Hp. rewrite list.Forall_forall in Hp.
    by specialize (Hp _ Hy). }
  rewrite Ht. assert (startswith (x :: t) (str "/") = false) as ->; [|done].
  apply bool_decide_eq_false. intros [r Hr]. apply Hx. by injection Hr.
Qed.

Lemma hardlink_id_text paths h : hardlink_id paths = Ok h -> h <> [] /\ text_ok h = true.
Proof.
  unfold hardlink_id. intros Hh. inv_ok. split; [done|]. apply ascii_text_ok. cbn [app str]. constructor; [simpl; lia|].
  unfold sha256. apply list.Forall_take, hex_of_ascii.
Qed.

(** What holds of every file system of a kernel: names and targets are decoded bytes,
    whose text has no surrogate pair, and numbers are of 64 bits. *)
Record os_fs (g : fs) : Prop := {
  os_wf : fs_wf g;
  os_names : forall l p i, names g !! (l ++ p) = Some i -> text_ok (text p) = true;
  os_nodes : forall i n, nodes g !! i = Some n -> Z.abs (i_uid n) < 2 ^ 64 /\ Z.abs (i_gid n) < 2 ^ 64 /\
    match i_kind n with
    | KFile d => zlen d < 2 ^ 64
    | KLink t => text_ok t = true /\ forall raw, fsencode t = Ok raw -> zlen raw < 2 ^ 64
    | _ => True
    end }.

Lemma scanned_text entries contents : os_fs f -> scanned entries contents -> Forall entry_text entries.
Proof.
  intros Hos Hs. apply list.Forall_forall. intros e He.
  destruct (sd_entries _ _ Hs e He) as (p & i & n & Hp & Hc & [Hpath Hmode Huid Hgid _ Hk] & _).
  destruct (present_named _ _ _ Hp) as [Hn Hno]. destruct (os_nodes f Hos i n Hno) as (Hu & Hg & Hz).
  assert (Z.abs (e_size e) < 2 ^ 64 /\ text_ok (e_kind e) = true /\
    (forall t, e_digest e = Some t \/ e_target e = Some t \/ e_hardlink e = Some t -> text_ok t = true)) as (J1 & J2 & J3).
  { destruct (i_kind n) as [|d|t|]; [| | |done].
    - destruct Hk as (-> & -> & -> & -> & ->). split_and!; [done|done|]. by intros t [?|[?|?]].
    - destruct Hk as (-> & -> & -> & -> & Hl). pose proof (zlen_nonneg d). split_and!; [lia|done|].
      intros t [[= <-]|[?|Ht]]; [apply hex_of_text_ok|done|]. unfold link_spec in Hl. destruct (1 <? i_nlink n); [|congruence].
      destruct Hl as (paths & h & Hh & Hid & _). rewrite Ht in Hh. injection Hh as <-. by eapply hardlink_id_text.
    - destruct Hk as (-> & -> & -> & -> & _ & enc & Henc & ->). destruct Hz as [Ht Hz]. specialize (Hz enc Henc).
      pose proof (zlen_nonneg enc). split_and!; [lia|done|]. intros t' [?|[[= <-]|?]]; done. }
  constructor; rewrite ?Hpath, ?Huid, ?Hgid; try done.
  - by eapply (os_names f Hos loc).
  - rewrite Hmode. apply mode_range.
  - by repeat constructor.
Qed.

Lemma scanned_entry_ok entries contents e : scanned entries contents -> archivable entries -> e ∈ entries -> entry_ok contents e.
Proof.
  intros Hs Ha He. destruct (sd_entries _ _ Hs e He) as (p & i & n & Hp & Hc & [Hpath Hmode Huid Hgid _ Hk] & Hd).
  destruct (present_named _ _ _ Hp) as [Hn _]. destruct (ar_names _ Ha p i Hn) as (Htr & raw & Hraw & Hlen).
  destruct (ar_nodes _ Ha p i n Hp) as (Hu & Hg & Hz). pose proof (zlen_nonneg raw) as Hraw0.
  pose proof (s_ifmt_stat i n) as Hfmt. rewrite <-Hmode in Hfmt.
  assert (text p <> []) as Htext.
  { pose proof (text_safe p (present_plain _ _ _ Hp) Hc) as Hsafe. intros Heq. by rewrite Heq in Hsafe. }
  constructor; rewrite ?Hpath, ?Huid, ?Hgid; try done.
  - exists raw. unfold os_name, u32_ok. split_and!; [done| |lia|lia]. intros ->. injection Hraw as Hraw. by rewrite <-Hraw in Htext.
  - apply text_safe; [by eapply present_plain|done].
  - rewrite Hmode. apply mode_range.
  - unfold regular_ok, directory_ok, symlink_ok, data_spec, S_IFMT in *. unfold s_ifmt in Hfmt. rewrite Hpath in Hd.
    destruct (i_kind n) as [|d|t|] eqn:Hkind; [| | |done].
    + right; left. rewrite Hpath. destruct Hk as (-> & -> & -> & -> & ->). by split_and!.
    + left. destruct Hk as (-> & -> & -> & -> & Hlink). exists d. rewrite Hpath. pose proof (zlen_nonneg d). unfold u32_ok.
      split_and!; try done. intros h Hh. unfold link_spec in Hlink. destruct (1 <? i_nlink n); [|congruence].
      destruct Hlink as (paths & h' & Hh' & Hid & _). rewrite Hh in Hh'. injection Hh' as <-. by eapply hardlink_id_text.
    + right; right. destruct Hk as (-> & -> & -> & -> & _ & enc & Henc & ->). destruct Hd as (enc' & Henc' & Hd).
      rewrite Henc in Henc'. injection Henc' as <-. destruct Hz as (rt & Hrt & Hlt). pose proof (os_name_encode _ _ Hrt) as Hrt'.
      rewrite Henc in Hrt'. injection Hrt' as ->. exists rt, t. rewrite Hpath. pose proof (zlen_nonneg rt). unfold u32_ok. by split_and!.
Qed.

Lemma scanned_tree_ok entries contents : scanned entries contents -> archivable entries -> tree_ok entries contents.
Proof.
  intros Hs Ha. constructor.
  - apply list.Forall_forall. intros e He. by apply (scanned_entry_ok entries).
  - by apply (sd_nodup _ contents).
  - by apply (ar_count _ Ha).
  - intros e1 e2 h H1 H2 Hh1 Hh2.
    destruct (sd_entries _ _ Hs e1 H1) as (p1 & i1 & n1 & Hp1 & _ & [Ht1 _ _ _ _ Hk1] & Hd1).
    destruct (sd_entries _ _ Hs e2 H2) as (p2 & i2 & n2 & Hp2 & _ & [Ht2 _ _ _ _ Hk2] & Hd2).
    destruct (present_named _ _ _ Hp1) as [N1 M1]. destruct (present_named _ _ _ Hp2) as [N2 M2].
    pose proof (ar_links _ Ha e1 e2 p1 p2 i1 i2 h H1 H2 Hh1 Hh2 Ht1 Ht2 N1 N2) as <-. rewrite M1 in M2. injection M2 as <-.
    unfold data_of, data_spec in *. destruct (i_kind n1); [|by rewrite Hd1, Hd2|..]; destruct_and?; congruence.
Qed.
End walk.

Section program.
Context `{machine} (Hquiet : quiet).

(** The location a directory is opened at. *)
Definition ref_location (f : fs) (d : Publish.directory_ref) : res path :=
  match d with
  | Publish.AtPath p => resolve f false p
  | Publish.BelowFd fd p => let! q := held_path f fd p in resolve f false q
  | Publish.ProcFd fd => held_path f fd []
  end.

(** A directory given as [/proc/self/fd/N] still has a name. *)
Definition root_named (f : fs) (d : Publish.directory_ref) : Prop :=
  match d with Publish.ProcFd fd => exists loc, names f !! loc = Some fd | _ => True end.

Lemma obs_open_directory f d : fs_wf f -> root_named f d ->
  observes f (Publish.open_directory_nofollow d) (fun fd =>
    exists loc n, ref_location f d = Ok loc /\ node_at f loc = Some (fd, n) /\ i_kind n = KDir).
Proof.
  intros Hwf Hd. unfold Publish.open_directory_nofollow. destruct d as [fd|p|fd p].
  { eapply (obs_bind f _ (fun fd' => fd' = fd)).
    { eapply obs_conseq; [by apply obs_query|]. intros fd'. cbv beta. destruct (fs_fstat f fd); [by intros [= <-]|done]. }
    intros ? ->. eapply obs_bind; [by apply obs_query|]. intros info Hi. cbv beta in Hi. unfold fs_fstat in Hi.
    destruct (nodes f !! fd) as [n|] eqn:Hn; [|done]. injection Hi as <-. destruct (s_isdir _) eqn:Hk; cbn [negb].
    - apply s_isdir_kind in Hk. apply obs_ret. destruct Hd as [loc Hl].
      assert (node_at f loc = Some (fd, n)) as Hna by (unfold node_at; by rewrite Hl, Hn). exists loc, n. split; [|done].
      unfold ref_location, held_path. rewrite (location_of_dir f Hwf loc fd Hl), app_nil_r; [done|]. apply is_dir_kind. eauto.
    - eapply obs_bind; [by apply obs_query|]. intros _ _. apply obs_raise. }
  all: eapply (obs_bind f _ (fun fd' =>
    exists loc n, ref_location f _ = Ok loc /\ node_at f loc = Some (fd', n) /\ i_kind n = KDir)).
  2,4: intros fd' Hfd; eapply obs_bind; [by apply obs_query|]; intros info _; destruct (negb _); [|by apply obs_ret];
    eapply obs_bind; [by apply obs_query|]; intros _ _; apply obs_raise.
  all: assert (forall p fd, fs_open true true f p = Ok fd ->
      exists loc n, resolve f false p = Ok loc /\ node_at f loc = Some (fd, n) /\ i_kind n = KDir) as Ho.
  1,3: intros q fd' Hfd; unfold fs_open in Hfd; simpl in Hfd; inv_ok; destruct (node_at f a) as [[ino n]|] eqn:Hn; [|done];
      destruct (i_kind n) eqn:Hk; try done; injection Hfd as ->; by exists a, n.
  - eapply obs_conseq; [by apply obs_query|]. intros fd'. apply Ho.
  - eapply obs_conseq; [by apply obs_query|]. intros fd'. cbv beta. unfold fs_held_opendir. simpl. intros Hq. inv_ok. by apply Ho.
Qed.

Lemma obs_scan f d : fs_wf f -> root_named f d -> observes f (scan d) (fun s =>
  exists loc fd, ref_location f d = Ok loc /\ names f !! loc = Some fd /\ is_dir_at f loc = true /\ scanned f loc s.1 s.2).
Proof.
  intros Hwf Hd. unfold scan. eapply obs_bind; [by eapply obs_os_error_as, obs_open_directory|].
  intros fd (loc & n & Hr & Hn & Hk). apply obs_finally; [|eapply obs_any; by apply obs_query].
  assert (names f !! loc = Some fd) as Hname by (by apply node_at_nodes in Hn as []).
  assert (is_dir_at f loc = true) as Hdir by (unfold is_dir_at; by rewrite Hn, Hk).
  eapply obs_conseq; [by apply (obs_scan_held Hquiet f Hwf loc fd)|]. intros s Hs. by exists loc, fd.
Qed.

(** C29. On a machine where no other process changes the file system (any call may fail),
    [scan] never changes it, and when it returns: the root is a real directory; the
    entries are in the order of the encoded paths, without duplicates; every name below
    the root has an entry; and every entry describes its node: type, mode, owner, size
    and SHA-256 of a file's bytes (which are the contents returned), the target of a
    symbolic link, which does not leave the root, no extended attribute but a directory's
    opacity mark, and for a file with several links an identifier derived from all its
    names, as many as its link count, so no link is outside the root.  The root is given
    by a path, by a path below a held directory, or as an inherited descriptor whose
    directory still has a name. *)
Theorem scan_describes_tree w root : fs_wf (w_fs w) -> root_named (w_fs w) root ->
  match scan root w with
  | (Ok (entries, contents), w') => w_fs w' = w_fs w /\ exists loc fd, ref_location (w_fs w) root = Ok loc /\
      names (w_fs w) !! loc = Some fd /\ is_dir_at (w_fs w) loc = true /\ scanned (w_fs w) loc entries contents
  | (Err _, w') => w_fs w' = w_fs w
  end.
Proof.
  intros Hwf Hd. pose proof (obs_run (w_fs w) _ _ w (obs_scan (w_fs w) root Hwf Hd) eq_refl) as Hr.
  by destruct (scan root w) as [[[entries contents]|e] w'].
Qed.

(** What is scanned can be shipped: when a scan returns a tree whose names, sizes
    and owners fit the archive format, the newc writer succeeds on it, and the verifier
    accepts the compressed archive with the manifest written for the same entries. *)
Theorem scanned_tree_verifies (compress : bytes -> bytes) (decompress : bytes -> res bytes) w w' root loc entries contents :
  (forall data, decompress (compress data) = Ok data) -> (forall data, header_deterministic (compress data) = true) ->
  fs_wf (w_fs w) -> scan (Publish.AtPath root) w = (Ok (entries, contents), w') ->
  resolve (w_fs w) false root = Ok loc -> archivable (w_fs w) loc entries ->
  exists archive, write_newc entries contents = Ok archive /\
    verify decompress (compress archive) (manifest entries) =
    Ok (Summary (sha256 (compress archive)) (sha256 (manifest entries)) (zlen entries) (zlen archive)).
Proof.
  intros Hdc Hch Hwf Hrun Hloc Ha. pose proof (obs_run (w_fs w) _ _ w (obs_scan (w_fs w) (Publish.AtPath root) Hwf ltac:(done)) eq_refl) as Hr.
  rewrite Hrun in Hr. destruct Hr as [_ (loc' & fd & Hl & Hname & Hdir & Hs)]. simpl in Hl. rewrite Hloc in Hl. injection Hl as <-.
  apply build_then_verify_aux; [done|done|].
  eapply scanned_tree_ok; [exact Hquiet|exact Hwf|exact Hname|exact Hdir|exact Hs|exact Ha].
Qed.
End program.
End RootfsScanSafe.
