(* ===== verification/WriteFile.v ===== *)
(** * Writing a file by its path

    [Path.write_text] truncates the file a path leads to, through symbolic links, or
    creates it there.  Afterwards the path leads to a file with exactly the data, and no
    other file and no existing name has changed. *)
From Stdlib Require Import ZArith Lia.
From Stdlib Require Import Init.Byte.
From stdpp Require Import base list sets strings option gmap.
From S2P Require Import Prelude PyStr PyVal Bytes Sys FsRules PublishPair RootfsScanSafe.

Open Scope string_scope.
Open Scope list_scope.
Open Scope Z_scope.

Module WriteFile.
Import PublishPair RootfsScanSafe.

(** A kind without the content of a file. *)
Definition skeleton (k : kind) : kind := match k with KFile _ => KFile [] | _ => k end.

(** The same names lead to the same nodes; contents may change and files may appear. *)
Record refiles (f f' : fs) : Prop := {
  rf_kept : forall k i n, node_at f k = Some (i, n) -> exists n', node_at f' k = Some (i, n') /\ skeleton (i_kind n') = skeleton (i_kind n);
  rf_new : forall k, node_at f k = None -> node_at f' k = None \/ exists i n d, node_at f' k = Some (i, n) /\ i_kind n = KFile d }.

Lemma refiles_trans f g h : refiles f g -> refiles g h -> refiles f h.
Proof.
  intros [K1 N1] [K2 N2]. split.
  - intros k i n Hk. destruct (K1 k i n Hk) as (n1 & H1 & E1). destruct (K2 k i n1 H1) as (n2 & H2 & E2). exists n2. split; [done|]. congruence.
  - intros k Hk. destruct (N1 k Hk) as [H1|(i & n & d & H1 & E1)]; [by apply N2|]. right.
    destruct (K2 k i n H1) as (n2 & H2 & E2). rewrite E1 in E2. exists i, n2. destruct (i_kind n2) as [|d'| |] eqn:E; try done. by exists d'.
Qed.

Section resolution.
Context (f f' : fs) (Hr : refiles f f').

Lemma walk_refiles follow links links' pre rest loc :
  (forall a b l, links a b = Ok l -> links' a b = Ok l) ->
  walk f follow links pre rest = Ok loc -> walk f' follow links' pre rest = Ok loc.
Proof.
  intros Hl. revert pre; induction rest as [|c t IH]; intros pre; cbn [walk]; [done|].
  destruct (node_at f pre) as [[i n]|] eqn:Hp; [|done]. destruct (rf_kept f f' Hr _ _ _ Hp) as (n' & -> & Hk).
  destruct (i_kind n) eqn:Hn; try done. destruct (i_kind n'); try done.
  destruct (mem c _); [apply IH|]. destruct (c =s _); [apply IH|].
  destruct (node_at f (pre ++ [c])) as [[j m]|] eqn:Hh.
  - destruct (rf_kept f f' Hr _ _ _ Hh) as (m' & -> & Hm). destruct (i_kind m), (i_kind m'); try done; try apply IH.
    injection Hm as ->. destruct (_ && _); [done|]. destruct (startswith _ _); apply Hl.
  - destruct t; [|done]. intros [= <-]. destruct (rf_new f f' Hr _ Hh) as [->|(j & m & d & -> & ->)]; done.
Qed.

Lemma resolve_refiles follow p loc : resolve f follow p = Ok loc -> resolve f' follow p = Ok loc.
Proof.
  unfold resolve. generalize (@nil pystr). generalize (S MAX_LINKS). intros fuel. revert p loc.
  induction fuel as [|fuel IH]; intros p loc pre; [done|]. cbn [resolve_from]. apply walk_refiles. intros a b l. apply IH.
Qed.

End resolution.

Section locations.
Context (f : fs).

(** A location is a plain name in a real directory. *)
Definition located (p : path) : Prop := plain_path p /\ real_dir f (removelast p).

Lemma located_removelast p : located p -> located (removelast p).
Proof.
  intros [Hp Hd]. destruct p as [|c p _] using rev_ind; [done|]. rewrite removelast_last in *. apply plain_app in Hp as [Hp _].
  split; [done|]. eapply real_prefix; [|exact Hd]. destruct p as [|x p _] using rev_ind; [done|]. rewrite removelast_last. by exists [x].
Qed.

Lemma walk_located follow links pre rest loc : (forall a b l, located a -> links a b = Ok l -> located l) -> located pre ->
  walk f follow links pre rest = Ok loc -> located loc.
Proof.
  intros Hl. revert pre; induction rest as [|c t IH]; intros pre Hpre; cbn [walk]; [by intros [= <-]|].
  destruct (node_at f pre) as [[i n]|] eqn:Hp; [|done]. destruct (i_kind n) eqn:Hn; try done.
  assert (is_dir_at f pre = true) as Hd by (unfold is_dir_at; by rewrite Hp, Hn).
  destruct (mem c _) eqn:Hm; [by apply IH|]. destruct (c =s _) eqn:Hc; [by apply IH, located_removelast|].
  assert (located (pre ++ [c])) as Hhere.
  { destruct Hpre as [Hpp Hpr]. split.
    - apply plain_app. split; [done|]. constructor; [|done]. unfold plain_name. apply negb_true_iff, mem_not_elem.
      apply mem_not_elem in Hm. apply str_eqb_neq in Hc. unfold strs in *. simpl in *. set_solver.
    - rewrite removelast_last. destruct pre as [|x pre _] using rev_ind.
      + intros q Hq. apply prefix_nil_inv in Hq as ->. done.
      + rewrite removelast_last in Hpr. by apply real_snoc. }
  destruct (node_at f (pre ++ [c])) as [[j m]|].
  - destruct (i_kind m); try (by apply IH). destruct (_ && _); [by intros [= <-]|]. destruct (startswith _ _); apply Hl; [|done].
    split; [constructor|]. intros q Hq. apply prefix_nil_inv in Hq as ->. apply (proj2 Hhere). by exists (removelast (pre ++ [c])).
  - destruct t; [by intros [= <-]|done].
Qed.

Lemma resolve_located follow p loc : is_dir_at f [] = true -> resolve f follow p = Ok loc -> located loc.
Proof.
  intros Hroot. assert (located []) as H0.
  { split; [constructor|]. intros q Hq. apply prefix_nil_inv in Hq as ->. done. }
  unfold resolve. revert H0. generalize (@nil pystr). generalize (S MAX_LINKS). intros fuel. revert p loc.
  induction fuel as [|fuel IH]; intros p loc pre Hpre; [done|]. cbn [resolve_from]. apply walk_located; [|done].
  intros a b l Ha. by apply IH.
Qed.
End locations.

(** ** One write *)

(** The path leads to a file with the data; everything else is as it was. *)
Definition wrote_at (ino : Z) (p : path) (data : bytes) (f f' : fs) : Prop :=
  fs_open false false f' p = Ok ino /\ (exists n, nodes f' !! ino = Some n /\ i_kind n = KFile data) /\
  (forall i m, i <> ino -> nodes f !! i = Some m -> nodes f' !! i = Some m) /\
  (forall k i, names f !! k = Some i -> names f' !! k = Some i).
Definition wrote (p : path) (data : bytes) (f f' : fs) : Prop := exists ino, wrote_at ino p data f f'.

(** File systems in which writing is understood. *)
Record writable (f : fs) : Prop := {
  wr_wf : fs_wf f; wr_fresh : fresh_ok f; wr_root : is_dir_at f [] = true }.

(** A file whose content has changed. *)
Lemma set_file_at f ino n n' d d' t : nodes f !! ino = Some n -> i_kind n = KFile d -> i_kind n' = KFile d' ->
  refiles f (FS (names f) (<[ino := n']> (nodes f)) (fresh f) t).
Proof.
  intros Hn Hk Hk'. split; intros k; unfold node_at; cbn [names nodes].
  - intros i m Hm. destruct (names f !! k) as [j|]; [|done]. destruct (nodes f !! j) as [m'|] eqn:Hj; [|done]. injection Hm as -> ->.
    destruct (decide (ino = i)) as [->|Hne].
    + rewrite lookup_insert_eq. exists n'. split; [done|]. rewrite Hn in Hj. injection Hj as ->. by rewrite Hk, Hk'.
    + rewrite lookup_insert_ne, Hj by done. by exists m.
  - intros Hm. left. destruct (names f !! k) as [j|]; [|done]. destruct (decide (ino = j)) as [->|Hne]; [by rewrite Hn in Hm|].
    by rewrite lookup_insert_ne.
Qed.

Lemma refiles_dir f f' k : refiles f f' -> is_dir_at f' k = is_dir_at f k.
Proof.
  intros [K N]. unfold is_dir_at. destruct (node_at f k) as [[i n]|] eqn:Hk.
  - destruct (K _ _ _ Hk) as (n' & -> & He). by destruct (i_kind n), (i_kind n').
  - destruct (N _ Hk) as [->|(i & n & d & -> & ->)]; done.
Qed.

Lemma set_file_writable f ino n n' d d' t : writable f -> nodes f !! ino = Some n -> i_kind n = KFile d -> i_kind n' = KFile d' ->
  writable (FS (names f) (<[ino := n']> (nodes f)) (fresh f) t).
Proof.
  intros [[Hp Hn H1] Hf Hr] Hno Hk Hk'. pose proof (set_file_at f ino n n' d d' t Hno Hk Hk') as Hrf.
  split; [split|..]; cbn [names nodes fresh].
  - intros k c i Hi. rewrite (refiles_dir _ _ _ Hrf). by eapply Hp.
  - intros k i Hi. destruct (decide (ino = i)) as [->|]; [rewrite lookup_insert_eq; eauto|rewrite lookup_insert_ne by done; by eapply Hn].
  - intros k k' i Hi Hi'. rewrite (refiles_dir _ _ _ Hrf). by eapply H1.
  - intros i m Hm. cbn in *. destruct (decide (ino = i)) as [->|]; [by apply (Hf i n)|]. rewrite lookup_insert_ne in Hm by done. by apply (Hf i m).
  - by rewrite (refiles_dir _ _ _ Hrf).
Qed.

(** A new file at a free location. *)
Definition added (f : fs) (loc : path) (n : inode) (t : Z) : fs :=
  FS (<[loc := fresh f]> (names f)) (<[fresh f := n]> (nodes f)) (fresh f + 1) t.

Lemma free_name f loc : fs_wf f -> node_at f loc = None -> names f !! loc = None.
Proof.
  intros Hwf. unfold node_at. destruct (names f !! loc) as [i|] eqn:Hi; [|done]. destruct (wf_node f Hwf _ _ Hi) as [n ->]. done.
Qed.

Lemma added_node f loc n t k : writable f -> node_at f loc = None ->
  node_at (added f loc n t) k = if decide (k = loc) then Some (fresh f, n) else node_at f k.
Proof.
  intros [Hwf Hf _] Hl. unfold node_at, added. cbn [names nodes]. destruct (decide (k = loc)) as [->|Hne].
  - by rewrite !lookup_insert_eq.
  - rewrite lookup_insert_ne by done. destruct (names f !! k) as [i|] eqn:Hi; [|done]. destruct (wf_node f Hwf _ _ Hi) as [m Hm].
    rewrite lookup_insert_ne; [done|]. pose proof (Hf i m Hm). lia.
Qed.

Lemma added_refiles f loc n d t : writable f -> node_at f loc = None -> i_kind n = KFile d -> refiles f (added f loc n t).
Proof.
  intros Hw Hl Hk. split; intros k; rewrite (added_node f loc n t k Hw Hl); destruct (decide (k = loc)) as [->|].
  - intros i m Hm. by rewrite Hl in Hm.
  - intros i m Hm. by exists m.
  - intros _. right. by exists (fresh f), n, d.
  - by left.
Qed.

Lemma added_writable f loc n d t : writable f -> located f loc -> node_at f loc = None -> i_kind n = KFile d -> writable (added f loc n t).
Proof.
  intros Hw [Hpl Hre] Hl Hk. pose proof (added_refiles f loc n d t Hw Hl Hk) as Hrf. destruct Hw as [[Hp Hn H1] Hf Hr].
  assert (forall k i, names f !! k = Some i -> i <> fresh f) as Hold.
  { intros k i Hi ->. destruct (Hn _ _ Hi) as [m Hm]. pose proof (Hf _ _ Hm). lia. }
  split; [split|..]; unfold added; cbn [names nodes fresh].
  - intros k c i Hi. fold (added f loc n t). rewrite (refiles_dir _ _ _ Hrf). apply lookup_insert_Some in Hi as [[-> _]|[_ Hi]]; [|by eapply Hp].
    apply plain_app in Hpl as [_ Hpl]. apply Forall_cons_iff in Hpl as [Hpl _]. split; [|done]. rewrite removelast_last in Hre. by apply Hre.
  - intros k i Hi. apply lookup_insert_Some in Hi as [[_ <-]|[_ Hi]]; [rewrite lookup_insert_eq; eauto|].
    rewrite lookup_insert_ne by (by apply not_eq_sym, (Hold k)). by eapply Hn.
  - intros k k' i Hi Hi'. fold (added f loc n t). rewrite (refiles_dir _ _ _ Hrf). intros Hd.
    assert (k <> loc) as Hkl by (intros ->; unfold is_dir_at in Hd; by rewrite Hl in Hd). rewrite lookup_insert_ne in Hi by done.
    apply lookup_insert_Some in Hi' as [[_ <-]|[_ Hi']]; [by destruct (Hold _ _ Hi)|by eapply H1].
  - intros i m Hm. cbn in *. apply lookup_insert_Some in Hm as [[<- _]|[_ Hm]]; [lia|]. pose proof (Hf _ _ Hm). lia.
  - fold (added f loc n t). by rewrite (refiles_dir _ _ _ Hrf).
Qed.

Lemma open_refiles f f' p ino n d : refiles f f' -> fs_open false false f p = Ok ino -> nodes f' !! ino = Some n -> i_kind n = KFile d ->
  fs_open false false f' p = Ok ino.
Proof.
  intros Hr Ho Hn Hk. unfold fs_open in *. inv_ok. rewrite (resolve_refiles f f' Hr _ _ _ E). destruct (node_at f a) as [[i m]|] eqn:Hm; [|done].
  destruct (rf_kept f f' Hr _ _ _ Hm) as (m' & Hm' & _). rewrite Hm'. assert (i = ino) as -> by (destruct (i_kind m); by inv_ok).
  apply node_at_nodes in Hm' as [_ Hm']. rewrite Hn in Hm'. injection Hm' as <-. by rewrite Hk.
Qed.

Section system.
Context `{machine} (Hquiet : quiet).

Lemma triple_open_truncate p f : writable f ->
  triple (fun x => x = f) (open_truncate p) (fun ino f' => writable f' /\ wrote_at ino p [] f f') (fun _ => True).
Proof.
  intros Hw. apply triple_syscall; [done|done|]. intros x ino f' -> Ho. destruct (fs_open false false f p) as [i|e] eqn:Hop.
  - inv_ok. unfold fs_truncate in E. destruct (nodes f !! ino) as [n|] eqn:Hn; [|done]. destruct (i_kind n) as [|d| |] eqn:Hk; try done.
    injection E as <-. set (n' := Inode _ _ _ _ _ _ _ _ _). unfold tick, set_node. cbn [names nodes fresh now].
    split; [by apply (set_file_writable f ino n n' d [])|].
    split; [|split; [|split]]; cbn [names nodes].
    + apply (open_refiles f _ p ino n' []); [by apply (set_file_at f ino n n' d [])|done|cbn [nodes]; apply lookup_insert_eq|done].
    + exists n'. by rewrite lookup_insert_eq.
    + intros i m Hne. by rewrite lookup_insert_ne.
    + done.
  - case_bool_decide; [|done]. inv_ok. pose proof (resolve_located f true p a (wr_root f Hw) E) as Hloc.
    unfold fs_create in Ho.
    assert (locate f a = Ok a) as Hla.
    { destruct Hloc as [Hp Hd]. destruct a as [|c a _] using rev_ind; [done|]. rewrite removelast_last in Hd. by apply locate_child. }
    rewrite Hla in Ho. destruct (node_at f a) as [[j m]|] eqn:Hno; [done|]. injection Ho as <- <-.
    set (n := new_node _ _ _ _ _). unfold tick, set_name. cbn [names nodes fresh now]. fold (added f a n (now f + 1)).
    split; [by apply (added_writable f a n [])|].
    pose proof (added_refiles f a n [] (now f + 1) Hw Hno eq_refl) as Hrf.
    pose proof (added_node f a n (now f + 1) a Hw Hno) as Hat. rewrite decide_True in Hat by done.
    split; [|split; [|split]].
    + unfold fs_open. change (negb false) with true. rewrite (resolve_refiles f _ Hrf _ _ _ E). rewrite Hat. done.
    + exists n. unfold added. cbn [nodes]. by rewrite lookup_insert_eq.
    + intros i m Hne Hm. unfold added. cbn [nodes]. by rewrite lookup_insert_ne.
    + intros k i Hi. unfold added. cbn [names]. rewrite lookup_insert_ne; [done|]. intros <-.
      by rewrite (free_name f a (wr_wf f Hw) Hno) in Hi.
Qed.

Lemma triple_write_bytes p data f : writable f ->
  triple (fun x => x = f) (write_bytes p data) (fun _ f' => writable f' /\ wrote p data f f') (fun _ => True).
Proof.
  intros Hw. eapply triple_bind; [by apply triple_open_truncate|]. intros ino.
  apply (triple_finally _ _ _ (fun _ f' => writable f' /\ wrote p data f f') _ (fun _ => True));
    [|intros u; apply (triple_query Hquiet); [done|by intros]|by apply (triple_query Hquiet)].
  apply (triple_change Hquiet); [done|]. intros f1 f2 (Hw1 & Ho & (n & Hn & Hk) & Hns & Hnm) Hf2. unfold fs_write in Hf2. rewrite Hn, Hk in Hf2.
  injection Hf2 as <-. set (n' := Inode _ _ _ _ _ _ _ _ _). unfold tick, set_node. cbn [names nodes fresh now app].
  split; [by apply (set_file_writable f1 ino n n' [] data)|]. exists ino. split; [|split; [|split]]; cbn [names nodes].
  - apply (open_refiles f1 _ p ino n' data); [by apply (set_file_at f1 ino n n' [] data)|done|cbn [nodes]; apply lookup_insert_eq|done].
  - exists n'. by rewrite lookup_insert_eq.
  - intros i m Hne Hm. rewrite lookup_insert_ne by done. by apply Hns.
  - done.
Qed.
End system.

(** ** Files and directories that appear *)

Lemma create_added u k perm f p loc : locate f p = Ok loc -> node_at f loc = None ->
  exists n, i_kind n = k /\ fs_create u k perm f p = Ok (fresh f, added f loc n (now f + 1)).
Proof.
  intros Hl Hn. unfold fs_create. rewrite Hl, Hn. eexists. split; [|reflexivity]. done.
Qed.

Lemma added_extends f loc n t : based f -> node_at f loc = None -> extends f (added f loc n t).
Proof.
  intros Hb Hl. constructor; unfold added; cbn [names nodes].
  - intros k i Hk. rewrite lookup_insert_ne; [done|]. intros <-. destruct (bs_node f Hb _ _ Hk) as [m Hm]. unfold node_at in Hl. by rewrite Hk, Hm in Hl.
  - intros i m Hm. rewrite lookup_insert_ne; [done|]. intros <-. apply (bs_fresh f Hb) in Hm. lia.
Qed.

Lemma added_based f loc n t : based f -> based (added f loc n t).
Proof.
  intros [Hf Hn]. constructor; unfold added; cbn [names nodes fresh].
  - intros i m. cbn. intros [[<- _]|[_ Hm]]%lookup_insert_Some; [lia|]. apply Hf in Hm. lia.
  - intros k i [[_ <-]|[_ Hk]]%lookup_insert_Some; [rewrite lookup_insert_eq; eauto|].
    destruct (Hn k i Hk) as [m Hm]. destruct (decide (fresh f = i)) as [<-|]; [rewrite lookup_insert_eq; eauto|rewrite lookup_insert_ne; eauto].
Qed.

Lemma wf_added f loc n t : fs_wf f -> based f -> loc <> [] -> is_dir_at f (removelast loc) = true -> plain_path loc -> node_at f loc = None ->
  fs_wf (added f loc n t).
Proof.
  intros [Hp Hn H1] [Hf Hd] Hne Hdir Hpl Hl.
  assert (names f !! loc = None) as Hfree by (apply free_name; [by split|done]).
  assert (forall k i, names f !! k = Some i -> i <> fresh f) as Hold.
  { intros k i Hi ->. destruct (Hn _ _ Hi) as [m Hm]. apply Hf in Hm. lia. }
  assert (forall k, k <> loc -> is_dir_at (added f loc n t) k = is_dir_at f k) as Hsame.
  { intros k Hk. unfold is_dir_at, node_at, added. cbn [names nodes]. rewrite lookup_insert_ne by done.
    destruct (names f !! k) as [i|] eqn:Hi; [|done]. by rewrite lookup_insert_ne by (apply not_eq_sym; by eapply Hold). }
  split; unfold added; cbn [names nodes]; fold (added f loc n t).
  - intros k c i [[-> _]|[_ Hi]]%lookup_insert_Some.
    + rewrite removelast_last in Hdir. apply plain_app in Hpl as [_ Hc]. apply Forall_cons_iff in Hc as [Hc _]. split; [|done].
      rewrite Hsame; [done|]. intros Heq. apply (f_equal length) in Heq. rewrite length_app in Heq. simpl in Heq. lia.
    + destruct (Hp _ _ _ Hi) as [Hkd Hc]. split; [|done]. rewrite Hsame; [done|]. intros ->. unfold is_dir_at in Hkd. by rewrite Hl in Hkd.
  - intros k i [[_ <-]|[_ Hi]]%lookup_insert_Some; [rewrite lookup_insert_eq; eauto|].
    rewrite lookup_insert_ne by (apply not_eq_sym; by eapply Hold). by eapply Hn.
  - intros k k' i [[<- <-]|[Hk Hi]]%lookup_insert_Some [[<- Hi']|[Hk' Hi']]%lookup_insert_Some Hdk; try done.
    + by destruct (Hold _ _ Hi').
    + by destruct (Hold _ _ Hi).
    + rewrite Hsame in Hdk by done. by eapply H1.
Qed.

End WriteFile.
