(* ===== verification/RootfsMain.v ===== *)
(** * Building a root file system archive: the whole program

    What [main] of scripts/build-runtime-rootfs.py leaves behind, whichever system call
    fails. *)
From Stdlib Require Import ZArith Lia.
From Stdlib Require Import Init.Byte.
From stdpp Require Import base list sets strings option gmap.
From S2P Require Import Prelude PyStr PyVal Bytes Json Sys Held FsRules Publish PublishPair Rootfs RootfsScan RootfsScanSafe.

Open Scope string_scope.
Open Scope list_scope.
Open Scope Z_scope.

Module RootfsMain.
Import PublishPair RootfsScanSafe.

(** A file with this content and mode 0600. *)
Definition published (f : fs) (p : path) (content : bytes) : Prop :=
  exists i n, node_at f p = Some (i, n) /\ i_kind n = KFile content /\ i_perm n = 0x180.

Section program.
Context `{machine} (Hquiet : quiet) (statvfs_at : fs -> path -> res statvfs) (compress : bytes -> list bytes).

(** One publication from a well-formed state. *)
Lemma publish_triple f0 dir name content candidates write : based f0 -> plain_path (dir ++ [name]) -> real_dir f0 dir ->
  triple (Publish.written f0 dir name []) (write (fresh f0)) (fun _ => Publish.written f0 dir name content)
    (Publish.holds f0 dir name content Publish.Writing) ->
  triple (fun f => f = f0) (Publish.atomic_write candidates (dir ++ [name]) write)
    (fun i f => i.2 = fresh f0 /\ Publish.kept f0 dir name f /\ Publish.complete f0 content f /\ names f !! (dir ++ [name]) = Some (fresh f0))
    (fun f => f = f0 \/ Publish.kept f0 dir name f).
Proof.
  intros Hb Hp Hr Hw. apply plain_app in Hp as [Hd Hn]. apply Forall_cons_iff in Hn as [Hn _].
  eapply triple_conseq; [apply (Publish.atomic_write_by Hquiet f0 dir name content Hd Hn Hr (based_free f0 Hb) (bs_node f0 Hb)); exact Hw|done|..].
  - intros i f (Hi & (Hk & Hc) & Hname). done.
  - intros f [->|[Hk _]]; auto.
Qed.

Lemma chunks_by f0 dir name chunks :
  triple (Publish.written f0 dir name []) (Publish.write_chunks (fresh f0) chunks)
    (fun _ => Publish.written f0 dir name (concat chunks)) (Publish.holds f0 dir name (concat chunks) Publish.Writing).
Proof. apply (Publish.triple_chunks Hquiet f0 dir name (concat chunks) [] chunks). Qed.

Lemma complete_published f0 f p content : Publish.complete f0 content f -> names f !! p = Some (fresh f0) -> published f p content.
Proof. intros (n & Hn & Hk & Hp) Hname. exists (fresh f0), n. unfold node_at. by rewrite Hname, Hn. Qed.

Lemma extends_published f g p content : extends f g -> published f p content -> published g p content.
Proof.
  intros He (i & n & Hn & Hk). apply node_at_nodes in Hn as [Hn Hi]. exists i, n. unfold node_at.
  by rewrite (ex_names _ _ He _ _ Hn), (ex_nodes _ _ He _ _ Hi).
Qed.

(** Reading back a published file. *)
Lemma obs_read_published f dir name content : plain_path (dir ++ [name]) -> real_dir f dir -> published f (dir ++ [name]) content ->
  observes f (read_bytes (dir ++ [name])) (fun d => d = content).
Proof.
  intros Hp Hr (i & n & Hn & Hk & _). eapply obs_conseq; [by apply obs_read_bytes|]. intros d (fd & Ho & Hd).
  assert (node_of f (dir ++ [name]) i n) as Hno by (exists (dir ++ [name]); split; [by apply resolve_child|done]).
  rewrite (open_node f _ i n fd Hno) in Hd; [|by rewrite Hk|done]. apply node_at_nodes in Hn as [_ Hn].
  unfold fs_read in Hd. rewrite Hn, Hk in Hd. congruence.
Qed.

(** The archive, the manifest, and the archive taken back when the manifest fails. *)
Lemma pair_triple f0 od on md mn content encoded c1 c2 write : based f0 ->
  plain_path (od ++ [on]) -> real_dir f0 od -> plain_path (md ++ [mn]) -> real_dir f0 md ->
  triple (Publish.written f0 od on []) (write (fresh f0)) (fun _ => Publish.written f0 od on content)
    (Publish.holds f0 od on content Publish.Writing) ->
  triple (fun f => f = f0)
    (let* i := Publish.atomic_write c1 (od ++ [on]) write in
     mcatch (publish_manifest c2 (md ++ [mn]) encoded ;;; mret tt)
       (fun e => Publish.remove_if_identity (od ++ [on]) i ;;; reraise e))
    (fun _ f => extends f0 f /\ published f (od ++ [on]) content /\ published f (md ++ [mn]) encoded) (extends f0).
Proof.
  intros Hb Hp1 Hr1 Hp2 Hr2 Hw. eapply triple_bind; [eapply triple_conseq; [by apply (publish_triple f0 od on content)|done|intros a f Ha; exact Ha|]|].
  { intros f [->|Hk]; [reflexivity|by eapply kept_extends]. }
  intros i. apply triple_pre. intros f1 (Hi & Hk1 & Hc1 & Hn1). destruct i as [dev t]. simpl in Hi. subst t.
  pose proof (kept_extends f0 Hb od on f1 Hk1) as He1. pose proof (kept_based f0 Hb od on f1 Hk1) as Hb1.
  assert (nodes f0 !! fresh f0 = None) as Hfresh.
  { destruct (nodes f0 !! fresh f0) eqn:E; [|done]. apply (bs_fresh f0 Hb) in E. lia. }
  assert (forall f, extends f1 f -> new_file f0 (fresh f0) f) as Hnew.
  { intros f He. split; [by etrans|]. destruct (Publish.kept_file _ _ _ _ Hk1) as (n & d & Hn & Hd). exists n, d. split; [by apply He|done]. }
  eapply (triple_catch _ _ _ _ (new_file f0 (fresh f0))).
  - eapply triple_bind; [|intros j; apply triple_ret; intros f Hf; exact Hf].
    unfold publish_manifest. eapply triple_conseq; [apply (publish_triple f1 md mn encoded); [done|done|by eapply extends_real|]|done|..].
    + pose proof (chunks_by f1 md mn [encoded]) as Hch. simpl concat in Hch. by rewrite app_nil_r in Hch.
    + intros j f (_ & Hk2 & Hc2 & Hn2). pose proof (kept_extends f1 Hb1 md mn f Hk2) as He2. split_and!; [by etrans| |].
      * eapply extends_published; [exact He2|]. by eapply complete_published.
      * by eapply complete_published.
    + intros f [->|Hk2]; [by apply Hnew|]. apply Hnew. by eapply kept_extends.
  - intros e. eapply triple_bind; [eapply triple_conseq; [by apply (remove_new Hquiet f0 Hb od on (fresh f0) Hp1 Hr1 Hfresh dev)|done|intros a f Ha; exact Ha|by intros f []]|].
    intros u. apply triple_reraise. by intros f [].
Qed.

(** What the program has published when it returns. *)
Definition built (args : arguments) (f0 : fs) (root : Publish.directory_ref) (output manifest_path : path) (rep : report) (f : fs) : Prop :=
  extends f0 f /\ exists loc entries contents capacity,
    ref_location f0 root = Ok loc /\ scanned f0 loc entries contents /\ admit_build args capacity entries = Ok tt /\
    published f manifest_path (manifest entries) /\ rep_manifest_sha256 rep = sha256 (manifest entries) /\
    rep_entries rep = zlen entries /\ rep_payload_bytes rep = payload_bytes entries /\
    if manifest_only args then rep_initramfs_sha256 rep = None
    else exists raw, write_newc entries contents = Ok raw /\ published f output (concat (compress raw)) /\
      rep_initramfs_sha256 rep = Some (sha256 (concat (compress raw))).

Lemma triple_assoc {A B C} (P : fs -> Prop) (m : M A) (k : A -> M B) (h : B -> M C) Q E :
  triple P (let* b := (let* a := m in k a) in h b) Q E -> triple P (let* a := m in let* b := k a in h b) Q E.
Proof. intros Ht w Hw. specialize (Ht w Hw). unfold mbind in *. by destruct (m w) as [[a|e] w']. Qed.

Lemma published_content f p a b : published f p a -> published f p b -> a = b.
Proof. intros (i & n & Hn & Hk & _) (j & m & Hm & Hk' & _). rewrite Hn in Hm. injection Hm as <- <-. congruence. Qed.

(** The archive callback writes the compressed archive, or raises. *)
Lemma archive_pair_triple f0 od on md mn entries contents encoded c1 c2 : based f0 ->
  plain_path (od ++ [on]) -> real_dir f0 od -> plain_path (md ++ [mn]) -> real_dir f0 md ->
  triple (fun f => f = f0)
    (let* i := Publish.atomic_write c1 (od ++ [on]) (archive compress entries contents) in
     mcatch (publish_manifest c2 (md ++ [mn]) encoded ;;; mret tt)
       (fun e => Publish.remove_if_identity (od ++ [on]) i ;;; reraise e))
    (fun _ f => extends f0 f /\ published f (md ++ [mn]) encoded /\
       exists raw, write_newc entries contents = Ok raw /\ published f (od ++ [on]) (concat (compress raw))) (extends f0).
Proof.
  intros Hb Hp1 Hr1 Hp2 Hr2. destruct (write_newc entries contents) as [raw|e] eqn:Hw.
  - eapply triple_conseq; [apply (pair_triple f0 od on md mn (concat (compress raw)) encoded c1 c2); try done|done| |done].
    + unfold archive. rewrite Hw. apply chunks_by.
    + intros u f (? & ? & ?). eauto.
  - intros w Hf. pose proof (fun content H => pair_triple f0 od on md mn content encoded c1 c2 (archive compress entries contents)
      Hb Hp1 Hr1 Hp2 Hr2 H w Hf) as Ht.
    assert (forall content, triple (Publish.written f0 od on []) (archive compress entries contents (fresh f0))
      (fun _ => Publish.written f0 od on content) (Publish.holds f0 od on content Publish.Writing)) as Hwr.
    { intros content w0 [Hu _]. unfold archive. by rewrite Hw. }
    pose proof (Ht [] (Hwr [])) as H1. pose proof (Ht [x00] (Hwr [x00])) as H2.
    destruct (mbind _ _ w) as [[u|e'] w']; [|done]. destruct H1 as (_ & H1 & _). destruct H2 as (_ & H2 & _).
    by pose proof (published_content _ _ _ _ H1 H2).
Qed.

Lemma main_triple args cands f0 root od on md mn : based f0 -> fs_wf f0 -> root_named f0 root ->
  plain_path (od ++ [on]) -> real_dir f0 od -> plain_path (md ++ [mn]) -> real_dir f0 md ->
  triple (fun f => f = f0) (main statvfs_at compress args cands root (od ++ [on]) (md ++ [mn]))
    (built args f0 root (od ++ [on]) (md ++ [mn])) (extends f0).
Proof.
  intros Hb Hwf Hroot Hp1 Hr1 Hp2 Hr2. assert (forall f, f = f0 -> extends f0 f) as Hsame by (by intros f ->).
  unfold main. eapply triple_bind; [eapply triple_conseq; [by apply (obs_scan Hquiet f0 root)|done|intros a f Ha; exact Ha|done]|].
  intros [entries contents]. apply triple_pre. intros f [-> (loc & fd & Hloc & _ & _ & Hs)].
  eapply triple_bind; [eapply triple_conseq; [by apply (obs_lift f0)|done|intros a f Ha; exact Ha|done]|].
  intros []. apply triple_pre. intros f [-> Hlim].
  eapply triple_bind; [eapply triple_conseq; [by apply (obs_query Hquiet f0)|done|intros a f Ha; exact Ha|done]|].
  intros capacity. apply triple_pre. intros f [-> _].
  eapply triple_bind; [eapply triple_conseq; [by apply (obs_lift f0)|done|intros a f Ha; exact Ha|done]|].
  intros []. apply triple_pre. intros f [-> Hcap].
  assert (admit_build args capacity entries = Ok tt) as Hadm by (unfold admit_build; by rewrite Hlim, Hcap).
  destruct (manifest_only args) eqn:Hm.
  - eapply triple_bind; [eapply triple_conseq; [apply (publish_triple f0 md mn (manifest entries)); [done|done|done|]|done|intros a f Ha; exact Ha|]|].
    + pose proof (chunks_by f0 md mn [manifest entries]) as Hch. simpl concat in Hch. by rewrite app_nil_r in Hch.
    + intros f [->|Hk]; [reflexivity|by eapply kept_extends].
    + intros i. apply triple_ret. intros f (_ & Hk & Hc & Hn). split; [by eapply kept_extends|].
      exists loc, entries, contents, capacity. rewrite Hm. split_and!; try done. by eapply complete_published.
  - apply triple_assoc. eapply triple_bind; [by apply archive_pair_triple|]. intros u. apply triple_pre.
    intros f (He & Hman & raw & Hw & Hout).
    eapply triple_bind; [eapply triple_conseq; [apply (obs_read_published f od on (concat (compress raw))); [done|by eapply extends_real|done]|done|intros a g Ha; exact Ha|by intros g ->]|].
    intros data. apply triple_ret. intros g [-> ->]. split; [done|]. exists loc, entries, contents, capacity. rewrite Hm.
    split_and!; try done. by exists raw.
Qed.

(** C31. The builder's outputs are a pair.  On a machine where no other process runs,
    whichever system call fails: every name that existed still names the same inode, and
    every file that existed is unchanged, also after the archive has been taken back.
    When [main] returns: the root was scanned completely, the limits and the capacity
    check passed, and the manifest of that scan and (unless only the manifest was asked
    for) its compressed archive are published with mode 0600, with the digests that are
    printed.  The root is given by a path, or as an inherited descriptor whose directory
    still has a name; the two output directories exist and no link leads to them. *)
Theorem main_publishes_pair args cands w root od on md mn :
  based (w_fs w) -> fs_wf (w_fs w) -> root_named (w_fs w) root ->
  plain_path (od ++ [on]) -> real_dir (w_fs w) od -> plain_path (md ++ [mn]) -> real_dir (w_fs w) md ->
  match main statvfs_at compress args cands root (od ++ [on]) (md ++ [mn]) w with
  | (Ok rep, w') => built args (w_fs w) root (od ++ [on]) (md ++ [mn]) rep (w_fs w')
  | (Err _, w') => extends (w_fs w) (w_fs w')
  end.
Proof. intros. by apply main_triple. Qed.
End program.
End RootfsMain.
