(* ===== verification/RootfsRun.v ===== *)
(** * A root directory, scanned

    A concrete tree: a file with two names, an opaque directory, and a symbolic link to
    the file.  The scan returns, and its theorems apply. *)
From Stdlib Require Import ZArith Lia.
From Stdlib Require Import Init.Byte.
From stdpp Require Import base list sets strings option gmap.
From S2P Require Import Prelude PyStr PyVal Bytes Json Sys Held FsRules Publish PublishPair Rootfs RootfsTrip RootfsSafe RootfsScan RootfsScanSafe RootfsMain.

Open Scope string_scope.
Open Scope list_scope.
Open Scope Z_scope.

Module RootfsRun.
Import RootfsTrip RootfsSafe RootfsScan RootfsScanSafe RootfsMain.

Definition node (k : kind) (perm nlink : Z) (xattrs : list (pystr * bytes)) : inode := Inode k perm 0 0 1 nlink 5 6 xattrs.
Definition host : fs :=
  FS (list_to_map [([], 1); ([str "r"], 2); (strs ["r"; "a"], 3); (strs ["r"; "d"], 4); (strs ["r"; "d"; "b"], 3); (strs ["r"; "d"; "l"], 5)])
     (list_to_map [(1, node KDir 0x1ED 2 []); (2, node KDir 0x1ED 2 []); (3, node (KFile (bstr "hello")) 0x1A4 2 []);
                   (4, node KDir 0x1C0 2 [(str "user.overlay.opaque", bstr "y")]); (5, node (KLink (str "../a")) 0x1FF 1 [])])
     6 7.
Definition start : world := World host 0.
Definition root : path := [str "r"].
Definition here : machine := lone_machine superuser [].
Definition run (w : world) : res (list Entry * contents_t) * world := @scan here (Publish.AtPath root) w.

Definition returned (r : res (list Entry * contents_t)) : bool :=
  match r with Ok (entries, _) => bool_decide (map e_path entries = strs ["."; "a"; "d"; "d/b"; "d/l"]) | Err _ => false end.

Lemma scan_run_ok : returned (run start).1 = true.
Proof. vm_cast_no_check (@eq_refl bool true). Qed.

(** *** Well-formedness, decided *)

Definition names_list (f : fs) : list (path * Z) := map_to_list (names f).

Definition fs_wfb (f : fs) : bool :=
  forallb (fun kv =>
    match rev kv.1 with [] => true | c :: up => is_dir_at f (rev up) && plain_name c end
    && match nodes f !! kv.2 with Some _ => true | None => false end
    && forallb (fun kv' => negb (kv.2 =? kv'.2) || negb (is_dir_at f kv.1) || bool_decide (kv.1 = kv'.1)) (names_list f))
  (names_list f).

Lemma names_elem f k i : names f !! k = Some i <-> (k, i) ∈ names_list f.
Proof. unfold names_list. by rewrite elem_of_map_to_list. Qed.

Lemma fs_wfb_ok f : fs_wfb f = true -> fs_wf f.
Proof.
  unfold fs_wfb. rewrite forallb_elem. intros Hb. constructor.
  - intros k c i Hk. apply names_elem, Hb in Hk. bool_prop. cbn [fst] in *. rewrite rev_app_distr in *. simpl in *.
    rewrite rev_involutive in *. by bool_prop.
  - intros k i Hk. apply names_elem, Hb in Hk. bool_prop. cbn [snd] in *. by destruct (nodes f !! i).
  - intros k k' i Hk Hk' Hd. apply names_elem in Hk. apply Hb in Hk. bool_prop. rewrite forallb_elem in H0.
    apply names_elem in Hk'. apply H0 in Hk'. cbn [fst snd] in Hk'. rewrite Z.eqb_refl, Hd in Hk'. simpl in Hk'. by bool_prop.
Qed.

Lemma host_wf : fs_wf host.
Proof. apply fs_wfb_ok. vm_cast_no_check (@eq_refl bool true). Qed.

Lemma scan_describes_tree_witness : exists entries contents loc,
  map e_path entries = strs ["."; "a"; "d"; "d/b"; "d/l"] /\ scanned host loc entries contents.
Proof.
  pose proof scan_run_ok as Hok. unfold run in Hok. pose proof host_wf as Hwf. change host with (w_fs start) in Hwf |- *.
  generalize start Hok Hwf. intros w Hw Hwf'. pose proof (@scan_describes_tree here (lone_quiet _ _) w (Publish.AtPath root) Hwf' I) as Ht.
  destruct (@scan here (Publish.AtPath root) w) as [[[entries contents]|e] w']; [|discriminate Hw].
  destruct Ht as [_ (loc & fd & _ & _ & _ & Hs)]. exists entries, contents, loc.
  split; [exact (proj1 (bool_decide_eq_true _) Hw)|exact Hs].
Defined.

(** *** What the archive format can hold, decided *)

Definition os_textb (s : pystr) (limit : Z) : bool :=
  match fsencode s with Ok raw => bool_decide (fsdecode raw = Ok s) && (zlen raw <? limit) | Err _ => false end.

Definition below_root (f : fs) (loc : path) : list (path * Z) :=
  omap (fun kv => if below loc kv.1 then Some (drop (length loc) kv.1, kv.2) else None) (names_list f).

Definition nodeb (n : inode) : bool :=
  (0 <=? i_uid n) && (i_uid n <? 2 ^ 32) && (0 <=? i_gid n) && (i_gid n <? 2 ^ 32) &&
  match i_kind n with KFile d => zlen d <? 2 ^ 32 | KLink t => os_textb t (2 ^ 32) | _ => true end.

Definition archivableb (f : fs) (loc : path) (entries : list Entry) : bool :=
  forallb (fun pi => negb (text pi.1 =s str "TRAILER!!!") && os_textb (text pi.1) (2 ^ 32 - 1)
             && match nodes f !! pi.2 with Some n => nodeb n | None => true end
             && forallb (fun qj => negb (text pi.1 =s text qj.1) || bool_decide (pi.2 = qj.2)) (below_root f loc))
    (below_root f loc)
  && (zlen entries + 1 <? 2 ^ 32)
  && forallb (fun e1 => forallb (fun e2 =>
       match e_hardlink e1, e_hardlink e2 with
       | Some h, Some h' => negb (h =s h') ||
           existsb (fun pi => (text pi.1 =s e_path e1) && existsb (fun qj => (text qj.1 =s e_path e2) && (pi.2 =? qj.2)) (below_root f loc))
             (below_root f loc)
       | _, _ => true
       end) entries) entries.

Lemma below_root_elem f loc p i : names f !! (loc ++ p) = Some i <-> (p, i) ∈ below_root f loc.
Proof.
  unfold below_root. rewrite list_elem_of_omap. split.
  - intros Hp. exists (loc ++ p, i). split; [by apply names_elem|]. cbn [fst snd]. unfold below.
    rewrite bool_decide_true by (by eexists). by rewrite drop_app_length.
  - intros ([k j] & Hin & Hk). cbn [fst snd] in Hk. unfold below in Hk. case_bool_decide as Hpre; [|done].
    destruct Hpre as [q ->]. rewrite drop_app_length in Hk. injection Hk as -> ->. by apply names_elem.
Qed.

Lemma os_textb_ok s limit : os_textb s limit = true -> exists raw, fsdecode raw = Ok s /\ zlen raw < limit.
Proof. unfold os_textb. destruct (fsencode s) as [raw|]; [|done]. intros Hb. bool_prop. eauto. Qed.

Lemma nodeb_ok n : nodeb n = true -> u32_ok (i_uid n) /\ u32_ok (i_gid n) /\
  match i_kind n with
  | KFile d => zlen d < 2 ^ 32
  | KLink t => exists raw, fsdecode raw = Ok t /\ zlen raw < 2 ^ 32
  | _ => True
  end.
Proof.
  unfold nodeb, u32_ok. intros Hb. bool_prop. split_and!; try done.
  destruct (i_kind n); try done; [by bool_prop|by apply os_textb_ok].
Qed.

Lemma archivableb_ok f loc entries : archivableb f loc entries = true -> archivable f loc entries.
Proof.
  unfold archivableb. intros Hb. apply andb_true_iff in Hb as [Hb Hlinks]. apply andb_true_iff in Hb as [Hb Hcount].
  rewrite forallb_elem in Hb. rewrite forallb_elem in Hlinks. bool_prop. constructor.
  - intros p i Hp. apply below_root_elem, Hb in Hp. bool_prop. cbn [fst] in *. split; [by apply str_eqb_neq|].
    apply os_textb_ok in H2 as (raw & Hr & Hl). exists raw. split; [done|lia].
  - intros p i n Hp. apply node_at_nodes in Hp as [Hp Hn]. apply below_root_elem, Hb in Hp. bool_prop. cbn [snd] in *.
    rewrite Hn in *. by apply nodeb_ok.
  - done.
  - intros e1 e2 p1 p2 i1 i2 h He1 He2 Hh1 Hh2 Ht1 Ht2 N1 N2. specialize (Hlinks e1 He1). rewrite forallb_elem in Hlinks.
    specialize (Hlinks e2 He2). rewrite Hh1, Hh2 in Hlinks. rewrite (proj2 (str_eqb_eq h h)) in Hlinks by done. cbn [negb orb] in Hlinks.
    apply existsb_exists in Hlinks as ([q1 j1] & Hq1 & Hb1). apply andb_true_iff in Hb1 as [E1 Hb1].
    apply existsb_exists in Hb1 as ([q2 j2] & Hq2 & Hb2). apply andb_true_iff in Hb2 as [E2 Hj]. cbn [fst snd] in *.
    apply list_elem_of_In in Hq1, Hq2. apply str_eqb_eq in E1, E2. apply Z.eqb_eq in Hj as <-.
    apply below_root_elem in N1, N2.
    assert (forall p i q j, (p, i) ∈ below_root f loc -> (q, j) ∈ below_root f loc -> text p = text q -> i = j) as Huniq.
    { intros p i q j Hp Hq Heq. apply Hb in Hp. bool_prop. rewrite forallb_elem in H0. apply H0 in Hq. cbn [fst snd] in Hq.
      rewrite Heq, (proj2 (str_eqb_eq _ _)) in Hq by done. simpl in Hq. by bool_prop. }
    rewrite (Huniq p1 i1 q1 j1), (Huniq p2 i2 q2 j1) by (try done; congruence). done.
Qed.

(** The whole way: scan, write, compress, verify. *)
Definition shippable (r : res (list Entry * contents_t) * world) : bool :=
  match r with (Ok (entries, _), _) => archivableb host root entries | _ => false end.

Lemma scan_shippable : shippable (run start) = true.
Proof. vm_cast_no_check (@eq_refl bool true). Qed.

Lemma root_location : resolve host false root = Ok root.
Proof. vm_compute. reflexivity. Qed.

Lemma scanned_tree_verifies_witness : exists entries contents w' archive,
  run start = (Ok (entries, contents), w') /\ write_newc entries contents = Ok archive /\
  VerifyRootfs.verify unstored (stored archive) (manifest entries) =
  Ok (VerifyRootfs.Summary (sha256 (stored archive)) (sha256 (manifest entries)) (zlen entries) (zlen archive)).
Proof.
  pose proof scan_shippable as Hok. pose proof host_wf as Hwf. pose proof root_location as Hloc. unfold run in *.
  change host with (w_fs start) in Hwf, Hloc. unfold shippable in Hok. change host with (w_fs start) in Hok.
  revert Hok Hwf Hloc. generalize start. intros w Hok Hwf Hloc.
  destruct (@scan here (Publish.AtPath root) w) as [[[entries contents]|e] w'] eqn:Hrun; [|discriminate Hok].
  destruct (@scanned_tree_verifies here (lone_quiet _ _) stored unstored w w' root root entries contents
    (fun data => eq_refl) stored_header Hwf Hrun Hloc (archivableb_ok _ _ _ Hok)) as (archive & Hw & Hv).
  exists entries, contents, w', archive. split; [reflexivity|]. split; [exact Hw|exact Hv].
Defined.

(** *** The whole program *)

Definition main_run (w : world) : res report * world :=
  @main here (fun _ _ => Ok (Statvfs 1000 4096 100)) (fun raw => [stored raw]) (Arguments_ false 0 0 4096 4)
    ([str "x"], [str "y"]) (Publish.ProcFd 2) [str "o"] [str "m"] w.

Definition printed (r : res report) : bool :=
  match r with Ok rep => (rep_entries rep =? 5) && bool_decide (is_Some (rep_initramfs_sha256 rep)) | Err _ => false end.

Lemma main_run_ok : printed (main_run start).1 = true.
Proof. vm_cast_no_check (@eq_refl bool true). Qed.

Lemma host_based : PublishPair.based host.
Proof. split; [apply fresh_okb_ok; vm_cast_no_check (@eq_refl bool true)|]. intros k i Hk. by eapply (wf_node host host_wf). Qed.

(** The root as the build script passes it: an inherited descriptor. *)
Lemma host_named : root_named host (Publish.ProcFd 2).
Proof. exists root. vm_compute. reflexivity. Qed.

Lemma main_publishes_pair_witness : exists rep w', main_run start = (Ok rep, w') /\
  built (fun raw => [stored raw]) (Arguments_ false 0 0 4096 4) host (Publish.ProcFd 2) [str "o"] [str "m"] rep (w_fs w').
Proof.
  pose proof main_run_ok as Hok. pose proof host_wf as Hwf. pose proof host_based as Hb. pose proof host_named as Hn.
  assert (real_dir host []) as Hr by (apply (dir_real host Hwf); vm_compute; reflexivity).
  unfold main_run in *. change host with (w_fs start) in Hwf, Hb, Hn, Hr |- *. revert Hok Hwf Hb Hn Hr. generalize start. intros w Hok Hwf Hb Hn Hr.
  pose proof (@main_publishes_pair here (lone_quiet _ _) (fun _ _ => Ok (Statvfs 1000 4096 100)) (fun raw => [stored raw])
    (Arguments_ false 0 0 4096 4) ([str "x"], [str "y"]) w (Publish.ProcFd 2) [] (str "o") [] (str "m") Hb Hwf
    Hn ltac:(repeat constructor) Hr ltac:(repeat constructor) Hr) as Ht. cbn [app] in Ht.
  destruct (@main here _ _ _ _ _ [str "o"] [str "m"] w) as [[rep|e] w']; [|discriminate Hok].
  exists rep, w'. split; [reflexivity|exact Ht].
Defined.
End RootfsRun.
