(* ===== verification/Materialize.v ===== *)
(** * Materializing read-only binds
    (the file-system part of scripts/materialize-runtime-binds.py)

    Each source is opened component by component without following a link, described
    by the manifest of its tree before and after [cp] copies it, and the copy must have
    the same manifest.  [cp] is a parameter: an exit status and any change of the file
    system. *)
From Stdlib Require Import ZArith Lia.
From Stdlib Require Import Init.Byte.
From stdpp Require Import base list sets strings option gmap.
From S2P Require Import Prelude PyStr PyVal Bytes Json Sys Held Publish Rootfs RootfsScan BindPlan.

Open Scope string_scope.
Open Scope list_scope.
Open Scope Z_scope.

Module Materialize.
Export RootfsScan BindPlan.

Section materialize.
Context `{machine}.

(** *** Opening a source *)

(** [except BaseException: os.close(descriptor); raise] *)
Definition closing {A} (descriptor : Z) (m : M A) : M A := mcatch m (fun e => close descriptor ;;; reraise e).

(** One component after the other, each below the descriptor of the one before. *)
Fixpoint open_components (descriptor : Z) (comps : path) : M Z :=
  match comps with
  | [] => mret descriptor
  | component :: rest =>
      let final := bool_decide (rest = []) in
      let* following := closing descriptor (os_error_as MaterializationError
        "must not traverse a symlink, non-directory, or unavailable component"
        (openat true (negb final) descriptor component)) in
      closing descriptor (close descriptor) ;;;
      open_components following rest
  end.

Definition open_real_source (source : pystr) : M (Z * bool) :=
  lift (source_path_check source) ;;;
  let* top := open_ false true [] in
  let* descriptor := open_components top (pp_comps (pure_path source)) in
  closing descriptor
    (let* info := os_error_as MaterializationError "is unavailable" (fstat descriptor) in
     if s_isdir (st_mode info) then mret (descriptor, true)
     else if s_isreg (st_mode info) && (st_nlink info =? 1) then mret (descriptor, false)
     else mraise MaterializationError "must be a real directory or private single-link regular file").

(** *** Manifests *)

Definition manifest_t : Type := bytes * Z * Z.
Definition manifest_of (entries : list Entry) : manifest_t := (manifest entries, payload_bytes entries, zlen entries).

(** The entry of a single file. *)
Definition file_entry (info : stat_result) (data : bytes) : Entry :=
  mkEntry (str ".") (st_mode info) (st_uid info) (st_gid info) (zlen data) (str "regular") (Some (sha256 data)) None None.

Definition pread_turn (descriptor : Z) (s : bytes * Z) : M ((bytes * Z) + bytes) :=
  let '(data, offset) := s in
  let* chunk := pread descriptor (2 ^ 22) offset in
  match chunk with
  | [] => mret (inr data)
  | _ => mret (inl (data ++ chunk, offset + zlen chunk))
  end.

Definition manifest_descriptor (descriptor : Z) (is_directory : bool) : M manifest_t :=
  if is_directory then
    let* scanned := _scan_held descriptor in mret (manifest_of scanned.1)
  else
    let* before := fstat descriptor in
    mraise_if (negb (s_isreg (st_mode before)) || negb (st_nlink before =? 1))
      MaterializationError "read-only bind regular file must have exactly one link" ;;;
    let* xattrs := os_error_as MaterializationError "cannot inspect bind-file xattrs" (held_listxattr true descriptor []) in
    mraise_if (negb (bool_decide (xattrs = []))) MaterializationError "read-only bind regular file has unsupported xattrs" ;;;
    let* data := mwhile (pread_turn descriptor) ([], 0) in
    let* after := fstat descriptor in
    mraise_if (negb (bool_decide (_identity before = _identity after)) || negb (st_nlink after =? 1))
      MaterializationError "read-only bind regular file mutated during manifesting" ;;;
    mret (manifest_of [file_entry before data]).

(** The same for a path below the materialization root. *)
Definition manifest_bytes (root_fd : Z) (p : path) : M manifest_t :=
  let* info := held_stat false root_fd p in
  if s_isdir (st_mode info) then
    let* scanned := scan (Publish.BelowFd root_fd p) in mret (manifest_of scanned.1)
  else if s_isreg (st_mode info) then
    mraise_if (negb (st_nlink info =? 1)) MaterializationError "read-only bind regular file must have exactly one link" ;;;
    let* xattrs := os_error_as MaterializationError "cannot inspect bind-file xattrs" (held_listxattr false root_fd p) in
    mraise_if (negb (bool_decide (xattrs = []))) MaterializationError "read-only bind regular file has unsupported xattrs" ;;;
    let* data := _read_stable root_fd p info in
    let* after := held_stat false root_fd p in
    mraise_if (negb (bool_decide (_identity info = _identity after)) || negb (st_nlink after =? 1))
      MaterializationError "read-only bind regular file mutated during manifesting" ;;;
    mret (manifest_of [file_entry info data])
  else mraise MaterializationError "read-only bind source changed to an unsupported type".

(** *** The destination *)

Definition exclusive_write (p : path) (data : bytes) : M unit :=
  let* descriptor := create_excl 0x180 p in
  mfinally (write_fd descriptor data ;;; fsync descriptor) (close descriptor).

(** [try: ... except FileNotFoundError: ...] around an [lstat]. *)
Definition lstat_or_missing (root_fd : Z) (p : path) : M (option stat_result) :=
  mcatch (let* info := held_stat false root_fd p in mret (Some info))
    (fun e => if bool_decide (exn_cls e = FileNotFoundError) then mret None else reraise e).

Definition parent_step (root_fd : Z) (current : path) (component : pystr) : M path :=
  let current := current ++ [component] in
  let* found := lstat_or_missing root_fd current in
  let* info := match found with
               | Some info => mret info
               | None => held_mkdir 0x1ED root_fd current ;;; held_stat false root_fd current
               end in
  mraise_if (s_islnk (st_mode info) || negb (s_isdir (st_mode info)))
    MaterializationError "bind destination parent is not a real directory" ;;;
  mret current.

(** A new, empty file, made by an open that is closed at once. *)
Definition touch_excl (root_fd : Z) (p : path) : M unit :=
  let* descriptor := held_create 0x180 root_fd p in close descriptor.

Definition destination_path (root_fd : Z) (destination : pystr) (source_is_directory : bool) : M path :=
  lift (destination_path_check destination) ;;;
  let parts := pp_comps (pure_path destination) in
  let* current := mfor_each (parent_step root_fd) [] (removelast parts) in
  mraise_if (bool_decide (parts = [])) IndexError "tuple index out of range" ;;;
  let target := current ++ [List.last parts []] in
  let* found := lstat_or_missing root_fd target in
  match found with
  | None =>
      if source_is_directory then held_mkdir 0x1ED root_fd target else touch_excl root_fd target
  | Some info =>
      mraise_if (s_islnk (st_mode info) || (source_is_directory && negb (s_isdir (st_mode info)))
                 || (negb source_is_directory && negb (s_isreg (st_mode info))))
        MaterializationError "existing bind destination type differs from its source" ;;;
      if source_is_directory then held_rmtree root_fd target ;;; held_mkdir 0x1ED root_fd target
      else held_unlink root_fd target ;;; touch_excl root_fd target
  end ;;;
  mret target.

(** *** The program *)

Record limits := Limits { max_bytes : Z; max_inodes : Z }.

(** [/bin/cp --archive (--dereference) --reflink=never -- source target]: the source's
    descriptor, whether its contents are copied, and the target below the root. *)
Context (cp : fs -> Z -> bool -> Z -> path -> Z * fs).
Definition run_cp (source_fd : Z) (is_directory : bool) (root_fd : Z) (target : path) : M Z :=
  syscall (fun f => Ok (cp f source_fd is_directory root_fd target)).

Definition record_value (r : bind_record) (before : bytes) (parsed : pyval) : pyval :=
  VDict [(str "destination", VStr (br_destination r)); (str "source", VStr (br_source r)); (str "manifest", parsed);
         (str "manifest_sha256", VStr (sha256 before)); (str "ownership", VStr (str "numeric-uid-gid-preserved"));
         (str "propagation", VStr (str "none-materialized-copy"));
         (str "guest_policy", VStr (if br_private_seed r then str "private-writable-seed-copy"
                                    else str "bind-remount-ro-nodev-nosuid-noexec"))].

(** [json.loads] without a hook: the last of two equal keys wins. *)
Definition last_pairs (pairs : dict) : res dict := Ok (foldl (fun d kv => aset kv.1 kv.2 d) [] pairs).

(** The totals and what has been materialized so far. *)
Record progress := Progress { done_records : list pyval; destinations : list pystr; total_bytes : Z; total_inodes : Z }.

(** What happens while the source is open: the new totals and the source's manifest. *)
Definition copy_source (args : limits) (root_fd source_fd : Z) (source_is_directory : bool) (r : bind_record) (s : progress)
    : M (bytes * Z * Z) :=
  mraise_if (br_private_seed r && source_is_directory) MaterializationError "private writable seed must be a regular file" ;;;
  let* described := manifest_descriptor source_fd source_is_directory in
  let '(before, payload, inodes) := described in
  let bytes' := total_bytes s + payload in
  let inodes' := total_inodes s + inodes in
  mraise_if ((max_bytes args <? bytes') || (max_inodes args <? inodes'))
    MaterializationError "read-only bind inputs exceed the aggregate byte or inode limit" ;;;
  let* target := destination_path root_fd (br_destination r) source_is_directory in
  let* returncode := run_cp source_fd source_is_directory root_fd target in
  mraise_if (negb (returncode =? 0)) MaterializationError "copy read-only bind failed" ;;;
  let* after := manifest_descriptor source_fd source_is_directory in
  let* copied := manifest_bytes root_fd target in
  mraise_if (negb (bool_decide (before = after.1.1))) MaterializationError
    "read-only bind source mutated during materialization" ;;;
  mraise_if (negb (bool_decide (before = copied.1.1))) MaterializationError
    "read-only bind copy differs from its admitted source" ;;;
  mret (before, bytes', inodes').

Definition materialize_record (args : limits) (root_fd : Z) (s : progress) (item : pyval) : M progress :=
  let* r := lift (record_check (destinations s) item) in
  let* source := open_real_source (br_source r) in
  let '(source_fd, source_is_directory) := source in
  let* copied := mfinally (copy_source args root_fd source_fd source_is_directory r s) (close source_fd) in
  let '(before, bytes', inodes') := copied in
  let* parsed := lift (loads_bytes last_pairs float_constant before) in
  mret (Progress (done_records s ++ [record_value r before parsed]) (destinations s ++ [br_destination r]) bytes' inodes').

Definition result_bytes (records : list pyval) : bytes :=
  ascii_bytes (dumps no_floats compact
    (VDict [(str "schema_version", VInt 1); (str "readonly_binds", VList records)]) ++ [10]).

Definition main (args : limits) (plan_path : path) (target_root : pystr) (result : path) : M Z :=
  mraise_if ((max_bytes args <? 0) || (max_inodes args <? 1)) MaterializationError "read-only bind limits are invalid" ;;;
  let* plan_bytes := read_bytes plan_path in
  let* text := lift (utf8_decode Strict plan_bytes) in
  let* plan := lift (loads BindPlan.strict_object float_constant text) in
  let* items := lift (plan_records plan) in
  let* root := open_real_source target_root in
  let '(root_fd, root_is_directory) := root in
  mfinally
    (mraise_if (negb root_is_directory) MaterializationError "materialization root must be a real directory" ;;;
     let* s := mfor_each (materialize_record args root_fd) (Progress [] [] 0 0) items in
     let encoded := result_bytes (done_records s) in
     mraise_if (2 ^ 27 <? zlen encoded) MaterializationError "read-only bind manifest set exceeds its retained limit" ;;;
     exclusive_write result encoded ;;;
     mret 0)
    (close root_fd).
End materialize.
End Materialize.
