(* ===== verification/MaterializeSafe.v ===== *)
(** * What a materialized bind is

    Sources are opened without following a link; whatever [cp] does, a bind that is
    accepted is an exact copy of its source; and preparing a destination changes
    nothing outside the materialization root. *)
From Stdlib Require Import ZArith Lia.
From Stdlib Require Import Init.Byte.
From stdpp Require Import base list sets strings option gmap.
From S2P Require Import Prelude PyStr PyVal Bytes Json JsonTrip Sys Held FsRules Publish Rootfs RootfsTrip RootfsScan RootfsScanSafe.
From S2P Require Import BindPlan Materialize.

Open Scope string_scope.
Open Scope list_scope.
Open Scope Z_scope.

Module MaterializeSafe.
Import RootfsTrip RootfsScanSafe.
Export Materialize.

(** ** Canonical source paths *)

Lemma splitroot_join root cs : root = str "/" \/ root = str "//" ->
  Forall (fun c => c <> [] /\ SLASH ∉ c) cs -> splitroot (root ++ join_with SLASH cs) = (root, join_with SLASH cs).
Proof.
  intros Hr Hc. assert (forall x t, join_with SLASH cs = x :: t -> (x =? SLASH) = false) as Hx.
  { destruct cs as [|c cs]; [done|]. apply Forall_cons_iff in Hc as [[Hn Hs] _]. intros x t Ht. apply Z.eqb_neq. intros ->.
    destruct c as [|y c]; [done|]. assert (y = SLASH) as ->; [|apply Hs; by left].
    destruct cs; simpl in Ht; by injection Ht. }
  destruct (join_with SLASH cs) as [|x t] eqn:Hj; [by destruct Hr as [-> | ->]|].
  specialize (Hx x t eq_refl). destruct Hr as [-> | ->]; simpl; by rewrite Hx.
Qed.

Lemma pure_path_join root cs : root = str "/" \/ root = str "//" ->
  Forall (fun c => c <> [] /\ c <> str "." /\ SLASH ∉ c) cs -> pure_path (root ++ join_with SLASH cs) = PPath root cs.
Proof.
  intros Hr Hc. unfold pure_path. rewrite splitroot_join; [|done|].
  2:{ eapply list.Forall_impl; [exact Hc|]. by intros c (? & _ & ?). }
  f_equal. destruct (decide (cs = [])) as [->|Hne]; [done|].
  rewrite split_join; [|done|].
  2:{ eapply list.Forall_impl; [exact Hc|]. by intros c (_ & _ & ?). }
  clear Hne. induction Hc as [|c cs (H1 & H2 & _) _ IH]; [done|]. simpl.
  rewrite (proj2 (real_component_true c)) by done. by rewrite IH.
Qed.

Lemma norm_comps_up acc l : Forall (fun c => c <> str "..") acc -> Forall (fun c => c <> str "..") (norm_comps true acc l).
Proof.
  revert acc; induction l as [|c l IH]; intros acc Ha; simpl; [by apply Forall_rev|].
  destruct (negb (real_component c)); [by apply IH|]. destruct (c =s str "..") eqn:Hc; simpl.
  - destruct acc as [|p acc]; [by apply IH|]. apply Forall_cons_iff in Ha as [Hp Ha].
    rewrite (proj2 (str_eqb_neq _ _)) by done. by apply IH.
  - apply IH. constructor; [|done]. by apply str_eqb_neq.
Qed.

Lemma norm_comps_elem b acc l c : c ∈ norm_comps b acc l -> c ∈ acc \/ (c ∈ l /\ real_component c = true).
Proof.
  revert acc; induction l as [|x l IH]; intros acc; simpl; [rewrite list_elem_of_In, <-in_rev, <-list_elem_of_In; by left|].
  destruct (real_component x) eqn:Hx; simpl; [|intros [?|[??]]%IH; set_solver].
  destruct (negb (x =s _)); [intros [[->|?]%elem_of_cons|[??]]%IH; set_solver|].
  destruct acc as [|p acc]; [destruct b; intros [?|[??]]%IH; set_solver|].
  destruct (p =s _); intros [?|[??]]%IH; set_solver.
Qed.

(** A path that is absolute and its own normal form has plain components, without [..]. *)
Lemma canonical_components source : pp_root (pure_path source) <> [] ->
  pure_path (normpath (as_posix (pure_path source))) = pure_path source -> plain_path (pp_comps (pure_path source)).
Proof.
  intros Hroot Hnorm.
  pose proof (pure_path_comps source) as Hcs. set (cs := pp_comps (pure_path source)) in *.
  assert (pure_path source = PPath (splitroot source).1 cs) as Hpp.
  { unfold cs, pure_path. by destruct (splitroot source). }
  assert ((splitroot source).1 = str "/" \/ (splitroot source).1 = str "//") as Hr.
  { rewrite Hpp in Hroot. simpl in Hroot. apply splitroot_slash. destruct source as [|a t]; [done|].
    simpl in Hroot. destruct (Z.eqb_spec a SLASH) as [->|]; [by exists t|done]. }
  generalize dependent (splitroot source).1. intros root Hpp Hr.
  assert (as_posix (pure_path source) = root ++ join_with SLASH cs) as Htext by (rewrite Hpp; unfold as_posix; by destruct Hr as [-> | ->]).
  rewrite Htext in Hnorm. unfold normpath in Hnorm. rewrite splitroot_join in Hnorm; [|done|].
  2:{ eapply list.Forall_impl; [exact Hcs|]. by intros c (? & _ & ?). }
  set (ns := norm_comps (negb (root =s str "")) [] (split_on SLASH (join_with SLASH cs))) in *.
  assert (Forall (fun c => c <> str "..") ns) as Hup.
  { unfold ns. assert (negb (root =s str "") = true) as -> by (by destruct Hr as [-> | ->]). by apply norm_comps_up. }
  assert (Forall (fun c => c <> [] /\ c <> str "." /\ SLASH ∉ c) ns) as Hns.
  { apply list.Forall_forall. intros c Hin. apply norm_comps_elem in Hin as [Hin|[Hin Hreal]]; [by inversion Hin|].
    apply real_component_true in Hreal as [? ?]. pose proof (split_on_sep_free SLASH (join_with SLASH cs)) as Hf.
    rewrite list.Forall_forall in Hf. auto. }
  assert (PPath root ns = PPath root cs) as [= Heq].
  { rewrite <-Hpp. rewrite <-Hnorm. rewrite <-(pure_path_join root ns Hr Hns). by destruct Hr as [-> | ->]. }
  rewrite <-Heq. apply list.Forall_forall. intros c Hin. rewrite list.Forall_forall in Hup, Hns.
  destruct (Hns c Hin) as (H1 & H2 & _). specialize (Hup c Hin). unfold plain_name. apply negb_true_iff, mem_not_elem.
  unfold strs. simpl. set_solver.
Qed.

(** A text that is its own normal form is spelt by its components. *)
Lemma normal_form v : pp_root (pure_path v) <> [] -> normpath v = v -> exists root ns, (root = str "/" \/ root = str "//") /\ v = root ++ join_with SLASH ns /\
  pure_path v = PPath root ns /\ plain_path ns.
Proof.
  intros Hroot Hnorm. destruct (splitroot v) as [root rel] eqn:Hs.
  assert (pp_root (pure_path v) = root) as Hp by (unfold pure_path; by rewrite Hs). rewrite Hp in Hroot.
  assert (root = str "/" \/ root = str "//") as Hr.
  { replace root with (splitroot v).1 by (by rewrite Hs). apply splitroot_slash. destruct v as [|a t]; [by simplify_eq/=|].
    simpl in Hs. destruct (Z.eqb_spec a SLASH) as [->|]; [by exists t|by simplify_eq]. }
  unfold normpath in Hnorm. destruct v as [|a t]; [by simplify_eq/=|]. rewrite Hs in Hnorm. set (v := a :: t) in *.
  set (ns := norm_comps _ _ _) in Hnorm.
  assert (Forall (fun c => c <> str "..") ns) as Hup.
  { unfold ns. assert (negb (root =s str "") = true) as -> by (by destruct Hr as [-> | ->]). by apply norm_comps_up. }
  assert (Forall (fun c => c <> [] /\ c <> str "." /\ SLASH ∉ c) ns) as Hns.
  { apply list.Forall_forall. intros c Hin. apply norm_comps_elem in Hin as [Hin|[Hin Hreal]]; [by inversion Hin|].
    apply real_component_true in Hreal as [? ?]. pose proof (split_on_sep_free SLASH rel) as Hf.
    rewrite list.Forall_forall in Hf. auto. }
  assert (v = root ++ join_with SLASH ns) as Hv by (rewrite <-Hnorm; by destruct Hr as [-> | ->]).
  exists root, ns. split_and!; [done|done|rewrite Hv; by apply pure_path_join|]. apply list.Forall_forall. intros c Hin. rewrite list.Forall_forall in Hup, Hns.
  destruct (Hns c Hin) as (H1 & H2 & _). specialize (Hup c Hin). unfold plain_name. apply negb_true_iff, mem_not_elem.
  unfold strs. simpl. set_solver.
Qed.

Lemma normal_components v : pp_root (pure_path v) <> [] -> normpath v = v -> plain_path (pp_comps (pure_path v)).
Proof. intros Hr Hn. by destruct (normal_form v Hr Hn) as (root & ns & _ & _ & -> & Hp). Qed.

Lemma normal_text v : pp_root (pure_path v) <> [] -> normpath v = v -> as_posix (pure_path v) = v.
Proof. intros Hr Hn. destruct (normal_form v Hr Hn) as (root & ns & Hroot & -> & -> & _). unfold as_posix. by destruct Hroot as [-> | ->]. Qed.

Lemma source_components source : source_path_check source = Ok tt -> plain_path (pp_comps (pure_path source)).
Proof.
  unfold source_path_check. intros Hc. inv_ok. apply orb_false_iff in Hc as [Hc _]. apply orb_false_iff in Hc as [Hroot Hnorm].
  apply negb_false_iff, bool_decide_eq_true in Hnorm. apply str_eqb_neq in Hroot. by apply canonical_components.
Qed.

Section system.
Context `{machine} (Hquiet : quiet).

(** ** Opening a source *)

Lemma obs_closing {A} f fd (m : M A) phi : observes f m phi -> observes f (closing fd m) phi.
Proof.
  intros Hm. apply obs_catch; [done|]. intros e. eapply obs_bind; [by apply obs_query|]. intros _ _. apply obs_reraise.
Qed.

Lemma openat_child f pre d directory c fd : fs_wf f -> names f !! pre = Some d -> is_dir_at f pre = true -> plain_name c = true ->
  fs_openat true directory f d c = Ok fd ->
  names f !! (pre ++ [c]) = Some fd /\ (directory = true -> is_dir_at f (pre ++ [c]) = true) /\
  exists n, nodes f !! fd = Some n /\ not_link (i_kind n).
Proof.
  intros Hwf Hd Hdir Hc Ho. unfold fs_openat in Ho. destruct (nodes f !! d) as [m|]; [|done].
  rewrite (location_of_dir f Hwf pre d Hd Hdir) in Ho. destruct (i_kind m); try done. unfold fs_open in Ho. simpl in Ho.
  rewrite (resolve_child f pre c) in Ho; [| |by apply dir_real].
  2:{ apply plain_app. split; [by eapply named_plain|by constructor]. }
  destruct (node_at f (pre ++ [c])) as [[i n]|] eqn:Hn; [|done]. pose proof (node_at_nodes _ _ _ _ Hn) as [Hna Hno].
  unfold is_dir_at. rewrite Hn. destruct (i_kind n) eqn:Hk; try done; try (destruct directory; try done);
    injection Ho as <-; split_and!; try done; exists n; by rewrite Hk.
Qed.

(** The descriptor names the path itself: every component before the last is a
    directory, and none is a symbolic link. *)
Lemma obs_open_components f comps : fs_wf f -> plain_path comps -> forall pre d,
  names f !! pre = Some d -> is_dir_at f pre = true ->
  observes f (open_components d comps) (fun fd => names f !! (pre ++ comps) = Some fd).
Proof.
  intros Hwf Hp. induction Hp as [|c rest Hc _ IH]; intros pre d Hd Hdir; cbn [open_components].
  - apply obs_ret. by rewrite app_nil_r.
  - eapply obs_bind; [by eapply obs_closing, obs_os_error_as, obs_query|]. intros following Hf. cbv beta in Hf.
    destruct (openat_child f pre d _ c following Hwf Hd Hdir Hc Hf) as (Hn & Hdr & _).
    eapply obs_bind; [by apply obs_closing, obs_query|]. intros _ _. destruct rest as [|c' rest]; [by apply obs_ret|].
    eapply obs_conseq; [apply (IH (pre ++ [c]) following Hn); by apply Hdr|]. intros fd. by rewrite <-app_assoc.
Qed.

(** What a source is: a directory, or a file with one link. *)
Definition source_is (f : fs) (loc : path) (fd : Z) (is_directory : bool) : Prop :=
  names f !! loc = Some fd /\
  if is_directory then is_dir_at f loc = true
  else exists n d, nodes f !! fd = Some n /\ i_kind n = KFile d /\ i_nlink n = 1.

Lemma obs_open_real_source f source : fs_wf f -> is_dir_at f [] = true ->
  observes f (open_real_source source) (fun r => source_is f (pp_comps (pure_path source)) r.1 r.2).
Proof.
  intros Hwf Hroot. unfold open_real_source. eapply obs_bind; [by apply obs_lift|]. intros [] Hck. cbv beta in Hck.
  apply source_components in Hck. eapply obs_bind; [by apply obs_query|]. intros top Htop. cbv beta in Htop.
  assert (names f !! [] = Some top) as Hname.
  { unfold fs_open in Htop. simpl in Htop. destruct (node_at f []) as [[i n]|] eqn:Hn; [|done]. apply node_at_nodes in Hn as [Hn _].
    destruct (i_kind n); try done; injection Htop as <-; done. }
  eapply obs_bind; [by eapply (obs_open_components f _ Hwf Hck [] top)|]. intros fd Hfd. cbv beta in Hfd. simpl in Hfd.
  apply obs_closing. eapply obs_bind; [by eapply obs_os_error_as, obs_query|]. intros info Hi. cbv beta in Hi.
  unfold fs_fstat in Hi. destruct (nodes f !! fd) as [n|] eqn:Hn; [|done]. injection Hi as <-.
  destruct (s_isdir _) eqn:Hd.
  - apply s_isdir_kind in Hd. apply obs_ret. split; [done|]. simpl. unfold is_dir_at, node_at. by rewrite Hfd, Hn, Hd.
  - destruct (_ && _) eqn:Hreg; [|apply obs_raise]. apply andb_true_iff in Hreg as [Hreg Hl]. apply s_isreg_kind in Hreg as [d Hk].
    apply obs_ret. split; [done|]. simpl. exists n, d. split_and!; [done|done|]. simpl in Hl. lia.
Qed.

(** The source of a bind is opened without following a symbolic link anywhere in
    its path: when [open_real_source] returns, its descriptor is the node that the
    path's components name literally, and it is a directory, or a regular file with
    exactly one link. *)
Theorem open_real_source_literal w source : fs_wf (w_fs w) -> is_dir_at (w_fs w) [] = true ->
  match open_real_source source w with
  | (Ok (fd, is_directory), w') => w_fs w' = w_fs w /\ source_is (w_fs w) (pp_comps (pure_path source)) fd is_directory
  | (Err _, w') => w_fs w' = w_fs w
  end.
Proof.
  intros Hwf Hr. pose proof (obs_run (w_fs w) _ _ w (obs_open_real_source (w_fs w) source Hwf Hr) eq_refl) as Ho.
  by destruct (open_real_source source w) as [[[fd b]|e] w'].
Qed.

(** ** Manifests of sources and copies *)

(** The entries that describe what is at a location: a scanned tree, or one file. *)
Definition tree_is (f : fs) (loc : path) (entries : list Entry) : Prop :=
  (is_dir_at f loc = true /\ exists contents, scanned f loc entries contents) \/
  (exists i n d, node_at f loc = Some (i, n) /\ i_kind n = KFile d /\ i_nlink n = 1 /\ i_xattrs n = [] /\
    entries = [file_entry (stat_of i n) d]).

Lemma obs_pread_loop f fd n d : nodes f !! fd = Some n -> i_kind n = KFile d ->
  observes f (mwhile (pread_turn fd) ([], 0)) (fun data => data = d).
Proof.
  intros Hn Hk.
  apply (obs_while f _ (fun s => exists rest, d = s.1 ++ rest /\ s.2 = zlen s.1)); [|by exists d].
  intros [data offset] (rest & Hd & Ho). cbn [fst snd] in *. subst offset. cbn [pread_turn].
  eapply obs_bind; [by apply obs_query|]. intros chunk Hc. cbv beta in Hc. unfold fs_pread, fs_read in Hc. rewrite Hn, Hk in Hc.
  assert (zlen d = zlen data + zlen rest) as Hl by (rewrite Hd; apply zlen_app). pose proof (zlen_nonneg data). pose proof (zlen_nonneg rest).
  injection Hc as <-. rewrite (Z.min_l (zlen data) (zlen d)) by lia. replace (zlen d - zlen data) with (zlen rest) by lia.
  replace (drop (Z.to_nat (zlen data)) d) with rest by (rewrite Hd; unfold zlen; by rewrite Nat2Z.id, drop_app_length).
  destruct rest as [|x rest].
  - replace (take _ []) with (@nil byte) by (by destruct (Z.to_nat _)). apply obs_ret. by rewrite Hd, app_nil_r.
  - assert (0 < zlen (x :: rest)) as Hpos by (rewrite zlen_cons; pose proof (zlen_nonneg rest); lia).
    set (k := Z.to_nat (Z.min (2 ^ 22) (zlen (x :: rest)))).
    assert (k <> O) as Hk0 by (assert (0 < Z.min (2 ^ 22) (zlen (x :: rest))) by (by apply Z.min_glb_lt); unfold k; lia). clearbody k. destruct k as [|k]; [done|]. cbn [take].
    apply obs_ret. cbn [fst snd]. exists (drop k rest). rewrite zlen_app. split; [|done]. rewrite Hd, <-app_assoc. simpl. by rewrite take_drop.
Qed.

Lemma obs_manifest_descriptor f loc fd is_directory : fs_wf f -> source_is f loc fd is_directory ->
  observes f (manifest_descriptor fd is_directory) (fun m => exists entries, m = manifest_of entries /\ tree_is f loc entries).
Proof.
  intros Hwf [Hn Hs]. unfold manifest_descriptor. destruct is_directory.
  - eapply obs_bind; [by apply (obs_scan_held Hquiet f Hwf loc fd)|]. intros [entries contents] Hsc. apply obs_ret.
    exists entries. split; [done|]. left. split; [done|]. by exists contents.
  - destruct Hs as (n & d & Hno & Hk & _). eapply obs_bind; [by apply obs_query|]. intros before Hb. cbv beta in Hb.
    unfold fs_fstat in Hb. rewrite Hno in Hb. injection Hb as <-. eapply obs_bind; [by apply obs_raise_if|]. intros u1 Hl. cbv beta in Hl.
    apply orb_false_iff in Hl as [_ Hl]. eapply obs_bind; [by eapply obs_os_error_as, obs_query|]. intros xs Hx. cbv beta in Hx.
    unfold fs_held_listxattr, held_node in Hx. rewrite Hno in Hx. injection Hx as <-.
    eapply obs_bind; [by apply obs_raise_if|]. intros u2 Hx. cbv beta in Hx. bool_prop. cbn [snd] in Hx.
    eapply obs_bind; [by eapply obs_pread_loop|]. intros data ->. eapply obs_bind; [by apply obs_query|]. intros after _.
    eapply obs_bind; [by apply obs_raise_if|]. intros _ _. apply obs_ret. exists [file_entry (stat_of fd n) d]. split; [done|]. right.
    exists fd, n, d. split_and!; [unfold node_at; by rewrite Hn, Hno|done|simpl in Hl; lia| |done].
    by destruct (i_xattrs n).
Qed.

Lemma held_follow f fd p i n : held_node false f fd p = Ok (i, n) -> not_link (i_kind n) -> held_node true f fd p = Ok (i, n).
Proof.
  unfold held_node. destruct p as [|c p]; [done|]. intros Hh Hk. inv_ok.
  destruct (node_at f a0) as [[j m]|] eqn:Hn; [|done]. injection Hh as -> ->.
  rewrite (resolve_nonlink f a a0 i n) by done. by rewrite Hn.
Qed.

Lemma obs_manifest_bytes f root_fd p : fs_wf f -> p <> [] ->
  observes f (manifest_bytes root_fd p) (fun m =>
    exists loc entries, ref_location f (Publish.BelowFd root_fd p) = Ok loc /\ m = manifest_of entries /\ tree_is f loc entries).
Proof.
  intros Hwf Hp. unfold manifest_bytes. eapply obs_bind; [by apply obs_query|]. intros info Hi. cbv beta in Hi.
  unfold fs_held_stat in Hi. destruct (held_node false f root_fd p) as [[i n]|] eqn:Hh; [|done]. injection Hi as <-. cbn [fst snd].
  destruct (s_isdir _) eqn:Hd.
  { eapply obs_bind; [by apply (obs_scan Hquiet)|]. intros [entries contents] (loc & fd & Hl & Hn & Hdir & Hs). apply obs_ret.
    exists loc, entries. split_and!; [done|done|]. left. split; [done|]. by exists contents. }
  destruct (s_isreg _) eqn:Hreg; [|apply obs_raise]. apply s_isreg_kind in Hreg as [d Hk].
  assert (exists loc, ref_location f (Publish.BelowFd root_fd p) = Ok loc /\ node_at f loc = Some (i, n)) as (loc & Hloc & Hn).
  { unfold held_node in Hh. destruct p as [|c p]; [done|]. simpl. inv_ok. exists a0. split; [done|].
    destruct (node_at f a0) as [[j m]|]; [by injection Hh as -> ->|done]. }
  eapply obs_bind; [by apply obs_raise_if|]. intros u1 Hl. cbv beta in Hl. bool_prop.
  eapply obs_bind; [by eapply obs_os_error_as, obs_query|]. intros xs Hx. cbv beta in Hx.
  unfold fs_held_listxattr in Hx. rewrite Hh in Hx. injection Hx as <-. cbn [snd].
  eapply obs_bind; [by apply obs_raise_if|]. intros u2 Hx. cbv beta in Hx. bool_prop.
  eapply obs_bind; [apply (obs_read_stable Hquiet f root_fd p i n d); [by apply held_follow; [|rewrite Hk]|by apply node_at_nodes in Hn as []|done]|].
  intros data ->. eapply obs_bind; [by apply obs_query|]. intros after _. eapply obs_bind; [by apply obs_raise_if|]. intros _ _.
  apply obs_ret. exists loc, [file_entry (stat_of i n) d]. split_and!; [done|done|]. right. exists i, n, d.
  split_and!; try done. by destruct (i_xattrs n).
Qed.

Lemma obs_manifest_bytes_when f root_fd p : p <> [] ->
  observes f (manifest_bytes root_fd p) (fun m => fs_wf f ->
    exists loc entries, ref_location f (Publish.BelowFd root_fd p) = Ok loc /\ m = manifest_of entries /\ tree_is f loc entries).
Proof.
  intros Hp. apply obs_when; [|by intros; apply obs_manifest_bytes].
  unfold manifest_bytes, scan, _scan_held, walk_turn, scan_entry, check_xattrs, _read_stable, _revalidate_tree, revalidate_turn,
    sorted_children, _entry_stat, held_stat, held_open, held_readlink, held_listxattr, held_getxattr, held_listdir, held_opendir,
    read_fd, fstat, close, Publish.open_directory_nofollow, os_error_as, mraise_if. reads_only.
Qed.

Lemma tree_text f loc entries : os_fs f -> tree_is f loc entries -> Forall entry_text entries.
Proof.
  intros Hos [[Hdir [contents Hs]]|(i & n & d & Hn & Hk & _ & _ & ->)].
  - destruct (dir_named f loc Hdir) as [fd Hfd]. by eapply (scanned_text f).
  - apply node_at_nodes in Hn as [_ Hn]. destruct (os_nodes f Hos i n Hn) as (Hu & Hg & Hz). rewrite Hk in Hz.
    pose proof (zlen_nonneg d). constructor; [|constructor]. constructor; try done.
    + apply mode_range.
    + repeat constructor; simpl; lia.
    + intros t [[= <-]|[?|?]]; [apply hex_of_text_ok|done|done].
Qed.

(** ** A copy that was accepted *)

Lemma triple_any {A} (m : M A) : triple (fun _ => True) m (fun _ _ => True) (fun _ => True).
Proof. intros w _. by destruct (m w) as [[|]]. Qed.

Lemma triple_forget {A} P (m : M A) Q E : triple (fun _ => True) m Q E -> triple P m Q E.
Proof. intros Hm w _. by apply Hm. Qed.

Lemma lift_triple {A} (r : res A) : triple (fun _ => True) (lift r) (fun a _ => r = Ok a) (fun _ => True).
Proof. by apply triple_lift. Qed.

Lemma parent_steps root_fd pre comps :
  triple (fun _ => True) (mfor_each (parent_step root_fd) pre comps) (fun t _ => t = pre ++ comps) (fun _ => True).
Proof.
  revert pre; induction comps as [|c comps IH]; intros pre; cbn [mfor_each]; [apply triple_ret; by rewrite app_nil_r|].
  eapply (triple_bind _ _ (fun t _ => t = pre ++ [c])).
  - unfold parent_step. eapply triple_bind; [apply triple_any|]. intros found. eapply triple_bind; [apply triple_any|]. intros info.
    eapply triple_bind; [apply triple_any|]. intros u. by apply triple_ret.
  - intros t. apply triple_pre. intros f0 ->. eapply triple_conseq; [apply (IH (pre ++ [c]))|done| |done].
    intros t f ->. by rewrite <-app_assoc.
Qed.

(** The target is the destination's components below the root. *)
Lemma destination_target root_fd destination is_directory :
  triple (fun _ => True) (destination_path root_fd destination is_directory)
    (fun t _ => t = pp_comps (pure_path destination) /\ t <> []) (fun _ => True).
Proof.
  unfold destination_path. set (parts := pp_comps _). eapply triple_bind; [apply triple_any|]. intros u0.
  eapply triple_bind; [apply parent_steps|]. intros current. apply triple_pre. intros f0 ->. cbn [app].
  eapply triple_bind; [eapply triple_conseq; [apply (lift_triple (raise_if _ _ _))|done|intros a f Ha; exact Ha|done]|].
  intros u. apply triple_pre. intros f1 Hp. inv_ok. bool_prop.
  apply triple_forget. clear f0 f1.
  assert (removelast parts ++ [List.last parts []] = parts) as Heq by (symmetry; by apply app_removelast_last).
  rewrite Heq. eapply (triple_bind _ _ (fun _ _ => True)); [apply triple_forget, triple_any|]. intros found.
  eapply (triple_bind _ _ (fun _ _ => True)); [destruct found; apply triple_any|]. intros _. by apply triple_ret.
Qed.

Context (cp : fs -> Z -> bool -> Z -> path -> Z * fs).

(** The state after the copy, and what the program saw of it. *)
Definition faithful (args : limits) (f f' : fs) (loc : path) (root_fd : Z) (r : bind_record) (s : progress)
    (result : bytes * Z * Z) : Prop :=
  exists entries target,
    tree_is f loc entries /\ result = (manifest entries, total_bytes s + payload_bytes entries, total_inodes s + zlen entries) /\
    total_bytes s + payload_bytes entries <= Materialize.max_bytes args /\ total_inodes s + zlen entries <= Materialize.max_inodes args /\
    ref_location f' (Publish.BelowFd root_fd (pp_comps (pure_path (br_destination r)))) = Ok target /\ tree_is f' target entries.

Lemma copy_source_triple args f loc root_fd source_fd is_directory r s :
  os_fs f -> source_is f loc source_fd is_directory ->
  triple (fun g => g = f) (copy_source cp args root_fd source_fd is_directory r s)
    (fun result f' => os_fs f' -> faithful args f f' loc root_fd r s result) (fun _ => True).
Proof.
  intros Hos Hs. unfold copy_source. eapply triple_bind; [eapply triple_conseq; [by apply (obs_raise_if f)|done|intros a g Ha; exact Ha|done]|].
  intros u1. apply triple_pre. intros g0 [-> _].
  eapply triple_bind; [eapply triple_conseq; [apply (obs_manifest_descriptor f loc source_fd is_directory); [apply Hos|done]|done|intros a g Ha; exact Ha|done]|].
  intros m. apply triple_pre. intros g0 [-> (entries & -> & Ht)]. cbn [manifest_of].
  eapply triple_bind; [eapply triple_conseq; [by apply (obs_raise_if f)|done|intros a g Ha; exact Ha|done]|].
  intros u2. apply triple_pre. intros g0 [-> Hlim]. apply orb_false_iff in Hlim as [Hb Hi]. bool_prop.
  eapply triple_bind; [eapply triple_conseq; [apply destination_target|done|intros a g Ha; exact Ha|done]|].
  intros t. apply triple_pre. intros g1 [-> Hne].
  eapply (triple_bind _ _ (fun _ _ => True)); [apply triple_forget, triple_any|]. intros code.
  eapply (triple_bind _ _ (fun _ _ => True)); [apply triple_any|]. intros _.
  eapply (triple_bind _ _ (fun _ _ => True)); [apply triple_any|]. intros after. apply triple_pre. intros f2 _.
  eapply triple_bind; [eapply triple_conseq; [apply (obs_manifest_bytes_when f2 root_fd _ Hne)|done|intros a g Ha; exact Ha|done]|].
  intros copied. apply triple_pre. intros g0 [-> Hcopy].
  eapply triple_bind; [eapply triple_conseq; [by apply (obs_raise_if f2)|done|intros a g Ha; exact Ha|done]|].
  intros u3. apply triple_pre. intros g0 [-> _].
  eapply triple_bind; [eapply triple_conseq; [by apply (obs_raise_if f2)|done|intros a g Ha; exact Ha|done]|].
  intros u4. apply triple_pre. intros g0 [-> Heq]. bool_prop.
  apply triple_ret. intros f' -> Hos'. destruct (Hcopy (os_wf _ Hos')) as (target & es & Hl & -> & Ht'). simpl in Heq.
  apply manifest_injective in Heq as <-; [|by apply (tree_text f loc)|by apply (tree_text f2 target)].
  exists entries, target. split_and!; done.
Qed.

(** C33. Whatever [cp] does to the file system, a bind that is accepted is an exact copy:
    the program has described the source before the copy and the target after it, and
    both have the same entries, so the same paths, types, modes, owners, sizes, SHA-256
    digests, link targets and hard-link groups.  The totals count the source, and are
    within the limits. *)
Theorem accepted_copy_is_exact args w loc root_fd source_fd is_directory r s :
  os_fs (w_fs w) -> source_is (w_fs w) loc source_fd is_directory ->
  match copy_source cp args root_fd source_fd is_directory r s w with
  | (Ok result, w') => os_fs (w_fs w') -> faithful args (w_fs w) (w_fs w') loc root_fd r s result
  | (Err _, _) => True
  end.
Proof. intros Hos Hs. by apply (copy_source_triple args (w_fs w) loc). Qed.

(** ** Preparing a destination *)

Section destination.
Context (f0 : fs) (R : path) (root_fd : Z) (parts : path) (Hplain : plain_path (R ++ parts)) (Hparts : parts <> []).

(** Only the destination, what is below it and its parents below the root may have
    changed; what existed is as it was. *)
Record confined (f : fs) : Prop := {
  cf_root : names f !! R = Some root_fd;
  cf_unique : forall k, names f !! k = Some root_fd -> k = R;
  cf_names : forall k, ~ (exists q, q `prefix_of` parts /\ q <> [] /\ k = R ++ q) -> ~ (R ++ parts) `prefix_of` k ->
    names f !! k = names f0 !! k;
  cf_nodes : forall i n, nodes f0 !! i = Some n -> exists n', nodes f !! i = Some n' /\ same_file n n';
  cf_held : is_Some (nodes f !! root_fd);
  cf_closed : forall k c i, names f !! (k ++ [c]) = Some i -> is_dir_at f k = true;
  cf_fresh : fresh_ok f }.

Lemma confined_location f : confined f -> location_of f root_fd = Some R.
Proof.
  intros Hf. unfold location_of. destruct (List.find _ _) as [[k i]|] eqn:E.
  - apply find_some in E as [Hin Hi]. simpl in Hi. apply Z.eqb_eq in Hi as ->.
    apply list_elem_of_In, elem_of_map_to_list in Hin. simpl. f_equal. by apply (cf_unique f Hf).
  - exfalso. eapply find_none in E; [|apply list_elem_of_In, elem_of_map_to_list, (cf_root f Hf)]. simpl in E. lia.
Qed.

Lemma confined_held f p : confined f -> held_path f root_fd p = Ok (R ++ p).
Proof. intros Hf. unfold held_path. by rewrite confined_location. Qed.

Lemma part_plain q c : q ++ [c] `prefix_of` parts -> plain_path (R ++ q ++ [c]).
Proof. intros Hq. eapply plain_prefix; [|exact Hplain]. by apply prefix_app. Qed.

(** A path of the destination, whose parent is real, is its own location. *)
Lemma part_located f q c : q ++ [c] `prefix_of` parts -> real_dir f (R ++ q) ->
  resolve f false (R ++ q ++ [c]) = Ok (R ++ q ++ [c]) /\ locate f (R ++ q ++ [c]) = Ok (R ++ q ++ [c]).
Proof.
  intros Hq Hr. pose proof (part_plain q c Hq) as Hp. rewrite app_assoc in Hp |- *.
  split; [by apply resolve_child|by apply locate_child].
Qed.

Lemma confined_changes f f' q : confined f -> q `prefix_of` parts -> q <> [] ->
  changes_only (fun k => k = R ++ q) f f' ->
  (forall i, names f' !! (R ++ q) = Some i -> i <> root_fd) ->
  (forall k c i, R ++ q = k ++ [c] -> names f' !! (R ++ q) = Some i -> is_dir_at f k = true) -> confined f'.
Proof.
  intros Hf Hq Hne Hc Hnew Hpar. assert (R <> R ++ q) as HR.
  { intros Heq. apply Hne. rewrite <-(app_nil_r R) in Heq at 1. by apply app_inv_head in Heq. }
  constructor.
  - rewrite (co_names _ _ _ Hc) by done. apply Hf.
  - intros k Hk. destruct (decide (k = R ++ q)) as [->|Hkq]; [by apply Hnew in Hk|].
    rewrite (co_names _ _ _ Hc) in Hk by done. by apply (cf_unique f Hf).
  - intros k H1 H2. rewrite (co_names _ _ _ Hc); [by apply (cf_names f Hf)|]. intros ->. apply H1. by exists q.
  - intros i n Hi. destruct (cf_nodes f Hf i n Hi) as (n1 & H1 & S1). destruct (co_nodes _ _ _ Hc i n1 H1) as (n2 & H2 & S2).
    exists n2. split; [done|]. by eapply same_file_trans.
  - destruct (cf_held f Hf) as [n Hn]. destruct (co_nodes _ _ _ Hc _ _ Hn) as (n' & Hn' & _). by exists n'.
  - intros k c i Hk. apply (co_dirs _ _ _ Hc). destruct (decide (k ++ [c] = R ++ q)) as [Heq|Hkq].
    + eapply (Hpar k c i); [done|]. by rewrite <-Heq.
    + rewrite (co_names _ _ _ Hc) in Hk by done. by eapply (cf_closed f Hf).
  - apply Hc.
Qed.

Lemma prefix_nonempty q (c : pystr) : q ++ [c] <> [].
Proof. by destruct q. Qed.

Lemma closed_below f k t i : (forall k c i, names f !! (k ++ [c]) = Some i -> is_dir_at f k = true) ->
  names f !! (k ++ t) = Some i -> t <> [] -> is_dir_at f k = true.
Proof.
  intros Hcl. revert i; induction t as [|c t IH] using rev_ind; [done|]. intros i Hk _. rewrite app_assoc in Hk. apply Hcl in Hk.
  destruct (decide (t = [])) as [->|Hne]; [by rewrite app_nil_r in Hk|].
  unfold is_dir_at, node_at in Hk. destruct (names f !! (k ++ t)) as [j|] eqn:E; [|done]. by eapply IH.
Qed.

(** Creating a part of the destination in its real parent: it is empty. *)
Lemma confined_create f f' k perm q c ino : confined f -> q ++ [c] `prefix_of` parts -> real_dir f (R ++ q) ->
  fs_create me k perm f (R ++ q ++ [c]) = Ok (ino, f') ->
  confined f' /\ real_dir f' (R ++ q) /\ (exists n, node_at f' (R ++ q ++ [c]) = Some (ino, n) /\ i_kind n = k) /\
  forall t, t <> [] -> names f' !! ((R ++ q ++ [c]) ++ t) = None.
Proof.
  intros Hf Hq Hr Hc. destruct (part_located f q c Hq Hr) as [_ Hl].
  destruct (create_changes me k perm f _ _ ino f' (cf_fresh f Hf) Hl Hc) as [Hch Hn].
  assert (ino = fresh f /\ node_at f (R ++ q ++ [c]) = None) as [-> Hnone].
  { unfold fs_create in Hc. rewrite Hl in Hc. destruct (node_at f _); [done|]. by injection Hc as <- _. }
  assert (names f' !! (R ++ q ++ [c]) = Some (fresh f)) as Hname by (by destruct Hn as (n & Hn & _); apply node_at_nodes in Hn as []).
  split_and!; [|by eapply changes_only_real|done|].
  - apply (confined_changes f f' (q ++ [c])); [done|done|apply prefix_nonempty|done| |].
    + intros i Hi. rewrite Hname in Hi. injection Hi as <-. destruct (cf_held f Hf) as [m Hm]. apply (cf_fresh f Hf) in Hm. lia.
    + intros k' c' i Heq _. rewrite app_assoc in Heq. apply app_inj_tail in Heq as [<- _]. apply Hr. by exists []; rewrite app_nil_r.
  - intros t Ht. rewrite (co_names _ _ _ Hch); [|intros Heq; apply Ht; rewrite <-(app_nil_r (R ++ q ++ [c])) in Heq at 2; by apply app_inv_head in Heq].
    destruct (names f !! _) as [i|] eqn:E; [|done]. exfalso. apply (closed_below f _ _ _ (cf_closed f Hf)) in E; [|done].
    unfold is_dir_at in E. by rewrite Hnone in E.
Qed.

Lemma confined_unlink f f' q c : confined f -> q ++ [c] `prefix_of` parts -> real_dir f (R ++ q) ->
  fs_unlink f (R ++ q ++ [c]) = Ok f' -> confined f' /\ real_dir f' (R ++ q).
Proof.
  intros Hf Hq Hr Hu. destruct (part_located f q c Hq Hr) as [_ Hl].
  destruct (unlink_changes f _ _ f' (cf_fresh f Hf) Hl Hu) as [Hch Hnone]. split; [|by eapply changes_only_real].
  apply (confined_changes f f' (q ++ [c])); [done|done|apply prefix_nonempty|done| |]; intros; by rewrite Hnone in *.
Qed.

(** Removing the whole destination. *)
Lemma confined_rmtree f f' q c : confined f -> q ++ [c] = parts -> real_dir f (R ++ q) ->
  fs_rmtree f (R ++ q ++ [c]) = Ok f' -> confined f' /\ real_dir f' (R ++ q).
Proof.
  intros Hf Hq Hr Hu. destruct (part_located f q c) as [_ Hl]; [by rewrite Hq|done|].
  unfold fs_rmtree in Hu. rewrite Hl, Hq in Hu. destruct (node_at f (R ++ parts)) as [[i n]|]; [|done].
  destruct (i_kind n); try done. injection Hu as <-.
  assert (forall k, ~ R ++ parts `prefix_of` k -> filter (fun kv => below (R ++ parts) kv.1 = false) (names f) !! k = names f !! k) as Hkeep.
  { intros k Hk. destruct (names f !! k) as [j|] eqn:E.
    - apply map_lookup_filter_Some. split; [done|]. by apply bool_decide_eq_false.
    - by apply map_lookup_filter_None; left. }
  assert (forall k j, filter (fun kv => below (R ++ parts) kv.1 = false) (names f) !! k = Some j ->
    names f !! k = Some j /\ ~ R ++ parts `prefix_of` k) as Hin.
  { intros k j Hk. apply map_lookup_filter_Some in Hk as [Hk Hb]. split; [done|]. by apply bool_decide_eq_false in Hb. }
  assert (forall q', q' `prefix_of` parts -> q' <> parts -> ~ R ++ parts `prefix_of` R ++ q') as Hshort.
  { intros q' [t Ht] Hne Hpre. apply prefix_app_inv in Hpre. apply prefix_length in Hpre. apply Hne.
    rewrite Ht in Hpre |- *. rewrite length_app in Hpre. destruct t; [by rewrite app_nil_r|simpl in Hpre; lia]. }
  assert (forall k, ~ R ++ parts `prefix_of` k -> is_dir_at f k = true ->
    is_dir_at (tick (FS (filter (fun kv => below (R ++ parts) kv.1 = false) (names f)) (nodes f) (fresh f) (now f))) k = true) as Hdirs.
  { intros k Hk. unfold is_dir_at, node_at. simpl. by rewrite Hkeep. }
  split.
  - destruct Hf as [H1 H2 H3 H4 H5 H6 H7]. constructor; simpl; try done.
    + rewrite Hkeep; [done|]. rewrite <-(app_nil_r R) at 2. apply Hshort; [apply prefix_nil|done].
    + intros k Hk. apply Hin in Hk as [Hk _]. auto.
    + intros k Ha Hb. by rewrite Hkeep; [apply H3|].
    + intros k c' j Hk. apply Hin in Hk as [Hk Hb]. apply Hdirs; [|by eapply H6]. intros Hp. apply Hb. etrans; [exact Hp|by eexists].
  - intros k Hk. apply Hdirs; [|by apply Hr]. intros Hp. assert (R ++ parts `prefix_of` R ++ q) as Hbad by (by etrans).
    apply (Hshort q) in Hbad; [done|by exists [c]|]. intros ->. apply (f_equal length) in Hq. rewrite length_app in Hq. simpl in Hq. lia.
Qed.

Definition at_part (q : path) (f : fs) : Prop := confined f /\ real_dir f (R ++ q).

Lemma part_is_dir f q c info : at_part q f -> q ++ [c] `prefix_of` parts ->
  fs_held_stat false f root_fd (q ++ [c]) = Ok info -> s_isdir (st_mode info) = true -> at_part (q ++ [c]) f.
Proof.
  intros [Hf Hr] Hq Hi Hd. split; [done|]. unfold fs_held_stat, held_node in Hi.
  destruct (q ++ [c]) as [|x l] eqn:E; [by destruct (prefix_nonempty q c)|]. rewrite <-E in *.
  rewrite (confined_held f _ Hf), (proj1 (part_located f q c Hq Hr)) in Hi.
  destruct (node_at f (R ++ q ++ [c])) as [[i n]|] eqn:Hn; [|done]. injection Hi as <-. cbn [fst snd] in Hd. apply s_isdir_kind in Hd.
  rewrite app_assoc in Hn |- *. apply real_snoc; [done|]. unfold is_dir_at. by rewrite Hn, Hd.
Qed.

Lemma lstat_triple q p : triple (at_part q) (lstat_or_missing root_fd p)
  (fun found f => at_part q f /\ forall info, found = Some info -> fs_held_stat false f root_fd p = Ok info) (at_part q).
Proof.
  eapply triple_conseq; [apply (obs_triple (at_part q) (lstat_or_missing root_fd p)
    (fun f found => forall info, found = Some info -> fs_held_stat false f root_fd p = Ok info))|done|done|done].
  intros f _. apply obs_catch.
  - eapply obs_bind; [by apply obs_query|]. intros info Hi. apply obs_ret. by intros ? [= <-].
  - intros e. case_bool_decide; [by apply obs_ret|apply obs_reraise].
Qed.

Lemma at_part_confined q f : at_part q f -> confined f.
Proof. by intros []. Qed.

Lemma create_triple q c k perm : q ++ [c] `prefix_of` parts ->
  triple (at_part q) (syscall (fun f => let! loc := held_path f root_fd (q ++ [c]) in fs_create me k perm f loc))
    (fun ino f => at_part q f /\ (exists n, node_at f (R ++ q ++ [c]) = Some (ino, n) /\ i_kind n = k) /\
       forall t, t <> [] -> names f !! ((R ++ q ++ [c]) ++ t) = None) confined.
Proof.
  intros Hq. apply (triple_syscall Hquiet); [apply at_part_confined|]. intros f ino f' [Hf Hr]. rewrite confined_held by done.
  intros Hc. destruct (confined_create f f' k perm q c ino Hf Hq Hr Hc) as (? & ? & ? & ?). by split_and!.
Qed.

Lemma mkdir_triple q c perm : q ++ [c] `prefix_of` parts ->
  triple (at_part q) (held_mkdir perm root_fd (q ++ [c]))
    (fun _ f => at_part q f /\ (exists i n, node_at f (R ++ q ++ [c]) = Some (i, n) /\ i_kind n = KDir) /\
       forall t, t <> [] -> names f !! ((R ++ q ++ [c]) ++ t) = None) confined.
Proof.
  intros Hq. apply (triple_change Hquiet); [apply at_part_confined|]. intros f f' [Hf Hr]. rewrite confined_held by done.
  destruct (fs_create me KDir perm f _) as [[ino g]|] eqn:Hc; [|done]. intros [= <-].
  destruct (confined_create f g KDir perm q c ino Hf Hq Hr Hc) as (? & ? & (n & ? & ?) & ?).
  split; [by split|]. split; [by exists ino, n|done].
Qed.

Lemma parent_step_triple q c : q ++ [c] `prefix_of` parts ->
  triple (at_part q) (parent_step root_fd q c) (fun t f => t = q ++ [c] /\ at_part (q ++ [c]) f) confined.
Proof.
  intros Hq. unfold parent_step.
  eapply triple_bind; [eapply triple_conseq; [apply lstat_triple|done|intros a f Ha; exact Ha|apply at_part_confined]|]. intros found.
  eapply (triple_bind _ _ (fun info f => at_part q f /\ fs_held_stat false f root_fd (q ++ [c]) = Ok info)).
  - destruct found as [info|]; [apply triple_ret; intros f [Hf Hi]; auto|].
    eapply (triple_bind _ _ (fun _ => at_part q)).
    { eapply triple_conseq; [by apply mkdir_triple|by intros f []|by intros ? f (? & _)|done]. }
    intros u. apply (triple_query Hquiet); [apply at_part_confined|done].
  - intros info. eapply (triple_bind _ _ (fun _ f => at_part (q ++ [c]) f)); [|intros u; by apply triple_ret].
    apply triple_lift; [|intros f [Hf _]; by apply Hf]. intros u f Hb [Hf Hi]. inv_ok. apply orb_false_iff in Hb as [_ Hb]. bool_prop.
    by eapply part_is_dir.
Qed.

Lemma parents_triple q rest : q ++ rest `prefix_of` parts ->
  triple (at_part q) (mfor_each (parent_step root_fd) q rest) (fun t f => t = q ++ rest /\ at_part (q ++ rest) f) confined.
Proof.
  revert q; induction rest as [|c rest IH]; intros q Hq; cbn [mfor_each]; [apply triple_ret; by rewrite app_nil_r|].
  eapply triple_bind; [apply parent_step_triple; etrans; [|exact Hq]; exists rest; by rewrite <-app_assoc|]. intros t.
  apply triple_pre. intros f1 [-> Hf]. eapply triple_conseq; [apply (IH (q ++ [c])); by rewrite <-app_assoc|by intros ? ->| |done].
  intros t f. by rewrite <-app_assoc.
Qed.

(** A new, empty object of the source's type. *)
Definition prepared (is_directory : bool) (f : fs) : Prop :=
  confined f /\ real_dir f (R ++ removelast parts) /\
  (exists i n, node_at f (R ++ parts) = Some (i, n) /\ i_kind n = if is_directory then KDir else KFile []) /\
  forall t, t <> [] -> names f !! ((R ++ parts) ++ t) = None.

Lemma destination_triple destination is_directory : parts = pp_comps (pure_path destination) ->
  triple (at_part []) (destination_path root_fd destination is_directory) (fun _ => prepared is_directory) confined.
Proof.
  intros Hdest. unfold destination_path. rewrite <-Hdest.
  eapply (triple_bind _ _ (fun _ => at_part [])); [by apply triple_lift; [|apply at_part_confined]|]. intros u1.
  assert (removelast parts ++ [List.last parts []] = parts) as Hp by (symmetry; by apply app_removelast_last).
  set (q := removelast parts) in *. set (c := List.last parts []) in *. clearbody q c.
  assert (q ++ [c] `prefix_of` parts) as Hq by (by rewrite Hp).
  eapply triple_bind; [apply (parents_triple [] q); etrans; [|exact Hq]; by eexists|]. intros current.
  apply triple_pre. intros f1 [-> Hf1]. cbn [app] in *. eapply (triple_bind _ _ (fun _ => at_part q)).
  { apply triple_lift; [by intros ? ? _ ->|intros f ->; by eapply at_part_confined]. }
  intros u2. eapply triple_bind; [eapply triple_conseq; [apply lstat_triple|done|intros a f Ha; exact Ha|apply at_part_confined]|]. intros found.
  assert (triple (at_part q) (held_mkdir 0x1ED root_fd (q ++ [c])) (fun _ => prepared true) confined) as Hmk.
  { eapply triple_conseq; [by apply mkdir_triple|done| |done]. intros u f ((? & ?) & ? & ?). unfold prepared.
    by rewrite <-Hp, removelast_last. }
  assert (triple (at_part q) (touch_excl root_fd (q ++ [c])) (fun _ => prepared false) confined) as Hto.
  { unfold touch_excl. eapply triple_bind; [by apply create_triple|]. intros ino.
    eapply triple_conseq; [apply (triple_query_same Hquiet)|intros f Hf; exact Hf| |]; cbv beta.
    - intros u f ((? & ?) & (n & ? & ?) & ?). unfold prepared. rewrite <-Hp, removelast_last. split_and!; [done|done|by exists ino, n|done].
    - intros f ((? & _) & _). done. }
  eapply (triple_bind _ _ (fun _ => prepared is_directory)); [|intros u; by apply triple_ret].
  destruct found as [info|].
  2:{ destruct is_directory; (eapply triple_conseq; [eassumption|by intros f []|done|done]). }
  eapply (triple_bind _ _ (fun _ => at_part q)); [apply triple_lift; [by intros ? ? _ []|by intros f [[] _]]|]. intros u3.
  destruct is_directory.
  - eapply (triple_bind _ _ (fun _ => at_part q)); [|done]. apply (triple_change Hquiet); [apply at_part_confined|].
    intros f f' [Hf Hr]. rewrite confined_held by done. intros Hu. split; by eapply confined_rmtree.
  - eapply (triple_bind _ _ (fun _ => at_part q)); [|done]. apply (triple_change Hquiet); [apply at_part_confined|].
    intros f f' [Hf Hr]. rewrite confined_held by done. intros Hu. split; by eapply confined_unlink.
Qed.
End destination.

Lemma confined_start f R root_fd parts : fs_wf f -> fresh_ok f -> names f !! R = Some root_fd -> is_dir_at f R = true ->
  confined f R root_fd parts f.
Proof.
  intros Hwf Hfr Hn Hd. constructor; try done.
  - intros k Hk. symmetry. by eapply (wf_one f Hwf).
  - intros i n Hi. exists n. split; [done|apply same_file_refl].
  - by eapply (wf_node f Hwf).
  - intros k c i Hk. by eapply (wf_parent f Hwf).
Qed.

(** C34. Preparing a destination is confined to the materialization root.  Whatever call
    fails: no name outside the destination, what is below it, and its parents below the
    root is added, removed or redirected, no file is changed, and the descriptor of the
    root still names it.  When it returns, the destination is a new, empty directory or
    file below real directories: no symbolic link has been followed. *)
Theorem destination_confined w R root_fd destination is_directory :
  fs_wf (w_fs w) -> fresh_ok (w_fs w) -> names (w_fs w) !! R = Some root_fd -> is_dir_at (w_fs w) R = true ->
  destination_path_check destination = Ok tt -> pp_comps (pure_path destination) <> [] ->
  match destination_path root_fd destination is_directory w with
  | (Ok _, w') => prepared (w_fs w) R root_fd (pp_comps (pure_path destination)) is_directory (w_fs w')
  | (Err _, w') => confined (w_fs w) R root_fd (pp_comps (pure_path destination)) (w_fs w')
  end.
Proof.
  intros Hwf Hfr Hn Hd Hck Hne. apply (destination_triple (w_fs w) R root_fd _); [|done|done|].
  - apply plain_app. split; [by eapply named_plain|]. unfold destination_path_check in Hck. inv_ok.
    apply orb_false_iff in Hck as [Hck Hup]. apply mem_not_elem in Hup. apply list.Forall_forall. intros c Hc.
    pose proof (pure_path_comps destination) as Hcs. rewrite list.Forall_forall in Hcs. destruct (Hcs c Hc) as (H1 & H2 & _).
    unfold plain_name. apply negb_true_iff, mem_not_elem. assert (c <> str "..") as H3.
    { intros ->. apply Hup. unfold PyStr.parts. destruct (pp_root _ =s _); [exact Hc|apply elem_of_cons; by right]. }
    unfold strs. simpl. set_solver.
  - split; [by apply confined_start|]. rewrite app_nil_r. by apply dir_real.
Qed.
End system.

(** A destination written [//] passes the checks and has no components: the program
    then takes the last of them, an [IndexError] that [main] does not catch. *)
Example double_slash_destination :
  runtime_owned (str "//") = false /\ destination_path_check (str "//") = Ok tt /\ pp_comps (pure_path (str "//")) = [].
Proof. vm_compute. done. Qed.
End MaterializeSafe.
