(* ===== verification/MaterializeRun.v ===== *)
(** * A bind, materialized

    A file bound into a root directory: the source is opened, the destination prepared,
    the file copied and accepted. *)
From Stdlib Require Import ZArith Lia.
From Stdlib Require Import Init.Byte.
From stdpp Require Import base list sets strings option gmap.
From S2P Require Import Prelude PyStr PyVal Bytes Json JsonTrip Sys Held FsRules Publish Rootfs RootfsTrip RootfsScan RootfsScanSafe RootfsRun.
From S2P Require Import BindPlan Materialize MaterializeSafe.

Open Scope string_scope.
Open Scope list_scope.
Open Scope Z_scope.

Module MaterializeRun.
Import RootfsTrip RootfsScanSafe RootfsRun Materialize MaterializeSafe.

Definition bind_host : fs :=
  FS (list_to_map [([], 1); ([str "s"], 2); (strs ["s"; "a"], 3); ([str "t"], 4); (strs ["t"; "old"], 5)])
     (list_to_map [(1, node KDir 0x1ED 2 []); (2, node KDir 0x1ED 2 []); (3, node (KFile (bstr "hello")) 0x1A4 1 []);
                   (4, node KDir 0x1ED 2 []); (5, node (KFile (bstr "old")) 0x1A4 1 [])])
     6 7.
Definition bind_start : world := World bind_host 0.

(** A [cp] that copies one file with its mode and owner. *)
Definition copy_file (f : fs) (source_fd : Z) (is_directory : bool) (root_fd : Z) (target : path) : Z * fs :=
  match nodes f !! source_fd, held_node false f root_fd target with
  | Some n, Ok (i, _) => (0, set_node i n f)
  | _, _ => (1, f)
  end.

Definition record : bind_record := BindRecord (str "/s/a") (str "/d/f") false.
Definition copy_run (w : world) : res (bytes * Z * Z) * world :=
  @copy_source here copy_file (Limits 100 10) 4 3 false record (Progress [] [] 0 0) w.

(** *** Kernel file systems, decided *)

Definition suffixes (k : path) : list path := map (fun n => drop n k) (seq 0 (S (length k))).

Definition node64 (n : inode) : bool :=
  (Z.abs (i_uid n) <? 2 ^ 64) && (Z.abs (i_gid n) <? 2 ^ 64) &&
  match i_kind n with
  | KFile d => zlen d <? 2 ^ 64
  | KLink t => text_ok t && match fsencode t with Ok raw => zlen raw <? 2 ^ 64 | Err _ => true end
  | _ => true
  end.

Definition os_fsb (f : fs) : bool :=
  fs_wfb f && forallb (fun kv => forallb (fun p => text_ok (text p)) (suffixes kv.1)) (names_list f)
  && forallb (fun kv => node64 kv.2) (map_to_list (nodes f)).

Lemma os_fsb_ok f : os_fsb f = true -> os_fs f.
Proof.
  unfold os_fsb. intros Hb. apply andb_true_iff in Hb as [Hb Hn]. apply andb_true_iff in Hb as [Hw Hk]. constructor.
  - by apply fs_wfb_ok.
  - intros l p i Hp. rewrite forallb_elem in Hk. apply names_elem, Hk in Hp. rewrite forallb_elem in Hp. apply Hp. cbn [fst].
    unfold suffixes. apply list_elem_of_fmap. exists (length l). split; [by rewrite drop_app_length|].
    apply elem_of_seq. rewrite length_app. lia.
  - intros i n Hi. rewrite forallb_elem in Hn. apply elem_of_map_to_list, Hn in Hi. cbn [snd] in Hi. unfold node64 in Hi.
    apply andb_true_iff in Hi as [Hi Hkind]. bool_prop. split_and!; [done|done|]. destruct (i_kind n); try done; [by bool_prop|].
    apply andb_true_iff in Hkind as [Ht Hz]. split; [done|]. intros raw Hr. rewrite Hr in Hz. by bool_prop.
Qed.

Definition accepted (r : res (bytes * Z * Z) * world) : bool :=
  match r with (Ok (_, b, i), w') => (b =? 5) && (i =? 1) && os_fsb (w_fs w') | _ => false end.

Lemma copy_run_ok : accepted (copy_run bind_start) = true.
Proof. vm_cast_no_check (@eq_refl bool true). Qed.

Lemma bind_host_os : os_fs bind_host.
Proof. apply os_fsb_ok. vm_cast_no_check (@eq_refl bool true). Qed.

Lemma bind_source_is : source_is bind_host (strs ["s"; "a"]) 3 false.
Proof. split; [vm_compute; reflexivity|]. exists (node (KFile (bstr "hello")) 0x1A4 1 []), (bstr "hello"). split_and!; vm_compute; reflexivity. Qed.

Lemma accepted_copy_is_exact_witness : exists result w', copy_run bind_start = (Ok result, w') /\
  faithful (Limits 100 10) bind_host (w_fs w') (strs ["s"; "a"]) 4 record (Progress [] [] 0 0) result.
Proof.
  pose proof copy_run_ok as Hok. pose proof bind_host_os as Hos. pose proof bind_source_is as Hs. unfold copy_run in *.
  change bind_host with (w_fs bind_start) in Hos, Hs |- *. revert Hok Hos Hs. generalize bind_start. intros w Hok Hos Hs.
  pose proof (@accepted_copy_is_exact here (lone_quiet _ _) copy_file (Limits 100 10) w (strs ["s"; "a"]) 4 3 false record
    (Progress [] [] 0 0) Hos Hs) as Ht.
  destruct (@copy_source here copy_file (Limits 100 10) 4 3 false record (Progress [] [] 0 0) w) as [[result|e] w']; [|discriminate Hok].
  exists result, w'. split; [reflexivity|]. apply Ht. apply os_fsb_ok. destruct result as [[m b] i]. simpl in Hok.
  exact (proj2 (proj1 (andb_true_iff _ _) Hok)).
Defined.

Definition opened (r : res (Z * bool)) : bool := match r with Ok (fd, d) => (fd =? 3) && negb d | Err _ => false end.

Lemma open_run_ok : opened (@open_real_source here (str "/s/a") bind_start).1 = true.
Proof. vm_cast_no_check (@eq_refl bool true). Qed.

Lemma open_real_source_literal_witness : exists fd d,
  (@open_real_source here (str "/s/a") bind_start).1 = Ok (fd, d) /\ source_is bind_host (pp_comps (pure_path (str "/s/a"))) fd d.
Proof.
  pose proof open_run_ok as Hok. pose proof (os_wf _ bind_host_os) as Hwf.
  assert (is_dir_at bind_host [] = true) as Hr by (vm_compute; reflexivity).
  change bind_host with (w_fs bind_start) in Hwf, Hr |- *. revert Hok Hwf Hr. generalize bind_start. intros w Hok Hwf Hr.
  pose proof (@open_real_source_literal here (lone_quiet _ _) w (str "/s/a") Hwf Hr) as Ht.
  destruct (@open_real_source here (str "/s/a") w) as [[[fd d]|e] w']; [|discriminate Hok].
  exists fd, d. split; [reflexivity|]. exact (proj2 Ht).
Defined.

(** A destination that replaces an existing file, and one whose preparation fails. *)
Definition failing : machine := lone_machine superuser [3%nat].

Lemma host_fresh : fresh_ok bind_host.
Proof. apply fresh_okb_ok. vm_cast_no_check (@eq_refl bool true). Qed.

Lemma destination_confined_witness :
  match @destination_path failing 4 (str "/old") false bind_start with
  | (Ok _, w') => prepared bind_host [str "t"] 4 (pp_comps (pure_path (str "/old"))) false (w_fs w')
  | (Err _, w') => confined bind_host [str "t"] 4 (pp_comps (pure_path (str "/old"))) (w_fs w')
  end.
Proof.
  assert (names bind_host !! [str "t"] = Some 4) as Hn by (vm_compute; reflexivity).
  assert (is_dir_at bind_host [str "t"] = true) as Hd by (vm_compute; reflexivity).
  apply (@destination_confined failing (lone_quiet _ _) bind_start [str "t"] 4 (str "/old") false (os_wf _ bind_host_os) host_fresh Hn Hd).
  - vm_compute. reflexivity.
  - vm_compute. discriminate.
Defined.
End MaterializeRun.
