(* ===== verification/Storage.v ===== *)
(** * The sandbox storage builder (scripts/build-runtime-storage.py)

    A clone of the root is normalized and imported by [mke2fs] into a fully allocated
    image, which is inspected, checked and published with its identity record.  The
    external programs are a parameter ([spawn]: the environment and command line, and
    what the program prints and changes), as are the free space of a file system, the
    blocks a file occupies and the random parts of temporary names.  The local variables
    that the [finally] clause consults are explicit ([vars], [step]). *)
From Stdlib Require Import ZArith Lia.
From Stdlib Require Import Init.Byte.
From stdpp Require Import base list sets strings option gmap.
From S2P Require Import Prelude PyStr PyVal Bytes Json Sys Held RealPath Steps Publish Rootfs RootfsScan BindPlan Materialize.

Open Scope string_scope.
Open Scope list_scope.
Open Scope Z_scope.

Module Storage.
Export RealPath.
Import BuildRootfs.
Export Steps.

Definition IDENTITY : re := Cat (Cls is_alnum) (Rep (Cls (fun c => is_alnum c || one_of "_.-" c)) 0 63).
Definition UUID : re :=
  Cat (Rep LOWER_HEX 8 8) (Cat (Lit "-") (Cat (Rep LOWER_HEX 4 4) (Cat (Lit "-") (Cat (Rep LOWER_HEX 4 4) (Cat (Lit "-")
    (Cat (Rep LOWER_HEX 4 4) (Cat (Lit "-") (Rep LOWER_HEX 12 12)))))))).

Definition NORMALIZED_TIME_NS : Z := 1000000000.

Record arguments := Arguments {
  root : Publish.directory_ref; output : path; metadata : path; image_id : pystr; uuid : pystr; size : Z; inodes : Z; port : Z;
  min_free_bytes : Z; min_free_inodes : Z; logical_path : option pystr; mke2fs : pystr; e2fsck : pystr; debugfs : pystr; cp : pystr }.

(** What [subprocess.run] returns. *)
Record completed_process := Completed { returncode : Z; stdout : bytes; stderr : bytes }.

(** [f"/proc/self/fd/{fd}"] and a name below it. *)
Definition fd_text (fd : Z) : pystr := str "/proc/self/fd/" ++ int_repr fd.

(** [os.utime(path, ns=(t, t), follow_symlinks=False)] *)
Definition fs_utime (f : fs) (fd : Z) (p : path) (t : Z) : res fs :=
  let! r := held_node false f fd p in
  let n := r.2 in
  Ok (tick (set_node r.1 (Inode (i_kind n) (i_perm n) (i_uid n) (i_gid n) (i_dev n) (i_nlink n) t (now f) (i_xattrs n)) f)).

(** [os.posix_fallocate(fd, 0, size)]: the file is at least that long. *)
Definition fs_fallocate (f : fs) (ino len : Z) : res fs :=
  match nodes f !! ino with
  | Some n =>
      match i_kind n with
      | KFile d => Ok (tick (set_node ino (Inode (KFile (d ++ repeat x00 (Z.to_nat (len - zlen d)))) (i_perm n) (i_uid n) (i_gid n)
                               (i_dev n) (i_nlink n) (now f) (now f) (i_xattrs n)) f))
      | _ => raise OSError "No such device"
      end
  | None => raise OSError "Bad file descriptor"
  end.

(** [tempfile.TemporaryFile(dir=...)]: a file without a name. *)
Definition fs_tmpfile (u : user) (f : fs) (dir : path) : res (Z * fs) :=
  let! loc := resolve f true dir in
  match node_at f loc with
  | Some (_, d) =>
      match i_kind d with
      | KDir =>
          let n := new_node u (KFile []) 0x180 (i_dev d) f in
          Ok (fresh f, tick (FS (names f) (<[fresh f := Inode (i_kind n) (i_perm n) (i_uid n) (i_gid n) (i_dev n) 0 (i_mtime n) (i_ctime n) []]> (nodes f))
                               (fresh f + 1) (now f)))
      | _ => ENOTDIR
      end
  | None => ENOENT
  end.

Section storage.
Context `{machine}.
Context (spawn : list (pystr * pystr) -> list pystr -> fs -> completed_process * fs).
Context (statvfs_at : fs -> path -> res statvfs) (st_blocks : fs -> Z -> Z).

(** *** Walking a tree

    [os.walk(root, followlinks=False)] of a path below a descriptor, with the body of
    its loop; a directory that cannot be listed is skipped.  The entries of a listing
    come with their types. *)

Definition fs_held_scandir (f : fs) (fd : Z) (top : path) : res (list (pystr * kind)) :=
  let! l := fs_held_listdir f fd top in
  Ok (omap (fun name => match held_node false f fd (top ++ [name]) with Ok r => Some (name, i_kind r.2) | Err _ => None end) l).
Definition scandir_or_skip (fd : Z) (top : path) : M (option (list (pystr * kind))) :=
  mcatch (let* l := query (fun f => fs_held_scandir f fd top) in mret (Some l))
    (fun e => if is_os_error (exn_cls e) then mret None else reraise e).

(** [entry.is_dir()]: a link is followed, an error is "no". *)
Definition entry_is_dir (fd : Z) (top : path) (entry : pystr * kind) : M bool :=
  match entry.2 with
  | KDir => mret true
  | KLink _ => or_false (let* s := held_stat true fd (top ++ [entry.1]) in mret (s_isdir (st_mode s)))
  | _ => mret false
  end.
Definition entry_is_symlink (entry : pystr * kind) : bool := match entry.2 with KLink _ => true | _ => false end.

(** The directories, the other entries, and the directories that are not links. *)
Record listing := Listing { l_dirs : list pystr; l_files : list pystr; l_walk : list pystr }.
Definition sort_entry (fd : Z) (top : path) (s : listing) (entry : pystr * kind) : M listing :=
  let* d := entry_is_dir fd top entry in
  mret (if d then Listing (l_dirs s ++ [entry.1]) (l_files s) (if entry_is_symlink entry then l_walk s else l_walk s ++ [entry.1])
        else Listing (l_dirs s) (l_files s ++ [entry.1]) (l_walk s)).

(** [os.path.islink] of each directory, after the body has run. *)
Definition held_islink (fd : Z) (p : path) : M bool := or_false (let* s := held_stat false fd p in mret (s_islnk (st_mode s))).
Definition enter (fd : Z) (top : path) (stack : list path) (name : pystr) : M (list path) :=
  let* l := held_islink fd (top ++ [name]) in
  mret (if l then stack else stack ++ [top ++ [name]]).

Definition walk_turn {A} (fd : Z) (body : A -> path -> list pystr -> list pystr -> M A) (w : list path * A) : M (list path * A + A) :=
  match w.1 with
  | [] => mret (inr w.2)
  | top :: rest =>
      let* listed := scandir_or_skip fd top in
      match listed with
      | None => mret (inl (rest, w.2))
      | Some l =>
          let* sorted := mfor_each (sort_entry fd top) (Listing [] [] []) l in
          let* s := body w.2 top (l_dirs sorted) (l_files sorted) in
          let* below := mfor_each (enter fd top) [] (l_dirs sorted) in
          mret (inl (below ++ rest, s))
      end
  end.
Definition os_walk {A} (fd : Z) (top : path) (body : A -> path -> list pystr -> list pystr -> M A) (s : A) : M A :=
  mwhile (walk_turn fd body) ([top], s).

(** With [topdown=False]: a directory is listed before and visited after those below it. *)
Inductive visit := Scan (top : path) | Yield (top : path) (directories files : list pystr).
Definition walk_up_turn {A} (fd : Z) (body : A -> path -> list pystr -> list pystr -> M A) (w : list visit * A) : M (list visit * A + A) :=
  match w.1 with
  | [] => mret (inr w.2)
  | Yield top directories files :: rest =>
      let* s := body w.2 top directories files in mret (inl (rest, s))
  | Scan top :: rest =>
      let* listed := scandir_or_skip fd top in
      match listed with
      | None => mret (inl (rest, w.2))
      | Some l =>
          let* sorted := mfor_each (sort_entry fd top) (Listing [] [] []) l in
          mret (inl (map (fun name => Scan (top ++ [name])) (l_walk sorted) ++ Yield top (l_dirs sorted) (l_files sorted) :: rest, w.2))
      end
  end.
Definition os_walk_up {A} (fd : Z) (top : path) (body : A -> path -> list pystr -> list pystr -> M A) (s : A) : M A :=
  mwhile (walk_up_turn fd body) ([Scan top], s).

(** *** Accounting *)

(** The inode a path names, with its blocks: [Path(...).lstat()].  The descriptor's own
    path is a link of [/proc], which occupies nothing. *)
Definition lstat_blocks (fd : Z) (p : path) : M (option (Publish.identity * Z)) :=
  match p with
  | [] => query (fun f => Ok None)
  | _ => query (fun f => let! s := fs_held_stat false f fd p in Ok (Some ((st_dev s, st_ino s), st_blocks f (st_ino s))))
  end.

Definition account (fd : Z) (s : list Publish.identity * Z) (p : path) : M (list Publish.identity * Z) :=
  let* info := lstat_blocks fd p in
  match info with
  | Some (identity, blocks) =>
      mret (if bool_decide (identity ∈ s.1) then s else (identity :: s.1, s.2 + blocks * 512))
  | None => mret s
  end.
Definition allocated_body (fd : Z) (s : list Publish.identity * Z) (top : path) (directories files : list pystr) :=
  mfor_each (account fd) s (top :: map (fun name => top ++ [name]) (directories ++ files)).
Definition allocated_bytes (fd : Z) (top : path) : M Z :=
  let* s := os_walk fd top (allocated_body fd) ([], 0) in mret s.2.

Definition count_inode (fd : Z) (observed : list Publish.identity) (p : path) : M (list Publish.identity) :=
  let* info := held_stat false fd p in
  mret (if bool_decide ((st_dev info, st_ino info) ∈ observed) then observed else (st_dev info, st_ino info) :: observed).
Definition count_body (fd : Z) (observed : list Publish.identity) (top : path) (directories files : list pystr) :=
  mfor_each (count_inode fd) observed (map (fun name => top ++ [name]) (directories ++ files)).
Definition imported_inode_count (fd : Z) (top : path) : M Z :=
  let* observed := os_walk fd top (count_body fd) [] in mret (zlen observed).

Definition filesystem_capacity (p : path) : M (Z * Z) :=
  let* value := query (fun f => statvfs_at f p) in mret (f_bavail value * f_frsize value, f_favail value).

Definition require_capacity (p : path) (required_bytes required_inodes : Z) : M unit :=
  let* free := filesystem_capacity p in
  mraise_if ((free.1 <? required_bytes) || (free.2 <? required_inodes)) StorageBuildError "storage high-water refusal".

(** *** Normalizing *)

Definition utime (fd : Z) (p : path) : M unit := change (fun f => fs_utime f fd p NORMALIZED_TIME_NS).
Definition normalize_body (fd : Z) (_ : unit) (top : path) (directories files : list pystr) : M unit :=
  mfor_each (fun _ name => utime fd (top ++ [name])) tt (files ++ directories) ;;; utime fd top.
Definition normalize_tree_times (fd : Z) (top : path) : M unit := os_walk_up fd top (normalize_body fd) tt.

(** [subprocess.run(command)], and with [text=True]. *)
Definition run (env : list (pystr * pystr)) (command : list pystr) : M completed_process :=
  syscall (fun f => Ok (spawn env command f)).
Definition run_text (env : list (pystr * pystr)) (command : list pystr) : M (Z * pystr * pystr) :=
  let* c := run env command in
  let* out := lift (utf8_decode Strict (stdout c)) in
  let* err := lift (utf8_decode Strict (stderr c)) in
  mret (returncode c, out, err).

Definition ctime_commands (count : Z) : pystr :=
  flat_map (fun k => let inode := int_repr (12 + Z.of_nat k) in
      str "set_inode_field <" ++ inode ++ str "> ctime 1" ++ [10] ++ str "set_inode_field <" ++ inode ++ str "> ctime_extra 0" ++ [10])
    (seq 0 (Z.to_nat count)).

Definition FAILURE_MARKERS : list pystr :=
  strs ["File not found by ext2_lookup"; "Filesystem opened read/only"; "while setting inode field"; "Usage: set_inode_field"].

(** [marker in text] *)
Fixpoint contains (text marker : pystr) : bool :=
  startswith text marker || match text with [] => false | _ :: t => contains t marker end.

Definition debugfs_command (debugfs : pystr) (commands image_fd : Z) : list pystr :=
  [debugfs; str "-w"; str "-f"; fd_text commands; fd_text image_fd].

Definition normalize_imported_ctimes (image_parent : path) (image_fd count : Z) (debugfs : pystr) : M unit :=
  let* commands := syscall (fun f => fs_tmpfile me f image_parent) in
  mfinally
    (write_fd commands (ascii_bytes (ctime_commands count)) ;;;
     fsync commands ;;;
     let* (status, out, err) := run_text [] (debugfs_command debugfs commands image_fd) in
     let diagnostic := out ++ err in
     mraise_if (negb (status =? 0) || existsb (contains diagnostic) FAILURE_MARKERS) StorageBuildError
       "ext4 metadata normalization failed")
    (close commands).

(** *** The image *)

Definition digest (fd : Z) : M pystr :=
  let* stream := held_open fd [] in
  mfinally (let* data := mwhile (Materialize.pread_turn stream) ([], 0) in mret (sha256 data)) (close stream).

Definition observed_uuid (superblock : bytes) : pystr :=
  let field i j := hex_of (slice i j superblock) in
  join_with 45 [field 0x68 0x6C; field 0x6C 0x6E; field 0x6E 0x70; field 0x70 0x72; field 0x72 0x78].

Definition superblock_checks (superblock : bytes) (filesystem_uuid : pystr) (inodes : Z) : res unit :=
  raise_if (negb (zlen superblock =? 1024) || negb (le_int (slice 0x38 0x3A superblock) =? 0xEF53))
    StorageBuildError "generated image has no ext4 superblock" ;;
  raise_if (negb (observed_uuid superblock =s filesystem_uuid))
    StorageBuildError "generated ext4 UUID differs from requested identity" ;;
  raise_if (negb (le_int (slice 0 4 superblock) =? inodes))
    StorageBuildError "generated ext4 inode quota differs from requested identity" ;;
  raise_if (Z.land (le_int (slice 0x3A 0x3C superblock)) 1 =? 0) StorageBuildError "generated ext4 filesystem is not clean".

Definition inspect_ext4 (fd : Z) (filesystem_uuid : pystr) (size inodes : Z) : M unit :=
  let* (info, blocks) := query (fun f => let! s := fs_held_stat true f fd [] in Ok (s, st_blocks f (st_ino s))) in
  mraise_if (negb (s_isreg (st_mode info)) || negb (st_size info =? size) || (blocks * 512 <? size)) StorageBuildError
    "ext4 image is not a fully allocated regular file of the requested quota" ;;;
  let* stream := held_open fd [] in
  let* superblock := mfinally (pread stream 1024 1024) (close stream) in
  lift (superblock_checks superblock filesystem_uuid inodes).

Definition atomic_json (candidates : list pystr) (p : path) (value : pyval) : M Publish.identity :=
  Publish.atomic_write candidates p (fun stream => Publish.write_chunks stream [ascii_bytes (dumps no_floats compact value ++ [10])]).

(** *** [Path.resolve] *)

Definition resolve_path (p : path) : M pystr :=
  let* r := joinrealpath false 1000 [] (path_text p) [] in
  let real := norm_comps true [] r.1.1 in
  mcatch (let* _ := stat real in mret tt) (fun e =>
    if bool_decide (Err e = @ELOOP unit) then mraise RuntimeError "Symlink loop"
    else if is_os_error (exn_cls e) then mret tt else reraise e) ;;;
  mret (path_text real).

(** *** The build *)

(** [tempfile.mkdtemp(prefix, dir)] with the random names it tries. *)
Fixpoint mkdtemp (dir : path) (prefix : pystr) (candidates : list pystr) : M path :=
  match candidates with
  | [] => mraise FileExistsError "No usable temporary directory name found"
  | c :: t =>
      let p := dir ++ [prefix ++ c] in
      mcatch (mkdir 0x1C0 p ;;; mret p) (fun e =>
        if bool_decide (exn_cls e = FileExistsError) then mkdtemp dir prefix t else reraise e)
  end.

(** The random parts of the staging directory, the image and the record. *)
Record candidates := Candidates { c_staging : list pystr; c_image : list pystr; c_metadata : list pystr }.

(** The variables the [finally] clause consults: the staging descriptor, the temporary
    image with its identity and whether it is open, and what has been published. *)
Record vars := Vars {
  v_staging_fd : option Z; v_temporary : option path; v_identity : option Publish.identity; v_image_file : option Z;
  v_output : option Publish.identity; v_metadata : option Publish.identity; v_completed : bool }.

Definition set_temporary (p : path) (v : vars) : vars :=
  Vars (v_staging_fd v) (Some p) (v_identity v) (v_image_file v) (v_output v) (v_metadata v) (v_completed v).
Definition set_identity (i : Publish.identity) (v : vars) : vars :=
  Vars (v_staging_fd v) (v_temporary v) (Some i) (v_image_file v) (v_output v) (v_metadata v) (v_completed v).
Definition set_image (fd : option Z) (v : vars) : vars :=
  Vars (v_staging_fd v) (v_temporary v) (v_identity v) fd (v_output v) (v_metadata v) (v_completed v).
Definition set_output (i : Publish.identity) (v : vars) : vars :=
  Vars (v_staging_fd v) (v_temporary v) (v_identity v) (v_image_file v) (Some i) (v_metadata v) (v_completed v).
Definition set_metadata (i : Publish.identity) (v : vars) : vars :=
  Vars (v_staging_fd v) (v_temporary v) (v_identity v) (v_image_file v) (v_output v) (Some i) (v_completed v).
Definition set_completed (v : vars) : vars :=
  Vars None (v_temporary v) (v_identity v) (v_image_file v) (v_output v) (v_metadata v) true.

Definition ENVIRONMENT : list (pystr * pystr) :=
  [(str "PATH", str "/usr/sbin:/usr/bin:/sbin:/bin"); (str "LANG", str "C"); (str "LC_ALL", str "C");
   (str "E2FSPROGS_FAKE_TIME", str "1"); (str "SOURCE_DATE_EPOCH", str "1")].

Definition mke2fs_command (a : arguments) (staging_fd image_fd : Z) : list pystr :=
  [mke2fs a; str "-q"; str "-F"; str "-t"; str "ext4"; str "-m"; str "0"; str "-E";
   str "nodiscard,lazy_itable_init=0,lazy_journal_init=0,hash_seed=" ++ uuid a; str "-N"; int_repr (inodes a);
   str "-U"; uuid a; str "-L"; str "mk-runtime"; str "-d"; fd_text staging_fd ++ str "/root"; fd_text image_fd].

Definition build_record (a : arguments) (logical : pystr) (image_digest check_digest : pystr) : pyval :=
  VDict [(str "schema_version", VInt 1); (str "path", VStr logical); (str "image_id", VStr (image_id a));
         (str "filesystem_uuid", VStr (uuid a)); (str "size_bytes", VInt (size a)); (str "quota_bytes", VInt (size a));
         (str "inode_limit", VInt (inodes a)); (str "port", VInt (port a)); (str "sha256", VStr image_digest);
         (str "offline_check_sha256", VStr check_digest); (str "allocation", VStr (str "posix_fallocate")); (str "format", VStr (str "ext4"));
         (str "determinism", VDict [(str "fake_time", VInt 1); (str "hash_seed", VStr (uuid a)); (str "lazy_initialization", VBool false);
                                    (str "source_metadata_time", VInt 1)])].

Definition cp_command (a : arguments) (root_fd staging_fd : Z) : list pystr :=
  [cp a; str "-a"; str "--reflink=auto"; str "--"; fd_text root_fd ++ str "/."; fd_text staging_fd ++ str "/root"].
Definition e2fsck_command (a : arguments) (image_fd : Z) : list pystr := [e2fsck a; str "-fn"; fd_text image_fd].

(** The clone of the root, normalized. *)
Definition stage_root (a : arguments) (root_fd staging_fd : Z) : M unit :=
  held_mkdir 0x1C0 staging_fd [str "root"] ;;;
  let* copy := run_text [] (cp_command a root_fd staging_fd) in
  mraise_if (negb (copy.1.1 =? 0)) StorageBuildError "root staging failed" ;;;
  normalize_tree_times staging_fd [str "root"] ;;;
  require_capacity (Publish.parent_of (output a)) (size a + min_free_bytes a) (min_free_inodes a + 2).

(** The image filled, normalized, inspected and checked; the two digests. *)
Definition fill_image (a : arguments) (staging_fd image_fd : Z) : M (pystr * pystr) :=
  change (fun f => fs_fallocate f image_fd (size a)) ;;;
  fsync image_fd ;;;
  let* result := run_text ENVIRONMENT (mke2fs_command a staging_fd image_fd) in
  mraise_if (negb (result.1.1 =? 0)) StorageBuildError "mke2fs failed" ;;;
  let* count := imported_inode_count staging_fd [str "root"] in
  normalize_imported_ctimes (Publish.parent_of (output a)) image_fd count (debugfs a) ;;;
  inspect_ext4 image_fd (uuid a) (size a) (inodes a) ;;;
  let* check := run ENVIRONMENT (e2fsck_command a image_fd) in
  mraise_if (negb (returncode check =? 0)) StorageBuildError "offline filesystem validation failed" ;;;
  let* image_digest := digest image_fd in
  mret (image_digest, sha256 (stdout check)).

(** The [try] block, from its end: the record, once the image is published; *)
Definition finish (c : candidates) (a : arguments) (record : pyval) (staging_fd : Z) (staging : path) (staging_identity : Publish.identity) : step vars pyval :=
  (m <- perform (atomic_json (c_metadata c) (metadata a) record) ;;
   assign (set_metadata m) ;+
   removed <- perform (Publish.remove_directory_if_identity staging staging_identity) ;;
   perform (mraise_if (negb removed) StorageBuildError "staging directory identity changed before cleanup") ;+
   perform (close staging_fd) ;+
   assign set_completed ;+
   perform (mret record))%step.

(** the image, once it is filled; *)
Definition publish_image (a : arguments) (t : Z * path) (identity : Publish.identity) : step vars unit :=
  (perform (fsync t.1) ;+
   i <- perform (Publish.descriptor_identity t.1) ;;
   changed <- (if negb (bool_decide (i = identity)) then perform (mret true)
               else j <- perform (Publish.file_identity t.2) ;; perform (mret (negb (bool_decide (j = identity)))))%step ;;
   perform (mraise_if changed StorageBuildError "ext4 temporary image identity changed during construction") ;+
   published <- perform (Publish.publish_existing t.2 (output a) identity) ;;
   assign (set_output published) ;+
   perform (close t.1) ;+
   assign (set_image None))%step.

(** and the whole block. *)
Definition try_block (c : candidates) (a : arguments) (logical : pystr) (root_fd staging_fd : Z) (staging : path)
    (staging_identity : Publish.identity) : step vars pyval :=
  (perform (stage_root a root_fd staging_fd) ;+
   t <- perform (Publish.mkstemp (Publish.parent_of (output a)) (str "." ++ Publish.name_of (output a) ++ str ".") (c_image c)) ;;
   assign (set_temporary t.2) ;+
   assign (set_image (Some t.1)) ;+
   perform (fchmod t.1 0x180) ;+
   identity <- perform (Publish.descriptor_identity t.1) ;;
   assign (set_identity identity) ;+
   digests <- perform (fill_image a staging_fd t.1) ;;
   publish_image a t identity ;+
   finish c a (build_record a logical digests.1 digests.2) staging_fd staging staging_identity)%step.

(** [if x is not None: ...] *)
Definition when {A} (x : option A) (m : A -> M unit) : M unit := match x with Some a => m a | None => mret tt end.

(** The [finally] clause: the error of the staging clean-up is kept for its end. *)
Definition clean_up (a : arguments) (staging : path) (staging_identity : Publish.identity) (v : vars) : M unit :=
  let* failure := match v_staging_fd v with
    | None => mret None
    | Some fd =>
        mfinally
          (mcatch
             (let* removed := Publish.remove_directory_if_identity staging staging_identity in
              mraise_if (negb removed) StorageBuildError "staging directory identity changed before cleanup" ;;; mret None)
             (fun e => mret (Some e)))
          (close fd)
    end in
  (if v_completed v then mret tt
   else
     when (v_image_file v) close ;;;
     when (v_temporary v) (fun t => when (v_identity v) (fun i => Publish.remove_if_identity t i ;;; mret tt)) ;;;
     when (v_output v) (fun i => Publish.remove_if_identity (output a) i ;;; mret tt) ;;;
     when (v_metadata v) (fun i => Publish.remove_if_identity (metadata a) i ;;; mret tt)) ;;;
  when failure reraise.

(** The checks before the first change. *)
Definition bounds_differ (a : arguments) : bool :=
  (size a <? Z.shiftl 64 20) || (Z.shiftl 16 30 <? size a) || negb (size a mod 4096 =? 0) ||
  (inodes a <? 128) || (2097152 <? inodes a) || (port a <? 1024) || (65535 <? port a) ||
  (min_free_bytes a <? 0) || (Z.shiftl 16 40 <? min_free_bytes a) ||
  (min_free_inodes a <? 0) || (Z.shiftl 1 30 <? min_free_inodes a).

Definition check_arguments (a : arguments) : M pystr :=
  let* logical := match logical_path a with Some s => mret (as_posix (pure_path s)) | None => resolve_path (output a) end in
  mraise_if ((pp_root (pure_path logical) =s "") || negb (normpath logical =s logical)) StorageBuildError
    "logical output path must be absolute and canonical" ;;;
  let* o := exists_ (output a) in
  let* present := (if o then mret true else exists_ (metadata a)) in
  mraise_if present StorageBuildError "output paths must not already exist" ;;;
  mraise_if (negb (fullmatch IDENTITY (image_id a)) || negb (fullmatch UUID (uuid a))) StorageBuildError "image ID or UUID is malformed" ;;;
  mraise_if (bounds_differ a) StorageBuildError
    "size, inode quota, free-space reserve, or export port is outside the supported bounds" ;;;
  mret logical.

Definition _build_held (c : candidates) (a : arguments) (root_fd : Z) : M pyval :=
  let* logical := check_arguments a in
  mkdir_parents 0x1FF (rev (Publish.parent_of (output a))) ;;;
  mkdir_parents 0x1FF (rev (Publish.parent_of (metadata a))) ;;;
  let* counted := imported_inode_count root_fd [] in
  let source_inodes := counted + 1 in
  let* allocated := allocated_bytes root_fd [] in
  require_capacity (Publish.parent_of (output a)) (size a + min_free_bytes a + allocated) (min_free_inodes a + source_inodes + 4) ;;;
  let* staging := mkdtemp (Publish.parent_of (output a)) (str ".root-staging.") (c_staging c) in
  let* staging_fd := open_ true true staging in
  let* staging_identity := Publish.descriptor_identity staging_fd in
  let* r := try_block c a logical root_fd staging_fd staging staging_identity
              (Vars (Some staging_fd) None None None None None false) in
  clean_up a staging staging_identity r.1 ;;;
  lift r.2.

Definition build (c : candidates) (a : arguments) : M pyval :=
  let* root_fd := os_error_as StorageBuildError "cannot open root directory without following symlinks"
    (Publish.open_directory_nofollow (root a)) in
  mfinally (_build_held c a root_fd) (close root_fd).

(** The exit status and the line printed. *)
Definition main (c : candidates) (a : arguments) : M (Z * option pystr) :=
  mcatch (let* record := build c a in mret (0, Some (dumps no_floats compact record)))
    (fun e => if is_os_error (exn_cls e) || bool_decide (exn_cls e ∈ [PublicationError; StorageBuildError])
              then mret (1, None) else reraise e).
End storage.
End Storage.
