(* ===== verification/StorageSafe.v ===== *)
(** * Building storage: what is touched and what is published

    The external programs keep to the staging directory and the image; then, whichever
    system call fails, a build changes nothing that existed, and when it returns, the
    published image is the one that was inspected and that the record describes. *)
From Stdlib Require Import ZArith Lia.
From Stdlib Require Import Init.Byte.
From stdpp Require Import base list sets strings option gmap.
From S2P Require Import Prelude PyStr PyVal Bytes Json Sys Held FsRules Publish PublishPair Keeps Rootfs RootfsScan RootfsScanSafe RootfsMain WriteFile.
From S2P Require Import BindPlan Materialize MaterializeSafe Storage.

Open Scope string_scope.
Open Scope list_scope.
Open Scope Z_scope.

Module StorageSafe.
Import BuildRootfs PublishPair Keeps RootfsScanSafe RootfsMain WriteFile.
Export Storage.

(** ** The contract of the external programs *)

Definition inside (S k : path) : Prop := S `prefix_of` k /\ k <> S.

(** A program that works below the directory [S] and on the file [image]: other names
    stay, new names are of new nodes, other nodes stay, and the image stays a file with
    its mode. *)
Record confined (S : path) (image : option Z) (f f' : fs) : Prop := {
  cf_names : forall k, ~ inside S k -> names f' !! k = names f !! k;
  cf_new : forall k i, names f' !! k = Some i -> names f !! k = Some i \/ fresh f <= i;
  cf_nodes : forall i n, nodes f !! i = Some n -> (forall k, names f !! k = Some i -> ~ inside S k) -> image <> Some i -> nodes f' !! i = Some n;
  cf_image : forall i n d, image = Some i -> nodes f !! i = Some n -> i_kind n = KFile d ->
    exists n' d', nodes f' !! i = Some n' /\ i_kind n' = KFile d' /\ i_perm n' = i_perm n /\ i_dev n' = i_dev n;
  cf_based : based f -> based f';
  cf_fresh : fresh f <= fresh f';
  cf_wf : fs_wf f -> fs_wf f' }.

(** [cp] fills the staging directory, [mke2fs] and [debugfs] write the image, and
    [e2fsck -n] changes nothing. *)
Record tools (spawn : list (pystr * pystr) -> list pystr -> fs -> completed_process * fs) (a : arguments) : Prop := {
  t_cp : forall root_fd s S f, location_of f s = Some S -> confined S None f (spawn [] (cp_command a root_fd s) f).2;
  t_cp_target : forall root_fd s S f, location_of f s = Some S -> is_dir_at f (S ++ [str "root"]) = true ->
    is_dir_at (spawn [] (cp_command a root_fd s) f).2 (S ++ [str "root"]) = true;
  t_mke2fs : forall s t S f, location_of f s = Some S -> confined S (Some t) f (spawn ENVIRONMENT (mke2fs_command a s t) f).2;
  t_debugfs : forall c t S f, confined S (Some t) f (spawn [] (debugfs_command (debugfs a) c t) f).2;
  t_e2fsck : forall t f, (spawn ENVIRONMENT (e2fsck_command a t) f).2 = f }.

(** ** The file system before *)

Lemma wf_closed f : fs_wf f -> closed f.
Proof. intros Hwf k x i Hk. by eapply named_parent. Qed.

Lemma only_location f i k : names f !! k = Some i -> (forall k', names f !! k' = Some i -> k' = k) -> location_of f i = Some k.
Proof.
  intros Hk Ho. unfold location_of. destruct (List.find _ _) as [[k' j]|] eqn:E.
  - apply find_some in E as [Hin Hj]. simpl in Hj. apply Z.eqb_eq in Hj as ->. apply list_elem_of_In, elem_of_map_to_list in Hin. simpl. f_equal. by apply Ho.
  - exfalso. eapply find_none in E; [|by apply list_elem_of_In, elem_of_map_to_list]. simpl in E. lia.
Qed.

(** ** The staging directory *)

Section build.
Context `{machine} (Hquiet : quiet).
Context (f0 : fs) (Hb0 : based f0) (Hwf0 : fs_wf f0).

Section staged.
Context (S : path) (s : Z) (HS : S <> []) (Sfree : names f0 !! S = None) (sfree : nodes f0 !! s = None).

(** What existed is there; the directory [s] has the one name [S], and what is inside
    is new. *)
Record staged (f : fs) : Prop := {
  sg_ext : extends f0 f;
  sg_based : based f;
  sg_name : names f !! S = Some s;
  sg_only : forall k, names f !! k = Some s -> k = S;
  sg_dir : exists n, nodes f !! s = Some n /\ i_kind n = KDir;
  sg_new : forall k i, names f !! k = Some i -> S `prefix_of` k -> nodes f0 !! i = None }.

Lemma old_outside k i : names f0 !! k = Some i -> ~ S `prefix_of` k.
Proof. apply closed_outside; [by apply wf_closed|done]. Qed.

Lemma staged_location f : staged f -> location_of f s = Some S.
Proof. intros Hf. apply only_location; [by apply (sg_name f)|by apply (sg_only f)]. Qed.

Lemma fresh_new f i : staged f -> fresh f <= i -> nodes f0 !! i = None.
Proof.
  intros Hf Hi. destruct (nodes f0 !! i) as [n|] eqn:Hn; [|done]. apply (ex_nodes _ _ (sg_ext f Hf)) in Hn.
  apply (bs_fresh f (sg_based f Hf)) in Hn. lia.
Qed.

Lemma fresh_not_s f : staged f -> fresh f <> s.
Proof. intros Hf <-. destruct (sg_dir f Hf) as (n & Hn & _). apply (bs_fresh f (sg_based f Hf)) in Hn. lia. Qed.

Lemma confined_staged image f f' : staged f -> confined S image f f' ->
  (forall t, image = Some t -> nodes f0 !! t = None /\ t <> s) -> staged f'.
Proof.
  intros Hf Hc Hi. constructor.
  - constructor.
    + intros k i Hk. rewrite (cf_names _ _ _ _ Hc); [by apply (ex_names _ _ (sg_ext f Hf))|]. intros [Hp _]. by apply old_outside in Hk.
    + intros i n Hn. apply (cf_nodes _ _ _ _ Hc); [by apply (ex_nodes _ _ (sg_ext f Hf))| |].
      * intros k Hk [Hp _]. by rewrite (sg_new f Hf k i Hk Hp) in Hn.
      * intros Heq. destruct (Hi i Heq) as [Hno _]. congruence.
  - apply (cf_based _ _ _ _ Hc), (sg_based f Hf).
  - rewrite (cf_names _ _ _ _ Hc); [by apply (sg_name f)|by intros []].
  - intros k Hk. apply (cf_new _ _ _ _ Hc) in Hk as [Hk|Hk]; [by apply (sg_only f)|]. destruct (sg_dir f Hf) as (n & Hn & _).
    apply (bs_fresh f (sg_based f Hf)) in Hn. lia.
  - destruct (sg_dir f Hf) as (n & Hn & Hk). exists n. split; [|done]. apply (cf_nodes _ _ _ _ Hc); [done| |].
    + intros k Hks [_ Hne]. by apply Hne, (sg_only f Hf).
    + intros Heq. by destruct (Hi s Heq).
  - intros k i Hk Hp. apply (cf_new _ _ _ _ Hc) in Hk as [Hk|Hk]; [by apply (sg_new f Hf k)|]. by apply (fresh_new f).
Qed.

(** A node that is not old may change, within its kind. *)
Definition renode (i : Z) (n : inode) (t : Z) (f : fs) : fs := FS (names f) (<[i := n]> (nodes f)) (fresh f) t.

Lemma staged_renode f i n n' t : staged f -> nodes f !! i = Some n -> nodes f0 !! i = None -> (i_kind n = KDir -> i_kind n' = KDir) ->
  staged (renode i n' t f).
Proof.
  intros Hf Hi Hnew Hk. constructor; cbn [renode names nodes fresh].
  - constructor; cbn [renode names nodes]; [apply (sg_ext f Hf)|]. intros j m Hj. rewrite lookup_insert_ne by congruence. by apply (ex_nodes _ _ (sg_ext f Hf)).
  - constructor.
    + intros j m. cbn. intros [[<- _]|[_ Hj]]%lookup_insert_Some; by eapply (bs_fresh f (sg_based f Hf)).
    + cbn [renode names nodes]. intros k j Hj. destruct (decide (i = j)) as [->|]; [rewrite lookup_insert_eq; eauto|rewrite lookup_insert_ne by done].
      by eapply (bs_node f (sg_based f Hf)).
  - by apply (sg_name f).
  - by apply (sg_only f).
  - destruct (sg_dir f Hf) as (m & Hm & Hd). destruct (decide (i = s)) as [->|]; [|exists m; by rewrite lookup_insert_ne].
    rewrite lookup_insert_eq. exists n'. split; [done|]. apply Hk. rewrite Hi in Hm. by injection Hm as ->.
  - by apply (sg_new f).
Qed.

Lemma staged_added f loc n t : staged f -> node_at f loc = None -> staged (added f loc n t).
Proof.
  intros Hf Hl. pose proof (extends_free f0 Hb0 f loc (sg_ext f Hf) Hl) as Hl0.
  assert (names f !! loc = None) as Hfree.
  { unfold node_at in Hl. destruct (names f !! loc) as [i|] eqn:Hi; [|done]. destruct (bs_node f (sg_based f Hf) _ _ Hi) as [m Hm]. by rewrite Hm in Hl. }
  constructor; unfold added; cbn [names nodes fresh].
  - constructor; cbn [names nodes].
    + intros k i Hk. rewrite lookup_insert_ne by congruence. by apply (ex_names _ _ (sg_ext f Hf)).
    + intros i m Hm. rewrite lookup_insert_ne; [by apply (ex_nodes _ _ (sg_ext f Hf))|]. intros <-. by rewrite (fresh_new f (fresh f) Hf) in Hm.
  - apply (added_based f loc n t), (sg_based f Hf).
  - rewrite lookup_insert_ne; [by apply (sg_name f)|]. intros ->. by rewrite (sg_name f Hf) in Hfree.
  - intros k [[_ Hs]|[_ Hk]]%lookup_insert_Some; [by destruct (fresh_not_s f Hf)|by apply (sg_only f)].
  - destruct (sg_dir f Hf) as (m & Hm & Hd). exists m. rewrite lookup_insert_ne; [done|]. by apply fresh_not_s.
  - intros k i [[_ <-]|[_ Hk]]%lookup_insert_Some Hp; [by apply (fresh_new f)|by apply (sg_new f Hf k)].
Qed.

(** *** Filling the directory *)

Definition tidy (f : fs) : Prop := staged f /\ fs_wf f.

Lemma tidy_dir f : tidy f -> is_dir_at f S = true.
Proof. intros [Hf _]. destruct (sg_dir f Hf) as (n & Hn & Hk). unfold is_dir_at, node_at. by rewrite (sg_name f Hf), Hn, Hk. Qed.

Lemma tidy_held f p : tidy f -> held_path f s p = Ok (S ++ p).
Proof. intros [Hf _]. unfold held_path. by rewrite (staged_location f Hf). Qed.

Lemma renode_dir i n n' t f k : nodes f !! i = Some n -> i_kind n' = i_kind n -> is_dir_at (renode i n' t f) k = is_dir_at f k.
Proof.
  intros Hi Hk. unfold is_dir_at, node_at, renode. cbn [names nodes]. destruct (names f !! k) as [j|]; [|done].
  destruct (decide (i = j)) as [->|Hne]; [by rewrite lookup_insert_eq, Hi, Hk|by rewrite lookup_insert_ne].
Qed.

Lemma tidy_renode i n n' t f : tidy f -> nodes f !! i = Some n -> i_kind n' = i_kind n -> nodes f0 !! i = None -> tidy (renode i n' t f).
Proof.
  intros [Hf [Hp Hn H1]] Hi Hk Hnew. split; [by apply (staged_renode f i n n' t Hf Hi Hnew); rewrite Hk|]. split; cbn [renode names nodes].
  - intros k c j Hj. fold (renode i n' t f). rewrite (renode_dir i n) by done. by eapply Hp.
  - intros k j Hj. destruct (decide (i = j)) as [->|]; [rewrite lookup_insert_eq; eauto|rewrite lookup_insert_ne by done; by eapply Hn].
  - intros k k' j Hj Hj'. fold (renode i n' t f). rewrite (renode_dir i n) by done. by eapply H1.
Qed.

Lemma inside_plain f p : tidy f -> is_dir_at f (S ++ p) = true -> plain_path (S ++ p) /\ real_dir f (S ++ p) /\ resolve f false (S ++ p) = Ok (S ++ p).
Proof.
  intros [Hf Hwf] Hd. destruct (dir_named f _ Hd) as [i Hi]. split_and!; [by eapply named_plain|by apply dir_real|by eapply named_resolve].
Qed.

Lemma inside_child f p x : tidy f -> is_dir_at f (S ++ p) = true -> plain_name x = true ->
  resolve f false (S ++ p ++ [x]) = Ok (S ++ p ++ [x]) /\ locate f (S ++ p ++ [x]) = Ok (S ++ p ++ [x]).
Proof.
  intros Hf Hd Hx. destruct (inside_plain f p Hf Hd) as (Hp & Hr & _). rewrite app_assoc.
  assert (plain_path ((S ++ p) ++ [x])) by (apply plain_app; split; [done|by constructor]).
  split; [by apply resolve_child|by apply locate_child].
Qed.

Lemma mkdir_tidy perm x : plain_name x = true ->
  triple tidy (held_mkdir perm s [x]) (fun _ f => tidy f /\ is_dir_at f (S ++ [x]) = true) tidy.
Proof.
  intros Hx. apply (triple_change Hquiet); [done|]. intros f f' Hf Hr. rewrite (tidy_held f [x] Hf) in Hr. cbn [mbind] in Hr.
  pose proof (tidy_dir f Hf) as Hd. rewrite <-(app_nil_r S) in Hd. destruct (inside_child f [] x Hf Hd Hx) as [_ Hl]. simpl in Hl.
  destruct (node_at f (S ++ [x])) as [[]|] eqn:Hn; [unfold fs_create in Hr; by rewrite Hl, Hn in Hr|].
  destruct (create_added me KDir perm f (S ++ [x]) (S ++ [x]) Hl Hn) as (n & Hk & Hc). rewrite Hc in Hr. injection Hr as <-. cbn [snd].
  rewrite app_nil_r in Hd. destruct Hf as [Hf Hwf]. split.
  2:{ unfold is_dir_at, node_at, added. cbn [names nodes]. by rewrite !lookup_insert_eq, Hk. }
  split; [by apply staged_added|]. apply wf_added; [done|by apply (sg_based f)|by destruct S| | |done].
  - by rewrite removelast_last.
  - destruct (dir_named f _ Hd) as [i Hi]. apply plain_app. split; [by eapply named_plain|by constructor].
Qed.

(** *** Normalizing *)

Definition dirs (P : list path) (f : fs) : Prop := tidy f /\ Forall (fun p => is_dir_at f (S ++ p) = true) P.

Lemma utime_keeps P p : p <> [] -> (forall f, dirs P f -> resolve f false (S ++ p) = Ok (S ++ p)) -> keeps (dirs P) (utime s p).
Proof.
  intros Hp Hres. apply (keeps_change _ Hquiet). intros f f' Hf Hr. pose proof Hf as [Ht Hd]. unfold fs_utime, held_node in Hr.
  destruct p as [|x p]; [done|]. rewrite (tidy_held f _ Ht) in Hr. cbn [mbind] in Hr. rewrite (Hres f Hf) in Hr. cbn [mbind] in Hr.
  destruct (node_at f (S ++ x :: p)) as [[i n]|] eqn:Hn; [|done]. cbn [fst snd mbind] in Hr. injection Hr as <-. apply node_at_nodes in Hn as [Hna Hno].
  set (n' := Inode _ _ _ _ _ _ _ _ _). change (tick (set_node i n' f)) with (renode i n' (now f + 1) f).
  assert (nodes f0 !! i = None) as Hnew by (apply (sg_new f (proj1 Ht) (S ++ x :: p)); [done|by eexists]).
  split; [by apply (tidy_renode i n)|]. eapply list.Forall_impl; [exact Hd|]. intros q Hq. by rewrite (renode_dir i n).
Qed.

Definition visit_dirs (v : visit) : path := match v with Scan top => top | Yield top _ _ => top end.
Definition visit_ok (v : visit) : Prop :=
  visit_dirs v <> [] /\ match v with Scan _ => True | Yield _ ds fs => Forall (fun x => plain_name x = true) (ds ++ fs) end.

Lemma normalize_keeps P top ds fs : top <> [] -> top ∈ P -> Forall (fun x => plain_name x = true) (ds ++ fs) ->
  keeps (dirs P) (normalize_body s tt top ds fs).
Proof.
  intros Hne Hin Hpl. assert (forall f, dirs P f -> is_dir_at f (S ++ top) = true) as Hd.
  { intros f [_ Hd]. rewrite list.Forall_forall in Hd. by apply Hd. }
  apply keeps_bind.
  - assert (Forall (fun x => plain_name x = true) (fs ++ ds)) as Hpl' by (apply Forall_app in Hpl as [? ?]; by apply Forall_app).
    clear Hpl. induction Hpl' as [|x l Hx _ IH]; [apply keeps_ret|]. cbn [mfor_each]. apply keeps_bind; [|by intros []].
    apply utime_keeps; [by destruct top|]. intros f Hf. by apply (inside_child f top x (proj1 Hf)); [apply Hd|].
  - intros _. apply utime_keeps; [done|]. intros f Hf. apply (inside_plain f top (proj1 Hf)). by apply Hd.
Qed.

(** The listing of a directory inside. *)
Lemma obs_scandir f top : tidy f -> is_dir_at f (S ++ top) = true ->
  observes f (scandir_or_skip s top) (fun o => forall l, o = Some l ->
    Forall (fun e => plain_name e.1 = true /\ (e.2 = KDir -> is_dir_at f (S ++ top ++ [e.1]) = true)) l).
Proof.
  intros Ht Hd. apply obs_catch.
  2:{ intros e. destruct (is_os_error _); [by apply obs_ret|apply obs_reraise]. }
  eapply obs_bind; [by apply obs_query|]. intros l Hl. apply obs_ret. intros l' [= <-]. cbv beta in Hl. unfold fs_held_scandir in Hl. inv_ok.
  destruct (inside_plain f top Ht Hd) as (Hp & Hr & Hres).
  assert (Forall (fun x => plain_name x = true) a) as Hnames.
  { unfold fs_held_listdir in E. inv_ok. destruct (i_kind a0.2); try done. rewrite (staged_location f (proj1 Ht)) in E. unfold fs_listdir in E. inv_ok.
    assert (exists i n, node_at f (S ++ top) = Some (i, n) /\ i_kind n = KDir) as (i & n & Hn & Hk) by (by apply is_dir_kind).
    rewrite (resolve_nonlink f _ _ i n Hres Hn) in E1 by (by rewrite Hk). injection E1 as <-. rewrite Hn, Hk in E. injection E as <-.
    apply list.Forall_forall. intros x Hx. apply list_elem_of_omap in Hx as ([k j] & Hin & Hc). cbn [fst] in Hc. apply child_of_spec in Hc as ->.
    apply elem_of_map_to_list in Hin. by apply (wf_parent f (proj2 Ht)) in Hin as [_ ?]. }
  apply list.Forall_forall. intros [x k] Hx. apply list_elem_of_omap in Hx as (y & Hy & Hm). rewrite list.Forall_forall in Hnames. specialize (Hnames y Hy).
  destruct (held_node false f s (top ++ [y])) as [[i n]|] eqn:Hh; [|done]. injection Hm as <- <-. cbn [fst snd]. split; [done|]. intros Hk.
  unfold held_node in Hh. destruct (top ++ [y]) as [|z r] eqn:Hz; [by destruct top|]. rewrite <-Hz in *. clear z r Hz.
  rewrite (tidy_held f _ Ht) in Hh. cbn [mbind] in Hh. rewrite (proj1 (inside_child f top y Ht Hd Hnames)) in Hh. cbn [mbind] in Hh.
  unfold is_dir_at. destruct (node_at f (S ++ top ++ [y])) as [[j m]|]; [|done]. injection Hh as -> ->. by rewrite Hk.
Qed.

Lemma obs_sort f top l : tidy f -> is_dir_at f (S ++ top) = true ->
  Forall (fun e => plain_name e.1 = true /\ (e.2 = KDir -> is_dir_at f (S ++ top ++ [e.1]) = true)) l ->
  observes f (mfor_each (sort_entry s top) (Listing [] [] []) l) (fun r =>
    Forall (fun x => plain_name x = true) (l_dirs r ++ l_files r) /\ Forall (fun x => is_dir_at f (S ++ top ++ [x]) = true) (l_walk r)).
Proof.
  intros Ht Hd Hl. apply (obs_for_each f (fun _ r => Forall (fun x => plain_name x = true) (l_dirs r ++ l_files r) /\
    Forall (fun x => is_dir_at f (S ++ top ++ [x]) = true) (l_walk r))); [by split; constructor|].
  intros don [x k] rest r Heq [H1 H2]. subst l. apply Forall_app in Hl as [_ Hl]. apply Forall_cons_iff in Hl as [[Hx Hk] _]. cbn [fst snd] in *.
  unfold sort_entry, entry_is_dir. cbn [fst snd]. apply Forall_app in H1 as [Hds Hfs].
  eapply (obs_bind f _ (fun d => d = true -> entry_is_symlink (x, k) = false -> k = KDir)).
  { destruct k; try (by apply obs_ret). eapply obs_conseq; [apply (obs_or_false f _ True)|done]. eapply obs_bind; [by apply obs_query|]. intros; by apply obs_ret. }
  intros d Hdk. apply obs_ret. destruct d; cbn [l_dirs l_files l_walk fst].
  - split; [rewrite !Forall_app; split_and!; auto|]. destruct (entry_is_symlink (x, k)); [done|]. apply Forall_app. split; [done|]. constructor; [|done]. by apply Hk, Hdk.
  - split; [|done]. rewrite !Forall_app; split_and!; auto.
Qed.

Definition walking (w : list visit * unit) (f : fs) : Prop :=
  tidy f /\ Forall (fun v => is_dir_at f (S ++ visit_dirs v) = true /\ visit_ok v) w.1.

Lemma normalize_turn w : triple (walking w) (walk_up_turn s (normalize_body s) w)
  (fun r => match r with inl w' => walking w' | inr _ => tidy end) tidy.
Proof.
  destruct w as [[|[top|top ds fs] rest] []]; cbn [walk_up_turn fst snd].
  - apply triple_ret. by intros f [].
  - apply triple_pre. intros f [Ht Hs]. cbn [fst] in Hs. apply Forall_cons_iff in Hs as [[Hd [Hne _]] Hs]. cbn [visit_dirs] in *.
    eapply triple_bind; [eapply triple_conseq; [by apply (obs_scandir f top)|done|intros a g Hg; exact Hg|by intros g ->]|].
    intros [l|]; [|by apply triple_ret; intros g [-> _]]. apply triple_pre. intros g [-> Hl].
    eapply triple_bind; [eapply triple_conseq; [by apply (obs_sort f top l Ht Hd), Hl|done|intros a g Hg; exact Hg|by intros g ->]|].
    intros r. apply triple_ret. intros g [-> [Hp Hw]]. split; [done|]. cbn [fst]. apply Forall_app. split.
    + apply Forall_map. eapply list.Forall_impl; [exact Hw|]. intros x Hx. split; [done|]. split; [by destruct top|done].
    + constructor; [|done]. by split.
  - apply triple_pre. intros f [Ht Hs]. cbn [fst] in Hs. apply Forall_cons_iff in Hs as [[Hd [Hne Hp]] Hs]. cbn [visit_dirs] in *.
    eapply triple_bind.
    { eapply triple_conseq; [apply (normalize_keeps (top :: map visit_dirs rest) top ds fs); [done|by left|done]| |intros a g Hg; exact Hg|by intros g []].
      intros g ->. split; [done|]. constructor; [done|]. apply Forall_map. eapply list.Forall_impl; [exact Hs|]. by intros v []. }
    intros u. apply triple_ret. intros g [Hg Hgs]. split; [done|]. cbn [fst]. apply Forall_cons_iff in Hgs as [_ Hgs]. apply Forall_map in Hgs.
    apply list.Forall_forall. intros v Hv. rewrite list.Forall_forall in Hgs, Hs. split; [by apply Hgs|by apply Hs].
Qed.

Lemma normalize_tidy x : triple (fun f => tidy f /\ is_dir_at f (S ++ [x]) = true) (normalize_tree_times s [x]) (fun _ => tidy) tidy.
Proof.
  unfold normalize_tree_times, os_walk_up. eapply triple_conseq; [apply (triple_mwhile _ walking (fun _ => tidy) tidy)| |done|done].
  - apply normalize_turn.
  - by intros w f [].
  - intros f [Ht Hd]. split; [done|]. constructor; [|done]. by split.
Qed.

(** *** The clone *)

Context (spawn : list (pystr * pystr) -> list pystr -> fs -> completed_process * fs) (statvfs_at : fs -> path -> res statvfs)
  (st_blocks : fs -> Z -> Z) (a : arguments) (Htools : tools spawn a).

Lemma capacity_keeps I p b i : keeps I (require_capacity statvfs_at p b i).
Proof. unfold require_capacity, filesystem_capacity. keeps_tac. Qed.

Lemma stage_triple root_fd : triple tidy (stage_root spawn statvfs_at a root_fd s) (fun _ => staged) staged.
Proof.
  assert (forall f, tidy f -> staged f) as Hts by (by intros f []).
  unfold stage_root. eapply triple_bind.
  { eapply triple_conseq; [by apply (mkdir_tidy 0x1C0 (str "root"))|done|intros u f Hf; exact Hf|done]. }
  intros u. unfold run_text, run.
  eapply (triple_bind _ _ (fun _ f => tidy f /\ is_dir_at f (S ++ [str "root"]) = true)).
  { eapply triple_bind.
    - apply (triple_syscall Hquiet _ _ (fun _ f => tidy f /\ is_dir_at f (S ++ [str "root"]) = true)); [by intros f [[] _]|].
      intros f c f' [[Hf Hwf] Hd] [= Heq]. pose proof (staged_location f Hf) as Hl.
      pose proof (t_cp _ _ Htools root_fd s S f Hl) as Hc. pose proof (t_cp_target _ _ Htools root_fd s S f Hl Hd) as Hd'. rewrite Heq in Hc, Hd'. cbn [snd] in *.
      split; [|done]. split; [by eapply confined_staged|by eapply cf_wf].
    - intros c. eapply (triple_bind _ _ (fun _ f => tidy f /\ is_dir_at f (S ++ [str "root"]) = true)); [apply triple_lift; [done|by intros f [[] _]]|].
      intros out. eapply (triple_bind _ _ (fun _ f => tidy f /\ is_dir_at f (S ++ [str "root"]) = true)); [apply triple_lift; [done|by intros f [[] _]]|].
      intros err. by apply triple_ret. }
  intros copy. eapply (triple_bind _ _ (fun _ f => tidy f /\ is_dir_at f (S ++ [str "root"]) = true)); [apply triple_lift; [done|by intros f [[] _]]|].
  intros u1. eapply triple_bind; [eapply triple_conseq; [apply (normalize_tidy (str "root"))|done|intros u2 f Hf; exact Hf|done]|].
  intros u2. apply (triple_conseq _ tidy _ _ (fun _ => tidy) _ tidy); [apply capacity_keeps|done|done|done].
Qed.

(** *** The image *)

Section image.
Context (od : path) (on : pystr) (Hout : output a = od ++ [on]) (Hop : plain_path (od ++ [on])) (Hor : real_dir f0 od).
Context (HSd : removelast S = od).

Record imaged (t : Z) (T : path) (dev perm : Z) (f : fs) : Prop := {
  im_staged : staged f;
  im_name : names f !! T = Some t;
  im_only : forall k, names f !! k = Some t -> k = T;
  im_file : exists n d, nodes f !! t = Some n /\ i_kind n = KFile d /\ i_dev n = dev /\ i_perm n = perm }.

Lemma image_not_s t T dev perm f : imaged t T dev perm f -> t <> s.
Proof.
  intros Hf ->. destruct (im_file _ _ _ _ _ Hf) as (n & d & Hn & Hk & _). destruct (sg_dir f (im_staged _ _ _ _ _ Hf)) as (m & Hm & Hd). congruence.
Qed.

Lemma sibling_not_inside c : ~ inside S (od ++ [c]).
Proof.
  intros [[r Hr] Hne]. destruct S as [|x S' _] using rev_ind; [done|]. rewrite removelast_last in HSd. subst S'.
  rewrite <-app_assoc in Hr. apply app_inv_head in Hr. simpl in Hr. injection Hr as -> Hr. by destruct r.
Qed.

Lemma imaged_confined t c dev perm f f' : imaged t (od ++ [c]) dev perm f -> nodes f0 !! t = None -> confined S (Some t) f f' ->
  imaged t (od ++ [c]) dev perm f'.
Proof.
  intros Hf Ht Hc. pose proof (im_staged _ _ _ _ _ Hf) as Hs. constructor.
  - eapply confined_staged; [done|done|]. intros t' [= <-]. split; [done|by eapply image_not_s].
  - rewrite (cf_names _ _ _ _ Hc); [by eapply im_name|apply sibling_not_inside].
  - intros k Hk. apply (cf_new _ _ _ _ Hc) in Hk as [Hk|Hk]; [by eapply im_only|]. destruct (im_file _ _ _ _ _ Hf) as (n & d & Hn & _).
    apply (bs_fresh f (sg_based f Hs)) in Hn. lia.
  - destruct (im_file _ _ _ _ _ Hf) as (n & d & Hn & Hk & <- & <-). destruct (cf_image _ _ _ _ Hc t n d eq_refl Hn Hk) as (n' & d' & ? & ? & ? & ?).
    exists n', d'. done.
Qed.

Lemma imaged_renode t T dev perm perm' f n n' d tm : imaged t T dev perm f -> nodes f0 !! t = None -> nodes f !! t = Some n ->
  i_kind n' = KFile d -> i_dev n' = i_dev n -> i_perm n' = perm' -> imaged t T dev perm' (renode t n' tm f).
Proof.
  intros Hf Ht Hn Hk Hd Hp. destruct (im_file _ _ _ _ _ Hf) as (m & d0 & Hm & Hk0 & Hdev & _). rewrite Hn in Hm. injection Hm as <-. constructor.
  - apply (staged_renode f t n n'); [by eapply im_staged|done|done|congruence].
  - exact (im_name _ _ _ _ _ Hf).
  - exact (im_only _ _ _ _ _ Hf).
  - exists n', d. cbn [renode nodes]. rewrite lookup_insert_eq. split_and!; congruence.
Qed.

Lemma imaged_other t T dev perm f c n n' tm : imaged t T dev perm f -> nodes f0 !! c = None -> c <> t -> nodes f !! c = Some n -> i_kind n <> KDir ->
  imaged t T dev perm (renode c n' tm f).
Proof.
  intros Hf Hc Hct Hn Hk. constructor.
  - apply (staged_renode f c n n'); [by eapply im_staged|done|done|done].
  - exact (im_name _ _ _ _ _ Hf).
  - exact (im_only _ _ _ _ _ Hf).
  - destruct (im_file _ _ _ _ _ Hf) as (m & d & Hm & ?). exists m, d. cbn [renode nodes]. by rewrite lookup_insert_ne.
Qed.

(** A file without a name. *)
Lemma imaged_anonymous t T dev perm f n tm : imaged t T dev perm f ->
  imaged t T dev perm (FS (names f) (<[fresh f := n]> (nodes f)) (fresh f + 1) tm) /\ nodes f0 !! fresh f = None /\ fresh f <> t.
Proof.
  intros Hf. pose proof (im_staged _ _ _ _ _ Hf) as Hs. assert (fresh f <> t) as Hne.
  { destruct (im_file _ _ _ _ _ Hf) as (m & d & Hm & _). apply (bs_fresh f (sg_based f Hs)) in Hm. lia. }
  split; [|split; [by apply (fresh_new f)|done]]. constructor.
  - destruct Hs as [He Hb Hn Ho (m & Hm & Hd) Hnew]. constructor; cbn [names nodes fresh]; try done.
    + constructor; cbn [names nodes]; [apply He|]. intros i x Hi. rewrite lookup_insert_ne; [by apply (ex_nodes _ _ He)|].
      intros <-. apply (ex_nodes _ _ He), (bs_fresh f Hb) in Hi. lia.
    + constructor.
      * intros i x. cbn. intros [[<- _]|[_ Hi]]%lookup_insert_Some; [lia|]. apply (bs_fresh f Hb) in Hi. lia.
      * cbn [names nodes]. intros k i Hk. destruct (bs_node f Hb k i Hk) as [x Hx]. exists x. rewrite lookup_insert_ne; [done|].
        intros <-. apply (bs_fresh f Hb) in Hx. lia.
    + exists m. rewrite lookup_insert_ne; [done|]. intros <-. apply (bs_fresh f Hb) in Hm. lia.
  - exact (im_name _ _ _ _ _ Hf).
  - exact (im_only _ _ _ _ _ Hf).
  - destruct (im_file _ _ _ _ _ Hf) as (m & d & Hm & ?). exists m, d. cbn [nodes]. by rewrite lookup_insert_ne.
Qed.

Lemma mkstemp_triple cands :
  triple staged (Publish.mkstemp od (str "." ++ on ++ str ".") cands)
    (fun r f => exists c dev perm, r.2 = od ++ [c] /\ Publish.temp_name on c /\ plain_name c = true /\ nodes f0 !! r.1 = None /\ imaged r.1 r.2 dev perm f) staged.
Proof.
  induction cands as [|c cands IH]; [by apply triple_raise|]. cbn [Publish.mkstemp].
  eapply (triple_catch _ _ _ _ staged); [|intros e; case_bool_decide; [apply IH|by apply triple_reraise]].
  set (x := (str "." ++ on ++ str ".") ++ c).
  assert (plain_name x = true) as Hx.
  { apply (Publish.long_plain x). unfold x. rewrite !length_app. apply plain_app in Hop as [_ Hon]. apply Forall_cons_iff in Hon as [Hon _].
    destruct on; [done|]. simpl. lia. }
  eapply triple_bind; [|intros fd; apply triple_ret; intros f Hf; exact Hf].
  apply (triple_syscall Hquiet); [done|]. intros f fd f' Hf Hr. simpl.
  assert (locate f (od ++ [x]) = Ok (od ++ [x])) as Hl.
  { apply locate_child; [|by eapply extends_real; [apply (sg_ext f Hf)|]]. apply plain_app in Hop as [? _]. apply plain_app. split; [done|by constructor]. }
  destruct (node_at f (od ++ [x])) as [[]|] eqn:Hn; [unfold fs_create in Hr; by rewrite Hl, Hn in Hr|].
  destruct (create_added me (KFile []) 0x180 f _ _ Hl Hn) as (n & Hk & Hc). rewrite Hc in Hr. injection Hr as <- <-.
  exists x, (i_dev n), (i_perm n). split_and!; [done| |done|by apply (fresh_new f)|].
  - unfold Publish.temp_name, x. apply startswith_prefix. by eexists.
  - constructor.
    + by apply staged_added.
    + unfold added. cbn [names]. apply lookup_insert_eq.
    + unfold added. cbn [names]. intros k [[<- _]|[_ Hk']]%lookup_insert_Some; [done|]. exfalso. by apply (based_free f (sg_based f Hf) k).
    + exists n, []. unfold added. cbn [nodes]. by rewrite lookup_insert_eq.
Qed.

(** *** Filling the image *)

Definition content (t : Z) (data : bytes) (f : fs) : Prop := exists n, nodes f !! t = Some n /\ i_kind n = KFile data.

(** What [inspect_ext4] has seen. *)
Definition inspected (data : bytes) : Prop :=
  let superblock := slice 1024 2048 data in
  zlen data = size a /\ zlen superblock = 1024 /\ le_int (slice 0x38 0x3A superblock) = 0xEF53 /\ observed_uuid superblock = uuid a /\
  le_int (slice 0 4 superblock) = inodes a /\ Z.testbit (le_int (slice 0x3A 0x3C superblock)) 0 = true.

Lemma checks_inspected data : zlen data = size a -> superblock_checks (slice 1024 2048 data) (uuid a) (inodes a) = Ok tt -> inspected data.
Proof.
  intros Hs Hc. unfold superblock_checks in Hc. inv_ok. unfold inspected. bool_prop. split_and!; try done; [by apply str_eqb_eq|].
  rewrite Z.bit0_odd. change 1 with (Z.ones 1) in Hc. rewrite Z.land_ones, Zmod_odd in Hc by done. by destruct (Z.odd _).
Qed.

Lemma pread_slice f fd n d : nodes f !! fd = Some n -> i_kind n = KFile d -> fs_pread f fd 1024 1024 = Ok (slice 1024 2048 d).
Proof.
  intros Hn Hk. unfold fs_pread, fs_read, slice. rewrite Hn, Hk. cbn [mbind]. f_equal. unfold zlen. change (2048 - 1024) with 1024.
  destruct (Z.le_gt_cases (Z.of_nat (length d)) 1024).
  - rewrite !drop_ge by lia. by rewrite !take_nil.
  - rewrite (Z.min_l 1024 (Z.of_nat (length d))) by lia. destruct (Z.le_gt_cases (Z.of_nat (length d) - 1024) 1024).
    + rewrite Z.min_r by lia. rewrite !take_ge; [done|rewrite length_drop; lia|rewrite length_drop; lia].
    + by rewrite Z.min_l by lia.
Qed.

Lemma obs_inspect_ext4 f t n d : nodes f !! t = Some n -> i_kind n = KFile d ->
  observes f (inspect_ext4 st_blocks t (uuid a) (size a) (inodes a)) (fun _ => inspected d).
Proof.
  intros Hn Hk. eapply obs_bind; [by apply obs_query|]. intros [info blocks] Hi. cbv beta in Hi. unfold fs_held_stat, held_node in Hi. rewrite Hn in Hi.
  injection Hi as <- _. eapply obs_bind; [by apply obs_raise_if|]. intros u Hc. cbv beta in Hc. apply orb_false_iff in Hc as [Hc _].
  apply orb_false_iff in Hc as [_ Hs]. apply negb_false_iff, Z.eqb_eq in Hs. cbn [fst snd] in Hs. unfold stat_of in Hs. rewrite Hk in Hs. cbn [st_size size_of] in Hs.
  eapply obs_bind; [by apply obs_query|]. intros stream Hst. cbv beta in Hst. unfold fs_held_open, held_node in Hst. rewrite Hn in Hst. injection Hst as <-.
  eapply obs_bind; [apply obs_finally; [by apply obs_query|by eapply obs_any, obs_query]|]. intros superblock Hsb. cbv beta in Hsb. cbn [fst] in Hsb.
  rewrite (pread_slice f t n d Hn Hk) in Hsb. injection Hsb as <-. eapply obs_conseq; [apply obs_lift|]. intros [] Hck. by apply checks_inspected.
Qed.

Lemma obs_digest f t n d : nodes f !! t = Some n -> i_kind n = KFile d -> observes f (digest t) (fun x => x = sha256 d).
Proof.
  intros Hn Hk. eapply obs_bind; [by apply obs_query|]. intros stream Hst. cbv beta in Hst. unfold fs_held_open, held_node in Hst. rewrite Hn in Hst.
  injection Hst as <-. apply obs_finally; [|by eapply obs_any, obs_query].
  eapply obs_bind; [by eapply (MaterializeSafe.obs_pread_loop Hquiet)|]. intros data ->. by apply obs_ret.
Qed.

Lemma count_keeps I fd top : keeps I (imported_inode_count fd top).
Proof.
  unfold imported_inode_count, os_walk, walk_turn, scandir_or_skip, sort_entry, entry_is_dir, enter, held_islink, count_body, count_inode, or_false, held_stat.
  keeps_tac.
Qed.

Section fill.
Context (t : Z) (c : pystr) (dev : Z) (Ht : nodes f0 !! t = None).
Abbreviation I := (imaged t (od ++ [c]) dev 0x180).

Lemma run_text_keeps env command : (forall f, I f -> confined S (Some t) f (spawn env command f).2) -> keeps I (run_text spawn env command).
Proof.
  intros Hc. apply keeps_bind.
  - apply (keeps_syscall _ Hquiet). intros f x f' Hf [= Heq]. specialize (Hc f Hf). rewrite Heq in Hc. by eapply imaged_confined.
  - intros x. keeps_tac.
Qed.

Lemma ctimes_keeps count : keeps I (normalize_imported_ctimes spawn (Publish.parent_of (output a)) t count (debugfs a)).
Proof.
  unfold normalize_imported_ctimes.
  eapply (triple_bind _ _ (fun commands f => I f /\ nodes f0 !! commands = None /\ commands <> t /\ exists n d, nodes f !! commands = Some n /\ i_kind n = KFile d)).
  - apply (triple_syscall Hquiet); [done|]. intros f commands f' Hf Hr. unfold fs_tmpfile in Hr. inv_ok.
    destruct (node_at f a0) as [[j m]|]; [|done]. destruct (i_kind m); try done. injection Hr as <- <-. set (n := Inode _ _ _ _ _ _ _ _ _).
    destruct (imaged_anonymous t (od ++ [c]) dev 0x180 f n (now f + 1) Hf) as (Hi & Hn & Hne). split_and!; [exact Hi|done|done|].
    exists n, []. unfold tick. cbn [nodes]. by rewrite lookup_insert_eq.
  - intros commands. apply triple_pre. intros f (Hf & Hc0 & Hct & n & d & Hn & Hk).
    apply (triple_finally _ _ _ (fun _ => I) _ I); [|intros u; by apply (triple_query Hquiet)|by apply (triple_query Hquiet)].
    eapply (triple_bind _ _ (fun _ => I)).
    + apply (triple_change Hquiet); [by intros g ->|]. intros g g' -> Hw. unfold fs_write in Hw. rewrite Hn, Hk in Hw. injection Hw as <-.
      set (n' := Inode _ _ _ _ _ _ _ _ _). apply (imaged_other t (od ++ [c]) dev 0x180 f commands n n' (now f + 1)); try done. by rewrite Hk.
    + intros u. apply keeps_bind; [by apply (keeps_query _ Hquiet)|]. intros u2. apply keeps_bind; [|intros [[status out] err]; keeps_tac].
      apply run_text_keeps. intros g _. apply (t_debugfs _ _ Htools).
Qed.

Lemma fill_triple : triple I (fill_image spawn st_blocks a s t)
  (fun digests f => I f /\ exists data, content t data f /\ inspected data /\ digests.1 = sha256 data) I.
Proof.
  unfold fill_image. eapply (triple_bind _ _ (fun _ => I)).
  { apply (triple_change Hquiet); [done|]. intros f f' Hf Hr. unfold fs_fallocate in Hr. destruct (im_file _ _ _ _ _ Hf) as (n & d & Hn & Hk & _ & Hp).
    rewrite Hn, Hk in Hr. injection Hr as <-. set (n' := Inode _ _ _ _ _ _ _ _ _).
    by apply (imaged_renode t (od ++ [c]) dev 0x180 0x180 f n n' (d ++ repeat x00 (Z.to_nat (size a - zlen d))) (now f + 1)). }
  intros u1. eapply (triple_bind _ _ (fun _ => I)); [by apply (triple_query Hquiet)|]. intros u2.
  eapply (triple_bind _ _ (fun _ => I)).
  { apply run_text_keeps. intros f Hf. apply (t_mke2fs _ _ Htools), staged_location, (im_staged _ _ _ _ _ Hf). }
  intros result. eapply (triple_bind _ _ (fun _ => I)); [by apply triple_lift|]. intros u3.
  eapply (triple_bind _ _ (fun _ => I)); [apply count_keeps|]. intros count.
  eapply (triple_bind _ _ (fun _ => I)); [apply ctimes_keeps|]. intros u4.
  apply triple_pre. intros f Hf. destruct (im_file _ _ _ _ _ Hf) as (n & d & Hn & Hk & _).
  assert (forall g, g = f -> I g) as Hsame by (by intros g ->).
  eapply triple_bind; [eapply triple_conseq; [by apply (obs_inspect_ext4 f t n d)|done|intros x g Hg; exact Hg|done]|]. intros u5. apply triple_pre. intros g [-> Hins].
  eapply (triple_bind _ _ (fun _ g => g = f)).
  { apply (triple_syscall Hquiet); [done|]. intros g x g' -> [= Heq]. pose proof (t_e2fsck _ _ Htools t f) as He. by rewrite Heq in He. }
  intros check. eapply (triple_bind _ _ (fun _ g => g = f)); [by apply triple_lift|]. intros u6.
  eapply triple_bind; [eapply triple_conseq; [by apply (obs_digest f t n d)|done|intros x g Hg; exact Hg|done]|]. intros x.
  apply triple_ret. intros g [-> ->]. split; [done|]. exists d. split_and!; [by exists n|done|done].
Qed.
End fill.
End image.
End staged.
End build.
End StorageSafe.
