(* ===== verification/StorageBuild.v ===== *)
(** * Building storage: the image is published, the staging directory goes

    From a filled image to the published pair, and the clean-up of whatever a failing
    call left behind. *)
From Stdlib Require Import ZArith Lia.
From Stdlib Require Import Init.Byte.
From stdpp Require Import base list sets strings option gmap.
From S2P Require Import Prelude PyStr PyVal Bytes Json Sys Held FsRules Publish PublishPair Keeps Steps Rootfs RootfsScan RootfsScanSafe RootfsMain WriteFile.
From S2P Require Import BindPlan Materialize MaterializeSafe Storage StorageSafe.

Open Scope string_scope.
Open Scope list_scope.
Open Scope Z_scope.

Module StorageBuild.
Import BuildRootfs PublishPair Keeps Steps RootfsScanSafe RootfsMain WriteFile.
Export StorageSafe.

(** A regular file that is not of [f0]. *)
Definition fresh_file (f0 : fs) (i : Z) (f : fs) : Prop := nodes f0 !! i = None /\ exists n d, nodes f !! i = Some n /\ i_kind n = KFile d.

Lemma fresh_file_like f0 i n d f : nodes f0 !! i = None -> i_kind n = KFile d -> node_like i n f -> fresh_file f0 i f.
Proof. intros Hi Hk (n' & Hn & Hs). split; [done|]. exists n', d. split; [done|]. destruct Hs as [-> _]. done. Qed.

(** A program that keeps the content of every file keeps fresh files. *)
Lemma keeps_fresh_file {A} f0 i (m : M A) : (forall n, keeps (node_like i n) m) -> keeps (fresh_file f0 i) m.
Proof.
  intros Hm. apply triple_pre. intros f (Hi & n & d & Hn & Hk).
  eapply triple_conseq; [apply (Hm n)|intros g ->; exists n; by split|intros a g Hg; by eapply fresh_file_like|intros g Hg; by eapply fresh_file_like].
Qed.

Section publication.
Context `{machine} (Hquiet : quiet).
Context (f0 : fs) (Hb0 : based f0) (Hwf0 : fs_wf f0).
Context (od : path) (on : pystr) (Hop : plain_path (od ++ [on])) (Hor : real_dir f0 od).
Context (S : path) (s : Z) (Sfree : names f0 !! S = None) (sfree : nodes f0 !! s = None).

(** The image under its name, complete. *)
Definition placed (t : Z) (data : bytes) (f : fs) : Prop :=
  staged f0 S s f /\ names f !! (od ++ [on]) = Some t /\ exists n, nodes f !! t = Some n /\ i_kind n = KFile data /\ i_perm n = 0x180.

(** Names of one new node may be added. *)
Lemma staged_names f g t : staged f0 S s f -> extends f0 g -> based g -> names g !! S = Some s -> nodes g !! s = nodes f !! s ->
  nodes f0 !! t = None -> t <> s -> (forall k i, names g !! k = Some i -> i = t \/ names f !! k = Some i) -> staged f0 S s g.
Proof.
  intros Hs He Hb Hn Hi Ht Hts Hold. constructor; [done|done|done| | |].
  - intros k Hk. destruct (Hold k s Hk) as [->|Hk']; [done|by apply (sg_only _ _ _ _ Hs)].
  - rewrite Hi. apply (sg_dir _ _ _ _ Hs).
  - intros k i Hk Hp. destruct (Hold k i Hk) as [->|Hk']; [done|by apply (sg_new _ _ _ _ Hs k)].
Qed.

Section image.
Context (t : Z) (c : pystr) (dev : Z) (Ht : nodes f0 !! t = None) (Hc : Publish.temp_name on c) (Hcp : plain_name c = true).
Context (f : fs) (data : bytes) (Hf : imaged f0 S s t (od ++ [c]) dev 0x180 f) (Hd : content t data f).

(** The state without the image. *)
Definition without : fs := FS (delete (od ++ [c]) (names f)) (delete t (nodes f)) t (now f).

Lemma without_extends : extends f0 without.
Proof.
  pose proof (im_staged _ _ _ _ _ _ _ _ Hf) as Hs. constructor; cbn [without names nodes].
  - intros k i Hk. rewrite lookup_delete_ne; [by apply (ex_names _ _ (sg_ext _ _ _ _ Hs))|]. intros <-.
    pose proof (ex_names _ _ (sg_ext _ _ _ _ Hs) _ _ Hk) as Hk'. rewrite (im_name _ _ _ _ _ _ _ _ Hf) in Hk'. injection Hk' as <-.
    destruct (bs_node f0 Hb0 _ _ Hk) as [n Hn]. congruence.
  - intros i n Hn. rewrite lookup_delete_ne by congruence. by apply (ex_nodes _ _ (sg_ext _ _ _ _ Hs)).
Qed.

Lemma kept_staged g : Publish.kept without od on g -> based g -> staged f0 S s g.
Proof.
  intros Hk Hb. pose proof (im_staged _ _ _ _ _ _ _ _ Hf) as Hs. pose proof (image_not_s _ _ _ _ _ _ _ _ Hf) as Hts.
  assert (od ++ [c] <> S) as HTS.
  { intros Heq. pose proof (im_name _ _ _ _ _ _ _ _ Hf) as Hn. rewrite Heq, (sg_name _ _ _ _ Hs) in Hn. congruence. }
  apply (staged_names f g t); try done.
  - constructor.
    + intros k i Hi. by apply (Publish.kept_names _ _ _ _ Hk), (ex_names _ _ without_extends).
    + intros i n Hi. rewrite (Publish.kept_nodes _ _ _ _ Hk); [by apply (ex_nodes _ _ without_extends)|]. cbn [without fresh]. congruence.
  - apply (Publish.kept_names _ _ _ _ Hk). cbn [without names]. rewrite lookup_delete_ne by done. apply (sg_name _ _ _ _ Hs).
  - rewrite (Publish.kept_nodes _ _ _ _ Hk) by (cbn [without fresh]; congruence). cbn [without nodes]. by rewrite lookup_delete_ne.
  - intros k i Hi. destruct (names without !! k) as [j|] eqn:Hj.
    + rewrite (Publish.kept_names _ _ _ _ Hk _ _ Hj) in Hi. injection Hi as <-. cbn [without names] in Hj. apply lookup_delete_Some in Hj as [_ Hj]. auto.
    + destruct (Publish.kept_new _ _ _ _ Hk _ _ Hi Hj) as [-> _]. by left.
Qed.

Lemma image_ready : Publish.ready without od on data f.
Proof.
  pose proof (im_staged _ _ _ _ _ _ _ _ Hf) as Hs. destruct (im_file _ _ _ _ _ _ _ _ Hf) as (n & d & Hn & Hk & _ & Hp).
  destruct Hd as (n' & Hn' & Hk'). rewrite Hn in Hn'. injection Hn' as <-. apply plain_app in Hop as [Hod Hon]. apply Forall_cons_iff in Hon as [Hon _].
  pose proof (Publish.temp_own od on Hon c Hc) as Hown. split; [split|].
  - constructor; cbn [without names nodes fresh].
    + by intros k i [_ Hi]%lookup_delete_Some.
    + intros k i Hi Hno. apply lookup_delete_None in Hno as [<-|Hno]; [|congruence].
      rewrite (im_name _ _ _ _ _ _ _ _ Hf) in Hi. injection Hi as <-. split; [done|by right].
    + intros i Hi. by rewrite lookup_delete_ne.
    + by exists n, d.
    + by apply (bs_fresh f (sg_based _ _ _ _ Hs)) in Hn.
  - cbn [without names]. rewrite lookup_delete_ne; [done|]. by apply (Publish.own_not_dest od on).
  - by exists n.
Qed.

Lemma image_published : triple (fun g => g = f) (Publish.publish_existing (od ++ [c]) (od ++ [on]) (dev, t))
  (fun i g => i = (dev, t) /\ placed t data g) (fun g => staged f0 S s g /\ fresh_file f0 t g).
Proof.
  pose proof (im_staged _ _ _ _ _ _ _ _ Hf) as Hs. pose proof (im_only _ _ _ _ _ _ _ _ Hf) as Honly.
  pose proof Hop as [Hod [Hon _]%Forall_cons_iff]%plain_app.
  eapply triple_conseq.
  - apply triple_and; [apply (Publish.publish_existing_safe Hquiet without od on data Hod Hon) with (dev := dev) (c := c); try done|by apply based_publish].
    + by apply (extends_real f0), Hor; apply without_extends.
    + cbn [without names fresh]. intros k [Hk Hi]%lookup_delete_Some. by apply Hk, eq_sym, Honly.
    + cbn [without names nodes]. intros k i [Hk Hi]%lookup_delete_Some. rewrite lookup_delete_ne; [by apply (bs_node f (sg_based _ _ _ _ Hs) k)|].
      intros <-. by apply Hk, eq_sym, Honly.
  - intros g ->. split; [apply image_ready|apply (sg_based _ _ _ _ Hs)].
  - intros i g [[-> [[Hk Hco] Hn]] Hb]. split; [done|]. split_and!; [by apply kept_staged|done|done].
  - intros g [[Hk _] Hb]. split; [by apply kept_staged|]. split; [done|]. apply (Publish.kept_file _ _ _ _ Hk).
Qed.
End image.

(** *** The record, and the staging directory removed *)

Context (md : path) (mn : pystr) (Hmp : plain_path (md ++ [mn])) (Hmr : real_dir f0 md).

Definition json_line (record : pyval) : bytes := ascii_bytes (dumps no_floats compact record ++ [10]).

(** The image and the record under their names. *)
Definition paired (t m : Z) (data encoded : bytes) (f : fs) : Prop :=
  staged f0 S s f /\ fresh_file f0 t f /\ fresh_file f0 m f /\ names f !! (od ++ [on]) = Some t /\ names f !! (md ++ [mn]) = Some m /\
  published f (od ++ [on]) data /\ published f (md ++ [mn]) encoded.

Lemma metadata_triple f1 t data cands record : nodes f0 !! t = None -> placed t data f1 ->
  triple (fun f => f = f1) (atomic_json cands (md ++ [mn]) record)
    (fun i f => paired t i.2 data (json_line record) f) (fun f => extends f0 f /\ fresh_file f0 t f).
Proof.
  intros Ht (Hs & Hn & n & Hi & Hk & Hp). pose proof (sg_based _ _ _ _ Hs) as Hb.
  assert (real_dir f1 md) as Hr by (eapply extends_real; [apply (sg_ext _ _ _ _ Hs)|done]).
  assert (forall f, extends f1 f -> extends f0 f /\ fresh_file f0 t f) as Hext.
  { intros f He. split; [etrans; [apply (sg_ext _ _ _ _ Hs)|done]|]. split; [done|]. exists n, data. split; [by apply (ex_nodes _ _ He)|done]. }
  pose proof (chunks_by Hquiet f1 md mn [json_line record]) as Hch. simpl concat in Hch. rewrite app_nil_r in Hch.
  eapply triple_conseq; [by apply (publish_triple Hquiet f1 md mn (json_line record))|done|..].
  - intros i f (Hi2 & Hkept & Hco & Hnm). rewrite Hi2. pose proof (kept_extends f1 Hb md mn f Hkept) as He. destruct (Hext f He) as [He0 Hft].
    split_and!; [|done| |by apply (ex_names _ _ He)|done| |by eapply complete_published].
    + assert (fresh f1 <> s) as Hfs by (by eapply fresh_not_s). apply (staged_names f1 f (fresh f1)); try done.
      * by eapply kept_based.
      * apply (ex_names _ _ He), (sg_name _ _ _ _ Hs).
      * by rewrite (Publish.kept_nodes _ _ _ _ Hkept).
      * by eapply fresh_new.
      * intros k j Hj. destruct (names f1 !! k) as [j'|] eqn:Hj'.
        -- rewrite (ex_names _ _ He _ _ Hj') in Hj. auto.
        -- left. by apply (Publish.kept_new _ _ _ _ Hkept k).
    + split; [by eapply fresh_new|]. destruct Hco as (m & Hm & Hkm & _). by exists m, (json_line record).
    + eapply extends_published; [exact He|]. exists t, n. unfold node_at. by rewrite Hn, Hi.
  - intros f [->|Hkept]; apply Hext; [done|by eapply kept_extends].
Qed.

(** What existed, with the pair. *)
Section pair.
Context (f2 : fs) (t m : Z) (nt nm : inode) (Hs : staged f0 S s f2) (Ht : nodes f0 !! t = None) (Hm : nodes f0 !! m = None).
Context (Hno : names f2 !! (od ++ [on]) = Some t) (Hnm : names f2 !! (md ++ [mn]) = Some m) (Hnt : nodes f2 !! t = Some nt) (Hnnm : nodes f2 !! m = Some nm).

Definition pair_base : fs :=
  FS (<[od ++ [on] := t]> (<[md ++ [mn] := m]> (names f0))) (<[t := nt]> (<[m := nm]> (nodes f0))) (fresh f2) (now f2).

Lemma new_name k i : nodes f0 !! i = None -> names f2 !! k = Some i -> names f0 !! k = None.
Proof.
  intros Hi Hk. destruct (names f0 !! k) as [j|] eqn:Hj; [|done]. rewrite (ex_names _ _ (sg_ext _ _ _ _ Hs) _ _ Hj) in Hk. injection Hk as ->.
  destruct (bs_node f0 Hb0 _ _ Hj). congruence.
Qed.

Lemma pair_old : extends f0 pair_base.
Proof.
  constructor; cbn [pair_base names nodes].
  - intros k i Hk. rewrite !lookup_insert_ne; [done|..]; intros <-; [rewrite (new_name _ _ Hm Hnm) in Hk|rewrite (new_name _ _ Ht Hno) in Hk]; done.
  - intros i n Hi. by rewrite !lookup_insert_ne by congruence.
Qed.

Lemma pair_now : extends pair_base f2.
Proof.
  pose proof (sg_ext _ _ _ _ Hs) as He. constructor; cbn [pair_base names nodes].
  - by intros k i [[<- <-]|[_ [[<- <-]|[_ Hk]]%lookup_insert_Some]]%lookup_insert_Some; [..|by apply (ex_names _ _ He)].
  - by intros i n [[<- <-]|[_ [[<- <-]|[_ Hk]]%lookup_insert_Some]]%lookup_insert_Some; [..|by apply (ex_nodes _ _ He)].
Qed.

Lemma pair_based : based pair_base.
Proof.
  constructor.
  - intros i n Hi. by apply (ex_nodes _ _ pair_now), (bs_fresh f2 (sg_based _ _ _ _ Hs)) in Hi.
  - cbn [pair_base names nodes]. intros k i Hk. rewrite !lookup_insert_is_Some'. apply lookup_insert_Some in Hk as [[_ <-]|[_ Hk]]; [by left|].
    apply lookup_insert_Some in Hk as [[_ <-]|[_ Hk]]; [right; by left|]. right; right. by apply (bs_node f0 Hb0 k).
Qed.

Lemma pair_closed : closed pair_base.
Proof.
  assert (forall d, real_dir f0 d -> is_Some (names f0 !! d)) as Hdir.
  { intros d Hd. assert (is_dir_at f0 d = true) as Hdd by (apply Hd; by exists []; rewrite app_nil_r).
    destruct (dir_named f0 d Hdd) as [i Hi]. by exists i. }
  intros k y i. cbn [pair_base names]. rewrite !lookup_insert_is_Some'. intros [[Heq _]|[_ [[Heq _]|[_ Hk]]%lookup_insert_Some]]%lookup_insert_Some.
  - apply app_inj_tail in Heq as [<- _]. right; right. by apply Hdir.
  - apply app_inj_tail in Heq as [<- _]. right; right. by apply Hdir.
  - right; right. by apply (wf_closed f0 Hwf0 k y i).
Qed.

Lemma pair_staging dt dm : i_kind nt = KFile dt -> i_kind nm = KFile dm -> names pair_base !! S = None.
Proof.
  intros Hkt Hkm. cbn [pair_base names]. destruct (sg_dir _ _ _ _ Hs) as (n & Hn & Hkd). pose proof (sg_name _ _ _ _ Hs) as HnS.
  rewrite !lookup_insert_ne; [done|..]; intros Heq; rewrite <-Heq in HnS; congruence.
Qed.

(** The pair, wherever this is kept. *)
Lemma pair_there f : extends pair_base f -> node_at f (od ++ [on]) = Some (t, nt) /\ node_at f (md ++ [mn]) = Some (m, nm).
Proof.
  intros Hf. assert (nodes f !! t = Some nt /\ nodes f !! m = Some nm) as [Hft Hfm].
  { split; apply (ex_nodes _ _ Hf); cbn [pair_base nodes]; [apply lookup_insert_eq|].
    destruct (decide (t = m)) as [<-|]; [rewrite lookup_insert_eq; congruence|by rewrite lookup_insert_ne, lookup_insert_eq]. }
  unfold node_at. split.
  - rewrite (ex_names _ _ Hf (od ++ [on]) t) by apply lookup_insert_eq. by rewrite Hft.
  - rewrite (ex_names _ _ Hf (md ++ [mn]) m); [by rewrite Hfm|]. cbn [pair_base names].
    destruct (decide (od ++ [on] = md ++ [mn])) as [Heq|]; [rewrite Heq, lookup_insert_eq; rewrite Heq in Hno; congruence|].
    by rewrite lookup_insert_ne, lookup_insert_eq.
Qed.
End pair.

Lemma remove_staging x e f2 t m data encoded : S = od ++ [x] -> plain_name x = true -> paired t m data encoded f2 ->
  triple (fun f => f = f2) (Publish.remove_directory_if_identity S e)
    (fun _ f => (extends f0 f /\ fresh_file f0 t f /\ fresh_file f0 m f) /\ published f (od ++ [on]) data /\ published f (md ++ [mn]) encoded)
    (fun f => extends f0 f /\ fresh_file f0 t f /\ fresh_file f0 m f).
Proof.
  intros HSx Hx (Hs & [Ht _] & [Hm _] & Hno & Hnm & (t' & nt & Hat & Hkt & Hpt) & (m' & nm & Ham & Hkm & Hpm)).
  apply node_at_nodes in Hat as [Hat Hnt], Ham as [Ham Hnnm]. assert (t' = t) as -> by congruence. assert (m' = m) as -> by congruence.
  set (g := pair_base f2 t m nt nm). assert (extends f0 g) as He0 by (by apply pair_old).
  assert (forall f, extends g f -> (extends f0 f /\ fresh_file f0 t f /\ fresh_file f0 m f) /\ published f (od ++ [on]) data /\ published f (md ++ [mn]) encoded) as Hgf.
  { intros f Hf. assert (node_at f (od ++ [on]) = Some (t, nt) /\ node_at f (md ++ [mn]) = Some (m, nm)) as [Hfo Hfm] by (by apply (pair_there f2)).
    pose proof (node_at_nodes _ _ _ _ Hfo) as [_ ?]. pose proof (node_at_nodes _ _ _ _ Hfm) as [_ ?].
    split; [split_and!; [by etrans|split; eauto..]|]. split; [by exists t, nt|by exists m, nm]. }
  rewrite HSx. eapply triple_conseq; [apply (remove_new_directory g) with (dir := od) (c := x)|..].
  - by apply pair_closed.
  - by apply pair_based.
  - done.
  - apply plain_app in Hop as [? _]. apply plain_app. split; [done|by constructor].
  - by eapply extends_real.
  - rewrite <-HSx. by eapply pair_staging.
  - intros f ->. by apply pair_now.
  - intros u f Hf. by apply Hgf.
  - intros f Hf. by apply Hgf.
Qed.
End publication.

(** ** Cleaning up *)

Section clean_up.
Context `{machine} (Hquiet : quiet).
Context (f0 : fs) (Hb0 : based f0) (Hwf0 : fs_wf f0) (a : arguments).
Context (od : path) (on : pystr) (Hout : output a = od ++ [on]) (Hop : plain_path (od ++ [on])) (Hor : real_dir f0 od).
Context (md : path) (mn : pystr) (Hmeta : metadata a = md ++ [mn]) (Hmp : plain_path (md ++ [mn])) (Hmr : real_dir f0 md).

(** What the variables say is of files that were not there before. *)
Record owned (v : vars) (f : fs) : Prop := {
  ow_ext : extends f0 f;
  ow_temporary : forall p i, v_temporary v = Some p -> v_identity v = Some i ->
    (exists x, p = od ++ [x] /\ plain_path (od ++ [x])) /\ fresh_file f0 i.2 f;
  ow_output : forall i, v_output v = Some i -> fresh_file f0 i.2 f;
  ow_metadata : forall i, v_metadata v = Some i -> fresh_file f0 i.2 f }.

Lemma owned_files v f g : owned v f -> extends f0 g -> (forall i, fresh_file f0 i f -> fresh_file f0 i g) -> owned v g.
Proof. intros [He Ht Ho Hm] Hg Hf. constructor; [done| | |]; [|auto..]. intros p i Hp Hi. destruct (Ht p i Hp Hi). auto. Qed.

(** A program that keeps the content of every file keeps this, where it leaves what
    existed. *)
Lemma triple_owned {A} v (P : fs -> Prop) (m : M A) : (forall f, P f -> owned v f) -> triple P m (fun _ => extends f0) (extends f0) ->
  (forall i n, keeps (node_like i n) m) -> triple P m (fun _ => owned v) (owned v).
Proof.
  intros HP Hm Hk w Hw. specialize (Hm w Hw). pose proof (HP _ Hw) as Ho.
  assert (forall i, fresh_file f0 i (w_fs w) -> fresh_file f0 i (w_fs (m w).2)) as Hf.
  { intros i Hi. pose proof (keeps_fresh_file f0 i m (Hk i) w Hi) as Hr. by destruct (m w) as [[r|e] w']. }
  destruct (m w) as [[r|e] w']; by apply (owned_files v (w_fs w)).
Qed.

Lemma keeps_owned {A} v (m : M A) : keeps (extends f0) m -> (forall i n, keeps (node_like i n) m) -> keeps (owned v) m.
Proof. intros Hm Hk. apply triple_owned; [done| |done]. eapply triple_conseq; [exact Hm|intros f Hf; apply (ow_ext _ _ Hf)|done|done]. Qed.

Lemma remove_owned v dir x i : plain_path (dir ++ [x]) -> real_dir f0 dir ->
  triple (fun f => owned v f /\ fresh_file f0 i.2 f) (Publish.remove_if_identity (dir ++ [x]) i) (fun _ => owned v) (owned v).
Proof.
  intros Hp Hr. apply triple_owned; [by intros f []| |by intros; apply like_remove]. apply triple_pre. intros f [Ho [Hi Hf]]. destruct i as [dev t].
  eapply triple_conseq; [apply (remove_new Hquiet f0 Hb0 dir x t Hp Hr Hi dev)| |by intros ? g []|by intros g []].
  intros g ->. split; [apply (ow_ext _ _ Ho)|done].
Qed.

Lemma when_keeps {A} I (o : option A) (m : A -> M unit) : (forall a, o = Some a -> keeps I (m a)) -> keeps I (when o m).
Proof. intros Hm. destruct o as [b|]; [by apply Hm|by apply triple_ret]. Qed.

Lemma remove_when v dir x o : plain_path (dir ++ [x]) -> real_dir f0 dir -> (forall i f, o = Some i -> owned v f -> fresh_file f0 i.2 f) ->
  keeps (owned v) (when o (fun i => Publish.remove_if_identity (dir ++ [x]) i ;;; mret tt)).
Proof.
  intros Hp Hr Ho. apply when_keeps. intros i ->. apply keeps_bind; [|intros ?; apply keeps_ret].
  eapply triple_conseq; [by apply (remove_owned v dir x i)|intros f Hf; split; [done|by apply Ho]|done|done].
Qed.

Lemma clean_up_triple x e v : plain_path (od ++ [x]) -> names f0 !! (od ++ [x]) = None ->
  triple (owned v) (clean_up a (od ++ [x]) e v) (fun _ => extends f0) (extends f0).
Proof.
  intros Hp Hfree. apply (triple_conseq _ (owned v) _ _ (fun _ => owned v) _ (owned v)); [|done|by intros ? f []|by intros f []].
  assert (keeps (owned v) (Publish.remove_directory_if_identity (od ++ [x]) e)) as Hrd.
  { apply keeps_owned; [|by intros; apply like_remove_directory]. apply remove_new_directory; try done. by apply wf_closed. }
  assert (forall fd, keeps (owned v) (close fd)) as Hcl by (intros fd; by apply keeps_query).
  unfold clean_up. rewrite Hout, Hmeta. apply keeps_bind; [|intros failure; apply keeps_bind].
  - destruct (v_staging_fd v); [|apply keeps_ret]. apply keeps_finally; [|apply Hcl]. apply keeps_catch; [|intros; apply keeps_ret].
    apply keeps_bind; [done|]. intros removed. keeps_tac.
  - destruct (v_completed v); [apply keeps_ret|]. apply keeps_bind; [by apply when_keeps|intros ?].
    apply keeps_bind; [|intros ?; apply keeps_bind; [|intros ?]].
    + apply when_keeps. intros p Hv. apply when_keeps. intros i Hi. apply keeps_bind; [|intros ?; apply keeps_ret].
      apply triple_pre. intros f Hf. destruct (ow_temporary _ _ Hf p i Hv Hi) as ((y & -> & Hy) & Hfi).
      eapply triple_conseq; [by apply (remove_owned v od y i)|by intros g ->|done|done].
    + apply remove_when; [done|done|]. intros i f Hi Hf. by apply (ow_output _ _ Hf).
    + apply remove_when; [done|done|]. intros i f Hi Hf. by apply (ow_metadata _ _ Hf).
  - intros ?. apply when_keeps. intros; apply keeps_reraise.
Qed.
End clean_up.

(** ** The [try] block *)

Section try_block.
Context `{machine} (Hquiet : quiet).
Context (spawn : list (pystr * pystr) -> list pystr -> fs -> completed_process * fs) (statvfs_at : fs -> path -> res statvfs)
  (st_blocks : fs -> Z -> Z) (a : arguments) (Htools : tools spawn a).
Context (f0 : fs) (Hb0 : based f0) (Hwf0 : fs_wf f0).
Context (od : path) (on : pystr) (Hout : output a = od ++ [on]) (Hop : plain_path (od ++ [on])) (Hor : real_dir f0 od).
Context (md : path) (mn : pystr) (Hmeta : metadata a = md ++ [mn]) (Hmp : plain_path (md ++ [mn])) (Hmr : real_dir f0 md).
Context (x : pystr) (s : Z) (Hx : plain_name x = true) (Sfree : names f0 !! (od ++ [x]) = None) (sfree : nodes f0 !! s = None).
Abbreviation S := (od ++ [x]).

(** What the block has published when it ends. *)
Definition stored (logical : pystr) (record : pyval) (f : fs) : Prop :=
  extends f0 f /\ exists data check, record = build_record a logical (sha256 data) check /\ inspected a data /\
    published f (output a) data /\ published f (metadata a) (json_line record).

(** The variables are about the image [t]. *)
Definition knows (t : Z) (v : vars) : Prop :=
  (forall p i, v_temporary v = Some p -> v_identity v = Some i -> (exists c, p = od ++ [c] /\ plain_path (od ++ [c])) /\ i.2 = t) /\
  (forall i, v_output v = Some i -> i.2 = t).

Lemma knows_owned t v f : knows t v -> extends f0 f -> fresh_file f0 t f -> (forall i, v_metadata v = Some i -> fresh_file f0 i.2 f) -> owned f0 od v f.
Proof.
  intros [Hi Ho] He Ht Hm. constructor; [done| |intros i Hvo; by rewrite (Ho i Hvo)|done]. intros p i Hp Hvi. destruct (Hi p i Hp Hvi) as [Hc ->]. done.
Qed.

Lemma image_owned t c dev perm v f : knows t v -> v_metadata v = None -> nodes f0 !! t = None -> imaged f0 S s t (od ++ [c]) dev perm f -> owned f0 od v f.
Proof.
  intros Hv Hm Ht Hf. apply (knows_owned t); [done|apply (sg_ext _ _ _ _ (im_staged _ _ _ _ _ _ _ _ Hf))| |by rewrite Hm].
  split; [done|]. destruct (im_file _ _ _ _ _ _ _ _ Hf) as (n & d & ? & ? & _). by exists n, d.
Qed.

Lemma fchmod_image t c dev perm : nodes f0 !! t = None ->
  triple (imaged f0 S s t (od ++ [c]) dev perm) (fchmod t 0x180) (fun _ => imaged f0 S s t (od ++ [c]) dev 0x180) (imaged f0 S s t (od ++ [c]) dev perm).
Proof.
  intros Ht. apply (triple_change Hquiet); [done|]. intros f f' Hf Hr. unfold fs_chmod in Hr.
  destruct (im_file _ _ _ _ _ _ _ _ Hf) as (n & d & Hn & Hk & _). rewrite Hn in Hr. injection Hr as <-.
  set (n' := Inode _ _ _ _ _ _ _ _ _). by apply (imaged_renode f0 S s sfree t (od ++ [c]) dev perm 0x180 f n n' d (now f + 1)).
Qed.

Lemma image_identity t c dev perm :
  triple (imaged f0 S s t (od ++ [c]) dev perm) (Publish.descriptor_identity t)
    (fun i f => i = (dev, t) /\ imaged f0 S s t (od ++ [c]) dev perm f) (imaged f0 S s t (od ++ [c]) dev perm).
Proof.
  eapply (triple_bind _ _ (fun v f => (st_dev v, st_ino v) = (dev, t) /\ imaged f0 S s t (od ++ [c]) dev perm f)); [|intros v; by apply triple_ret].
  apply (triple_query Hquiet); [done|]. intros f v Hf Hv. split; [|done]. unfold fs_fstat in Hv.
  destruct (im_file _ _ _ _ _ _ _ _ Hf) as (n & d & Hn & _ & <- & _). rewrite Hn in Hv. by injection Hv as <-.
Qed.

(** The record, and the end. *)
Lemma finish_steps v cands record e t data f1 : nodes f0 !! t = None -> knows t v -> v_metadata v = None -> placed f0 od on S s t data f1 ->
  stepping v (fun f => f = f1) (finish cands a record s S e)
    (fun r v' f => r = record /\ v_staging_fd v' = None /\ v_completed v' = true /\
       extends f0 f /\ published f (output a) data /\ published f (metadata a) (json_line record)) (owned f0 od).
Proof.
  intros Ht Hv Hm Hf1. unfold finish. rewrite Hmeta, Hout. eapply stepping_call.
  { eapply triple_conseq; [eapply (metadata_triple Hquiet f0 od on S s sfree md mn Hmp Hmr f1 t data (c_metadata cands) record); done|done|intros i f Hf; exact Hf|].
    intros f [He Hft]. apply (knows_owned t); [done|done|done|by rewrite Hm]. }
  intros i. apply stepping_assign, stepping_pre. intros f2 Hf2. eapply stepping_call.
  { eapply triple_conseq; [by eapply (remove_staging Hquiet f0 Hb0 Hwf0 od on Hop Hor S s Sfree sfree md mn Hmr x e f2)|done|intros r f Hf; exact Hf|].
    intros f (He & Hft & Hfm). apply (knows_owned t); [done|done|done|by intros j [= <-]]. }
  assert (forall f, (extends f0 f /\ fresh_file f0 t f /\ fresh_file f0 i.2 f) /\ published f (od ++ [on]) data /\ published f (md ++ [mn]) (json_line record) ->
    owned f0 od (set_metadata i v) f) as Hown.
  { intros f ((He & Hft & Hfm) & _). apply (knows_owned t); [done|done|done|by intros j [= <-]]. }
  intros removed. apply stepping_look; [apply keeps_raise_if|exact Hown|]. intros u.
  apply stepping_look; [by apply keeps_query|exact Hown|]. intros u2. apply stepping_assign.
  eapply (stepping_perform _ _ _ (fun r f => r = record /\ _)); [by apply triple_ret; intros f Hf; split; [|exact Hf]|].
  intros r f [-> [(He & _) [Ho Hme]]]. done.
Qed.

(** The image under its name. *)
Lemma publish_steps v t c dev data : nodes f0 !! t = None -> knows t v -> v_metadata v = None -> Publish.temp_name on c -> plain_name c = true ->
  stepping v (fun f => imaged f0 S s t (od ++ [c]) dev 0x180 f /\ content t data f) (publish_image a (t, od ++ [c]) (dev, t))
    (fun _ v' f => (knows t v' /\ v_metadata v' = None) /\ placed f0 od on S s t data f) (owned f0 od).
Proof.
  intros Ht Hv Hm Hc Hcp. set (P := fun f => imaged f0 S s t (od ++ [c]) dev 0x180 f /\ content t data f).
  assert (forall f, P f -> owned f0 od v f) as Hown by (intros f [Hf _]; by eapply image_owned).
  unfold publish_image. cbn [fst snd]. apply stepping_look; [by apply keeps_query|done|]. intros u.
  apply stepping_look; [unfold Publish.descriptor_identity, fstat; keeps_tac|done|]. intros i.
  apply (stepping_same _ _ _ _ (fun _ => P)).
  { destruct (negb _); [apply stepping_value|].
    apply stepping_look; [unfold Publish.file_identity, lstat; keeps_tac|done|]. intros j. apply stepping_value. }
  intros changed. apply stepping_look; [apply keeps_raise_if|done|]. intros u2. apply stepping_pre. intros f [Hf Hd].
  rewrite Hout. eapply stepping_call.
  { eapply triple_conseq; [apply (image_published Hquiet f0 Hb0 od on Hop Hor S s sfree t c dev Ht Hc Hcp f data Hf Hd)|done|intros j g Hg; exact Hg|].
    intros g [Hs Hft]. apply (knows_owned t); [done|apply (sg_ext _ _ _ _ Hs)|done|by rewrite Hm]. }
  intros published. apply stepping_assign, stepping_pre. intros g [-> Hg].
  assert (knows t (set_output (dev, t) v)) as Hv2 by (split; [apply Hv|by intros j [= <-]]).
  apply stepping_look; [by apply keeps_query| |].
  - intros h ->. destruct Hg as (Hs & _ & n & Hn & Hk & _). apply (knows_owned t); [done|apply (sg_ext _ _ _ _ Hs)| |by cbn; rewrite Hm].
    split; [done|]. by exists n, data.
  - intros u3. apply stepping_set. intros h ->. done.
Qed.

Lemma try_block_steps cands logical root_fd e :
  stepping (Vars (Some s) None None None None None false) (tidy f0 S s)
    (try_block spawn statvfs_at st_blocks cands a logical root_fd s S e)
    (fun record v f => v_staging_fd v = None /\ v_completed v = true /\ stored logical record f) (owned f0 od).
Proof.
  assert (Publish.parent_of (output a) = od /\ Publish.name_of (output a) = on) as [Hpar Hnam].
  { unfold Publish.parent_of, Publish.name_of. by rewrite Hout, removelast_last, last_last. }
  assert (S <> []) as HS by (by destruct od).
  assert (forall v f, v_temporary v = None \/ v_identity v = None -> v_output v = None -> v_metadata v = None -> staged f0 S s f -> owned f0 od v f) as Hown.
  { intros v f Ht Ho Hm Hf. constructor; [apply (sg_ext _ _ _ _ Hf)| |by rewrite Ho|by rewrite Hm]. intros p i Hp Hi. destruct Ht; congruence. }
  unfold try_block. apply (stepping_call _ _ _ _ (fun _ => staged f0 S s)).
  { eapply triple_conseq; [by eapply (stage_triple Hquiet)|done|done|]. intros f Hf. apply Hown; auto. }
  intros u1. rewrite Hpar, Hnam. eapply stepping_call.
  { eapply triple_conseq; [by eapply (mkstemp_triple Hquiet)|done|intros r f Hr; exact Hr|]. intros f Hf. apply Hown; auto. }
  intros [t T]. apply stepping_pre. intros f1 (c & dev & perm & HT & Hc & Hcp & Ht & Hf1). cbn [fst snd] in *. subst T.
  apply stepping_assign, stepping_assign. eapply stepping_call.
  { eapply triple_conseq; [by apply (fchmod_image t c dev perm)|by intros f ->|intros r f Hr; exact Hr|].
    intros f Hf. apply Hown; auto. apply (im_staged _ _ _ _ _ _ _ _ Hf). }
  intros u2. eapply stepping_call.
  { eapply triple_conseq; [by apply (image_identity t c dev 0x180)|done|intros r f Hr; exact Hr|].
    intros f Hf. apply Hown; auto. apply (im_staged _ _ _ _ _ _ _ _ Hf). }
  intros identity. apply stepping_pre. intros f2 [-> Hf2]. apply stepping_assign.
  match goal with |- stepping ?v _ _ _ _ => set (v1 := v) end.
  assert (knows t v1) as Hv1.
  { split; [|done]. intros p i [= <-] [= <-]. split; [|done]. exists c. split; [done|]. apply plain_app in Hop as [? _]. apply plain_app. split; [done|by constructor]. }
  eapply stepping_call.
  { eapply triple_conseq; [by eapply (fill_triple Hquiet f0 Hwf0 S s HS Sfree sfree spawn st_blocks a Htools od) with (c := c) (dev := dev); [apply removelast_last|]|by intros f ->|intros r f Hr; exact Hr|].
    intros f Hf. by eapply image_owned. }
  intros digests. apply stepping_pre. intros f3 (Hf3 & data & Hd & Hins & Hdig).
  eapply stepping_bind; [eapply triple_conseq; [by apply (publish_steps v1 t c dev data)|by intros f ->|intros r f Hr; exact Hr|done]|].
  intros u3 v2. apply stepping_pre. intros f4 [[Hv2 Hm2] Hf4].
  eapply triple_conseq; [by apply (finish_steps v2 cands (build_record a logical digests.1 digests.2) e t data f4)|done| |done].
  intros [v3 [r|ex]] f Hr; [|done]. destruct Hr as (-> & ? & ? & He & Ho & Hme). split_and!; [done|done|]. split; [done|].
  exists data, digests.2. rewrite <-Hdig. done.
Qed.
End try_block.
End StorageBuild.
