(* ===== verification/StorageMain.v ===== *)
(** * Building storage: the whole program

    What [build] of scripts/build-runtime-storage.py leaves behind, whichever system call
    or external program fails. *)
From Stdlib Require Import ZArith Lia.
From Stdlib Require Import Init.Byte.
From stdpp Require Import base list sets strings option gmap.
From S2P Require Import Prelude PyStr PyVal Bytes Json Sys Held FsRules Publish PublishPair Keeps Rootfs RootfsScan RootfsScanSafe RootfsMain WriteFile.
From S2P Require Import BindPlan Materialize MaterializeSafe Storage StorageSafe StorageBuild.

Open Scope string_scope.
Open Scope list_scope.
Open Scope Z_scope.

Module StorageMain.
Import BuildRootfs PublishPair Keeps RootfsScanSafe RootfsMain WriteFile.
Export StorageBuild.

(** What the checks of the arguments have established. *)
Definition accepted (a : arguments) (logical : pystr) : Prop :=
  pp_root (pure_path logical) <> [] /\ normpath logical = logical /\
  (forall given, logical_path a = Some given -> logical = as_posix (pure_path given)) /\
  fullmatch IDENTITY (image_id a) = true /\ fullmatch UUID (uuid a) = true /\
  2 ^ 26 <= size a <= 2 ^ 34 /\ size a mod 4096 = 0 /\ 128 <= inodes a <= 2 ^ 21 /\ 1024 <= port a < 2 ^ 16 /\
  0 <= min_free_bytes a <= 2 ^ 44 /\ 0 <= min_free_inodes a <= 2 ^ 30.

Section looking.
Context `{machine} (Hquiet : quiet) (f : fs).

(** A program that first looks. *)
Lemma triple_look {A B} (m : M A) (phi : A -> Prop) (k : A -> M B) Q (E : fs -> Prop) : E f -> observes f m phi ->
  (forall a, phi a -> triple (fun g => g = f) (k a) Q E) -> triple (fun g => g = f) (mbind m k) Q E.
Proof.
  intros HE Hm Hk. eapply triple_bind; [eapply triple_conseq; [exact Hm|done|intros a g Hg; exact Hg|by intros g ->]|].
  intros a. apply triple_pre. intros g [-> Ha]. by apply Hk.
Qed.

Lemma real_comps_keeps I strict follow p rest seen : (forall p t seen, keeps I (follow p t seen)) -> keeps I (real_comps strict follow p rest seen).
Proof.
  intros Hf. revert p seen; induction rest as [|name t IH]; intros p seen; cbn [real_comps]; [apply keeps_ret|].
  unfold link_at, Sys.is_symlink, or_false, readlink, lstat, stat. repeat (keeps_step || apply IH || apply Hf).
Qed.

Lemma joinrealpath_keeps I strict depth p rest seen : keeps I (joinrealpath strict depth p rest seen).
Proof.
  revert p rest seen; induction depth as [|depth IH]; intros p rest seen; cbn [joinrealpath]; [apply keeps_raise|]. by apply real_comps_keeps.
Qed.

Lemma resolve_path_keeps I p : keeps I (resolve_path p).
Proof. unfold resolve_path, stat. repeat (keeps_step || apply joinrealpath_keeps). Qed.

Lemma bounds_ok a : bounds_differ a = false ->
  2 ^ 26 <= size a <= 2 ^ 34 /\ size a mod 4096 = 0 /\ 128 <= inodes a <= 2 ^ 21 /\ 1024 <= port a < 2 ^ 16 /\
  0 <= min_free_bytes a <= 2 ^ 44 /\ 0 <= min_free_inodes a <= 2 ^ 30.
Proof.
  unfold bounds_differ. rewrite !orb_false_iff, negb_false_iff, !Z.ltb_ge, Z.eqb_eq, !Z.shiftl_mul_pow2 by done. lia.
Qed.

Lemma obs_check_arguments a : observes f (check_arguments a) (accepted a).
Proof.
  unfold check_arguments. eapply (obs_bind _ _ (fun logical => forall given, logical_path a = Some given -> logical = as_posix (pure_path given))).
  { destruct (logical_path a); [apply obs_ret; by intros ? [= <-]|]. eapply obs_conseq; [apply keeps_observes, resolve_path_keeps|done]. }
  intros logical Hl. eapply obs_bind; [apply obs_raise_if|]. intros u Hc. apply orb_false_iff in Hc as [Hroot Hnorm].
  eapply (obs_bind _ _ (fun _ => True)); [apply keeps_observes; unfold exists_, or_false, stat; keeps_tac|]. intros o _.
  eapply (obs_bind _ _ (fun _ => True)); [apply keeps_observes; unfold exists_, or_false, stat; keeps_tac|]. intros present _.
  eapply obs_bind; [apply obs_raise_if|]. intros u2 _. eapply obs_bind; [apply obs_raise_if|]. intros u3 Hm. apply orb_false_iff in Hm as [Hi Hu].
  eapply obs_bind; [apply obs_raise_if|]. intros u4 Hb. apply obs_ret. apply negb_false_iff in Hnorm, Hi, Hu. apply bounds_ok in Hb.
  split_and!; try done; try apply Hb; [by apply str_eqb_neq|by apply str_eqb_eq].
Qed.
End looking.

(** ** The staging directory appears *)

Section build.
Context `{machine} (Hquiet : quiet).
Context (f0 : fs) (Hb0 : based f0) (Hwf0 : fs_wf f0) (od : path) (Hod : plain_path od) (Hor : real_dir f0 od).

Lemma fresh_free : nodes f0 !! fresh f0 = None.
Proof. destruct (nodes f0 !! fresh f0) as [n|] eqn:Hn; [|done]. apply (bs_fresh f0 Hb0) in Hn. lia. Qed.

Lemma staged_start S n t : names f0 !! S = None -> i_kind n = KDir -> staged f0 S (fresh f0) (added f0 S n t).
Proof.
  intros HS Hk. pose proof fresh_free as Hfr. constructor; unfold added; cbn [names nodes].
  - constructor; cbn [names nodes].
    + intros k i Hi. rewrite lookup_insert_ne by congruence. done.
    + intros i m Hi. rewrite lookup_insert_ne by congruence. done.
  - apply (added_based f0 S n t Hb0).
  - apply lookup_insert_eq.
  - intros k [[<- _]|[_ Hi]]%lookup_insert_Some; [done|]. by destruct (based_free f0 Hb0 k).
  - exists n. by rewrite lookup_insert_eq.
  - intros k i [[_ <-]|[_ Hi]]%lookup_insert_Some Hp; [done|]. by destruct (closed_outside f0 S k i (wf_closed f0 Hwf0) HS Hi).
Qed.

Lemma mkdtemp_triple cands :
  triple (fun f => f = f0) (mkdtemp od (str ".root-staging.") cands)
    (fun p f => exists x, p = od ++ [x] /\ plain_name x = true /\ names f0 !! (od ++ [x]) = None /\ tidy f0 (od ++ [x]) (fresh f0) f)
    (fun f => f = f0).
Proof.
  induction cands as [|c cands IH]; [by apply triple_raise|]. cbn [mkdtemp]. set (x := str ".root-staging." ++ c).
  eapply (triple_catch _ _ _ _ (fun f => f = f0)); [|intros e; case_bool_decide; [apply IH|by apply triple_reraise]].
  assert (plain_name x = true) as Hx by (apply (Publish.long_plain x); unfold x; rewrite length_app; simpl; lia).
  assert (plain_path (od ++ [x])) as Hp by (apply plain_app; split; [done|by constructor]).
  eapply (triple_bind _ _ (fun _ f => names f0 !! (od ++ [x]) = None /\ tidy f0 (od ++ [x]) (fresh f0) f)); [|intros u; apply triple_ret; intros f []; eauto].
  apply (triple_change Hquiet); [done|]. intros f f' -> Hr. pose proof (locate_child f0 od x Hp Hor) as Hl.
  destruct (node_at f0 (od ++ [x])) as [[]|] eqn:Hn; [unfold fs_create in Hr; by rewrite Hl, Hn in Hr|].
  destruct (create_added me KDir 0x1C0 f0 _ _ Hl Hn) as (n & Hk & Hc). rewrite Hc in Hr. injection Hr as <-. cbn [snd].
  assert (names f0 !! (od ++ [x]) = None) as Hfree by (by apply (extends_free f0 Hb0 f0)).
  split; [done|]. split; [by apply staged_start|]. apply wf_added; try done; [by destruct od|]. rewrite removelast_last. apply Hor. by exists []; rewrite app_nil_r.
Qed.

Lemma obs_open_staging x f : plain_name x = true -> tidy f0 (od ++ [x]) (fresh f0) f ->
  observes f (open_ true true (od ++ [x])) (fun fd => fd = fresh f0).
Proof.
  intros Hx [Hs Hwf]. eapply obs_conseq; [by apply obs_query|]. intros fd Hfd. cbv beta in Hfd. unfold fs_open in Hfd. cbn [negb] in Hfd.
  assert (plain_path (od ++ [x])) as Hp by (apply plain_app; split; [done|by constructor]).
  rewrite (resolve_child f od x Hp) in Hfd by (eapply extends_real; [apply (sg_ext _ _ _ _ Hs)|done]). cbn [mbind] in Hfd.
  destruct (sg_dir _ _ _ _ Hs) as (n & Hn & Hk). unfold node_at in Hfd. rewrite (sg_name _ _ _ _ Hs), Hn, Hk in Hfd. by injection Hfd as <-.
Qed.

(** ** The program *)

Context (spawn : list (pystr * pystr) -> list pystr -> fs -> completed_process * fs) (statvfs_at : fs -> path -> res statvfs)
  (st_blocks : fs -> Z -> Z) (a : arguments) (Htools : tools spawn a).
Context (on : pystr) (Hout : output a = od ++ [on]) (Hop : plain_path (od ++ [on])).
Context (md : path) (mn : pystr) (Hmeta : metadata a = md ++ [mn]) (Hmp : plain_path (md ++ [mn])) (Hmr : real_dir f0 md).

(** What the program has established and published when it returns a record. *)
Definition built (record : pyval) (f : fs) : Prop := exists logical, accepted a logical /\ stored a f0 logical record f.

Lemma allocated_keeps I fd top : keeps I (allocated_bytes st_blocks fd top).
Proof.
  unfold allocated_bytes, os_walk, walk_turn, scandir_or_skip, sort_entry, entry_is_dir, enter, held_islink, allocated_body, account, lstat_blocks, or_false, held_stat.
  keeps_tac.
Qed.

Lemma held_triple cands root_fd :
  triple (fun f => f = f0) (_build_held spawn statvfs_at st_blocks cands a root_fd) built (extends f0).
Proof.
  assert (forall f, f = f0 -> extends f0 f) as Hsame by (by intros f ->).
  assert (Publish.parent_of (output a) = od /\ Publish.parent_of (metadata a) = md) as [Hpo Hpm].
  { unfold Publish.parent_of. by rewrite Hout, Hmeta, !removelast_last. }
  unfold _build_held. rewrite Hpo, Hpm. pose proof Hmp as [Hmd _]%plain_app.
  eapply triple_look; [done|by apply obs_check_arguments|]. intros logical Hacc.
  eapply triple_look; [done|by apply obs_mkdir_parents; rewrite ?rev_involutive|]. intros u1 _.
  eapply triple_look; [done|by apply obs_mkdir_parents; rewrite ?rev_involutive|]. intros u2 _.
  eapply triple_look; [done|apply keeps_observes, (count_keeps Hquiet)|]. intros counted _.
  eapply triple_look; [done|apply keeps_observes, allocated_keeps|]. intros allocated _.
  eapply triple_look; [done|apply keeps_observes, (capacity_keeps Hquiet)|]. intros u3 _.
  eapply triple_bind; [eapply triple_conseq; [apply mkdtemp_triple|done|intros p f Hp; exact Hp|done]|].
  intros staging. apply triple_pre. intros f1 (x & -> & Hx & Hfree & Hf1).
  assert (extends f0 f1) as He1 by (apply (sg_ext _ _ _ _ (proj1 Hf1))).
  eapply triple_look; [done|by apply obs_open_staging|]. intros fd ->.
  eapply triple_look; [done|apply keeps_observes; unfold Publish.descriptor_identity, fstat; keeps_tac|]. intros identity _.
  eapply triple_bind.
  { eapply triple_conseq; [eapply (try_block_steps Hquiet spawn statvfs_at st_blocks a Htools f0 Hb0 Hwf0 od on Hout Hop Hor md mn Hmeta Hmp Hmr x (fresh f0) Hx Hfree fresh_free cands logical root_fd identity)|by intros f ->|intros r f Hr; exact Hr|done]. }
  intros [v [record|e]]; cbn [fst snd].
  - apply triple_pre. intros f2 (Hv & Hc & Hst). unfold clean_up. rewrite Hv, Hc.
    eapply (triple_bind _ _ (fun _ f => f = f2)); [by apply triple_ret|]. intros u4. apply triple_ret. intros f ->. by exists logical.
  - eapply (triple_bind _ _ (fun _ => extends f0)).
    + eapply (clean_up_triple Hquiet f0 Hb0 Hwf0 a od on Hout Hop Hor md mn Hmeta Hmp Hmr x identity v); [|done]. apply plain_app. split; [done|by constructor].
    + intros u4. apply triple_lift; [done|done].
Qed.

Lemma build_triple cands : triple (fun f => f = f0) (build spawn statvfs_at st_blocks cands a) built (extends f0).
Proof.
  unfold build, os_error_as. eapply triple_look; [done|apply keeps_observes|].
  { unfold Publish.open_directory_nofollow, Publish.dup, held_opendir, open_, fstat, close. keeps_tac. }
  intros root_fd _. apply (triple_finally _ _ _ built built (extends f0) (extends f0)); [apply held_triple| |by apply (triple_query Hquiet)].
  intros record. apply (triple_query Hquiet); [|done]. by intros f (logical & _ & [He _]).
Qed.

(** C37. Building a storage image leaves what existed alone, and publishes only what it
    inspected.  On a machine where no other process runs, with external programs that
    keep to the staging directory and the image, whichever system call or program fails:
    every name that existed still names the same inode and every file that existed is
    unchanged, also after the clean-up has removed the staging directory, the temporary
    image and whatever had been published.  When [build] returns a record: the arguments
    were within their bounds, and the image and the record are published with mode 0600,
    where the image has the requested size, the superblock's magic number, UUID and inode
    count are those requested, the file system is marked clean, and the record holds the
    digest of exactly the published image. *)
Theorem build_publishes_inspected cands w : w_fs w = f0 ->
  match build spawn statvfs_at st_blocks cands a w with
  | (Ok record, w') => built record (w_fs w')
  | (Err _, w') => extends f0 (w_fs w')
  end.
Proof. intros Hw. by apply build_triple. Qed.


End build.
End StorageMain.
