(* ===== verification/StorageCount.v ===== *)
(** * Accounting for a tree

    On a machine where no call fails, the walks of the storage builder return, and visit
    every name below their directory exactly once: the inode count and the allocated
    bytes are those of the distinct inodes below it. *)
From Stdlib Require Import ZArith Lia.
From Stdlib Require Import Init.Byte.
From stdpp Require Import base list sets strings option gmap.
From S2P Require Import Prelude PyStr PyVal Bytes Json Sys Held FsRules Totals Publish Rootfs RootfsScan RootfsScanSafe Storage.

Open Scope string_scope.
Open Scope list_scope.
Open Scope Z_scope.

Module StorageCount.
Import RootfsScanSafe.
Export Storage.

(** The inodes of the names below a directory, each once. *)
Definition inodes_below (f : fs) (d : path) : gset Z :=
  list_to_set (omap (fun kv => if below d kv.1 && negb (bool_decide (kv.1 = d)) then Some kv.2 else None) (map_to_list (names f))).

Lemma elem_inodes_below f d i : i ∈ inodes_below f d <-> exists k, names f !! k = Some i /\ d `prefix_of` k /\ k <> d.
Proof.
  unfold inodes_below. rewrite elem_of_list_to_set, list_elem_of_omap. split.
  - intros ([k j] & Hin & Hc). cbn [fst snd] in Hc. apply elem_of_map_to_list in Hin. unfold below in Hc.
    case_bool_decide; [|done]. case_bool_decide; [done|]. simpl in Hc. injection Hc as ->. by exists k.
  - intros (k & Hk & Hp & Hne). exists (k, i). split; [by apply elem_of_map_to_list|]. cbn [fst snd]. unfold below.
    by rewrite bool_decide_true, bool_decide_false by done.
Qed.

(** The bytes that a set of inodes occupies. *)
Definition occupied (st_blocks : fs -> Z -> Z) (f : fs) (l : list Z) : Z := foldr Z.add 0 (map (fun i => st_blocks f i * 512) l).

Lemma occupied_perm st_blocks f l l' : l ≡ₚ l' -> occupied st_blocks f l = occupied st_blocks f l'.
Proof. unfold occupied. intros Hl. induction Hl; simpl; lia. Qed.

Section walk.
Context `{machine} (Hok : faultless) (f : fs) (Hwf : fs_wf f) (loc : path) (fd : Z).
Context (Hroot : names f !! loc = Some fd) (Hdir : is_dir_at f loc = true).

(** A directory of the tree. *)
Definition dir (p : path) : Prop := is_dir_at f (loc ++ p) = true.

Lemma dir_present p : dir p -> exists i n, present f loc p i n /\ i_kind n = KDir.
Proof. intros Hd. apply is_dir_kind in Hd as (i & n & Hn & Hk). by exists i, n. Qed.

Lemma present_dir p i n : present f loc p i n -> dir p <-> i_kind n = KDir.
Proof. intros Hp. unfold dir, is_dir_at. unfold present in Hp. rewrite Hp. by destruct (i_kind n). Qed.

(** *** Listing *)

Definition entry_at (p : path) (e : pystr * kind) : Prop := exists i n, present f loc (p ++ [e.1]) i n /\ i_kind n = e.2.

Lemma scandir_children p : dir p -> exists l, fs_held_scandir f fd p = Ok l /\ map fst l = children f (loc ++ p) /\ Forall (entry_at p) l.
Proof.
  intros (i & n & Hp & Hk)%dir_present. unfold fs_held_scandir. rewrite (held_listdir_children f Hwf loc fd Hroot Hdir p i n Hp Hk). cbn [mbind].
  eexists. split; [reflexivity|].
  assert (Forall (fun c => exists j m, present f loc (p ++ [c]) j m) (children f (loc ++ p))) as Hc.
  { apply list.Forall_forall. intros c [j Hj]%elem_children. rewrite <-app_assoc in Hj. destruct (named_at f Hwf _ _ Hj) as [m Hm]. by exists j, m. }
  induction Hc as [|c l (j & m & Hm) _ [IH1 IH2]]; [done|]. cbn [omap list_omap].
  rewrite (held_spec f Hwf loc fd Hroot Hdir false (p ++ [c]) j m) by done. cbn [snd map fst]. split; [by rewrite IH1|]. constructor; [|done]. by exists j, m.
Qed.

Lemma reads_scandir p (phi : option (list (pystr * kind)) -> Prop) : dir p ->
  (forall l, map fst l = children f (loc ++ p) -> Forall (entry_at p) l -> phi (Some l)) -> reads f (scandir_or_skip fd p) phi.
Proof.
  intros Hd Hphi. destruct (scandir_children p Hd) as (l & Hl & Hm & Hf). exists (Some l). split; [|auto].
  apply runs_catch. eapply runs_bind; [by apply (runs_query Hok _ _ (Ok l))|apply runs_ret].
Qed.

Definition enterable (k : kind) : Prop := k = KDir \/ exists t, k = KLink t.

Lemma reads_entry_is_dir p e : entry_at p e ->
  reads f (entry_is_dir fd p e) (fun b => (e.2 = KDir -> b = true) /\ (b = true -> enterable e.2)).
Proof.
  intros He. unfold entry_is_dir, enterable. destruct e as [c k]. cbn [fst snd]. destruct k; try solve [apply reads_ret; split; eauto; done].
  apply (reads_or_false Hok f); [unfold fs_held_stat; apply raises_bind; [apply held_node_os|done]|]. case_match; split; eauto; done.
Qed.

(** The entries of a listing, told apart. *)
Definition sorted_so (don : list (pystr * kind)) (s : listing) : Prop :=
  l_dirs s ++ l_files s ≡ₚ map fst don /\ (forall c, (c, KDir) ∈ don -> c ∈ l_dirs s) /\
  (forall c, c ∈ l_dirs s -> exists k, (c, k) ∈ don /\ enterable k).

Lemma reads_sort p l : Forall (entry_at p) l -> reads f (mfor_each (sort_entry fd p) (Listing [] [] []) l) (sorted_so l).
Proof.
  intros Hl. apply reads_for_each; [|split_and!; [done|by intros c Hc; inversion Hc|by intros c Hc; inversion Hc]].
  intros don e rest s -> (Hp & Hd & He). apply list.Forall_app in Hl as [_ [Hx _]%Forall_cons_iff].
  eapply reads_bind; [by apply reads_entry_is_dir|]. intros b [Hb1 Hb2]. apply reads_ret. destruct e as [c k]. cbn [fst snd] in *.
  destruct b; unfold sorted_so; cbn [l_dirs l_files]; split_and!.
  - rewrite map_app, <-Hp. cbn [map fst]. rewrite <-!app_assoc. apply Permutation_app_head, Permutation_cons_append.
  - intros x Hx'. rewrite elem_of_app, list_elem_of_singleton. apply elem_of_app in Hx' as [Hin| [= <- _]%list_elem_of_singleton]; auto.
  - intros x. rewrite elem_of_app, list_elem_of_singleton. intros [Hx'| ->].
    + destruct (He x Hx') as (k' & Hk' & ?). exists k'. split; [|done]. apply elem_of_app. by left.
    + exists k. split; [|auto]. apply elem_of_app. right. by apply list_elem_of_singleton.
  - by rewrite map_app, <-Hp, app_assoc.
  - intros x Hx'. apply elem_of_app in Hx' as [Hin| [= -> <-]%list_elem_of_singleton]; [auto|]. by specialize (Hb1 eq_refl).
  - intros x Hx'. destruct (He x Hx') as (k' & Hk' & ?). exists k'. split; [|done]. apply elem_of_app. by left.
Qed.

(** *** Going down *)

Definition below_dirs (p : path) (ds : list pystr) : list path := map (fun c => p ++ [c]) (List.filter (fun c => is_dir_at f (loc ++ p ++ [c])) ds).

Lemma reads_enter p ds : (forall c, c ∈ ds -> exists k, entry_at p (c, k) /\ enterable k) ->
  reads f (mfor_each (enter fd p) [] ds) (fun stack => stack = below_dirs p ds).
Proof.
  intros Hds. apply (reads_for_each f (fun don stack => stack = below_dirs p don)); [|done]. intros don c rest s Hl ->.
  destruct (Hds c) as (k & (i & n & Hn & Hk) & He); [rewrite Hl; apply elem_of_app; right; left|]. cbn [fst snd] in *. subst k.
  eapply reads_bind; [apply (reads_or_false Hok f) with (phi := fun b => b = negb (is_dir_at f (loc ++ p ++ [c])))|].
  - unfold fs_held_stat. apply raises_bind; [apply held_node_os|done].
  - unfold fs_held_stat. rewrite (held_spec f Hwf loc fd Hroot Hdir false (p ++ [c]) i n) by done. cbn [mbind fst snd].
    unfold is_dir_at. unfold present in Hn. rewrite Hn. unfold s_islnk. rewrite s_ifmt_stat.
    destruct He as [->|[t ->]]; done.
  - intros b ->. apply reads_ret. unfold below_dirs. rewrite List.filter_app, map_app. cbn [List.filter].
    destruct (is_dir_at f (loc ++ p ++ [c])); cbn [negb map]; [done|by rewrite app_nil_r].
Qed.

Lemma elem_below p ds d : d ∈ below_dirs p ds <-> exists c, c ∈ ds /\ d = p ++ [c] /\ dir d.
Proof.
  unfold below_dirs. rewrite list_elem_of_fmap. split.
  - intros (c & -> & Hc). apply list_elem_of_In, filter_In in Hc as [Hc Hd]. exists c. split_and!; [by apply list_elem_of_In|done|done].
  - intros (c & Hc & -> & Hd). exists c. split; [done|]. apply list_elem_of_In, filter_In. split; [by apply list_elem_of_In|done].
Qed.

Lemma below_nodup p ds : NoDup ds -> NoDup (below_dirs p ds).
Proof.
  intros Hn. apply (NoDup_fmap_2_strong (fun c => p ++ [c])); [intros a b _ _ Hab; by apply app_inj_tail in Hab as [_ ?]|].
  apply NoDup_ListNoDup, List.NoDup_filter, NoDup_ListNoDup. done.
Qed.

(** *** The walk

    Every directory below [top] has been visited or is below one of the stack; no two of
    the stack are below each other, and none is above one that has been visited. *)

Section from.
Context (top : path) (Htop : dir top).

Definition under (d : path) : Prop := dir d /\ top `prefix_of` d.

Record walking (stack don : list path) : Prop := {
  wk_stack : Forall under stack;
  wk_done : Forall under don;
  wk_all : forall d, under d -> d ∈ don \/ exists s, s ∈ stack /\ s `prefix_of` d;
  wk_done_nodup : NoDup don;
  wk_stack_nodup : NoDup stack;
  wk_apart : forall s d, s ∈ stack -> d ∈ don -> ~ s `prefix_of` d;
  wk_stack_apart : forall s s', s ∈ stack -> s' ∈ stack -> s `prefix_of` s' -> s = s' }.

Lemma walk_start : walking [top] [].
Proof.
  constructor.
  - constructor; [|done]. by split.
  - done.
  - intros d [_ Hp]. right. exists top. split; [by left|done].
  - apply NoDup_nil_2.
  - apply NoDup_singleton.
  - intros s d _ Hd. by inversion Hd.
  - by intros s s' ->%list_elem_of_singleton ->%list_elem_of_singleton.
Qed.

Lemma walk_end don : walking [] don -> NoDup don /\ forall d, d ∈ don <-> under d.
Proof.
  intros [_ Hd Ha Hn _ _ _]. split; [done|]. intros d. split; [by apply list.Forall_forall|]. intros Hu.
  destruct (Ha d Hu) as [?|(s & Hs & _)]; [done|by inversion Hs].
Qed.

(** A directory is visited and those in it are stacked. *)
Lemma walk_step d stack don ds : walking (d :: stack) don -> NoDup ds -> (forall c, dir (d ++ [c]) -> c ∈ ds) ->
  walking (below_dirs d ds ++ stack) (don ++ [d]).
Proof.
  intros [Hs Hd Ha Hdn Hsn Hap Hsa] Hnd Hds. apply Forall_cons_iff in Hs as [Hu Hs]. apply NoDup_cons in Hsn as [Hds' Hsn].
  assert (forall s, s ∈ stack -> ~ d `prefix_of` s /\ ~ s `prefix_of` d) as Hother.
  { intros s Hin. split; intros Hp; [apply (Hsa d s) in Hp|apply (Hsa s d) in Hp]; try (by left); try (by right); by subst. }
  assert (forall s, s ∈ below_dirs d ds -> d `prefix_of` s /\ s <> d) as Hb.
  { intros s (c & _ & -> & _)%elem_below. split; [by eexists|]. intros Heq. apply (f_equal length) in Heq. rewrite length_app in Heq. simpl in Heq. lia. }
  constructor.
  - apply list.Forall_app. split; [|done]. apply list.Forall_forall. intros s Hin. destruct (Hb s Hin) as [Hp _].
    apply elem_below in Hin as (c & _ & -> & Hdc). split; [done|]. destruct Hu as [_ Htp]. by etrans.
  - apply list.Forall_app. split; [done|]. by constructor.
  - intros e He. destruct (Ha e He) as [Hin|(s & Hin & Hp)]; [left; apply elem_of_app; by left|].
    apply elem_of_cons in Hin as [->|Hin]; [|right; exists s; split; [apply elem_of_app; by right|done]].
    destruct Hp as [[|c r] ->]; [left; rewrite app_nil_r; apply elem_of_app; right; by left|]. right. exists (d ++ [c]).
    assert (dir (d ++ [c])) as Hdc.
    { destruct He as [He _]. apply (dir_real f Hwf _ He). exists r. by rewrite <-!app_assoc. }
    split; [|exists r; by rewrite <-app_assoc]. apply elem_of_app. left. apply elem_below. eauto.
  - apply NoDup_app. split_and!; [done| |apply NoDup_singleton]. intros e He ->%list_elem_of_singleton.
    apply (Hap d d); [by left|done|done].
  - apply NoDup_app. split_and!; [by apply below_nodup| |done]. intros s Hin Hin'. destruct (Hother s Hin') as [Hno _]. apply Hno. by apply Hb.
  - intros s e Hin He Hp. apply elem_of_app in Hin as [Hin|Hin].
    + destruct (Hb s Hin) as [Hds2 Hne]. apply elem_of_app in He as [He|He].
      * apply (Hap d e); [by left|done|by etrans].
      * apply list_elem_of_singleton in He as ->. apply Hne. destruct Hp as [r1 Hr1], Hds2 as [r2 Hr2]. apply (f_equal length) in Hr1 as Hl.
        rewrite Hr2, !length_app in Hl. destruct r1, r2; simpl in Hl; try lia. rewrite Hr2. by rewrite app_nil_r.
    + apply elem_of_app in He as [He|He]; [apply (Hap s e); [by right|done|done]|]. apply list_elem_of_singleton in He as ->. by apply (Hother s Hin).
  - intros s s' Hin Hin' Hp. apply elem_of_app in Hin as [Hin|Hin], Hin' as [Hin'|Hin'].
    + apply elem_below in Hin as (c & _ & -> & _), Hin' as (c' & _ & -> & _). destruct Hp as [r Hr]. rewrite <-app_assoc in Hr.
      apply app_inv_head in Hr. simpl in Hr. by injection Hr as -> _.
    + destruct (Hb s Hin) as [Hds2 _]. destruct (Hother s' Hin') as [Hno _]. destruct Hno. by etrans.
    + apply elem_below in Hin' as (c & _ & -> & _). destruct (Hother s Hin) as [Hno1 Hno2]. destruct Hp as [r Hr]. exfalso.
      destruct r as [|x r _] using rev_ind; [rewrite app_nil_r in Hr; subst s; apply Hno1; by eexists|].
      rewrite app_assoc in Hr. apply app_inj_tail in Hr as [Hr _]. apply Hno2. by exists r.
    + apply (Hsa s s'); [by right|by right|done].
Qed.

(** What is left to visit. *)
Definition ahead (stack : list path) : gset path :=
  filter (fun k => is_dir_at f k && existsb (fun s => below (loc ++ s) k) stack = true) (dom (names f)).

Lemma elem_ahead stack k : k ∈ ahead stack <-> is_dir_at f k = true /\ exists s, s ∈ stack /\ loc ++ s `prefix_of` k.
Proof.
  unfold ahead. rewrite elem_of_filter, andb_true_iff, existsb_exists. split.
  - intros [[Hd (s & Hs & Hp)] _]. split; [done|]. exists s. split; [by apply list_elem_of_In|by apply bool_decide_eq_true in Hp].
  - intros [Hd (s & Hs & Hp)]. split_and!; [done| |].
    + exists s. split; [by apply list_elem_of_In|by apply bool_decide_eq_true].
    + destruct (dir_named f k Hd) as [i Hi]. by apply elem_of_dom.
Qed.

Lemma ahead_step d stack don ds : walking (d :: stack) don -> (base.size (ahead (below_dirs d ds ++ stack)) < base.size (ahead (d :: stack)))%nat.
Proof.
  intros [Hs _ _ _ Hsn _ Hsa]. apply Forall_cons_iff in Hs as [[Hd _] _]. apply NoDup_cons in Hsn as [Hdn _]. apply subset_size. split.
  - intros k (Hk & s & Hin & Hp)%elem_ahead. apply elem_ahead. split; [done|]. apply elem_of_app in Hin as [Hin|Hin]; [|exists s; split; [by right|done]].
    exists d. split; [by left|]. apply elem_below in Hin as (c & _ & -> & _). etrans; [|done]. exists [c]. by rewrite <-app_assoc.
  - intros Hsub. assert (loc ++ d ∈ ahead (below_dirs d ds ++ stack)) as Hin.
    { apply Hsub, elem_ahead. split; [done|]. exists d. split; [by left|done]. }
    apply elem_ahead in Hin as (_ & s & Hin & Hp). destruct Hp as [r Hr]. rewrite <-app_assoc in Hr. apply app_inv_head in Hr.
    apply elem_of_app in Hin as [(c & _ & -> & _)%elem_below|Hin].
    + apply (f_equal length) in Hr. rewrite !length_app in Hr. simpl in Hr. lia.
    + assert (s = d) as -> by (apply Hsa; [by right|by left|by exists r]). done.
Qed.

Lemma os_walk_reads {A} (I : list path -> A -> Prop) (body : A -> path -> list pystr -> list pystr -> M A) s0 :
  (forall don s d ds fs, I don s -> under d -> ds ++ fs ≡ₚ children f (loc ++ d) -> reads f (body s d ds fs) (I (don ++ [d]))) ->
  I [] s0 -> Z.of_nat (base.size (names f)) < 2 ^ 64 ->
  reads f (os_walk fd top body s0) (fun s => exists don, I don s /\ NoDup don /\ forall d, d ∈ don <-> under d).
Proof.
  intros Hbody Hs0 Hsize. unfold os_walk.
  apply (reads_while f (walk_turn fd body) (fun w => exists don, walking w.1 don /\ I don w.2) _ (fun w => Z.of_nat (base.size (ahead w.1)))).
  - intros [stack s] (don & Hw & Hs). cbn [fst snd] in *. unfold walk_turn. cbn [fst snd]. destruct stack as [|d stack].
    { apply reads_ret. exists don. split; [done|]. by apply walk_end. }
    pose proof (wk_stack _ _ Hw) as [Hd _]%Forall_cons_iff.
    apply (reads_bind f _ _ (fun r => exists l, r = Some l /\ map fst l = children f (loc ++ d) /\ Forall (entry_at d) l)).
    { apply reads_scandir; [by destruct Hd|eauto]. }
    intros r (l & -> & Hm & Hl). eapply reads_bind; [by apply reads_sort|]. intros sorted (Hp & Hdirs & Hent). rewrite Hm in Hp.
    eapply reads_bind; [by apply Hbody|]. intros s' Hs'. eapply reads_bind; [apply reads_enter|].
    { intros c Hc. destruct (Hent c Hc) as (k & Hk & He). exists k. split; [|done]. by eapply list.Forall_forall in Hl. }
    intros stack' ->. apply reads_ret. cbn [fst snd]. split; [|pose proof (ahead_step d stack don (l_dirs sorted) Hw); lia].
    exists (don ++ [d]). split; [|done]. apply walk_step; [done| |].
    + pose proof (children_nodup f (loc ++ d)) as Hnd. rewrite <-Hp in Hnd. by apply NoDup_app in Hnd as [? _].
    + intros c Hc. apply Hdirs. destruct (dir_present _ Hc) as (i & n & Hn & Hk).
      assert (c ∈ map fst l) as Hin.
      { rewrite Hm. apply elem_children. exists i. rewrite <-app_assoc. by apply present_named in Hn as []. }
      apply list_elem_of_fmap in Hin as ([c' k] & -> & Hin). cbn [fst] in *. eapply list.Forall_forall in Hl; [|exact Hin].
      destruct Hl as (j & m & Hm' & Hk'). cbn [fst snd] in *. unfold present in *. rewrite Hn in Hm'. injection Hm' as <- <-. by rewrite <-Hk, Hk'.
  - exists []. split; [apply walk_start|done].
  - cbn [fst]. eapply Z.le_lt_trans; [|exact Hsize]. apply inj_le. rewrite <-size_dom. apply subseteq_size. unfold ahead. set_solver.
Qed.

(** *** What has been noted *)

Definition noted (P : list path) (observed : list Publish.identity) : Prop :=
  NoDup (map snd observed) /\ forall x, x ∈ observed <-> exists p i n, p ∈ P /\ present f loc p i n /\ x = (i_dev n, i).

(** Names strictly below [top], those in the visited directories among them. *)
Definition covered (don P : list path) : Prop :=
  (forall p, p ∈ P -> top `prefix_of` p /\ p <> top) /\ (forall d c i n, d ∈ don -> present f loc (d ++ [c]) i n -> d ++ [c] ∈ P).

Lemma noted_snoc P observed p i n : noted P observed -> present f loc p i n ->
  noted (P ++ [p]) (if bool_decide ((i_dev n, i) ∈ observed) then observed else (i_dev n, i) :: observed).
Proof.
  intros [Hnd Hob] Hp.
  assert (forall x, (exists q j m, q ∈ P ++ [p] /\ present f loc q j m /\ x = (i_dev m, j)) <-> x ∈ observed \/ x = (i_dev n, i)) as Hsnoc.
  { intros x. rewrite Hob. split.
    - intros (q & j & m & [Hq| ->%list_elem_of_singleton]%elem_of_app & Hm & ->); [left; by exists q, j, m|].
      unfold present in *. rewrite Hp in Hm. injection Hm as <- <-. by right.
    - intros [(q & j & m & Hq & Hm & ->)| ->]; [exists q, j, m|exists p, i, n]; (split_and!; [apply elem_of_app|done|done]); [by left|right; by left]. }
  case_bool_decide as Hin; split; try done.
  - intros x. rewrite Hsnoc. split; [by left|]. by intros [?| ->].
  - cbn [map snd]. apply NoDup_cons. split; [|done]. intros (x & Hx & Hxo)%list_elem_of_fmap. apply Hin.
    pose proof Hxo as (q & j & m & _ & Hm & ->)%Hob. simpl in Hx. subst j. apply present_named in Hm as [_ Hm], Hp as [_ Hp]. by rewrite Hp in Hm; injection Hm as <-.
  - intros x. rewrite Hsnoc, elem_of_cons. tauto.
Qed.

Lemma noted_all don P observed : noted P observed -> covered don P -> (forall d, d ∈ don <-> under d) ->
  map snd observed ≡ₚ elements (inodes_below f (loc ++ top)).
Proof.
  intros [Hnd Hob] [Hc1 Hc2] Hdon. apply NoDup_Permutation; [done|apply NoDup_elements|]. intros i. rewrite elem_of_elements, elem_inodes_below, list_elem_of_fmap. split.
  - intros (x & -> & (p & j & n & Hp & Hn & ->)%Hob). cbn [snd]. destruct (Hc1 p Hp) as [Ht Hne]. exists (loc ++ p). apply present_named in Hn as [Hn _].
    split_and!; [done|by apply prefix_app|]. intros Heq. by apply app_inv_head in Heq.
  - intros (k & Hk & [r ->] & Hne). destruct r as [|c r _] using rev_ind; [by rewrite app_nil_r in Hne|].
    replace ((loc ++ top) ++ r ++ [c]) with (loc ++ (top ++ r) ++ [c]) in Hk by (by rewrite <-!app_assoc).
    destruct (named_at f Hwf _ _ Hk) as [n Hn]. exists (i_dev n, i). split; [done|]. apply Hob. exists ((top ++ r) ++ [c]), i, n. split_and!; [|done|done].
    apply (Hc2 (top ++ r) c i n); [|done]. apply Hdon. split; [|by eexists]. rewrite app_assoc in Hk. by apply (wf_parent f Hwf) in Hk as [? _].
Qed.

Lemma covered_snoc don P p : covered don P -> top `prefix_of` p -> p <> top -> covered don (P ++ [p]).
Proof.
  intros [Hc1 Hc2] Hp Hne. split.
  - intros q [Hq| ->%list_elem_of_singleton]%elem_of_app; auto.
  - intros d c i n Hd Hn. apply elem_of_app. left. by eapply Hc2.
Qed.

Lemma covered_visit don P d : covered don P -> (forall c i n, present f loc (d ++ [c]) i n -> d ++ [c] ∈ P) -> covered (don ++ [d]) P.
Proof. intros [Hc1 Hc2] Hd. split; [done|]. intros e c i n [He| ->%list_elem_of_singleton]%elem_of_app; eauto. Qed.

(** The names in a directory, in the order they are looked at. *)
Lemma entries_present d l p : l ≡ₚ children f (loc ++ d) -> p ∈ map (fun name => d ++ [name]) l -> exists i n, present f loc p i n.
Proof.
  intros Hl (c & -> & Hc)%list_elem_of_fmap. rewrite Hl in Hc. apply elem_children in Hc as [i Hi]. rewrite <-app_assoc in Hi.
  destruct (named_at f Hwf _ _ Hi) as [n Hn]. by exists i, n.
Qed.

Lemma entries_all d l c i n : l ≡ₚ children f (loc ++ d) -> present f loc (d ++ [c]) i n -> d ++ [c] ∈ map (fun name => d ++ [name]) l.
Proof.
  intros Hl [Hn _]%present_named. apply list_elem_of_fmap. exists c. split; [done|]. rewrite Hl. apply elem_children. exists i. by rewrite <-app_assoc.
Qed.

Lemma strictly_below d c : under d -> top `prefix_of` d ++ [c] /\ d ++ [c] <> top.
Proof.
  intros [_ Hp]. split; [etrans; [exact Hp|by eexists]|]. intros <-. destruct Hp as [r Hr]. apply (f_equal length) in Hr. rewrite !length_app in Hr. simpl in Hr. lia.
Qed.

Lemma count_reads don observed d ds fs : (exists P, noted P observed /\ covered don P) -> under d -> ds ++ fs ≡ₚ children f (loc ++ d) ->
  reads f (count_body fd observed d ds fs) (fun o => exists P, noted P o /\ covered (don ++ [d]) P).
Proof.
  intros Hinv Hd Hl. eapply reads_conseq.
  - apply (reads_for_each f (fun looked o => exists P, noted P o /\ covered don P /\ forall p, p ∈ looked -> p ∈ P)).
    + intros looked p rest o Hm (P & Hn & Hc & Hp). destruct (entries_present d (ds ++ fs) p Hl) as (i & n & Hpn); [rewrite Hm; apply elem_of_app; right; by left|].
      eapply (reads_bind f _ _ (fun v => v = stat_of i n)).
      { apply (reads_query Hok f _ (stat_of i n)); [|done]. unfold fs_held_stat. by rewrite (held_spec f Hwf loc fd Hroot Hdir false p i n). }
      intros v ->. apply reads_ret. exists (P ++ [p]). split_and!.
      * by apply (noted_snoc P o p i n).
      * assert (p ∈ map (fun name => d ++ [name]) (ds ++ fs)) as (c & -> & _)%list_elem_of_fmap by (rewrite Hm; apply elem_of_app; right; by left).
        by apply covered_snoc; [|apply strictly_below..].
      * intros q [Hq|Hq]%elem_of_app; apply elem_of_app; auto.
    + destruct Hinv as (P & Hn & Hc). exists P. split_and!; [done|done|]. intros p Hp. by inversion Hp.
  - intros o (P & Hn & Hc & Hp). exists P. split; [done|]. apply covered_visit; [done|]. intros c i n Hpn. apply Hp. by eapply entries_all.
Qed.

(** *** Allocated bytes *)

Context (st_blocks : fs -> Z -> Z).

Definition charged (P : list path) (s : list Publish.identity * Z) : Prop := noted P s.1 /\ s.2 = occupied st_blocks f (map snd s.1).

Lemma account_reads P s p i n : charged P s -> p <> [] -> present f loc p i n -> reads f (account st_blocks fd s p) (charged (P ++ [p])).
Proof.
  intros [Hn Hs] Hne Hp. unfold account, lstat_blocks. destruct p as [|c p]; [done|].
  eapply (reads_bind f _ _ (fun v => v = Some ((i_dev n, i), st_blocks f i))).
  { eapply (reads_query Hok f); [|reflexivity]. unfold fs_held_stat. by rewrite (held_spec f Hwf loc fd Hroot Hdir false (c :: p) i n). }
  intros v ->. apply reads_ret. pose proof (noted_snoc P s.1 (c :: p) i n Hn Hp) as Hn'. unfold charged.
  revert Hn'. repeat case_bool_decide; try done. intros Hn'. cbn [fst snd]. split; [done|]. rewrite Hs. unfold occupied. cbn [map foldr fst snd]. lia.
Qed.

Lemma allocated_reads don s d ds fs : top = [] -> (exists P, charged P s /\ covered don P) -> under d -> ds ++ fs ≡ₚ children f (loc ++ d) ->
  reads f (allocated_body st_blocks fd s d ds fs) (fun s' => exists P, charged P s' /\ covered (don ++ [d]) P).
Proof.
  intros Htop0 Hinv Hd Hl. eapply reads_conseq.
  - apply (reads_for_each f (fun looked s' => exists P, charged P s' /\ covered don P /\ forall p, p ∈ looked -> p = [] \/ p ∈ P)).
    + intros looked p rest s' Hm (P & Hn & Hc & Hp). destruct (decide (p = [])) as [->|Hne].
      { apply (reads_bind f _ _ (fun v => v = None)); [by eapply (reads_query Hok f)|]. intros v ->. apply reads_ret. exists P.
        split_and!; [done|done|]. intros q [Hq| ->%list_elem_of_singleton]%elem_of_app; auto. }
      assert (exists i n, present f loc p i n) as (i & n & Hpn).
      { assert (p ∈ d :: map (fun name => d ++ [name]) (ds ++ fs)) as Hin by (rewrite Hm; apply elem_of_app; right; by left).
        apply elem_of_cons in Hin as [->|Hin]; [|by eapply entries_present]. destruct Hd as [(i & n & Hn' & _)%dir_present _]. by exists i, n. }
      eapply reads_conseq; [by apply (account_reads P s' p i n)|]. intros s2 Hs2. exists (P ++ [p]). split_and!; [done| |].
      * apply covered_snoc; [done|rewrite Htop0; apply prefix_nil|by rewrite Htop0].
      * intros q [Hq| ->%list_elem_of_singleton]%elem_of_app; [destruct (Hp q Hq); [by left|]|]; right; apply elem_of_app; auto. right. by left.
    + destruct Hinv as (P & Hn & Hc). exists P. split_and!; [done|done|]. intros p Hp. by inversion Hp.
  - intros s' (P & Hn & Hc & Hp). exists P. split; [done|]. apply covered_visit; [done|]. intros c i n Hpn.
    destruct (Hp (d ++ [c])) as [Heq|]; [right; by eapply entries_all|by destruct d|done].
Qed.

Lemma noted_nothing : noted [] [] /\ covered [] [].
Proof.
  split; split; [apply NoDup_nil_2| | |].
  - intros x. split; [by intros Hx; inversion Hx|]. intros (p & i & n & Hp & _). by inversion Hp.
  - intros p Hp. by inversion Hp.
  - intros d c i n Hd. by inversion Hd.
Qed.

Lemma count_exact : Z.of_nat (base.size (names f)) < 2 ^ 64 ->
  reads f (imported_inode_count fd top) (fun z => z = Z.of_nat (base.size (inodes_below f (loc ++ top)))).
Proof.
  intros Hsize. eapply reads_bind; [apply (os_walk_reads (fun don o => exists P, noted P o /\ covered don P))|].
  - intros. by apply count_reads.
  - exists []. apply noted_nothing.
  - done.
  - intros o (don & (P & HP & HC) & _ & Hdon). apply reads_ret. unfold zlen. f_equal.
    pose proof (noted_all don P o HP HC Hdon) as Hperm. apply Permutation_length in Hperm. by rewrite length_map in Hperm.
Qed.

Lemma allocated_exact : top = [] -> Z.of_nat (base.size (names f)) < 2 ^ 64 ->
  reads f (allocated_bytes st_blocks fd top) (fun z => z = occupied st_blocks f (elements (inodes_below f (loc ++ top)))).
Proof.
  intros Htop0 Hsize. eapply reads_bind; [apply (os_walk_reads (fun don s => exists P, charged P s /\ covered don P))|].
  - intros. by apply allocated_reads.
  - exists []. split; [split|]; [apply noted_nothing|done|apply noted_nothing].
  - done.
  - intros s (don & (P & [HP Hs] & HC) & _ & Hdon). apply reads_ret. rewrite Hs. by apply occupied_perm, (noted_all don P).
Qed.
End from.
End walk.

(** C38. The accounting of the root is exact.  Where no call fails, counting the inodes
    below a directory returns, with exactly the number of distinct inodes that the names
    below it have, however deep the tree is and whichever names are hard links of one
    file or symbolic links; and the allocated bytes of the root are the blocks of those
    inodes, each counted once. *)
Theorem accounting_exact `{machine} st_blocks f loc fd top c : faultless -> fs_wf f -> names f !! loc = Some fd -> is_dir_at f loc = true ->
  is_dir_at f (loc ++ top) = true -> Z.of_nat (base.size (names f)) < 2 ^ 64 ->
  (exists c', imported_inode_count fd top (World f c) = (Ok (Z.of_nat (base.size (inodes_below f (loc ++ top)))), World f c')) /\
  (exists c', allocated_bytes st_blocks fd [] (World f c) = (Ok (occupied st_blocks f (elements (inodes_below f loc))), World f c')).
Proof.
  intros Hok Hwf Hn Hd Ht Hsize. split.
  - destruct (count_exact Hok f Hwf loc fd Hn Hd top Ht Hsize) as (z & Hr & ->). apply Hr.
  - assert (is_dir_at f (loc ++ []) = true) as Hd' by (by rewrite app_nil_r).
    destruct (allocated_exact Hok f Hwf loc fd Hn Hd [] Hd' st_blocks eq_refl Hsize) as (z & Hr & ->). rewrite app_nil_r in Hr. apply Hr.
Qed.
End StorageCount.
