(* ===== verification/StorageRun.v ===== *)
(** * A storage build that runs out of space

    An empty root is staged, and the allocation of the image fails: the temporary image
    and the staging directory are removed again.  The example tree of the scanner, whose
    file has two names, is counted. *)
From Stdlib Require Import ZArith Lia.
From Stdlib Require Import Init.Byte.
From stdpp Require Import base list sets strings option gmap.
From S2P Require Import Prelude PyStr PyVal Bytes Json Sys Held FsRules Publish PublishPair Rootfs RootfsScan RootfsScanSafe RootfsRun.
From S2P Require Import Storage StorageSafe StorageBuild StorageMain StorageCount.

Open Scope string_scope.
Open Scope list_scope.
Open Scope Z_scope.

Module StorageRun.
Import BuildRootfs PublishPair RootfsScanSafe RootfsRun StorageMain StorageCount.

Definition disk : fs :=
  FS (list_to_map [([], 1); ([str "r"], 2); ([str "o"], 3)])
     (list_to_map [(1, node KDir 0x1ED 2 []); (2, node KDir 0x1ED 2 []); (3, node KDir 0x1ED 2 [])]) 4 7.
Definition disk_start : world := World disk 0.

Definition request : arguments :=
  Arguments (Publish.AtPath [str "r"]) (strs ["o"; "image"]) (strs ["o"; "image.json"]) (str "image-1") (str "00000000-0000-4000-8000-000000000001")
    (2 ^ 26) 128 7000 0 0 (Some (str "/srv/image")) (str "mke2fs") (str "e2fsck") (str "debugfs") (str "cp").

(** Copying an empty directory changes nothing. *)
Definition programs (env : list (pystr * pystr)) (command : list pystr) (f : fs) : completed_process * fs := (Completed 0 [] [], f).
Definition space (f : fs) (p : path) : res statvfs := Ok (Statvfs 100000 4096 1000).
Definition blocks (f : fs) (ino : Z) : Z := 0.

Definition full_disk (n : nat) : machine := lone_machine superuser [n].
Definition names_tried : candidates := Candidates [str "a"] [str "b"] [str "c"].
Definition storage_run (n : nat) (w : world) : res pyval * world := @build (full_disk n) programs space blocks names_tried request w.

Lemma confined_refl S image f : confined S image f f.
Proof. constructor; try done; [by left|]. intros i n d _ Hn Hk. by exists n, d. Qed.

Lemma programs_tools : tools programs request.
Proof. constructor; intros; try apply confined_refl; done. Qed.

Lemma disk_wf : fs_wf disk.
Proof. apply fs_wfb_ok. vm_cast_no_check (@eq_refl bool true). Qed.

Lemma disk_based : based disk.
Proof. split; [apply fresh_okb_ok; vm_cast_no_check (@eq_refl bool true)|]. intros k i Hk. by eapply (wf_node disk disk_wf). Qed.

(** The run stops with an error and leaves these names. *)
Definition stops_with (left : list path) (r : res pyval * world) : bool :=
  match r.1 with Ok _ => false | Err _ => bool_decide (list_to_set (map fst (names_list (w_fs r.2))) =@{gset path} list_to_set left) end.

Lemma storage_run_ok : stops_with [[]; [str "r"]; [str "o"]] (storage_run 23 disk_start) = true.
Proof. vm_cast_no_check (@eq_refl bool true). Qed.

(** When the mode of the temporary image cannot be set, its name is left behind: the
    clean-up removes it only once its identity is known. *)
Lemma unset_mode_leaves_image : stops_with [[]; [str "r"]; [str "o"]; strs ["o"; ".image.b"]] (storage_run 21 disk_start) = true.
Proof. vm_cast_no_check (@eq_refl bool true). Qed.

Lemma build_publishes_inspected_witness : exists e w',
  storage_run 23 disk_start = (Err e, w') /\ stops_with [[]; [str "r"]; [str "o"]] (Err e, w') = true /\ extends disk (w_fs w').
Proof.
  pose proof storage_run_ok as Hok. unfold storage_run in *.
  assert (real_dir disk [str "o"]) as Hr by (apply (dir_real disk disk_wf); vm_compute; reflexivity).
  pose proof (@build_publishes_inspected (full_disk 23) (lone_quiet _ _) disk disk_based disk_wf [str "o"] ltac:(repeat constructor) Hr
    programs space blocks request programs_tools (str "image") eq_refl ltac:(repeat constructor)
    [str "o"] (str "image.json") eq_refl ltac:(repeat constructor) Hr names_tried disk_start eq_refl) as Ht.
  destruct (@build (full_disk 23) programs space blocks names_tried request disk_start) as [[record|e] w']; [discriminate Hok|].
  exists e, w'. split_and!; [reflexivity|exact Hok|exact Ht].
Defined.

Lemma here_faultless : @faultless here.
Proof. split; [apply lone_quiet|]. intros n. cbn [here lone_machine fault]. rewrite bool_decide_false; [reflexivity|]. intros Hn. inversion Hn. Qed.

(** Four names below the root, three inodes of one, two and three blocks. *)
Lemma accounting_exact_witness : exists c1 c2,
  @imported_inode_count here 2 [] start = (Ok 3, World host c1) /\
  @allocated_bytes here (fun _ i => i - 2) 2 [] start = (Ok ((1 + 2 + 3) * 512), World host c2).
Proof.
  destruct (@accounting_exact here (fun _ i => i - 2) host [str "r"] 2 [] 0 here_faultless host_wf) as [[c1 H1] [c2 H2]];
    try (vm_compute; reflexivity).
  exists c1, c2. split.
  - assert (Z.of_nat (base.size (inodes_below host ([str "r"] ++ []))) = 3) as Hs by (vm_compute; reflexivity). rewrite Hs in H1. exact H1.
  - assert (occupied (fun _ i => i - 2) host (elements (inodes_below host [str "r"])) = (1 + 2 + 3) * 512) as Hs by (vm_compute; reflexivity). rewrite Hs in H2. exact H2.
Defined.
End StorageRun.
