(* ===== verification/Image.v ===== *)
(** * The entrypoint architecture check (scripts/validate-runtime-image.py)

    The entrypoint of a container is resolved inside its root without leaving it, through
    symbolic links and interpreter lines, and must be an x86-64 ELF image.  The open
    directories that the [finally] clause closes are the variables of the steps. *)
From Stdlib Require Import ZArith Lia.
From Stdlib Require Import Init.Byte.
From stdpp Require Import base list sets strings option gmap.
From S2P Require Import Prelude PyStr PyVal Bytes Json Sys Held Steps Publish Materialize.

Open Scope string_scope.
Open Scope list_scope.
Open Scope Z_scope.

Module Image.
Export Steps.

Definition strict_object : dict -> res dict := strict_pairs ImageError "duplicate JSON field" [].

(** [os.open(name, O_PATH | O_NOFOLLOW, dir_fd=...)]: a link is opened itself. *)
Definition fs_openat_path (f : fs) (dirfd : Z) (name : pystr) : res Z :=
  match nodes f !! dirfd with
  | None => raise OSError "Bad file descriptor"
  | Some n =>
      match i_kind n, location_of f dirfd with
      | KDir, Some loc =>
          let! l := resolve f false (loc ++ [name]) in
          match node_at f l with Some r => Ok r.1 | None => ENOENT end
      | KDir, None => ENOENT
      | _, _ => ENOTDIR
      end
  end.

(** [readlinkat(fd, "", buffer, size)]: the bytes that fit. *)
Definition fs_readlinkat (f : fs) (fd size : Z) : res bytes :=
  match nodes f !! fd with
  | None => raise OSError "Bad file descriptor"
  | Some n => match i_kind n with
              | KLink t => let! raw := fsencode t in Ok (take (Z.to_nat size) raw)
              | _ => raise OSError "No such file or directory"
              end
  end.

(** [data.splitlines()\[0\]\[2:\].strip().split()] of bytes: the words of the first line. *)
Definition line_end (c : byte) : bool := (b2z c =? 10) || (b2z c =? 13).
Fixpoint first_line (l : bytes) : bytes := match l with [] => [] | c :: t => if line_end c then [] else c :: first_line t end.
Fixpoint words (cur : bytes) (l : bytes) : list bytes :=
  match l with
  | [] => match cur with [] => [] | _ => [rev cur] end
  | c :: t => if is_space (b2z c) then match cur with [] => words [] t | _ => rev cur :: words [] t end else words (c :: cur) t
  end.

Section image.
Context `{machine}.

(** *** Symbolic links *)

Definition readlink_turn (descriptor size : Z) : M (Z + bytes) :=
  if size <=? 2 ^ 20 then
    let* raw := query (fun f => fs_readlinkat f descriptor size) in
    mret (if zlen raw <? size then inr raw else inl (size * 2))
  else mraise ImageError "entrypoint symlink target is too large".
Definition _readlink_descriptor (descriptor : Z) : M pystr :=
  let* raw := mwhile (readlink_turn descriptor) 256 in lift (fsdecode raw).

(** *** Resolution *)

(** What is left to follow, what has been resolved, and the links followed. *)
Record walk_state := Walk { pending : list pystr; resolved : list pystr; links : Z }.

(** [while len(directories) > 1: os.close(directories.pop())] *)
Definition to_root_turn (_ : unit) : step (list Z) (unit + unit) :=
  fun directories =>
    if (1 <? zlen directories)
    then (assign (@removelast Z) ;+ perform (close (List.last directories 0)) ;+ perform (mret (inl tt)))%step directories
    else mret (directories, Ok (inr tt)).

Definition follow_link (s : walk_state) (rest : list pystr) (candidate : Z) : step (list Z) walk_state :=
  (if 40 <? links s + 1
   then perform (close candidate) ;+ perform (mraise ImageError "entrypoint has too many symlinks")
   else
     target <- perform (_readlink_descriptor candidate) ;;
     perform (close candidate) ;+
     let target_parts := parts (pure_path target) in
     if startswith target (str "/")
     then swhile to_root_turn tt ;+ perform (mret (Walk (tail target_parts ++ rest) [] (links s + 1)))
     else perform (mret (Walk (target_parts ++ rest) (resolved s) (links s + 1))))%step.

Definition open_exact (candidate : Z) (info : stat_result) (resolved : list pystr) : M (Z * pystr) :=
  (if negb (s_isreg (st_mode info)) || (Z.land (st_mode info) 0x49 =? 0)
   then close candidate ;;; mraise ImageError "resolved entrypoint is not an executable regular file"
   else
     let* exact := held_open candidate [] in
     let* exact_info := fstat exact in
     close candidate ;;;
     if negb (bool_decide ((st_dev exact_info, st_ino exact_info) = (st_dev info, st_ino info)))
     then close exact ;;; mraise ImageError "entrypoint identity changed while opening"
     else mret (exact, join_with SLASH resolved)).

Definition component_turn (s : walk_state) (component : pystr) (rest : list pystr) : step (list Z) (walk_state + (Z * pystr)) :=
  fun directories =>
  (candidate <- perform (query (fun f => fs_openat_path f (List.last directories 0) component)) ;;
   info <- perform (fstat candidate) ;;
   if s_islnk (st_mode info) then s' <- follow_link s rest candidate ;; perform (mret (inl s'))
   else
     let resolved := resolved s ++ [component] in
     match rest with
     | [] => r <- perform (open_exact candidate info resolved) ;; perform (mret (inr r))
     | _ =>
         if negb (s_isdir (st_mode info))
         then perform (close candidate) ;+ perform (mraise ImageError "entrypoint path contains a non-directory component")
         else assign (fun directories => directories ++ [candidate]) ;+ perform (mret (inl (Walk rest resolved (links s))))
     end)%step directories.

Definition walk_turn (s : walk_state) : step (list Z) (walk_state + (Z * pystr)) :=
  match pending s with
  | [] => perform (mraise ImageError "resolved entrypoint is not an executable regular file")
  | component :: rest =>
      if mem component (strs [""; "."]) then perform (mret (inl (Walk rest (resolved s) (links s))))
      else if component =s str ".." then
        match resolved s with
        | [] => perform (mraise ImageError "entrypoint traversal escapes the OCI root")
        | _ => fun directories =>
            (assign (@removelast Z) ;+ perform (close (List.last directories 0)) ;+
             perform (mret (inl (Walk rest (removelast (resolved s)) (links s)))))%step directories
        end
      else component_turn s component rest
  end.

(** The directories are closed in reverse, whatever happened. *)
Definition resolve_in_root (root_fd : Z) (name : pystr) : M (Z * pystr) :=
  mraise_if (negb (startswith name (str "/")) || bool_decide (0 ∈ name)) ImageError "OCI argv[0] must be an absolute path" ;;;
  let* root := Publish.dup root_fd in
  let* r := swhile walk_turn (Walk (tail (parts (pure_path name))) [] 0) [root] in
  mfor_each (fun _ directory => close directory) tt (rev r.1) ;;;
  lift r.2.

(** *** The file *)

Definition stat_identity (s : stat_result) : list Z :=
  [st_dev s; st_ino s; st_mode s; st_uid s; st_gid s; st_size s; st_mtime_ns s; st_ctime_ns s].

Definition stable_bytes (descriptor : Z) : M bytes :=
  let* before := fstat descriptor in
  let* data := mwhile (Materialize.pread_turn descriptor) ([], 0) in
  let* after := fstat descriptor in
  mraise_if (negb (bool_decide (stat_identity before = stat_identity after))) ImageError "entrypoint mutated during architecture validation" ;;;
  mret data.

(** [depth] counts down from the four interpreters allowed. *)
Fixpoint executable (root_fd : Z) (name : pystr) (depth : nat) : M (pystr * bytes) :=
  match depth with
  | O => mraise ImageError "entrypoint interpreter chain is too deep"
  | S depth =>
      let* (descriptor, resolved) := resolve_in_root root_fd name in
      let* data := mfinally (stable_bytes descriptor) (close descriptor) in
      if bool_decide (take 2 data = bstr "#!") then
        match words [] (drop 2 (first_line data)) with
        | [] => mraise ImageError "entrypoint has an empty shebang"
        | word :: _ => let* name := lift (fsdecode word) in executable root_fd name depth
        end
      else mret (resolved, data)
  end.

Definition json_file (p : path) : M pyval :=
  let* data := read_bytes p in
  let* text := lift (utf8_decode Strict data) in
  lift (loads strict_object float_constant text).

(** [config\["process"\]\["args"\]\[0\]] *)
Definition first_item (v : pyval) : res pyval :=
  match v with
  | VList (x :: _) => Ok x
  | VList [] => raise IndexError "list index out of range"
  | VStr (c :: _) => Ok (VStr [c])
  | VStr [] => raise IndexError "string index out of range"
  | VDict _ => raise KeyError "0"
  | _ => raise TypeError "not subscriptable"
  end.
Definition entrypoint_of (config : pyval) : res pyval :=
  match (let! process := getitem config (str "process") in let! args := getitem process (str "args") in first_item args) with
  | Ok v => Ok v
  | Err e => if bool_decide (exn_cls e ∈ [KeyError; IndexError; TypeError]) then raise ImageError "OCI process entrypoint is missing" else Err e
  end.

(** [name.startswith] of a value that is not a string. *)
Definition name_text (v : pyval) : res pystr :=
  match v with VStr s => Ok s | _ => raise AttributeError "no attribute 'startswith'" end.

Definition elf_x86_64 (data : bytes) : bool :=
  negb ((zlen data <? 20) || negb (bool_decide (take 5 data = [x7f; x45; x4c; x46; x02])) || negb (le_int (slice 5 6 data) =? 1) ||
        negb (le_int (slice 18 20 data) =? 62)).

Definition _validate_held (root_fd : Z) (config_path bootstrap_path : path) : M pyval :=
  let* config := json_file config_path in
  let* bootstrap := json_file bootstrap_path in
  let* architecture := lift (val_get bootstrap (str "architecture")) in
  mraise_if (negb (architecture == VStr (str "amd64"))) ImageError "selected kernel is not amd64" ;;;
  let* entrypoint := lift (entrypoint_of config) in
  let* name := lift (name_text entrypoint) in
  let* (resolved, data) := executable root_fd name 5 in
  mraise_if (negb (elf_x86_64 data)) ImageError "OCI entrypoint/interpreter is not a little-endian x86-64 ELF image" ;;;
  let* manifest_sha256 := lift (getitem bootstrap (str "manifest_sha256")) in
  let* kernel_release := lift (getitem bootstrap (str "kernel_release")) in
  let* required_config := lift (getitem bootstrap (str "required_config")) in
  let* oci_features := lift (getitem bootstrap (str "oci_features")) in
  mret (VDict [(str "architecture", VStr (str "amd64")); (str "entrypoint", entrypoint);
               (str "resolved_entrypoint", VStr (str "/" ++ resolved)); (str "entrypoint_sha256", VStr (sha256 data));
               (str "kernel_manifest_sha256", manifest_sha256); (str "kernel_release", kernel_release);
               (str "required_kernel_config", required_config); (str "supported_oci_features", oci_features)]).

Definition validate (root : Publish.directory_ref) (config_path bootstrap_path : path) : M pyval :=
  let* root_fd := os_error_as ImageError "cannot open OCI root without following symlinks" (Publish.open_directory_nofollow root) in
  mfinally (_validate_held root_fd config_path bootstrap_path) (close root_fd).

(** The exit status and the line printed; [float_text] is the text of a finite float. *)
Definition main (float_text : pyfloat -> pystr) (root : Publish.directory_ref) (config_path bootstrap_path : path) : M (Z * option pystr) :=
  mcatch (let* record := validate root config_path bootstrap_path in mret (0, Some (dumps float_text spaced record)))
    (fun e => if is_os_error (exn_cls e) || bool_decide (exn_cls e ∈ [ImageError; JSONDecodeError]) then mret (1, None) else reraise e).
End image.
End Image.
