(* ===== verification/ImageSafe.v ===== *)
(** * The entrypoint that is validated

    Resolving an entrypoint follows its links inside the root, and never leaves it; what
    is validated is the file that resolution leads to, through interpreter lines as the
    code reads them ([code_rule]), which is the file the kernel chooses ([kernel_rule])
    where every such line is plain ([plain_line]). *)
From Stdlib Require Import ZArith Lia.
From Stdlib Require Import Init.Byte.
From stdpp Require Import base list sets strings option gmap.
From S2P Require Import Prelude PyStr PyVal Bytes Json Sys Held FsRules Keeps Steps Publish RootfsScanSafe Materialize MaterializeSafe Image.

Open Scope string_scope.
Open Scope list_scope.
Open Scope Z_scope.

Module ImageSafe.
Import RootfsScanSafe.
Export Image.

(** ** Following a path inside a root

    As the kernel would in a process whose root is [loc], except that the parent of the
    root is refused. *)
Section root.
Context (f : fs) (loc : path).

(** The names that the text of a link adds, and whether it starts at the root again. *)
Definition link_text (t : pystr) : res pystr := let! raw := fsencode t in fsdecode raw.
Definition absolute (s : pystr) : bool := startswith s (str "/").
Definition path_names (s : pystr) : list pystr := let l := parts (pure_path s) in if absolute s then tail l else l.

Inductive leads : path -> list pystr -> path -> Prop :=
  | leads_here p : leads p [] p
  | leads_skip p c rest q : mem c (strs [""; "."]) = true -> leads p rest q -> leads p (c :: rest) q
  | leads_up p x rest q : leads p rest q -> leads (p ++ [x]) (str ".." :: rest) q
  | leads_in p c rest q i n : plain_name c = true -> present f loc (p ++ [c]) i n -> not_link (i_kind n) -> (rest <> [] -> i_kind n = KDir) ->
      leads (p ++ [c]) rest q -> leads p (c :: rest) q
  | leads_link p c rest q i n t target : plain_name c = true -> present f loc (p ++ [c]) i n -> i_kind n = KLink t -> link_text t = Ok target ->
      leads (if absolute target then [] else p) (path_names target ++ rest) q -> leads p (c :: rest) q.

(** An executable regular file of the root. *)
Definition program_at (q : path) (i : Z) (data : bytes) : Prop :=
  exists n, present f loc q i n /\ i_kind n = KFile data /\ Z.land (st_mode (stat_of i n)) 0x49 <> 0.

(** The file a name leads to through the interpreter lines of the scripts on the way, as
    [rule] reads the name of an interpreter from a script. *)
Inductive interpreted (rule : bytes -> option bytes) : pystr -> list bytes -> path -> bytes -> Prop :=
  | interpreted_program name q i data : absolute name = true -> leads [] (path_names name) q -> program_at q i data ->
      take 2 data <> bstr "#!" -> interpreted rule name [] q data
  | interpreted_script name q i data word next scripts q' data' : absolute name = true -> leads [] (path_names name) q -> program_at q i data ->
      take 2 data = bstr "#!" -> rule data = Some word -> fsdecode word = Ok next ->
      interpreted rule next scripts q' data' -> interpreted rule name (data :: scripts) q' data'.
End root.

(** ** Interpreter lines *)

(** The interpreter as the code reads it: the first word of the first line. *)
Definition code_rule (data : bytes) : option bytes := head (words [] (drop 2 (first_line data))).

(** The interpreter as the kernel reads it ([load_script] of [fs/binfmt_script.c]): in the
    first 256 bytes of the file, which are padded with zeros, blanks and tabs are skipped;
    the name extends to the next blank, tab, newline or zero, and a script whose name does
    not end there is not executed. *)
Definition blank (c : byte) : bool := (b2z c =? 32) || (b2z c =? 9).
Definition ends_name (c : byte) : bool := blank c || (b2z c =? 10) || (b2z c =? 0).
Fixpoint skip (p : byte -> bool) (l : bytes) : bytes := match l with c :: t => if p c then skip p t else l | [] => [] end.
Fixpoint until (p : byte -> bool) (l : bytes) : bytes := match l with c :: t => if p c then [] else c :: until p t | [] => [] end.
Definition kernel_rule (data : bytes) : option bytes :=
  let rest := skip blank (drop 2 (take 256 data)) in
  let name := until ends_name rest in
  if bool_decide (name = []) || (bool_decide (name = rest) && (256 <=? zlen data)) then None else Some name.

(** A line both read alike: it ends within the 256 bytes, at a newline or with the file, and
    holds none of the bytes that only the code (carriage return, vertical tab, form feed)
    or only the kernel (zero) takes for the end of a name. *)
Definition newline (c : byte) : bool := b2z c =? 10.
Definition odd_byte (c : byte) : bool := bool_decide (b2z c ∈ [0; 11; 12; 13]).
Definition plain_line (data : bytes) : Prop :=
  (length (until newline (drop 2 data)) < 254)%nat /\ forallb (fun c => negb (odd_byte c)) (until newline (drop 2 data)) = true.

(** Bytes of such a line. *)
Definition plain_byte (c : byte) : Prop := odd_byte c = false /\ newline c = false.

Lemma plain_byte_classes c : plain_byte c -> is_space (b2z c) = blank c /\ line_end c = false /\ ends_name c = blank c.
Proof.
  intros [Ho Hn]. unfold odd_byte in Ho. apply bool_decide_eq_false in Ho. unfold newline in Hn. apply Z.eqb_neq in Hn.
  assert (b2z c <> 0 /\ b2z c <> 11 /\ b2z c <> 12 /\ b2z c <> 13) as (H0 & H1 & H2 & H3) by (repeat split; intros E; apply Ho; rewrite E; set_solver).
  unfold is_space, in_range, line_end, ends_name, blank. split_and!; repeat match goal with |- context [?x =? ?y] => destruct (Z.eqb_spec x y) end;
    simpl; try done; try lia; destruct (9 <=? b2z c) eqn:E1, (b2z c <=? 13) eqn:E2; simpl; try done; lia.
Qed.

Lemma until_split p l : exists rest, l = until p l ++ rest /\ (rest = [] \/ exists c t, rest = c :: t /\ p c = true).
Proof.
  induction l as [|c l (rest & Hl & Hr)]; [exists []; auto|]. simpl. destruct (p c) eqn:Hc; [exists (c :: l); eauto 6|].
  exists rest. split; [|done]. simpl. by rewrite <-Hl.
Qed.

Lemma until_none p l : Forall (fun c => p c = false) (until p l).
Proof. induction l as [|c l IH]; simpl; [done|]. destruct (p c) eqn:Hc; [constructor|by constructor]. Qed.

Lemma until_all p l r : Forall (fun c => p c = false) l -> until p (l ++ r) = l ++ until p r.
Proof. induction 1 as [|c l Hc _ IH]; simpl; [done|]. by rewrite Hc, IH. Qed.

Lemma until_ext p q l : Forall (fun c => p c = q c) l -> until p l = until q l.
Proof. induction 1 as [|c l Hc _ IH]; simpl; [done|]. by rewrite Hc, IH. Qed.

Lemma skip_ext p q l : Forall (fun c => p c = q c) l -> skip p l = skip q l.
Proof. induction 1 as [|c l Hc _ IH]; simpl; [done|]. by rewrite Hc, IH. Qed.

Lemma skip_sub p l : exists pre, l = pre ++ skip p l.
Proof. induction l as [|c l [pre IH]]; simpl; [by exists []|]. destruct (p c); [|by exists []]. exists (c :: pre). simpl. by rewrite <-IH. Qed.

Lemma skip_head p l : skip p l = [] \/ exists c t, skip p l = c :: t /\ p c = false.
Proof. induction l as [|c l IH]; simpl; [by left|]. destruct (p c) eqn:Hc; [done|]. right. eauto. Qed.

Lemma skip_app p l r : skip p (l ++ r) = match skip p l with [] => skip p r | s => s ++ r end.
Proof. induction l as [|c l IH]; simpl; [done|]. by destruct (p c). Qed.

(** The first word. *)
Lemma words_cur cur l : cur <> [] -> head (words cur l) = Some (rev cur ++ until (fun c => is_space (b2z c)) l).
Proof.
  revert cur; induction l as [|c l IH]; intros cur Hc; simpl.
  - rewrite app_nil_r. by destruct cur.
  - destruct (is_space (b2z c)); [rewrite app_nil_r; by destruct cur|]. rewrite IH by done. simpl. by rewrite <-app_assoc.
Qed.

Lemma words_head l : head (words [] l) =
  match skip (fun c => is_space (b2z c)) l with [] => None | r => Some (until (fun c => is_space (b2z c)) r) end.
Proof.
  induction l as [|c l IH]; simpl; [done|]. destruct (is_space (b2z c)) eqn:Hc; [done|]. rewrite words_cur by done.
  simpl. by rewrite Hc.
Qed.

Lemma plain_line_bytes data : plain_line data -> Forall plain_byte (until newline (drop 2 data)).
Proof.
  intros [_ Hf]. pose proof (until_none newline (drop 2 data)) as Hn. rewrite list.Forall_forall in *. intros c Hc. split; [|auto].
  rewrite forallb_elem in Hf. by apply negb_true_iff, Hf.
Qed.

(** On such a line the two rules name the same interpreter. *)
Lemma rules_agree data : take 2 data = bstr "#!" -> plain_line data -> kernel_rule data = code_rule data.
Proof.
  intros Hs Hp. pose proof (plain_line_bytes data Hp) as Hb. destruct Hp as [Hlen _].
  assert (exists d, data = bstr "#!" ++ d) as [d ->] by (exists (drop 2 data); by rewrite <-Hs, take_drop).
  change (drop 2 (bstr "#!" ++ d)) with d in *.
  unfold code_rule, kernel_rule. change (drop 2 (first_line (bstr "#!" ++ d))) with (first_line d).
  change (drop 2 (take 256 (bstr "#!" ++ d))) with (take 254 d).
  destruct (until_split newline d) as (rest & Hd & Hrest). set (L := until newline d) in *.
  assert (Forall (fun c => is_space (b2z c) = blank c /\ line_end c = false /\ ends_name c = blank c) L) as Hc
    by (eapply list.Forall_impl; [exact Hb|]; apply plain_byte_classes).
  assert (first_line d = L) as ->.
  { assert (forall l, first_line l = until line_end l) as Hfl by (induction l as [|c l IH]; simpl; [done|]; by rewrite IH).
    rewrite Hfl, Hd, until_all by (eapply list.Forall_impl; [exact Hc|]; tauto).
    destruct Hrest as [->|(c & t & -> & Hn)]; simpl; [by rewrite app_nil_r|].
    unfold newline in Hn. unfold line_end. rewrite Hn. simpl. by rewrite app_nil_r. }
  rewrite words_head. rewrite (skip_ext _ blank L) by (eapply list.Forall_impl; [exact Hc|]; tauto).
  assert (take 254 d = L ++ take (254 - length L) rest) as -> by (rewrite Hd at 1; rewrite take_app_ge by lia; done).
  set (nl := take (254 - length L) rest). rewrite skip_app.
  destruct (skip_sub blank L) as [pre Hpre]. pose proof (skip_head blank L) as Hh. set (r := skip blank L) in *.
  assert (Forall (fun c => is_space (b2z c) = blank c /\ line_end c = false /\ ends_name c = blank c) r) as Hr
    by (rewrite Hpre in Hc; by apply Forall_app in Hc as [_ ?]).
  assert (rest = [] /\ nl = [] \/ exists c t, nl = c :: t /\ newline c = true) as Hnl.
  { unfold nl. destruct Hrest as [->|(c & t & -> & Hn)]; [left; by rewrite take_nil|right].
    destruct (254 - length L)%nat eqn:E; [lia|]. simpl. eauto. }
  destruct Hh as [Hr0|(c & t & Hr0 & Hcb)].
  - rewrite Hr0. destruct Hnl as [[_ ->]|(c & t & -> & Hn)]; [done|]. unfold newline in Hn. apply Z.eqb_eq in Hn.
    assert (skip blank (c :: t) = c :: t) as -> by (simpl; unfold blank at 1; by rewrite Hn).
    assert (until ends_name (c :: t) = []) as -> by (simpl; unfold ends_name, blank; by rewrite Hn). done.
  - assert (until ends_name (r ++ nl) = until (fun c => is_space (b2z c)) r) as Hname.
    { destruct (until_split ends_name r) as (more & Hm & Hmore).
      rewrite (until_ext _ ends_name r) by (eapply list.Forall_impl; [exact Hr|]; intros x (E1 & _ & E2); congruence).
      rewrite Hm at 1. rewrite <-app_assoc, until_all by apply until_none.
      destruct Hmore as [->|(x & y & -> & Hx)]; simpl; [|rewrite Hx; by rewrite app_nil_r].
      destruct Hnl as [[_ ->]|(x & y & -> & Hn)]; simpl; [by rewrite app_nil_r|]. unfold ends_name. unfold newline in Hn.
      rewrite Hn, orb_true_r. by rewrite app_nil_r. }
    rewrite Hr0 in *. rewrite Hname. assert (is_space (b2z c) = false) as Hsp by (apply Forall_cons_iff in Hr as [[-> _] _]; done).
    set (name := until _ (c :: t)) in *. assert (name <> []) as Hne by (unfold name; simpl; by rewrite Hsp).
    rewrite (bool_decide_eq_false_2 (name = [])) by done. cbn [orb].
    destruct (_ && _) eqn:Hx; [exfalso|done].
    apply andb_true_iff in Hx as [Hx Hz]. apply bool_decide_eq_true in Hx. apply Z.leb_le in Hz.
    destruct Hnl as [[-> _]|(x & y & -> & _)].
    + rewrite app_nil_r in Hd. rewrite zlen_app in Hz. change (zlen (bstr "#!")) with 2 in Hz. rewrite Hd in Hz. unfold zlen in Hz. lia.
    + destruct (until_split (fun c => is_space (b2z c)) (c :: t)) as (more & Hm & _). fold name in Hm.
      apply (f_equal length) in Hx, Hm. rewrite !length_app in *. simpl in *. lia.
Qed.

Lemma interpreted_kernel f loc name scripts q data : interpreted f loc code_rule name scripts q data ->
  Forall plain_line scripts -> interpreted f loc kernel_rule name scripts q data.
Proof.
  induction 1 as [name q i data Ha Hl Hp Hn|name q i data word next scripts q' data' Ha Hl Hp Hs Hw Hf _ IH]; intros Hc.
  - by eapply interpreted_program.
  - apply Forall_cons_iff in Hc as [Hd Hc]. eapply interpreted_script; try done; [|by apply IH]. by rewrite rules_agree.
Qed.

(** A little-endian 64-bit ELF file for x86-64. *)
Definition x86_64_image (data : bytes) : Prop :=
  20 <= zlen data /\ take 5 data = [x7f; x45; x4c; x46; x02] /\ le_int (slice 5 6 data) = 1 /\ le_int (slice 18 20 data) = 62.

Lemma elf_x86_64_ok data : elf_x86_64 data = true -> x86_64_image data.
Proof. unfold elf_x86_64. rewrite negb_true_iff, !orb_false_iff, !negb_false_iff, bool_decide_eq_true, !Z.eqb_eq, Z.ltb_ge. intros (((? & ?) & ?) & ?). done. Qed.

Section walk.
Context `{machine} (Hquiet : quiet) (f : fs) (Hwf : fs_wf f) (loc : path) (root_fd : Z).
Context (Hroot : names f !! loc = Some root_fd) (Hdir : is_dir_at f loc = true).

(** The open directories are those above what has been resolved. *)
Inductive opened : list pystr -> list Z -> Prop :=
  | opened_root : opened [] [root_fd]
  | opened_in p c ds i n : opened p ds -> present f loc (p ++ [c]) i n -> i_kind n = KDir -> opened (p ++ [c]) (ds ++ [i]).

Lemma opened_last p ds : opened p ds -> exists n, present f loc p (List.last ds 0) n /\ i_kind n = KDir.
Proof.
  intros [|p' c ds' i n _ Hn Hk].
  - apply is_dir_kind in Hdir as (i & n & Hn & Hk). pose proof (node_at_nodes _ _ _ _ Hn) as [Hi _]. rewrite Hroot in Hi. injection Hi as <-.
    exists n. unfold present. by rewrite app_nil_r.
  - exists n. by rewrite last_last.
Qed.

Lemma opened_up p c ds : opened (p ++ [c]) ds -> opened p (removelast ds).
Proof.
  intros Ho. inversion Ho as [Heq|p' c' ds' i n Ho' Hn Hk Heq]; [by destruct p|].
  apply app_inj_tail in Heq as [-> _]. by rewrite removelast_last.
Qed.

Lemma opened_length p ds : opened p ds -> length ds = S (length p).
Proof. induction 1 as [|p c ds i n _ IH _ _]; [done|]. rewrite !length_app, IH. simpl. lia. Qed.

(** One name of an open directory. *)
Lemma obs_openat p ds c : opened p ds -> mem c (strs [""; "."]) = false -> c <> str ".." ->
  observes f (query (fun f => fs_openat_path f (List.last ds 0) c)) (fun i => plain_name c = true /\ exists n, present f loc (p ++ [c]) i n).
Proof.
  intros Ho Hc Hup. destruct (opened_last p ds Ho) as (n & Hn & Hk). eapply obs_conseq; [by apply obs_query|]. intros i. cbv beta. unfold fs_openat_path.
  pose proof (present_named _ _ _ _ _ Hn) as [Hnm Hno]. rewrite Hno, Hk.
  assert (is_dir_at f (loc ++ p) = true) as Hd by (apply is_dir_kind; eauto). rewrite (location_of_dir f Hwf (loc ++ p)) by done.
  assert (plain_name c = true) as Hp.
  { apply negb_true_iff, mem_not_elem. apply mem_not_elem in Hc. unfold strs in *. cbn [map] in *. set_solver. }
  assert (plain_path ((loc ++ p) ++ [c])) as Hpl by (apply plain_app; split; [by eapply named_plain|by constructor]).
  rewrite (resolve_child f (loc ++ p) c Hpl) by (by apply dir_real). cbn [mbind]. destruct (node_at f ((loc ++ p) ++ [c])) as [[j m]|] eqn:Hm; [|done].
  intros [= <-]. split; [done|]. exists m. unfold present. by rewrite app_assoc.
Qed.

(** *** Links *)

Lemma obs_readlink i n t : nodes f !! i = Some n -> i_kind n = KLink t -> observes f (_readlink_descriptor i) (fun target => link_text t = Ok target).
Proof.
  intros Hn Hk. unfold _readlink_descriptor. eapply (obs_bind f _ (fun raw => fsencode t = Ok raw)).
  - apply (obs_while f _ (fun _ => True)); [|done]. intros size _. unfold readlink_turn. destruct (size <=? 2 ^ 20); [|apply obs_raise].
    eapply obs_bind; [by apply obs_query|]. intros raw Hr. cbv beta in Hr. unfold fs_readlinkat in Hr. rewrite Hn, Hk in Hr. inv_ok. apply obs_ret.
    destruct (zlen (take (Z.to_nat size) a) <? size) eqn:Hlt; [|done]. rewrite take_ge; [done|]. apply Z.ltb_lt in Hlt. unfold zlen in Hlt. rewrite length_take in Hlt. lia.
  - intros raw Hr. eapply obs_conseq; [apply obs_lift|]. intros target Ht. unfold link_text. by rewrite Hr.
Qed.

Lemma looks_to_root p ds : opened p ds -> looks f ds (swhile to_root_turn tt) (fun _ ds' => ds' = [root_fd]).
Proof.
  intros Ho. apply (looks_while f to_root_turn (fun _ ds => exists p, opened p ds)); [|eauto]. clear p ds Ho. intros u ds [p Ho]. unfold to_root_turn.
  pose proof (opened_length p ds Ho) as Hl. unfold looks. destruct (1 <? zlen ds) eqn:Hlt.
  - match goal with |- observes _ (?b _) _ => change (looks f ds b (fun (r : unit + unit) ds' => match r with inl _ => exists p, opened p ds' | inr _ => ds' = [root_fd] end)) end.
    apply looks_assign. eapply looks_call; [by eapply obs_any, obs_query|]. intros _ _. apply looks_value.
    destruct p as [|c p _] using rev_ind; [unfold zlen in Hlt; by rewrite Hl in Hlt|]. exists p. by eapply opened_up.
  - apply obs_ret. cbn [fst snd]. destruct Ho as [|p c ds' i n Ho _ _]; [done|]. rewrite length_app in Hl. apply opened_length in Ho. unfold zlen in Hlt.
    rewrite length_app in Hlt. apply Z.ltb_ge in Hlt. simpl in *. lia.
Qed.

(** *** The loop *)

Section from.
Context (names0 : list pystr).

Definition following (s : walk_state) (ds : list Z) : Prop :=
  opened (resolved s) ds /\ forall q, leads f loc (resolved s) (pending s) q -> leads f loc [] names0 q.
Definition arrived (r : Z * pystr) (ds : list Z) : Prop :=
  exists q data, leads f loc [] names0 q /\ program_at f loc q r.1 data /\ r.2 = join_with SLASH q.

Lemma looks_follow s c rest ds i n t : following s ds -> pending s = c :: rest -> plain_name c = true -> present f loc (resolved s ++ [c]) i n ->
  i_kind n = KLink t -> looks f ds (follow_link s rest i) following.
Proof.
  intros [Ho Hq] Hp Hc Hn Hk. unfold follow_link. destruct (40 <? links s + 1).
  { eapply looks_call; [by eapply obs_any, obs_query|]. intros _ _. apply looks_raise. }
  pose proof (present_named _ _ _ _ _ Hn) as [_ Hno]. eapply looks_call; [by apply (obs_readlink i n t)|]. intros target Ht.
  eapply looks_call; [by eapply obs_any, obs_query|]. intros _ _.
  assert (forall q, leads f loc (if absolute target then [] else resolved s) (path_names target ++ rest) q -> leads f loc [] names0 q) as Hgo.
  { intros q Hl. apply Hq. rewrite Hp. by apply (leads_link f loc (resolved s) c rest q i n t target). }
  unfold path_names, absolute in Hgo. cbv zeta. destruct (startswith target (str "/")).
  - eapply looks_bind; [by apply (looks_to_root (resolved s))|]. intros u ds' ->. apply looks_value. split; [apply opened_root|done].
  - apply looks_value. by split.
Qed.

Lemma obs_open_exact i n names : nodes f !! i = Some n -> observes f (open_exact i (stat_of i n) names)
  (fun r => exists data, i_kind n = KFile data /\ Z.land (st_mode (stat_of i n)) 0x49 <> 0 /\ r = (i, join_with SLASH names)).
Proof.
  intros Hn. unfold open_exact. destruct (negb (s_isreg _) || _) eqn:Hx.
  { eapply obs_bind; [by eapply obs_any, obs_query|]. intros _ _. apply obs_raise. }
  apply orb_false_iff in Hx as [Hreg Hx]. apply negb_false_iff in Hreg. apply Z.eqb_neq in Hx.
  eapply obs_bind; [by apply obs_query|]. intros exact Hex. cbv beta in Hex. unfold fs_held_open, held_node in Hex. rewrite Hn in Hex. injection Hex as <-.
  eapply obs_bind; [by eapply obs_any, obs_query|]. intros info _. eapply obs_bind; [by eapply obs_any, obs_query|]. intros _ _. destruct (negb _).
  - eapply obs_bind; [by eapply obs_any, obs_query|]. intros _ _. apply obs_raise.
  - apply obs_ret. destruct (s_isreg_kind i n Hreg) as [data Hk]. by exists data.
Qed.

Lemma looks_component s c rest ds : following s ds -> pending s = c :: rest -> mem c (strs [""; "."]) = false -> c <> str ".." ->
  looks f ds (component_turn s c rest) (fun r ds' => match r with inl s' => following s' ds' | inr x => arrived x ds' end).
Proof.
  intros Hs Hp Hc Hup. pose proof Hs as [Ho Hq]. unfold component_turn. read_variables.
  eapply looks_call; [by apply (obs_openat (resolved s))|]. intros i (Hpl & n & Hn). pose proof (present_named _ _ _ _ _ Hn) as [_ Hno].
  eapply (looks_call f _ _ _ (fun info => info = stat_of i n)).
  { eapply obs_conseq; [by apply obs_query|]. intros info. cbv beta. unfold fs_fstat. rewrite Hno. by intros [= <-]. }
  intros info ->. destruct (s_islnk _) eqn:Hlnk.
  { apply s_islnk_kind in Hlnk as [t Hk]. eapply looks_bind; [by eapply looks_follow|]. intros s' ds' Hs'. by apply looks_value. }
  assert (not_link (i_kind n)) as Hnl.
  { unfold s_islnk in Hlnk. rewrite s_ifmt_stat in Hlnk. by destruct (i_kind n). }
  cbv zeta. destruct rest as [|r rest].
  - eapply looks_call; [by apply (obs_open_exact i n)|]. intros x (data & Hk & Hx & ->). apply looks_value. exists (resolved s ++ [c]), data.
    split_and!; [|by exists n|done]. apply Hq. rewrite Hp. apply (leads_in f loc (resolved s) c [] _ i n); [done|done|done|done|apply leads_here].
  - destruct (s_isdir _) eqn:Hd; cbn [negb].
    + apply s_isdir_kind in Hd. apply looks_assign, looks_value. split; [by eapply opened_in|]. cbn [resolved pending]. intros q Hl. apply Hq. rewrite Hp.
      by apply (leads_in f loc (resolved s) c (r :: rest) q i n).
    + eapply looks_call; [by eapply obs_any, obs_query|]. intros _ _. apply looks_raise.
Qed.

Lemma looks_walk_turn s ds : following s ds ->
  looks f ds (walk_turn s) (fun r ds' => match r with inl s' => following s' ds' | inr x => arrived x ds' end).
Proof.
  intros Hs. unfold walk_turn. destruct (pending s) as [|c rest] eqn:Hp; [apply looks_raise|]. destruct (mem c (strs [""; "."])) eqn:Hc.
  { apply looks_value. destruct Hs as [Ho Hq]. split; [done|]. intros q Hl. apply Hq. rewrite Hp. by apply leads_skip. }
  destruct (str_eqb c (str "..")) eqn:Hup; [|apply str_eqb_neq in Hup; by apply looks_component]. apply str_eqb_eq in Hup as ->.
  destruct Hs as [Ho Hq]. destruct (resolved s) as [|y l] eqn:Hr; [apply looks_raise|].
  destruct (exists_last (l := y :: l)) as (p & x & Hy); [done|]. rewrite Hy in *. read_variables.
  apply looks_assign. eapply looks_call; [by eapply obs_any, obs_query|]. intros _ _. apply looks_value. rewrite removelast_last.
  split; cbn [resolved pending]; [by eapply opened_up|]. intros q Hl. apply Hq. rewrite Hp. by apply leads_up.
Qed.
End from.

Lemma obs_resolve name : observes f (resolve_in_root root_fd name)
  (fun r => absolute name = true /\ exists q data, leads f loc [] (path_names name) q /\ program_at f loc q r.1 data /\ r.2 = join_with SLASH q).
Proof.
  unfold resolve_in_root. eapply obs_bind; [apply obs_raise_if|]. intros u Ha. apply orb_false_iff in Ha as [Ha _]. apply negb_false_iff in Ha.
  eapply (obs_bind f _ (fun root => root = root_fd)).
  { eapply obs_conseq; [by apply obs_query|]. intros root. cbv beta. destruct (fs_fstat f root_fd); [by intros [= <-]|done]. }
  intros root ->. eapply obs_bind.
  { apply (looks_while f walk_turn (following (path_names name)) (arrived (path_names name))); [intros s ds; apply looks_walk_turn|].
    split; [apply opened_root|]. cbn [resolved pending]. unfold path_names, absolute. by rewrite Ha. }
  intros [ds [x|e]] Hx; cbn [fst snd] in *; (eapply obs_bind; [apply Keeps.keeps_observes; unfold close; Keeps.keeps_tac|]); intros u2 _.
  - apply obs_ret. by split.
  - apply obs_reraise.
Qed.

Lemma obs_stable_bytes i n data : nodes f !! i = Some n -> i_kind n = KFile data -> observes f (stable_bytes i) (fun d => d = data).
Proof.
  intros Hn Hk. unfold stable_bytes. eapply obs_bind; [by eapply obs_any, obs_query|]. intros before _.
  eapply obs_bind; [by eapply (MaterializeSafe.obs_pread_loop Hquiet)|]. intros d ->. eapply obs_bind; [by eapply obs_any, obs_query|]. intros after _.
  eapply obs_bind; [apply obs_raise_if|]. intros u _. by apply obs_ret.
Qed.

Lemma obs_executable depth name : observes f (executable root_fd name depth) (fun r =>
  exists scripts q, interpreted f loc code_rule name scripts q r.2 /\ r.1 = join_with SLASH q).
Proof.
  revert name; induction depth as [|depth IH]; intros name; cbn [executable]; [apply obs_raise|].
  eapply obs_bind; [apply obs_resolve|]. intros [i text] (Ha & q & data & Hl & Hp & Ht). cbn [fst snd] in *. pose proof Hp as (n & Hn & Hk & _).
  apply present_named in Hn as [_ Hn].
  eapply obs_bind; [apply obs_finally; [by eapply obs_stable_bytes|by eapply obs_any, obs_query]|]. intros d ->. case_bool_decide as Hs.
  - destruct (words _ _) as [|word more] eqn:Hw; [apply obs_raise|]. eapply obs_bind; [apply obs_lift|]. intros next Hnext.
    eapply obs_conseq; [apply IH|]. intros r (scripts & q' & Hi & Hr). exists (data :: scripts), q'. split; [|done].
    apply (interpreted_script f loc code_rule name q i data word next); try done. unfold code_rule. by rewrite Hw.
  - apply obs_ret. exists [], q. split; [|done]. by apply (interpreted_program f loc code_rule name q i data).
Qed.
End walk.

(** ** The program *)

Definition json_text (f : fs) (p : path) (v : pyval) : Prop :=
  exists fd data text, fs_open false false f p = Ok fd /\ fs_read f fd = Ok data /\ utf8_decode Strict data = Ok text /\ loads strict_object float_constant text = Ok v.

(** What an accepted image is. *)
Definition image_ok (f : fs) (root : Publish.directory_ref) (config_path bootstrap_path : path) (record : pyval) : Prop :=
  exists loc config bootstrap process args name scripts q data,
    ref_location f root = Ok loc /\ json_text f config_path config /\ json_text f bootstrap_path bootstrap /\
    getitem config (str "process") = Ok process /\ getitem process (str "args") = Ok args /\ first_item args = Ok (VStr name) /\
    val_get bootstrap (str "architecture") = Ok (VStr (str "amd64")) /\
    interpreted f loc code_rule name scripts q data /\
    (Forall plain_line scripts -> interpreted f loc kernel_rule name scripts q data) /\ x86_64_image data /\
    exists manifest release required features,
      getitem bootstrap (str "manifest_sha256") = Ok manifest /\ getitem bootstrap (str "kernel_release") = Ok release /\
      getitem bootstrap (str "required_config") = Ok required /\ getitem bootstrap (str "oci_features") = Ok features /\
      record = VDict [(str "architecture", VStr (str "amd64")); (str "entrypoint", VStr name);
                      (str "resolved_entrypoint", VStr (str "/" ++ join_with SLASH q)); (str "entrypoint_sha256", VStr (sha256 data));
                      (str "kernel_manifest_sha256", manifest); (str "kernel_release", release);
                      (str "required_kernel_config", required); (str "supported_oci_features", features)].

Lemma obs_json_file `{machine} (Hquiet : quiet) f p : observes f (json_file p) (json_text f p).
Proof.
  unfold json_file. eapply obs_bind; [by apply obs_read_bytes|]. intros data (fd & Ho & Hd). eapply obs_bind; [apply obs_lift|]. intros text Ht.
  eapply obs_conseq; [apply obs_lift|]. intros v Hv. by exists fd, data, text.
Qed.

Lemma entrypoint_spec config v : entrypoint_of config = Ok v ->
  exists process args, getitem config (str "process") = Ok process /\ getitem process (str "args") = Ok args /\ first_item args = Ok v.
Proof.
  unfold entrypoint_of. destruct (getitem config (str "process")) as [process|e]; cbn [mbind]; [|by case_bool_decide].
  destruct (getitem process (str "args")) as [args|e] eqn:Ha; cbn [mbind]; [|by case_bool_decide].
  destruct (first_item args) as [x|e] eqn:Hx; [|by case_bool_decide]. intros [= <-]. by exists process, args.
Qed.

Lemma obs_validate_image `{machine} (Hquiet : quiet) f root config_path bootstrap_path : fs_wf f -> root_named f root ->
  observes f (validate root config_path bootstrap_path) (image_ok f root config_path bootstrap_path).
Proof.
  intros Hwf Hroot. unfold validate. eapply obs_bind; [by apply obs_os_error_as, obs_open_directory|]. intros root_fd (loc & n & Hloc & Hn & Hk).
  assert (is_dir_at f loc = true) as Hd by (apply is_dir_kind; eauto). apply node_at_nodes in Hn as [Hn _].
  apply obs_finally; [|by eapply obs_any, obs_query]. unfold _validate_held.
  eapply obs_bind; [by apply obs_json_file|]. intros config Hc. eapply obs_bind; [by apply obs_json_file|]. intros bootstrap Hb.
  eapply obs_bind; [apply obs_lift|]. intros architecture Ha. eapply obs_bind; [apply obs_raise_if|]. intros u1 Ha2.
  eapply obs_bind; [apply obs_lift|]. intros entrypoint (process & args & Hp & Hg & Hf)%entrypoint_spec.
  eapply obs_bind; [apply obs_lift|]. intros name Hname. unfold name_text in Hname. destruct entrypoint as [| | | |name'| |]; try done. injection Hname as ->.
  eapply obs_bind; [by apply (obs_executable Hquiet f Hwf loc root_fd Hn Hd)|]. intros [resolved data] (scripts & q & Hi & Hr). cbn [fst snd] in *. subst resolved.
  eapply obs_bind; [apply obs_raise_if|]. intros u2 He. apply negb_false_iff, elf_x86_64_ok in He.
  eapply obs_bind; [apply obs_lift|]. intros manifest Hm. eapply obs_bind; [apply obs_lift|]. intros release Hrel.
  eapply obs_bind; [apply obs_lift|]. intros required Hreq. eapply obs_bind; [apply obs_lift|]. intros features Hfea. cbv beta in *.
  apply obs_ret. exists loc, config, bootstrap, process, args, name, scripts, q, data. split_and!; try done.
  - apply negb_false_iff, py_eq_str in Ha2. by subst architecture.
  - by apply interpreted_kernel.
  - by exists manifest, release, required, features.
Qed.

(** C39. On a machine where no other process runs, validation changes nothing, and when it
    returns: the entrypoint of the configuration is an absolute path that, following every
    symbolic link inside the container's root and never leaving it, leads to an executable
    regular file of the root; that file, or the one its chain of interpreter lines ends
    with, is a little-endian x86-64 ELF image, and the record has its path in the root, the
    digest of its content, and the values of the kernel's manifest.  The interpreter lines
    are read as the code reads them; where every script of the chain has a line that the
    kernel reads alike ([plain_line]: within the 256 bytes the kernel looks at, without
    carriage return, vertical tab, form feed or zero byte), the file is the one the kernel
    would run.  For another line it need not be: see [carriage_return_misread].  The root is
    given by a path, or as an inherited descriptor whose directory still has a name. *)
Theorem validated_entrypoint `{machine} (Hquiet : quiet) root config_path bootstrap_path w :
  fs_wf (w_fs w) -> root_named (w_fs w) root ->
  match validate root config_path bootstrap_path w with
  | (Ok record, w') => w_fs w' = w_fs w /\ image_ok (w_fs w) root config_path bootstrap_path record
  | (Err _, w') => w_fs w' = w_fs w
  end.
Proof. intros Hwf Hroot. by apply (obs_validate_image Hquiet). Qed.
End ImageSafe.
