(* ===== verification/ImageRun.v ===== *)
(** * An entrypoint, validated

    The entrypoint is an absolute link to a script whose interpreter is an ELF file. *)
From Stdlib Require Import ZArith Lia.
From Stdlib Require Import Init.Byte.
From stdpp Require Import base list sets strings option gmap.
From S2P Require Import Prelude PyStr PyVal Bytes Json Sys Held FsRules Publish RootfsScanSafe RootfsRun Image ImageSafe.

Open Scope string_scope.
Open Scope list_scope.
Open Scope Z_scope.

Module ImageRun.
Import RootfsScanSafe RootfsRun ImageSafe.

Definition json (v : pyval) : bytes := ascii_bytes (dumps no_floats plain v).
Definition config_of (args : pyval) : pyval := VDict [(str "process", VDict [(str "args", args)])].
Definition kernel : pyval :=
  VDict [(str "architecture", VStr (str "amd64")); (str "manifest_sha256", VStr (str "00")); (str "kernel_release", VStr (str "6.1"));
         (str "required_config", VDict []); (str "oci_features", VList [])].
Definition elf : bytes := [x7f; x45; x4c; x46; x02; x01] ++ repeat x00 12 ++ [x3e; x00].

Definition container (args : pyval) : fs :=
  FS (list_to_map [([], 1); ([str "r"], 2); (strs ["r"; "bin"], 3); (strs ["r"; "lib"], 4); (strs ["r"; "bin"; "app"], 5);
                   (strs ["r"; "lib"; "run"], 6); (strs ["r"; "bin"; "sh"], 7); ([str "config"], 8); ([str "kernel"], 9)])
     (list_to_map [(1, node KDir 0x1ED 2 []); (2, node KDir 0x1ED 2 []); (3, node KDir 0x1ED 2 []); (4, node KDir 0x1ED 2 []);
                   (5, node (KLink (str "/lib/../lib/run")) 0x1FF 1 []); (6, node (KFile (bstr "#! /lib/../bin/sh -e")) 0x1ED 1 []);
                   (7, node (KFile elf) 0x1ED 1 []); (8, node (KFile (json (config_of args))) 0x1A4 1 []);
                   (9, node (KFile (json kernel)) 0x1A4 1 [])])
     10 7.
Definition container_start : world := World (container (VList [VStr (str "/bin/app")])) 0.
(** The root as the build script passes it: an inherited descriptor. *)
Definition container_root : Publish.directory_ref := Publish.ProcFd 2.
Definition image_run (w : world) : res pyval * world := @validate here container_root [str "config"] [str "kernel"] w.

Definition resolves_to (p : pystr) (r : res pyval * world) : bool :=
  match r.1 with Ok (VDict d) => get d (str "resolved_entrypoint") == VStr p | _ => false end.

Lemma container_wf : fs_wf (w_fs container_start).
Proof. apply fs_wfb_ok. vm_cast_no_check (@eq_refl bool true). Qed.

Lemma image_run_ok : resolves_to (str "/bin/sh") (image_run container_start) = true.
Proof. vm_cast_no_check (@eq_refl bool true). Qed.

Lemma container_named : root_named (w_fs container_start) container_root.
Proof. exists [str "r"]. vm_compute. reflexivity. Qed.

Lemma validated_entrypoint_witness : exists record,
  resolves_to (str "/bin/sh") (Ok record, container_start) = true /\
  image_ok (w_fs container_start) container_root [str "config"] [str "kernel"] record.
Proof.
  pose proof image_run_ok as Hok. pose proof container_wf as Hwf. pose proof container_named as Hn. unfold image_run in Hok.
  revert Hok Hwf Hn. generalize container_start. intros w Hok Hwf Hn.
  pose proof (@validated_entrypoint here (lone_quiet _ _) container_root [str "config"] [str "kernel"] w Hwf Hn) as Ht.
  destruct (@validate here _ _ _ w) as [[record|e] w']; [|discriminate Hok]. exists record. split; [exact Hok|apply Ht].
Defined.

(** The script of that container has a plain line. *)
Lemma container_line : plain_line (bstr "#! /lib/../bin/sh -e").
Proof. split; vm_compute; [lia|reflexivity]. Qed.

(** A script with a carriage return before the newline: the code reads [/bin/sh] and vouches
    for that file; the kernel looks for a file whose name ends in the carriage return. *)
Definition dos_script : bytes := bstr "#!/bin/sh" ++ [x0d; x0a].
Definition dos_container : fs :=
  let f := container (VList [VStr (str "/lib/run")]) in
  FS (names f) (<[6 := node (KFile dos_script) 0x1ED 1 []]> (nodes f)) (fresh f) (now f).

Lemma carriage_return_misread :
  code_rule dos_script = Some (bstr "/bin/sh") /\ kernel_rule dos_script = Some (bstr "/bin/sh" ++ [x0d]) /\
  resolves_to (str "/bin/sh") (image_run (World dos_container 0)) = true.
Proof. split_and!; vm_compute; reflexivity. Qed.

(** A first argument that is not text ends in an exception that [main] does not catch. *)
Lemma number_escapes : @main here no_floats (Publish.AtPath [str "r"]) [str "config"] [str "kernel"]
  (World (container (VList [VInt 1])) 0) = (raise AttributeError "no attribute 'startswith'", World (container (VList [VInt 1])) 9).
Proof. vm_compute. reflexivity. Qed.
End ImageRun.
