(* ===== verification/DockerConfig.v ===== *)
(** * The container engine's configuration (scripts/merge-runtime-docker-config.py)

    The runtime is added to, or removed from, the configuration of the container engine,
    and everything else in it is left as it is. *)
From Stdlib Require Import ZArith Lia.
From Stdlib Require Import Init.Byte.
From stdpp Require Import base list sets strings option gmap.
From S2P Require Import Prelude PyStr PyVal Bytes Json Sys.

Open Scope string_scope.
Open Scope list_scope.
Open Scope Z_scope.

Module DockerConfig.

Definition RUNTIME : pystr := str "io.containerd.multikernel.v2".
Definition ENTRY : pyval := VDict [(str "runtimeType", VStr RUNTIME)].

Definition strict_object : dict -> res dict := strict_pairs ConfigError "duplicate JSON key" [].
Definition parse_constant (_ : pyfloat) : res pyval := raise ConfigError "invalid number".

(** An entry of the same name that is not the runtime's own. *)
Definition conflicts (existing : pyval) : bool := match existing with VNone => false | _ => negb (existing == ENTRY) end.

Definition merge (value : dict) (remove enable_live_restore : bool) : res dict :=
  match get_or value (str "runtimes") (VDict []) with
  | VDict runtimes =>
      raise_if (conflicts (get runtimes RUNTIME)) ConfigError
        (if remove then "refusing to remove a conflicting Multikernel runtime entry" else "conflicting Multikernel runtime entry already exists") ;;
      let runtimes := if remove then ddel RUNTIME runtimes else dset RUNTIME ENTRY runtimes in
      let value := match runtimes with [] => ddel (str "runtimes") value | _ => dset (str "runtimes") (VDict runtimes) value end in
      if enable_live_restore then
        match get value (str "live-restore") with
        | VNone | VBool true => Ok (dset (str "live-restore") (VBool true) value)
        | _ => raise ConfigError "conflicting Docker live-restore setting already exists"
        end
      else Ok value
  | _ => raise ConfigError "Docker runtimes must be an object"
  end.

Section docker_config.
Context `{machine}.

(** [path.read_text] decodes UTF-8; a carriage return is blank for the scanner as the line
    feed that it is translated to. *)
Definition load (p : path) : M dict :=
  let* present := exists_ p in
  if negb present then mret []
  else
    let* value := mcatch
      (let* data := read_bytes p in
       let* text := lift (utf8_decode Strict data) in
       lift (loads strict_object parse_constant text))
      (fun e => if is_os_error (exn_cls e) || bool_decide (exn_cls e ∈ [UnicodeError; JSONDecodeError])
                then mraise ConfigError "invalid Docker configuration" else reraise e) in
    match value with VDict d => mret d | _ => mraise ConfigError "Docker configuration must be a JSON object" end.

(** [args.output.open("x")] and one write; [float_text] is the text of a finite float. *)
Definition write_new (p : path) (data : bytes) : M unit :=
  let* fd := create_excl 0x1B6 p in mfinally (write_fd fd data) (close fd).

Definition main (float_text : pyfloat -> pystr) (input output : path) (remove enable_live_restore : bool) : M Z :=
  mcatch
    (let* value := load input in
     let* result := lift (merge value remove enable_live_restore) in
     write_new output (ascii_bytes (dumps float_text indented (VDict result) ++ [10])) ;;;
     mret 0)
    (fun e => if is_os_error (exn_cls e) || bool_decide (exn_cls e = ConfigError) then mret 1 else reraise e).
End docker_config.
End DockerConfig.
