(* ===== verification/DockerConfigSafe.v ===== *)
(** * What merging the configuration changes *)
From Stdlib Require Import ZArith Lia.
From Stdlib Require Import Init.Byte.
From stdpp Require Import base list sets strings option gmap.
From S2P Require Import Prelude PyStr PyVal Bytes Json JsonTrip Sys FsRules Publish PublishPair RootfsScanSafe RootfsRun WriteFile DockerConfig.

Open Scope string_scope.
Open Scope list_scope.
Open Scope Z_scope.

Module DockerConfigSafe.
Import PublishPair RootfsScanSafe RootfsRun WriteFile.
Export DockerConfig.

(** The runtimes a configuration names. *)
Definition runtimes_of (v : dict) : dict := match dget (str "runtimes") v with Some (VDict r) => r | _ => [] end.

(** Only the entry of the runtime, and live restore where it is asked for, differ. *)
Record merged (remove live : bool) (v v' : dict) : Prop := {
  mg_entry : dget RUNTIME (runtimes_of v') = if remove then None else Some ENTRY;
  mg_runtimes : forall k, k <> RUNTIME -> dget k (runtimes_of v') = dget k (runtimes_of v);
  mg_others : forall k, k <> str "runtimes" -> (live = true -> k <> str "live-restore") -> dget k v' = dget k v;
  mg_live : live = true -> dget (str "live-restore") v' = Some (VBool true) }.

(** *** Setting and removing a key *)

Lemma dset_dset k a b d : dset k a (dset k b d) = dset k a d.
Proof. induction d as [|[k' w] d IH]; simpl; [by rewrite str_eqb_refl|]. destruct (k =s k') eqn:E; simpl; rewrite E; [done|]. by rewrite IH. Qed.

Lemma dset_same k a d : dget k d = Some a -> dset k a d = d.
Proof. induction d as [|[k' w] d IH]; simpl; [done|]. destruct (k =s k'); [by intros [= ->]|]. intros Hd. by rewrite IH. Qed.

Lemma ddel_dset k a d : ddel k (dset k a d) = ddel k d.
Proof.
  unfold ddel. induction d as [|[k' w] d IH]; simpl; [by rewrite str_eqb_refl|].
  destruct (k =s k') eqn:E; simpl; rewrite E; simpl; [done|]. by rewrite IH.
Qed.

Lemma ddel_none k d : dget k d = None -> ddel k d = d.
Proof. unfold ddel. induction d as [|[k' w] d IH]; simpl; [done|]. destruct (k =s k'); [done|]. intros Hd. simpl. by rewrite IH. Qed.

Lemma dget_live v k : k <> str "live-restore" -> dget k (dset (str "live-restore") (VBool true) v) = dget k v.
Proof. intros Hk. rewrite dget_dset. by apply str_eqb_neq in Hk as ->. Qed.

(** Putting runtimes back into the configuration. *)
Definition with_runtimes (r v : dict) : dict := match r with [] => ddel (str "runtimes") v | _ => dset (str "runtimes") (VDict r) v end.

Lemma runtimes_with r v : runtimes_of (with_runtimes r v) = r.
Proof. unfold runtimes_of, with_runtimes. destruct r; [by rewrite dget_ddel|by rewrite dget_dset]. Qed.

Lemma others_with r v k : k <> str "runtimes" -> dget k (with_runtimes r v) = dget k v.
Proof. intros Hk. apply str_eqb_neq in Hk. unfold with_runtimes. destruct r; [by rewrite dget_ddel, Hk|by rewrite dget_dset, Hk]. Qed.

(** The steps of a merge. *)
Lemma merge_steps v remove live v' : merge v remove live = Ok v' ->
  exists v1, v1 = with_runtimes (if remove then ddel RUNTIME (runtimes_of v) else dset RUNTIME ENTRY (runtimes_of v)) v /\
    v' = (if live then dset (str "live-restore") (VBool true) v1 else v1) /\
    (dget (str "runtimes") v = None \/ dget (str "runtimes") v = Some (VDict (runtimes_of v))).
Proof.
  unfold merge, get_or, runtimes_of. intros Hm.
  assert (exists r, default (VDict []) (dget (str "runtimes") v) = VDict r /\ match dget (str "runtimes") v with Some (VDict r) => r | _ => [] end = r /\
    (dget (str "runtimes") v = None \/ dget (str "runtimes") v = Some (VDict r))) as (r & Hr & Hr' & Hcase).
  { destruct (dget (str "runtimes") v) as [[]|]; try done; eauto. }
  rewrite Hr in Hm. rewrite Hr'. inv_ok. fold (with_runtimes (if remove then ddel RUNTIME r else dset RUNTIME ENTRY r) v) in Hm.
  eexists. split; [reflexivity|]. split; [|done]. destruct live; [|by injection Hm as <-]. unfold raise in Hm. destruct (get (with_runtimes _ _) _) as [|[]| | | | |]; congruence.
Qed.

Lemma merge_merged v remove live v' : merge v remove live = Ok v' -> merged remove live v v'.
Proof.
  intros (v1 & -> & -> & _)%merge_steps. set (r := runtimes_of v). set (r' := if remove then _ else _).
  assert (forall k, dget k r' = if k =s RUNTIME then (if remove then None else Some ENTRY) else dget k r) as Hr'.
  { intros k. unfold r'. destruct remove; [apply dget_ddel|apply dget_dset]. }
  assert (runtimes_of (if live then dset (str "live-restore") (VBool true) (with_runtimes r' v) else with_runtimes r' v) = r') as Hrun.
  { destruct live; [|apply runtimes_with]. unfold runtimes_of. rewrite dget_live by done. fold (runtimes_of (with_runtimes r' v)). apply runtimes_with. }
  constructor.
  - by rewrite Hrun, Hr'.
  - intros k Hk. rewrite Hrun, Hr'. by apply str_eqb_neq in Hk as ->.
  - intros k Hk Hl. destruct live; [rewrite dget_live by auto|]; by apply others_with.
  - intros ->. by rewrite dget_dset.
Qed.

(** Removing what was added gives back the configuration, without an empty object of
    runtimes. *)
Definition trimmed (v : dict) : dict := match dget (str "runtimes") v with Some (VDict []) => ddel (str "runtimes") v | _ => v end.

Lemma merge_taken_back v v' : dget RUNTIME (runtimes_of v) = None -> merge v false false = Ok v' -> merge v' true false = Ok (trimmed v).
Proof.
  intros Hno (v1 & -> & -> & Hcase)%merge_steps. set (r := runtimes_of v) in *.
  assert (exists x l, dset RUNTIME ENTRY r = x :: l) as (x & l & Hx) by (destruct r as [|[k w] r0]; simpl; [eauto|destruct (_ =s _); eauto]).
  assert (with_runtimes (dset RUNTIME ENTRY r) v = dset (str "runtimes") (VDict (dset RUNTIME ENTRY r)) v) as -> by (unfold with_runtimes; by rewrite Hx).
  unfold merge, get_or, get. rewrite dget_dset, str_eqb_refl. cbn [default id]. cbv iota. rewrite dget_dset, str_eqb_refl. cbn [default id].
  change (conflicts ENTRY) with false. cbn [raise_if mbind]. rewrite ddel_dset, (ddel_none _ _ Hno). f_equal. unfold trimmed.
  destruct Hcase as [Hd|Hd]; rewrite Hd.
  - assert (r = []) as -> by (unfold r, runtimes_of; by rewrite Hd). rewrite ddel_dset. by apply ddel_none.
  - destruct r as [|kv r0]; [apply ddel_dset|]. rewrite dset_dset. by apply dset_same.
Qed.

(** *** Taking the entry back, whatever was there before *)

Lemma ddel_dset_other k j a d : k <> j -> ddel k (dset j a d) = dset j a (ddel k d).
Proof.
  intros Hne. unfold ddel. induction d as [|[k' w] d IH]; simpl.
  - assert (k =s j = false) as -> by (by apply str_eqb_neq). done.
  - destruct (j =s k') eqn:E; simpl.
    + apply str_eqb_eq in E as <-. assert (k =s j = false) as -> by (by apply str_eqb_neq). simpl. by rewrite str_eqb_refl.
    + destruct (k =s k'); simpl; [done|]. rewrite E. by rewrite IH.
Qed.

Lemma dset_dset_other k j a b d : k <> j -> is_Some (dget k d) -> dset k a (dset j b d) = dset j b (dset k a d).
Proof.
  intros Hne. assert (k =s j = false) as Hkj by (by apply str_eqb_neq).
  assert (j =s k = false) as Hjk by (apply str_eqb_neq; congruence).
  induction d as [|[k' w] d IH]; simpl; [by intros []|]. destruct (k =s k') eqn:E; simpl.
  - apply str_eqb_eq in E as <-. intros _. rewrite Hjk. simpl. by rewrite str_eqb_refl.
  - intros Hd. destruct (j =s k') eqn:E2; simpl; rewrite ?E; simpl; [done|]. by rewrite IH.
Qed.

(** Live restore commutes with putting runtimes back into a configuration that has some. *)
Lemma live_with r v : is_Some (dget (str "runtimes") v) ->
  with_runtimes r (dset (str "live-restore") (VBool true) v) = dset (str "live-restore") (VBool true) (with_runtimes r v).
Proof. intros Hr. unfold with_runtimes. destruct r; [by apply ddel_dset_other|by apply dset_dset_other]. Qed.

Lemma with_runtimes_twice r x v : with_runtimes r (dset (str "runtimes") x v) = with_runtimes r v.
Proof. unfold with_runtimes. destruct r; [apply ddel_dset|apply dset_dset]. Qed.

Lemma merge_removes v live : merge v true live =
  match get_or v (str "runtimes") (VDict []) with
  | VDict runtimes =>
      raise_if (conflicts (get runtimes RUNTIME)) ConfigError "refusing to remove a conflicting Multikernel runtime entry" ;;
      let value := with_runtimes (ddel RUNTIME runtimes) v in
      if live then
        match get value (str "live-restore") with
        | VNone | VBool true => Ok (dset (str "live-restore") (VBool true) value)
        | _ => raise ConfigError "conflicting Docker live-restore setting already exists"
        end
      else Ok value
  | _ => raise ConfigError "Docker runtimes must be an object"
  end.
Proof. reflexivity. Qed.

Lemma dset_nonempty k a (d : dict) : exists x l, dset k a d = x :: l.
Proof. destruct d as [|[k' w] d]; simpl; [eauto|]. destruct (k =s k'); eauto. Qed.

(** Removing the entry from what was merged is removing it from the input, with the live
    restore that was asked for. *)
Lemma merge_removed v live v' : merge v false live = Ok v' -> merge v' true false = merge v true live.
Proof.
  intros Hm. pose proof Hm as (v1 & -> & -> & Hcase)%merge_steps. set (r := runtimes_of v) in *.
  destruct (dset_nonempty RUNTIME ENTRY r) as (x & l & Hx).
  assert (with_runtimes (dset RUNTIME ENTRY r) v = dset (str "runtimes") (VDict (dset RUNTIME ENTRY r)) v) as Hw by (unfold with_runtimes; by rewrite Hx).
  rewrite Hw in *. set (added := dset (str "runtimes") _ v) in *.
  assert (get_or v (str "runtimes") (VDict []) = VDict r) as Hr.
  { unfold get_or. destruct Hcase as [Hd|Hd]; rewrite Hd; [|done]. unfold r, runtimes_of. by rewrite Hd. }
  assert (forall b, get (with_runtimes b v) (str "live-restore") = get v (str "live-restore")) as Hlive
    by (intros b; unfold get; by rewrite others_with).
  unfold merge in Hm. rewrite Hr in Hm. inv_ok. rename E into Hc.
  rewrite !merge_removes, Hr, Hc. cbn [raise_if]. cbv zeta. rewrite Hlive.
  assert (get_or (if live then dset (str "live-restore") (VBool true) added else added) (str "runtimes") (VDict []) = VDict (dset RUNTIME ENTRY r)) as ->.
  { unfold get_or. destruct live; [rewrite dget_live by done|]; unfold added; by rewrite dget_dset, str_eqb_refl. }
  assert (get (dset RUNTIME ENTRY r) RUNTIME = ENTRY) as -> by (unfold get; by rewrite dget_dset, str_eqb_refl).
  change (conflicts ENTRY) with false. cbn [raise_if]. rewrite ddel_dset. destruct live.
  - rewrite live_with by (unfold added; rewrite dget_dset, str_eqb_refl; by eexists). unfold added at 1. rewrite with_runtimes_twice.
    fold (with_runtimes (dset RUNTIME ENTRY r) v) in Hm. rewrite Hlive in Hm.
    destruct (get v (str "live-restore")) as [|[]| | | | |]; try discriminate Hm; done.
  - unfold added. by rewrite with_runtimes_twice.
Qed.

(** ** The program *)

(** A file with this content. *)
Definition holds_file (f : fs) (p : path) (data : bytes) : Prop := exists i n, node_at f p = Some (i, n) /\ i_kind n = KFile data.

(** What a file of configuration text says. *)
Definition decoded (data : bytes) : res pyval := let! text := utf8_decode Strict data in loads strict_object parse_constant text.

Section program.
Context `{machine} (Hquiet : quiet).

(** The configuration of a path: an absent one is empty. *)
Definition loaded (f : fs) (p : path) (v : dict) : Prop :=
  (exists fd data, fs_open false false f p = Ok fd /\ fs_read f fd = Ok data /\ decoded data = Ok (VDict v)) \/
  v = [] /\ (faultless -> forall s, fs_stat true f p <> Ok s).

Lemma obs_absent f p : observes f (exists_ p) (fun b => b = false -> faultless -> forall s, fs_stat true f p <> Ok s).
Proof.
  intros w Hw. pose proof (obs_any f (exists_ p) _ (obs_exists Hquiet f p) w Hw) as Hr. destruct w as [g c]. simpl in Hw. subst g.
  destruct (exists_ p (World f c)) as [[b|e] w'] eqn:He; [|done]. destruct Hr as [Hr _]. split; [done|]. intros -> Hok s Hs.
  assert (runs (exists_ p) f (Ok true) f) as Hrun.
  { apply runs_catch. eapply runs_bind; [by apply (runs_query Hok _ _ (Ok s))|apply runs_ret]. }
  destruct (Hrun c) as [c' Hc]. congruence.
Qed.

Lemma obs_load f p : observes f (load p) (loaded f p).
Proof.
  unfold load. eapply obs_bind; [apply obs_absent|]. intros [] Hb; cbn [negb]; [|apply obs_ret; by right; auto].
  eapply (obs_bind f _ (fun v => exists fd data, fs_open false false f p = Ok fd /\ fs_read f fd = Ok data /\ decoded data = Ok v)).
  - apply obs_catch.
    + eapply obs_bind; [by apply obs_read_bytes|]. intros data (fd & Ho & Hd). eapply obs_bind; [apply obs_lift|]. intros text Ht.
      eapply obs_conseq; [apply obs_lift|]. intros v Hv. exists fd, data. unfold decoded. by rewrite Ht.
    + intros e. destruct (_ || _); [apply obs_raise|apply obs_reraise].
  - intros [] Hv; try apply obs_raise. apply obs_ret. by left.
Qed.

Context (f0 : fs) (Hb0 : based f0) (dir : path) (name : pystr) (Hp : plain_path (dir ++ [name])) (Hr : real_dir f0 dir).

Lemma write_new_triple data : triple (fun f => f = f0) (write_new (dir ++ [name]) data)
  (fun _ f => extends f0 f /\ holds_file f (dir ++ [name]) data) (extends f0).
Proof.
  unfold write_new. eapply (triple_bind _ _ (fun fd f => exists n, fd = fresh f0 /\ i_kind n = KFile [] /\ f = added f0 (dir ++ [name]) n (now f0 + 1) /\ node_at f0 (dir ++ [name]) = None)).
  - apply (triple_syscall Hquiet); [by intros f ->|]. intros f fd f' -> Hc. pose proof (locate_child f0 dir name Hp Hr) as Hl.
    destruct (node_at f0 (dir ++ [name])) as [[]|] eqn:Hn; [unfold fs_create in Hc; by rewrite Hl, Hn in Hc|].
    destruct (create_added me (KFile []) 0x1B6 f0 _ _ Hl Hn) as (n & Hk & Hcr). rewrite Hcr in Hc. injection Hc as <- <-. by exists n.
  - intros fd. apply triple_pre. intros f1 (n & -> & Hk & -> & Hfree).
    pose proof (added_extends f0 (dir ++ [name]) n (now f0 + 1) Hb0 Hfree) as He.
    eapply (triple_finally _ _ _ (fun _ f => extends f0 f /\ holds_file f (dir ++ [name]) data) _ (extends f0)).
    + apply (triple_change Hquiet); [by intros f ->|]. intros f f' -> Hw. unfold fs_write, added in Hw. cbn [nodes] in Hw. rewrite lookup_insert_eq, Hk in Hw.
      injection Hw as <-. split.
      * constructor; cbn [tick set_node names nodes]; [apply (ex_names _ _ He)|]. intros i m Hm. rewrite lookup_insert_ne; [by apply (ex_nodes _ _ He)|].
        intros <-. apply (bs_fresh f0 Hb0) in Hm. lia.
      * eexists _, _. unfold node_at, added. cbn [tick set_node names nodes]. rewrite !lookup_insert_eq. split; [reflexivity|done].
    + intros u. apply (triple_query Hquiet); [by intros f []|done].
    + by apply (triple_query Hquiet).
Qed.

Definition text_of (float_text : pyfloat -> pystr) (v : dict) : bytes := ascii_bytes (dumps float_text indented (VDict v) ++ [10]).

Lemma decoded_text float_text v : jsonable (VDict v) = true -> decoded (text_of float_text v) = Ok (canon indented (VDict v)).
Proof.
  intros Hj. unfold decoded, text_of. rewrite utf8_dumps by done. cbn [mbind]. apply loads_dumps; [done| |done|done].
  intros d Hd. apply strict_pairs_ok; [constructor|]. by split.
Qed.

(** What the program has done when it reports success. *)
Definition merged_into (float_text : pyfloat -> pystr) (input : path) (remove live : bool) (f : fs) : Prop :=
  exists v v', loaded f0 input v /\ merged remove live v v' /\ holds_file f (dir ++ [name]) (text_of float_text v') /\
    (jsonable (VDict v') = true -> decoded (text_of float_text v') = Ok (canon indented (VDict v'))) /\
    (remove = false -> merge v' true false = merge v true live) /\
    (remove = false -> live = false -> dget RUNTIME (runtimes_of v) = None -> merge v' true false = Ok (trimmed v)).

Lemma merge_main_triple float_text input remove live :
  triple (fun f => f = f0) (main float_text input (dir ++ [name]) remove live)
    (fun z f => extends f0 f /\ (z = 0 -> merged_into float_text input remove live f)) (extends f0).
Proof.
  assert (forall f, f = f0 -> extends f0 f) as Hsame by (by intros f ->).
  unfold main. eapply (triple_catch _ _ _ _ (extends f0)).
  - eapply triple_bind; [eapply triple_conseq; [apply (obs_load f0 input)|done|intros v f Hv; exact Hv|done]|]. intros v. apply triple_pre. intros f [-> Hv].
    eapply triple_bind; [eapply triple_conseq; [by apply (obs_lift f0)|done|intros v' f Hv'; exact Hv'|done]|]. intros v'. apply triple_pre. intros f [-> Hm].
    eapply triple_bind; [apply write_new_triple|]. intros u. apply triple_ret. intros f [He Hh]. split; [done|]. intros _. exists v, v'.
    split_and!; [done|by apply merge_merged|done|apply decoded_text|intros ->; by apply merge_removed|].
    intros -> -> Hno. by apply merge_taken_back.
  - intros e. destruct (_ || _); [by apply triple_ret|by apply triple_reraise].
Qed.

(** C40. Merging the runtime into the container engine's configuration changes nothing
    else.  On a machine where no other process runs, whichever call fails, every file and
    name that existed stays, the input configuration and an existing output among them.
    When the program reports success, the output is a new file with the text of a
    configuration that has the runtime's entry (or no longer has it), the same other
    runtimes, live restore if it was asked for, and every other setting of the input, the
    default runtime among them.  If that configuration holds no float and nothing else that
    [json] cannot take back ([jsonable]: distinct names, no split surrogate pairs, integers
    of at most 4300 digits), the text decodes to it, its names in order.  What was added can
    be taken back: removing the entry from the result is the same as removing it from the
    input (and asking for live restore, if that was asked for); where the input had no such
    entry and no live restore was asked for, that is the input itself, without an empty
    object of runtimes. *)
Theorem main_merges float_text input remove live w : w_fs w = f0 ->
  match main float_text input (dir ++ [name]) remove live w with
  | (Ok 0, w') => extends f0 (w_fs w') /\ merged_into float_text input remove live (w_fs w')
  | (_, w') => extends f0 (w_fs w')
  end.
Proof.
  intros Hw. pose proof (merge_main_triple float_text input remove live w Hw) as Ht.
  destruct (main float_text input (dir ++ [name]) remove live w) as [[z|e] w']; [|done]. destruct Ht as [He Hz]. destruct z; try done. split; auto.
Qed.
End program.

(** ** A configuration with a runtime and a default *)

Definition engine_config : dict :=
  [(str "default-runtime", VStr (str "runc")); (str "runtimes", VDict [(str "other", VDict [(str "path", VStr (str "/usr/bin/other"))])])].
Definition engine : fs :=
  FS (list_to_map [([], 1); ([str "daemon.json"], 2)])
     (list_to_map [(1, node KDir 0x1ED 2 []); (2, node (KFile (text_of no_floats engine_config)) 0x1A4 1 [])]) 3 7.
Definition engine_start : world := World engine 0.
Definition merge_run (w : world) : res Z * world := @main here no_floats [str "daemon.json"] [str "new.json"] false false w.
Definition exits_well (r : res Z * world) : bool := match r with (Ok 0, _) => true | _ => false end.

Lemma engine_wf : fs_wf engine.
Proof. apply fs_wfb_ok. vm_cast_no_check (@eq_refl bool true). Qed.
Lemma engine_based : based engine.
Proof. split; [apply fresh_okb_ok; vm_cast_no_check (@eq_refl bool true)|]. intros k i Hk. by eapply (wf_node engine engine_wf). Qed.
Lemma merge_run_ok : exits_well (merge_run engine_start) = true.
Proof. vm_cast_no_check (@eq_refl bool true). Qed.

(** The configuration of that engine, as the program reads it. *)
Lemma engine_loaded v : @loaded here engine [str "daemon.json"] v ->
  dget RUNTIME (runtimes_of v) = None /\ (v = [] \/ v = engine_config).
Proof.
  intros [(fd & data & Ho & Hd & Hv)|[-> _]]; [|auto].
  assert (fs_open false false engine [str "daemon.json"] = Ok 2) as Ho' by (vm_compute; reflexivity). rewrite Ho in Ho'. injection Ho' as ->.
  assert (fs_read engine 2 = Ok (text_of no_floats engine_config)) as Hd' by (vm_compute; reflexivity). rewrite Hd in Hd'. injection Hd' as ->.
  assert (decoded (text_of no_floats engine_config) = Ok (VDict engine_config)) as Hv' by (vm_compute; reflexivity).
  rewrite Hv in Hv'. injection Hv' as ->. split; [vm_compute; reflexivity|by right].
Qed.

(** The runtime is merged into that configuration, and taken back. *)
Lemma main_merges_witness : exists (w' : world) (v v' : dict), merge_run engine_start = (Ok 0, w') /\ extends engine (w_fs w') /\
  @loaded here engine [str "daemon.json"] v /\ merged false false v v' /\
  holds_file (w_fs w') [str "new.json"] (text_of no_floats v') /\ merge v' true false = Ok (trimmed v).
Proof.
  pose proof merge_run_ok as Hok. unfold merge_run in *.
  assert (real_dir engine []) as Hr by (apply (dir_real engine engine_wf); vm_compute; reflexivity).
  pose proof (@main_merges here (lone_quiet _ _) engine engine_based [] (str "new.json") ltac:(repeat constructor) Hr no_floats [str "daemon.json"]
    false false engine_start eq_refl) as Ht. change ([] ++ [str "new.json"]) with [str "new.json"] in Ht.
  destruct (@main here no_floats [str "daemon.json"] [str "new.json"] false false engine_start) as [[[]|e] w']; try discriminate Hok.
  destruct Ht as [He (v & v' & Hl & Hm & Hh & _ & _ & Hb)]. exists w', v, v'. split; [reflexivity|].
  split; [exact He|]. split; [exact Hl|]. split; [exact Hm|]. split; [exact Hh|].
  apply Hb; [reflexivity|reflexivity|]. exact (proj1 (engine_loaded v Hl)).
Defined.
End DockerConfigSafe.
