(* ===== verification/ServicePolicy.v ===== *)
(** * The capability policy of a service (scripts/runtime_service_policy.py)

    The capability and privilege restrictions of a systemd unit are read from its text, put
    on the command line of [setpriv], and compared with what the kernel reports of the
    process.  Case conversion of text that is not ASCII is a parameter. *)
From Stdlib Require Import ZArith Lia.
From Stdlib Require Import Init.Byte.
From stdpp Require Import base list sets strings option gmap.
From S2P Require Import Prelude PyStr PyVal Bytes Json.

Open Scope string_scope.
Open Scope list_scope.
Open Scope Z_scope.

(** [str.lower] and [str.upper] outside ASCII: the tables of the interpreter. *)
Class case_tables := CaseTables { lower_other : pystr -> pystr; upper_other : pystr -> pystr }.

Definition is_ascii (s : pystr) : bool := forallb (in_range 0 127) s.
Definition ascii_lower (c : Z) : Z := if in_range 65 90 c then c + 32 else c.
Definition ascii_upper (c : Z) : Z := if in_range 97 122 c then c - 32 else c.
Definition lower `{case_tables} (s : pystr) : pystr := if is_ascii s then map ascii_lower s else lower_other s.
Definition upper `{case_tables} (s : pystr) : pystr := if is_ascii s then map ascii_upper s else upper_other s.

Module ServicePolicy.

(** A dictionary of texts, and [d.get(k)]. *)
Abbreviation texts := (list (pystr * pystr)).
Definition text_is (d : texts) (k : string) (v : pystr) : bool := bool_decide (alookup (str k) d = Some v).

Definition RESTRICTIONS : list pystr := strs ["CapabilityBoundingSet"; "NoNewPrivileges"; "AmbientCapabilities"].
Definition CAPABILITY_NAME : re := Cat (Cls (in_range 97 122)) (Star (Cls (fun c => in_range 97 122 c || in_range 48 57 c || (c =? 95)))).

Record policy := Policy {
  capabilities : list pystr; expected_capability_mask : pystr;
  no_new_privileges : bool; ambient_capabilities : list pystr }.

#[export] Instance policy_eq_dec : EqDecision policy.
Proof. solve_decision. Defined.

(** One line of the unit: whether the section is [\[Service\]], and what is selected. *)
Definition policy_line (s : bool * texts) (raw : pystr) : res (bool * texts) :=
  let '(service, selected) := s in
  let line := strip raw in
  match line with
  | [] => Ok s
  | _ =>
      if startswith line (str "#") || startswith line (str ";") then Ok s
      else if startswith line (str "[") then Ok (line =s str "[Service]", selected)
      else if negb service then Ok s
      else
        match split_once EQUALS line with
        | None => Ok s
        | Some (key, value) =>
            if negb (mem key RESTRICTIONS) then Ok s
            else
              raise_if (bool_decide (is_Some (alookup key selected))) ValueError "ambiguous repeated service restriction" ;;
              Ok (service, aset key (strip value) selected)
        end
  end.

(** [capability_names.index(name)] of a name that is there. *)
Fixpoint index_of (name : pystr) (l : list pystr) : Z :=
  match l with [] => 0 | x :: t => if x =s name then 0 else 1 + index_of name t end.

Definition sum (l : list Z) : Z := foldr Z.add 0 l.
Definition hex016 (n : Z) : pystr := zfill 16 (hex_nat n).

Section policy.
Context `{case_tables}.

Definition capability_step (capability_names : list pystr) (names : list pystr) (cap : pystr) : res (list pystr) :=
  raise_if (negb (startswith cap (str "CAP_")) || negb (mem (lower (drop 4 cap)) capability_names)) ValueError
    "unknown or noncanonical service capability" ;;
  let name := lower (drop 4 cap) in
  raise_if (negb (cap =s str "CAP_" ++ upper name)) ValueError "noncanonical service capability" ;;
  Ok (names ++ [name]).

Definition parse_policy (text : pystr) (capability_names : list pystr) : res policy :=
  raise_if ((65536 <? zlen text) || negb ((1 <=? zlen capability_names) && (zlen capability_names <=? 64))) ValueError
    "service policy exceeds qualification bounds" ;;
  raise_if (negb (distinct capability_names)) ValueError "duplicate capability ABI name" ;;
  raise_if (existsb (fun name => negb (fullmatch CAPABILITY_NAME name)) capability_names) ValueError "invalid capability ABI name" ;;
  let! (_, selected) := for_each policy_line (false, []) (splitlines text) in
  raise_if (negb (text_is selected "NoNewPrivileges" (str "yes")) || negb (text_is selected "AmbientCapabilities" [])) ValueError
    "qualification requires NNP and empty ambient capabilities" ;;
  let caps := split_words (default [] (alookup (str "CapabilityBoundingSet") selected)) in
  raise_if (bool_decide (caps = []) || negb (distinct caps)) ValueError "explicit unique service capabilities required" ;;
  let! names := for_each (capability_step capability_names) [] caps in
  let mask := sum (map (fun name => Z.shiftl 1 (index_of name capability_names)) names) in
  Ok (Policy names (hex016 mask) true []).

Definition command_with_policy (command : list pystr) (policy : policy) : list pystr :=
  strs ["/usr/bin/setpriv"; "--no-new-privs"; "--inh-caps=-all"; "--ambient-caps=-all"] ++
  [str "--bounding-set=-all," ++ join_with 44 (map (fun name => str "+" ++ name) (capabilities policy))] ++ command.

Definition check_observation (observed : texts) (policy : policy) : res unit :=
  for_each (fun _ key => raise_if (negb (text_is observed key (expected_capability_mask policy))) ValueError
              "observed service capabilities differ from declared policy") tt ["CapBnd"; "CapEff"; "CapPrm"] ;;
  for_each (fun _ key => raise_if (negb (text_is observed key (str "0000000000000000"))) ValueError
              "unexpected inherited or ambient service capabilities") tt ["CapInh"; "CapAmb"] ;;
  raise_if (negb (text_is observed "NoNewPrivs" (str "1")) ||
            negb (bool_decide (split_words (default [] (alookup (str "Uid") observed)) = repeat (str "0") 4))) ValueError
    "observed service NNP/identity differs from declared policy".

Definition check_fixture_scope (properties : texts) (pid : Z) (invocation : pystr) : res unit :=
  raise_if (bool_decide (invocation = []) || negb (text_is properties "InvocationID" invocation) ||
            negb (text_is properties "MainPID" (int_repr pid))) ValueError
    "fixture unit does not own this process and invocation" ;;
  raise_if (negb (text_is properties "KillMode" (str "process"))) ValueError
    "fixture requires KillMode=process to retain storage helpers" ;;
  raise_if (negb (text_is properties "PrivateMounts" (str "yes"))) ValueError "fixture requires a private mount namespace".
End policy.
End ServicePolicy.
