(* ===== verification/ServicePolicySafe.v ===== *)
(** * What an accepted service policy declares

    A unit is accepted exactly when its [\[Service\]] sections declare the restrictions, each
    once; the mask that the kernel's report is compared with has exactly the bits of the
    declared capabilities. *)
From Stdlib Require Import ZArith Lia.
From Stdlib Require Import Init.Byte.
From stdpp Require Import base list sets strings option gmap.
From S2P Require Import Prelude PyStr PyVal Bytes Json ServicePolicy.

Open Scope string_scope.
Open Scope list_scope.
Open Scope Z_scope.

Module ServicePolicySafe.
Import ServicePolicy.

(** ** The declarations of a unit *)

(** What a line is: nothing, the header of a section, or an assignment. *)
Inductive line_kind := Blank | Header (service : bool) | Assignment (key value : pystr).

Definition kind_of (raw : pystr) : line_kind :=
  match strip raw with
  | [] => Blank
  | line =>
      if startswith line (str "#") || startswith line (str ";") then Blank
      else if startswith line (str "[") then Header (line =s str "[Service]")
      else match split_once EQUALS line with Some (key, value) => Assignment key (strip value) | None => Blank end
  end.

(** The restrictions that the [\[Service\]] sections assign, in order. *)
Fixpoint declared (service : bool) (lines : list pystr) : texts :=
  match lines with
  | [] => []
  | raw :: t =>
      match kind_of raw with
      | Blank => declared service t
      | Header b => declared b t
      | Assignment key value =>
          if service && mem key RESTRICTIONS then (key, value) :: declared service t else declared service t
      end
  end.

Lemma policy_line_kind service selected raw :
  policy_line (service, selected) raw =
  match kind_of raw with
  | Blank => Ok (service, selected)
  | Header b => Ok (b, selected)
  | Assignment key value =>
      if service && mem key RESTRICTIONS then
        raise_if (bool_decide (is_Some (alookup key selected))) ValueError "ambiguous repeated service restriction" ;;
        Ok (service, aset key value selected)
      else Ok (service, selected)
  end.
Proof.
  unfold policy_line, kind_of. destruct (strip raw) as [|c l]; [done|]. case_match; [done|]. case_match; [done|].
  destruct (split_once EQUALS _) as [[key value]|], service; simpl; try done. by destruct (mem key RESTRICTIONS).
Qed.

Lemma aset_absent {V} k (v : V) (l : list (pystr * V)) : alookup k l = None -> aset k v l = l ++ [(k, v)].
Proof. induction l as [|[j w] l IH]; simpl; [done|]. case_bool_decide; [done|]. intros. by rewrite IH. Qed.

Lemma nodup_app_elem {A} (l : list A) x m : NoDup (l ++ x :: m) -> x ∉ l.
Proof. intros (_ & Hd & _)%NoDup_app Hx. apply (Hd x Hx). left. Qed.

(** The loop over the lines collects the declarations, and refuses a repeated one. *)
Lemma selected_declared lines service selected r : NoDup (map fst selected) ->
  (exists b, for_each policy_line (service, selected) lines = Ok (b, r)) <->
  r = selected ++ declared service lines /\ NoDup (map fst (selected ++ declared service lines)).
Proof.
  revert service selected; induction lines as [|raw lines IH]; intros service selected Hn; cbn [for_each declared].
  { rewrite app_nil_r. split; [intros [b [= <- <-]]; done|]. intros [-> _]. by exists service. }
  rewrite policy_line_kind. destruct (kind_of raw) as [|b|key value]; [by apply IH|by apply IH|].
  destruct (service && mem key RESTRICTIONS); [|by apply IH].
  destruct (alookup key selected) as [v|] eqn:E.
  - rewrite (bool_decide_true (is_Some (Some v))) by by eexists. cbn. split; [intros [? [=]]|]. intros [_ Hd].
    rewrite map_app in Hd. apply nodup_app_elem in Hd. by rewrite (proj2 (alookup_none _ _) Hd) in E.
  - rewrite (bool_decide_false (is_Some None)) by (intros [? [=]]). cbn [raise_if].
    rewrite aset_absent by done. apply alookup_none in E as E'. rewrite IH.
    + by rewrite <-app_assoc.
    + rewrite map_app. apply NoDup_app. split_and!; [done|set_solver|apply NoDup_singleton].
Qed.

(** ** Capability names *)

Definition name_ok (name : pystr) : Prop := Forall (fun c => 97 <= c <= 122 \/ 48 <= c <= 57 \/ c = 95) name.

Lemma capability_name_ok name : fullmatch CAPABILITY_NAME name = true -> name_ok name.
Proof. apply fullmatch_chars. split; cbn; unfold in_range; intros c; lia. Qed.

(** The name as the unit spells it. *)
Definition cap_text (name : pystr) : pystr := str "CAP_" ++ map ascii_upper name.

Section names.
Context `{case_tables}.

Lemma upper_name name : name_ok name -> upper name = map ascii_upper name.
Proof.
  intros Hn. unfold upper, is_ascii. rewrite (proj2 (forallb_elem _ _)); [done|].
  intros c Hc. pose proof (proj1 (Forall_forall _ _) Hn c Hc) as Hr; simpl in Hr. unfold in_range. lia.
Qed.

Lemma lower_upper name : name_ok name -> lower (map ascii_upper name) = name.
Proof.
  intros Hn. unfold lower, is_ascii. rewrite (proj2 (forallb_elem _ _)).
  - rewrite map_map. induction Hn as [|c l Hc Hn IH]; [done|]. cbn [map]. f_equal; [|done].
    unfold ascii_upper, ascii_lower, in_range. repeat (case_match; bool_prop); lia.
  - intros d (c & -> & Hc)%list_elem_of_fmap. pose proof (proj1 (Forall_forall _ _) Hn c Hc) as Hr; simpl in Hr.
    unfold ascii_upper, in_range. case_match; bool_prop; lia.
Qed.

Lemma capability_step_ok capability_names names cap r : Forall name_ok capability_names ->
  capability_step capability_names names cap = Ok r <->
  exists name, name ∈ capability_names /\ cap = cap_text name /\ r = names ++ [name].
Proof.
  intros Hall. rewrite Forall_forall in Hall. unfold capability_step. split.
  - intros Hs. inv_ok. bool_prop. apply mem_elem in H1. apply str_eqb_eq in E0. exists (lower (drop 4 cap)).
    split_and!; [done| |done]. unfold cap_text. by rewrite <-upper_name by auto.
  - intros (name & Hin & -> & ->). unfold cap_text. change (drop 4 (str "CAP_" ++ ?x)) with x.
    rewrite lower_upper, upper_name by auto. rewrite (proj2 (mem_elem _ _) Hin), str_eqb_refl.
    by rewrite (proj2 (startswith_prefix _ _)) by (by eexists).
Qed.

Lemma capability_steps capability_names caps names r : Forall name_ok capability_names ->
  for_each (capability_step capability_names) names caps = Ok r <->
  exists l, l ⊆ capability_names /\ caps = map cap_text l /\ r = names ++ l.
Proof.
  intros Hall. revert names; induction caps as [|cap caps IH]; intros names; cbn [for_each].
  { split; [intros [= <-]|intros (l & _ & Hl & ->)].
    - exists []. rewrite app_nil_r. set_solver.
    - destruct l; [by rewrite app_nil_r|done]. }
  split.
  - intros Hf. inv_ok. apply capability_step_ok in E as (name & Hin & -> & ->); [|done].
    apply IH in Hf as (l & Hl & -> & ->). exists (name :: l). rewrite <-app_assoc. split_and!; [set_solver|done|done].
  - intros ([|name l] & Hl & Hc & ->); [done|]. injection Hc as -> ->.
    rewrite (proj2 (capability_step_ok _ _ _ (names ++ [name]) Hall)).
    + apply IH. exists l. rewrite <-app_assoc. split_and!; [set_solver|done|done].
    + exists name. split_and!; [set_solver|done|done].
Qed.
End names.

(** ** The mask *)

Lemma index_of_lookup name l : name ∈ l -> 0 <= index_of name l < zlen l /\ l !! Z.to_nat (index_of name l) = Some name.
Proof.
  induction l as [|x l IH]; [set_solver|]. cbn [index_of]. rewrite zlen_cons. pose proof (zlen_nonneg l).
  destruct (x =s name) eqn:E.
  - apply str_eqb_eq in E as ->. intros _. split; [lia|done].
  - apply str_eqb_neq in E. intros [->|Hin]%elem_of_cons; [done|]. destruct (IH Hin) as [Hr Hl]. split; [lia|].
    by replace (Z.to_nat (1 + index_of name l)) with (S (Z.to_nat (index_of name l))) by lia.
Qed.

(** A sum of different powers of two has exactly their bits. *)
Lemma sum_bits l i : NoDup l -> Forall (fun k => 0 <= k) l -> 0 <= i ->
  Z.testbit (sum (map (Z.shiftl 1) l)) i = bool_decide (i ∈ l).
Proof.
  intros Hn Hl. revert i. induction Hl as [|k l Hk Hl IH]; intros i Hi; cbn [map sum foldr]; [by rewrite Z.bits_0|].
  apply list.NoDup_cons in Hn as [Hk' Hn]. fold (sum (map (Z.shiftl 1) l)). rewrite Z.shiftl_1_l.
  assert (Z.land (2 ^ k) (sum (map (Z.shiftl 1) l)) = 0) as H0.
  { apply Z.bits_inj'. intros j Hj. rewrite Z.land_spec, Z.bits_0, IH by done.
    destruct (Z.eq_dec j k) as [->|Hjk]; [by rewrite (bool_decide_false (k ∈ l)), andb_false_r|].
    by rewrite Z.pow2_bits_false by lia. }
  rewrite (Z.add_nocarry_lxor _ _ H0), Z.lxor_spec, IH by done. destruct (Z.eq_dec i k) as [->|Hik].
  - rewrite Z.pow2_bits_true by lia. rewrite (bool_decide_false (k ∈ l)) by done. by rewrite bool_decide_true by left.
  - rewrite Z.pow2_bits_false by lia. cbn. apply bool_decide_ext. set_solver.
Qed.

Lemma sum_nonneg l : Forall (fun k => 0 <= k) l -> 0 <= sum (map (Z.shiftl 1) l).
Proof.
  induction 1 as [|k l Hk Hl IH]; cbn [map sum foldr]; [lia|]. unfold sum in IH. rewrite Z.shiftl_1_l. lia.
Qed.

(** The mask of some of the kernel's capabilities, by its bits. *)
Definition mask_of (capability_names caps : list pystr) (mask : Z) : Prop :=
  0 <= mask < 2 ^ 64 /\ forall i, Z.testbit mask (Z.of_nat i) = true <-> exists name, capability_names !! i = Some name /\ name ∈ caps.

Lemma mask_unique capability_names caps a b : mask_of capability_names caps a -> mask_of capability_names caps b -> a = b.
Proof.
  intros [_ Ha] [_ Hb]. apply Z.bits_inj'. intros i Hi. apply eq_true_iff_eq.
  rewrite <-(Z2Nat.id i) by done. by rewrite Ha, Hb.
Qed.

Lemma bits_below m n : 0 <= m -> 0 <= n -> (forall i, n <= i -> Z.testbit m i = false) -> m < 2 ^ n.
Proof.
  intros Hm Hn Hb. destruct (Z.eq_dec m 0) as [->|Hnz]; [by apply Z.pow_pos_nonneg|].
  apply Z.log2_lt_pow2; [lia|]. apply Z.nle_gt. intros Hl. pose proof (Hb _ Hl) as Hbit. rewrite Z.bit_log2 in Hbit by lia. done.
Qed.

Lemma expected_mask capability_names caps : zlen capability_names <= 64 -> NoDup capability_names -> NoDup caps -> caps ⊆ capability_names ->
  mask_of capability_names caps (sum (map (fun name => Z.shiftl 1 (index_of name capability_names)) caps)).
Proof.
  intros Hlen Hn Hc Hsub. set (l := map (fun name => index_of name capability_names) caps).
  replace (map _ caps) with (map (Z.shiftl 1) l) by (unfold l; by rewrite map_map).
  assert (Forall (fun k => 0 <= k < 64) l) as Hl.
  { apply Forall_forall. intros k (name & -> & Hin)%list_elem_of_fmap. apply Hsub, index_of_lookup in Hin. lia. }
  assert (Forall (fun k => 0 <= k) l) as Hl0 by (eapply Forall_impl; [exact Hl|simpl; lia]).
  assert (NoDup l) as Hnl.
  { unfold l. apply NoDup_fmap_2_strong; [|done]. intros x y Hx Hy E.
    apply Hsub, index_of_lookup in Hx as [_ Hx]. apply Hsub, index_of_lookup in Hy as [_ Hy]. congruence. }
  split.
  - split; [by apply sum_nonneg|]. apply bits_below; [by apply sum_nonneg|lia|]. intros i Hi. rewrite sum_bits by (done || lia).
    apply bool_decide_false. intros Hin. rewrite Forall_forall in Hl. specialize (Hl i Hin). lia.
  - intros i. rewrite sum_bits by (done || lia). rewrite bool_decide_eq_true. unfold l. rewrite list_elem_of_fmap. split.
    + intros (name & Hi & Hin). exists name. split; [|done]. apply Hsub, index_of_lookup in Hin as [_ Hin].
      rewrite <-Hi, Nat2Z.id in Hin. done.
    + intros (name & Hi & Hin). exists name. split; [|done]. apply Hsub, index_of_lookup in Hin as [Hr Hin].
      rewrite (NoDup_lookup _ _ _ _ Hn Hi Hin). lia.
Qed.

(** ** Acceptance *)

(** What a unit must declare, and the policy it then has. *)
Definition declares (text : pystr) (capability_names : list pystr) (p : policy) : Prop :=
  let restrictions := declared false (splitlines text) in
  NoDup (map fst restrictions) /\
  (str "NoNewPrivileges", str "yes") ∈ restrictions /\ (str "AmbientCapabilities", []) ∈ restrictions /\
  exists value caps mask,
    (str "CapabilityBoundingSet", value) ∈ restrictions /\ split_words value = map cap_text caps /\
    caps <> [] /\ NoDup caps /\ caps ⊆ capability_names /\ mask_of capability_names caps mask /\
    p = Policy caps (hex016 mask) true [].

Definition known_names (capability_names : list pystr) : Prop :=
  1 <= zlen capability_names <= 64 /\ NoDup capability_names /\
  Forall (fun name => fullmatch CAPABILITY_NAME name = true) capability_names.

Lemma cap_text_inj a b : name_ok a -> name_ok b -> cap_text a = cap_text b -> a = b.
Proof.
  intros Ha Hb E. apply app_inv_head in E. pose (CaseTables (fun s => s) (fun s => s)) as t.
  rewrite <-(lower_upper (H := t) a Ha), E. by apply lower_upper.
Qed.

Lemma nodup_cap_text caps : Forall name_ok caps -> NoDup (map cap_text caps) <-> NoDup caps.
Proof.
  intros Hok. split; [apply NoDup_fmap_1|]. intros Hn. apply NoDup_fmap_2_strong; [|done].
  rewrite Forall_forall in Hok. intros a b Ha Hb. by apply cap_text_inj; auto.
Qed.

Lemma text_is_elem (d : texts) k v : NoDup (map fst d) -> text_is d k v = true <-> (str k, v) ∈ d.
Proof.
  intros Hn. unfold text_is. rewrite bool_decide_eq_true. split; [apply alookup_elem|by apply alookup_nodup].
Qed.
Section exact.
Context `{case_tables}.

Lemma known_names_ok capability_names : known_names capability_names -> Forall name_ok capability_names.
Proof. intros (_ & _ & Hf). eapply Forall_impl; [exact Hf|]. apply capability_name_ok. Qed.

Lemma names_checked capability_names :
  known_names capability_names <->
  (1 <= zlen capability_names <= 64 /\ distinct capability_names = true /\
   existsb (fun name => negb (fullmatch CAPABILITY_NAME name)) capability_names = false).
Proof.
  unfold known_names. rewrite distinct_NoDup, existsb_false_iff, Forall_forall. setoid_rewrite negb_false_iff. done.
Qed.

(** The value of the capability restriction, empty when it is not declared. *)
Lemma bounding_set (d : texts) caps : split_words (default [] (alookup (str "CapabilityBoundingSet") d)) = caps -> caps <> [] ->
  exists value, (str "CapabilityBoundingSet", value) ∈ d /\ split_words value = caps.
Proof.
  destruct (alookup _ d) as [value|] eqn:E; cbn [default]; intros <- Hne; [|done]. exists value. split; [by apply alookup_elem|done].
Qed.

Lemma parse_policy_sound text capability_names p :
  parse_policy text capability_names = Ok p -> zlen text <= 65536 /\ known_names capability_names /\ declares text capability_names p.
Proof.
  intros Hp. unfold parse_policy in Hp. inv_ok. destruct a2 as [b selected]. inv_ok. bool_prop.
  assert (known_names capability_names) as Hk by (by apply names_checked).
  pose proof (known_names_ok _ Hk) as Hok. split_and!; [done|done|].
  destruct (proj1 (selected_declared (splitlines text) false [] selected (NoDup_nil_2 : NoDup (map fst ([] : texts))))) as [-> Hd]; [by eexists|].
  cbn [app] in *. apply capability_steps in E5 as (caps & Hsub & Hcaps & ->); [|done]. rewrite Hcaps in *.
  unfold declares. cbv zeta. rewrite !text_is_elem in * by done. split_and!; [done|done|done|].
  apply bounding_set in Hcaps as (value & Hv & Hw); [|done]. destruct Hk as (Hlen & Hn & _).
  assert (Forall name_ok caps) as Hcok by (apply Forall_forall; intros x Hx; rewrite Forall_forall in Hok; auto).
  assert (NoDup caps) as Hnc by (by apply nodup_cap_text, distinct_NoDup).
  exists value, caps, (sum (map (fun name => Z.shiftl 1 (index_of name capability_names)) caps)). cbn [app].
  split_and!; [done|done| |done|done|by apply expected_mask|done]. by intros ->.
Qed.

Lemma parse_policy_complete text capability_names p :
  zlen text <= 65536 -> known_names capability_names -> declares text capability_names p -> parse_policy text capability_names = Ok p.
Proof.
  intros Ht Hk (Hd & Hnnp & Hamb & value & caps & mask & Hv & Hw & Hne & Hnc & Hsub & Hm & ->).
  pose proof (known_names_ok _ Hk) as Hok. destruct (proj1 (names_checked _) Hk) as (Hlen & Hdis & Hre). unfold parse_policy.
  rewrite (proj2 (Z.ltb_ge _ _)), (proj2 (Z.leb_le 1 _)), (proj2 (Z.leb_le _ 64)), Hdis, Hre by lia. cbn [raise_if negb andb orb].
  destruct (proj2 (selected_declared (splitlines text) false [] _ (NoDup_nil_2 : NoDup (map fst ([] : texts)))) (conj eq_refl Hd)) as [b ->].
  cbn [app]. rewrite (proj2 (text_is_elem _ _ _ Hd) Hnnp), (proj2 (text_is_elem _ _ _ Hd) Hamb). cbn [raise_if negb orb].
  rewrite (alookup_nodup _ _ _ Hd Hv). change (default [] (Some value)) with value. rewrite Hw, bool_decide_false by (by destruct caps).
  assert (Forall name_ok caps) as Hcok by (apply Forall_forall; intros x Hx; rewrite Forall_forall in Hok; auto).
  rewrite (proj2 (distinct_NoDup _)) by (by apply nodup_cap_text). cbn [raise_if negb orb].
  rewrite (proj2 (capability_steps _ _ [] caps Hok)) by eauto.
  destruct Hk as (_ & Hn & _). by rewrite (mask_unique _ _ _ _ Hm (expected_mask _ _ (proj2 Hlen) Hn Hnc Hsub)).
Qed.

(** What the kernel reports of a process with exactly these capabilities. *)
Definition reports (observed : texts) (capability_names caps : list pystr) : Prop :=
  exists mask, mask_of capability_names caps mask /\ int16 (ascii_bytes (hex016 mask)) = Ok mask /\
    (forall key, key ∈ ["CapBnd"; "CapEff"; "CapPrm"] -> alookup (str key) observed = Some (hex016 mask)) /\
    (forall key, key ∈ ["CapInh"; "CapAmb"] -> alookup (str key) observed = Some (hex016 0)) /\
    alookup (str "NoNewPrivs") observed = Some (str "1") /\
    exists uid, alookup (str "Uid") observed = Some uid /\ split_words uid = repeat (str "0") 4.

Lemma for_each_checks {A} (f : A -> res unit) l : for_each (fun _ x => f x) tt l = Ok tt <-> forall x, x ∈ l -> f x = Ok tt.
Proof.
  induction l as [|x l IH]; cbn [for_each]; [set_solver|]. split.
  - intros Hf. inv_ok. destruct a. intros y [->|Hy]%elem_of_cons; [done|]. by apply IH.
  - intros Hf. rewrite (Hf x) by left. apply IH. set_solver.
Qed.

Lemma check_text (d : texts) k v m : raise_if (negb (text_is d k v)) ValueError m = Ok tt <-> alookup (str k) d = Some v.
Proof. rewrite raise_if_ok, negb_false_iff. apply bool_decide_eq_true. Qed.

Lemma bind_unit_ok {B} (r : res unit) (k : res B) b : (r ;; k) = Ok b <-> r = Ok tt /\ k = Ok b.
Proof. destruct r as [[]|]; naive_solver. Qed.

Lemma uid_checked (observed : texts) :
  split_words (default [] (alookup (str "Uid") observed)) = repeat (str "0") 4 <->
  exists uid, alookup (str "Uid") observed = Some uid /\ split_words uid = repeat (str "0") 4.
Proof. destruct (alookup _ observed) as [uid|]; cbn; naive_solver. Qed.

Lemma observation_reports text capability_names p observed : parse_policy text capability_names = Ok p ->
  check_observation observed p = Ok tt <-> reports observed capability_names (capabilities p).
Proof.
  intros (_ & Hk & _ & _ & _ & value & caps & mask & _ & _ & _ & Hnc & Hsub & Hm & ->)%parse_policy_sound.
  unfold check_observation, reports. cbn [capabilities expected_capability_mask].
  rewrite !bind_unit_ok, !for_each_checks, raise_if_ok, orb_false_iff, !negb_false_iff, bool_decide_eq_true, uid_checked.
  setoid_rewrite check_text. unfold text_is. rewrite bool_decide_eq_true. change (str "0000000000000000") with (hex016 0).
  assert (int16 (ascii_bytes (hex016 mask)) = Ok mask) as Hi by (apply (zfill_hex_spec 16); [lia|exact (proj1 Hm)]).
  split; [naive_solver|]. intros (mask' & Hm' & _ & Hr). by rewrite (mask_unique _ _ _ _ Hm' Hm) in Hr.
Qed.

(** The command drops every capability and then adds the declared ones to the bounding set. *)
Definition bounds (command : list pystr) (caps : list pystr) (rest : list pystr) : Prop :=
  exists set, command = strs ["/usr/bin/setpriv"; "--no-new-privs"; "--inh-caps=-all"; "--ambient-caps=-all"] ++
                        [str "--bounding-set=" ++ set] ++ rest /\
    split_on 44 set = str "-all" :: map (fun name => str "+" ++ name) caps.

Lemma command_bounds text capability_names p command : parse_policy text capability_names = Ok p ->
  bounds (command_with_policy command p) (capabilities p) command.
Proof.
  intros (_ & Hk & _ & _ & _ & value & caps & mask & _ & _ & Hne & _ & Hsub & _ & ->)%parse_policy_sound. cbn [capabilities].
  exists (join_with 44 (str "-all" :: map (fun name => str "+" ++ name) caps)). rewrite join_cons by (by destruct caps). split; [done|].
  rewrite <-join_cons by (by destruct caps). apply split_join; [done|]. constructor; [set_solver|].
  apply Forall_forall. intros x (name & -> & Hin)%list_elem_of_fmap [?|Hc]%elem_of_cons; [done|].
  apply Hsub in Hin. pose proof (known_names_ok _ Hk) as Hok. rewrite Forall_forall in Hok.
  pose proof (proj1 (Forall_forall _ _) (Hok _ Hin) _ Hc) as Hr. simpl in Hr. lia.
Qed.

(** C20. The policy of a unit is exactly what its [\[Service\]] sections declare: the text is
    accepted if and only if each restriction stands there once, privileges cannot be regained,
    nothing is ambient, and the bounding set names capabilities of the kernel in their
    canonical spelling, each once, in a text of at most 65536 characters read by the code's
    rule for lines and with a valid list of the kernel's names ([known_names]); an observation passes if and only if the kernel reports exactly
    those capabilities; and the command line gives the process exactly them. *)
Theorem service_policy_exact text capability_names p :
  (parse_policy text capability_names = Ok p <->
   zlen text <= 65536 /\ known_names capability_names /\ declares text capability_names p) /\
  (parse_policy text capability_names = Ok p ->
   (forall observed, check_observation observed p = Ok tt <-> reports observed capability_names (capabilities p)) /\
   (forall command, bounds (command_with_policy command p) (capabilities p) command)).
Proof.
  split; [split|].
  - apply parse_policy_sound.
  - intros (Ht & Hk & Hd). by apply parse_policy_complete.
  - intros Hp. split; intros; [by eapply observation_reports|by eapply command_bounds].
Qed.
End exact.

(** ** A unit *)

#[export] Instance plain_case : case_tables := CaseTables (fun s => s) (fun s => s).

Definition lines (l : list string) : pystr := concat (map (fun s => str s ++ [10]) l).
Definition sample_unit : pystr :=
  lines ["[Unit]"; "NoNewPrivileges=no"; "[Service]"; "NoNewPrivileges=yes"; "AmbientCapabilities=";
         "CapabilityBoundingSet=CAP_CHOWN CAP_NET_ADMIN"].
Definition sample_names : list pystr := strs ["chown"; "dac_override"; "net_admin"].
Definition sample_policy : policy := Policy (strs ["chown"; "net_admin"]) (str "0000000000000005") true [].

Lemma service_policy_exact_witness :
  parse_policy sample_unit sample_names = Ok sample_policy /\ declares sample_unit sample_names sample_policy.
Proof.
  assert (parse_policy sample_unit sample_names = Ok sample_policy) as Hp by (vm_compute; reflexivity).
  split; [exact Hp|]. apply (proj1 (service_policy_exact sample_unit sample_names sample_policy)). exact Hp.
Defined.

(** White space before the equals sign, which systemd ignores, hides an assignment: the second
    bounding set extends the first one for systemd and is not seen here. *)
Example spaced_assignment_unseen :
  parse_policy (sample_unit ++ lines ["CapabilityBoundingSet =CAP_DAC_OVERRIDE"]) sample_names = Ok sample_policy.
Proof. vm_compute. reflexivity. Qed.
End ServicePolicySafe.
