(* ===== verification/OciLoad.v ===== *)
(** * Reading and projecting a configuration (the rest of scripts/validate-runtime-oci.py)

    [load_config] opens the configuration component by component, or below an inherited
    directory descriptor; [main] validates it and writes the two projections.  What a
    descriptor number of the command line refers to is a parameter ([inherited]), as are
    the working directory and the text of a finite float. *)
From Stdlib Require Import ZArith Lia.
From Stdlib Require Import Init.Byte.
From stdpp Require Import base list sets strings option gmap.
From S2P Require Import Prelude PyStr PyVal Bytes Json Sys Held Oci.

Open Scope string_scope.
Open Scope list_scope.
Open Scope Z_scope.

Module OciLoad.
Export Oci.

Definition INHERITED_CONFIG : re := Cat (Lit "/proc/self/fd/") (Cat (Plus (Cls is_ascii_digit)) (Lit "/config.json")).

(** [INHERITED_CONFIG.fullmatch(text)] and its group: the text between the two literals. *)
Definition inherited_descriptor (text : pystr) : option pystr :=
  if fullmatch INHERITED_CONFIG text
  then Some (take (length text - length (str "/proc/self/fd/") - length (str "/config.json")) (drop (length (str "/proc/self/fd/")) text))
  else None.

(** A [pathlib.Path] in the working directory [cwd]. *)
Definition path_from (cwd : path) (s : pystr) : path :=
  let p := pure_path s in if pp_root p =s "" then cwd ++ pp_comps p else pp_comps p.

Section system.
Context `{machine}.
Context (inherited : Z -> option Z).

(** *** Reading the descriptor *)

Definition stamp (i : stat_result) : Z * Z * Z * Z * Z :=
  (st_dev i, st_ino i, st_size i, st_mtime_ns i, st_ctime_ns i).

(** One turn of the loop: what has been read is the offset of the next [os.read]. *)
Definition read_turn (descriptor : Z) (s : bytes * Z) : M ((bytes * Z) + (bytes * Z)) :=
  let '(chunks, retained) := s in
  if retained <=? MAX_CONFIG_BYTES then
    let* chunk := pread descriptor (Z.min 65536 (MAX_CONFIG_BYTES + 1 - retained)) retained in
    match chunk with
    | [] => mret (inr (chunks, retained))
    | _ => mret (inl (chunks ++ chunk, retained + zlen chunk))
    end
  else mret (inr (chunks, retained)).

Definition load_config_descriptor (descriptor : Z) : M pyval :=
  mfinally
    (let* before := fstat descriptor in
     mraise_if (negb (s_isreg (st_mode before)) || negb (st_nlink before =? 1) || negb (st_uid before =? euid me)
                || negb (Z.land (st_mode before) 0x12 =? 0) || (MAX_CONFIG_BYTES <? st_size before))
       ValueError "OCI config must be a bounded private caller-owned single-link regular file" ;;;
     let* read := mwhile (read_turn descriptor) ([], 0) in
     let '(chunks, retained) := read in
     mraise_if (MAX_CONFIG_BYTES <? retained) ValueError "OCI config exceeds the retained byte limit" ;;;
     let* after := fstat descriptor in
     mraise_if (negb (bool_decide (stamp before = stamp after))) ValueError "OCI config identity changed while reading" ;;;
     let* text := lift (utf8_decode Strict chunks) in
     lift (loads strict_object float_constant text))
    (close descriptor).

(** *** Opening the file *)

(** [os.open(name, ..., dir_fd=directory)]; an empty name is not found. *)
Definition open_name (directory_only : bool) (directory : Z) (name : pystr) : M Z :=
  match name with
  | [] => query (fun _ => ENOENT)
  | _ => openat true directory_only directory name
  end.

Definition open_step (directory : Z) (component : pystr) : M Z :=
  let* child := open_name true directory component in
  close directory ;;; mret child.

(** The number of an inherited descriptor: a C [int], and open. *)
Definition inherited_fd (digits : pystr) : M Z :=
  let* number := lift (int_of_digits digits) in
  mraise_if (2 ^ 31 - 1 <? number) OverflowError "Python int too large to convert to C int" ;;;
  match inherited number with
  | Some fd => mret fd
  | None => query (fun _ => raise OSError "Bad file descriptor")
  end.

Definition load_config (source : pystr) : M pyval :=
  let path := pure_path source in
  mraise_if ((pp_root path =s "") || negb (bool_decide (pure_path (normpath (as_posix path)) = path)))
    ValueError "OCI config path must be absolute and canonical" ;;;
  match inherited_descriptor (as_posix path) with
  | Some digits =>
      let* directory := inherited_fd digits in
      let* info := fstat directory in
      mraise_if (negb (s_isdir (st_mode info)) || negb (st_uid info =? euid me) || negb (Z.land (st_mode info) 0x12 =? 0))
        ValueError "inherited OCI bundle must be a caller-owned non-writable directory" ;;;
      let* descriptor := open_name false directory (str "config.json") in
      load_config_descriptor descriptor
  | None =>
      let* top := open_ false true [] in
      let* reached := mfor_until open_step top (removelast (pp_comps path)) in
      let '(directory, failed) := reached in
      let* descriptor := mfinally
        (match failed with
         | Some e => reraise e
         | None => open_name false directory (path_name path)
         end)
        (close directory) in
      load_config_descriptor descriptor
  end.

(** *** The program *)

Context (float_repr : pyfloat -> pystr) (cwd : path).

(** The line a projection is written as, and [Path.write_text] of it. *)
Definition projection_bytes (value : pyval) : bytes := ascii_bytes (dumps float_repr compact value ++ [10]).
Definition write_projection (output : pystr) (projection : res pyval) : M unit :=
  let* value := lift projection in
  write_bytes (path_from cwd output) (projection_bytes value).

(** [sys.argv\[1:\]] and the exit status. *)
Definition main (argv : list pystr) : M Z :=
  match argv with
  | source :: outputs =>
      if (2 <? length outputs)%nat then mret 2
      else
        mcatch
          (let* config := load_config source in
           lift (validate config) ;;;
           match outputs with
           | [] => mret tt
           | [output] => write_projection output (guest_projection config)
           | output :: bind_output :: _ =>
               write_projection output (guest_projection config) ;;;
               write_projection bind_output (bind_projection config)
           end ;;;
           mret 0)
          (fun e => if is_os_error (exn_cls e) || is_value_error (exn_cls e) then mret 1 else reraise e)
  | [] => mret 2
  end.
End system.
End OciLoad.
