(* ===== verification/OciLoadSafe.v ===== *)
(** * What an accepted configuration is

    The configuration that is validated is the content of the file its path names
    literally, private to the caller; and the plan the validator writes is the one the
    materializer reads. *)
From Stdlib Require Import ZArith Lia.
From Stdlib Require Import Init.Byte.
From stdpp Require Import base list sets strings option gmap.
From S2P Require Import Prelude PyStr PyVal Bytes Json JsonTrip JsonText Sys Held FsRules RootfsScanSafe WriteFile BindPlan MaterializeSafe Oci OciLoad.

Open Scope string_scope.
Open Scope list_scope.
Open Scope Z_scope.

Module OciLoadSafe.
Import RootfsScanSafe WriteFile MaterializeSafe BindPlan.
Export OciLoad.

(** No permission bit outside the type bits is set by the type. *)
Lemma mode_bits ino n : Z.land (st_mode (stat_of ino n)) 0x12 = 0 -> Z.land (i_perm n) 0x12 = 0.
Proof.
  simpl. rewrite Z.land_lor_distr_l, <-Z.land_assoc. change (Z.land 0xFFF 0x12) with 0x12.
  intros Hl. by apply Z.lor_eq_0_iff in Hl as [_ Hl].
Qed.

(** ** The plan that is written *)

(** The binds of an accepted list are items of the list. *)
Lemma mounts_items value rp ro seeds : validate_mounts value rp = Ok (ro, seeds) ->
  exists l, value = VList l /\ Forall (fun i => VDict i ∈ l) (ro ++ seeds).
Proof.
  unfold validate_mounts. destruct value as [| | | | |l|]; try done. intros Hv. inv_ok. exists l. split; [done|].
  assert (Forall (fun i => VDict i ∈ l) (readonly_binds a) /\ Forall (fun i => VDict i ∈ l) (private_seeds a)) as [H1 H2];
    [|by apply Forall_app].
  eapply (for_each_inv _ (fun _ st => Forall (fun i => VDict i ∈ l) (readonly_binds st) /\ Forall (fun i => VDict i ∈ l) (private_seeds st)));
    [exact E|by split; constructor|]. intros pre x t st st' Hl [Hro Hse] Hst.
  assert (x ∈ l) as Hx by (rewrite Hl; set_solver). unfold mount_step in Hst.
  destruct x as [| | | | | |d]; try done. cbn [require_object] in Hst. inv_ok.
  assert (forall options, bind_step rp st d options = Ok st' -> Forall (fun i => VDict i ∈ l) (readonly_binds st') /\
    Forall (fun i => VDict i ∈ l) (private_seeds st')) as Hb.
  { intros options Hb. unfold bind_step in Hb. inv_ok. cbn [readonly_binds private_seeds].
    destruct (docker_private_seed _ _ _); rewrite ?Forall_app; split_and?; auto. }
  destruct a2, (get d "destination"); eauto. inv_ok. destruct (List.find _ _) as [[? contract]|]; [|done]. by inv_ok.
Qed.

(** What the entries of a plan are. *)
Definition plan_item (mode d s : pystr) : pyval :=
  VDict [(str "destination", VStr d); (str "type", VStr "bind"); (str "source", VStr s);
         (str "options", VList (map VStr [str "bind"; mode; str "nodev"; str "nosuid"; str "noexec"]))].
Definition planned (e : pyval) : Prop :=
  exists seed d s, e = plan_item (if seed : bool then str "rw" else str "ro") d s /\ text_ok d = true /\ text_ok s = true.

Lemma planned_jsonable e : planned e -> jsonable e = true.
Proof.
  intros (seed & d & s & -> & Hd & Hs). unfold plan_item. cbn [jsonable forallb map fst snd]. rewrite Hd, Hs.
  rewrite bool_decide_true; [by destruct seed|]. repeat constructor; set_solver.
Qed.

Lemma planned_canon ds e : planned e -> record_check ds (canon compact e) = record_check ds e.
Proof. intros (seed & d & s & -> & _). by destruct seed. Qed.

Lemma plan_entries_planned (seed : bool) items entries : map_res (plan_entry (if seed then str "rw" else str "ro")) items = Ok entries ->
  Forall (fun i => BindPlan.admitted_item i /\ texts (VDict i) = true) items -> Forall planned entries.
Proof.
  intros He Hi. apply map_res_ok in He. induction He as [|i e items entries Hie _ IH]; constructor.
  - apply Forall_cons_iff in Hi as [[(d & Hd & Had & s & Hs & Hsc & Hne) Ht] _]. unfold destination_of in Hd. unfold plan_entry in Hie.
    rewrite (getitem_get i _ _ Hd), (getitem_get i _ _ Hs) in Hie by done. injection Hie as <-. exists seed, d, s.
    split_and!; [done|by eapply texts_get|by eapply texts_get].
  - apply IH. by apply Forall_cons_iff in Hi as [_ Hi].
Qed.

Lemma for_each_planned acc entries : Forall planned entries ->
  for_each record_step acc (map (canon compact) entries) = for_each record_step acc entries.
Proof.
  intros Hp. revert acc; induction Hp as [|e entries He _ IH]; intros acc; [done|]. cbn [map for_each]. unfold record_step at 1 3.
  rewrite (planned_canon _ e He). destruct (record_check _ e); [|done]. cbn [mbind]. destruct (source_path_check _); [|done].
  destruct (destination_path_check _); [|done]. apply IH.
Qed.

(** The plan of a decoded configuration survives the file it is written to. *)
Definition read_plan (data : bytes) : res (list bind_record) :=
  let! text := utf8_decode Strict data in
  let! plan := loads BindPlan.strict_object float_constant text in plan_checks plan.

Lemma written_plan_accepted config float_repr plan : texts config = true -> validate config = Ok tt -> bind_projection config = Ok plan ->
  exists ro seeds, mounts_of config = Ok (ro, seeds) /\
    read_plan (ascii_bytes (dumps float_repr compact plan ++ [10])) = Ok (map (record_of false) ro ++ map (record_of true) seeds).
Proof.
  intros Ht Hv Hb. destruct (bind_projection_plan config Hv) as (ro & seeds & plan0 & Hm & Hb0 & Hc). rewrite Hb in Hb0. injection Hb0 as <-.
  unfold bind_projection in Hb. rewrite Hm in Hb. cbn [fst snd] in Hb. inv_ok.
  assert (Forall planned (a ++ a0)) as Hp.
  { destruct (validate_inv config Hv) as (c & rp & [ro' seeds'] & -> & _ & _ & _ & Hr & _ & Hmo & _).
    rewrite (mounts_of_validated c rp Hr), Hmo in Hm. injection Hm as -> ->. destruct (mounts_separated _ _ _ _ Hmo) as [Hadm _].
    destruct (mounts_items _ _ _ _ Hmo) as (l & Hl & Hin).
    assert (forallb texts l = true) as Htl.
    { unfold get_or in Hl. destruct (dget (str "mounts") c) as [v|] eqn:Eg; [|by injection Hl as <-]. simpl in Hl. subst v.
      clear -Eg Ht. cbn [texts] in Ht. induction c as [|[j w] c IH]; [done|]. cbn [forallb dget fst snd] in *. bool_prop.
      destruct (_ =s j); [by simplify_eq|by apply IH]. }
    assert (Forall (fun i => BindPlan.admitted_item i /\ texts (VDict i) = true) (ro ++ seeds)) as Hall.
    { rewrite list.Forall_forall in Hadm, Hin. apply list.Forall_forall. intros i Hi. split; [by apply Hadm|]. rewrite forallb_elem in Htl. by apply Htl, Hin. }
    apply Forall_app in Hall as [H1 H2]. apply Forall_app. split; [by apply (plan_entries_planned false ro)|by apply (plan_entries_planned true seeds)]. }
  set (plan := VDict _) in *.
  assert (jsonable plan = true) as Hj.
  { unfold plan. cbn [jsonable forallb fst snd]. rewrite bool_decide_true by (repeat constructor; set_solver). change (text_ok _) with true.
    cbn [andb]. rewrite !andb_true_r. apply forallb_elem. intros e He. rewrite list.Forall_forall in Hp. by apply planned_jsonable, Hp. }
  exists ro, seeds. split; [done|]. unfold read_plan. rewrite (utf8_dumps float_repr compact plan [10]) by done. cbn [mbind].
  rewrite (loads_dumps float_repr compact BindPlan.strict_object float_constant plan [10]); try done.
  2:{ intros d Hnd. unfold BindPlan.strict_object. by apply strict_pairs_ok; [constructor|]. }
  rewrite <-Hc. unfold plan_checks. cbn [mbind].
  assert (forall l, let limit := raise_if (8 <? zlen l) MaterializationError "at most eight read-only bind inputs are supported" in
      plan_records (VDict [(str "schema_version", VInt 1); (str "readonly_binds", VList l)]) = (limit ;; Ok l) /\
      plan_records (VDict [(str "readonly_binds", VList l); (str "schema_version", VInt 1)]) = (limit ;; Ok l)) as Hrec by done.
    change (canon compact plan) with
      (VDict [(str "readonly_binds", VList (map (canon compact) (a ++ a0))); (str "schema_version", VInt 1)]).
    unfold plan. rewrite (proj1 (Hrec _)), (proj2 (Hrec _)). unfold zlen. rewrite length_map.
    destruct (raise_if _ _ _); [|done]. by apply for_each_planned.
Qed.

Section system.
Context `{machine} (Hquiet : quiet).
Context (inherited : Z -> option Z) (float_repr : pyfloat -> pystr) (cwd : path).

(** A regular file of the caller, with one name, that nobody else can write. *)
Definition private_file (f : fs) (fd : Z) (data : bytes) : Prop :=
  exists n, nodes f !! fd = Some n /\ i_kind n = KFile data /\ i_nlink n = 1 /\ i_uid n = euid me /\
    Z.land (i_perm n) 0x12 = 0 /\ zlen data <= MAX_CONFIG_BYTES.

(** The value a configuration's bytes stand for. *)
Definition decoded (data : bytes) : res pyval :=
  let! text := utf8_decode Strict data in loads strict_object float_constant text.

Lemma obs_read_turns f fd n d : nodes f !! fd = Some n -> i_kind n = KFile d -> zlen d <= MAX_CONFIG_BYTES ->
  observes f (mwhile (read_turn fd) ([], 0)) (fun r => r = (d, zlen d)).
Proof.
  intros Hn Hk Hmax.
  apply (obs_while f _ (fun s => exists rest, d = s.1 ++ rest /\ s.2 = zlen s.1)); [|by exists d].
  intros [data offset] (rest & Hd & Ho). cbn [fst snd] in *. subst offset. cbn [read_turn].
  assert (zlen d = zlen data + zlen rest) as Hl by (rewrite Hd; apply zlen_app).
  pose proof (zlen_nonneg data). pose proof (zlen_nonneg rest). rewrite (proj2 (Z.leb_le _ _)) by lia.
  eapply obs_bind; [by apply obs_query|]. intros chunk Hc. cbv beta in Hc. unfold fs_pread, fs_read in Hc. rewrite Hn, Hk in Hc.
  injection Hc as <-. rewrite (Z.min_l (zlen data) (zlen d)) by lia. replace (zlen d - zlen data) with (zlen rest) by lia.
  replace (drop (Z.to_nat (zlen data)) d) with rest by (rewrite Hd; unfold zlen; by rewrite Nat2Z.id, drop_app_length).
  set (size := Z.min 65536 _). assert (0 < size) as Hs by (unfold size; apply Z.min_glb_lt; lia). clearbody size.
  destruct rest as [|x rest].
  - replace (take _ []) with (@nil byte) by (by destruct (Z.to_nat _)). apply obs_ret. by rewrite Hd, app_nil_r.
  - assert (0 < zlen (x :: rest)) as Hpos by (rewrite zlen_cons; pose proof (zlen_nonneg rest); lia).
    destruct (Z.to_nat (Z.min size (zlen (x :: rest)))) as [|k] eqn:Hk0; [lia|]. cbn [take].
    apply obs_ret. cbn [fst snd]. exists (drop k rest). rewrite zlen_app. split; [|done]. rewrite Hd, <-app_assoc. simpl. by rewrite take_drop.
Qed.

Lemma obs_load_descriptor f fd : observes f (load_config_descriptor fd) (fun config =>
  exists data, private_file f fd data /\ decoded data = Ok config).
Proof.
  apply obs_finally; [|by eapply obs_any, obs_query]. eapply obs_bind; [by apply obs_query|]. intros before Hb. cbv beta in Hb.
  unfold fs_fstat in Hb. destruct (nodes f !! fd) as [n|] eqn:Hn; [|done]. injection Hb as <-.
  eapply obs_bind; [by apply obs_raise_if|]. intros u1 Hc. cbv beta in Hc. repeat (apply orb_false_iff in Hc as [Hc ?]).
  apply negb_false_iff, s_isreg_kind in Hc as [d Hk]. bool_prop.
  assert (zlen d <= MAX_CONFIG_BYTES) as Hmax.
  { match goal with Hs : _ <= MAX_CONFIG_BYTES |- _ => unfold stat_of in Hs; rewrite Hk in Hs; exact Hs end. }
  eapply obs_bind; [by apply (obs_read_turns f fd n d)|]. intros r ->.
  eapply obs_bind; [by apply obs_raise_if|]. intros u2 _. eapply obs_bind; [by apply obs_query|]. intros after _.
  eapply obs_bind; [by apply obs_raise_if|]. intros u3 _. eapply obs_bind; [by apply obs_lift|]. intros text Ht. cbv beta in Ht.
  eapply obs_conseq; [apply obs_lift|]. intros config Hl. exists d. split; [|unfold decoded; by rewrite Ht].
  exists n. split_and!; try done. by apply (mode_bits fd).
Qed.

(** *** The file that is opened *)

(** The node of the configuration: what the path's components name, or [config.json]
    in the inherited directory, which must be the caller's and not writable by others. *)
Definition names_config (f : fs) (source : pystr) (fd : Z) : Prop :=
  match inherited_descriptor (as_posix (pure_path source)) with
  | None => names f !! pp_comps (pure_path source) = Some fd
  | Some digits =>
      exists number d n dir, int_of_digits digits = Ok number /\ inherited number = Some d /\
        nodes f !! d = Some n /\ i_kind n = KDir /\ i_uid n = euid me /\ Z.land (i_perm n) 0x12 = 0 /\
        names f !! dir = Some d /\ names f !! (dir ++ [str "config.json"]) = Some fd
  end.

Lemma obs_open_name f pre d directory c : fs_wf f -> names f !! pre = Some d -> is_dir_at f pre = true -> (c <> [] -> plain_name c = true) ->
  observes f (open_name directory d c) (fun fd =>
    c <> [] /\ names f !! (pre ++ [c]) = Some fd /\ (directory = true -> is_dir_at f (pre ++ [c]) = true)).
Proof.
  intros Hwf Hd Hdir Hc. unfold open_name. destruct c as [|x c]; [by eapply obs_conseq; [by apply obs_query|]|].
  eapply obs_conseq; [by apply obs_query|]. intros fd Ho. cbv beta in Ho.
  destruct (openat_child f pre d directory (x :: c) fd Hwf Hd Hdir ltac:(by apply Hc) Ho) as (? & ? & _). done.
Qed.

Lemma obs_open_root f : observes f (open_ false true []) (fun top => names f !! [] = Some top).
Proof.
  eapply obs_conseq; [by apply obs_query|]. intros top Htop. cbv beta in Htop. unfold fs_open in Htop. simpl in Htop.
  destruct (node_at f []) as [[i n]|] eqn:Hi; [|done]. apply node_at_nodes in Hi as [Hi _].
  destruct (i_kind n); try done; injection Htop as <-; done.
Qed.

Lemma location_named f i k : location_of f i = Some k -> names f !! k = Some i.
Proof.
  unfold location_of. destruct (List.find _ _) as [[k' j]|] eqn:Hf; [|done]. intros [= <-]. apply find_some in Hf as [Hin Hj].
  simpl in Hj. apply Z.eqb_eq in Hj as ->. by apply list_elem_of_In, elem_of_map_to_list in Hin.
Qed.

Lemma obs_load_config f source : fs_wf f -> is_dir_at f [] = true ->
  observes f (load_config inherited source) (fun config =>
    exists fd data, names_config f source fd /\ private_file f fd data /\ decoded data = Ok config).
Proof.
  intros Hwf Hroot. unfold load_config, names_config. eapply obs_bind; [by apply obs_raise_if|]. intros u Hc. cbv beta in Hc.
  apply orb_false_iff in Hc as [Hr Hn]. apply str_eqb_neq in Hr. apply negb_false_iff, bool_decide_eq_true in Hn.
  pose proof (canonical_components source Hr Hn) as Hp. destruct (inherited_descriptor _) as [digits|].
  - unfold inherited_fd. eapply obs_bind.
    { eapply obs_bind; [by apply obs_lift|]. intros number Hnum. eapply obs_bind; [by apply obs_raise_if|]. intros u1 _.
      instantiate (1 := fun d => exists number, int_of_digits digits = Ok number /\ inherited number = Some d).
      destruct (inherited number) as [d|] eqn:Hi; [by apply obs_ret; exists number|]. by eapply obs_conseq; [by apply obs_query|]. }
    intros d (number & Hnum & Hi). eapply obs_bind; [by apply obs_query|]. intros info Hinfo. cbv beta in Hinfo.
    unfold fs_fstat in Hinfo. destruct (nodes f !! d) as [n|] eqn:Hd; [|done]. injection Hinfo as <-.
    eapply obs_bind; [by apply obs_raise_if|]. intros u1 Hck. cbv beta in Hck. apply orb_false_iff in Hck as [Hck Hw].
    apply orb_false_iff in Hck as [Hdir Hown]. bool_prop. apply s_isdir_kind in Hdir.
    eapply obs_bind; [by apply obs_query|]. intros fd Hfd. cbv beta in Hfd.
    eapply obs_conseq; [apply obs_load_descriptor|]. intros config (data & Hpriv & Hdec). exists fd, data. split_and!; [|done|done].
    assert (exists dir, location_of f d = Some dir) as [dir Hloc].
    { unfold fs_openat in Hfd. rewrite Hd, Hdir in Hfd. destruct (location_of f d); [eauto|done]. }
    apply location_named in Hloc. assert (is_dir_at f dir = true) as Hdd by (unfold is_dir_at, node_at; by rewrite Hloc, Hd, Hdir).
    destruct (openat_child f dir d false (str "config.json") fd Hwf Hloc Hdd eq_refl Hfd) as (Hname & _ & _).
    exists number, d, n, dir. split_and!; try done. by apply (mode_bits d).
  - eapply obs_bind; [apply obs_open_root|]. intros top Htop. set (comps := pp_comps (pure_path source)) in *. eapply obs_bind.
    { apply (obs_for_until f (fun don d => names f !! don = Some d /\ is_dir_at f don = true)); [|done].
      intros don x rest d Hl [Hd Hdir]. eapply obs_bind; [apply (obs_open_name f don d true x); try done|].
      - intros _. destruct (decide (comps = [])) as [He|He]; [rewrite He in Hl; by destruct don|].
        rewrite (app_removelast_last [] He), Hl in Hp. apply plain_app in Hp as [Hp _]. apply plain_app in Hp as [_ Hp].
        by apply Forall_cons_iff in Hp as [Hp _].
      - intros child (_ & Hch & Hcd). eapply obs_bind; [by apply obs_query|]. intros u1 _. apply obs_ret. auto. }
    intros [directory failed] Hd. cbn [fst snd] in Hd. eapply obs_bind.
    { apply obs_finally; [|by eapply obs_any, obs_query]. destruct failed as [e|]; [apply obs_reraise|].
      destruct (Hd eq_refl) as [Hdn Hdd]. apply (obs_open_name f (removelast comps) directory false); [done|apply Hdn|done|].
      intros Hne. unfold path_name in *. fold comps in Hne |- *. destruct (decide (comps = [])) as [He|He]; [by rewrite He in Hne|].
      rewrite (app_removelast_last [] He) in Hp. apply plain_app in Hp as [_ Hp]. by apply Forall_cons_iff in Hp as [Hp _]. }
    intros fd (Hne & Hfd & _). eapply obs_conseq; [apply obs_load_descriptor|]. intros config (data & Hpriv & Hdec). exists fd, data.
    split_and!; [|done|done]. unfold path_name in *. fold comps in Hne, Hfd.
    rewrite (app_removelast_last [] (l := comps)); [done|]. intros He. by rewrite He in Hne.
Qed.

(** The configuration that is validated is read from the file its path names
    literally: no component of the path is a symbolic link (or the path is
    [config.json] in an inherited directory that the caller owns and nobody else can
    write), the file is a regular file of the caller with one link that nobody else can
    write, of at most one MiB, and the result is its whole content, decoded; reading
    changes nothing. *)
Theorem load_config_private w source : fs_wf (w_fs w) -> is_dir_at (w_fs w) [] = true ->
  match load_config inherited source w with
  | (Ok config, w') => w_fs w' = w_fs w /\ exists fd data,
      names_config (w_fs w) source fd /\ private_file (w_fs w) fd data /\ decoded data = Ok config
  | (Err _, w') => w_fs w' = w_fs w
  end.
Proof.
  intros Hwf Hr. exact (obs_run (w_fs w) _ _ w (obs_load_config (w_fs w) source Hwf Hr) eq_refl).
Qed.

(** *** Handing over *)

Lemma decoded_texts data config : decoded data = Ok config -> texts config = true.
Proof.
  unfold decoded. intros Hd. inv_ok. apply utf8_strict_scalars in E. eapply loads_texts; [| |exact E|exact Hd].
  - intros d d' Hs. unfold strict_object in Hs. by apply strict_pairs_ok in Hs as [-> _]; [|constructor].
  - by intros f v [= <-].
Qed.

(** What a successful run leaves: the guest's projection in the first output, and in the
    second a plan that the materializer reads as exactly the admitted binds. *)
Definition handed_over (outputs : list pystr) (config : pyval) (f f' : fs) : Prop :=
  match outputs with
  | [] => f' = f
  | [output] => exists guest, guest_projection config = Ok guest /\
      wrote (path_from cwd output) (projection_bytes float_repr guest) f f'
  | [output; bind_output] => exists guest f1 plan_bytes ro seeds, guest_projection config = Ok guest /\
      wrote (path_from cwd output) (projection_bytes float_repr guest) f f1 /\
      wrote (path_from cwd bind_output) plan_bytes f1 f' /\ mounts_of config = Ok (ro, seeds) /\
      read_plan plan_bytes = Ok (map (record_of false) ro ++ map (record_of true) seeds)
  | _ => False
  end.

Definition accepted_source (f : fs) (source : pystr) (config : pyval) : Prop :=
  exists fd data, names_config f source fd /\ private_file f fd data /\ decoded data = Ok config /\ validate config = Ok tt.

Lemma triple_write_projection output projection f : writable f ->
  triple (fun x => x = f) (write_projection float_repr cwd output projection)
    (fun _ f' => exists v, projection = Ok v /\ writable f' /\ wrote (path_from cwd output) (projection_bytes float_repr v) f f') (fun _ => True).
Proof.
  intros Hw. eapply (triple_bind _ _ (fun v x => x = f /\ projection = Ok v)); [by apply triple_lift|]. intros v.
  apply triple_pre. intros x [-> Hv]. eapply triple_conseq; [by apply (triple_write_bytes Hquiet)|done| |done].
  intros u f' [??]. by exists v.
Qed.

Lemma triple_main source outputs f : writable f ->
  triple (fun x => x = f) (main inherited float_repr cwd (source :: outputs))
    (fun status f' => status = 0 -> exists config, accepted_source f source config /\ handed_over outputs config f f') (fun _ => True).
Proof.
  intros Hw. unfold main. destruct (2 <? length outputs)%nat eqn:Hlen; [by apply triple_ret|].
  eapply triple_catch; [|intros e; destruct (_ || _); [by apply triple_ret|by apply (triple_reraise (fun _ => True))]].
  eapply triple_bind.
  { eapply triple_conseq; [apply (obs_load_config f source (wr_wf f Hw) (wr_root f Hw))|done|intros a g Hag; exact Hag|done]. }
  intros config. apply triple_pre.
  intros x [-> (fd & data & Hn & Hp & Hd)]. eapply (triple_bind _ _ (fun _ x => x = f /\ validate config = Ok tt)); [by apply triple_lift; [intros []|]|].
  intros u. apply triple_pre. intros x [-> Hv]. pose proof (decoded_texts data config Hd) as Ht.
  eapply (triple_bind _ _ (fun _ f' => handed_over outputs config f f')); [|intros u'; apply triple_ret; intros f' Hh _; exists config; split; [by exists fd, data|done]].
  destruct outputs as [|output [|bind_output [|o outputs]]]; [by apply triple_ret| | |by apply Nat.ltb_ge in Hlen; simpl in Hlen; lia].
  - eapply triple_conseq; [by apply triple_write_projection|done| |done]. intros u1 f' (v & Hg & _ & Hwr). by exists v.
  - eapply triple_bind; [by apply (triple_write_projection output (guest_projection config) f)|]. intros u1. apply triple_pre.
    intros f1 (guest & Hg & Hw1 & Hwr). eapply triple_conseq; [by apply triple_write_projection|done| |done].
    intros u2 f' (plan & Hb & _ & Hwr2). destruct (written_plan_accepted config float_repr plan Ht Hv Hb) as (ro & seeds & Hm & Hr).
    exists guest, f1, (projection_bytes float_repr plan), ro, seeds. done.
Qed.

(** C36. When the validator exits with status 0, the configuration was read as in C35
    and is valid; without outputs nothing has changed, the first output is a file with
    the guest's projection, and the second a file that the materializer, decoding it
    with its own rules, accepts as a plan of exactly the admitted binds: for any
    strings the configuration may contain, and nothing but the outputs has changed. *)
Theorem main_hands_over w source outputs w' : writable (w_fs w) ->
  main inherited float_repr cwd (source :: outputs) w = (Ok 0, w') ->
  exists config, accepted_source (w_fs w) source config /\ handed_over outputs config (w_fs w) (w_fs w').
Proof.
  intros Hw Hm. pose proof (triple_main source outputs (w_fs w) Hw w eq_refl) as Ht. rewrite Hm in Ht. by apply Ht.
Qed.
End system.
End OciLoadSafe.
