(* ===== verification/OciLoadRun.v ===== *)
(** * A configuration, validated

    The example configuration in a file: it is read, validated and projected. *)
From Stdlib Require Import ZArith Lia.
From Stdlib Require Import Init.Byte.
From stdpp Require Import base list sets strings option gmap.
From S2P Require Import Prelude PyStr PyVal Bytes Json Sys Held FsRules RootfsScanSafe RootfsRun WriteFile BindPlan Oci OciLoad OciLoadSafe.

Open Scope string_scope.
Open Scope list_scope.
Open Scope Z_scope.

Module OciLoadRun.
Import RootfsScanSafe RootfsRun WriteFile OciLoadSafe.

Definition config_text : bytes := ascii_bytes (dumps no_floats plain example_config).
Definition bundle : fs :=
  FS (list_to_map [([], 1); ([str "b"], 2); (strs ["b"; "config.json"], 3); ([str "o"], 4)])
     (list_to_map [(1, node KDir 0x1ED 2 []); (2, node KDir 0x1ED 2 []); (3, node (KFile config_text) 0x180 1 []);
                   (4, node KDir 0x1ED 2 [])])
     5 7.
Definition bundle_start : world := World bundle 0.
Definition no_descriptor (n : Z) : option Z := None.

Definition writableb (f : fs) : bool := fs_wfb f && fresh_okb f && is_dir_at f [].
Lemma writableb_ok f : writableb f = true -> writable f.
Proof.
  unfold writableb. intros Hb. apply andb_true_iff in Hb as [Hb Hr]. apply andb_true_iff in Hb as [Hw Hf].
  split; [by apply fs_wfb_ok|by apply fresh_okb_ok|done].
Qed.

Lemma bundle_writable : writableb bundle = true.
Proof. vm_cast_no_check (@eq_refl bool true). Qed.

Definition load_run (w : world) : res pyval * world := @load_config here no_descriptor (str "/b/config.json") w.
Definition validate_run (w : world) : res Z * world :=
  @main here no_descriptor no_floats [str "o"] (strs ["/b/config.json"; "guest"; "/o/plan"]) w.

Definition is_ok {A} (r : res A * world) : bool := match r with (Ok _, _) => true | _ => false end.
Definition exits_0 (r : res Z * world) : bool := match r with (Ok 0, _) => true | _ => false end.

Lemma load_run_ok : is_ok (load_run bundle_start) = true.
Proof. vm_cast_no_check (@eq_refl bool true). Qed.
Lemma handover_run_ok : exits_0 (validate_run bundle_start) = true.
Proof. vm_cast_no_check (@eq_refl bool true). Qed.

Lemma load_config_private_witness : exists config fd data,
  @names_config here no_descriptor bundle (str "/b/config.json") fd /\ @private_file here bundle fd data /\ decoded data = Ok config.
Proof.
  pose proof load_run_ok as Hok. pose proof (writableb_ok _ bundle_writable) as Hw. unfold load_run in Hok.
  change bundle with (w_fs bundle_start) in Hw |- *. revert Hok Hw. generalize bundle_start. intros w Hok Hw.
  pose proof (@load_config_private here (lone_quiet superuser []) no_descriptor w (str "/b/config.json") (wr_wf _ Hw) (wr_root _ Hw)) as Ht.
  destruct (load_config no_descriptor (str "/b/config.json") w) as [[config|e] w']; [|done].
  destruct Ht as (_ & fd & data & H1 & H2 & H3). by exists config, fd, data.
Defined.

Lemma main_hands_over_witness : exists w' config, validate_run bundle_start = (Ok 0, w') /\
  @accepted_source here no_descriptor bundle (str "/b/config.json") config /\
  handed_over no_floats [str "o"] (strs ["guest"; "/o/plan"]) config bundle (w_fs w').
Proof.
  pose proof handover_run_ok as Hok. pose proof (writableb_ok _ bundle_writable) as Hw. unfold validate_run in *.
  change bundle with (w_fs bundle_start) in Hw |- *. revert Hok Hw. generalize bundle_start. intros w Hok Hw.
  pose proof (@main_hands_over here (lone_quiet superuser []) no_descriptor no_floats [str "o"] w (str "/b/config.json")
    (strs ["guest"; "/o/plan"])) as Ht.
  change (strs ["/b/config.json"; "guest"; "/o/plan"]) with (str "/b/config.json" :: strs ["guest"; "/o/plan"]) in *.
  destruct (main no_descriptor no_floats [str "o"] (str "/b/config.json" :: strs ["guest"; "/o/plan"]) w) as [[z|e] w']; [|done].
  assert (z = 0) as -> by (by destruct z). destruct (Ht w' Hw eq_refl) as (config & H1 & H2). by exists w', config.
Defined.
End OciLoadRun.
