(* ===== verification/RootPath.v ===== *)
(** * The root path of a container (scripts/validate-runtime-root.py)

    [root.path] of a configuration is resolved below the bundle, or below one of the
    container storage roots, without a symbolic link on the way.  The bundle may be an
    inherited descriptor, [/proc/self/fd/N]; what a descriptor number refers to, the working
    directory and the environment variable are parameters. *)
From Stdlib Require Import ZArith Lia.
From Stdlib Require Import Init.Byte.
From stdpp Require Import base list sets strings option gmap.
From S2P Require Import Prelude PyStr PyVal Bytes Json Sys Held RealPath OciLoad.

Open Scope string_scope.
Open Scope list_scope.
Open Scope Z_scope.

Module RootPath.
Export RealPath.

(** [path.relative_to(anchor)]: the components below the anchor. *)
Definition relative_to (p anchor : ppath) : res path :=
  if (pp_root p =s pp_root anchor) && startswith (pp_comps p) (pp_comps anchor)
  then Ok (drop (length (pp_comps anchor)) (pp_comps p))
  else raise ValueError "is not in the subpath of".

Definition beneath (p anchor : ppath) : bool := match relative_to p anchor with Ok _ => true | Err _ => false end.

(** [max(matching, key=lambda item: len(item.parts))]: the first of the longest. *)
Definition longer (best item : ppath) : ppath := if zlen (parts best) <? zlen (parts item) then item else best.

Definition PROC_FD : re := Cat (Lit "/proc/self/fd/") (Plus (Cls is_ascii_digit)).
Definition inherited_number (text : pystr) : option pystr :=
  if fullmatch PROC_FD text then Some (drop (length (str "/proc/self/fd/")) text) else None.

(** [PurePosixPath(configured)] of a value of the configuration. *)
Definition path_argument (v : pyval) : res pystr :=
  match v with VStr s => Ok s | _ => raise TypeError "argument should be a str or an os.PathLike object" end.

(** [json.loads] without hooks: the last of repeated keys counts. *)
Definition plain_object (pairs : dict) : res dict := Ok (foldl (fun d kv => dset kv.1 kv.2 d) [] pairs).

(** The storage roots of [MK_ALLOWED_ABSOLUTE_ROOTS]. *)
Definition DEFAULT_ROOTS : pystr := str "/var/lib/docker:/var/lib/containerd".
Definition allowed_roots (environment : option pystr) : list pystr :=
  List.filter (fun item => negb (item =s str "")) (split_on 58 (default DEFAULT_ROOTS environment)).

Definition root_line (json : bool) (candidate : ppath) (info : stat_result) : pystr :=
  if json
  then dumps no_floats spaced (VDict [(str "path", VStr (as_posix candidate)); (str "device", VInt (st_dev info)); (str "inode", VInt (st_ino info))])
  else as_posix candidate.

Section root.
Context `{machine}.
Context (inherited : Z -> option Z) (cwd : path).

(** The bundle: a path, with the directory it stands for when it is inherited. *)
Definition anchor_t : Type := option Z * ppath.

(** [lstat] of what is below an anchor. *)
Definition lstat_below (anchor : anchor_t) (below : path) : M stat_result :=
  match anchor.1 with
  | Some fd => held_stat false fd below
  | None => lstat (pp_comps anchor.2 ++ below)
  end.

Definition component_step (anchor : anchor_t) (current : path) (part : pystr) : M path :=
  let current := current ++ [part] in
  let* info := lstat_below anchor current in
  mraise_if (s_islnk (st_mode info)) ValueError "root path contains symlink component" ;;;
  mret current.
Definition reject_symlink_components (p : ppath) (anchor : anchor_t) : M path :=
  let* relative := lift (relative_to p anchor.2) in
  mfor_each (component_step anchor) [] relative.

Definition validated_bundle_anchor (bundle : pystr) : M anchor_t :=
  let text := as_posix (pure_path bundle) in
  mraise_if (negb (startswith text (str "/")) || negb (normpath text =s text)) ValueError
    "bundle path is not absolute and canonical" ;;;
  match inherited_number text with
  | Some digits =>
      let* fd := OciLoad.inherited_fd inherited digits in
      let* info := fstat fd in
      mraise_if (negb (s_isdir (st_mode info))) ValueError "inherited bundle descriptor is not a directory" ;;;
      mret (Some fd, pure_path text)
  | None =>
      let anchor := pure_path text in
      reject_symlink_components anchor (None, PPath (str "/") []) ;;;
      let* info := lstat (pp_comps anchor) in
      mraise_if (negb (s_isdir (st_mode info))) ValueError "bundle path is not a directory" ;;;
      mret (None, anchor)
  end.

(** [Path(item).resolve(strict=True)] *)
Definition resolved_item (item : pystr) : M ppath :=
  let* p := resolve_strict cwd (as_posix (pure_path item)) in mret (PPath (str "/") p).

(** The path and the anchor that it is checked below. *)
Definition candidate_of (bundle : anchor_t) (configured : pystr) (allowed_absolute : list pystr) : M (ppath * anchor_t) :=
  let raw := pure_path configured in
  if negb (pp_root raw =s str "") then
    let candidate := pure_path configured in
    let* anchors := mmap resolved_item allowed_absolute in
    match List.filter (beneath candidate) anchors with
    | [] => mraise ValueError "absolute root.path is outside the configured container storage roots"
    | first :: others => mret (candidate, (None, foldl longer first others))
    end
  else
    mraise_if (bool_decide (parts raw = []) || existsb (fun part => part =s str "") (parts raw)) ValueError
      "relative root.path contains traversal or non-canonical components" ;;;
    let candidate := PPath (pp_root bundle.2) (pp_comps bundle.2 ++ parts raw) in
    mraise_if (negb (beneath candidate bundle.2)) ValueError "relative root.path escapes the bundle" ;;;
    mret (candidate, bundle).

Definition resolve (bundle : pystr) (value : pyval) (allowed_absolute : list pystr) : M (ppath * stat_result) :=
  let* bundle := validated_bundle_anchor bundle in
  let* configured := lift (path_argument value) in
  let raw := pure_path configured in
  mraise_if (bool_decide (configured = []) || has_char NUL configured) ValueError "root.path is empty or contains NUL" ;;;
  mraise_if (negb (as_posix raw =s configured) || existsb (fun part => mem part (strs ["."; ".."])) (parts raw)) ValueError
    "root.path contains traversal or non-canonical components" ;;;
  let* (candidate, anchor) := candidate_of bundle configured allowed_absolute in
  let* below := reject_symlink_components candidate anchor in
  let* info := lstat_below anchor below in
  mraise_if (negb (s_isdir (st_mode info))) ValueError "root.path is not a directory" ;;;
  mret (candidate, info).

(** The exit status and the line printed. *)
Definition main (environment : option pystr) (bundle : pystr) (config_path : path) (json : bool) : M (Z * option pystr) :=
  mcatch
    (let* data := read_bytes config_path in
     let* text := lift (utf8_decode Strict data) in
     let* config := lift (loads plain_object float_constant text) in
     let allowed := allowed_roots environment in
     let* root := lift (getitem config (str "root")) in
     let* value := lift (getitem root (str "path")) in
     let* (candidate, info) := resolve bundle value allowed in
     mret (0, Some (root_line json candidate info)))
    (fun e => if is_os_error (exn_cls e) || is_value_error (exn_cls e) || bool_decide (exn_cls e ∈ [KeyError; TypeError])
              then mret (1, None) else reraise e).
End root.
End RootPath.
