(* ===== verification/RootPathSafe.v ===== *)
(** * Where an accepted root path leads

    The root directory that is handed on lies literally below the bundle, or below a place
    that one of the storage roots leads to, with no symbolic link on the way, and its device
    and inode are reported. *)
From Stdlib Require Import ZArith Lia.
From Stdlib Require Import Init.Byte.
From stdpp Require Import base list sets strings option gmap.
From S2P Require Import Prelude PyStr PyVal Bytes Json Sys Held RealPath FsRules RootfsScanSafe RootfsRun MaterializeSafe OciLoadSafe RootPath.

Open Scope string_scope.
Open Scope list_scope.
Open Scope Z_scope.

Module RootPathSafe.
Import RootfsScanSafe RootfsRun MaterializeSafe OciLoadSafe.
Export RootPath.

(** ** Locations *)

Lemma spine_stat f p s : spine f p -> fs_stat false f p = Ok s -> exists i n, node_at f p = Some (i, n) /\ s = stat_of i n.
Proof.
  intros Hp Hs. destruct p as [|c p _] using rev_ind.
  - unfold fs_stat in Hs. cbn in Hs. destruct (node_at f []) as [[i n]|]; [|done]. injection Hs as <-. eauto.
  - pose proof (spine_parent f _ Hp) as Hq. rewrite removelast_last in Hq. destruct Hp as (Hp & _). apply plain_app in Hp as [_ Hc].
    apply Forall_cons_iff in Hc as [Hc _]. by apply lstat_child in Hs as [_ Hs].
Qed.

Lemma spine_real f p : spine f p -> is_dir_at f p = true -> real_dir f p.
Proof. intros (_ & Hd & _) Hp q Hq. destruct (decide (q = p)) as [->|]; [done|auto]. Qed.

Lemma named_spine f p i n : fs_wf f -> names f !! p = Some i -> nodes f !! i = Some n -> not_link (i_kind n) -> spine f p.
Proof.
  intros Hwf Hp Hi Hl. split_and!; [by eapply named_plain|by eapply named_dirs|]. intros _. exists i, n. unfold node_at. by rewrite Hp, Hi.
Qed.

(** ** The walk below an anchor *)

(** The location of an anchor: what is found below the anchor is found below it. *)
Definition anchored (f : fs) (anchor : anchor_t) (top : path) : Prop :=
  spine f top /\
  match anchor.1 with
  | Some fd => names f !! top = Some fd /\ is_dir_at f top = true
  | None => top = pp_comps anchor.2
  end.

Definition stat_below (f : fs) (anchor : anchor_t) (below : path) : res stat_result :=
  match anchor.1 with
  | Some fd => fs_held_stat false f fd below
  | None => fs_stat false f (pp_comps anchor.2 ++ below)
  end.

Lemma stat_below_at f anchor top below s : fs_wf f -> anchored f anchor top -> stat_below f anchor below = Ok s ->
  below <> [] \/ anchor.1 = None -> fs_stat false f (top ++ below) = Ok s.
Proof.
  intros Hwf [_ Ha]. unfold stat_below. destruct (anchor.1) as [fd|]; [|by subst top].
  destruct Ha as [Hn Hd]. unfold fs_held_stat, held_node. intros Hs [Hb|]; [|done]. destruct below as [|c below]; [done|].
  unfold held_path in Hs. rewrite (location_of_dir f Hwf top fd Hn Hd) in Hs. unfold fs_stat. inv_ok.
  destruct (node_at f a0) as [[i n]|]; [|done]. by injection E as <-.
Qed.

Section walk.
Context `{machine} (Hquiet : quiet) (f : fs) (Hwf : fs_wf f).

Lemma obs_lstat_below anchor below : observes f (lstat_below anchor below) (fun s => stat_below f anchor below = Ok s).
Proof. unfold lstat_below, stat_below. destruct (anchor.1); by apply obs_query. Qed.

Lemma obs_reject_symlinks p anchor top : anchored f anchor top -> plain_path (pp_comps p) ->
  observes f (reject_symlink_components p anchor) (fun below =>
    pp_root p = pp_root anchor.2 /\ pp_comps p = pp_comps anchor.2 ++ below /\ spine f (top ++ below)).
Proof.
  intros Ha Hp. eapply obs_bind; [apply obs_lift|]. intros relative Hrel. cbv beta in Hrel. unfold relative_to in Hrel.
  destruct ((_ =s _) && _) eqn:E in Hrel; [|done]. apply andb_true_iff in E as [E H0]. apply str_eqb_eq in E. apply startswith_prefix in H0 as [r Hr].
  rewrite Hr, drop_app_length in Hrel. injection Hrel as <-. rewrite Hr in Hp. apply plain_app in Hp as [_ Hp].
  eapply obs_conseq; [apply (obs_for_each f (fun don current => current = don /\ spine f (top ++ don)))|].
  - rewrite app_nil_r. split; [done|]. apply Ha.
  - intros don c rest current Hl [-> Hs]. unfold component_step. eapply obs_bind; [apply obs_lstat_below|]. intros info Hi. cbv beta in Hi.
    eapply obs_bind; [by apply obs_raise_if|]. intros u1 Hnl. cbv beta in Hnl. apply obs_ret. split; [done|].
    apply (stat_below_at f anchor top) in Hi; [|done|done|left; by destruct don]. rewrite app_assoc in Hi |- *.
    assert (plain_name c = true) as Hc.
    { rewrite Hl in Hp. apply plain_app in Hp as [_ Hp]. by apply Forall_cons_iff in Hp as [Hp _]. }
    apply lstat_child in Hi as (Hrd & i & n & Hn & ->); [|done|done]. eapply spine_child; try done.
    unfold s_islnk in Hnl. rewrite s_ifmt_stat in Hnl. by destruct (i_kind n).
  - intros below [-> Hs]. done.
Qed.

(** A directory that has no name any more has nothing below it. *)
Lemma obs_reject_nameless p fd anchor : location_of f fd = None -> relative_to p anchor <> Ok [] ->
  observes f (reject_symlink_components p (Some fd, anchor)) (fun _ => False).
Proof.
  intros Hl Hr. eapply obs_bind; [apply obs_lift|]. intros relative Hrel. cbv beta in Hrel. cbn [snd] in Hrel.
  destruct relative as [|c relative]; [done|]. cbn [mfor_each]. eapply (obs_bind f _ (fun _ => False)); [|by intros ? []]. unfold component_step.
  eapply obs_bind; [apply obs_lstat_below|]. intros info Hi. cbv beta in Hi. unfold stat_below in Hi. cbn [fst app] in Hi.
  unfold fs_held_stat, held_node, held_path in Hi. by rewrite Hl in Hi.
Qed.
End walk.

(** ** The bundle *)

Section root.
Context `{machine} (Hquiet : quiet) (inherited : Z -> option Z) (cwd : path) (f : fs) (Hwf : fs_wf f) (Hcwd : spine f cwd).

(** A bundle: a real directory at its literal path, or the directory of a descriptor. *)
Definition bundle_ok (bundle : pystr) (anchor : anchor_t) : Prop :=
  anchor.2 = pure_path (as_posix (pure_path bundle)) /\ plain_path (pp_comps anchor.2) /\
  match anchor.1 with
  | None => pp_root anchor.2 = str "/" /\ real_dir f (pp_comps anchor.2)
  | Some fd => exists digits number n, inherited_number (as_posix (pure_path bundle)) = Some digits /\ int_of_digits digits = Ok number /\
      inherited number = Some fd /\ nodes f !! fd = Some n /\ i_kind n = KDir
  end.

Lemma absolute_root text : startswith text (str "/") = true -> pp_root (pure_path text) <> [].
Proof.
  intros Hs. apply startswith_prefix in Hs. unfold pure_path. destruct (splitroot_slash text Hs) as [Hr|Hr];
    destruct (splitroot text) as [root rel]; simpl in *; by subst root.
Qed.

Lemma obs_bundle_anchor bundle : observes f (validated_bundle_anchor inherited bundle) (bundle_ok bundle).
Proof.
  unfold validated_bundle_anchor, bundle_ok. set (text := as_posix (pure_path bundle)).
  eapply obs_bind; [by apply obs_raise_if|]. intros ? Hc. cbv beta in Hc. apply orb_false_iff in Hc as [Habs Hn].
  apply negb_false_iff in Habs, Hn. apply str_eqb_eq in Hn. apply absolute_root in Habs.
  pose proof (normal_components text Habs Hn) as Hp. destruct (inherited_number text) as [digits|] eqn:Hd.
  - eapply (obs_bind f _ (fun d => exists number, int_of_digits digits = Ok number /\ inherited number = Some d)).
    { unfold inherited_fd. eapply obs_bind; [by apply obs_lift|]. intros number Hnum. eapply obs_bind; [by apply obs_raise_if|]. intros ? _.
      destruct (inherited number) as [d|] eqn:Hi; [by apply obs_ret; exists number|]. by eapply obs_conseq; [by apply obs_query|]. }
    intros d (number & Hnum & Hi). eapply obs_bind; [by apply obs_query|]. intros info Hinfo. cbv beta in Hinfo.
    unfold fs_fstat in Hinfo. destruct (nodes f !! d) as [n|] eqn:Hdn; [|done]. injection Hinfo as <-.
    eapply obs_bind; [by apply obs_raise_if|]. intros ? Hck. cbv beta in Hck. apply negb_false_iff, s_isdir_kind in Hck.
    apply obs_ret. cbn [fst snd]. split_and!; [done|done|]. exists digits, number, n. done.
  - eapply obs_bind; [apply (obs_reject_symlinks Hquiet f Hwf _ _ []); [by split; [apply spine_root|]|done]|].
    intros below (Hroot & Hcomps & Hs). cbn [snd pp_root pp_comps app] in *. subst below.
    eapply obs_bind; [by apply obs_query|]. intros info Hi. cbv beta in Hi. eapply obs_bind; [by apply obs_raise_if|]. intros u2 Hdir.
    cbv beta in Hdir. apply negb_false_iff in Hdir. apply spine_stat in Hi as (i & n & Hin & ->); [|done]. apply s_isdir_kind in Hdir.
    apply obs_ret. cbn [fst snd]. split_and!; [done|done|done|]. apply spine_real; [done|]. unfold is_dir_at. by rewrite Hin, Hdir.
Qed.

(** ** The candidate *)

(** Where an allowed storage root leads. *)
Definition item_leads (item : pystr) (top : path) : Prop :=
  let text := as_posix (pure_path item) in leads f (base cwd text) (split_on SLASH text) top.

Lemma obs_resolved_items allowed :
  observes f (mmap (resolved_item cwd) allowed) (Forall2 (fun item a => exists p, a = PPath (str "/") p /\ item_leads item p /\ spine f p) allowed).
Proof.
  apply obs_mmap. intros item _. eapply obs_bind; [by apply obs_resolve_strict|]. intros p [Hl Hs]. apply obs_ret. eauto.
Qed.

Lemma longest_elem first others : foldl longer first others ∈ first :: others.
Proof.
  revert first; induction others as [|x others IH]; intros first; cbn [foldl]; [by left|].
  specialize (IH (longer first x)). apply elem_of_cons in IH as [IH|IH]; [|by do 2 right]. rewrite IH. unfold longer.
  destruct (_ <? _); [right|]; left.
Qed.

(** The place of the root: literally below the bundle, or below where a storage root leads. *)
Definition root_at (bundle configured : pystr) (allowed : list pystr) (candidate : ppath) (loc : path) : Prop :=
  let raw := pure_path configured in
  plain_path (pp_comps raw) /\
  if pp_root raw =s str "" then
    pp_comps raw <> [] /\ exists anchor top, bundle_ok bundle anchor /\ anchored f anchor top /\
      candidate = PPath (pp_root anchor.2) (pp_comps anchor.2 ++ pp_comps raw) /\ loc = top ++ pp_comps raw
  else
    candidate = PPath (str "/") loc /\ loc = pp_comps raw /\
    exists item top, item ∈ allowed /\ item_leads item top /\ top `prefix_of` loc.

(** What the walk below the anchor must have seen. *)
Lemma obs_absolute configured allowed bundle : plain_path (pp_comps (pure_path configured)) -> pp_root (pure_path configured) <> [] ->
  observes f (candidate_of cwd bundle configured allowed) (fun r =>
    r.1 = pure_path configured /\ r.2.1 = None /\ pp_root r.2.2 = str "/" /\ anchored f r.2 (pp_comps r.2.2) /\
    exists item, item ∈ allowed /\ item_leads item (pp_comps r.2.2)).
Proof.
  intros Hp Hr. unfold candidate_of. rewrite (proj2 (str_eqb_neq _ _)) by done. cbn [negb].
  eapply obs_bind; [apply obs_resolved_items|]. intros anchors Hall. destruct (List.filter _ anchors) as [|first others] eqn:Hf; [apply obs_raise|].
  apply obs_ret. cbn [fst snd]. pose proof (longest_elem first others) as Hin. rewrite <-Hf in Hin.
  apply list_elem_of_In, filter_In in Hin as [Hin _]. apply list_elem_of_In, list_elem_of_lookup in Hin as [k Hk].
  destruct (Forall2_lookup_r _ _ _ _ _ Hall Hk) as (item & Hi & p & -> & Hl & Hs). cbn [pp_root pp_comps].
  split_and!; [done|done|done|by split|]. exists item. split; [by eapply list_elem_of_lookup_2|done].
Qed.

Lemma obs_relative anchor configured allowed : pp_root (pure_path configured) = [] ->
  observes f (candidate_of cwd anchor configured allowed) (fun r => pp_comps (pure_path configured) <> [] /\
    r.1 = PPath (pp_root anchor.2) (pp_comps anchor.2 ++ pp_comps (pure_path configured)) /\ r.2 = anchor).
Proof.
  intros Hr. unfold candidate_of, parts. rewrite Hr. cbn [negb str_eqb]. change (([] =s str "")) with true. cbn [negb].
  eapply obs_bind; [by apply obs_raise_if|]. intros ? Hc. cbv beta in Hc. apply orb_false_iff in Hc as [Hc _].
  apply bool_decide_eq_false in Hc. eapply obs_bind; [by apply obs_raise_if|]. intros ? _. by apply obs_ret.
Qed.

Lemma configured_plain configured : existsb (fun part => mem part (strs ["."; ".."])) (parts (pure_path configured)) = false ->
  plain_path (pp_comps (pure_path configured)).
Proof.
  intros He. rewrite existsb_false_iff in He. pose proof (pure_path_comps configured) as Hc. rewrite list.Forall_forall in Hc.
  apply list.Forall_forall. intros c Hin. destruct (Hc c Hin) as (H1 & H2 & _).
  assert (c ∈ parts (pure_path configured)) as Hp by (unfold parts; case_match; set_solver).
  specialize (He c Hp). apply mem_not_elem in He. unfold plain_name. apply negb_true_iff, mem_not_elem. unfold strs in *. simpl in *. set_solver.
Qed.

Definition accepted (bundle : pystr) (value : pyval) (allowed : list pystr) (r : ppath * stat_result) : Prop :=
  exists configured loc i n, value = VStr configured /\ root_at bundle configured allowed r.1 loc /\ real_dir f loc /\
    node_at f loc = Some (i, n) /\ r.2 = stat_of i n.

(** The last check: what the walk reached is a directory. *)
Lemma obs_directory candidate anchor top below : anchored f anchor top -> spine f (top ++ below) -> below <> [] \/ anchor.1 = None ->
  observes f (let* info := lstat_below anchor below in
              mraise_if (negb (s_isdir (st_mode info))) ValueError "root.path is not a directory" ;;; mret (candidate : ppath, info))
    (fun r => r.1 = candidate /\ real_dir f (top ++ below) /\ exists i n, node_at f (top ++ below) = Some (i, n) /\ r.2 = stat_of i n).
Proof.
  intros Ha Hs Hb. eapply obs_bind; [by apply obs_lstat_below|]. intros info Hi. cbv beta in Hi. eapply obs_bind; [by apply obs_raise_if|].
  intros u Hd. cbv beta in Hd. apply negb_false_iff in Hd. apply obs_ret. cbn [fst snd]. apply (stat_below_at f anchor top) in Hi; [|done..].
  apply spine_stat in Hi as (i & n & Hin & ->); [|done]. apply s_isdir_kind in Hd. split_and!; [done| |eauto].
  apply spine_real; [done|]. unfold is_dir_at. by rewrite Hin, Hd.
Qed.

(** The steps after the candidate is known. *)
Definition finish_root (candidate : ppath) (anchor : anchor_t) : M (ppath * stat_result) :=
  let* below := reject_symlink_components candidate anchor in
  let* info := lstat_below anchor below in
  mraise_if (negb (s_isdir (st_mode info))) ValueError "root.path is not a directory" ;;;
  mret (candidate, info).

Lemma obs_finish candidate anchor top : anchored f anchor top -> plain_path (pp_comps candidate) ->
  (forall below, pp_comps candidate = pp_comps anchor.2 ++ below -> below <> [] \/ anchor.1 = None) ->
  observes f (finish_root candidate anchor) (fun r => exists below i n, pp_root candidate = pp_root anchor.2 /\
    pp_comps candidate = pp_comps anchor.2 ++ below /\ r.1 = candidate /\ real_dir f (top ++ below) /\
    node_at f (top ++ below) = Some (i, n) /\ r.2 = stat_of i n).
Proof.
  intros Ha Hp Hb. eapply obs_bind; [by apply (obs_reject_symlinks Hquiet f Hwf _ _ _ Ha)|]. intros below (Hr & Hcomps & Hs).
  eapply obs_conseq; [apply (obs_directory _ _ _ _ Ha Hs); by apply Hb|]. intros r (Hc & Hd & i & n & Hn & Hi). by exists below, i, n.
Qed.

(** The directory that a bundle stands for. *)
Lemma bundle_anchored bundle anchor : bundle_ok bundle anchor ->
  (exists top, anchored f anchor top) \/ (exists fd, anchor.1 = Some fd /\ location_of f fd = None).
Proof.
  intros (_ & Hp & Hb). unfold anchored. destruct (anchor.1) as [fd|].
  - destruct Hb as (digits & number & n & _ & _ & _ & Hn & Hk). destruct (location_of f fd) as [top|] eqn:Hl; [left; exists top|right; eauto].
    apply location_named in Hl. split; [eapply named_spine; [done|exact Hl|exact Hn|by rewrite Hk]|].
    split; [done|]. unfold is_dir_at, node_at. by rewrite Hl, Hn, Hk.
  - destruct Hb as [_ Hrd]. left. exists (pp_comps anchor.2). split; [|done].
    split_and!; [done|intros q Hq _; by apply Hrd|]. intros _. specialize (Hrd _ ltac:(done)). apply is_dir_kind in Hrd as (i & n & Hn & Hk).
    exists i, n. by rewrite Hk.
Qed.

Lemma obs_finish_relative bundle anchor configured allowed (cs := pp_comps (pure_path configured)) : bundle_ok bundle anchor ->
  plain_path cs -> cs <> [] -> pp_root (pure_path configured) = [] ->
  observes f (finish_root (PPath (pp_root anchor.2) (pp_comps anchor.2 ++ cs)) anchor) (accepted bundle (VStr configured) allowed).
Proof.
  intros Hb Hc Hcs Hr. destruct (bundle_anchored bundle anchor Hb) as [[top Ha]|(fd & Hfd & Hl)].
  - eapply obs_conseq; [apply (obs_finish _ _ top Ha)|].
    + apply plain_app. split; [apply Hb|done].
    + cbn [pp_comps]. intros below ->%app_inv_head. by left.
    + intros r (below & i & n & _ & Hcomps & Hc' & Hd & Hn & Hi). cbn [pp_comps] in Hcomps. apply app_inv_head in Hcomps as <-.
      exists configured, (top ++ cs), i, n. split_and!; try done. split; [done|]. rewrite Hr, Hc'. cbn. split; [done|]. by exists anchor, top.
  - eapply (obs_bind f _ (fun _ => False)); [|by intros ? []]. destruct anchor as [fd' a']. cbn [fst snd] in *. subst fd'.
    apply obs_reject_nameless; [done|done|]. unfold relative_to. cbn [pp_root pp_comps]. rewrite str_eqb_refl.
    rewrite (proj2 (startswith_prefix _ _)) by (by eexists). cbn. rewrite drop_app_length. by intros [= ?].
Qed.

Lemma obs_resolve_root bundle value allowed : observes f (resolve inherited cwd bundle value allowed) (accepted bundle value allowed).
Proof.
  unfold resolve. eapply obs_bind; [apply obs_bundle_anchor|]. intros anchor Hb. eapply obs_bind; [apply obs_lift|]. intros configured Hv.
  cbv beta in Hv. destruct value; try done. injection Hv as ->. eapply obs_bind; [by apply obs_raise_if|]. intros ? Hne.
  eapply obs_bind; [by apply obs_raise_if|]. intros ? Hc. cbv beta in Hc. apply orb_false_iff in Hc as [_ Hc]. apply configured_plain in Hc.
  destruct (decide (pp_root (pure_path configured) = [])) as [Hr|Hr].
  - eapply obs_bind; [apply (obs_relative anchor configured allowed Hr)|]. intros [candidate anchor'] (Hcs & Hc1 & Hc2).
    cbn [fst snd] in Hc1, Hc2. subst candidate anchor'. by apply (obs_finish_relative bundle).
  - eapply obs_bind; [by apply obs_absolute|]. intros [candidate [fd anc]] (Hc1 & Hfd & Hroot & Ha & item & Hin & Hl).
    cbn [fst snd] in *. subst fd candidate. eapply obs_conseq; [apply (obs_finish _ _ _ Ha); [done|by right]|].
    intros r (below & i & n & Hr' & Hcomps & Hc' & Hd & Hn & Hi). cbn [snd] in *. rewrite <-Hcomps in Hd, Hn.
    exists configured, (pp_comps (pure_path configured)), i, n. split_and!; try done. split; [done|].
    rewrite (proj2 (str_eqb_neq _ _)) by done. split_and!; [|done|].
    + rewrite Hc'. destruct (pure_path configured) as [r' cs]; cbn [pp_root pp_comps] in *. by rewrite Hr', Hroot.
    + exists item, (pp_comps anc). split_and!; [done|done|]. rewrite Hcomps. by eexists.
Qed.

(** ** The program *)

(** The value that the configuration file has for the root path. *)
Definition configured_root (config_path : path) (value : pyval) : Prop :=
  exists fd data text config root, fs_open false false f config_path = Ok fd /\ fs_read f fd = Ok data /\
    utf8_decode Strict data = Ok text /\ loads plain_object float_constant text = Ok config /\
    getitem config (str "root") = Ok root /\ getitem root (str "path") = Ok value.

Definition reported (environment : option pystr) (bundle : pystr) (config_path : path) (json : bool) (r : Z * option pystr) : Prop :=
  r.1 = 0 -> exists value candidate info, configured_root config_path value /\
    accepted bundle value (allowed_roots environment) (candidate, info) /\ r.2 = Some (root_line json candidate info).

Lemma obs_main environment bundle config_path json :
  observes f (main inherited cwd environment bundle config_path json) (reported environment bundle config_path json).
Proof.
  apply obs_catch; [|intros e; case_match; [by apply obs_ret|apply obs_reraise]].
  eapply obs_bind; [by apply obs_read_bytes|]. intros data (fd & Ho & Hd). eapply obs_bind; [apply obs_lift|]. intros text Ht.
  eapply obs_bind; [apply obs_lift|]. intros config Hc. eapply obs_bind; [apply obs_lift|]. intros root Hr.
  eapply obs_bind; [apply obs_lift|]. intros value Hv. eapply obs_bind; [apply obs_resolve_root|]. intros [candidate info] Ha.
  apply obs_ret. intros _. exists value, candidate, info. split_and!; [|done|done]. by exists fd, data, text, config, root.
Qed.
End root.

(** C5. The root directory of an accepted configuration: it is reported with its device and
    inode, it lies literally below the bundle (a real directory, or the inherited one) or
    below where one of the storage roots leads, and there is no symbolic link on the way; the
    check changes nothing. *)
Theorem root_path_confined `{machine} inherited cwd environment bundle config_path json w :
  quiet -> fs_wf (w_fs w) -> spine (w_fs w) cwd ->
  match main inherited cwd environment bundle config_path json w with
  | (Ok r, w') => w_fs w' = w_fs w /\ reported inherited cwd (w_fs w) environment bundle config_path json r
  | (Err _, w') => w_fs w' = w_fs w
  end.
Proof. intros Hq Hwf Hc. exact (obs_run _ _ _ w (obs_main Hq inherited cwd (w_fs w) Hwf Hc environment bundle config_path json) eq_refl). Qed.

(** ** A container's root *)

Definition root_config (p : string) : bytes :=
  ascii_bytes (dumps no_floats plain (VDict [(str "root", VDict [(str "path", VStr (str p))])])).

(** [/store] leads to [/data], where the container's root is; the bundle has one as well. *)
Definition store : fs :=
  FS (list_to_map [([], 1); ([str "b"], 2); (strs ["b"; "rootfs"], 3); ([str "data"], 4); (strs ["data"; "c1"], 5); ([str "store"], 6);
                   ([str "config"], 7); ([str "escape"], 8)])
     (list_to_map [(1, node KDir 0x1ED 2 []); (2, node KDir 0x1ED 2 []); (3, node KDir 0x1ED 2 []); (4, node KDir 0x1ED 2 []);
                   (5, node KDir 0x1ED 2 []); (6, node (KLink (str "data/.")) 0x1FF 1 []); (7, node (KFile (root_config "/data/c1")) 0x1A4 1 []);
                   (8, node (KFile (root_config "rootfs")) 0x1A4 1 [])])
     9 7.
Definition store_start : world := World store 0.
Definition root_run (w : world) : res (Z * option pystr) * world :=
  @main here (fun _ => None) [] (Some (str "/store")) (str "/b") [str "config"] false w.

Lemma store_wf : fs_wf (w_fs store_start).
Proof. apply fs_wfb_ok. vm_cast_no_check (@eq_refl bool true). Qed.
Definition exits_with (line : string) (r : res (Z * option pystr) * world) : bool := bool_decide (r.1 = Ok (0, Some (str line))).
Lemma root_run_ok : exits_with "/data/c1" (root_run store_start) = true.
Proof. vm_cast_no_check (@eq_refl bool true). Qed.

Lemma root_path_confined_witness : exists value candidate info,
  configured_root (w_fs store_start) [str "config"] value /\
  @accepted (fun _ => None) [] (w_fs store_start) (str "/b") value [str "/store"] (candidate, info) /\ as_posix candidate = str "/data/c1".
Proof.
  pose proof root_run_ok as Hok. pose proof store_wf as Hwf. unfold root_run in Hok. revert Hok Hwf. generalize store_start. intros w Hok Hwf.
  pose proof (@root_path_confined here (fun _ => None) [] (Some (str "/store")) (str "/b") [str "config"] false w (lone_quiet _ _) Hwf (spine_root _)) as Ht.
  destruct (@main here _ _ _ _ _ _ w) as [[r|e] w'].
  - apply bool_decide_eq_true in Hok. injection Hok as ->. destruct Ht as [_ Ht].
    destruct (Ht eq_refl) as (value & candidate & info & H1 & H2 & H3). injection H3 as H3. exists value, candidate, info. split_and!; [exact H1|exact H2|].
    symmetry. exact H3.
  - discriminate (proj1 (bool_decide_eq_true _) Hok).
Defined.

(** A descriptor number beyond the machine's [int] ends in an exception that [main] does not catch. *)
Example huge_descriptor_escapes :
  (@main here (fun _ => None) [] None (str "/proc/self/fd/99999999999") [str "config"] false store_start).1
    = raise OverflowError "Python int too large to convert to C int".
Proof. vm_compute. reflexivity. Qed.
End RootPathSafe.
