(* ===== verification/StorageMount.v ===== *)
(** * The storage mount check (scripts/validate-runtime-storage-mount.py)

    The runtime's storage must be the approved disk: the device that the by-id link leads to,
    with the approved size, serial number, label and UUID, mounted once, at the approved
    place, with ext4, and on no directory that anybody but root can change. *)
From Stdlib Require Import ZArith Lia.
From Stdlib Require Import Init.Byte.
From stdpp Require Import base list sets strings option gmap.
From S2P Require Import Prelude PyStr PyVal Bytes Json Sys RealPath.

Open Scope string_scope.
Open Scope list_scope.
Open Scope Z_scope.

Module StorageMount.
Export RealPath.

(** ** Texts *)

(** [s.replace(old, new)] for a non-empty [old]; [skip] characters of a match are left. *)
Fixpoint replace_from (old new : pystr) (skip : nat) (s : pystr) : pystr :=
  match s with
  | [] => []
  | c :: t =>
      match skip with
      | S k => replace_from old new k t
      | O => if startswith s old then new ++ replace_from old new (length old - 1) t else c :: replace_from old new O t
      end
  end.
Definition replace (old new s : pystr) : pystr := replace_from old new O s.

(** [s.partition(separator)]: what is before and after, when the separator occurs. *)
Fixpoint partition (separator s : pystr) : option (pystr * pystr) :=
  if startswith s separator then Some ([], drop (length separator) s)
  else match s with
       | [] => None
       | c :: t => match partition separator t with Some (a, b) => Some (c :: a, b) | None => None end
       end.

(** [int(s)]: white space around, a sign, and single underscores between the digits. *)
Fixpoint int_digits (us : bool) (acc : Z) (s : pystr) : option Z :=
  match s with
  | [] => if us then None else Some acc
  | c :: t =>
      match decimal_value c with
      | Some d => int_digits false (10 * acc + d) t
      | None => if us then None else if c =? 95 then int_digits true acc t else None
      end
  end.
Definition int_signed (s : pystr) : option Z :=
  match s with
  | c :: t => if c =? 45 then option_map Z.opp (int_digits true 0 t) else if c =? 43 then int_digits true 0 t else int_digits true 0 s
  | [] => None
  end.
Definition int_of_text (s : pystr) : res Z :=
  if (4300 <? length (List.filter is_decimal s))%nat then raise ValueError "Exceeds the limit for integer string conversion"
  else match int_signed (strip s) with Some n => Ok n | None => raise ValueError "invalid literal for int() with base 10" end.

(** ** The mount table *)

Definition MOUNT_ESCAPES : list (pystr * pystr) :=
  [(str "\040", [32]); (str "\011", [9]); (str "\012", [10]); (str "\134", [92])].
Definition UUID : re :=
  let hex n := Rep LOWER_HEX n n in
  Cat (hex 8%nat) (Cat (Lit "-") (Cat (hex 4%nat) (Cat (Lit "-") (Cat (hex 4%nat) (Cat (Lit "-") (Cat (hex 4%nat) (Cat (Lit "-") (hex 12%nat)))))))).
Definition TOKEN : re := Cat (Cls is_alnum) (Rep (Cls (fun c => is_alnum c || one_of "._+-" c)) 0 127).

Definition decode_mount (value : pystr) : pystr := foldl (fun v e => replace e.1 e.2 v) value MOUNT_ESCAPES.

Record mount_entry := MountEntry { device : pystr; mountpoint : pystr; options : list pystr; type : pystr; source : pystr }.

Definition mount_line (line : pystr) : res mount_entry :=
  match partition (str " - ") line with
  | None => raise ValueError "malformed mountinfo record"
  | Some (front, back) =>
      match split_words front, split_words back with
      | _ :: _ :: dev :: _ :: point :: opts :: _, kind :: src :: _ :: _ =>
          Ok (MountEntry dev (decode_mount point) (split_on 44 opts) kind (decode_mount src))
      | _, _ => raise ValueError "malformed mountinfo record"
      end
  end.
Definition mount_entries (text : pystr) : res (list mount_entry) := map_res mount_line (splitlines text).

(** ** The checks *)

Definition canonical_absolute (value : pystr) : res ppath :=
  let path := pure_path value in
  raise_if ((pp_root path =s str "") || negb (normpath value =s value) || (4096 <? zlen value)) ValueError "must be a canonical absolute path" ;;
  Ok path.

Definition SERIAL : pystr := str "E:ID_SERIAL_SHORT=".
Definition udev_serial (text : pystr) : res pystr :=
  match map (drop (length SERIAL)) (List.filter (fun line => startswith line SERIAL) (splitlines text)) with
  | [value] => if fullmatch TOKEN value then Ok value else raise ValueError "udev storage serial is missing or malformed"
  | _ => raise ValueError "udev storage serial is missing or malformed"
  end.

(** [os.major] and [os.minor]: the parts of a 64-bit device number. *)
Definition major (dev : Z) : Z := Z.lor (Z.land (Z.shiftr dev 8) 0xFFF) (Z.land (Z.shiftr dev 32) 0xFFFFF000).
Definition minor (dev : Z) : Z := Z.lor (Z.land dev 0xFF) (Z.land (Z.shiftr dev 12) 0xFFFFFF00).
Definition device_text (rdev : Z) : pystr := int_repr (major rdev) ++ str ":" ++ int_repr (minor rdev).

(** The arguments of the command line. *)
Record arguments := Arguments {
  a_mountpoint : pystr; a_device : pystr; a_serial : pystr; a_bytes : Z; a_label : pystr; a_uuid : pystr }.

Definition argument_checks (args : arguments) : res (ppath * ppath) :=
  let! mountpoint := canonical_absolute (a_mountpoint args) in
  let! device_link := canonical_absolute (a_device args) in
  raise_if (negb (fullmatch TOKEN (a_serial args)) || negb (fullmatch TOKEN (a_label args))) ValueError "storage serial or label is malformed" ;;
  raise_if (negb (fullmatch UUID (a_uuid args))) ValueError "storage UUID is malformed" ;;
  raise_if ((a_bytes args <=? 0) || negb (a_bytes args mod 512 =? 0)) ValueError "storage byte size must be a positive sector multiple" ;;
  Ok (mountpoint, device_link).

(** The entries of the table against the device. *)
Definition table_checks (text : pystr) (path identity : pystr) : res unit :=
  let! entries := mount_entries text in
  match List.filter (fun item => mountpoint item =s path) entries with
  | [entry] =>
      raise_if (negb (device entry =s identity) || negb (type entry =s str "ext4") || negb (mem (str "rw") (options entry))) ValueError
        "runtime storage mount device, type, or mode mismatch" ;;
      raise_if (negb (zlen (List.filter (fun item => device item =s identity) entries) =? 1)) ValueError
        "runtime storage device is mounted more than once"
  | _ => raise ValueError "runtime storage path is not one distinct mountpoint"
  end.

Section mount.
Context `{machine}.

(** [Path.exists]: only an error that says the name is not there is "no". *)
Definition not_there (e : exn) : bool :=
  bool_decide (exn_cls e ∈ [FileNotFoundError; NotADirectoryError]) || bool_decide (Err e = @ELOOP unit).
Definition path_exists (p : path) : M bool :=
  mcatch (let* _ := stat p in mret true) (fun e => if not_there e then mret false else reraise e).

(** [path.read_text(encoding=...)] *)
Definition read_ascii (p : path) : M pystr := let* data := read_bytes p in lift (ascii_decode data).
Definition read_utf8 (p : path) : M pystr := let* data := read_bytes p in lift (utf8_decode Strict data).

Definition directory_step (current : path) (component : pystr) : M path :=
  let current := current ++ [component] in
  let* info := lstat current in
  let* link := if negb (s_isdir (st_mode info)) then mret true else is_symlink current in
  mraise_if (link || negb (st_uid info =? 0) || negb (Z.land (st_mode info) 0x12 =? 0)) ValueError "unsafe storage mount directory" ;;;
  mret current.
Definition safe_directory (p : ppath) : M path := mfor_each directory_step [] (pp_comps p).

(** A root-owned symbolic link, and where it leads. *)
Definition root_link (p : ppath) (message : string) : M unit :=
  let* info := lstat (pp_comps p) in
  mraise_if (negb (s_islnk (st_mode info)) || negb (st_uid info =? 0)) ValueError message.
Definition same_device_link (p : ppath) (device : path) : M unit :=
  root_link p "must be a root-owned symlink" ;;;
  let* target := resolve_strict [] (as_posix p) in
  mraise_if (negb (bool_decide (target = device))) ValueError "resolves to a different device".

(** The device of the by-id link, and its number. *)
Definition approved_device (device_link : ppath) : M (path * stat_result) :=
  root_link device_link "storage by-id path must be a root-owned symlink" ;;;
  let* device := resolve_strict [] (as_posix device_link) in
  let* device_info := stat device in
  mraise_if (negb (s_isblk (st_mode device_info)) || negb (st_uid device_info =? 0)) ValueError
    "storage by-id target must be a root-owned block device" ;;;
  mret (device, device_info).

Definition below_text (dir : string) (name : pystr) : ppath := PPath (str "/") (abs_path dir ++ [name]).

(** The kernel's and udev's records of the device. *)
Definition check_records (args : arguments) (identity : pystr) : M unit :=
  let sys_block := abs_path "/sys/dev/block" ++ [identity] in
  let* partition := path_exists (sys_block ++ [str "partition"]) in
  mraise_if partition ValueError "runtime storage must be a whole disk" ;;;
  let* size := read_ascii (sys_block ++ [str "size"]) in
  let* sectors := lift (int_of_text (strip size)) in
  mraise_if (negb (sectors * 512 =? a_bytes args)) ValueError "runtime storage byte size mismatch" ;;;
  let udev_path := abs_path "/run/udev/data" ++ [str "b" ++ identity] in
  let* udev_info := lstat udev_path in
  mraise_if (negb (s_isreg (st_mode udev_info)) || negb (st_uid udev_info =? 0) || negb (Z.land (st_mode udev_info) 0x12 =? 0) ||
             negb ((0 <? st_size udev_info) && (st_size udev_info <=? 2 ^ 20))) ValueError "udev storage identity record is unsafe" ;;;
  let* text := read_utf8 udev_path in
  let* serial := lift (udev_serial text) in
  mraise_if (negb (serial =s a_serial args)) ValueError "runtime storage serial mismatch".

Definition validate (args : arguments) : M unit :=
  let* (mountpoint, device_link) := lift (argument_checks args) in
  let* (device, device_info) := approved_device device_link in
  let identity := device_text (st_rdev device_info) in
  check_records args identity ;;;
  same_device_link (below_text "/dev/disk/by-label" (a_label args)) device ;;;
  same_device_link (below_text "/dev/disk/by-uuid" (a_uuid args)) device ;;;
  safe_directory mountpoint ;;;
  let* mount_info := read_utf8 (abs_path "/proc/self/mountinfo") in
  lift (table_checks mount_info (as_posix mountpoint) identity) ;;;
  let* mounted := stat (pp_comps mountpoint) in
  let* top := if negb (st_dev mounted =? st_rdev device_info) then mret true
              else let* root := stat [] in mret (st_dev root =? st_rdev device_info) in
  mraise_if top ValueError "runtime storage mount identity aliases the wrong filesystem".

(** The exit status. *)
Definition main (args : arguments) : M Z :=
  mcatch (validate args ;;; mret 0) (fun e => if is_os_error (exn_cls e) || is_value_error (exn_cls e) then mret 1 else reraise e).
End mount.
End StorageMount.
