(* ===== verification/StorageMountSafe.v ===== *)
(** * What an accepted storage mount is

    When the check passes, the approved disk is mounted at the approved place and nowhere
    else.  A mount table that the kernel writes is read back exactly. *)
From Stdlib Require Import ZArith Lia.
From Stdlib Require Import Init.Byte.
From stdpp Require Import base list sets strings option gmap.
From S2P Require Import Prelude PyStr PyVal Bytes Json Sys RealPath FsRules RootfsScanSafe RootfsRun MaterializeSafe OciLoadSafe RootPathSafe StorageMount.

Open Scope string_scope.
Open Scope list_scope.
Open Scope Z_scope.

Module StorageMountSafe.
Import RootfsScanSafe RootfsRun MaterializeSafe RootPathSafe.
Export StorageMount.

(** ** Files and directories *)

Lemma spine_resolve f p : spine f p -> Sys.resolve f false p = Ok p.
Proof.
  intros Hp. pose proof (spine_parent f _ Hp) as Hq. destruct p as [|c p _] using rev_ind; [done|]. rewrite removelast_last in Hq.
  destruct Hp as (Hp & Hd & _). apply resolve_child; [done|]. intros q Hq'. apply Hd; [by apply prefix_app_r|].
  intros ->. apply prefix_length in Hq'. rewrite length_app in Hq'. simpl in Hq'. lia.
Qed.

(** Following the last component of a location without links changes nothing. *)
Lemma spine_stat_follow f p s : spine f p -> fs_stat true f p = Ok s -> exists i n, node_at f p = Some (i, n) /\ s = stat_of i n.
Proof.
  intros Hp Hs. destruct (decide (p = [])) as [->|Hne].
  - unfold fs_stat in Hs. cbn in Hs. destruct (node_at f []) as [[i n]|]; [|done]. injection Hs as <-. eauto.
  - pose proof (spine_resolve f p Hp) as Hr. destruct Hp as (_ & _ & Hn). destruct (Hn Hne) as (i & n & Hi & Hl). unfold fs_stat in Hs.
    rewrite (resolve_nonlink f p p i n Hr Hi Hl) in Hs. cbn in Hs. rewrite Hi in Hs. injection Hs as <-. eauto.
Qed.

(** The content of the file that a path leads to. *)
Definition content (f : fs) (p : path) (data : bytes) : Prop :=
  exists fd, fs_open false false f p = Ok fd /\ fs_read f fd = Ok data.

(** A symbolic link of root, by the path that names it. *)
Definition link_of_root (f : fs) (p : path) : Prop :=
  exists i n target, node_of f p i n /\ i_kind n = KLink target /\ i_uid n = 0.

(** A directory that only root can change. *)
Definition roots_own (f : fs) (p : path) : Prop :=
  exists i n, node_at f p = Some (i, n) /\ i_kind n = KDir /\ i_uid n = 0 /\ Z.land (i_perm n) 0x12 = 0.

Definition path_leads (f : fs) (text : pystr) (loc : path) : Prop := leads f [] (split_on SLASH text) loc.

(** The mount table has one entry for the place and one for the device: this one. *)
Definition mounted_once (entries : list mount_entry) (path identity : pystr) (e : mount_entry) : Prop :=
  List.filter (fun item => mountpoint item =s path) entries = [e] /\
  List.filter (fun item => device item =s identity) entries = [e] /\
  type e = str "ext4" /\ str "rw" ∈ options e.

(** The approved disk, mounted. *)
Record approved (f : fs) (args : arguments) (disk : path) (rdev : Z) : Prop := {
  ap_block : exists i n, node_at f disk = Some (i, n) /\ i_kind n = KSpecial (BlockDevice rdev) /\ i_uid n = 0;
  ap_link : link_of_root f (pp_comps (pure_path (a_device args))) /\ path_leads f (as_posix (pure_path (a_device args))) disk;
  ap_whole : forall s, fs_stat true f (abs_path "/sys/dev/block" ++ [device_text rdev; str "partition"]) <> Ok s;
  ap_size : 0 < a_bytes args /\ exists data text sectors,
    content f (abs_path "/sys/dev/block" ++ [device_text rdev; str "size"]) data /\ ascii_decode data = Ok text /\
    int_of_text (strip text) = Ok sectors /\ a_bytes args = sectors * 512;
  ap_serial : exists i n data text, node_of f (abs_path "/run/udev/data" ++ [str "b" ++ device_text rdev]) i n /\ i_kind n = KFile data /\
    i_uid n = 0 /\ Z.land (i_perm n) 0x12 = 0 /\ utf8_decode Strict data = Ok text /\
    List.filter (fun line => startswith line SERIAL) (splitlines text) = [SERIAL ++ a_serial args];
  ap_names : forall dir name, (dir, name) ∈ [("/dev/disk/by-label", a_label args); ("/dev/disk/by-uuid", a_uuid args)] ->
    link_of_root f (abs_path dir ++ [name]) /\ path_leads f (as_posix (below_text dir name)) disk;
  ap_directory : forall q, q `prefix_of` pp_comps (pure_path (a_mountpoint args)) -> q <> [] -> roots_own f q;
  ap_table : exists data text entries e, content f (abs_path "/proc/self/mountinfo") data /\ utf8_decode Strict data = Ok text /\
    mount_entries text = Ok entries /\ mounted_once entries (as_posix (pure_path (a_mountpoint args))) (device_text rdev) e;
  ap_dev : (exists i n, node_at f (pp_comps (pure_path (a_mountpoint args))) = Some (i, n) /\ i_dev n = rdev) /\
    exists i n, node_at f [] = Some (i, n) /\ i_dev n <> rdev }.

(** ** The checks, one by one *)

(** A failing call does not claim that a name is missing. *)
Definition honest `{machine} : Prop := forall n e, fault n = Some e -> not_there e = false.

Section checks.
Context `{machine} (Hquiet : quiet) (f : fs).

Lemma obs_path_exists p : honest -> observes f (path_exists p) (fun b => b = false -> forall s, fs_stat true f p <> Ok s).
Proof.
  intros Hh w Hw. unfold path_exists, mcatch, mbind, stat, query, syscall. rewrite Hquiet, Hw. destruct (fault (w_clock w)) as [e|] eqn:Hf.
  - by rewrite (Hh _ _ Hf).
  - destruct (fs_stat true f p) as [s|e]; [done|]. cbn. destruct (not_there e); [|done]. cbn. split; [done|]. by intros _ s [=].
Qed.

Lemma obs_content p : observes f (read_bytes p) (content f p).
Proof. by apply obs_read_bytes. Qed.

Lemma obs_read_ascii p : observes f (read_ascii p) (fun text => exists data, content f p data /\ ascii_decode data = Ok text).
Proof. eapply obs_bind; [apply obs_content|]. intros data Hd. eapply obs_conseq; [apply obs_lift|]. intros text Ht. eauto. Qed.

Lemma obs_read_utf8 p : observes f (read_utf8 p) (fun text => exists data, content f p data /\ utf8_decode Strict data = Ok text).
Proof. eapply obs_bind; [apply obs_content|]. intros data Hd. eapply obs_conseq; [apply obs_lift|]. intros text Ht. eauto. Qed.

Lemma obs_root_link p m : observes f (root_link p m) (fun _ => link_of_root f (pp_comps p)).
Proof.
  eapply obs_bind; [by apply obs_query|]. intros info (i & n & Hn & ->)%stat_node. eapply obs_conseq; [apply obs_raise_if|].
  intros ? Hc. apply orb_false_iff in Hc as [Hl Hu]. apply negb_false_iff in Hl, Hu. apply s_islnk_kind in Hl as [t Ht]. apply Z.eqb_eq in Hu.
  by exists i, n, t.
Qed.

Lemma obs_same_device p disk : observes f (same_device_link p disk) (fun _ => link_of_root f (pp_comps p) /\ path_leads f (as_posix p) disk).
Proof.
  eapply obs_bind; [apply obs_root_link|]. intros ? Hl. eapply obs_bind; [apply obs_resolve_strict; [done|apply spine_root]|].
  intros target [Ht _]. eapply obs_conseq; [apply obs_raise_if|]. intros ? Hc. apply negb_false_iff, bool_decide_eq_true in Hc as ->.
  split; [done|]. unfold path_leads. unfold base in Ht. by destruct (startswith _ _).
Qed.

Lemma s_isblk_kind i n : s_isblk (st_mode (stat_of i n)) = true -> exists rdev, i_kind n = KSpecial (BlockDevice rdev).
Proof. unfold s_isblk. rewrite s_ifmt_stat. destruct (i_kind n) as [| | |[]]; try done. eauto. Qed.

Lemma obs_approved_device link : observes f (approved_device link) (fun r => link_of_root f (pp_comps link) /\ path_leads f (as_posix link) r.1 /\
  exists i n, node_at f r.1 = Some (i, n) /\ i_kind n = KSpecial (BlockDevice (st_rdev r.2)) /\ i_uid n = 0).
Proof.
  eapply obs_bind; [apply obs_root_link|]. intros ? Hl. eapply obs_bind; [apply obs_resolve_strict; [done|apply spine_root]|].
  intros disk [Ht Hs]. eapply obs_bind; [by apply obs_query|]. intros info (i & n & Hn & ->)%spine_stat_follow; [|done].
  eapply obs_bind; [apply obs_raise_if|]. intros ? Hc. apply orb_false_iff in Hc as [Hb Hu]. apply negb_false_iff in Hb, Hu.
  apply s_isblk_kind in Hb as [rdev Hk]. apply Z.eqb_eq in Hu. apply obs_ret. cbn [fst snd]. split_and!; [done| |].
  - unfold path_leads. unfold base in Ht. by destruct (startswith _ _).
  - exists i, n. split_and!; [done| |done]. rewrite Hk. unfold stat_of. cbn [st_rdev]. by rewrite Hk.
Qed.

Lemma udev_serial_ok text serial : udev_serial text = Ok serial ->
  List.filter (fun line => startswith line SERIAL) (splitlines text) = [SERIAL ++ serial].
Proof.
  unfold udev_serial. destruct (List.filter _ _) as [|line [|]] eqn:Hf; try done. cbn [map].
  destruct (fullmatch TOKEN _); [|done]. intros [= <-].
  assert (startswith line SERIAL = true) as [r ->]%startswith_exists.
  { assert (In line (List.filter (fun line => startswith line SERIAL) (splitlines text))) as Hin by (rewrite Hf; by left).
    apply filter_In in Hin. apply Hin. }
  reflexivity.
Qed.

Lemma obs_safe_directory p : plain_path (pp_comps p) ->
  observes f (safe_directory p) (fun _ => forall q, q `prefix_of` pp_comps p -> q <> [] -> roots_own f q).
Proof.
  intros Hp. eapply obs_conseq; [apply (obs_for_each f (fun don current => current = don /\ spine f don /\
    forall q, q `prefix_of` don -> q <> [] -> roots_own f q))|by intros current (_ & _ & Hq)].
  - split_and!; [done|apply spine_root|]. intros q Hq Hne. by apply prefix_nil_inv in Hq.
  - intros don c rest current Hl (-> & Hs & Hq). unfold directory_step. eapply obs_bind; [by apply obs_query|]. intros info Hi.
    assert (plain_name c = true) as Hc.
    { rewrite Hl in Hp. apply plain_app in Hp as [_ Hp]. by apply Forall_cons_iff in Hp as [Hp _]. }
    apply lstat_child in Hi as (Hrd & i & n & Hn & ->); [|done|done].
    eapply (obs_bind f _ (fun link => link = false -> i_kind n = KDir)).
    { destruct (s_isdir _) eqn:Hd; cbn [negb]; [|by apply obs_ret]. apply s_isdir_kind in Hd.
      eapply obs_conseq; [eapply obs_any, obs_is_symlink; done|]. by intros. }
    intros link Hk. eapply obs_bind; [apply obs_raise_if|]. intros ? Hck. apply orb_false_iff in Hck as [Hck Hm]. apply orb_false_iff in Hck as [-> Hu].
    apply negb_false_iff, Z.eqb_eq in Hu, Hm. specialize (Hk eq_refl). apply obs_ret.
    split_and!; [done|eapply spine_child; try done; by rewrite Hk|]. intros q [r Hr] Hne.
    destruct r as [|x r _] using rev_ind.
    + rewrite app_nil_r in Hr. subst q. exists i, n. split_and!; try done. by apply (OciLoadSafe.mode_bits i).
    + rewrite app_assoc in Hr. apply app_inj_tail in Hr as [-> _]. apply Hq; [by eexists|done].
Qed.

Lemma table_mounted text path identity : table_checks text path identity = Ok tt ->
  exists entries e, mount_entries text = Ok entries /\ mounted_once entries path identity e.
Proof.
  unfold table_checks. intros Ht. inv_ok. rename a into entries. destruct (List.filter _ entries) as [|e [|]] eqn:Hf; try done. inv_ok.
  apply orb_false_iff in E0 as [E0 Hrw]. apply orb_false_iff in E0 as [Hd Hty]. apply negb_false_iff in Hrw, Hd, Hty, Ht.
  apply str_eqb_eq in Hty. apply mem_elem in Hrw. apply Z.eqb_eq in Ht. exists entries, e. split; [done|].
  split_and!; [done| |done|done]. set (l := List.filter (fun item => device item =s identity) entries) in *.
  assert (In e l) as Hin.
  { apply filter_In. split; [|done]. assert (In e [e]) as He by (by left). rewrite <-Hf in He. apply filter_In in He. apply He. }
  destruct l as [|x [|y l]]; [done|by destruct Hin as [->|[]]|]. rewrite !zlen_cons in Ht. pose proof (zlen_nonneg l). lia.
Qed.

Lemma obs_check_records args identity : honest -> observes f (check_records args identity) (fun _ =>
  (forall s, fs_stat true f (abs_path "/sys/dev/block" ++ [identity; str "partition"]) <> Ok s) /\
  (exists data text sectors, content f (abs_path "/sys/dev/block" ++ [identity; str "size"]) data /\ ascii_decode data = Ok text /\
    int_of_text (strip text) = Ok sectors /\ a_bytes args = sectors * 512) /\
  exists i n data text, node_of f (abs_path "/run/udev/data" ++ [str "b" ++ identity]) i n /\ i_kind n = KFile data /\
    i_uid n = 0 /\ Z.land (i_perm n) 0x12 = 0 /\ utf8_decode Strict data = Ok text /\
    List.filter (fun line => startswith line SERIAL) (splitlines text) = [SERIAL ++ a_serial args]).
Proof.
  intros Hh. unfold check_records. eapply obs_bind; [by apply obs_path_exists|]. intros part Hp. eapply obs_bind; [apply obs_raise_if|]. intros ? Hpf.
  eapply obs_bind; [apply obs_read_ascii|]. intros size (sdata & Hsd & Hst). eapply obs_bind; [apply obs_lift|]. intros sectors Hsec.
  eapply obs_bind; [apply obs_raise_if|]. intros ? Hb. apply negb_false_iff, Z.eqb_eq in Hb.
  eapply obs_bind; [by apply obs_query|]. intros info (i & n & Hn & ->)%stat_node. eapply obs_bind; [apply obs_raise_if|]. intros ? Hc.
  apply orb_false_iff in Hc as [Hc _]. apply orb_false_iff in Hc as [Hc Hm]. apply orb_false_iff in Hc as [Hr Hu].
  apply negb_false_iff in Hr, Hu, Hm. apply Z.eqb_eq in Hu, Hm.
  eapply obs_bind; [apply obs_read_utf8|]. intros text (data & (fd & Ho & Hd) & Ht). destruct (s_isreg_kind _ _ Hr) as [d Hk].
  eapply obs_bind; [apply obs_lift|]. intros serial Hser. apply udev_serial_ok in Hser. eapply obs_conseq; [apply obs_raise_if|]. intros ? Hs.
  apply negb_false_iff, str_eqb_eq in Hs as ->. rewrite <-!app_assoc in *. split_and!; [by apply Hp|by exists sdata, size, sectors|].
  exists i, n, data, text. split_and!; try done; [|by apply (OciLoadSafe.mode_bits i)].
  rewrite Hk. f_equal. assert (fd = i) as -> by (eapply open_node; [exact Hn| |exact Ho]; by rewrite Hk).
  destruct Hn as (loc & _ & [_ Hni]%node_at_nodes). unfold fs_read in Hd. rewrite Hni, Hk in Hd. congruence.
Qed.

Lemma canonical_argument value p : canonical_absolute value = Ok p -> p = pure_path value /\ plain_path (pp_comps p).
Proof.
  unfold canonical_absolute. intros Hc. inv_ok. apply orb_false_iff in E as [E _]. apply orb_false_iff in E as [Hr Hn].
  apply str_eqb_neq in Hr. apply negb_false_iff, str_eqb_eq in Hn. split; [done|]. by apply normal_components.
Qed.

Lemma arguments_checked args mp link : argument_checks args = Ok (mp, link) ->
  mp = pure_path (a_mountpoint args) /\ link = pure_path (a_device args) /\ plain_path (pp_comps mp) /\ 0 < a_bytes args.
Proof.
  unfold argument_checks. intros Hc. inv_ok. apply canonical_argument in E as [-> Hp], E0 as [-> _]. apply orb_false_iff in E3 as [Hb _].
  apply Z.leb_gt in Hb. done.
Qed.

(** A directory with every parent, by the nodes on the way. *)
Lemma owned_spine p : plain_path p -> (forall q, q `prefix_of` p -> q <> [] -> roots_own f q) -> is_dir_at f [] = true -> spine f p.
Proof.
  intros Hp Hq Hroot. split_and!; [done| |].
  - intros q Hpre _. destruct (decide (q = [])) as [->|Hne]; [done|]. destruct (Hq q Hpre Hne) as (i & n & Hn & Hk & _).
    unfold is_dir_at. by rewrite Hn, Hk.
  - intros Hne. destruct (Hq p ltac:(done) Hne) as (i & n & Hn & Hk & _). exists i, n. by rewrite Hk.
Qed.

Lemma obs_storage_validate args : honest -> is_dir_at f [] = true ->
  observes f (validate args) (fun _ => exists disk rdev, approved f args disk rdev).
Proof.
  intros Hh Hroot. eapply obs_bind; [apply obs_lift|]. intros [mp link] (-> & -> & Hmp & Hb)%arguments_checked.
  eapply obs_bind; [apply obs_approved_device|]. intros [disk info] (Hl & Hlead & Hblock). cbn [fst snd] in *.
  eapply obs_bind; [by apply obs_check_records|]. intros ? (Hw & Hsize & Hserial).
  eapply obs_bind; [apply obs_same_device|]. intros ? Hlabel. eapply obs_bind; [apply obs_same_device|]. intros ? Huuid.
  eapply obs_bind; [by apply obs_safe_directory|]. intros ? Hdir. eapply obs_bind; [apply obs_read_utf8|]. intros text (data & Hd & Ht).
  eapply obs_bind; [apply obs_lift|]. intros [] (entries & e & He & Hm)%table_mounted.
  pose proof (owned_spine _ Hmp Hdir Hroot) as Hs. eapply obs_bind; [by apply obs_query|]. intros m (i & n & Hn & ->)%spine_stat_follow; [|done].
  eapply (obs_bind f _ (fun top => top = false -> i_dev n = st_rdev info /\ exists j r, node_at f [] = Some (j, r) /\ i_dev r <> st_rdev info)).
  { cbn [st_dev stat_of]. destruct (Z.eqb_spec (i_dev n) (st_rdev info)) as [Heq|]; cbn [negb]; [|by apply obs_ret].
    eapply obs_bind; [by apply obs_query|]. intros root (j & r & Hr & ->)%spine_stat_follow; [|apply spine_root]. apply obs_ret.
    intros Hne. apply Z.eqb_neq in Hne. eauto. }
  intros top Htop. eapply obs_conseq; [apply obs_raise_if|]. intros ? Hf. destruct (Htop Hf) as [Hdev Hrootdev].
  exists disk, (st_rdev info). constructor; try done.
  - intros dir name [[= -> ->]|[[= -> ->]|[]%list.not_elem_of_nil]%elem_of_cons]%elem_of_cons; done.
  - by exists data, text, entries, e.
  - split; [|done]. by exists i, n.
Qed.
End checks.

(** When the check exits with status 0, the disk that the by-id link leads to is a whole
    block device of the approved size, serial number, label and UUID; the mount table has one
    entry for the approved place and one for the device, the same one, ext4 and writable; the
    place and every directory above it (below the root) belong to root and nobody else can
    change them; and the file system there is the device's, and not the root's.  Checking
    changes nothing. *)
Theorem storage_mount_approved `{machine} args w : quiet -> honest -> is_dir_at (w_fs w) [] = true ->
  match main args w with
  | (Ok status, w') => w_fs w' = w_fs w /\ (status = 0 -> exists disk rdev, approved (w_fs w) args disk rdev)
  | (Err _, w') => w_fs w' = w_fs w
  end.
Proof.
  intros Hq Hh Hr.
  assert (observes (w_fs w) (main args) (fun status => status = 0 -> exists disk rdev, approved (w_fs w) args disk rdev)) as Ho.
  { apply obs_catch; [|intros e; case_match; [by apply obs_ret|apply obs_reraise]].
    eapply obs_bind; [by apply obs_storage_validate|]. intros ? Ha. by apply obs_ret. }
  exact (obs_run _ _ _ w Ho eq_refl).
Qed.

(** ** A disk *)

Definition disk_args : arguments :=
  Arguments (str "/mnt/data") (str "/dev/disk/by-id/d1") (str "S1") 8192 (str "runtime") (str "00000000-0000-4000-8000-000000000000").
Definition disk_node (k : kind) : inode := Inode k 0x1ED 0 0 1 1 3 3 [].
Definition disk_fs : fs :=
  let dirs := map abs_path ["/"; "/mnt"; "/dev"; "/dev/disk"; "/dev/disk/by-id"; "/dev/disk/by-label"; "/dev/disk/by-uuid"; "/sys"; "/sys/dev";
    "/sys/dev/block"; "/sys/dev/block/8:0"; "/run"; "/run/udev"; "/run/udev/data"; "/proc"; "/proc/self"] in
  let others := [(abs_path "/mnt/data", Inode KDir 0x1C0 0 0 0x800 2 3 3 []); (abs_path "/dev/sda", disk_node (KSpecial (BlockDevice 0x800)));
    (abs_path "/dev/disk/by-id/d1", disk_node (KLink (str "../../sda"))); (abs_path "/dev/disk/by-label/runtime", disk_node (KLink (str "../../sda")));
    (abs_path "/dev/disk/by-uuid/00000000-0000-4000-8000-000000000000", disk_node (KLink (str "/dev/sda")));
    (abs_path "/sys/dev/block/8:0/size", disk_node (KFile (ascii_bytes (str "16" ++ [10]))));
    (abs_path "/run/udev/data/b8:0", disk_node (KFile (ascii_bytes (str "E:ID_SERIAL_SHORT=S1" ++ [10]))));
    (abs_path "/proc/self/mountinfo", disk_node (KFile (ascii_bytes (str "30 1 0:1 / / rw - tmpfs none rw" ++ [10] ++
       str "36 30 8:0 / /mnt/data rw,nosuid shared:1 - ext4 /dev/sda rw" ++ [10]))))] in
  let all := map (fun p => (p, disk_node KDir)) dirs ++ others in
  FS (list_to_map (imap (fun i e => (e.1, Z.of_nat i + 1)) all)) (list_to_map (imap (fun i e => (Z.of_nat i + 1, e.2)) all)) 99 7.
Definition disk_start : world := World disk_fs 0.

Definition mount_exits_0 (r : res Z * world) : bool := match r with (Ok 0, _) => true | _ => false end.
Lemma disk_run_ok : mount_exits_0 (@main here disk_args disk_start) = true.
Proof. vm_cast_no_check (@eq_refl bool true). Qed.
Lemma disk_root : is_dir_at (w_fs disk_start) [] = true.
Proof. vm_cast_no_check (@eq_refl bool true). Qed.
Lemma here_honest : @honest here.
Proof. intros n e Hf. unfold fault, here, lone_machine in Hf. rewrite bool_decide_eq_false_2 in Hf by set_solver. done. Qed.

Lemma storage_mount_approved_witness : exists disk rdev, approved (w_fs disk_start) disk_args disk rdev.
Proof.
  pose proof disk_run_ok as Hok. pose proof disk_root as Hr. revert Hok Hr. generalize disk_start. intros w Hok Hr.
  pose proof (@storage_mount_approved here disk_args w (lone_quiet _ _) here_honest Hr) as Ht.
  destruct (@main here disk_args w) as [[status|e] w']; [|discriminate Hok]. destruct status; try discriminate Hok.
  apply Ht. reflexivity.
Defined.
End StorageMountSafe.
