(* ===== verification/MountTable.v ===== *)
(** * The kernel's mount table, read back

    [render] is the form that the kernel documents for [/proc/self/mountinfo]
    (Documentation/filesystems/proc.rst): numbered fields, optional tags, a hyphen, and the
    type, source and options of the superblock, with space, tab, newline and backslash
    written as octal escapes.  [mount_entries] reads such a table back exactly, as long as no
    other white space of Unicode occurs in it. *)
From Stdlib Require Import ZArith Lia.
From stdpp Require Import base list sets strings option gmap.
From S2P Require Import Prelude PyStr PyVal Bytes Json JsonTrip Sys FsRules RootfsRun StorageMount StorageMountSafe.

Open Scope string_scope.
Open Scope list_scope.
Open Scope Z_scope.

Module MountTable.
Import StorageMountSafe.
Export StorageMount.

(** ** Escapes *)

(** The characters of a path with some of the escapes applied. *)
Definition escape (escapes : list (pystr * pystr)) (c : Z) : pystr :=
  match List.find (fun e => bool_decide (e.2 = [c])) escapes with Some e => e.1 | None => [c] end.
Definition encode (escapes : list (pystr * pystr)) (s : pystr) : pystr := flat_map (escape escapes) s.

(** One replacement undoes one escape, when the backslash is escaped as well. *)
Definition undoes (e : pystr * pystr) (rest : list (pystr * pystr)) : Prop :=
  forall s, replace e.1 e.2 (encode (e :: rest) s) = encode rest s.

Section replace.
Context (x y z : Z) (new : pystr).
Notation old := [92; x; y; z].

Lemma replace_match t : replace old new (old ++ t) = new ++ replace old new t.
Proof. unfold replace. simpl. rewrite !startswith_cons, !bool_decide_eq_true_2 by done. by destruct t. Qed.

Lemma replace_plain c t : c <> 92 -> replace old new (c :: t) = c :: replace old new t.
Proof. intros Hc. unfold replace. cbn [replace_from]. rewrite startswith_cons, (bool_decide_eq_false_2 (92 = c)) by done. done. Qed.

(** Another escape is left alone. *)
Lemma replace_other a b d t : [a; b; d] <> [x; y; z] -> a <> 92 -> b <> 92 -> d <> 92 ->
  replace old new ([92; a; b; d] ++ t) = [92; a; b; d] ++ replace old new t.
Proof.
  intros Hne Ha Hb Hd. change ([92; a; b; d] ++ t) with (92 :: a :: b :: d :: t).
  assert (startswith (92 :: a :: b :: d :: t) old = false) as Hs.
  { rewrite !startswith_cons. repeat case_bool_decide; simpl; try done. by subst. }
  unfold replace at 1. cbn [replace_from]. rewrite Hs.
  change (92 :: replace old new (a :: b :: d :: t) = 92 :: a :: b :: d :: replace old new t). by rewrite !replace_plain.
Qed.
End replace.

(** A character is one of the four or stands for itself. *)
Lemma escape_other l c : Forall (fun e => e.2 <> [c]) l -> escape l c = [c].
Proof.
  unfold escape. induction 1 as [|e l He Hl IH]; [done|]. cbn [List.find]. by rewrite bool_decide_eq_false_2.
Qed.

Ltac ground_escape :=
  repeat match goal with |- context [escape ?l ?k] => let e := eval vm_compute in (escape l k) in change (escape l k) with e end;
  first [ rewrite replace_match | rewrite replace_other by (vm_compute; congruence) | simpl; rewrite replace_plain by lia ].
Ltac undo_escape :=
  intros s; induction s as [|c s IH]; [reflexivity|]; unfold encode in *; cbn [flat_map fst snd] in *;
  repeat match goal with |- context [replace (str ?o)] => let e := eval vm_compute in (str o) in change (str o) with e in * end;
  destruct (decide (c = 32)) as [->|]; [ground_escape; by rewrite IH|];
  destruct (decide (c = 9)) as [->|]; [ground_escape; by rewrite IH|];
  destruct (decide (c = 10)) as [->|]; [ground_escape; by rewrite IH|];
  destruct (decide (c = 92)) as [->|]; [ground_escape; by rewrite IH|];
  rewrite !escape_other by (repeat first [apply Forall_nil_2 | apply Forall_cons_2]; simpl; congruence);
  simpl; rewrite replace_plain by done; by rewrite IH.

Lemma undoes_space : undoes (str "\040", [32]) [(str "\011", [9]); (str "\012", [10]); (str "\134", [92])].
Proof. undo_escape. Qed.
Lemma undoes_tab : undoes (str "\011", [9]) [(str "\012", [10]); (str "\134", [92])].
Proof. undo_escape. Qed.
Lemma undoes_newline : undoes (str "\012", [10]) [(str "\134", [92])].
Proof. undo_escape. Qed.
Lemma undoes_backslash : undoes (str "\134", [92]) [].
Proof. undo_escape. Qed.

Lemma decode_encode s : decode_mount (encode MOUNT_ESCAPES s) = s.
Proof.
  unfold decode_mount, MOUNT_ESCAPES. cbn [foldl].
  rewrite undoes_space, undoes_tab, undoes_newline, undoes_backslash. unfold encode. induction s as [|c s IH]; [done|]. cbn. by rewrite IH.
Qed.

(** ** Fields *)

(** A field: not empty, and without white space. *)
Definition field (w : pystr) : Prop := w <> [] /\ Forall (fun c => is_py_space c = false) w.

Lemma words_field cur w t : Forall (fun c => is_py_space c = false) w -> words_from cur (w ++ t) = words_from (rev w ++ cur) t.
Proof.
  intros Hw. revert cur; induction Hw as [|c w Hc Hw IH]; intros cur; [done|]. cbn [app words_from]. rewrite Hc, IH. cbn [rev].
  by rewrite <-app_assoc.
Qed.

Lemma split_words_join ws : Forall field ws -> split_words (join_with 32 ws) = ws.
Proof.
  induction 1 as [|w ws [Hne Hw] Hws IH]; [done|]. destruct ws as [|v ws].
  - cbn [join_with]. rewrite <-(app_nil_r w) at 1. unfold split_words. rewrite words_field by done. rewrite app_nil_r. cbn.
    destruct (rev w) as [|c l] eqn:E; [by apply (f_equal (@rev Z)) in E; rewrite rev_involutive in E|]. by rewrite <-E, rev_involutive.
  - rewrite join_cons by done. unfold split_words. rewrite words_field by done. rewrite app_nil_r. cbn [words_from]. change (is_py_space 32) with true.
    cbn [orb]. destruct (rev w) as [|c l] eqn:E; [by apply (f_equal (@rev Z)) in E; rewrite rev_involutive in E|].
    rewrite <-E, rev_involutive. f_equal. exact IH.
Qed.

(** The separator is found after the fields before it. *)
Lemma partition_skip c t a b : c <> 32 -> partition (str " - ") t = Some (a, b) -> partition (str " - ") (c :: t) = Some (c :: a, b).
Proof.
  intros Hc Hp. cbn [partition]. change (str " - ") with [32; 45; 32] in *. rewrite startswith_cons, bool_decide_eq_false_2 by done.
  cbn [andb]. by rewrite Hp.
Qed.

Lemma partition_field w t a b : Forall (fun c => is_py_space c = false) w -> partition (str " - ") t = Some (a, b) ->
  partition (str " - ") (w ++ t) = Some (w ++ a, b).
Proof.
  intros Hw Hp. induction Hw as [|c w Hc Hw IH]; [done|]. cbn [app]. apply partition_skip; [|done]. by intros ->.
Qed.

Lemma not_separator w t : field w -> w <> str "-" -> startswith (32 :: w ++ t) (str " - ") = false.
Proof.
  intros [Hne Hw] Hd. change (str " - ") with [32; 45; 32]. destruct w as [|c w]; [done|]. cbn [app]. rewrite !startswith_cons.
  destruct (bool_decide_reflect (45 = c)) as [<-|]; [|by rewrite andb_false_r]. destruct w as [|d w]; [done|]. cbn [app].
  rewrite startswith_cons, (bool_decide_eq_false_2 (32 = d)); [by rewrite !andb_false_r|]. intros <-.
  apply Forall_cons_iff in Hw as [_ Hw]. by apply Forall_cons_iff in Hw as [Hw _].
Qed.

Lemma partition_here separator rest : partition separator (separator ++ rest) = Some ([], rest).
Proof.
  assert (startswith (separator ++ rest) separator = true) as Hs by (apply startswith_prefix; by eexists).
  destruct (separator ++ rest) eqn:E; cbn [partition]; rewrite Hs, <-E, drop_app_length; done.
Qed.

Lemma partition_fields ws rest : Forall field ws -> Forall (fun w => w <> str "-") ws -> ws <> [] ->
  partition (str " - ") (join_with 32 ws ++ str " - " ++ rest) = Some (join_with 32 ws, rest).
Proof.
  intros Hf Hd Hne. induction Hf as [|w ws Hw Hws IH]; [done|]. apply Forall_cons_iff in Hd as [Hwd Hd]. destruct ws as [|v ws].
  - cbn [join_with]. rewrite <-(app_nil_r w) at 2. apply partition_field; [apply Hw|]. apply partition_here.
  - rewrite join_cons by done. rewrite <-app_assoc. apply partition_field; [apply Hw|]. cbn [app partition].
    apply Forall_cons_iff in Hws as [Hv Hws']. apply Forall_cons_iff in Hd as [Hvd Hd'].
    assert (startswith (32 :: join_with 32 (v :: ws) ++ str " - " ++ rest) (str " - ") = false) as ->.
    { destruct ws as [|u ws]; [by apply not_separator|]. rewrite join_cons by done. rewrite <-app_assoc. by apply not_separator. }
    rewrite IH by (done || by constructor). done.
Qed.

(** ** Lines *)

Lemma line_break_space c : is_line_break c = true -> is_py_space c = true.
Proof. unfold is_line_break, is_py_space, in_range. lia. Qed.

Definition line_ok (s : pystr) : Prop := Forall (fun c => is_line_break c = false) s.

Lemma splitlines_line cur s t : line_ok s -> splitlines_from cur (s ++ 10 :: t) = (rev cur ++ s) :: splitlines_from [] t.
Proof.
  intros Hs. revert cur; induction Hs as [|c s Hc Hs IH]; intros cur; cbn [app splitlines_from].
  - change (is_line_break 10) with true. cbn. rewrite app_nil_r. by destruct t.
  - rewrite Hc, IH. cbn [rev]. by rewrite <-app_assoc.
Qed.

Lemma splitlines_lines ls : Forall line_ok ls -> splitlines (concat (map (fun l => l ++ [10]) ls)) = ls.
Proof.
  unfold splitlines. induction 1 as [|l ls Hl Hls IH]; [done|]. cbn [map concat]. rewrite <-app_assoc. cbn [app].
  rewrite splitlines_line by done. by rewrite IH.
Qed.

(** ** The table *)

(** A mount as the kernel has it; the paths are not escaped. *)
Record mount := Mount {
  m_id : Z; m_parent : Z; m_dev : Z; m_root : pystr; m_point : pystr; m_options : list pystr; m_tags : list pystr;
  m_type : pystr; m_source : pystr; m_super : pystr }.

Definition front (m : mount) : list pystr :=
  [int_repr (m_id m); int_repr (m_parent m); device_text (m_dev m); encode MOUNT_ESCAPES (m_root m); encode MOUNT_ESCAPES (m_point m);
   join_with 44 (m_options m)] ++ m_tags m.
Definition back (m : mount) : list pystr := [m_type m; encode MOUNT_ESCAPES (m_source m); m_super m].
Definition render (m : mount) : pystr := join_with 32 (front m) ++ str " - " ++ join_with 32 (back m).
Definition render_table (l : list mount) : pystr := concat (map (fun m => render m ++ [10]) l).

(** The only white space of a path is what the kernel escapes. *)
Definition path_ok (s : pystr) : Prop := s <> [] /\ s <> str "-" /\ Forall (fun c => is_py_space c = false \/ c ∈ [32; 9; 10]) s.

(** The kernel writes a hash mark of the source as an escape that is not undone. *)
Record mount_ok (m : mount) : Prop := {
  mo_root : path_ok (m_root m); mo_point : path_ok (m_point m); mo_source : path_ok (m_source m) /\ 35 ∉ m_source m;
  mo_options : m_options m <> [] /\ Forall (fun o => 44 ∉ o) (m_options m);
  mo_plain : Forall (fun w => field w /\ w <> str "-") (join_with 44 (m_options m) :: m_type m :: m_super m :: m_tags m) }.

Definition entry_of (m : mount) : mount_entry :=
  MountEntry (device_text (m_dev m)) (m_point m) (m_options m) (m_type m) (m_source m).

(** ** Reading it back *)

Definition plain_field (w : pystr) : Prop := field w /\ w <> str "-".

Lemma digits_plain s : s <> [] -> Forall (fun c => is_ascii_digit c = true) s -> Forall (fun c => is_py_space c = false) s.
Proof.
  intros _ Hs. eapply Forall_impl; [exact Hs|]. unfold is_ascii_digit, is_py_space, in_range. intros c. simpl. lia.
Qed.

Lemma int_repr_plain z : plain_field (int_repr z).
Proof.
  unfold int_repr. destruct (nat_repr_spec (Z.abs z) (Z.abs_nonneg z)) as (_ & Hd & c & t & Ht & _).
  assert (nat_repr (Z.abs z) <> []) as Hne by (by rewrite Ht). pose proof (digits_plain _ Hne Hd) as Hp. destruct (z <? 0) eqn:E; bool_prop.
  - rewrite Z.abs_neq in * by lia. split; [split; [done|by constructor]|]. intros [=]. by rewrite Ht in *.
  - rewrite Z.abs_eq in * by lia. split; [by split|]. rewrite Ht in *. intros [= -> ->]. by apply Forall_cons_iff in Hd as [Hd _].
Qed.

Lemma device_plain dev : plain_field (device_text dev).
Proof.
  unfold device_text. destruct (int_repr_plain (major dev)) as [[Hn Hf] _], (int_repr_plain (minor dev)) as [[_ Hg] _].
  split; [split; [by destruct (int_repr _)|]|].
  - apply Forall_app. split; [done|]. by constructor.
  - destruct (int_repr (major dev)) as [|c [|]]; done.
Qed.

Lemma escape_plain c : is_py_space c = false \/ c ∈ [32; 9; 10] ->
  escape MOUNT_ESCAPES c <> [] /\ Forall (fun d => is_py_space d = false) (escape MOUNT_ESCAPES c) /\
  (escape MOUNT_ESCAPES c = str "-" -> c = 45).
Proof.
  intros Hc. destruct (decide (c = 32)) as [->|]; [vm_compute; by split_and!; repeat constructor|].
  destruct (decide (c = 9)) as [->|]; [vm_compute; by split_and!; repeat constructor|].
  destruct (decide (c = 10)) as [->|]; [vm_compute; by split_and!; repeat constructor|].
  destruct (decide (c = 92)) as [->|]; [vm_compute; by split_and!; repeat constructor|].
  rewrite escape_other by (repeat first [apply Forall_nil_2 | apply Forall_cons_2]; simpl; congruence).
  split_and!; [done| |by intros [=]]. constructor; [|constructor]. destruct Hc as [Hc|Hc]; [done|set_solver].
Qed.

Lemma path_plain s : path_ok s -> plain_field (encode MOUNT_ESCAPES s).
Proof.
  intros (Hne & Hd & Hs). unfold encode. assert (Forall (fun c => is_py_space c = false) (flat_map (escape MOUNT_ESCAPES) s)) as Hf.
  { clear Hne Hd. induction Hs as [|c s Hc Hs IH]; [constructor|]. cbn [flat_map]. apply Forall_app. split; [by apply escape_plain|done]. }
  assert (forall t, Forall (fun c => is_py_space c = false \/ c ∈ [32; 9; 10]) t -> flat_map (escape MOUNT_ESCAPES) t = [] -> t = []) as Hnil.
  { intros [|c t] Ht; [done|]. apply Forall_cons_iff in Ht as [Hc _]. apply escape_plain in Hc as [Hc _]. cbn. intros E. by apply app_eq_nil in E as [? _]. }
  split; [split; [|done]|].
  - intros E. by apply Hne, Hnil.
  - destruct Hs as [|c s Hc Hs]; [done|]. cbn [flat_map]. intros E. destruct (escape_plain c Hc) as (Hn & _ & H45).
    destruct (escape MOUNT_ESCAPES c) as [|x [|y l]]; [done| |by destruct l].
    injection E as -> E. rewrite (H45 eq_refl), (Hnil s Hs E) in Hd. done.
Qed.

Lemma fields_line ws : Forall field ws -> line_ok (join_with 32 ws).
Proof.
  intros Hf. assert (forall w, field w -> line_ok w) as Hw.
  { intros w [_ Hw]. eapply Forall_impl; [exact Hw|]. intros c Hc. destruct (is_line_break c) eqn:E; [|done].
    apply line_break_space in E. congruence. }
  induction Hf as [|w ws Hx Hws IH]; [constructor|]. destruct ws as [|v ws]; [by apply Hw|]. rewrite join_cons by done.
  apply Forall_app. split; [by apply Hw|by constructor].
Qed.

Lemma front_plain m : mount_ok m -> Forall plain_field (front m).
Proof.
  intros [Hr Hp _ _ Hf]. unfold front. apply Forall_cons_iff in Hf as [Ho Hf]. apply Forall_cons_iff in Hf as [_ Hf].
  apply Forall_cons_iff in Hf as [_ Ht]. repeat (constructor; [auto using int_repr_plain, device_plain, path_plain|]). exact Ht.
Qed.

Lemma back_plain m : mount_ok m -> Forall plain_field (back m).
Proof.
  intros [_ _ [Hs _] _ Hf]. apply Forall_cons_iff in Hf as [_ Hf]. apply Forall_cons_iff in Hf as [Ht Hf].
  apply Forall_cons_iff in Hf as [Hu _]. repeat (constructor; [auto using path_plain|]). constructor.
Qed.

Lemma plain_fields ws : Forall plain_field ws -> Forall field ws.
Proof. intros H. eapply Forall_impl; [exact H|]. by intros w [? _]. Qed.

Lemma mount_line_render m : mount_ok m -> mount_line (render m) = Ok (entry_of m).
Proof.
  intros Hm. pose proof (front_plain m Hm) as Hf. pose proof (back_plain m Hm) as Hb. unfold mount_line, render.
  rewrite partition_fields; [|by apply plain_fields| |done].
  2:{ eapply Forall_impl; [exact Hf|]. by intros w [_ ?]. }
  rewrite !split_words_join by (by apply plain_fields). cbn [front back app]. rewrite !decode_encode.
  destruct (mo_options _ Hm) as [Hne Ho]. by rewrite split_join.
Qed.

Lemma render_line m : mount_ok m -> line_ok (render m).
Proof.
  intros Hm. unfold render, line_ok. apply Forall_app. split; [by apply fields_line, plain_fields, front_plain|].
  apply Forall_app. split; [by repeat constructor|by apply fields_line, plain_fields, back_plain].
Qed.

(** The mount table that the kernel documents is read back exactly: every mount is an entry,
    in order, with its device, its place and its options, whatever blanks, tabs, newlines and
    backslashes the paths contain. *)
Theorem mount_table_read l : Forall mount_ok l -> mount_entries (render_table l) = Ok (map entry_of l).
Proof.
  intros Hl. unfold mount_entries, render_table. rewrite <-(map_map render (fun s => s ++ [10])), splitlines_lines.
  - induction Hl as [|m l Hm Hl IH]; [done|]. cbn [map map_res]. by rewrite mount_line_render, IH.
  - induction Hl; constructor; [by apply render_line|done].
Qed.

(** ** Device numbers *)

Lemma int_repr_inj a b : 0 <= a -> 0 <= b -> int_repr a = int_repr b -> a = b.
Proof.
  intros Ha Hb. unfold int_repr. rewrite !(proj2 (Z.ltb_ge _ 0)) by done. intros E.
  destruct (nat_repr_spec a Ha) as [<- _], (nat_repr_spec b Hb) as [<- _]. by rewrite E.
Qed.

Lemma int_repr_no_colon a : 0 <= a -> 58 ∉ int_repr a.
Proof.
  intros Ha. unfold int_repr. rewrite (proj2 (Z.ltb_ge _ 0)) by done. destruct (nat_repr_spec a Ha) as (_ & Hd & _).
  intros Hin. rewrite Forall_forall in Hd. by specialize (Hd _ Hin).
Qed.

(** A bit of a device number is a bit of its major or of its minor number. *)
Lemma device_bit dev i : 0 <= i < 64 -> Z.testbit dev i =
  if i <? 8 then Z.testbit (minor dev) i else if i <? 20 then Z.testbit (major dev) (i - 8)
  else if i <? 44 then Z.testbit (minor dev) (i - 12) else Z.testbit (major dev) (i - 32).
Proof.
  intros Hi. unfold major, minor.
  assert (forall k n m j, 0 <= k -> 0 <= j -> m = Z.shiftl (Z.ones n) k -> 0 <= n -> Z.testbit m j = (k <=? j) && (j <? k + n)) as Hmask.
  { intros k n m j Hk Hj -> Hn. rewrite Z.shiftl_spec by done. destruct (Z.leb_spec k j); [|rewrite Z.testbit_neg_r by lia; done].
    rewrite Z.testbit_ones_nonneg by lia. cbn [andb]. destruct (Z.ltb_spec (j - k) n), (Z.ltb_spec j (k + n)); (done || lia). }
  repeat (case_match; bool_prop); rewrite Z.lor_spec, !Z.land_spec, ?Z.shiftr_spec by lia.
  - rewrite (Hmask 0 8 0xFF), (Hmask 8 24 0xFFFFFF00) by (lia || done).
    replace ((0 <=? i) && (i <? 0 + 8)) with true by lia. replace ((8 <=? i) && _) with false by lia. by rewrite andb_true_r, andb_false_r, orb_false_r.
  - rewrite (Hmask 0 12 0xFFF), (Hmask 12 20 0xFFFFF000) by (lia || done).
    replace ((0 <=? i - 8) && _) with true by lia. replace ((12 <=? i - 8) && _) with false by lia.
    rewrite andb_true_r, andb_false_r, orb_false_r. f_equal. lia.
  - rewrite (Hmask 0 8 0xFF), (Hmask 8 24 0xFFFFFF00) by (lia || done).
    replace ((0 <=? i - 12) && _) with false by lia. replace ((8 <=? i - 12) && _) with true by lia.
    rewrite andb_true_r, andb_false_r. cbn [orb]. f_equal. lia.
  - rewrite (Hmask 0 12 0xFFF), (Hmask 12 20 0xFFFFF000) by (lia || done).
    replace ((0 <=? i - 32) && _) with false by lia. replace ((12 <=? i - 32) && _) with true by lia.
    rewrite andb_true_r, andb_false_r. cbn [orb]. f_equal. lia.
Qed.

Lemma major_nonneg dev : 0 <= major dev.
Proof. unfold major. apply Z.lor_nonneg. split; apply Z.land_nonneg; right; done. Qed.
Lemma minor_nonneg dev : 0 <= minor dev.
Proof. unfold minor. apply Z.lor_nonneg. split; apply Z.land_nonneg; right; done. Qed.

(** The text of a device number names one device. *)
Lemma device_text_inj a b : 0 <= a < 2 ^ 64 -> 0 <= b < 2 ^ 64 -> device_text a = device_text b -> a = b.
Proof.
  intros Ha Hb E. unfold device_text in E. apply (f_equal (split_on 58)) in E. change (str ":" ++ ?x) with (58 :: x) in E.
  rewrite !split_on_app_sep in E by (apply int_repr_no_colon, major_nonneg). injection E as Emaj Emin.
  rewrite !split_on_free in Emin by (apply int_repr_no_colon, minor_nonneg). injection Emin as Emin.
  apply int_repr_inj in Emaj, Emin; try apply major_nonneg; try apply minor_nonneg.
  apply Z.bits_inj'. intros i Hi. destruct (Z.lt_ge_cases i 64) as [Hlt|Hge].
  - rewrite (device_bit a), (device_bit b) by lia. by rewrite Emaj, Emin.
  - assert (forall n, 0 <= n < 2 ^ 64 -> Z.testbit n i = false) as Hz.
    { intros n Hn. destruct (Z.eq_dec n 0) as [->|]; [apply Z.bits_0|]. apply Z.bits_above_log2; [lia|]. apply Z.log2_lt_pow2; [lia|].
      eapply Z.lt_le_trans; [apply Hn|]. apply Z.pow_le_mono_r; lia. }
    by rewrite !Hz.
Qed.

(** ** The disk is what is mounted *)

Lemma content_functional f p a b : content f p a -> content f p b -> a = b.
Proof. intros (fd & Ho & Hd) (fd' & Ho' & Hd'). congruence. Qed.

Lemma filter_map {A B} (f : A -> B) (p : B -> bool) l : List.filter p (map f l) = map f (List.filter (fun x => p (f x)) l).
Proof. induction l as [|x l IH]; cbn; [done|]. rewrite IH. by destruct (p (f x)). Qed.

Lemma filter_singleton {A B} (f : A -> B) (p : B -> bool) l e : List.filter p (map f l) = [e] ->
  exists m, m ∈ l /\ e = f m /\ List.filter (fun x => p (f x)) l = [m].
Proof.
  rewrite filter_map. destruct (List.filter _ l) as [|m [|]] eqn:Hf; try done. intros [= <-]. exists m. split_and!; [|done|done].
  assert (In m (List.filter (fun x => p (f x)) l)) as Hin by (rewrite Hf; by left). apply filter_In in Hin as [Hin _]. by apply list_elem_of_In.
Qed.

(** Device numbers have 64 bits. *)
Definition wide (f : fs) : Prop :=
  forall i n rdev, nodes f !! i = Some n -> i_kind n = KSpecial (BlockDevice rdev) -> 0 <= rdev < 2 ^ 64.

(** The one mount at the place, which is the one mount of the device. *)
Definition only_mount (l : list mount) (path : pystr) (rdev : Z) (m : mount) : Prop :=
  List.filter (fun x => m_point x =s path) l = [m] /\ List.filter (fun x => m_dev x =? rdev) l = [m] /\
  m_type m = str "ext4" /\ str "rw" ∈ m_options m.

Lemma mounted_once_only l path rdev e : 0 <= rdev < 2 ^ 64 -> Forall (fun m => 0 <= m_dev m < 2 ^ 64) l ->
  mounted_once (map entry_of l) path (device_text rdev) e -> exists m, only_mount l path rdev m.
Proof.
  intros Hr Hl (Hp & Hd & Ht & Hw). apply filter_singleton in Hp as (m & Hm & -> & Hp). exists m. split_and!; [done| |done|done].
  apply filter_singleton in Hd as (m' & Hm' & Hee & Hd).
  assert (List.filter (fun x => m_dev x =? rdev) l = [m']) as Hd'.
  { rewrite <-Hd. apply filter_ext_in. intros x Hx. apply list_elem_of_In in Hx. rewrite Forall_forall in Hl. specialize (Hl x Hx).
    cbn [entry_of device]. destruct (Z.eqb_spec (m_dev x) rdev) as [->|Hne]; [by rewrite str_eqb_refl|]. symmetry. apply str_eqb_neq.
    intros E. by apply device_text_inj in E. }
  rewrite Hd'. f_equal. assert (In m (List.filter (fun x => m_dev x =? rdev) l)) as Hin; [|rewrite Hd' in Hin; by destruct Hin as [->|[]]].
  apply filter_In. split; [by apply list_elem_of_In|]. apply Z.eqb_eq.
  assert (device (entry_of m') = device_text rdev) as Hdev.
  { assert (In m' (List.filter (fun x => device (entry_of x) =s device_text rdev) l)) as Hi by (rewrite Hd; by left).
    apply filter_In in Hi as [_ Hi]. by apply str_eqb_eq in Hi. }
  rewrite <-Hee in Hdev. rewrite Forall_forall in Hl. by apply device_text_inj in Hdev; [|apply Hl|].
Qed.

(** C32. When the check exits with status 0 and the kernel's mount table is [l], the disk that the
    by-id link leads to is approved (a whole block device of the approved size, serial number,
    label and UUID, below directories that only root can change), exactly one mount of the
    table is at the approved place, exactly one mount is of that device, and they are the
    same, of type ext4 and writable. *)
Theorem approved_disk_mounted `{machine} args w data l :
  quiet -> honest -> is_dir_at (w_fs w) [] = true -> wide (w_fs w) ->
  content (w_fs w) (abs_path "/proc/self/mountinfo") data -> utf8_decode Strict data = Ok (render_table l) ->
  Forall (fun m => mount_ok m /\ 0 <= m_dev m < 2 ^ 64) l ->
  match main args w with
  | (Ok status, w') => w_fs w' = w_fs w /\ (status = 0 -> exists disk rdev m, approved (w_fs w) args disk rdev /\
      only_mount l (as_posix (pure_path (a_mountpoint args))) rdev m)
  | (Err _, w') => w_fs w' = w_fs w
  end.
Proof.
  intros Hq Hh Hr Hw Hc Hd Hl. pose proof (storage_mount_approved args w Hq Hh Hr) as Hm.
  destruct (main args w) as [[status|e] w']; [|done]. destruct Hm as [Hf Hm]. split; [done|]. intros Hs.
  destruct (Hm Hs) as (disk & rdev & Ha). destruct (ap_block _ _ _ _ Ha) as (i & n & [_ Hn]%node_at_nodes & Hk & _).
  destruct (ap_table _ _ _ _ Ha) as (data' & text & entries & e & Hc' & Hd' & He & Hone).
  rewrite (content_functional _ _ _ _ Hc' Hc), Hd in Hd'. injection Hd' as <-. apply Forall_and in Hl as [Hok Hdev].
  rewrite (mount_table_read l Hok) in He. injection He as <-.
  destruct (mounted_once_only _ _ rdev _ (Hw _ _ _ Hn Hk) Hdev Hone) as [m Hmm]. by exists disk, rdev, m.
Qed.

(** A path with blanks and an octal escape of its own. *)
Definition sample_mount : mount :=
  Mount 36 35 0x800 (str "/") (str "/mnt/a b\040c") (strs ["rw"; "nosuid"]) [str "shared:1"] (str "ext4") (str "/dev/sda") (str "rw").

(** Deciding [mount_ok]. *)
Definition plain_fieldb (w : pystr) : bool := negb (w =s []) && forallb (fun c => negb (is_py_space c)) w && negb (w =s str "-").
Definition path_okb (s : pystr) : bool :=
  negb (s =s []) && negb (s =s str "-") && forallb (fun c => negb (is_py_space c) || bool_decide (c ∈ [32; 9; 10])) s.
Definition mount_okb (m : mount) : bool :=
  path_okb (m_root m) && path_okb (m_point m) && (path_okb (m_source m) && negb (has_char 35 (m_source m))) &&
  (negb (bool_decide (m_options m = [])) && forallb (fun o => negb (has_char 44 o)) (m_options m)) &&
  forallb plain_fieldb (join_with 44 (m_options m) :: m_type m :: m_super m :: m_tags m).

Lemma path_okb_ok s : path_okb s = true -> path_ok s.
Proof.
  unfold path_okb. intros Hb. bool_prop. apply str_eqb_neq in H1, H. split_and!; [done|done|]. apply Forall_forall. intros c Hc.
  rewrite forallb_elem in H0. specialize (H0 c Hc). apply orb_true_iff in H0 as [H0|H0]; [left|right]; bool_prop; done.
Qed.

Lemma plain_fieldb_ok w : plain_fieldb w = true -> plain_field w.
Proof.
  unfold plain_fieldb. intros Hb. bool_prop. apply str_eqb_neq in H0, H. split; [split; [done|]|done]. apply Forall_forall. intros c Hc.
  rewrite forallb_elem in H1. specialize (H1 c Hc). by apply negb_true_iff in H1.
Qed.

Lemma mount_okb_ok m : mount_okb m = true -> mount_ok m.
Proof.
  unfold mount_okb. intros Hb. apply andb_true_iff in Hb as [Hb Hf]. apply andb_true_iff in Hb as [Hb Ho]. apply andb_true_iff in Hb as [Hb Hs].
  apply andb_true_iff in Hb as [Hr Hp]. apply andb_true_iff in Ho as [Hne Hc]. apply andb_true_iff in Hs as [Hs Hh]. constructor.
  - by apply path_okb_ok.
  - by apply path_okb_ok.
  - split; [by apply path_okb_ok|]. by apply negb_true_iff, has_char_not_elem in Hh.
  - split; [by apply negb_true_iff, bool_decide_eq_false in Hne|]. apply Forall_forall. intros o Hin. rewrite forallb_elem in Hc.
    specialize (Hc o Hin). by apply negb_true_iff, has_char_not_elem in Hc.
  - apply Forall_forall. intros x Hx. rewrite forallb_elem in Hf. by apply plain_fieldb_ok, Hf.
Qed.

Lemma sample_mount_ok : mount_ok sample_mount.
Proof. apply mount_okb_ok. vm_compute. reflexivity. Qed.

Lemma sample_table_read : Forall mount_ok [sample_mount] /\ mount_entries (render_table [sample_mount]) = Ok [entry_of sample_mount].
Proof.
  assert (Forall mount_ok [sample_mount]) as H by (constructor; [exact sample_mount_ok|constructor]).
  split; [exact H|exact (mount_table_read [sample_mount] H)].
Defined.

(** The table of the sample disk. *)
Definition disk_mounts : list mount :=
  [Mount 30 1 1 (str "/") (str "/") [str "rw"] [] (str "tmpfs") (str "none") (str "rw");
   Mount 36 30 0x800 (str "/") (str "/mnt/data") (strs ["rw"; "nosuid"]) [str "shared:1"] (str "ext4") (str "/dev/sda") (str "rw")].
Definition wideb (f : fs) : bool :=
  forallb (fun kv => match i_kind kv.2 with KSpecial (BlockDevice rdev) => (0 <=? rdev) && (rdev <? 2 ^ 64) | _ => true end) (map_to_list (nodes f)).

Lemma wideb_ok f : wideb f = true -> wide f.
Proof.
  unfold wideb. rewrite forallb_forall. intros Hb i n rdev Hn Hk. apply elem_of_map_to_list, list_elem_of_In in Hn. specialize (Hb _ Hn).
  cbn [snd] in Hb. rewrite Hk in Hb. lia.
Qed.

Lemma disk_wide : wide (w_fs disk_start).
Proof. apply wideb_ok. vm_cast_no_check (@eq_refl bool true). Qed.
Lemma disk_content : content (w_fs disk_start) (abs_path "/proc/self/mountinfo") (ascii_bytes (render_table disk_mounts)).
Proof. exists 24. split; vm_compute; reflexivity. Qed.
Lemma disk_decoded : utf8_decode Strict (ascii_bytes (render_table disk_mounts)) = Ok (render_table disk_mounts).
Proof. vm_compute. reflexivity. Qed.
Lemma disk_mounts_ok : Forall (fun m => mount_ok m /\ 0 <= m_dev m < 2 ^ 64) disk_mounts.
Proof. repeat (constructor; [split; [apply mount_okb_ok; vm_compute; reflexivity|vm_compute; split; congruence]|]). constructor. Qed.

Lemma approved_disk_mounted_witness : exists disk rdev m,
  approved (w_fs disk_start) disk_args disk rdev /\ only_mount disk_mounts (as_posix (pure_path (a_mountpoint disk_args))) rdev m.
Proof.
  pose proof disk_run_ok as Hok. pose proof disk_root as Hr. pose proof disk_wide as Hw. pose proof disk_content as Hc. revert Hok Hr Hw Hc.
  generalize disk_start. intros w Hok Hr Hw Hc.
  pose proof (@approved_disk_mounted RootfsRun.RootfsRun.here disk_args w _ _ (lone_quiet _ _) here_honest Hr Hw Hc disk_decoded disk_mounts_ok) as Ht.
  destruct (@main RootfsRun.RootfsRun.here disk_args w) as [[status|e] w']; [|discriminate Hok]. destruct status; try discriminate Hok.
  apply Ht. reflexivity.
Defined.

(** A line separator of Unicode in the path of any mount, which the kernel does not escape,
    breaks the table, and with it the check of every other mount. *)
Example line_separator_breaks :
  mount_entries (render_table [Mount 36 35 0x800 (str "/") (str "/mnt/" ++ [0x2028]) [str "rw"] [] (str "ext4") (str "/dev/sda") (str "rw")])
    = raise ValueError "malformed mountinfo record".
Proof. vm_compute. reflexivity. Qed.
End MountTable.
