(* ===== verification/StageBinding.v ===== *)
(** * Stage aliases (scripts/runtime_stage_binding.py, scripts/manage-runtime-stage-binding.py)

    A directory of the storage volume is bound to an alias below [/opt/mkruntime].  A record
    keeps the identities of the two; the alias is detached or bound again only when everything
    that can be observed agrees with the record.  The kernel's [mount] and [umount2], and
    whether the child process answers in time, are parameters: a mount changes the file system
    that paths lead through, and the table in [/proc/self/mountinfo].  In the model of [Sys] an
    inode number names one node of the machine, whatever its device. *)
From Stdlib Require Import ZArith Lia.
From Stdlib Require Import Init.Byte.
From stdpp Require Import base list sets strings option gmap.
From S2P Require Import Prelude PyStr PyVal Bytes Json Sys RealPath StorageMount.

Open Scope string_scope.
Open Scope list_scope.
Open Scope Z_scope.

(** [libc.mount] of one open directory on another, [libc.umount2], what
    [libc.mount(None, "/", None, MS_REC|MS_PRIVATE, None)] does to the table of the namespace
    it is called in, whether the mount at a path passes its events on to other namespaces,
    and the clock of [select]. *)
Class mount_ops := MountOps {
  bind_mount : fs -> Z -> Z -> res fs;
  detach : fs -> path -> res fs;
  set_private : fs -> res fs;
  passes_on : fs -> path -> bool;
  late : nat -> bool }.

Module StageBinding.
Import StorageMount.
Export RealPath.

Definition UUID : re := Cat (Rep LOWER_HEX 8 8) (Cat (Rep (Cat (Lit "-") (Rep LOWER_HEX 4 4)) 3 3) (Cat (Lit "-") (Rep LOWER_HEX 12 12))).
Definition ALIAS_NAME : re :=
  Cat (Lit "g8-host-") (Rep (Cls (fun c => in_range 97 122 c || in_range 48 57 c || (c =? 45))) 1 64).

Definition refuse {A} : res A := raise ValueError "stage binding identity or state is unqualified".
Definition refuse_if (b : bool) : res unit := raise_if b ValueError "stage binding identity or state is unqualified".

(** [path.parent], and whether [a] is one of [b.parents]. *)
Definition parent (p : ppath) : ppath := PPath (pp_root p) (removelast (pp_comps p)).
Definition among_parents (a b : ppath) : bool :=
  (pp_root a =s pp_root b) && startswith (pp_comps b) (pp_comps a) && negb (bool_decide (a = b)).

Definition canonical (value : pyval) : res ppath :=
  match value with
  | VStr s =>
      refuse_if (negb (startswith s (str "/")) || (4096 <? zlen s) || negb (normpath s =s s)) ;; Ok (pure_path s)
  | _ => refuse
  end.

(** ** Records *)

(** The fields of a valid record. *)
Record binding := Binding {
  b_volume : ppath; b_uuid : pystr; b_backing : ppath; b_alias : ppath;
  b_backing_inode : Z; b_underlay_inode : Z; b_alias_parent_inode : Z }.

Definition RECORD_KEYS : list pystr :=
  strs ["version"; "capture_boot"; "volume"; "uuid"; "backing"; "alias"; "backing_inode"; "underlay_inode"; "alias_parent_inode"].

(** An integer field that must be positive; a text that must match. *)
Definition positive (d : dict) (k : string) : res Z :=
  match get d (str k) with VInt n => refuse_if (n <=? 0) ;; Ok n | _ => refuse end.
Definition matching (d : dict) (k : string) : res pystr :=
  match get d (str k) with VStr s => refuse_if (negb (fullmatch UUID s)) ;; Ok s | _ => refuse end.

Definition validate_record (value : pyval) : res binding :=
  match value with
  | VDict d =>
      refuse_if (negb (keys_are d RECORD_KEYS)) ;;
      (match get d (str "version") with VInt n => refuse_if (negb (n =? 1)) | _ => refuse end) ;;
      let! backing_inode := positive d "backing_inode" in
      let! underlay_inode := positive d "underlay_inode" in
      let! alias_parent_inode := positive d "alias_parent_inode" in
      let! _ := matching d "capture_boot" in
      let! uuid := matching d "uuid" in
      let! volume := canonical (get d (str "volume")) in
      let! backing := canonical (get d (str "backing")) in
      let! alias := canonical (get d (str "alias")) in
      refuse_if (negb (bool_decide (parent backing = volume)) || negb (startswith (path_name backing) (str "g8-stage-")) ||
                 negb (bool_decide (parent alias = pure_path (str "/opt/mkruntime"))) || negb (fullmatch ALIAS_NAME (path_name alias)) ||
                 bool_decide (alias = backing) || among_parents alias backing || among_parents backing alias) ;;
      Ok (Binding volume uuid backing alias backing_inode underlay_inode alias_parent_inode)
  | _ => refuse
  end.

(** ** The mount table *)

Record entry := Entry {
  e_device : pystr; e_root : pystr; e_path : pystr; e_options : list pystr; e_kind : pystr; e_propagating : bool }.

Definition unescape (value : pystr) : pystr :=
  foldl (fun v e => replace e.1 e.2 v) value [(str "\040", [32]); (str "\011", [9]); (str "\012", [10]); (str "\134", [92])].

Definition propagates (field : pystr) : bool :=
  startswith field (str "shared:") || startswith field (str "master:") || startswith field (str "propagate_from:").

Definition entry_line (line : pystr) : res entry :=
  match partition (str " - ") line with
  | None => refuse
  | Some (front, back) =>
      match split_words front, split_words back with
      | _ :: _ :: dev :: root :: point :: opts :: tags, kind :: _ :: _ :: _ =>
          Ok (Entry dev (unescape root) (unescape point) (split_on 44 opts) kind (existsb propagates tags))
      | _, _ => refuse
      end
  end.
Definition entries_of (text : pystr) : res (list entry) := map_res entry_line (splitlines text).

Definition safe_options (e : entry) : bool := subset (strs ["rw"; "nosuid"; "nodev"]) (e_options e).

(** The entry of the bound alias, when there is one. *)
Definition table_state (mounts : list entry) (b : binding) (identity : pystr) : res (option entry) :=
  let selected := List.filter (fun m => e_device m =s identity) mounts in
  let base := List.filter (fun m => e_path m =s as_posix (b_volume b)) selected in
  let bound := List.filter (fun m => e_path m =s as_posix (b_alias b)) selected in
  match base with
  | [m] =>
      refuse_if (negb (e_root m =s str "/") || negb (e_kind m =s str "ext4") || negb (safe_options m) ||
                 (1 <? zlen bound) || negb (zlen selected =? 1 + zlen bound) ||
                 existsb (fun m => startswith (e_path m) (as_posix (b_alias b) ++ str "/")) mounts) ;;
      Ok (head bound)
  | _ => refuse
  end.

Section binding.
Context `{machine} `{mount_ops}.

Definition entries : M (list entry) :=
  let* text := read_utf8 (abs_path "/proc/self/mountinfo") in lift (entries_of text).

(** ** Directories *)

(** [\[path, *path.parents\]] *)
Definition ancestors (p : path) : list path := map (fun k => take k p) (rev (seq 0 (S (length p)))).
Definition owned_step (_ : unit) (part : path) : M unit :=
  let* info := lstat part in
  lift (refuse_if (negb (s_isdir (st_mode info)) || negb (st_uid info =? 0) || negb (Z.land (st_mode info) 0x12 =? 0))).

Definition directory (p : ppath) (private : bool) : M stat_result :=
  let* p := lift (canonical (VStr (as_posix p))) in
  mfor_each owned_step tt (ancestors (pp_comps p)) ;;;
  (if private then let* info := stat (pp_comps p) in lift (refuse_if (negb (s_imode (st_mode info) =? 0x1C0))) else mret tt) ;;;
  stat (pp_comps p).

(** ** The state of an alias *)

Definition check_device (b : binding) (vol : stat_result) : M unit :=
  let link := PPath (str "/") (abs_path "/dev/disk/by-uuid" ++ [b_uuid b]) in
  let* _ := directory (parent link) false in
  let* info := lstat (pp_comps link) in
  lift (refuse_if (negb (s_islnk (st_mode info)) || negb (st_uid info =? 0))) ;;;
  let* disk := resolve_strict [] (as_posix link) in
  let* device := stat disk in
  lift (refuse_if (negb (s_isblk (st_mode device)) || negb (st_rdev device =? st_dev vol))) ;;;
  let* root := stat [] in
  lift (refuse_if (st_dev vol =? st_dev root)).

(** Whether the alias is bound; everything else is refused. *)
Definition topology (value : pyval) : M bool :=
  let* b := lift (validate_record value) in
  let* vol := directory (b_volume b) false in
  let* source := directory (b_backing b) true in
  let* target := directory (b_alias b) true in
  let* above := stat (pp_comps (parent (b_alias b))) in
  lift (refuse_if (negb (st_ino above =? b_alias_parent_inode b) || negb (st_ino source =? b_backing_inode b) ||
                   negb (st_dev source =? st_dev vol))) ;;;
  check_device b vol ;;;
  let* mounts := entries in
  let* bound := lift (table_state mounts b (device_text (st_dev vol))) in
  match bound with
  | Some m =>
      lift (refuse_if (negb (bool_decide ((st_dev target, st_ino target) = (st_dev source, st_ino source))) ||
                       negb (e_root m =s str "/" ++ path_name (b_backing b)) || negb (e_kind m =s str "ext4") || negb (safe_options m))) ;;;
      mret true
  | None =>
      lift (refuse_if (negb (st_ino target =? b_underlay_inode b))) ;;;
      let* children := listdir (pp_comps (b_alias b)) in
      lift (refuse_if (negb (bool_decide (children = [])) || existsb (fun m => e_path m =s as_posix (b_alias b)) mounts)) ;;;
      mret false
  end.

(** ** Below a bound alias *)

(** The mount namespace of a child process: its parent's until it leaves it; then it has a
    view of its own, whose mounts are private or still pass events on to the parent's. *)
Inductive namespace := Shared | Own (private : bool) (view : fs).
Record child_state := ChildState { c_parent : world; c_ns : namespace }.
Definition C (A : Type) : Type := child_state -> res A * child_state.

Definition cbind {A B} (m : C A) (k : A -> C B) : C B :=
  fun s => match m s with (Ok a, s') => k a s' | (Err e, s') => (Err e, s') end.

(** What others do to the parent's view while the child makes [n] calls in its own. *)
Fixpoint meanwhile (n : nat) (c : nat) (f : fs) : fs :=
  match n with O => f | S n => meanwhile n (S c) (env c f) end.

(** Calls of the child see and change the view of its namespace. *)
Definition in_view {A} (m : M A) : C A :=
  fun s => match c_ns s with
  | Shared => let '(r, w) := m (c_parent s) in (r, ChildState w Shared)
  | Own private view =>
      let c := w_clock (c_parent s) in
      let '(r, w) := m (World view c) in
      (r, ChildState (World (meanwhile (w_clock w - c) c (w_fs (c_parent s))) (w_clock w)) (Own private (w_fs w)))
  end.

(** [libc.unshare(CLONE_NEWNS)]: from here the child has a copy of the parent's view. *)
Definition unshare : C unit :=
  cbind (in_view (query (fun _ => Ok tt))) (fun _ s =>
    (Ok tt, ChildState (c_parent s) (match c_ns s with Shared => Own false (w_fs (c_parent s)) | ns => ns end))).

(** The private remount of the root with everything below it.  In the parent's namespace it
    changes the parent's table; in its own the child reads no table afterwards. *)
Definition make_private : C unit :=
  fun s => match c_ns s with
  | Shared => in_view (Sys.change set_private) s
  | Own _ _ => cbind (in_view (query (fun _ => Ok tt))) (fun _ s =>
      (Ok tt, ChildState (c_parent s) (match c_ns s with Own _ view => Own true view | ns => ns end))) s
  end.

(** [libc.umount2(alias, UMOUNT_NOFOLLOW)]: in the child's view, and in the parent's too when
    the two are one or the mount passes it on. *)
Definition umount2 (p : path) : C unit :=
  fun s => cbind (in_view (Sys.change (fun f => detach f p))) (fun _ s' =>
    (Ok tt, match c_ns s with
            | Own false view => if passes_on view p then
                match detach (w_fs (c_parent s')) p with
                | Ok f' => ChildState (World f' (w_clock (c_parent s'))) (c_ns s')
                | Err _ => s'
                end else s'
            | _ => s'
            end)) s.

(** A child process: it begins in its parent's namespace; what it leaves is what it did to
    the parent's view and what it writes to the pipe, unless it fails. *)
Definition fork_child (body : C bytes) : M (option bytes) :=
  fun w => let '(r, s) := body (ChildState w Shared) in
           (Ok (match r with Ok data => Some data | Err _ => None end), c_parent s).

(** What the child reports once the alias is off. *)
Definition inspect_beneath (alias : ppath) : M bytes :=
  let* info := directory alias true in
  let* children := listdir (pp_comps alias) in
  mraise_if (negb (bool_decide (children = []))) SystemExit "1" ;;;
  mraise_if (negb ((0 <=? st_ino info) && (st_ino info <? 2 ^ 64))) StructError "int too large to convert" ;;;
  mret (Sha256.be_bytes 8 (st_ino info)).

Definition child (alias : ppath) : C bytes :=
  cbind unshare (fun _ =>
  cbind make_private (fun _ =>
  cbind (umount2 (pp_comps alias)) (fun _ =>
  in_view (inspect_beneath alias)))).

Definition underlay_inode (alias : ppath) : M Z :=
  query (fun _ => Ok tt) ;;;
  let* answer := fork_child (child alias) in
  let* timeout := query (fun _ => Ok tt) ;;; (fun w => (Ok (late (w_clock w)), w)) in
  let* status := query (fun _ => Ok tt) ;;; mret (if timeout then None else answer) in
  match status with
  | Some data => mret (be_int 0 data)
  | None => lift refuse
  end.

(** ** Operations *)

Definition text_value (p : ppath) : pyval := VStr (as_posix p).

Definition capture (volume uuid backing alias : pystr) : M pyval :=
  let* volume := lift (canonical (VStr volume)) in
  let* backing := lift (canonical (VStr backing)) in
  let* alias := lift (canonical (VStr alias)) in
  let* source := directory backing true in
  let* current := directory alias true in
  let mounted := bool_decide ((st_dev source, st_ino source) = (st_dev current, st_ino current)) in
  let* boot := read_utf8 (abs_path "/proc/sys/kernel/random/boot_id") in
  let* above := stat (pp_comps (parent alias)) in
  let value (underlay : Z) := VDict [(str "version", VInt 1); (str "capture_boot", VStr (strip boot)); (str "volume", text_value volume);
    (str "uuid", VStr uuid); (str "backing", text_value backing); (str "alias", text_value alias); (str "backing_inode", VInt (st_ino source));
    (str "underlay_inode", VInt underlay); (str "alias_parent_inode", VInt (st_ino above))] in
  let* bound := topology (value (st_ino current)) in
  lift (refuse_if (negb (Bool.eqb bound mounted))) ;;;
  if mounted then
    let* underlay := underlay_inode alias in
    let* bound := topology (value underlay) in
    lift (refuse_if (negb bound)) ;;; mret (value underlay)
  else mret (value (st_ino current)).

Definition unique : dict -> res dict := strict_pairs ValueError "stage binding identity or state is unqualified" [].

Definition stamp (s : stat_result) : list Z :=
  [st_dev s; st_ino s; st_mode s; st_uid s; st_nlink s; st_size s; st_mtime_ns s; st_ctime_ns s].

Definition load (p : ppath) (expected : option pystr) : M pyval :=
  let* expected := match expected with Some e => lift (refuse_if (negb (fullmatch HEX64 e)) ;; Ok e) | None => lift refuse end in
  let* _ := directory (parent p) true in
  let* fd := open_ true false (pp_comps p) in
  let* data := mfinally
    (let* info := fstat fd in
     lift (refuse_if (negb (s_isreg (st_mode info)) || negb (st_uid info =? 0) || negb (st_nlink info =? 1) ||
                      negb (s_imode (st_mode info) =? 0x180) || negb ((0 <? st_size info) && (st_size info <=? 16384)))) ;;;
     let* content := read_fd fd in
     let data := take (Z.to_nat 16385) content in
     lift (refuse_if (negb (zlen data =? st_size info) || negb (sha256 data =s expected))) ;;;
     let* held := fstat fd in
     let* named := lstat (pp_comps p) in
     lift (refuse_if (negb (bool_decide (stamp info = stamp held)) || negb (bool_decide (stamp info = stamp named)))) ;;;
     mret data)
    (close fd) in
  let* value := lift (loads_bytes unique float_constant data) in
  let* _ := lift (validate_record value) in
  mret value.

Definition record_bytes (value : pyval) : bytes := ascii_bytes (dumps no_floats spaced value ++ [10]).

Definition publish (p : ppath) (value : pyval) : M unit :=
  let* _ := lift (validate_record value) in
  let* _ := directory (parent p) true in
  let* fd := create_excl 0x180 (pp_comps p) in
  mfinally (fchmod fd 0x180 ;;; write_fd fd (record_bytes value) ;;; fsync fd) (close fd) ;;;
  let* dir := open_ false true (pp_comps (parent p)) in
  mfinally (fsync dir) (close dir).

Definition require_private_namespace : M unit :=
  let* own := readlink (abs_path "/proc/self/ns/mnt") in
  let* init := readlink (abs_path "/proc/1/ns/mnt") in
  lift (refuse_if (own =s init)) ;;;
  let* mounts := entries in
  lift (refuse_if (existsb e_propagating mounts)).

Definition private_directory (info : stat_result) : bool :=
  (st_uid info =? 0) && s_isdir (st_mode info) && (s_imode (st_mode info) =? 0x1C0).

(** Binding again: the two directories are held open and compared with the record. *)
Definition rebind (b : binding) : M unit :=
  require_private_namespace ;;;
  let* source := open_ true true (pp_comps (b_backing b)) in
  let* target := open_ true true (pp_comps (b_alias b)) in
  mfinally
    (let* source_info := fstat source in
     let* target_info := fstat target in
     lift (refuse_if (negb (st_ino source_info =? b_backing_inode b))) ;;;
     let* vol := stat (pp_comps (b_volume b)) in
     lift (refuse_if (negb (st_dev source_info =? st_dev vol) || negb (st_ino target_info =? b_underlay_inode b))) ;;;
     let* above := stat (pp_comps (parent (b_alias b))) in
     lift (refuse_if (negb (st_dev target_info =? st_dev above) || negb (private_directory source_info) || negb (private_directory target_info))) ;;;
     Sys.change (fun f => match bind_mount f source target with Ok f' => Ok f' | Err _ => raise OSError "stage alias mount refused" end))
    (close source ;;; close target).

Definition release (value : pyval) (b : binding) : M unit :=
  let* underlay := underlay_inode (b_alias b) in
  lift (refuse_if (negb (underlay =? b_underlay_inode b))) ;;;
  let* bound := topology value in
  lift (refuse_if (negb bound)) ;;;
  Sys.change (fun f => match detach f (pp_comps (b_alias b)) with Ok f' => Ok f' | Err _ => raise OSError "stage alias detach refused" end).

Definition change (value : pyval) (restore : bool) : M bool :=
  let* bound := topology value in
  if Bool.eqb bound restore then mret false
  else
    let* b := lift (validate_record value) in
    (if restore then rebind b else release value b) ;;;
    let* bound := topology value in
    lift (refuse_if (negb (Bool.eqb bound restore))) ;;;
    mret true.

(** ** The program *)

Inductive operation := Capture (volume uuid backing alias : pystr) | Check | Release | Restore.

(** The exit status, and whether the alias was changed and is bound. *)
Definition main (record : ppath) (record_sha256 : option pystr) (op : operation) : M (Z * option (bool * bool)) :=
  mcatch
    (mraise_if (negb (euid me =? 0)) ValueError "root required" ;;;
     let* (value, changed) := match op with
       | Capture volume uuid backing alias =>
           mraise_if (bool_decide (is_Some record_sha256)) ValueError "capture authority missing" ;;;
           let* value := capture volume uuid backing alias in
           publish record value ;;; mret (value, true)
       | Check => let* value := load record record_sha256 in mret (value, false)
       | Release => let* value := load record record_sha256 in let* changed := change value false in mret (value, changed)
       | Restore => let* value := load record record_sha256 in let* changed := change value true in mret (value, changed)
       end in
     let* bound := topology value in
     mret (0, Some (changed, bound)))
    (fun e => if bool_decide (exn_cls e = SystemExit) then reraise e else mret (1, None)).
End binding.
End StageBinding.
