(* ===== verification/StageBindingSafe.v ===== *)
(** * What a change of a stage alias does

    The alias is changed by at most one operation of the kernel, on exactly the directories of
    the record, and only when everything observable agrees with the record; when the change
    returns, the alias is in the requested state. *)
From Stdlib Require Import ZArith Lia.
From Stdlib Require Import Init.Byte.
From stdpp Require Import base list sets strings option gmap.
From S2P Require Import Prelude PyStr PyVal Bytes Json JsonTrip Sys RealPath FsRules RootfsScanSafe RootfsRun MaterializeSafe OciLoadSafe.
From S2P Require Import RootPathSafe StorageMount StorageMountSafe StageBinding.

Open Scope string_scope.
Open Scope list_scope.
Open Scope Z_scope.

Module StageBindingSafe.
Import RootfsScanSafe RootfsRun MaterializeSafe RootPathSafe StorageMountSafe.
Export StageBinding.

(** ** Paths *)

(** An absolute path as [canonical] returns it. *)
Definition abs_ok (p : ppath) : Prop :=
  (pp_root p = str "/" \/ pp_root p = str "//") /\
  Forall (fun c => c <> [] /\ c <> str "." /\ SLASH ∉ c) (pp_comps p) /\ plain_path (pp_comps p).

Lemma abs_ok_text p : abs_ok p -> pure_path (as_posix p) = p.
Proof.
  intros (Hr & Hc & _). destruct p as [root comps]. cbn [pp_root pp_comps] in *. transitivity (pure_path (root ++ join_with SLASH comps)); [|by apply pure_path_join].
  f_equal. unfold as_posix. by destruct Hr as [-> | ->].
Qed.

Lemma canonical_ok v p : canonical v = Ok p -> abs_ok p /\ exists s, v = VStr s /\ p = pure_path s.
Proof.
  unfold canonical. destruct v as [| | | |s| |]; try done. unfold refuse_if. intros Hc. inv_ok. apply orb_false_iff in E as [E Hn].
  apply orb_false_iff in E as [Hs _]. apply negb_false_iff in Hs, Hn. apply str_eqb_eq in Hn.
  pose proof (absolute_root s Hs) as Hr. split; [|eauto]. split_and!; [|apply pure_path_comps|by apply normal_components].
  apply startswith_prefix in Hs. unfold pure_path. destruct (splitroot_slash s Hs) as [Hsr|Hsr]; destruct (splitroot s) as [root rel]; simpl in *; subst; auto.
Qed.

Lemma canonical_text s p : canonical (VStr s) = Ok p -> p = pure_path s /\ as_posix p = s.
Proof.
  unfold canonical, refuse_if. intros Hc. inv_ok. apply orb_false_iff in E as [E Hn]. apply orb_false_iff in E as [Hs _].
  apply negb_false_iff in Hs, Hn. apply str_eqb_eq in Hn. split; [done|]. by apply normal_text; [apply absolute_root|].
Qed.

Lemma abs_ok_parent p : abs_ok p -> abs_ok (parent p).
Proof.
  intros (Hr & Hc & Hp). unfold parent. destruct p as [root comps]. cbn [pp_root pp_comps] in *. split_and!; [done| |]; cbn [pp_comps].
  - destruct comps as [|c l _] using rev_ind; [done|]. rewrite removelast_last. by apply Forall_app in Hc as [Hc _].
  - destruct comps as [|c l _] using rev_ind; [done|]. rewrite removelast_last. by apply plain_app in Hp as [Hp _].
Qed.

Record binding_ok (b : binding) : Prop := {
  bo_volume : abs_ok (b_volume b); bo_backing : abs_ok (b_backing b); bo_alias : abs_ok (b_alias b);
  bo_parent : parent (b_backing b) = b_volume b; bo_place : parent (b_alias b) = pure_path (str "/opt/mkruntime");
  bo_apart : b_alias b <> b_volume b /\ b_alias b <> b_backing b;
  bo_uuid : fullmatch StageBinding.UUID (b_uuid b) = true }.

Lemma record_binding v b : validate_record v = Ok b -> binding_ok b.
Proof.
  unfold validate_record. destruct v as [| | | | | |d]; try done. unfold refuse_if. intros Hv. inv_ok.
  repeat match goal with H : canonical _ = Ok _ |- _ => apply canonical_ok in H as [H _] end.
  repeat (apply orb_false_iff in E9 as [E9 ?]). apply negb_false_iff, bool_decide_eq_true in E9.
  repeat match goal with H : negb _ = false |- _ => apply negb_false_iff in H end.
  repeat match goal with H : bool_decide _ = true |- _ => apply bool_decide_eq_true in H | H : bool_decide _ = false |- _ => apply bool_decide_eq_false in H end.
  constructor; cbn [b_volume b_uuid b_backing b_alias]; try done.
  - split; [|done]. intros ->. match goal with Ha : among_parents _ a7 = false |- _ => revert Ha end. unfold among_parents.
    rewrite <-E9 at 1 2. cbn [parent pp_root pp_comps]. rewrite str_eqb_refl.
    rewrite (proj2 (startswith_prefix _ _)).
    + by rewrite bool_decide_eq_false_2.
    + destruct (pp_comps a7) as [|c l _] using rev_ind; [done|]. rewrite removelast_last. by eexists.
  - unfold matching in E5. destruct (get d (str "uuid")); try done. unfold refuse_if in E5. inv_ok. by apply negb_false_iff.
Qed.

(** ** Directories of root *)

(** Every directory of a path, the root and the last one included. *)
Definition owned (f : fs) (p : path) : Prop := forall q, q `prefix_of` p -> roots_own f q.
Definition private_at (f : fs) (p : path) (i : Z) (n : inode) : Prop := owned f p /\ node_at f p = Some (i, n) /\ Z.land (i_perm n) 0xFFF = 0x1C0.

Lemma elem_ancestors q p : q `prefix_of` p -> q ∈ ancestors p.
Proof.
  intros [r ->]. unfold ancestors. apply list_elem_of_fmap. exists (length q). rewrite take_app_length. split; [done|].
  rewrite list_elem_of_In, <-in_rev, in_seq, length_app. lia.
Qed.

Lemma s_imode_perm i n : s_imode (st_mode (stat_of i n)) = Z.land (i_perm n) 0xFFF.
Proof.
  unfold s_imode, stat_of. cbn [st_mode]. rewrite Z.land_lor_distr_l, <-Z.land_assoc. change (Z.land 0xFFF 0xFFF) with 0xFFF.
  by destruct (i_kind n) as [| | |[]].
Qed.

Lemma owned_spine_at f p : plain_path p -> owned f p -> spine f p /\ real_dir f p.
Proof.
  intros Hp Ho. assert (real_dir f p) as Hr.
  { intros q Hq. destruct (Ho q Hq) as (i & n & Hn & Hk & _). unfold is_dir_at. by rewrite Hn, Hk. }
  split; [|done]. split_and!; [done|auto|]. intros _. destruct (Ho p ltac:(done)) as (i & n & Hn & Hk & _). exists i, n. by rewrite Hk.
Qed.

(** What [lstat] says of every ancestor is what is there. *)
Lemma owned_intro f p : plain_path p ->
  (forall q, q `prefix_of` p -> exists s, fs_stat false f q = Ok s /\ s_isdir (st_mode s) = true /\ st_uid s = 0 /\ Z.land (st_mode s) 0x12 = 0) -> owned f p.
Proof.
  intros Hp Hs. induction p as [|c p IH] using rev_ind; intros q Hq.
  - apply prefix_nil_inv in Hq as ->. destruct (Hs [] ltac:(done)) as (s & Hst & Hd & Hu & Hm).
    apply spine_stat in Hst as (i & n & Hn & ->); [|apply spine_root]. apply s_isdir_kind in Hd.
    exists i, n. split_and!; try done. by apply (OciLoadSafe.mode_bits i).
  - apply plain_app in Hp as [Hp Hc]. apply Forall_cons_iff in Hc as [Hc _].
    assert (owned f p) as Ho by (apply IH; [done|]; intros r Hr; apply Hs; by apply prefix_app_r).
    destruct Hq as [r Hq]. destruct r as [|x r _] using rev_ind.
    + rewrite app_nil_r in Hq. subst q. destruct (Hs (p ++ [c]) ltac:(done)) as (s & Hst & Hd & Hu & Hm).
      apply lstat_child in Hst as (_ & i & n & Hn & ->); [|by apply owned_spine_at|done]. apply s_isdir_kind in Hd.
      exists i, n. split_and!; try done. by apply (OciLoadSafe.mode_bits i).
    + rewrite app_assoc in Hq. apply app_inj_tail in Hq as [-> _]. apply Ho. by eexists.
Qed.

Lemma owned_node f p : owned f p -> exists i n, node_at f p = Some (i, n) /\ i_kind n = KDir.
Proof. intros Ho. destruct (Ho p ltac:(done)) as (i & n & Hn & Hk & _). eauto. Qed.

(** ** The mount table *)

(** The mounts of the volume's device: the volume itself, and the alias when it is bound;
    nothing is mounted below the alias. *)
Record stage_table (mounts : list entry) (b : binding) (identity : pystr) (bound : option entry) : Prop := {
  tb_base : exists base, e_path base = as_posix (b_volume b) /\ e_root base = str "/" /\ e_kind base = str "ext4" /\
    strs ["rw"; "nosuid"; "nodev"] ⊆ e_options base /\
    List.filter (fun m => e_device m =s identity) mounts ≡ₚ base :: match bound with Some m => [m] | None => [] end;
  tb_bound : forall m, bound = Some m -> e_path m = as_posix (b_alias b);
  tb_below : forall m, m ∈ mounts -> ~ (as_posix (b_alias b) ++ str "/") `prefix_of` e_path m }.

(** Two disjoint selections that together have all elements. *)
Lemma filters_cover {A} (p q : A -> bool) l : (forall x, p x = true -> q x = true -> False) ->
  (length (List.filter p l) + length (List.filter q l) = length l)%nat -> l ≡ₚ List.filter p l ++ List.filter q l.
Proof.
  intros Hd. assert (forall l, (length (List.filter p l) + length (List.filter q l) <= length l)%nat) as Hle.
  { induction l0 as [|x l0 IH]; cbn; [lia|]. specialize (Hd x). destruct (p x), (q x); cbn; try lia. }
  induction l as [|x l IH]; cbn; [done|]. specialize (Hd x). specialize (Hle l). destruct (p x), (q x); cbn; intros Hl; try lia.
  - constructor. apply IH. lia.
  - rewrite <-Permutation_middle. constructor. apply IH. lia.
Qed.

Lemma table_state_ok mounts b identity bound : as_posix (b_alias b) <> as_posix (b_volume b) ->
  table_state mounts b identity = Ok bound -> stage_table mounts b identity bound.
Proof.
  intros Hne. unfold table_state, refuse_if. set (selected := List.filter _ mounts). set (volume := List.filter (fun m => e_path m =s as_posix (b_volume b)) selected).
  set (alias := List.filter (fun m => e_path m =s as_posix (b_alias b)) selected).
  destruct volume as [|base [|]] eqn:Hv; try done. intros Ht. inv_ok. repeat (apply orb_false_iff in E as [E ?]).
  assert (In base volume) as Hb by (rewrite Hv; by left). apply filter_In in Hb as [_ Hb]. apply str_eqb_eq in Hb.
  apply negb_false_iff, str_eqb_eq in E. rename H3 into Hk, H2 into Ho, H1 into Hl, H0 into Hn, H into Hbelow.
  apply negb_false_iff in Hk, Ho, Hn. apply str_eqb_eq in Hk. apply subset_spec in Ho. apply Z.ltb_ge in Hl. apply Z.eqb_eq in Hn.
  constructor.
  - exists base. split_and!; try done. replace (match head alias with Some m => [m] | None => [] end) with alias.
    2:{ destruct alias as [|m [|]]; [done|done|]. rewrite !zlen_cons in Hl. pose proof (zlen_nonneg l). lia. }
    change (base :: alias) with ([base] ++ alias). rewrite <-Hv. unfold volume, alias. apply filters_cover.
    + intros x Hx Hy. apply str_eqb_eq in Hx, Hy. congruence.
    + fold volume alias. rewrite Hv. unfold zlen in Hn. simpl. lia.
  - intros m Hm. assert (In m alias) as Hin by (destruct alias; [done|injection Hm as ->; by left]). apply filter_In in Hin as [_ Hin].
    by apply str_eqb_eq in Hin.
  - intros m Hm. rewrite existsb_false_iff in Hbelow. specialize (Hbelow m Hm). by apply startswith_not_prefix in Hbelow.
Qed.

(** ** The state of an alias *)

(** The device of the volume: the one the UUID leads to, and not the root's. *)
Definition volume_device (f : fs) (b : binding) (dev : Z) : Prop :=
  (exists disk i n, path_leads f (str "/dev/disk/by-uuid/" ++ b_uuid b) disk /\ node_at f disk = Some (i, n) /\ i_kind n = KSpecial (BlockDevice dev)) /\
  exists i n, node_at f [] = Some (i, n) /\ i_dev n <> dev.

Definition stage_mounts (f : fs) (mounts : list entry) : Prop :=
  exists data text, content f (abs_path "/proc/self/mountinfo") data /\ utf8_decode Strict data = Ok text /\ entries_of text = Ok mounts.

(** What the alias leads to: the backing directory, or its own empty one. *)
Definition bound_state (f : fs) (b : binding) (it : Z) (target source : inode) (mounts : list entry) (found : option entry) (bound : bool) : Prop :=
  if bound then it = b_backing_inode b /\ i_dev target = i_dev source /\
    exists m, found = Some m /\ e_root m = str "/" ++ path_name (b_backing b) /\ e_kind m = str "ext4" /\ strs ["rw"; "nosuid"; "nodev"] ⊆ e_options m
  else it = b_underlay_inode b /\ found = None /\ fs_listdir f (pp_comps (b_alias b)) = Ok [] /\
    forall m, m ∈ mounts -> e_path m <> as_posix (b_alias b).

(** The recorded directories are there, private to root, and the alias is bound or not. *)
Definition alias_is (f : fs) (b : binding) (bound : bool) : Prop :=
  exists iv vol source it target above mounts found,
    owned f (pp_comps (b_volume b)) /\ node_at f (pp_comps (b_volume b)) = Some (iv, vol) /\
    private_at f (pp_comps (b_backing b)) (b_backing_inode b) source /\ i_dev source = i_dev vol /\
    private_at f (pp_comps (b_alias b)) it target /\
    node_at f (pp_comps (parent (b_alias b))) = Some (b_alias_parent_inode b, above) /\
    volume_device f b (i_dev vol) /\
    stage_mounts f mounts /\ stage_table mounts b (device_text (i_dev vol)) found /\
    bound_state f b it target source mounts found bound.

(** The number a child writes is the number its parent reads. *)
Lemma be_int_step n z acc : 0 <= z -> be_int acc (Sha256.be_bytes (S n) z) = be_int (256 * acc + (z / 256 ^ Z.of_nat n) mod 256) (Sha256.be_bytes n z).
Proof.
  intros Hz. unfold Sha256.be_bytes. rewrite seq_S, rev_app_distr. cbn [rev app map be_int Nat.add]. f_equal. f_equal.
  rewrite Z.shiftr_div_pow2, Z.pow_mul_r by lia. change (2 ^ 8) with 256. set (x := z / _). pose proof (Z.mod_pos_bound x 256 ltac:(lia)).
  rewrite <-(b2z_z2b (x mod 256)) by lia. unfold z2b. by rewrite Z.mod_mod by lia.
Qed.

Lemma be_round n z acc : 0 <= z -> be_int acc (Sha256.be_bytes n z) = acc * 256 ^ Z.of_nat n + z mod 256 ^ Z.of_nat n.
Proof.
  intros Hz. revert acc; induction n as [|n IH]; intros acc; [cbn; rewrite Z.mod_1_r; lia|]. rewrite be_int_step, IH by done.
  rewrite Nat2Z.inj_succ, Z.pow_succ_r by lia. rewrite (Z.mul_comm 256 (256 ^ Z.of_nat n)), (Z.rem_mul_r z) by lia. lia.
Qed.

(** ** Changing the alias *)

(** An alias is bound or not, never both. *)
Lemma alias_is_one f b x y : alias_is f b x -> alias_is f b y -> x = y.
Proof.
  intros (iv & vol & ? & ? & ? & ? & mounts & found & _ & Hv & _ & _ & _ & _ & _ & (d & t & (fd & Ho & Hr) & Hd & Hm) & Ht & Hb)
    (iv' & vol' & ? & ? & ? & ? & mounts' & found' & _ & Hv' & _ & _ & _ & _ & _ & (d' & t' & (fd' & Ho' & Hr') & Hd' & Hm') & Ht' & Hb').
  rewrite Hv in Hv'. injection Hv' as <- <-. rewrite Ho in Ho'. injection Ho' as <-. rewrite Hr in Hr'. injection Hr' as <-.
  rewrite Hd in Hd'. injection Hd' as <-. rewrite Hm in Hm'. injection Hm' as <-.
  destruct (tb_base _ _ _ _ Ht) as (e & _ & _ & _ & _ & Hp). destruct (tb_base _ _ _ _ Ht') as (e' & _ & _ & _ & _ & Hp').
  rewrite Hp in Hp'. apply Permutation_length in Hp'. destruct x, y; try done.
  - destruct Hb as (_ & _ & m & -> & _), Hb' as (_ & -> & _). done.
  - destruct Hb' as (_ & _ & m & -> & _), Hb as (_ & -> & _). done.
Qed.

(** ** Capturing a record *)

(** The record of a capture, by its fields. *)
Definition captured (boot volume uuid backing alias : pystr) (source underlay above : Z) : pyval :=
  VDict [(str "version", VInt 1); (str "capture_boot", VStr boot); (str "volume", VStr volume);
    (str "uuid", VStr uuid); (str "backing", VStr backing); (str "alias", VStr alias); (str "backing_inode", VInt source);
    (str "underlay_inode", VInt underlay); (str "alias_parent_inode", VInt above)].

Lemma captured_sorted boot volume uuid backing alias source underlay above :
  validate_record (canon spaced (captured boot volume uuid backing alias source underlay above)) = validate_record (captured boot volume uuid backing alias source underlay above).
Proof. reflexivity. Qed.

Lemma uuid_text s : fullmatch StageBinding.UUID s = true -> Forall (fun c => is_lower_hex c = true \/ c = 45) s.
Proof. intros Hm. eapply fullmatch_chars; [|exact Hm]. cbn. repeat split; auto; intros c Hc; apply Z.eqb_eq in Hc; auto. Qed.

Lemma uuid_text_ok s : fullmatch StageBinding.UUID s = true -> text_ok s = true.
Proof.
  intros Hm. apply ascii_text_ok. eapply list.Forall_impl; [by apply uuid_text|]. intros c [Hc| ->]; [|lia]. unfold is_lower_hex, in_range in Hc. lia.
Qed.

Lemma matching_text d k s v : get d (str k) = VStr s -> matching d k = Ok v -> fullmatch StageBinding.UUID s = true.
Proof. unfold matching. intros ->. unfold refuse_if. intros Hm. inv_ok. by apply negb_false_iff in E. Qed.

Lemma captured_binding boot volume uuid backing alias source underlay above b :
  validate_record (captured boot volume uuid backing alias source underlay above) = Ok b -> b_alias b = pure_path alias /\ b_underlay_inode b = underlay.
Proof.
  unfold validate_record, captured. intros Hv. inv_ok. cbn [b_alias b_underlay_inode]. change (get _ (str "alias")) with (VStr alias) in E8. apply canonical_ok in E8 as (_ & s & [= <-] & ->).
  unfold positive in E2. change (get _ (str "underlay_inode")) with (VInt underlay) in E2. unfold refuse_if in E2. by inv_ok.
Qed.

(** A valid record is read back from the file it is written to. *)
Lemma captured_reads boot volume uuid backing alias source underlay above b : Forall (fun s => text_ok s = true) [volume; backing; alias] ->
  Forall (fun i => 0 <= i < 2 ^ 64) [source; underlay; above] -> validate_record (captured boot volume uuid backing alias source underlay above) = Ok b ->
  exists value, loads_bytes unique float_constant (record_bytes (captured boot volume uuid backing alias source underlay above)) = Ok value /\ validate_record value = Ok b.
Proof.
  intros Ht Hi Hv. eexists. split; [|rewrite captured_sorted; exact Hv]. apply loads_bytes_dumps; [done| | |done].
  { intros d Hd. by apply strict_pairs_ok; [constructor|]. }
  unfold validate_record, captured in Hv. inv_ok. apply (matching_text _ _ boot) in E4; [|reflexivity]. apply (matching_text _ _ uuid) in E5; [|reflexivity].
  apply uuid_text_ok in E4, E5. apply Forall_cons_iff in Ht as [H1 [H2 [H3 _]%Forall_cons_iff]%Forall_cons_iff].
  apply (list.Forall_impl _ (fun i => jsonable (VInt i) = true)) in Hi; [|intros i Hi'; apply int_jsonable; lia].
  apply Forall_cons_iff in Hi as [I1 [I2 [I3 _]%Forall_cons_iff]%Forall_cons_iff]. unfold captured.
  set (one := VInt 1). assert (jsonable one = true) as Hone by reflexivity. cbn [jsonable forallb fst snd andb]. 
  rewrite E4, E5, H1, H2, H3. change (bool_decide (NoDup _)) with true.
  cbn [jsonable] in I1, I2, I3. by rewrite I1, I2, I3, Hone.
Qed.

Section observe.
Context `{machine} `{mount_ops} (Hquiet : quiet) (f : fs).

Lemma obs_refuse b : observes f (lift (refuse_if b)) (fun _ => b = false).
Proof. apply obs_raise_if. Qed.

Lemma obs_directory_text p (private : bool) : pure_path (as_posix p) = p -> observes f (directory p private) (fun s => abs_ok p /\ owned f (pp_comps p) /\
  exists i n, node_at f (pp_comps p) = Some (i, n) /\ s = stat_of i n /\ (private = true -> Z.land (i_perm n) 0xFFF = 0x1C0)).
Proof.
  intros Ht. unfold directory. eapply obs_bind; [apply obs_lift|]. intros p' (Hp & s & [= <-] & Hp')%canonical_ok. rewrite Ht in Hp'. subst p'.
  eapply (obs_bind f _ (fun _ => owned f (pp_comps p))).
  { eapply obs_conseq; [apply (obs_for_each f (fun don _ => forall q, q ∈ don -> exists s, fs_stat false f q = Ok s /\
      s_isdir (st_mode s) = true /\ st_uid s = 0 /\ Z.land (st_mode s) 0x12 = 0)); [by intros q ?%list.not_elem_of_nil|]|].
    - intros don q rest u _ Hd. unfold owned_step. eapply obs_bind; [by apply obs_query|]. intros info Hi. eapply obs_conseq; [apply obs_refuse|].
      intros ? Hc q' Hin. apply elem_of_app in Hin as [Hq|Hq]; [by apply Hd|]. apply list_elem_of_singleton in Hq as ->. exists info. apply orb_false_iff in Hc as [Hc Hm].
      apply orb_false_iff in Hc as [Hdir Hu]. apply negb_false_iff in Hdir, Hu, Hm. apply Z.eqb_eq in Hu, Hm. done.
    - intros ? Hall. apply owned_intro; [apply Hp|]. intros q Hq. by apply Hall, elem_ancestors. }
  intros ? Ho. destruct (owned_spine_at f (pp_comps p) ltac:(apply Hp) Ho) as [Hs _].
  eapply (obs_bind f _ (fun _ => private = true -> forall i n, node_at f (pp_comps p) = Some (i, n) -> Z.land (i_perm n) 0xFFF = 0x1C0)).
  { destruct private; [|by apply obs_ret]. eapply obs_bind; [by apply obs_query|]. intros info (i & n & Hn & ->)%spine_stat_follow; [|done].
    eapply obs_conseq; [apply obs_refuse|]. intros ? Hm _ j m Hj. rewrite Hn in Hj. injection Hj as <- <-.
    by apply negb_false_iff, Z.eqb_eq in Hm as <-; rewrite s_imode_perm. }
  intros ? Hpr. eapply obs_conseq; [by apply obs_query|]. intros info (i & n & Hn & ->)%spine_stat_follow; [|done]. split_and!; [done..|].
  exists i, n. split_and!; [done|done|]. intros Hv. by apply (Hpr Hv i).
Qed.

Lemma obs_directory_at p (private : bool) : abs_ok p -> observes f (directory p private) (fun s => owned f (pp_comps p) /\
  exists i n, node_at f (pp_comps p) = Some (i, n) /\ s = stat_of i n /\ (private = true -> Z.land (i_perm n) 0xFFF = 0x1C0)).
Proof. intros Hp. eapply obs_conseq; [by apply obs_directory_text, abs_ok_text|]. by intros s [_ ?]. Qed.

Lemma obs_stage_entries : observes f entries (stage_mounts f).
Proof.
  eapply obs_bind; [by apply obs_read_utf8|]. intros text (data & Hc & Hd). eapply obs_conseq; [apply obs_lift|]. intros mounts Hm.
  by exists data, text.
Qed.

Lemma obs_check_device b vol : binding_ok b -> observes f (check_device b vol) (fun _ => volume_device f b (st_dev vol)).
Proof.
  intros Hb. unfold check_device. eapply obs_bind; [apply obs_directory_at|].
  { split_and!; [by left| |]; cbn [parent pp_comps]; rewrite removelast_last; repeat constructor; try done; by apply has_char_not_elem. }
  intros ? _. eapply obs_bind; [by apply obs_query|]. intros info _. eapply obs_bind; [apply obs_refuse|]. intros ? _.
  eapply obs_bind; [apply obs_resolve_strict; [done|apply spine_root]|]. intros disk [Hl Hs].
  eapply obs_bind; [by apply obs_query|]. intros dev (i & n & Hn & ->)%spine_stat_follow; [|done]. eapply obs_bind; [apply obs_refuse|]. intros ? Hc.
  apply orb_false_iff in Hc as [Hblk Hdev]. apply negb_false_iff in Hblk, Hdev. apply s_isblk_kind in Hblk as [rdev Hk].
  apply Z.eqb_eq in Hdev. unfold stat_of in Hdev. cbn [st_rdev] in Hdev. rewrite Hk in Hdev. cbn [rdev_of] in Hdev. subst rdev.
  eapply obs_bind; [by apply obs_query|]. intros root (j & r & Hr & ->)%spine_stat_follow; [|apply spine_root].
  eapply obs_conseq; [apply obs_refuse|]. intros ? Hne. apply Z.eqb_neq in Hne. split; [|exists j, r; split; [done|intros Heq; by apply Hne]].
  exists disk, i, n. split_and!; [|done|done]. unfold path_leads.
  replace (str "/dev/disk/by-uuid/" ++ b_uuid b) with (as_posix (PPath (str "/") (abs_path "/dev/disk/by-uuid" ++ [b_uuid b]))) by reflexivity.
  unfold base in Hl. by destruct (startswith _ _).
Qed.

Lemma obs_above a : abs_ok a -> owned f (pp_comps a) -> observes f (stat (pp_comps (parent a))) (fun s => exists i n,
  node_at f (pp_comps (parent a)) = Some (i, n) /\ s = stat_of i n).
Proof.
  intros Ha Ho. eapply obs_conseq; [by apply obs_query|]. intros s. apply spine_stat_follow, owned_spine_at; [apply abs_ok_parent, Ha|].
  intros q Hq. apply Ho. etrans; [exact Hq|]. unfold parent. cbn [pp_comps]. destruct (pp_comps a) as [|c l _] using rev_ind; [done|].
  rewrite removelast_last. by eexists.
Qed.

Lemma obs_topology value : observes f (topology value) (fun bound => exists b, validate_record value = Ok b /\ alias_is f b bound).
Proof.
  unfold topology. eapply obs_bind; [apply obs_lift|]. intros b Hv. pose proof (record_binding _ _ Hv) as Hb.
  eapply obs_bind; [apply obs_directory_at, Hb|]. intros vol (Hvo & iv & nv & Hnv & -> & _).
  eapply obs_bind; [apply obs_directory_at, Hb|]. intros source (Hso & isrc & ns & Hns & -> & Hsp). specialize (Hsp eq_refl).
  eapply obs_bind; [apply obs_directory_at, Hb|]. intros target (Hto & it & nt & Hnt & -> & Htp). specialize (Htp eq_refl).
  eapply obs_bind; [by apply obs_above; [apply Hb|]|]. intros above (ip & np & Hnp & ->).
  eapply obs_bind; [apply obs_refuse|]. intros ? Hids. apply orb_false_iff in Hids as [Hids Hdev]. apply orb_false_iff in Hids as [Hip His].
  apply negb_false_iff, Z.eqb_eq in Hip, His, Hdev. cbn [st_ino st_dev stat_of] in Hip, His, Hdev. subst ip isrc.
  eapply obs_bind; [by apply obs_check_device|]. intros ? Hvd. eapply obs_bind; [apply obs_stage_entries|]. intros mounts Hmounts.
  eapply obs_bind; [apply obs_lift|]. intros found Hf. apply table_state_ok in Hf.
  2:{ intros E. apply (f_equal pure_path) in E. rewrite !abs_ok_text in E by apply Hb. by apply (bo_apart _ Hb) in E. }
  assert (forall bound, bound_state f b it nt ns mounts found bound -> alias_is f b bound) as Hgo.
  { intros bound Hx. exists iv, nv, ns, it, nt, np, mounts, found. split_and!; try done. }
  destruct found as [m|].
  - eapply obs_bind; [apply obs_refuse|]. intros ? Hc. apply obs_ret. exists b. split; [done|]. apply Hgo.
    apply orb_false_iff in Hc as [Hc Ho]. apply orb_false_iff in Hc as [Hc Hk]. apply orb_false_iff in Hc as [Hid Hr].
    apply negb_false_iff in Hid, Hr, Hk, Ho. apply bool_decide_eq_true in Hid. injection Hid as Hd Hi. apply str_eqb_eq in Hr, Hk. apply subset_spec in Ho.
    split_and!; [done|done|]. by exists m.
  - eapply obs_bind; [apply obs_refuse|]. intros ? Hu. apply negb_false_iff, Z.eqb_eq in Hu. eapply obs_bind; [by apply obs_query|]. intros children Hch.
    eapply obs_bind; [apply obs_refuse|]. intros ? Hc. apply orb_false_iff in Hc as [Hch' Hp]. apply negb_false_iff, bool_decide_eq_true in Hch' as ->.
    apply obs_ret. exists b. split; [done|]. apply Hgo. split_and!; [done|done|done|]. intros m Hm. rewrite existsb_false_iff in Hp.
    specialize (Hp m Hm). by apply str_eqb_neq in Hp.
Qed.
End observe.

Section changing.
Context `{machine} `{mount_ops} (Hquiet : quiet) (f : fs).

(** Beneath the alias: a child detaches it in a namespace of its own. *)
Definition beneath (g : fs) (b : binding) : Prop :=
  (exists n, private_at g (pp_comps (b_alias b)) (b_underlay_inode b) n) /\ fs_listdir g (pp_comps (b_alias b)) = Ok [].

(** *** The child's namespace

    What a child's step guarantees: it keeps the parent's view whatever happens. *)
Definition ctriple {A} (P : child_state -> Prop) (m : C A) (Q : A -> child_state -> Prop) : Prop :=
  forall s, P s -> match m s with (Ok a, s') => Q a s' | (Err _, s') => w_fs (c_parent s') = f end.

(** In a namespace of its own, with this view, and the parent's as it was. *)
Definition apart (private : bool) (view : fs) (s : child_state) : Prop :=
  c_ns s = Own private view /\ w_fs (c_parent s) = f.

Lemma ctriple_bind {A B} P (m : C A) (R : A -> child_state -> Prop) (k : A -> C B) Q :
  ctriple P m R -> (forall a, ctriple (R a) (k a) Q) -> ctriple P (cbind m k) Q.
Proof. intros Hm Hk s Hs. unfold cbind. specialize (Hm s Hs). destruct (m s) as [[a|e] s']; [by apply Hk|done]. Qed.

Lemma meanwhile_quiet n c g : meanwhile n c g = g.
Proof. revert c; induction n as [|n IH]; intros c; simpl; [done|]. by rewrite Hquiet, IH. Qed.

Lemma in_view_apart {A} private view (m : M A) (Q : A -> fs -> Prop) :
  triple (fun x => x = view) m Q (fun _ => True) ->
  ctriple (apart private view) (in_view m) (fun a s => exists view', apart private view' s /\ Q a view').
Proof.
  intros Hm s [Hns Hp]. unfold in_view. rewrite Hns. specialize (Hm (World view (w_clock (c_parent s))) eq_refl).
  destruct (m _) as [[a|e] w]; cbn [c_parent w_fs]; rewrite meanwhile_quiet; [|done]. exists (w_fs w). by split.
Qed.

Lemma unshare_apart w : w_fs w = f -> ctriple (fun s => s = ChildState w Shared) unshare (fun _ => apart false f).
Proof.
  intros Hw s ->. unfold unshare, cbind, in_view. cbn [c_ns c_parent].
  assert (triple (fun x => x = f) (query (fun _ => Ok tt)) (fun _ x => x = f) (fun x => x = f)) as Hq by (by apply triple_query).
  specialize (Hq w Hw). destruct (query _ w) as [[u|e] w']; [|done]. cbn [c_ns c_parent]. by rewrite Hq.
Qed.

Lemma make_private_apart private view : ctriple (apart private view) make_private (fun _ => apart true view).
Proof.
  intros s Hs. pose proof Hs as [Hns _]. unfold make_private. rewrite Hns.
  pose proof (in_view_apart private view (query (fun _ => Ok tt)) (fun _ x => x = view)) as Hv.
  specialize (Hv ltac:(by apply triple_query) s Hs). unfold cbind. destruct (in_view _ s) as [[u|e] s']; [|done].
  destruct Hv as (view' & [Hns' Hp] & ->). split; [by rewrite Hns'|done].
Qed.

Lemma umount2_apart view p : ctriple (apart true view) (umount2 p) (fun _ s => exists g, apart true g s /\ detach view p = Ok g).
Proof.
  intros s Hs. pose proof Hs as [Hns _]. unfold umount2. rewrite Hns.
  pose proof (in_view_apart true view (Sys.change (fun f => detach f p)) (fun _ g => detach view p = Ok g)) as Hv.
  specialize (Hv ltac:(apply triple_change; [done..|by intros ? g ->]) s Hs). unfold cbind. by destruct (in_view _ s) as [[u|e] s'].
Qed.

Lemma obs_forget {A} g (m : M A) (phi : A -> Prop) : observes g m phi -> triple (fun x => x = g) m (fun a _ => phi a) (fun _ => True).
Proof. intros Ho. eapply triple_conseq; [apply Ho|done|naive_solver|done]. Qed.

(** What a child that answers has seen beneath the alias. *)
Definition seen_beneath (alias : ppath) (i : Z) : Prop := exists g n,
  detach f (pp_comps alias) = Ok g /\ private_at g (pp_comps alias) i n /\ fs_listdir g (pp_comps alias) = Ok [] /\ 0 <= i < 2 ^ 64.

Lemma obs_inspect_beneath g alias : abs_ok alias -> observes g (inspect_beneath alias) (fun data => exists n,
  private_at g (pp_comps alias) (be_int 0 data) n /\ fs_listdir g (pp_comps alias) = Ok [] /\ 0 <= be_int 0 data < 2 ^ 64).
Proof.
  intros Ha. unfold inspect_beneath. eapply obs_bind; [by apply obs_directory_at|]. intros info (Ho & i & n & Hn & -> & Hp). specialize (Hp eq_refl).
  eapply obs_bind; [by apply obs_query|]. intros children Hc. eapply obs_bind; [apply obs_raise_if|]. intros ? Hb.
  apply negb_false_iff, bool_decide_eq_true in Hb as ->. eapply obs_bind; [apply obs_raise_if|]. intros ? Hr.
  apply negb_false_iff, andb_true_iff in Hr as [H1 H2]. cbn [st_ino stat_of] in *. apply obs_ret. exists n. rewrite be_round by lia.
  change (256 ^ Z.of_nat 8) with (2 ^ 64). rewrite Z.mod_small by lia. split_and!; done || lia.
Qed.

Lemma child_apart alias w : abs_ok alias -> w_fs w = f ->
  ctriple (fun s => s = ChildState w Shared) (child alias) (fun data s => w_fs (c_parent s) = f /\ seen_beneath alias (be_int 0 data)).
Proof.
  intros Ha Hw. unfold child. eapply ctriple_bind; [by apply unshare_apart|]. intros ?.
  eapply ctriple_bind; [apply make_private_apart|]. intros ?. eapply ctriple_bind; [apply umount2_apart|].
  intros ? s (g & Hs & Hd). pose proof (in_view_apart true g _ _ (obs_forget g _ _ (obs_inspect_beneath g alias Ha)) s Hs) as Hi.
  destruct (in_view _ s) as [[data|e] s']; [|done]. destruct Hi as (view & [_ Hp] & n & Hn & Hl & Hr). split; [done|]. by exists g, n.
Qed.

Lemma obs_fork_child alias : abs_ok alias ->
  observes f (fork_child (child alias)) (fun answer => forall data, answer = Some data -> seen_beneath alias (be_int 0 data)).
Proof.
  intros Ha w Hw. unfold fork_child. pose proof (child_apart alias w Ha Hw _ eq_refl) as Hc.
  destruct (child alias _) as [[data|e] s]; [|by split]. destruct Hc as [Hp Hd]. split; [done|]. by intros ? [= <-].
Qed.

Lemma obs_underlay alias : abs_ok alias -> observes f (underlay_inode alias) (seen_beneath alias).
Proof.
  intros Ha. unfold underlay_inode. eapply obs_bind; [by apply obs_query|]. intros ? _. eapply obs_bind; [by apply obs_fork_child|].
  intros answer Hans. eapply (obs_bind f _ (fun _ => True)); [eapply obs_bind; [by apply obs_query|]; by intros ? _ w Hw|]. intros timeout _.
  eapply (obs_bind f _ (fun status => forall data, status = Some data -> answer = Some data)).
  { eapply obs_bind; [by apply obs_query|]. intros ? _. apply obs_ret. by destruct timeout. }
  intros [data|] Hs; [|apply obs_raise]. apply obs_ret. apply Hans, Hs. done.
Qed.

(** A record is captured only of an alias whose state it describes; of a bound one, what is
    beneath it was seen; and the file of the record reads back as it. *)
Lemma obs_capture volume uuid backing alias : (forall i n, nodes f !! i = Some n -> 0 <= i < 2 ^ 64) ->
  Forall (fun s => text_ok s = true) [volume; backing; alias] ->
  observes f (capture volume uuid backing alias) (fun value => exists b bound, validate_record value = Ok b /\ alias_is f b bound /\
    (bound = true -> exists g, detach f (pp_comps (b_alias b)) = Ok g /\ beneath g b) /\
    exists again, loads_bytes unique float_constant (record_bytes value) = Ok again /\ validate_record again = Ok b).
Proof.
  intros Hino Htext. unfold capture. eapply obs_bind; [apply obs_lift|]. intros pv [-> Hv]%canonical_text.
  eapply obs_bind; [apply obs_lift|]. intros pb Hcb. pose proof (canonical_ok _ _ Hcb) as [Hpb _]. apply canonical_text in Hcb as [-> Hb].
  eapply obs_bind; [apply obs_lift|]. intros pa Hca. pose proof (canonical_ok _ _ Hca) as [Hpa _]. apply canonical_text in Hca as [-> Ha].
  eapply obs_bind; [by apply obs_directory_at|]. intros source (_ & isrc & ns & Hs & -> & _).
  eapply obs_bind; [by apply obs_directory_at|]. intros current (Hto & ic & nc & Hc & -> & _).
  eapply obs_bind; [by apply obs_read_utf8|]. intros boot _.
  eapply obs_bind; [by apply obs_above|]. intros above (ia & na & Hia & ->).
  apply node_at_nodes in Hs as [_ Hs], Hc as [_ Hc], Hia as [_ Hia]. cbn [st_ino stat_of]. unfold text_value. rewrite Hv, Hb, Ha.
  assert (forall underlay, VDict _ = captured (strip boot) volume uuid backing alias isrc underlay ia) as Hcap by reflexivity.
  rewrite (Hcap ic). set (mounted := bool_decide _). eapply obs_bind; [by apply obs_topology|]. intros bound (b & Hvb & Hal). eapply obs_bind; [apply obs_refuse|]. intros ? Heq.
  apply negb_false_iff, eqb_prop in Heq as ->. destruct mounted.
  - eapply obs_bind; [by apply obs_underlay|]. intros u (g & n & Hg & Hn & Hl & Hu). rewrite (Hcap u). clear Hvb Hal b.
    eapply obs_bind; [by apply obs_topology|]. intros bound (b & Hvb & Hal). eapply obs_bind; [apply obs_refuse|]. intros ? Hbd. apply negb_false_iff in Hbd as ->.
    apply obs_ret. exists b, true. pose proof (captured_binding _ _ _ _ _ _ _ _ _ Hvb) as [Hba Hbu]. split_and!; [done|done| |].
    + intros _. exists g. unfold beneath. rewrite Hba, Hbu. split; [done|]. split; [by exists n|done].
    + eapply captured_reads; [done| |done]. repeat constructor; try lia; by eapply Hino.
  - apply obs_ret. exists b, false. split_and!; [done|done|done|]. eapply captured_reads; [done| |done]. repeat constructor; by eapply Hino.
Qed.

(** The mount the program asks for, and what it saw when it asked. *)
Definition mounted_as (b : binding) (restore : bool) (f' : fs) : Prop :=
  if restore then bind_mount f (b_backing_inode b) (b_underlay_inode b) = Ok f' /\
    (exists own init, fs_readlink f (abs_path "/proc/self/ns/mnt") = Ok own /\ fs_readlink f (abs_path "/proc/1/ns/mnt") = Ok init /\ own <> init) /\
    (exists mounts, stage_mounts f mounts /\ forall m, m ∈ mounts -> e_propagating m = false)
  else detach f (pp_comps (b_alias b)) = Ok f' /\ beneath f' b.

Lemma obs_private : observes f require_private_namespace (fun _ =>
  (exists own init, fs_readlink f (abs_path "/proc/self/ns/mnt") = Ok own /\ fs_readlink f (abs_path "/proc/1/ns/mnt") = Ok init /\ own <> init) /\
  (exists mounts, stage_mounts f mounts /\ forall m, m ∈ mounts -> e_propagating m = false)).
Proof.
  unfold require_private_namespace. eapply obs_bind; [by apply obs_query|]. intros own Ho. eapply obs_bind; [by apply obs_query|]. intros init Hi.
  eapply obs_bind; [apply obs_refuse|]. intros ? Hne. apply str_eqb_neq in Hne. eapply obs_bind; [by apply obs_stage_entries|]. intros mounts Hm.
  eapply obs_conseq; [apply obs_refuse|]. intros ? Hp. split; [by exists own, init|]. exists mounts. split; [done|]. by apply existsb_false_iff.
Qed.

Lemma open_owned p fd i n : plain_path p -> owned f p -> node_at f p = Some (i, n) -> fs_open true true f p = Ok fd -> fd = i.
Proof.
  intros Hp Ho Hn. apply (open_nofollow true f p i n). exists p. split; [|done]. by apply spine_resolve, owned_spine_at.
Qed.

(** Before the mount nothing has changed; after it, only it. *)
Definition once (b : binding) (restore : bool) (x : fs) : Prop := x = f \/ mounted_as b restore x.

Lemma observe_bind {A B} (m : M A) (phi : A -> Prop) (k : A -> M B) Q (E : fs -> Prop) : observes f m phi -> E f ->
  (forall a, phi a -> triple (fun x => x = f) (k a) Q E) -> triple (fun x => x = f) (mbind m k) Q E.
Proof.
  intros Hm He Hk. eapply (triple_bind _ _ (fun a x => x = f /\ phi a)); [eapply triple_conseq; [apply Hm|done|done|by intros x ->]|].
  intros a w [Hw Ha]. by apply Hk.
Qed.

Lemma triple_closes (P E : fs -> Prop) a c : (forall x, P x -> E x) -> triple P (close a ;;; close c) (fun _ => P) E.
Proof. intros He. eapply triple_bind; [by apply triple_query; [done|exact He|intros x u Hx _; exact Hx]|]. intros ?. by apply triple_query. Qed.

Ltac observe t := eapply observe_bind; [t|by left|].

Lemma rebind_triple b : binding_ok b -> alias_is f b false -> triple (fun x => x = f) (rebind b) (fun _ => mounted_as b true) (once b true).
Proof.
  intros Hb (iv & vol & ns & it & nt & above & mounts & found & Hvo & Hnv & (Hso & Hns & _) & _ & (Hto & Hnt & _) & _ & _ & _ & _ & (-> & _)).
  unfold rebind. observe ltac:(by apply obs_private). intros ? Hpriv. observe ltac:(by apply obs_query). intros source Hs.
  apply (open_owned _ _ _ _ (proj2 (proj2 (bo_backing _ Hb))) Hso Hns) in Hs as ->. observe ltac:(by apply obs_query). intros target Ht.
  apply (open_owned _ _ _ _ (proj2 (proj2 (bo_alias _ Hb))) Hto Hnt) in Ht as ->.
  eapply (triple_finally _ _ _ (fun _ => mounted_as b true) _ (once b true)).
  2,3: intros; apply triple_closes; [intros x Hx; first [exact Hx|by right]].
  observe ltac:(by apply obs_query). intros source_info _. observe ltac:(by apply obs_query). intros target_info _.
  observe ltac:(apply obs_refuse). intros ? _. observe ltac:(by apply obs_query). intros info _. observe ltac:(apply obs_refuse). intros ? _.
  observe ltac:(by apply obs_query). intros up _. observe ltac:(apply obs_refuse). intros ? _.
  apply triple_change; [done|by left|]. intros ? f' -> Hm. split; [|done]. by destruct (bind_mount f _ _) as [g|].
Qed.

Lemma release_triple value b : validate_record value = Ok b -> binding_ok b -> triple (fun x => x = f) (release value b)
  (fun _ => mounted_as b false) (once b false).
Proof.
  intros Hv Hb. unfold release. observe ltac:(by apply obs_underlay, Hb). intros i (g & n & Hg & Hn & Hl & _). observe ltac:(apply obs_refuse). intros ? Hi.
  apply negb_false_iff, Z.eqb_eq in Hi as ->. observe ltac:(by apply obs_topology). intros bound _. observe ltac:(apply obs_refuse). intros ? _.
  apply triple_change; [done|by left|]. intros ? f' -> Hm. rewrite Hg in Hm. injection Hm as <-. split; [done|]. split; [by exists n|done].
Qed.

(** A change: one mount or none, and the alias is as requested. *)
Definition changed_to (value : pyval) (restore changed : bool) (x : fs) : Prop :=
  exists b, validate_record value = Ok b /\ alias_is x b restore /\
    if changed then alias_is f b (negb restore) /\ mounted_as b restore x else x = f.

(** Where it stops: nothing, or the one mount. *)
Definition stopped (value : pyval) (restore : bool) (x : fs) : Prop :=
  x = f \/ exists b, validate_record value = Ok b /\ alias_is f b (negb restore) /\ mounted_as b restore x.

Lemma change_triple value restore : triple (fun x => x = f) (change value restore) (changed_to value restore) (stopped value restore).
Proof.
  unfold change. observe ltac:(by apply obs_topology). intros bound (b & Hv & Ha). pose proof (record_binding _ _ Hv) as Hb.
  destruct (Bool.eqb bound restore) eqn:E; [apply eqb_prop in E as ->; apply triple_ret; intros x ->; by exists b|].
  apply eqb_false_iff in E. assert (bound = negb restore) as -> by (by destruct bound, restore).
  observe ltac:(apply obs_lift). intros b' Hb'. rewrite Hv in Hb'. injection Hb' as <-.
  assert (forall x, once b restore x -> stopped value restore x) as Ho by (intros x [->|Hx]; [by left|right; by exists b]).
  eapply (triple_bind _ _ (fun _ => mounted_as b restore)).
  { destruct restore; [eapply triple_conseq; [by apply rebind_triple|done|done|exact Ho]|eapply triple_conseq; [by apply release_triple|done|done|exact Ho]]. }
  intros ?. apply triple_pre. intros g Hg. assert (stopped value restore g) as Hs by (apply Ho; by right).
  eapply triple_bind; [eapply triple_conseq; [apply (obs_topology Hquiet g)|done|intros ? x Hx; exact Hx|by intros x ->]|].
  intros bound w [Hw (b' & Hv' & Ha')]. rewrite Hv in Hv'. injection Hv' as <-. unfold mbind, lift, refuse_if, raise_if. subst g.
  destruct (negb (Bool.eqb bound restore)) eqn:E2; [exact Hs|]. apply negb_false_iff, eqb_prop in E2 as ->. by exists b.
Qed.

(** ** The record *)

(** A private file of root, in a private directory, with the approved digest. *)
Definition record_file (p : ppath) (sha : pystr) (data : bytes) : Prop :=
  (exists i n, private_at f (pp_comps (parent p)) i n) /\
  (exists fd n, fs_open true false f (pp_comps p) = Ok fd /\ nodes f !! fd = Some n /\ i_kind n = KFile data /\ i_uid n = 0 /\ Z.land (i_perm n) 0xFFF = 0x180) /\
  0 < zlen data <= 16384 /\ sha256 data = sha.

Lemma forall_init {A} (P : A -> Prop) l : Forall P l -> Forall P (removelast l).
Proof. intros Hl. destruct l as [|x l _] using rev_ind; [done|]. rewrite removelast_last. by apply Forall_app in Hl as [? _]. Qed.

Lemma posix_path root cs : root = [] \/ root = str "/" \/ root = str "//" -> Forall (fun c => c <> [] /\ c <> str "." /\ SLASH ∉ c) cs ->
  startswith (as_posix (PPath root cs)) (str "/") = true -> pure_path (as_posix (PPath root cs)) = PPath root cs.
Proof.
  intros [->|Hr] Hc Hs.
  - exfalso. destruct cs as [|c cs]; [done|]. apply Forall_cons_iff in Hc as [(Hne & _ & Hc) _]. apply startswith_prefix in Hs as [r Hs]. unfold as_posix in Hs.
    cbn [pp_root pp_comps app] in Hs. destruct c as [|x c]; [done|]. assert (exists t, join_with SLASH ((x :: c) :: cs) = x :: t) as [t E] by (destruct cs; cbn; eauto).
    rewrite E in Hs. injection Hs as -> _. apply Hc. constructor.
  - transitivity (pure_path (root ++ join_with SLASH cs)); [|by apply pure_path_join]. f_equal. unfold as_posix. by destruct Hr as [-> | ->].
Qed.

Lemma splitroot_cases s : (splitroot s).1 = [] \/ (splitroot s).1 = str "/" \/ (splitroot s).1 = str "//".
Proof.
  unfold splitroot. destruct s as [|a s]; [by left|]. destruct (a =? SLASH); [|by left]. destruct s as [|c s]; [by right; left|].
  destruct (c =? SLASH); [|by right; left]. destruct s as [|d s]; [by right; right|]. destruct (d =? SLASH); [by right; left|by right; right].
Qed.

Lemma obs_record_parent text : observes f (directory (parent (pure_path text)) true) (fun _ => exists i n, private_at f (pp_comps (parent (pure_path text))) i n).
Proof.
  destruct (startswith (as_posix (parent (pure_path text))) (str "/")) eqn:Hs.
  - eapply obs_conseq; [apply obs_directory_text; [done|]|].
    + unfold parent in *. apply posix_path; [|apply forall_init, pure_path_comps|done]. unfold pure_path.
      pose proof (splitroot_cases text). by destruct (splitroot text).
    + intros info (_ & Ho & i & n & Hn & _ & Hp). exists i, n. by split_and!; [| |apply Hp].
  - unfold directory. eapply obs_bind; [apply obs_lift|]. intros p Hc. unfold canonical, refuse_if in Hc. rewrite Hs in Hc. by inv_ok.
Qed.

Lemma obs_load_record text sha : observes f (load (pure_path text) (Some sha)) (fun value => exists data b, record_file (pure_path text) sha data /\
  loads_bytes unique float_constant data = Ok value /\ validate_record value = Ok b).
Proof.
  unfold load. eapply obs_bind; [apply obs_lift|]. intros e He. assert (e = sha) as -> by (unfold refuse_if in He; by inv_ok).
  eapply obs_bind; [apply obs_record_parent|]. intros ? Hp. eapply obs_bind; [by apply obs_query|]. intros fd Ho.
  eapply (obs_bind f _ (record_file (pure_path text) sha)).
  { apply obs_finally; [|by eapply obs_any, obs_query]. eapply obs_bind; [by apply obs_query|]. intros info Hi. eapply obs_bind; [apply obs_refuse|]. intros ? Hc.
    eapply obs_bind; [by apply obs_query|]. intros content Hr. eapply obs_bind; [apply obs_refuse|]. intros ? Hl.
    eapply obs_bind; [by apply obs_query|]. intros held _. eapply obs_bind; [by apply obs_query|]. intros named _. eapply obs_bind; [apply obs_refuse|]. intros ? _.
    apply obs_ret. repeat (apply orb_false_iff in Hc as [Hc ?]). apply orb_false_iff in Hl as [Hl Hsha]. 
    apply negb_false_iff in Hl, Hsha, H1, H2, H3, H4, Hc. apply Z.eqb_eq in Hl. apply str_eqb_eq in Hsha.
    apply andb_true_iff in H1 as [Hlo Hhi]. assert (take (Z.to_nat 16385) content = content) as Ht.
    { apply take_ge. unfold zlen in Hl. rewrite length_take in Hl. lia. }
    rewrite Ht in Hl, Hsha |- *. unfold fs_fstat in Hi. destruct (nodes f !! fd) as [n|] eqn:En; [|done]. injection Hi as <-.
    apply s_isreg_kind in Hc as [d Hk]. unfold fs_read in Hr. rewrite En, Hk in Hr. injection Hr as ->.
    apply Z.eqb_eq in H2, H4. rewrite s_imode_perm in H2. split_and!; [done| |lia|lia|done]. exists fd, n. done. }
  intros data Hd. eapply obs_bind; [apply obs_lift|]. intros value Hv. eapply obs_bind; [apply obs_lift|]. intros b Hb. apply obs_ret. by exists data, b.
Qed.

(** ** The program *)

(** The record the operator approved by its digest. *)
Definition approved_record (text sha : pystr) (value : pyval) (b : binding) : Prop := exists data,
  record_file (pure_path text) sha data /\ loads_bytes unique float_constant data = Ok value /\ validate_record value = Ok b.

Definition wants (op : operation) : option bool := match op with Release => Some false | Restore => Some true | _ => None end.

(** What the program leaves when it says what it did, and otherwise. *)
Definition reported (text sha : pystr) (op : operation) (changed bound : bool) (x : fs) : Prop := exists value b,
  approved_record text sha value b /\ alias_is x b bound /\
  (match wants op with Some restore => bound = restore | None => changed = false end) /\
  if changed then alias_is f b (negb bound) /\ mounted_as b bound x else x = f.
Definition refused (text sha : pystr) (op : operation) (x : fs) : Prop := x = f \/ exists restore value b,
  wants op = Some restore /\ approved_record text sha value b /\ alias_is f b (negb restore) /\ mounted_as b restore x.

Definition outcome (text sha : pystr) (op : operation) (r : Z * option (bool * bool)) (x : fs) : Prop :=
  match r with (0, Some (changed, bound)) => reported text sha op changed bound x | _ => refused text sha op x end.

Definition report (r : pyval * bool) : M (Z * option (bool * bool)) :=
  let '(value, changed) := r in let* bound := topology value in mret (0, Some (changed, bound)).

(** What is said last is what is so. *)
Lemma last_topology text sha op value b changed g : approved_record text sha value b -> refused text sha op g ->
  (forall bound, alias_is g b bound -> reported text sha op changed bound g) ->
  triple (fun x => x = g) (report (value, changed))
    (outcome text sha op) (refused text sha op).
Proof.
  intros (data & _ & _ & Hv) Hr Hgo. eapply triple_bind; [eapply triple_conseq; [apply (obs_topology Hquiet g)|done|intros ? x Hx; exact Hx|by intros x ->]|].
  intros bound. apply triple_ret. intros x [-> (b' & Hv' & Ha)]. rewrite Hv in Hv'. injection Hv' as <-. by apply Hgo.
Qed.

Lemma changed_reported text sha op value b restore : approved_record text sha value b -> wants op = Some restore ->
  triple (fun x => x = f) (let* r := (let* changed := change value restore in mret (value, changed)) in report r)
    (outcome text sha op) (refused text sha op).
Proof.
  intros Ha Hw. assert (forall x, stopped value restore x -> refused text sha op x) as Hst.
  { intros x [->|(b' & Hv' & Hb)]; [by left|]. destruct Ha as (data & Hf & Hl & Hv). rewrite Hv in Hv'. injection Hv' as <-. right.
    exists restore, value, b. split_and!; try done. by exists data. all: apply Hb. }
  eapply (triple_bind _ _ (fun r x => r.1 = value /\ changed_to value restore r.2 x)).
  { eapply triple_bind; [eapply triple_conseq; [apply change_triple|done|intros ? x Hx; exact Hx|exact Hst]|]. intros changed. by apply triple_ret. }
  intros [value' changed]. apply triple_pre. intros g [Heq (b' & Hv' & Hg & Hc)]. cbn [fst snd] in *. subst value'. pose proof Ha as (data & _ & _ & Hv).
  rewrite Hv in Hv'. injection Hv' as <-. apply (last_topology text sha op value b changed g Ha).
  - destruct changed; [right|by left]. by exists restore, value, b.
  - intros bound Hb. rewrite (alias_is_one g b bound restore Hb Hg). exists value, b. split_and!; try done. by rewrite Hw.
Qed.

Lemma stage_main_triple text sha op : triple (fun x => x = f) (main (pure_path text) (Some sha) op) (outcome text sha op) (refused text sha op).
Proof.
  unfold main. eapply triple_catch with (E' := refused text sha op).
  2:{ intros e. destruct (bool_decide _); [by apply triple_reraise|by apply triple_ret]. }
  observe ltac:(apply obs_raise_if). intros ? _.
  assert (forall (k : pyval -> M (pyval * bool)), (forall value b, approved_record text sha value b ->
      triple (fun x => x = f) (let* r := k value in report r) (outcome text sha op) (refused text sha op)) ->
    triple (fun x => x = f) (let* r := (let* value := load (pure_path text) (Some sha) in k value) in report r) (outcome text sha op) (refused text sha op)) as Hload.
  { intros k Hk w Hw. pose proof (obs_load_record text sha w Hw) as Hl. unfold mbind at 1 2.
    destruct (load _ _ w) as [[value|e] w']; [|by left]. destruct Hl as [Hf (data & b & Hr & Hv & Hb)]. apply (Hk value b); [by exists data|done]. }
  destruct op.
  - by apply triple_raise; left.
  - apply Hload. intros value b Ha. apply (last_topology text sha Check value b false f Ha); [by left|]. intros bound Hb. by exists value, b.
  - apply Hload. intros value b Ha. by apply (changed_reported text sha Release value b false).
  - apply Hload. intros value b Ha. by apply (changed_reported text sha Restore value b true).
Qed.
End changing.

(** C35. With an approved record the program changes the alias by at most one mount of the
    kernel, on the recorded directories, when everything agrees with the record; what it
    reports is what is so; where it refuses, at most the requested mount was made. *)
Theorem stage_alias_changed `{machine} `{mount_ops} text sha op w : quiet ->
  match main (pure_path text) (Some sha) op w with
  | (Ok (0, Some (changed, bound)), w') => reported (w_fs w) text sha op changed bound (w_fs w')
  | (_, w') => refused (w_fs w) text sha op (w_fs w')
  end.
Proof.
  intros Hq. pose proof (stage_main_triple Hq (w_fs w) text sha op w eq_refl) as Ht. unfold outcome in Ht.
  destruct (main _ _ _ w) as [[[[] [[changed bound]|]]|e] w']; exact Ht.
Qed.

(** C30. A record is captured only of an alias whose state it describes; of a bound one, what is
    beneath the alias was seen by a child process and is what the record says; the bytes that
    are published read back as the same record; and capturing changes nothing.  The child
    detaches the alias, and that leaves the parent's mounts alone because it has left their
    namespace and made its own private first: a child that shares the namespace, or whose
    mounts pass events on, would detach the parent's alias (see [unisolated_children]).
    Inode numbers are 64-bit and the three paths are encodable text. *)
Theorem captured_record_reads `{machine} `{mount_ops} volume uuid backing alias w : quiet ->
  (forall i n, nodes (w_fs w) !! i = Some n -> 0 <= i < 2 ^ 64) -> Forall (fun s => text_ok s = true) [volume; backing; alias] ->
  match capture volume uuid backing alias w with
  | (Ok value, w') => w_fs w' = w_fs w /\ exists b bound, validate_record value = Ok b /\ alias_is (w_fs w) b bound /\
      (bound = true -> exists g, detach (w_fs w) (pp_comps (b_alias b)) = Ok g /\ beneath g b) /\
      exists again, loads_bytes unique float_constant (record_bytes value) = Ok again /\ validate_record again = Ok b
  | (Err _, w') => w_fs w' = w_fs w
  end.
Proof. intros Hq Hi Ht. exact (obs_run _ _ _ w (obs_capture Hq (w_fs w) volume uuid backing alias Hi Ht) eq_refl). Qed.

(** ** A lab machine *)

Definition lab_volume : pystr := str "/mnt/data".
Definition lab_backing : pystr := str "/mnt/data/g8-stage-a".
Definition lab_alias : pystr := str "/opt/mkruntime/g8-host-a".
Definition lab_uuid : pystr := str "00000000-0000-4000-8000-000000000000".
Definition lab_record : pyval := VDict [(str "version", VInt 1); (str "capture_boot", VStr lab_uuid); (str "volume", VStr lab_volume);
  (str "uuid", VStr lab_uuid); (str "backing", VStr lab_backing); (str "alias", VStr lab_alias); (str "backing_inode", VInt 15);
  (str "underlay_inode", VInt 16); (str "alias_parent_inode", VInt 8)].

Definition lab_table (bound : bool) : bytes := ascii_bytes (str "30 1 0:1 / / rw - tmpfs none rw" ++ [10] ++
  str "36 30 8:0 / /mnt/data rw,nosuid,nodev - ext4 /dev/sda rw" ++ [10] ++
  (if bound then str "40 30 8:0 /g8-stage-a /opt/mkruntime/g8-host-a rw,nosuid,nodev - ext4 /dev/sda rw" ++ [10] else [])).
Definition lab_node (k : kind) : inode := Inode k 0x1ED 0 0 1 1 3 3 [].
Definition lab_fs : fs :=
  let dirs := map abs_path ["/"; "/mnt"; "/dev"; "/dev/disk"; "/dev/disk/by-uuid"; "/proc"; "/opt"; "/opt/mkruntime"; "/proc/self"; "/proc/1"; "/proc/self/ns"; "/proc/1/ns"] in
  let others := [(abs_path "/lab", Inode KDir 0x1C0 0 0 1 2 3 3 []); (abs_path "/mnt/data", Inode KDir 0x1ED 0 0 0x800 2 3 3 []);
    (abs_path "/mnt/data/g8-stage-a", Inode KDir 0x1C0 0 0 0x800 2 3 3 []); (abs_path "/opt/mkruntime/g8-host-a", Inode KDir 0x1C0 0 0 1 2 3 3 []);
    (abs_path "/proc/self/mountinfo", lab_node (KFile (lab_table false))); (abs_path "/dev/sda", lab_node (KSpecial (BlockDevice 0x800)));
    (abs_path "/dev/disk/by-uuid/00000000-0000-4000-8000-000000000000", lab_node (KLink (str "/dev/sda")));
    (abs_path "/proc/self/ns/mnt", lab_node (KLink (str "mnt:[2]"))); (abs_path "/proc/1/ns/mnt", lab_node (KLink (str "mnt:[1]")));
    (abs_path "/proc/sys", lab_node KDir); (abs_path "/proc/sys/kernel", lab_node KDir); (abs_path "/proc/sys/kernel/random", lab_node KDir);
    (abs_path "/proc/sys/kernel/random/boot_id", lab_node (KFile (ascii_bytes (lab_uuid ++ [10]))));
    (abs_path "/lab/record", Inode (KFile (record_bytes lab_record)) 0x180 0 0 1 1 3 3 [])] in
  let all := map (fun p => (p, lab_node KDir)) dirs ++ others in
  FS (list_to_map (imap (fun i e => (e.1, Z.of_nat i + 1)) all)) (list_to_map (imap (fun i e => (Z.of_nat i + 1, e.2)) all)) 99 7.

(** Its kernel: the alias leads to the directory mounted there, and the table says so. *)
Definition lab_show (f : fs) (i : Z) (bound : bool) : fs :=
  FS (<[abs_path "/opt/mkruntime/g8-host-a" := i]> (names f)) (<[17 := lab_node (KFile (lab_table bound))]> (nodes f)) (fresh f) (now f).
#[local] Instance lab_mounts : mount_ops := MountOps
  (fun f s t => if t =? 16 then Ok (lab_show f s true) else EINVAL)
  (fun f p => if bool_decide (p = abs_path "/opt/mkruntime/g8-host-a") then Ok (lab_show f 16 false) else EINVAL)
  (fun f => Ok f) (fun _ _ => true) (fun _ => false).
Definition lab_start : world := World lab_fs 0.
Definition lab_main (op : operation) (w : world) : res (Z * option (bool * bool)) * world :=
  @main here lab_mounts (pure_path (str "/lab/record")) (Some (sha256 (record_bytes lab_record))) op w.
Definition says (changed bound : bool) (r : res (Z * option (bool * bool)) * world) : bool :=
  match r with (Ok (0, Some (c, b)), _) => Bool.eqb c changed && Bool.eqb b bound | _ => false end.

Lemma lab_restored : says true true (lab_main Restore lab_start) = true.
Proof. vm_cast_no_check (@eq_refl bool true). Qed.

(** Released again, and then there is nothing to release. *)
Lemma lab_released : let w := (lab_main Restore lab_start).2 in
  says true false (lab_main Release w) = true /\ says false false (lab_main Release (lab_main Release w).2) = true.
Proof. split; vm_cast_no_check (@eq_refl bool true). Qed.

Lemma stage_alias_changed_witness :
  @reported lab_mounts lab_fs (str "/lab/record") (sha256 (record_bytes lab_record)) Restore true true (w_fs (lab_main Restore lab_start).2).
Proof.
  pose proof lab_restored as Hok. change lab_fs with (w_fs lab_start). revert Hok. unfold lab_main. generalize (sha256 (record_bytes lab_record)). generalize lab_start. intros w sha Hok.
  pose proof (@stage_alias_changed here lab_mounts (str "/lab/record") sha Restore w (lone_quiet _ _)) as Ht.
  destruct (main _ _ _ w) as [[[[] [[[] []]|]]|e] w']; try discriminate Hok. exact Ht.
Defined.

(** Children of the bound alias that skip [unshare], or the private remount: each detaches the
    parent's alias. *)
Definition keeps_parent (body : C unit) (w : world) : bool :=
  let names_of w := names (w_fs w) !! abs_path "/opt/mkruntime/g8-host-a" in
  bool_decide (names_of (c_parent (body (ChildState w Shared)).2) = names_of w).

Lemma unisolated_children : let w := (lab_main Restore lab_start).2 in let p := abs_path "/opt/mkruntime/g8-host-a" in
  keeps_parent (@umount2 here lab_mounts p) w = false /\
  keeps_parent (cbind (@unshare here) (fun _ => @umount2 here lab_mounts p)) w = false /\
  keeps_parent (cbind (@unshare here) (fun _ => cbind (@make_private here lab_mounts) (fun _ => @umount2 here lab_mounts p))) w = true.
Proof. split_and!; vm_compute; reflexivity. Qed.

(** The alias that was bound is captured: the record it was bound by. *)
Definition lab_capture (w : world) : res pyval * world := @capture here lab_mounts lab_volume lab_uuid lab_backing lab_alias w.
Lemma lab_captured : (lab_capture (lab_main Restore lab_start).2).1 = Ok lab_record.
Proof. vm_cast_no_check (@eq_refl (res pyval) (Ok lab_record)). Qed.

Definition narrowb (f : fs) : bool := forallb (fun kv => (0 <=? kv.1) && (kv.1 <? 2 ^ 64)) (map_to_list (nodes f)).
Lemma narrowb_ok f : narrowb f = true -> forall i n, nodes f !! i = Some n -> 0 <= i < 2 ^ 64.
Proof. unfold narrowb. rewrite forallb_forall. intros Hb i n Hn. apply elem_of_map_to_list, list_elem_of_In in Hn. specialize (Hb _ Hn). cbn [fst] in Hb. lia. Qed.
Lemma lab_narrow : narrowb (w_fs (lab_main Restore lab_start).2) = true.
Proof. vm_cast_no_check (@eq_refl bool true). Qed.

Lemma captured_record_reads_witness : exists b bound, validate_record lab_record = Ok b /\ alias_is (w_fs (lab_main Restore lab_start).2) b bound /\
  exists again, loads_bytes unique float_constant (record_bytes lab_record) = Ok again /\ validate_record again = Ok b.
Proof.
  pose proof lab_captured as Hok. pose proof lab_narrow as Hn. revert Hok Hn. generalize (lab_main Restore lab_start).2. unfold lab_capture. intros w Hok Hn.
  assert (Forall (fun s => text_ok s = true) [lab_volume; lab_backing; lab_alias]) as Ht by (repeat constructor).
  pose proof (@captured_record_reads here lab_mounts lab_volume lab_uuid lab_backing lab_alias w (lone_quiet _ _) (narrowb_ok _ Hn) Ht) as Hc.
  destruct (capture _ _ _ _ w) as [[value|e] w']; [|discriminate Hok]. injection Hok as ->.
  destruct Hc as (_ & b & bound & Hv & Ha & _ & Hl). exists b, bound. split; [exact Hv|]. split; [exact Ha|exact Hl].
Defined.
End StageBindingSafe.
