(* ===== verification/NativeRecord.v ===== *)
(** * Hiding a process record (scripts/runtime_native_record_fault.py)

    A fault of the lab: the record of one live export process is renamed away, optionally with
    a FIFO in its place, and renamed back.  The attributes of the guard object survive an
    exception, so its methods are steps over them.  Processes (pidfd_open, signals, poll), the
    random parts of the names and [str] of a value that is neither a string nor an integer are
    parameters; /proc is part of the file system. *)
From Stdlib Require Import ZArith Lia.
From Stdlib Require Import Init.Byte.
From stdpp Require Import base list sets strings option gmap.
From S2P Require Import Prelude PyStr PyVal Bytes Json Sys Held Steps Materialize StorageMount.

Open Scope string_scope.
Open Scope list_scope.
Open Scope Z_scope.
Open Scope py_scope.

(** What the kernel answers at a time: a pidfd for a process, whether a signal was delivered,
    and whether the process ended within so many milliseconds. *)
Class processes := Processes {
  pidfd_of : nat -> Z -> res Z;
  signal_of : nat -> Z -> Z -> res unit;
  ends_of : nat -> Z -> Z -> res bool;
  str_other : pyval -> pystr }.

Module NativeRecord.
Export Steps.
Import Materialize StorageMount.

Definition unique : dict -> res dict := strict_pairs ValueError "ambiguous native process record" [].

Definition identity_of (s : stat_result) : list Z :=
  [st_dev s; st_ino s; st_uid s; st_gid s; st_mode s; st_nlink s; st_size s; st_mtime_ns s; st_ctime_ns s].

(** ** Values *)

Definition SANDBOX : re := Cat (Cls is_alnum) (Rep (Cls (fun c => is_alnum c || one_of "_.-" c)) 0 63).
Definition HEX32 : re := Rep LOWER_HEX 32 32.
Definition BOOT : re :=
  Cat (Rep LOWER_HEX 8 8) (Cat (Lit "-") (Cat (Rep LOWER_HEX 4 4) (Cat (Lit "-") (Cat (Rep LOWER_HEX 4 4) (Cat (Lit "-")
    (Cat (Rep LOWER_HEX 4 4) (Cat (Lit "-") (Rep LOWER_HEX 12 12)))))))).

(** [re.fullmatch(r, v)] of a value, and [type(v) is type(w)]. *)
Definition fullmatch_value (r : re) (v : pyval) : res bool :=
  match v with VStr s => Ok (fullmatch r s) | _ => raise TypeError "expected string or bytes-like object" end.
Definition same_type (v w : pyval) : bool :=
  match v, w with
  | VNone, VNone | VBool _, VBool _ | VInt _, VInt _ | VFloat _, VFloat _ | VStr _, VStr _ | VList _, VList _ | VDict _, VDict _ => true
  | _, _ => false
  end.

(** The words of a byte string, and [int] of one. *)
Fixpoint byte_words (cur : pystr) (s : pystr) : list pystr :=
  match s with
  | [] => match cur with [] => [] | _ => [rev cur] end
  | c :: t => if is_space c then match cur with [] => byte_words [] t | _ => rev cur :: byte_words [] t end else byte_words (c :: cur) t
  end.
Definition int_of_bytes (s : pystr) : res Z :=
  if forallb (in_range 0 127) s then int_of_text s else raise ValueError "invalid literal for int() with base 10".

(** [data\[data.rindex(b')')+2:\].split()\[n\]] as an integer. *)
Fixpoint after_last (c : Z) (s : pystr) : option pystr :=
  match s with
  | [] => None
  | x :: t => match after_last c t with Some r => Some r | None => if x =? c then Some t else None end
  end.
Definition stat_field (data : bytes) (n : nat) : res Z :=
  match after_last 41 (map b2z data) with
  | None => raise ValueError "subsection not found"
  | Some rest =>
      match nth_error (byte_words [] (drop 1 rest)) n with
      | Some word => int_of_bytes word
      | None => raise IndexError "list index out of range"
      end
  end.

(** The line ends [read_text] gives. *)
Fixpoint universal_newlines (s : pystr) : pystr :=
  match s with
  | [] => []
  | c :: t =>
      if c =? 13 then 10 :: match t with x :: t' => if x =? 10 then universal_newlines t' else universal_newlines t | [] => [] end
      else c :: universal_newlines t
  end.

Definition positive_int (v : pyval) : bool := match v with VInt n => 0 <? n | _ => false end.
Definition int_of (v : pyval) : Z := match v with VInt n => n | _ => 0 end.

(** The attributes that change. *)
Record guard := Guard {
  g_name : pystr; g_held : pystr; g_data : bytes; g_record : dict; g_original : list Z;
  g_fd : option Z; g_pidfd : option Z; g_hidden : bool; g_held_identity : option (list Z); g_fifo : option (list Z) }.
(** [placeholder not in \[None, 'fifo'\]] *)
Definition placeholder_flag (placeholder : option pystr) : res bool :=
  match placeholder with
  | None => Ok false
  | Some p => raise_if (negb (p =s str "fifo")) ValueError "unsupported native record placeholder" ;; Ok true
  end.
Definition fresh_guard : guard := Guard [] [] [] [] [] None None false None None.

Definition set_names (name held : pystr) (g : guard) : guard :=
  Guard name held (g_data g) (g_record g) (g_original g) (g_fd g) (g_pidfd g) (g_hidden g) (g_held_identity g) (g_fifo g).
Definition set_fd (fd : option Z) (g : guard) : guard :=
  Guard (g_name g) (g_held g) (g_data g) (g_record g) (g_original g) fd (g_pidfd g) (g_hidden g) (g_held_identity g) (g_fifo g).
Definition set_data (data : bytes) (g : guard) : guard :=
  Guard (g_name g) (g_held g) data (g_record g) (g_original g) (g_fd g) (g_pidfd g) (g_hidden g) (g_held_identity g) (g_fifo g).
Definition set_record (r : dict) (g : guard) : guard :=
  Guard (g_name g) (g_held g) (g_data g) r (g_original g) (g_fd g) (g_pidfd g) (g_hidden g) (g_held_identity g) (g_fifo g).
Definition set_original (i : list Z) (g : guard) : guard :=
  Guard (g_name g) (g_held g) (g_data g) (g_record g) i (g_fd g) (g_pidfd g) (g_hidden g) (g_held_identity g) (g_fifo g).
Definition set_pidfd (p : option Z) (g : guard) : guard :=
  Guard (g_name g) (g_held g) (g_data g) (g_record g) (g_original g) (g_fd g) p (g_hidden g) (g_held_identity g) (g_fifo g).
Definition set_hidden (b : bool) (g : guard) : guard :=
  Guard (g_name g) (g_held g) (g_data g) (g_record g) (g_original g) (g_fd g) (g_pidfd g) b (g_held_identity g) (g_fifo g).
Definition set_held_identity (i : list Z) (g : guard) : guard :=
  Guard (g_name g) (g_held g) (g_data g) (g_record g) (g_original g) (g_fd g) (g_pidfd g) (g_hidden g) (Some i) (g_fifo g).
Definition set_fifo (i : option (list Z)) (g : guard) : guard :=
  Guard (g_name g) (g_held g) (g_data g) (g_record g) (g_original g) (g_fd g) (g_pidfd g) (g_hidden g) (g_held_identity g) i.

Section native.
Context `{machine} `{processes}.

(** ** Directories and records *)

Fixpoint open_parts (fd : Z) (parts : path) : M Z :=
  match parts with
  | [] => mret fd
  | part :: rest =>
      let* next_fd := closing fd (openat true true fd part) in
      close fd ;;; open_parts next_fd rest
  end.
Definition open_directory (directory : pystr) : M Z :=
  let p := pure_path directory in
  lift (raise_if ((pp_root p =s []) || negb (as_posix p =s normpath (as_posix p)) || mem (str "..") (pp_comps p)) ValueError
    "private directory must be canonical and absolute") ;;;
  let* top := open_ false true [] in
  let* fd := open_parts top (pp_comps p) in
  closing fd
    (let* s := fstat fd in
     mraise_if (negb (st_uid s =? euid me) || negb (Z.land (st_mode s) 0x3F =? 0)) ValueError
       "native runtime directory is not caller-private" ;;;
     mret fd).

Definition read_record (fd : Z) (name : pystr) : M (bytes * stat_result) :=
  let* file := openat true false fd name in
  mfinally
    (let* s := fstat file in
     mraise_if (negb (s_isreg (st_mode s)) || negb (st_uid s =? euid me) || negb (s_imode (st_mode s) =? 0x180) || negb (st_nlink s =? 1) ||
                negb ((0 <? st_size s) && (st_size s <=? 4096))) ValueError "native process record is not private and bounded" ;;;
     let* content := read_fd file in
     let data := take (Z.to_nat 4097) content in
     let* named := held_stat false fd [name] in
     mraise_if (negb (zlen data =? st_size s)) ValueError "native process record changed during read" ;;;
     let* again := fstat file in
     mraise_if (negb (bool_decide (identity_of s = identity_of again)) || negb (bool_decide (identity_of named = identity_of s))) ValueError
       "native process record changed during read" ;;;
     mret (data, s))
    (close file).

(** [renameat2(fd, source, fd, target, RENAME_NOREPLACE)], [mkfifoat] and [unlinkat]. *)
Definition rename_at (fd : Z) (source target : pystr) : M unit :=
  Sys.change (fun f => let! from := held_path f fd [source] in let! to := held_path f fd [target] in fs_rename true f from to).
Definition mkfifo_at (fd : Z) (name : pystr) (perm : Z) : M unit :=
  held_change (fun f q => let! r := fs_create me (KSpecial Fifo) perm f q in Ok r.2) fd [name].
Definition unlink_at (fd : Z) (name : pystr) : M unit := held_change fs_unlink fd [name].

(** ** The process *)

Definition asked {A} (answer : nat -> res A) : M A :=
  query (fun _ => Ok tt) ;;; (fun w => (answer (w_clock w), w)).
Definition send_signal (pidfd number : Z) : M unit := asked (fun t => signal_of t pidfd number).

Definition text_of (v : pyval) : pystr := match v with VStr s => s | VInt n => int_repr n | _ => str_other v end.
Definition joined (v : pyval) : res pystr :=
  match v with VStr s => Ok s | _ => raise TypeError "sequence item: expected str instance" end.
Definition command_line (binary : pystr) (r : dict) : res bytes :=
  let! port := getitem (VDict r) (str "port") in
  let! image := getitem (VDict r) (str "image_id") in
  let! generation := getitem (VDict r) (str "export_generation") in
  let! peer := getitem (VDict r) (str "peer_cid") in
  let! image := joined image in
  let! generation := joined generation in
  utf8_encode Strict (join_with 0 [binary; str "server"; str "/proc/self/fd/3"; text_of port; image; generation; text_of peer; []]).

Definition process_dir (r : dict) : path := [str "proc"; int_repr (int_of (get r (str "pid")))].
Definition same_node (r : dict) (item : path * string * string) : M unit :=
  let '(below, dev, ino) := item in
  let* s := stat (process_dir r ++ below) in
  mraise_if (negb ((VInt (st_dev s) == get r (str dev)) && (VInt (st_ino s) == get r (str ino)))) ValueError "native process descriptor identity changed".

Definition live (binary : pystr) (pidfd : Z) (r : dict) : M unit :=
  send_signal pidfd 0 ;;;
  let* data := read_bytes (process_dir r ++ [str "stat"]) in
  mraise_if (4096 <? zlen data) ValueError "native process incarnation changed" ;;;
  let* started := lift (stat_field data 19) in
  mraise_if (negb (VInt started == get r (str "start_time"))) ValueError "native process incarnation changed" ;;;
  let* expected := lift (command_line binary r) in
  let* content := read_bytes (process_dir r ++ [str "cmdline"]) in
  mraise_if (negb (bytes_eqb (take (Z.to_nat 4097) content) expected)) ValueError "native process command changed" ;;;
  mfor_each (fun _ item => same_node r item) tt
    [([str "exe"], "binary_device", "binary_inode"); ([str "fd"; str "3"], "image_device", "image_inode")] ;;;
  send_signal pidfd 0.

(** ** The guard *)

Context (directory : pystr) (export : dict) (binary : pystr) (fifo : bool) (hold_hex remove_hex : pystr).

(** A method reads its object. *)
Definition self {A} (k : guard -> step guard A) : step guard A := fun g => k g g.
Definition fd_of (g : guard) : Z := default (-1) (g_fd g).
Definition pidfd_in (g : guard) : Z := default (-1) (g_pidfd g).

Definition same_directory (fd : Z) : M unit :=
  let* current := open_directory directory in
  mfinally
    (let* a := fstat current in let* b := fstat fd in
     mraise_if (negb (bool_decide (take 6 (identity_of a) = take 6 (identity_of b)))) ValueError "native runtime directory was replaced")
    (close current).

(** Nothing has the name of the record. *)
Definition absent (fd : Z) (name : pystr) : M unit :=
  let* there := mcatch (let* _ := held_stat false fd [name] in mret true)
    (fun e => if bool_decide (exn_cls e = FileNotFoundError) then mret false else reraise e) in
  mraise_if there ValueError "native process record was recreated".

Definition check_hidden (g : guard) : M unit :=
  same_directory (fd_of g) ;;;
  let* r := read_record (fd_of g) (g_held g) in
  mraise_if (negb (bytes_eqb r.1 (g_data g)) || negb (bool_decide (g_held_identity g = Some (identity_of r.2)))) ValueError
    "held native record changed" ;;;
  (match g_fifo g with
   | Some i =>
       let* named := held_stat false (fd_of g) [g_name g] in
       mraise_if (negb (bool_decide (identity_of named = i))) ValueError "native FIFO placeholder changed"
   | None => absent (fd_of g) (g_name g)
   end) ;;;
  live binary (pidfd_in g) (g_record g).

(** The record names exactly this export. *)
Definition expected_fields (boot : pystr) : res dict :=
  let e := VDict export in
  let! path := getitem e (str "path") in
  let! port := getitem e (str "port") in
  let! image := getitem e (str "image_id") in
  let! generation := getitem e (str "export_generation") in
  let! peer := getitem e (str "peer_cid") in
  let! identity := getitem e (str "image_identity") in
  let! device := getitem identity (str "device") in
  let! identity := getitem e (str "image_identity") in
  let! inode := getitem identity (str "inode") in
  Ok [(str "version", VInt 5); (str "boot_id", VStr boot); (str "path", path); (str "port", port); (str "image_id", image);
      (str "export_generation", generation); (str "peer_cid", peer); (str "image_device", device); (str "image_inode", inode)].
Definition OWN_FIELDS : list pystr := strs ["pid"; "start_time"; "binary_device"; "binary_inode"].
Definition record_of (value : pyval) (expected : dict) : res dict :=
  match value with
  | VDict r =>
      raise_if (negb (keys_are r (keys expected ++ OWN_FIELDS)) ||
                existsb (fun kv => negb (get r kv.1 == kv.2) || negb (same_type (get r kv.1) kv.2)) expected ||
                negb (forallb (fun k => positive_int (get r k)) OWN_FIELDS) || (int_of (get r (str "pid")) <=? 1)) ValueError
        "native record differs from the exact export" ;;
      Ok r
  | _ => raise ValueError "native record differs from the exact export"
  end.

(** The name of the record's file. *)
Definition record_name : res pystr :=
  let e := VDict export in
  let! sandbox := getitem e (str "sandbox_id") in
  raise_if (negb (is_str sandbox)) ValueError "expected one exact active private export" ;;
  let! ok := fullmatch_value SANDBOX sandbox in
  raise_if (negb ok) ValueError "expected one exact active private export" ;;
  let! generation := getitem e (str "sandbox_generation") in
  let! ok := fullmatch_value HEX32 generation in
  raise_if (negb ok) ValueError "expected one exact active private export" ;;
  let! state := getitem e (str "state") in
  raise_if (negb (state == VStr (str "ACTIVE"))) ValueError "expected one exact active private export" ;;
  match sandbox, generation with
  | VStr s, VStr g => Ok (s ++ str "-" ++ take 12 g ++ str ".json")
  | _, _ => raise TypeError "can only concatenate str"
  end.

Definition boot_id : M pystr :=
  let* content := read_bytes (abs_path "/proc/sys/kernel/random/boot_id") in
  let* text := lift (ascii_decode (take 38 content)) in
  let boot := if bool_decide (List.last text 0 = 10) then removelast text else text in
  mraise_if (negb (fullmatch BOOT boot)) ValueError "host boot identity is invalid" ;;;
  mret boot.

Local Open Scope step_scope.

Definition bind_body : step guard unit :=
  name <- perform (lift record_name) ;;
  assign (set_names name (str ".g8-diagnostic-hold-" ++ hold_hex)) ;+
  fd <- perform (open_directory directory) ;;
  assign (set_fd (Some fd)) ;+
  original <- perform (read_record fd name) ;;
  assign (set_data original.1) ;+
  value <- perform (lift (loads_bytes unique float_constant original.1)) ;;
  boot <- perform boot_id ;;
  expected <- perform (lift (expected_fields boot)) ;;
  r <- perform (lift (record_of value expected)) ;;
  assign (set_record r) ;+
  pidfd <- perform (asked (fun t => pidfd_of t (int_of (get r (str "pid"))))) ;;
  assign (set_pidfd (Some pidfd)) ;+
  perform (live binary pidfd r) ;+
  perform (same_directory fd) ;+
  latest <- perform (read_record fd name) ;;
  perform (mraise_if (negb (bytes_eqb latest.1 original.1) || negb (bool_decide (identity_of latest.2 = identity_of original.2))) ValueError
    "native record changed before fault") ;+
  assign (set_original (identity_of original.2)).

(** Closing the descriptors, whatever happened. *)
Definition close_some (fd : option Z) : M unit := match fd with Some fd => close fd | None => mret tt end.
Definition closing_fds {A} (body : step guard A) : step guard A :=
  fun g => let* r := body g in
    let* c := perform (close_some (g_pidfd r.1) ;;; close_some (g_fd r.1)) r.1 in
    match c.2 with
    | Ok _ => mret (set_fd None (set_pidfd None r.1), r.2)
    | Err e => mret (r.1, Err e)
    end.

(** The FIFO goes by way of a name of its own. *)
Definition remove_fifo (i : list Z) : step guard unit :=
  self (fun g =>
    named <- perform (held_stat false (fd_of g) [g_name g]) ;;
    perform (mraise_if (negb (bool_decide (identity_of named = i))) ValueError "refusing removal of changed FIFO placeholder") ;+
    let quarantine := str ".g8-fifo-remove-" ++ remove_hex in
    perform (rename_at (fd_of g) (g_name g) quarantine) ;+
    moved <- perform (held_stat false (fd_of g) [quarantine]) ;;
    (if bool_decide (take 8 (identity_of moved) = take 8 i) then
       perform (unlink_at (fd_of g) quarantine) ;+ assign (set_fifo None)
     else
       perform (rename_at (fd_of g) quarantine (g_name g)) ;+
       perform (mraise ValueError "FIFO identity changed during removal"))).

Definition restore : step guard unit :=
  self (fun g =>
    match g_held_identity g with
    | None => perform (mraise ValueError "unverified held record preserved for diagnosis")
    | Some identity =>
        held <- perform (read_record (fd_of g) (g_held g)) ;;
        perform (mraise_if (negb (bytes_eqb held.1 (g_data g)) || negb (bool_decide (identity_of held.2 = identity))) ValueError
          "refusing restoration of modified held record") ;+
        perform (same_directory (fd_of g)) ;+
        (match g_fifo g with Some i => remove_fifo i | None => perform (mret tt) end) ;+
        perform (rename_at (fd_of g) (g_held g) (g_name g)) ;+
        assign (set_hidden false) ;+
        perform (fsync (fd_of g)) ;+
        restored <- perform (read_record (fd_of g) (g_name g)) ;;
        perform (mraise_if (negb (bytes_eqb restored.1 (g_data g)) ||
          negb (bool_decide ((st_dev restored.2, st_ino restored.2) = (st_dev held.2, st_ino held.2)))) ValueError "native record restoration differs")
    end).
Definition exit : step guard unit :=
  closing_fds (self (fun g => if g_hidden g then restore else perform (mret tt))).

(** [except BaseException: self.__exit__(None, None, None); raise] *)
Definition or_exit (body : step guard unit) : step guard unit :=
  fun g => let* r := body g in
    match r.2 with
    | Ok _ => mret r
    | Err e => let* x := exit r.1 in match x.2 with Ok _ => mret (x.1, Err e) | Err e' => mret (x.1, Err e') end
    end.

Definition bind : step guard unit := or_exit bind_body.

Definition place_fifo : step guard unit :=
  self (fun g =>
    perform (mkfifo_at (fd_of g) (g_name g) 0x180) ;+
    named <- perform (held_stat false (fd_of g) [g_name g]) ;;
    assign (set_fifo (Some (identity_of named))) ;+
    perform (mraise_if (negb (s_ifmt (st_mode named) =? 0x1000) || negb (st_nlink named =? 1) || negb (s_imode (st_mode named) =? 0x180)) ValueError
      "native FIFO placeholder identity is unsafe")).

Definition hide : step guard unit :=
  self (fun g =>
    original <- perform (held_stat false (fd_of g) [g_name g]) ;;
    perform (mraise_if (negb (bool_decide (identity_of original = g_original g))) ValueError "native record changed after binding") ;+
    perform (rename_at (fd_of g) (g_name g) (g_held g)) ;+
    assign (set_hidden true) ;+
    held <- perform (read_record (fd_of g) (g_held g)) ;;
    perform (mraise_if (negb (bytes_eqb held.1 (g_data g)) ||
      negb (bool_decide ((st_dev held.2, st_ino held.2) = (st_dev original, st_ino original)))) ValueError "renamed native record differs") ;+
    assign (set_held_identity (identity_of held.2)) ;+
    (if fifo then place_fifo else perform (mret tt)) ;+
    perform (fsync (fd_of g)) ;+
    self (fun g => perform (check_hidden g))).
Definition enter : step guard unit := or_exit (bind ;+ hide).

Local Close Scope step_scope.

(** [with HiddenNativeRecord(...) as guard: body] *)
Definition with_hidden {A} (body : guard -> M A) : M A :=
  let* entered := enter fresh_guard in
  match entered.2 with
  | Err e => reraise e
  | Ok _ =>
      let* r := perform (body entered.1) entered.1 in
      let* gone := exit r.1 in
      match gone.2, r.2 with Err e, _ => reraise e | Ok _, Ok a => mret a | Ok _, Err e => reraise e end
  end.

(** [guard.proof()] *)
Definition proof_of (g : guard) : res pyval :=
  let numbers (l : list Z) := VList (map VInt l) in
  match g_held_identity g with
  | Some (device :: inode :: _) =>
      Ok (VDict [(str "placeholder", VStr (if fifo then str "fifo" else str "missing"));
        (str "placeholder_identity", match g_fifo g with Some i => numbers i | None => VNone end);
        (str "no_fifo_writer_opened", VBool true); (str "record_sha256", VStr (sha256 (g_data g)));
        (str "record_device", VInt device); (str "record_inode", VInt inode); (str "process_live", VBool true);
        (str "exact_process_incarnation", VBool true); (str "launched_executable_and_backing_fd_match", VBool true)])
  | _ => raise AttributeError "object has no attribute 'held_identity'"
  end.

(** ** Killing the process *)

Record killed := Killed { k_sha256 : pystr; k_device : Z; k_inode : Z }.

Definition unchanged_record (g : guard) (message : string) : M (bytes * stat_result) :=
  let* latest := read_record (fd_of g) (g_name g) in
  mraise_if (negb (bytes_eqb latest.1 (g_data g)) || negb (bool_decide (identity_of latest.2 = g_original g))) ValueError message ;;;
  mret latest.

Definition kill_body (parent_pid : Z) (cgroup : pystr) (timeout : Z) (g : guard) : M killed :=
  let* data := read_bytes (process_dir (g_record g) ++ [str "stat"]) in
  let* parent := lift (stat_field data 1) in
  mraise_if (negb (parent =? parent_pid)) ValueError "native process is outside the owned parent or cgroup" ;;;
  let* group := read_utf8 (process_dir (g_record g) ++ [str "cgroup"]) in
  mraise_if (negb (universal_newlines group =s cgroup)) ValueError "native process is outside the owned parent or cgroup" ;;;
  same_directory (fd_of g) ;;;
  let* _ := unchanged_record g "native record changed before crash" in
  live binary (pidfd_in g) (g_record g) ;;;
  send_signal (pidfd_in g) 9 ;;;
  let* ended := asked (fun t => ends_of t (pidfd_in g) (timeout * 1000)) in
  mraise_if (negb ended) ValueError "exact native process did not exit after SIGKILL" ;;;
  let* latest := unchanged_record g "native crash changed the durable record" in
  mret (Killed (sha256 (g_data g)) (st_dev latest.2) (st_ino latest.2)).

Definition kill_native_export (parent_pid : Z) (cgroup : pystr) (timeout : Z) : M killed :=
  mraise_if ((parent_pid <=? 1) || negb ((0 <? zlen cgroup) && (zlen cgroup <=? 4096)) || negb ((0 <? timeout) && (timeout <=? 10))) ValueError
    "invalid native crash scope" ;;;
  let* bound := bind fresh_guard in
  let* r := match bound.2 with Ok _ => perform (kill_body parent_pid cgroup timeout bound.1) bound.1 | Err e => mret (bound.1, Err e) end in
  let* gone := exit r.1 in
  match gone.2, r.2 with Err e, _ => reraise e | Ok _, Ok k => mret k | Ok _, Err e => reraise e end.
End native.
End NativeRecord.
