(* ===== verification/NativeRecordSafe.v ===== *)
(** * Hiding a record loses nothing

    Whatever call fails, the record of the process has its own name or the one it is held
    under, with the bytes it had; nothing else is touched, except that a FIFO of the guard may
    be left; and when the guarded block ends without an error, the names are those of before. *)
From Stdlib Require Import ZArith Lia.
From Stdlib Require Import Init.Byte.
From stdpp Require Import base list sets strings option gmap.
From S2P Require Import Prelude PyStr PyVal Bytes Json Sys Held FsRules Publish Keeps Steps RootfsScanSafe RootfsRun Materialize MaterializeSafe StorageSafe OciLoadSafe NativeRecord.

Open Scope string_scope.
Open Scope list_scope.
Open Scope Z_scope.

Module NativeRecordSafe.
Import Keeps RootfsScanSafe RootfsRun MaterializeSafe StorageSafe.
Export NativeRecord.

(** ** Where the record is *)

Section shapes.
Context (f0 : fs) (Hwf : fs_wf f0) (Hfresh : fresh_ok f0).

(** The directory, the name of the record and the name it is held under. *)
Record placed (D : path) (d : Z) (name held : pystr) (r : Z) (n : inode) : Prop := {
  pl_dir : names f0 !! D = Some d; pl_real : is_dir_at f0 D = true;
  pl_name : plain_name name = true; pl_held : plain_name held = true;
  pl_record : names f0 !! (D ++ [name]) = Some r; pl_node : nodes f0 !! r = Some n; pl_file : exists data, i_kind n = KFile data }.

Context (D : path) (d : Z) (name held : pystr) (r : Z) (n : inode) (Hpl : placed D d name held r n).

Notation N := (D ++ [name]).
Notation H := (D ++ [held]).
Notation t := (fresh f0).

Inductive shape := AtName | Hidden | WithFifo | Moving (q : pystr).
#[export] Instance shape_eq_dec : EqDecision shape.
Proof. solve_decision. Defined.

Definition away : gmap path Z := <[H := r]> (delete N (names f0)).
Definition shape_names (s : shape) : gmap path Z :=
  match s with AtName => names f0 | Hidden => away | WithFifo => <[N := t]> away | Moving q => <[D ++ [q] := t]> away end.
Definition shape_free (s : shape) : Prop :=
  match s with
  | AtName => True
  | Hidden | WithFifo => names f0 !! H = None
  | Moving q => names f0 !! H = None /\ plain_name q = true /\ names f0 !! (D ++ [q]) = None /\ q <> held
  end.
Definition shape_fifo (s : shape) (f : fs) : Prop :=
  match s with WithFifo | Moving _ => exists m, nodes f !! t = Some m /\ i_kind m = KSpecial Fifo | _ => True end.

Record is_shape (s : shape) (f : fs) : Prop := {
  sh_free : shape_free s; sh_names : names f = shape_names s;
  sh_nodes : forall i, i <> t -> nodes f !! i = nodes f0 !! i; sh_fifo : shape_fifo s f }.

Lemma old_below i k : names f0 !! k = Some i -> i < t.
Proof. intros Hk. destruct (wf_node f0 Hwf _ _ Hk) as [m Hm]. by eapply Hfresh. Qed.

Lemma record_not_dir : r <> d.
Proof.
  intros ->. pose proof (pl_real _ _ _ _ _ _ Hpl) as Hd. unfold is_dir_at, node_at in Hd. rewrite (pl_dir _ _ _ _ _ _ Hpl), (pl_node _ _ _ _ _ _ Hpl) in Hd.
  destruct (pl_file _ _ _ _ _ _ Hpl) as [data Hk]. by rewrite Hk in Hd.
Qed.

(** A name that is not a child of the directory is as before. *)
Lemma shape_other s f k : is_shape s f -> (forall x, k <> D ++ [x]) -> names f !! k = names f0 !! k.
Proof.
  intros Hs Hk. rewrite (sh_names _ _ Hs). destruct s; cbn [shape_names]; unfold away; rewrite ?lookup_insert_ne, ?lookup_delete_ne; done.
Qed.

Lemma shape_old s f k i : is_shape s f -> names f0 !! k = Some i -> (forall x, k <> D ++ [x]) -> node_at f k = node_at f0 k.
Proof.
  intros Hs Hk Hne. unfold node_at. rewrite (shape_other s f k Hs Hne), Hk, (sh_nodes _ _ Hs); [done|]. pose proof (old_below _ _ Hk). lia.
Qed.

Lemma prefix_not_child q x : q `prefix_of` D -> q <> D ++ [x].
Proof. intros Hq ->. apply prefix_length in Hq. rewrite length_app in Hq. simpl in Hq. lia. Qed.

Lemma shape_real s f : is_shape s f -> real_dir f D.
Proof.
  intros Hs q Hq. pose proof (dir_real f0 Hwf D (pl_real _ _ _ _ _ _ Hpl) q Hq) as Hd. destruct (dir_named f0 q Hd) as [i Hi].
  unfold is_dir_at. rewrite (shape_old s f q i Hs Hi); [exact Hd|]. intros x. by apply prefix_not_child.
Qed.

Lemma shape_value s f k i : is_shape s f -> names f !! k = Some i -> i = r \/ i = t \/ names f0 !! k = Some i.
Proof.
  intros Hs. rewrite (sh_names _ _ Hs). destruct s; cbn [shape_names]; unfold away; [by auto|..]; rewrite ?lookup_insert_Some, ?lookup_delete_Some; naive_solver.
Qed.

Lemma shape_location s f : is_shape s f -> location_of f d = Some D.
Proof.
  intros Hs. apply only_location.
  - rewrite (shape_other s f D Hs); [apply Hpl|]. intros x. by apply prefix_not_child.
  - intros k Hk. pose proof (old_below _ _ (pl_dir _ _ _ _ _ _ Hpl)) as Hlt. destruct (shape_value s f k d Hs Hk) as [E|[E|E]].
    + by destruct record_not_dir.
    + lia.
    + symmetry. eapply (wf_one f0 Hwf); [apply Hpl|exact E|apply Hpl].
Qed.

Lemma dir_plain : plain_path D.
Proof. eapply (named_plain f0 Hwf), Hpl. Qed.

Lemma shape_held s f x : is_shape s f -> held_path f d [x] = Ok (D ++ [x]).
Proof. intros Hs. unfold held_path. by rewrite (shape_location s f Hs). Qed.

Lemma shape_locate s f x : is_shape s f -> plain_name x = true -> locate f (D ++ [x]) = Ok (D ++ [x]).
Proof.
  intros Hs Hx. apply locate_child; [|by eapply shape_real]. apply plain_app. split; [apply dir_plain|by constructor].
Qed.

(** Every name leads somewhere. *)
Lemma shape_node s f k i : is_shape s f -> names f !! k = Some i -> is_Some (nodes f !! i).
Proof.
  intros Hs Hk. assert (i <> t -> is_Some (nodes f !! i)) as Hold.
  { intros Hne. rewrite (sh_nodes _ _ Hs) by done. destruct (shape_value s f k i Hs Hk) as [->|[->|E]]; [|done|by eapply (wf_node f0 Hwf)].
    rewrite (pl_node _ _ _ _ _ _ Hpl). by eexists. }
  destruct (decide (i = t)) as [->|Hne]; [|by apply Hold]. destruct s; [| |by destruct (sh_fifo _ _ Hs) as (m & -> & _); eexists..].
  all: rewrite (sh_names _ _ Hs) in Hk; cbn [shape_names] in Hk; unfold away in Hk.
  - pose proof (old_below _ _ Hk). lia.
  - apply lookup_insert_Some in Hk as [[_ E]|[_ [_ Hk]%lookup_delete_Some]]; [pose proof (old_below _ _ (pl_record _ _ _ _ _ _ Hpl)); lia|].
    pose proof (old_below _ _ Hk). lia.
Qed.

Lemma shape_free_name s f k : is_shape s f -> node_at f k = None -> names f !! k = None.
Proof.
  intros Hs Hn. unfold node_at in Hn. destruct (names f !! k) as [i|] eqn:E; [|done]. destruct (shape_node s f k i Hs E) as [m Hm]. by rewrite Hm in Hn.
Qed.

(** What a rename or an unlink of a file in the directory does. *)
Lemma rename_there s f f' a b i m : is_shape s f -> plain_name a = true -> plain_name b = true ->
  names f !! (D ++ [a]) = Some i -> nodes f !! i = Some m -> i_kind m <> KDir ->
  (let! from := held_path f d [a] in let! to := held_path f d [b] in fs_rename true f from to) = Ok f' ->
  names f !! (D ++ [b]) = None /\ f' = tick (set_name (D ++ [b]) i (del_name (D ++ [a]) f)).
Proof.
  intros Hs Ha Hb Hi Hm Hk. rewrite !(shape_held s f) by done. cbn [mbind]. unfold fs_rename. rewrite !(shape_locate s f) by done. cbn [mbind].
  assert (node_at f (D ++ [a]) = Some (i, m)) as -> by (unfold node_at; by rewrite Hi, Hm).
  destruct (node_at f (D ++ [b])) as [[j m']|] eqn:Eb; [done|]. intros Hr. split; [by eapply shape_free_name|].
  destruct (i_kind m); try done; by injection Hr as <-.
Qed.

Lemma rename_missing s f f' a b : is_shape s f -> plain_name a = true -> plain_name b = true -> names f !! (D ++ [a]) = None ->
  (let! from := held_path f d [a] in let! to := held_path f d [b] in fs_rename true f from to) <> Ok f'.
Proof.
  intros Hs Ha Hb Hi. rewrite !(shape_held s f) by done. cbn [mbind]. unfold fs_rename. rewrite !(shape_locate s f) by done. cbn [mbind].
  unfold node_at at 1. by rewrite Hi.
Qed.

(** ** Steps between the shapes *)

Lemma names_apart : names f0 !! H = None -> H <> N.
Proof. intros Hh E. rewrite E, (pl_record _ _ _ _ _ _ Hpl) in Hh. done. Qed.

Lemma away_record : away !! H = Some r.
Proof. apply lookup_insert_eq. Qed.
Lemma away_name : names f0 !! H = None -> away !! N = None.
Proof. intros Hh. unfold away. rewrite lookup_insert_ne by (by apply names_apart). apply lookup_delete_eq. Qed.
Lemma away_other k : k <> N -> k <> H -> away !! k = names f0 !! k.
Proof. intros H1 H2. unfold away. by rewrite lookup_insert_ne, lookup_delete_ne by done. Qed.

Lemma record_old : r <> t.
Proof. pose proof (old_below _ _ (pl_record _ _ _ _ _ _ Hpl)). lia. Qed.

Lemma shape_record s f : is_shape s f -> nodes f !! r = Some n /\ i_kind n <> KDir.
Proof.
  intros Hs. rewrite (sh_nodes _ _ Hs) by apply record_old. split; [apply Hpl|]. destruct (pl_file _ _ _ _ _ _ Hpl) as [data ->]. done.
Qed.

Definition moved (f : fs) (a b : pystr) : res fs :=
  let! from := held_path f d [a] in let! to := held_path f d [b] in fs_rename true f from to.

Lemma hide_step f f' : is_shape AtName f -> moved f name held = Ok f' -> is_shape Hidden f' /\ fresh f' = fresh f.
Proof.
  intros Hs Hr. destruct (shape_record _ _ Hs) as [Hn Hk]. pose proof (sh_names _ _ Hs) as Hnames. cbn [shape_names] in Hnames.
  destruct (rename_there AtName f f' name held r n Hs) as [Hfree ->]; try done; try apply Hpl; [rewrite Hnames; apply Hpl|].
  rewrite Hnames in Hfree. split; [|done]. constructor; cbn; try done; [by rewrite Hnames|apply Hs].
Qed.

Lemma fifo_moves f f' q : is_shape WithFifo f -> plain_name q = true -> moved f name q = Ok f' -> is_shape (Moving q) f'.
Proof.
  intros Hs Hq Hr. destruct (sh_fifo _ _ Hs) as (m & Hm & Hk). pose proof (sh_names _ _ Hs) as Hnames. cbn [shape_names] in Hnames. pose proof (sh_free _ _ Hs) as Hh.
  cbn [shape_free] in Hh. destruct (rename_there WithFifo f f' name q t m Hs) as [Hfree ->]; try done; [apply Hpl|by rewrite Hnames, lookup_insert_eq|by rewrite Hk|].
  rewrite Hnames in Hfree. apply lookup_insert_None in Hfree as [Hfree Hqn].
  assert (D ++ [q] <> H) as Hqh by (intros E; by rewrite E, away_record in Hfree).
  rewrite away_other in Hfree by done. constructor; cbn.
  - split_and!; try done. congruence.
  - rewrite Hnames, delete_insert_id; [done|by apply away_name].
  - apply Hs.
  - by exists m.
Qed.

Lemma fifo_returns f f' q : is_shape (Moving q) f -> moved f q name = Ok f' -> is_shape WithFifo f'.
Proof.
  intros Hs Hr. destruct (sh_fifo _ _ Hs) as (m & Hm & Hk). pose proof (sh_names _ _ Hs) as Hnames. cbn [shape_names] in Hnames.
  destruct (sh_free _ _ Hs) as (Hh & Hq & Hfq & Hne). destruct (rename_there (Moving q) f f' q name t m Hs) as [_ ->]; try done; [apply Hpl|by rewrite Hnames, lookup_insert_eq|by rewrite Hk|].
  constructor; cbn; [done| |apply Hs|by exists m]. rewrite Hnames, delete_insert_id; [done|].
  rewrite away_other; [done| |intros E; by simplify_list_eq]. intros E. by rewrite E, (pl_record _ _ _ _ _ _ Hpl) in Hfq.
Qed.

Lemma fifo_goes f f' q : is_shape (Moving q) f -> (let! p := held_path f d [q] in fs_unlink f p) = Ok f' -> is_shape Hidden f'.
Proof.
  intros Hs. destruct (sh_fifo _ _ Hs) as (m & Hm & Hk). pose proof (sh_names _ _ Hs) as Hnames. cbn [shape_names] in Hnames.
  destruct (sh_free _ _ Hs) as (Hh & Hq & Hfq & Hne). rewrite (shape_held (Moving q) f q Hs). cbn [mbind]. unfold fs_unlink. rewrite (shape_locate (Moving q) f q Hs Hq). cbn [mbind].
  assert (node_at f (D ++ [q]) = Some (t, m)) as -> by (unfold node_at; by rewrite Hnames, lookup_insert_eq, Hm). rewrite Hk. intros [= <-].
  constructor; cbn; [done| | |done].
  - unfold touch_nlink, del_name. cbn. rewrite Hm. cbn. rewrite Hnames, delete_insert_id; [done|].
    rewrite away_other; [done| |intros E; by simplify_list_eq]. intros E. by rewrite E, (pl_record _ _ _ _ _ _ Hpl) in Hfq.
  - intros i Hi. unfold touch_nlink. cbn. rewrite Hm. cbn. rewrite lookup_insert_ne by done. by apply Hs.
Qed.

Lemma restore_step f f' s : is_shape s f -> s = Hidden \/ s = WithFifo -> moved f held name = Ok f' -> is_shape AtName f'.
Proof.
  intros Hs Hor Hr. destruct (shape_record _ _ Hs) as [Hn Hk]. pose proof (sh_names _ _ Hs) as Hnames.
  assert (names f0 !! H = None) as Hh by (pose proof (sh_free _ _ Hs); by destruct Hor as [-> | ->]).
  destruct (rename_there s f f' held name r n Hs) as [Hfree ->]; try done; try apply Hpl.
  { rewrite Hnames. destruct Hor as [-> | ->]; cbn [shape_names]; [apply away_record|]. rewrite lookup_insert_ne; [apply away_record|].
    intros E. by apply names_apart in Hh. }
  destruct Hor as [-> | ->]; cbn [shape_names] in Hnames; [|by rewrite Hnames, lookup_insert_eq in Hfree].
  constructor; cbn; [done| |apply Hs|done]. rewrite Hnames. unfold away. rewrite delete_insert_id; [|by rewrite lookup_delete_ne by (intros E; by apply names_apart in Hh)].
  rewrite insert_delete_id; [done|apply Hpl].
Qed.

Lemma fifo_placed f f' u perm : is_shape Hidden f -> fresh f = t -> (let! p := held_path f d [name] in let! x := fs_create u (KSpecial Fifo) perm f p in Ok x.2) = Ok f' ->
  is_shape WithFifo f'.
Proof.
  intros Hs Ht. pose proof (sh_names _ _ Hs) as Hnames. cbn [shape_names] in Hnames. rewrite (shape_held Hidden f name Hs). cbn [mbind]. unfold fs_create.
  rewrite (shape_locate Hidden f name Hs) by apply Hpl. cbn [mbind]. destruct (node_at f N) as [|]; [done|]. intros [= <-]. cbn [snd].
  constructor; cbn; [apply (sh_free _ _ Hs)| | |].
  - by rewrite Hnames, Ht.
  - intros i Hi. rewrite Ht, lookup_insert_ne by done. by apply Hs.
  - rewrite Ht. eexists. split; [apply lookup_insert_eq|done].
Qed.
End shapes.

(** ** What only looks *)

(** One call after the other. *)
Ltac see := repeat (keeps_step || cbv zeta || (apply keeps_query; assumption)).

Section looking.
Context `{machine} `{processes} (Hquiet : quiet) (I : fs -> Prop).

Lemma keeps_open_parts fd parts : keeps I (open_parts fd parts).
Proof. revert fd; induction parts as [|part parts IH]; intros fd; cbn [open_parts]; unfold closing; see; apply IH. Qed.
Lemma keeps_open_directory directory : keeps I (open_directory directory).
Proof. unfold open_directory, closing. see. apply keeps_open_parts. Qed.
Lemma keeps_read_record fd name : keeps I (read_record fd name).
Proof. unfold read_record. see. Qed.
Lemma keeps_asked {A} (answer : nat -> res A) : keeps I (asked answer).
Proof. unfold asked. apply keeps_bind; [by apply keeps_query|]. intros _ w Hw. by destruct (answer (w_clock w)). Qed.
Lemma keeps_read_bytes p : keeps I (read_bytes p).
Proof. unfold read_bytes. see. Qed.
Lemma keeps_live binary pidfd r : keeps I (live binary pidfd r).
Proof.
  unfold live, send_signal. apply keeps_bind; [apply keeps_asked|]. intros _. apply keeps_bind; [apply keeps_read_bytes|]. intros data.
  see; try apply keeps_read_bytes; try apply keeps_asked. unfold same_node. destruct x as [[below dev] ino]. see.
Qed.
Lemma keeps_same_directory directory fd : keeps I (same_directory directory fd).
Proof. unfold same_directory. apply keeps_bind; [apply keeps_open_directory|]. intros current. see. Qed.
Lemma keeps_check_hidden directory binary g : keeps I (check_hidden directory binary g).
Proof.
  unfold check_hidden, absent. apply keeps_bind; [apply keeps_same_directory|]. intros _. apply keeps_bind; [apply keeps_read_record|]. intros x.
  see; try apply keeps_live.
Qed.
Lemma keeps_boot_id : keeps I boot_id.
Proof. unfold boot_id. apply keeps_bind; [apply keeps_read_bytes|]. intros content. see. Qed.
Lemma keeps_close_some fd : keeps I (close_some fd).
Proof. unfold close_some. see. Qed.
End looking.

#[export] Hint Resolve keeps_open_directory keeps_read_record keeps_asked keeps_live keeps_same_directory keeps_check_hidden keeps_boot_id keeps_query keeps_raise_if
  keeps_raise keeps_ret keeps_lift : keeps.

Lemma plain_prefixed a b : (2 < length (str a))%nat -> plain_name (str a ++ b) = true.
Proof. intros Ha. apply Publish.long_plain. rewrite length_app. lia. Qed.

(** ** Leaving *)

Section leaving.
Context `{machine} `{processes} (Hquiet : quiet).
Context (directory : pystr) (export : dict) (binary : pystr) (fifo : bool) (hold_hex remove_hex : pystr).
Context (f0 : fs) (Hwf : fs_wf f0) (Hfresh : fresh_ok f0).
Context (D : path) (d : Z) (name held : pystr) (r : Z) (n : inode) (Hpl : placed f0 D d name held r n).

Notation shaped := (is_shape f0 D name held r).
Definition somewhere (f : fs) : Prop := exists s, shaped s f.

(** The object of a hidden record. *)
Record hiding (v : guard) (s : shape) : Prop := {
  hi_fd : g_fd v = Some d; hi_name : g_name v = name; hi_held : g_held v = held; hi_hidden : g_hidden v = true;
  hi_fifo : s = Hidden /\ g_fifo v = None \/ s = WithFifo }.

Lemma stepping_see {A B} v s (m : M A) (k : A -> step guard B) R : keeps (shaped s) m ->
  (forall a, stepping v (shaped s) (k a) R (fun _ => somewhere)) -> stepping v (shaped s) (sbind (perform m) k) R (fun _ => somewhere).
Proof. intros Hm Hk. apply stepping_look; [done| |done]. intros f Hf. by exists s. Qed.

(** A change of the file system from one shape to another. *)
Lemma stepping_move {A} v s s' (op : fs -> res fs) (k : unit -> step guard A) R :
  (forall f f', shaped s f -> op f = Ok f' -> shaped s' f') ->
  stepping v (shaped s') (k tt) R (fun _ => somewhere) -> stepping v (shaped s) (sbind (perform (Sys.change op)) k) R (fun _ => somewhere).
Proof.
  intros Hop Hk. apply (stepping_call v _ _ k (fun _ => shaped s')); [|by intros []]. apply triple_change; [done| |].
  - intros f Hf. by exists s.
  - intros f f' Hf Ho. by eapply Hop.
Qed.

Ltac look := apply stepping_see; [by eauto with keeps|intros ?].

Lemma fd_known v s : hiding v s -> fd_of v = d.
Proof. intros Hv. unfold fd_of. by rewrite (hi_fd _ _ Hv). Qed.

Lemma remove_fifo_step v i : hiding v WithFifo ->
  stepping v (shaped WithFifo) (remove_fifo remove_hex i) (fun _ _ => shaped Hidden) (fun _ => somewhere).
Proof.
  intros Hv. unfold remove_fifo. change (stepping v ?P (self ?k) ?Q ?E) with (stepping v P (k v) Q E). cbv beta. rewrite (fd_known v _ Hv), (hi_name _ _ Hv).
  look. look. assert (plain_name (str ".g8-fifo-remove-" ++ remove_hex) = true) as Hq by (by apply plain_prefixed; vm_compute; lia). set (q := str ".g8-fifo-remove-" ++ remove_hex) in *.
  apply (stepping_move v WithFifo (Moving q)).
  { intros f f' Hf Hr. by eapply fifo_moves. }
  look. case_bool_decide.
  - apply (stepping_move v (Moving q) Hidden); [intros f f' Hf Hr; by eapply fifo_goes|]. apply stepping_set. done.
  - apply (stepping_move v (Moving q) WithFifo); [intros f f' Hf Hr; by eapply fifo_returns|].
    eapply stepping_perform; [apply (triple_raise _ somewhere)|]; [intros f Hf; by exists WithFifo|]. by instantiate (1 := fun _ _ => False).
Qed.

Lemma restore_steps v s : hiding v s ->
  stepping v (shaped s) (restore directory remove_hex) (fun _ _ => shaped AtName) (fun _ => somewhere).
Proof.
  intros Hv. unfold restore. change (stepping v ?P (self ?k) ?Q ?E) with (stepping v P (k v) Q E). cbv beta. rewrite (fd_known v _ Hv), (hi_name _ _ Hv), (hi_held _ _ Hv).
  destruct (g_held_identity v) as [identity|].
  2:{ eapply stepping_perform; [apply (triple_raise _ somewhere)|]; [intros f Hf; by exists s|]. by instantiate (1 := fun _ _ => False). }
  look. look. look.
  eapply (stepping_bind _ _ _ _ (fun _ _ f => shaped Hidden f \/ shaped WithFifo f)).
  { destruct (hi_fifo _ _ Hv) as [[-> Hf]| ->].
    - rewrite Hf. eapply (stepping_perform _ _ _ (fun _ => shaped Hidden)); [by apply triple_ret|]. by left.
    - destruct (g_fifo v) as [i|]; [|eapply (stepping_perform _ _ _ (fun _ => shaped WithFifo)); [by apply triple_ret|]; by right].
      eapply triple_conseq; [by apply remove_fifo_step|done| |done]. intros [v' [x|e]] f Hf; [by left|done]. }
  intros ? v'. eapply (stepping_call v' _ _ _ (fun _ => shaped AtName)).
  { apply triple_change; [done|intros f [Hf|Hf]; by eexists|]. intros f f' [Hf|Hf] Hr; eapply (restore_step f0); eauto. }
  intros ?. apply stepping_assign. look. look.
  eapply stepping_perform; [eapply triple_conseq; [by apply (keeps_raise_if (shaped AtName))|done|intros ? f Hf; exact Hf|]|done]. intros f Hf. by exists AtName.
Qed.

(** Leaving puts the record back, or leaves it where it was. *)
Lemma exit_steps v s : hiding v s ->
  stepping v (shaped s) (exit directory remove_hex) (fun _ _ => shaped AtName) (fun _ => somewhere).
Proof.
  intros Hv w Hw. pose proof (restore_steps v s Hv w Hw) as Hr. unfold exit, closing_fds, self. rewrite (hi_hidden _ _ Hv). unfold mbind at 1.
  destruct (restore _ _ v w) as [[[v' x]|e] w1]; [|done]. cbn [fst snd] in *.
  assert (keeps (fun f => f = w_fs w1) (close_some (g_pidfd v') ;;; close_some (g_fd v'))) as Hc.
  { apply keeps_bind; [by apply keeps_close_some|]. intros _. by apply keeps_close_some. }
  specialize (Hc w1 eq_refl). unfold mbind at 1, perform. destruct ((_ ;;; _) w1) as [[u|e] w2]; cbn [snd]; cbn in Hc |- *; rewrite Hc.
  - by destruct x.
  - destruct x; [by exists AtName|done].
Qed.

(** ** Hiding *)

Definition virgin (f : fs) : Prop := shaped Hidden f /\ fresh f = fresh f0.
Definition hidden_by (v : guard) (f : fs) : Prop := exists s, hiding v s /\ shaped s f.
Definition calm (v : guard) (f : fs) : Prop := f = f0 /\ g_hidden v = false.
Definition open_end (v : guard) (f : fs) : Prop := calm v f \/ hidden_by v f.

Record bound_at (v : guard) : Prop := {
  ba_fd : g_fd v = Some d; ba_name : g_name v = name; ba_held : g_held v = held; ba_hidden : g_hidden v = false; ba_fifo : g_fifo v = None }.

Lemma start_shape : shaped AtName f0.
Proof. by constructor. Qed.

(** A call that only looks, in a state that may be left. *)
Lemma stepping_pause {A B} v P (m : M A) (k : A -> step guard B) R : keeps P m -> (forall f, P f -> hidden_by v f) ->
  (forall a, stepping v P (k a) R open_end) -> stepping v P (sbind (perform m) k) R open_end.
Proof. intros Hm HP Hk. apply stepping_look; [done| |done]. intros f Hf. right. by apply HP. Qed.

Lemma stepping_last {A} v P (m : M A) : keeps P m -> (forall f, P f -> hidden_by v f) -> stepping v P (perform m) (fun _ v' f => v' = v /\ P f) open_end.
Proof.
  intros Hm HP. eapply (stepping_perform _ _ _ (fun _ => P)); [|done]. eapply triple_conseq; [exact Hm|done|done|]. intros f Hf. right. by apply HP.
Qed.

Lemma place_fifo_steps v : hiding v Hidden ->
  stepping v virgin place_fifo (fun _ v' f => hiding v' WithFifo /\ shaped WithFifo f) open_end.
Proof.
  intros Hv. unfold place_fifo. change (stepping v ?P (self ?k) ?Q ?E) with (stepping v P (k v) Q E). cbv beta. rewrite (fd_known v _ Hv), (hi_name _ _ Hv).
  assert (hiding v WithFifo) as Hw by (constructor; try apply Hv; by right).
  eapply (stepping_call v _ _ _ (fun _ => shaped WithFifo)).
  { apply triple_change; [done|intros f [Hf _]; right; by exists Hidden|]. intros f f' [Hf Ht] Hc. by eapply (fifo_placed f0). }
  intros ?. apply (stepping_pause v); [by eauto with keeps|intros f Hf; by exists WithFifo|]. intros named. apply stepping_assign.
  assert (hiding (set_fifo (Some (identity_of named)) v) WithFifo) as Hx by (constructor; try apply Hv; by right).
  eapply triple_conseq; [apply (stepping_last _ (shaped WithFifo)); [by eauto with keeps|intros f Hf; by exists WithFifo]|done| |done].
  intros [v' [x|e]] f Hf; [|done]. cbn in *. by destruct Hf as [-> Hf].
Qed.

Lemma hide_steps v : bound_at v -> stepping v (fun f => f = f0) (hide directory binary fifo)
  (fun _ v' f => hiding v' (if fifo then WithFifo else Hidden) /\ shaped (if fifo then WithFifo else Hidden) f) open_end.
Proof.
  intros Hb. unfold hide. change (stepping v ?P (self ?k) ?Q ?E) with (stepping v P (k v) Q E). cbv beta.
  assert (fd_of v = d) as -> by (unfold fd_of; by rewrite (ba_fd _ Hb)). rewrite (ba_name _ Hb), (ba_held _ Hb).
  assert (forall f, f = f0 -> open_end v f) as Hcalm by (intros f ->; left; split; [done|apply Hb]).
  apply stepping_look; [by eauto with keeps|done|]. intros original. apply stepping_look; [by eauto with keeps|done|]. intros ?.
  eapply (stepping_call v _ _ _ (fun _ => virgin)).
  { apply triple_change; [done|done|]. intros f f' -> Hr. eapply (hide_step f0) in Hr as [H1 H2]; [by split|done..|apply start_shape]. }
  intros ?. apply stepping_assign. set (v1 := set_hidden true v).
  assert (hiding v1 Hidden) as H1 by (constructor; try apply Hb; try done; left; split; [done|apply Hb]).
  assert (forall f, virgin f -> hidden_by v1 f) as Hv1 by (intros f [Hf _]; by exists Hidden).
  apply stepping_pause; [by eauto with keeps|done|]. intros kept. apply stepping_pause; [by eauto with keeps|done|]. intros ?. apply stepping_assign.
  set (v2 := set_held_identity _ v1). assert (hiding v2 Hidden) as H2 by (constructor; apply H1).
  assert (forall f, virgin f -> hidden_by v2 f) as Hv2 by (intros f [Hf _]; by exists Hidden).
  eapply (stepping_bind _ _ _ _ (fun _ v' f => hiding v' (if fifo then WithFifo else Hidden) /\ shaped (if fifo then WithFifo else Hidden) f)).
  { destruct fifo; [by apply place_fifo_steps|]. eapply triple_conseq; [apply (stepping_last _ virgin); [by eauto with keeps|done]|done| |done].
    intros [v' [x|e]] f Hf; [|done]. cbn in *. by destruct Hf as [-> [Hf _]]. }
  intros ? v3. set (s := if fifo then WithFifo else Hidden). apply stepping_pre. intros f [H3 Hf].
  assert (forall g, g = f -> hidden_by v3 g) as Hv3 by (intros g ->; by exists s).
  apply stepping_pause; [by eauto with keeps|done|]. intros ?. change (stepping v3 ?P (self ?k) ?Q ?E) with (stepping v3 P (k v3) Q E). cbv beta.
  eapply triple_conseq; [apply (stepping_last _ (fun g => g = f)); [by eauto with keeps|done]|done| |done].
  intros [v' [x|e]] g Hg; [|done]. cbn in *. by destruct Hg as [-> ->].
Qed.
End leaving.

(** ** Entering *)

Section entering.
Context `{machine} `{processes} (Hquiet : quiet).
Context (directory : pystr) (export : dict) (binary : pystr) (fifo : bool) (hold_hex remove_hex : pystr).
Context (f0 : fs) (Hwf : fs_wf f0) (Hfresh : fresh_ok f0) (Hroot : is_dir_at f0 [] = true).

(** The directory is opened literally. *)
Lemma obs_open_parts parts : plain_path parts -> forall pre fd, names f0 !! pre = Some fd -> is_dir_at f0 pre = true ->
  observes f0 (open_parts fd parts) (fun d => names f0 !! (pre ++ parts) = Some d /\ is_dir_at f0 (pre ++ parts) = true).
Proof.
  intros Hp. induction Hp as [|c rest Hc _ IH]; intros pre fd Hd Hdir; cbn [open_parts]; [apply obs_ret; by rewrite app_nil_r|].
  eapply obs_bind; [by eapply obs_closing, obs_query|]. intros next Hn. cbv beta in Hn.
  destruct (openat_child f0 pre fd true c next Hwf Hd Hdir Hc Hn) as (Hnext & Hdn & _). eapply obs_bind; [by apply obs_query|]. intros ? _.
  eapply obs_conseq; [by apply (IH (pre ++ [c]) next Hnext), Hdn|]. intros d. by rewrite <-app_assoc.
Qed.

Lemma obs_record_directory : observes f0 (open_directory directory) (fun d =>
  names f0 !! pp_comps (pure_path directory) = Some d /\ is_dir_at f0 (pp_comps (pure_path directory)) = true).
Proof.
  unfold open_directory. eapply obs_bind; [apply obs_raise_if|]. intros ? Hc. apply orb_false_iff in Hc as [_ Hup].
  assert (plain_path (pp_comps (pure_path directory))) as Hp.
  { pose proof (pure_path_comps directory) as Hcs. apply list.Forall_forall. intros c Hin. rewrite list.Forall_forall in Hcs. destruct (Hcs c Hin) as (H1 & H2 & _).
    apply mem_not_elem in Hup. unfold plain_name. apply negb_true_iff, mem_not_elem. unfold strs. simpl. intros Hx. set_solver. }
  eapply obs_bind; [by apply OciLoadSafe.obs_open_root|]. intros top Htop. eapply obs_bind; [apply (obs_open_parts _ Hp [] top Htop Hroot)|]. intros d Hd. apply obs_closing; [done|].
  eapply obs_bind; [by apply obs_query|]. intros s _. eapply obs_bind; [apply obs_raise_if|]. intros ? _. by apply obs_ret.
Qed.

Lemma obs_read_record D d name : names f0 !! D = Some d -> is_dir_at f0 D = true -> plain_name name = true ->
  observes f0 (read_record d name) (fun x => exists r n, names f0 !! (D ++ [name]) = Some r /\ nodes f0 !! r = Some n /\ i_kind n = KFile x.1).
Proof.
  intros HD Hd Hn. unfold read_record. eapply obs_bind; [by apply obs_query|]. intros file Ho.
  destruct (openat_child f0 D d false name file Hwf HD Hd Hn Ho) as (Hfile & _ & n & Hnode & _). apply obs_finally; [|by eapply obs_any, obs_query].
  eapply obs_bind; [by apply obs_query|]. intros s Hs. unfold fs_fstat in Hs. rewrite Hnode in Hs. injection Hs as <-.
  eapply obs_bind; [apply obs_raise_if|]. intros ? Hc. repeat (apply orb_false_iff in Hc as [Hc ?]). apply negb_false_iff in Hc. apply s_isreg_kind in Hc as [data Hk].
  eapply obs_bind; [by apply obs_query|]. intros content Hr. unfold fs_read in Hr. rewrite Hnode, Hk in Hr. injection Hr as <-.
  eapply obs_bind; [by apply obs_query|]. intros named _. eapply obs_bind; [apply obs_raise_if|]. intros ? Hl.
  eapply obs_bind; [by apply obs_query|]. intros again _. eapply obs_bind; [apply obs_raise_if|]. intros ? _. apply obs_ret. exists file, n. cbn [fst].
  apply negb_false_iff, Z.eqb_eq in Hl. rewrite take_ge; [done|]. unfold zlen in Hl. rewrite length_take in Hl.
  match goal with Hb : negb (_ && _) = false |- _ => apply negb_false_iff, andb_true_iff in Hb as [_ Hb] end. lia.
Qed.

Lemma record_name_plain name : record_name export = Ok name -> plain_name name = true.
Proof.
  unfold record_name. intros Hn. inv_ok. destruct a, a3; try done. injection Hn as <-. apply Publish.long_plain. rewrite length_app. cbn [length app].
  rewrite length_app. change (length (str ".json")) with 5%nat. lia.
Qed.

(** What a bound object knows. *)
Definition knows (v : guard) : Prop := exists d name r n,
  record_name export = Ok name /\
  placed f0 (pp_comps (pure_path directory)) d name (str ".g8-diagnostic-hold-" ++ hold_hex) r n /\
  bound_at d name (str ".g8-diagnostic-hold-" ++ hold_hex) v.

(** A call that only looks, before anything was changed. *)
Lemma stepping_first {A B} v (m : M A) phi (k : A -> step guard B) R : g_hidden v = false -> observes f0 m phi ->
  (forall a, phi a -> stepping v (fun f => f = f0) (k a) R (calm f0)) -> stepping v (fun f => f = f0) (sbind (perform m) k) R (calm f0).
Proof.
  intros Hv Hm Hk. apply (stepping_call v _ _ _ (fun a f => f = f0 /\ phi a)).
  - eapply triple_conseq; [exact Hm|done|done|]. intros f ->. by split.
  - intros a. apply stepping_pre. intros f [-> Ha]. by apply Hk.
Qed.

Lemma kept {A} (m : M A) : keeps (fun g => g = f0) m -> observes f0 m (fun _ => True).
Proof. apply keeps_observes. Qed.

Lemma bind_body_steps : stepping fresh_guard (fun f => f = f0) (bind_body directory export binary hold_hex) (fun _ v f => f = f0 /\ knows v) (calm f0).
Proof.
  unfold bind_body. eapply stepping_first; [done|apply obs_lift|]. intros name Hname. apply stepping_assign.
  eapply stepping_first; [done|apply obs_record_directory|]. intros d [HD Hd]. apply stepping_assign. pose proof (record_name_plain name Hname) as Hp.
  eapply stepping_first; [done|by apply (obs_read_record _ d name HD Hd Hp)|]. intros original (r & n & Hr & Hn & Hk). apply stepping_assign.
  do 4 (eapply stepping_first; [done|apply kept; solve [eauto with keeps]|]; intros ? _). apply stepping_assign.
  eapply stepping_first; [done|apply kept; solve [eauto with keeps]|]. intros pidfd _. apply stepping_assign.
  do 4 (eapply stepping_first; [done|apply kept; solve [eauto with keeps]|]; intros ? _).
  apply stepping_set. intros f ->. split; [done|]. exists d, name, r, n. split_and!; [done| |by constructor].
  constructor; try done. by eexists.
Qed.

(** Leaving an object that hides nothing. *)
Lemma exit_calm v : g_hidden v = false -> stepping v (fun f => f = f0) (exit directory remove_hex) (fun _ => calm f0) (calm f0).
Proof.
  intros Hv w Hw. unfold exit, closing_fds, self. rewrite Hv. unfold mbind at 1, perform at 1, mret at 1. cbn [fst snd].
  assert (keeps (fun f => f = f0) (close_some (g_pidfd v) ;;; close_some (g_fd v))) as Hc.
  { apply keeps_bind; [by apply keeps_close_some|]. intros _. by apply keeps_close_some. }
  specialize (Hc w Hw). unfold mbind at 1, perform. destruct ((_ ;;; _) w) as [[u|e] w2]; by split.
Qed.

(** The end of a method that leaves the object when it fails. *)
Definition over (v : guard) (f : fs) : Prop := calm f0 v f \/
  exists d name r n, record_name export = Ok name /\
    placed f0 (pp_comps (pure_path directory)) d name (str ".g8-diagnostic-hold-" ++ hold_hex) r n /\
    somewhere f0 (pp_comps (pure_path directory)) name (str ".g8-diagnostic-hold-" ++ hold_hex) r f.

Lemma bind_steps : stepping fresh_guard (fun f => f = f0) (bind directory export binary hold_hex remove_hex) (fun _ v f => f = f0 /\ knows v) (calm f0).
Proof.
  intros w Hw. unfold bind, or_exit, mbind at 1. pose proof (bind_body_steps w Hw) as Hb.
  destruct (bind_body _ _ _ _ fresh_guard w) as [[[v [u|e]]|e] w1]; [done| |done]. destruct Hb as [Hf Hv]. cbn [fst snd] in *.
  pose proof (exit_calm v Hv w1 Hf) as He. unfold mbind. destruct (exit _ _ v w1) as [[[v' [x|e']]|e'] w2]; done.
Qed.

(** Entering hides the record, or everything is as it was, or the record is in one of its places. *)
Definition entered (v : guard) (f : fs) : Prop := exists d name r n, record_name export = Ok name /\
  placed f0 (pp_comps (pure_path directory)) d name (str ".g8-diagnostic-hold-" ++ hold_hex) r n /\
  hiding d name (str ".g8-diagnostic-hold-" ++ hold_hex) v (if fifo then WithFifo else Hidden) /\
  is_shape f0 (pp_comps (pure_path directory)) name (str ".g8-diagnostic-hold-" ++ hold_hex) r (if fifo then WithFifo else Hidden) f.

Lemma enter_steps : stepping fresh_guard (fun f => f = f0) (enter directory export binary fifo hold_hex remove_hex) (fun _ => entered) over.
Proof.
  intros w Hw. unfold enter, or_exit. unfold mbind at 1, sbind, mbind at 1. pose proof (bind_steps w Hw) as Hb.
  destruct (bind _ _ _ _ _ fresh_guard w) as [[[v [u|e]]|e] w1]; [| |done]; cbn [fst snd] in *.
  - destruct Hb as [Hf (d & name & r & n & Hn & Hpl & Hv)]. pose proof (hide_steps Hquiet directory binary fifo f0 Hwf Hfresh _ d name _ r n Hpl v Hv w1 Hf) as Hh.
    destruct (hide _ _ _ v w1) as [[[v1 [x|e]]|e] w2]; [| |done]; cbn [fst snd] in *; [change (entered v1 (w_fs w2)); by exists d, name, r, n|].
    destruct Hh as [[Hf2 Hc]|(s & Hi & Hs)].
    + pose proof (exit_calm v1 Hc w2 Hf2) as He. unfold mbind. destruct (exit _ _ v1 w2) as [[[v2 [y|e2]]|e2] w3]; try done; by left.
    + pose proof (exit_steps Hquiet directory remove_hex f0 Hwf Hfresh _ d name _ r n Hpl v1 s Hi w2 Hs) as He. unfold mbind.
      destruct (exit _ _ v1 w2) as [[[v2 [y|e2]]|e2] w3]; [| |done]; right; exists d, name, r, n; split_and!; try done. by exists AtName.
  - destruct Hb as [Hf Hv]. pose proof (exit_calm v Hv w1 Hf) as He. unfold mret at 1, mbind. cbn [fst snd]. destruct (exit _ _ v w1) as [[[v2 [y|e2]]|e2] w3]; try done; by left.
Qed.
End entering.

(** ** The guarded block *)

(** Every file there was is as it was. *)
Definition untouched (f0 f : fs) : Prop := forall i n, nodes f0 !! i = Some n -> nodes f !! i = Some n.
Definition back (f0 f : fs) : Prop := names f = names f0 /\ untouched f0 f.

(** The record has the name it is held under; every other name is as before, and what has a
    new name, or the record's, is a FIFO that was made since. *)
Definition hidden_away (directory : pystr) (export : dict) (hold_hex : pystr) (f0 f : fs) : Prop :=
  untouched f0 f /\ exists name r n data, record_name export = Ok name /\
    let N := pp_comps (pure_path directory) ++ [name] in
    let H := pp_comps (pure_path directory) ++ [str ".g8-diagnostic-hold-" ++ hold_hex] in
    names f0 !! N = Some r /\ nodes f0 !! r = Some n /\ i_kind n = KFile data /\ names f0 !! H = None /\ names f !! H = Some r /\
    (forall k, k <> N -> is_Some (names f0 !! k) -> names f !! k = names f0 !! k) /\
    (forall k i, k <> H -> names f0 !! k = None \/ k = N -> names f !! k = Some i ->
       nodes f0 !! i = None /\ exists m, nodes f !! i = Some m /\ i_kind m = KSpecial Fifo).

Section block.
Context `{machine} `{processes} (Hquiet : quiet).
Context (directory : pystr) (export : dict) (binary : pystr) (fifo : bool) (hold_hex remove_hex : pystr).
Context (f0 : fs) (Hwf : fs_wf f0) (Hfresh : fresh_ok f0) (Hroot : is_dir_at f0 [] = true).

Lemma shape_untouched D name held r s f : is_shape f0 D name held r s f -> untouched f0 f.
Proof. intros Hs i n Hi. rewrite (sh_nodes _ _ _ _ _ _ _ Hs); [done|]. pose proof (Hfresh _ _ Hi). lia. Qed.

Lemma new_inode : nodes f0 !! fresh f0 = None.
Proof. destruct (nodes f0 !! fresh f0) as [n|] eqn:E; [|done]. pose proof (Hfresh _ _ E). lia. Qed.

Lemma shape_hidden d name r n s f : record_name export = Ok name ->
  placed f0 (pp_comps (pure_path directory)) d name (str ".g8-diagnostic-hold-" ++ hold_hex) r n ->
  is_shape f0 (pp_comps (pure_path directory)) name (str ".g8-diagnostic-hold-" ++ hold_hex) r s f -> s <> AtName -> hidden_away directory export hold_hex f0 f.
Proof.
  intros Hn Hpl Hs Hne. split; [by eapply shape_untouched|]. destruct (pl_file _ _ _ _ _ _ _ Hpl) as [data Hk]. exists name, r, n, data. split; [done|]. cbv zeta.
  set (N := _ ++ [name]). set (H1 := _ ++ [_]). pose proof (sh_names _ _ _ _ _ _ _ Hs) as Hnames. pose proof (sh_free _ _ _ _ _ _ _ Hs) as Hfree. pose proof (sh_fifo _ _ _ _ _ _ _ Hs) as Hfifo.
  assert (names f0 !! H1 = None) as Hh by (destruct s; naive_solver). pose proof (names_apart f0 _ _ _ _ _ _ Hpl Hh) as Hap. fold N H1 in Hap.
  assert (names f0 !! N = Some r) as HN by apply Hpl.
  split_and!; [done|apply Hpl|done|done| | |]; rewrite Hnames; destruct s as [| | |q]; try done; cbn [shape_names shape_free shape_fifo] in *; unfold away; fold N H1.
  - apply lookup_insert_eq.
  - rewrite lookup_insert_ne by done. apply lookup_insert_eq.
  - destruct Hfree as (_ & _ & _ & Hq). rewrite lookup_insert_ne by (intros E; by simplify_list_eq). apply lookup_insert_eq.
  - intros k H2 [i Hi]. rewrite lookup_insert_ne, lookup_delete_ne by congruence. done.
  - intros k H2 [i Hi]. rewrite !lookup_insert_ne, lookup_delete_ne by congruence. done.
  - destruct Hfree as (_ & _ & Hq & _). intros k H2 [i Hi]. rewrite !lookup_insert_ne, lookup_delete_ne by congruence. done.
  - intros k i H2 Hor. rewrite lookup_insert_ne by done. intros [Hne' Hi]%lookup_delete_Some. destruct Hor as [Hor| ->]; [by rewrite Hor in Hi|done].
  - intros k i H2 Hor Hi. assert (i = fresh f0) as ->; [|split; [apply new_inode|exact Hfifo]]. apply lookup_insert_Some in Hi as [[_ Hi]|[Hk2 Hi]]; [done|].
    rewrite lookup_insert_ne in Hi by done. apply lookup_delete_Some in Hi as [Hne' Hi]. destruct Hor as [Hor| ->]; [by rewrite Hor in Hi|done].
  - intros k i H2 Hor Hi. assert (i = fresh f0) as ->; [|split; [apply new_inode|exact Hfifo]]. apply lookup_insert_Some in Hi as [[_ Hi]|[Hk2 Hi]]; [done|].
    rewrite lookup_insert_ne in Hi by done. apply lookup_delete_Some in Hi as [Hne' Hi]. destruct Hor as [Hor| ->]; [by rewrite Hor in Hi|done].
Qed.

Lemma shape_ends d name r n f : record_name export = Ok name ->
  placed f0 (pp_comps (pure_path directory)) d name (str ".g8-diagnostic-hold-" ++ hold_hex) r n ->
  somewhere f0 (pp_comps (pure_path directory)) name (str ".g8-diagnostic-hold-" ++ hold_hex) r f -> back f0 f \/ hidden_away directory export hold_hex f0 f.
Proof.
  intros Hn Hpl [s Hs]. destruct (decide (s = AtName)) as [->|Hne]; [left|right; by eapply shape_hidden].
  split; [apply (sh_names _ _ _ _ _ _ _ Hs)|by eapply shape_untouched].
Qed.

Lemma back_refl : back f0 f0.
Proof. split; [done|]. by intros i n Hi. Qed.

Lemma with_hidden_triple {A} (body : guard -> M A) :
  (forall g f, hidden_away directory export hold_hex f0 f -> keeps (fun x => x = f) (body g)) ->
  triple (fun f => f = f0) (with_hidden directory export binary fifo hold_hex remove_hex body) (fun _ => back f0)
    (fun f => back f0 f \/ hidden_away directory export hold_hex f0 f).
Proof.
  intros Hbody w Hw. unfold with_hidden. unfold mbind at 1. pose proof (enter_steps Hquiet directory export binary fifo hold_hex remove_hex f0 Hwf Hfresh Hroot w Hw) as He.
  destruct (enter _ _ _ _ _ _ fresh_guard w) as [[[v [u|e]]|e] w1]; [| |done]; cbn [fst snd] in *.
  - destruct He as (d & name & r & n & Hn & Hpl & Hv & Hs). pose proof (shape_hidden d name r n _ _ Hn Hpl Hs ltac:(by destruct fifo)) as Haway.
    pose proof (Hbody v _ Haway w1 eq_refl) as Hb. unfold mbind at 1, perform. destruct (body v w1) as [x w2]. cbn [fst snd].
    assert (w_fs w2 = w_fs w1) as E by (by destruct x). rewrite <-E in Hs. clear Hb.
    pose proof (exit_steps Hquiet directory remove_hex f0 Hwf Hfresh _ d name _ r n Hpl v _ Hv w2 Hs) as Hx. unfold mbind.
    destruct (exit _ _ v w2) as [[[v2 [y|e2]]|e2] w3]; [| |done]; cbn [fst snd] in *.
    + assert (back f0 (w_fs w3)) as Hback by (split; [apply (sh_names _ _ _ _ _ _ _ Hx)|by eapply shape_untouched]). destruct x; [exact Hback|by left].
    + by eapply shape_ends.
  - destruct He as [[Hf _]|(d & name & r & n & Hn & Hpl & Hs)]; [|by eapply shape_ends]. cbn. rewrite Hf. left. apply back_refl.
Qed.

(** Killing the process changes no file. *)
Lemma kill_changes_nothing parent_pid cgroup timeout :
  keeps (fun f => f = f0) (kill_native_export directory export binary hold_hex remove_hex parent_pid cgroup timeout).
Proof.
  unfold kill_native_export. apply keeps_bind; [apply keeps_raise_if|]. intros _ w Hw. unfold mbind at 1.
  pose proof (bind_steps Hquiet directory export binary hold_hex remove_hex f0 Hwf Hfresh Hroot w Hw) as Hb.
  assert (forall g, keeps (fun f => f = f0) (kill_body directory binary parent_pid cgroup timeout g)) as Hk.
  { intros g. unfold kill_body, unchanged_record, send_signal, StorageMount.StorageMount.read_utf8. see; try apply keeps_read_bytes; eauto with keeps. }
  assert (forall v (x : res killed), g_hidden v = false -> keeps (fun f => f = f0) (let* gone := exit directory remove_hex v in
    match gone.2, x with Err e, _ => reraise e | Ok _, Ok k => mret k | Ok _, Err e => reraise e end)) as Hexit.
  { intros v x Hh w1 Hw1. pose proof (exit_calm Hquiet directory remove_hex f0 v Hh w1 Hw1) as He. unfold mbind.
    destruct (exit _ _ v w1) as [[[v2 [y|e2]]|e2] w3]; [| |done]; cbn [fst snd] in *; destruct He as [He _]; by destruct x. }
  destruct (bind _ _ _ _ _ fresh_guard w) as [[[v [u|e]]|e] w1]; [| |done]; cbn [fst snd] in *.
  - destruct Hb as [Hf (d & name & r & n & _ & _ & Hv)]. unfold mbind at 1, perform. specialize (Hk v w1 Hf). destruct (kill_body _ _ _ _ _ v w1) as [x w2]. cbn [fst snd].
    assert (w_fs w2 = f0) as E by (by destruct x). exact (Hexit v x (ba_hidden _ _ _ _ Hv) w2 E).
  - destruct Hb as [Hf Hv]. unfold mbind at 1, mret at 1. cbn [fst snd]. exact (Hexit v (Err e) Hv w1 Hf).
Qed.
End block.

(** C19. While the record is hidden, and whatever fails, it has its bytes and one of its two names:
    nothing replaces it, no other file or name is touched, and only a FIFO of the guard may be
    left beside it.  When the guarded block ends without an error, the names are exactly those
    of before. *)
Theorem hidden_record_restored `{machine} `{processes} {A} directory export binary fifo hold_hex remove_hex (body : guard -> M A) w : quiet ->
  fs_wf (w_fs w) -> fresh_ok (w_fs w) -> is_dir_at (w_fs w) [] = true ->
  (forall g f, hidden_away directory export hold_hex (w_fs w) f -> keeps (fun x => x = f) (body g)) ->
  match with_hidden directory export binary fifo hold_hex remove_hex body w with
  | (Ok _, w') => back (w_fs w) (w_fs w')
  | (Err _, w') => back (w_fs w) (w_fs w') \/ hidden_away directory export hold_hex (w_fs w) (w_fs w')
  end.
Proof. intros Hq Hwf Hf Hr Hb. exact (with_hidden_triple Hq directory export binary fifo hold_hex remove_hex (w_fs w) Hwf Hf Hr body Hb w eq_refl). Qed.

(** ** A lab process *)

Definition hex_a (k : nat) : pystr := repeat 97 k.
Definition native_boot : pystr := str "00000000-0000-4000-8000-000000000000".
Definition native_binary : pystr := str "/usr/lib/mkvsock-nbd".
Definition native_export : dict :=
  [(str "sandbox_id", VStr (str "box")); (str "sandbox_generation", VStr (hex_a 32)); (str "state", VStr (str "ACTIVE")); (str "path", VStr (str "/img"));
   (str "port", VInt 7000); (str "image_id", VStr (str "root-1")); (str "export_generation", VStr (hex_a 32)); (str "peer_cid", VInt 40);
   (str "image_identity", VDict [(str "device", VInt 1); (str "inode", VInt 12)])].
Definition native_record : pyval := VDict
  [(str "version", VInt 5); (str "boot_id", VStr native_boot); (str "path", VStr (str "/img")); (str "port", VInt 7000); (str "image_id", VStr (str "root-1"));
   (str "export_generation", VStr (hex_a 32)); (str "peer_cid", VInt 40); (str "image_device", VInt 1); (str "image_inode", VInt 12);
   (str "pid", VInt 100); (str "start_time", VInt 55); (str "binary_device", VInt 1); (str "binary_inode", VInt 11)].
Definition native_node (k : kind) : inode := Inode k 0x1ED 0 0 1 1 3 3 [].
Definition native_fs : fs :=
  let dirs := map abs_path ["/"; "/run"; "/proc"; "/proc/sys"; "/proc/sys/kernel"; "/proc/sys/kernel/random"; "/proc/100"; "/proc/100/fd"] in
  let others := [(abs_path "/run/native", Inode KDir 0x1C0 0 0 1 2 3 3 []);
    (abs_path "/run/native" ++ [str "box-" ++ hex_a 12 ++ str ".json"], Inode (KFile (ascii_bytes (dumps no_floats plain native_record))) 0x180 0 0 1 1 3 3 []);
    (abs_path "/proc/100/exe", native_node (KFile [])); (abs_path "/proc/100/fd/3", native_node (KFile []));
    (abs_path "/proc/100/stat", native_node (KFile (ascii_bytes (str "100 (nbd) S 2 0 0 0 0 0 0 0 0 0 0 0 0 0 0 0 0 0 55 0"))));
    (abs_path "/proc/100/cmdline", native_node (KFile (ascii_bytes (join_with 0 [native_binary; str "server"; str "/proc/self/fd/3"; str "7000"; str "root-1"; hex_a 32; str "40"; []]))));
    (abs_path "/proc/sys/kernel/random/boot_id", native_node (KFile (ascii_bytes (native_boot ++ [10]))))] in
  let all := map (fun p => (p, native_node KDir)) dirs ++ others in
  FS (list_to_map (imap (fun i e => (e.1, Z.of_nat i + 1)) all)) (list_to_map (imap (fun i e => (Z.of_nat i + 1, e.2)) all)) 99 7.
Definition native_start : world := World native_fs 0.
#[local] Instance native_processes : processes := Processes (fun _ _ => Ok 1000) (fun _ _ _ => Ok tt) (fun _ _ _ => Ok true) (fun _ => []).

Definition native_run (m : machine) (fifo : bool) : res pyval * world :=
  @with_hidden m native_processes (str "/run/native") native_export native_binary fifo (hex_a 32) (hex_a 32) pyval (fun g => lift (proof_of fifo g)) native_start.
Definition returns {A} (r : res A * world) : bool := match r with (Ok _, _) => true | _ => false end.

Lemma native_runs : returns (native_run here true) && returns (native_run here false) = true.
Proof. vm_cast_no_check (@eq_refl bool true). Qed.
Lemma native_wf : fs_wfb native_fs && fresh_okb native_fs && is_dir_at native_fs [] = true.
Proof. vm_cast_no_check (@eq_refl bool true). Qed.

Lemma hidden_record_restored_witness : returns (native_run here true) = true /\ back native_fs (w_fs (native_run here true).2).
Proof.
  pose proof native_runs as Hok. apply andb_true_iff in Hok as [Hok _]. split; [exact Hok|]. pose proof native_wf as Hw. change native_fs with (w_fs native_start) in *.
  apply andb_true_iff in Hw as [Hw Hr]. apply andb_true_iff in Hw as [Hw Hf]. apply fs_wfb_ok in Hw. apply fresh_okb_ok in Hf. revert Hok Hw Hf Hr. unfold native_run. generalize native_start. intros w Hok Hw Hf Hr.
  pose proof (@hidden_record_restored here native_processes pyval (str "/run/native") native_export native_binary true (hex_a 32) (hex_a 32) (fun g => lift (proof_of true g)) w
    (lone_quiet _ _) Hw Hf Hr (fun g f _ => keeps_lift _ _)) as Ht.
  destruct (with_hidden _ _ _ _ _ _ _ w) as [[a|e] w']; [exact Ht|discriminate Hok].
Defined.

(** The process is killed and its record kept. *)
Example native_kill : returns (@kill_native_export here native_processes (str "/run/native") native_export native_binary (hex_a 32) (hex_a 32) 2 (str "0::/lab") 5
  (World (FS (<[abs_path "/proc/100/cgroup" := 50]> (names native_fs)) (<[50 := native_node (KFile (ascii_bytes (str "0::/lab")))]> (nodes native_fs)) 99 7) 0)) = true.
Proof. vm_compute. reflexivity. Qed.

(** When the FIFO was made but cannot be looked at, its identity is unknown, and leaving finds
    the record's name occupied by it: the record stays under the name it is held under. *)
Example unseen_fifo_blocks : let '(r, w) := native_run (lone_machine superuser [50%nat]) true in
  (match r with Ok _ => false | Err _ => true end,
   match node_at (w_fs w) (abs_path "/run/native" ++ [str "box-" ++ hex_a 12 ++ str ".json"]) with Some (_, n) => match i_kind n with KSpecial Fifo => true | _ => false end | None => false end,
   names (w_fs w) !! (abs_path "/run/native" ++ [str ".g8-diagnostic-hold-" ++ hex_a 32])) = (true, true, Some 10).
Proof. vm_compute. reflexivity. Qed.
End NativeRecordSafe.
