(* ===== verification/Deployment.v ===== *)
(** * Managed deployments of services and configuration
    (scripts/manage-runtime-deployment.py)

    A deployment is an immutable directory named by the digest of its files; the
    selector [current] and a fixed set of symbolic links make one deployment active.
    The whole program is modelled: the two input validators, the verification of an
    installed deployment, activation with its rollback, installation, the storage
    size update, inspection, removal and the command line. *)
From Stdlib Require Import ZArith Lia.
From Stdlib Require Import Init.Byte.
From stdpp Require Import base list sets strings option gmap.
From S2P Require Import Prelude PyStr PyVal Bytes Json Sys.

Open Scope string_scope.
Open Scope list_scope.
Open Scope Z_scope.

Module Deployment.

Definition BASE : path := abs_path "/etc/multikernel".

(** The files of a deployment, with their sources below the repository. *)
Definition ASSETS : list (pystr * pystr) :=
  [(str "systemd/sys-fs-multikernel.mount", str "deploy/systemd/sys-fs-multikernel.mount");
   (str "systemd/mkruntimed.service", str "deploy/systemd/mkruntimed.service");
   (str "systemd/multikernel-modules.service", str "deploy/systemd/multikernel-modules.service");
   (str "systemd/mknetd.service", str "deploy/systemd/mknetd.service");
   (str "cni/10-multikernel.conf", str "deploy/cni/10-multikernel.conf");
   (str "containerd/20-multikernel-runtime.toml", str "deploy/containerd/20-multikernel-runtime.toml");
   (str "libexec/build-runtime-container-initramfs.sh", str "scripts/build-runtime-container-initramfs.sh");
   (str "libexec/validate-runtime-oci.py", str "scripts/validate-runtime-oci.py");
   (str "libexec/materialize-runtime-binds.py", str "scripts/materialize-runtime-binds.py");
   (str "libexec/validate-runtime-bootstrap.py", str "scripts/validate-runtime-bootstrap.py");
   (str "libexec/validate-runtime-docker-root.py", str "scripts/validate-runtime-docker-root.py");
   (str "libexec/validate-runtime-root.py", str "scripts/validate-runtime-root.py");
   (str "libexec/validate-runtime-image.py", str "scripts/validate-runtime-image.py");
   (str "libexec/build-runtime-rootfs.py", str "scripts/build-runtime-rootfs.py");
   (str "libexec/runtime_safe_publish.py", str "scripts/runtime_safe_publish.py");
   (str "libexec/runtime_support_exec.py", str "scripts/runtime_support_exec.py");
   (str "libexec/runtime-storage-identity.py", str "scripts/runtime-storage-identity.py");
   (str "libexec/validate-runtime-storage-mount.py", str "scripts/validate-runtime-storage-mount.py");
   (str "libexec/build-runtime-storage.py", str "scripts/build-runtime-storage.py");
   (str "libexec/verify-runtime-rootfs.py", str "scripts/verify-runtime-rootfs.py");
   (str "libexec/guest/mk-agent-init", str "guest/mk-agent-init");
   (str "libexec/guest/runtime-mediated-init", str "guest/runtime-mediated-init")].

Definition LINKS : list (path * pystr) :=
  [(abs_path "/etc/multikernel/runtime.env", str "runtime.env");
   (abs_path "/etc/mkruntime/config.json", str "mkruntime/config.json");
   (abs_path "/etc/systemd/system/sys-fs-multikernel.mount", str "systemd/sys-fs-multikernel.mount");
   (abs_path "/etc/systemd/system/mkruntimed.service", str "systemd/mkruntimed.service");
   (abs_path "/etc/systemd/system/multikernel-modules.service", str "systemd/multikernel-modules.service");
   (abs_path "/etc/systemd/system/mknetd.service", str "systemd/mknetd.service");
   (abs_path "/etc/cni/net.d/10-multikernel.conf", str "cni/10-multikernel.conf");
   (abs_path "/etc/containerd/conf.d/20-multikernel-runtime.toml", str "containerd/20-multikernel-runtime.toml");
   (abs_path "/usr/local/libexec/multikernel/build-runtime-container-initramfs.sh", str "libexec/build-runtime-container-initramfs.sh");
   (abs_path "/usr/local/libexec/multikernel/validate-runtime-oci.py", str "libexec/validate-runtime-oci.py");
   (abs_path "/usr/local/libexec/multikernel/materialize-runtime-binds.py", str "libexec/materialize-runtime-binds.py");
   (abs_path "/usr/local/libexec/multikernel/validate-runtime-bootstrap.py", str "libexec/validate-runtime-bootstrap.py");
   (abs_path "/usr/local/libexec/multikernel/validate-runtime-docker-root.py", str "libexec/validate-runtime-docker-root.py");
   (abs_path "/usr/local/libexec/multikernel/validate-runtime-root.py", str "libexec/validate-runtime-root.py");
   (abs_path "/usr/local/libexec/multikernel/validate-runtime-image.py", str "libexec/validate-runtime-image.py");
   (abs_path "/usr/local/libexec/multikernel/build-runtime-rootfs.py", str "libexec/build-runtime-rootfs.py");
   (abs_path "/usr/local/libexec/multikernel/runtime_safe_publish.py", str "libexec/runtime_safe_publish.py");
   (abs_path "/usr/local/libexec/multikernel/runtime_support_exec.py", str "libexec/runtime_support_exec.py");
   (abs_path "/usr/local/libexec/multikernel/runtime-storage-identity.py", str "libexec/runtime-storage-identity.py");
   (abs_path "/usr/local/libexec/multikernel/validate-runtime-storage-mount.py", str "libexec/validate-runtime-storage-mount.py");
   (abs_path "/usr/local/libexec/multikernel/build-runtime-storage.py", str "libexec/build-runtime-storage.py");
   (abs_path "/usr/local/libexec/multikernel/verify-runtime-rootfs.py", str "libexec/verify-runtime-rootfs.py");
   (abs_path "/usr/local/libexec/multikernel/guest/mk-agent-init", str "libexec/guest/mk-agent-init");
   (abs_path "/usr/local/libexec/multikernel/guest/runtime-mediated-init", str "libexec/guest/runtime-mediated-init")].

Definition EXECUTABLES : list pystr := List.filter (fun name => startswith name (str "libexec/")) (map fst ASSETS).
Definition CURRENT_FILES : list pystr := map snd LINKS.

(** The file sets of this and earlier versions. *)
Definition KNOWN_FILE_SETS : list (list pystr) :=
  flat_map (fun missing =>
    flat_map (fun modules =>
      map (fun docker =>
        List.filter (fun f => negb (mem f missing || mem f modules || mem f docker)) CURRENT_FILES)
        [[]; strs ["libexec/validate-runtime-docker-root.py"]])
      [[]; strs ["systemd/multikernel-modules.service"]])
    [[]; strs ["libexec/validate-runtime-storage-mount.py"]; strs ["libexec/runtime_support_exec.py"];
     strs ["libexec/runtime_support_exec.py"; "libexec/validate-runtime-storage-mount.py"]].

Definition ENV_KEYS : list pystr := strs
  ["MKRUNTIME_POOL_CPUS"; "MKRUNTIME_POOL_MEMORY"; "MKRUNTIME_POOL_MEMORY_RESERVE";
   "MKRUNTIME_CMDLINE"; "MKNETWORK_SUBNET"; "MKNETWORK_EGRESS"; "MKNETWORK_MTU";
   "MKNETWORK_DNS"; "MKRUNTIME_STORAGE_MOUNT"; "MKRUNTIME_STORAGE_DEVICE";
   "MKRUNTIME_STORAGE_SERIAL"; "MKRUNTIME_STORAGE_BYTES"; "MKRUNTIME_STORAGE_LABEL";
   "MKRUNTIME_STORAGE_UUID"].

Definition HOST_FIELDS : list pystr := strs
  ["schema_version"; "state_directory"; "socket_path"; "kerf_executable";
   "multikernel_sysfs_root"; "kernel_manifest_directory"; "min_primary_cpus";
   "min_primary_memory_bytes"; "forbidden_apic_ids"; "backend_timeout_seconds";
   "max_frame_size_bytes"].

Definition rooted (root absolute : path) : path := root ++ absolute.

Definition strict_json_bytes (data : bytes) : res pyval :=
  loads_bytes (strict_pairs ValueError "duplicate JSON key" []) float_constant data.

(** ** The runtime environment *)

(** A line that is neither blank nor a comment. *)
Definition assignment (line : pystr) : bool := negb (line =s str "") && negb (startswith line (str "#")).

Definition KEY : re := Plus (Cls (fun c => in_range 65 90 c || is_ascii_digit c || (c =? 95))).

(** The first loop: the keys seen. *)
Definition key_step (seen : list pystr) (raw : pystr) : res (list pystr) :=
  let line := strip raw in
  if negb (assignment line) then Ok seen
  else
    match split_once EQUALS line with
    | None => raise ValueError "runtime environment contains a malformed assignment"
    | Some (key, value) =>
        raise_if (negb (mem key ENV_KEYS) || mem key seen || (value =s str "") || negb (fullmatch KEY key))
          ValueError "runtime environment keys are missing, duplicate, unknown, or empty" ;;
        Ok (key :: seen)
    end.

(** The second loop: the values. *)
Definition value_step (values : list (pystr * pystr)) (raw : pystr) : list (pystr * pystr) :=
  let line := strip raw in
  if assignment line then
    match split_once EQUALS line with Some (key, value) => aset key value values | None => values end
  else values.

Definition token_char (c : Z) : bool := is_alnum c || one_of "._+-" c.
Definition STORAGE_PATH : re := Cat (Lit "/") (Rep (Cls (fun c => token_char c || (c =? SLASH))) 1 4095).
Definition STORAGE_TOKEN : re := Cat (Cls is_alnum) (Rep (Cls token_char) 0 127).
Definition HEX_GROUP (n : nat) : re := Rep LOWER_HEX n n.
Definition STORAGE_UUID : re :=
  Cat (HEX_GROUP 8) (Cat (Lit "-") (Cat (HEX_GROUP 4) (Cat (Lit "-") (Cat (HEX_GROUP 4) (Cat (Lit "-")
    (Cat (HEX_GROUP 4) (Cat (Lit "-") (HEX_GROUP 12)))))))).

Definition value_at (values : list (pystr * pystr)) (key : string) : res pystr :=
  match alookup (str key) values with Some v => Ok v | None => raise KeyError "" end.

Definition check_storage_path (values : list (pystr * pystr)) (u : unit) (key : string) : res unit :=
  let! value := value_at values key in
  raise_if (negb (startswith value (str "/")) || negb (normpath value =s value) || negb (fullmatch STORAGE_PATH value))
    ValueError "runtime storage path is unsafe".

Definition check_storage_token (values : list (pystr * pystr)) (u : unit) (key : string) : res unit :=
  let! value := value_at values key in
  raise_if (negb (fullmatch STORAGE_TOKEN value)) ValueError "runtime storage token is unsafe".

Definition storage_bytes_invalid (value : pystr) : res bool :=
  if negb (isdigit value) then Ok true
  else let! n := int_of_digits value in Ok (negb ((0 <? n) && (n <=? 2 ^ 63)) || negb (n mod 512 =? 0)).

Definition validate_environment (data : bytes) : res unit :=
  let! text := match utf8_decode Strict data with
               | Ok t => Ok t
               | Err _ => raise ValueError "runtime environment is not UTF-8"
               end in
  let! seen := for_each key_step [] (splitlines text) in
  raise_if (negb (set_eq seen ENV_KEYS)) ValueError "runtime environment fields mismatch" ;;
  let values := foldl value_step [] (splitlines text) in
  for_each (check_storage_path values) tt ["MKRUNTIME_STORAGE_MOUNT"; "MKRUNTIME_STORAGE_DEVICE"] ;;
  let! mount := value_at values "MKRUNTIME_STORAGE_MOUNT" in
  raise_if (negb (mount =s str "/srv/multikernel-storage"))
    ValueError "runtime storage mount must match the managed service path" ;;
  for_each (check_storage_token values) tt ["MKRUNTIME_STORAGE_SERIAL"; "MKRUNTIME_STORAGE_LABEL"] ;;
  let! size := value_at values "MKRUNTIME_STORAGE_BYTES" in
  let! bad := storage_bytes_invalid size in
  raise_if bad ValueError "runtime storage byte size is invalid" ;;
  let! uuid := value_at values "MKRUNTIME_STORAGE_UUID" in
  raise_if (negb (fullmatch STORAGE_UUID uuid)) ValueError "runtime storage UUID is invalid".

(** ** The host configuration *)

Definition check_host_path (d : dict) (u : unit) (name : string) : res unit :=
  let! v := getitem (VDict d) (str name) in
  raise_if (match v with
            | VStr p => (4096 <? zlen p) || negb (startswith p (str "/"))
                        || negb (bool_decide (pure_path (normpath p) = pure_path p))
            | _ => true
            end) ValueError "host configuration path is unsafe".

Definition int_at (d : dict) (name : string) : res Z :=
  let! v := getitem (VDict d) (str name) in
  match v with
  | VInt n => Ok n
  | _ => raise ValueError "host configuration numeric field is not an integer"
  end.

(** [0 in ids] *)
Definition contains_zero (ids : list pyval) : bool := existsb (py_same (VInt 0)) ids.
Definition apic_id_bad (v : pyval) : bool := match v with VInt n => n <? 0 | _ => true end.

Definition apic_ids_invalid (v : pyval) : res bool :=
  match v with
  | VList ids =>
      if bool_decide (ids = []) || negb (contains_zero ids) || existsb apic_id_bad ids then Ok true
      else let! s := py_set ids in Ok (negb (length ids =? length s)%nat)
  | _ => Ok true
  end.

Definition validate_host_config (data : bytes) : res unit :=
  let! value := strict_json_bytes data in
  match value with
  | VDict d =>
      raise_if (negb (keys_are d HOST_FIELDS) || negb (get d (str "schema_version") == VInt 1))
        ValueError "host configuration fields or version mismatch" ;;
      for_each (check_host_path d) tt
        ["state_directory"; "socket_path"; "kerf_executable"; "multikernel_sysfs_root"; "kernel_manifest_directory"] ;;
      let! cpus := int_at d "min_primary_cpus" in
      let! memory := int_at d "min_primary_memory_bytes" in
      let! timeout := int_at d "backend_timeout_seconds" in
      let! frame := int_at d "max_frame_size_bytes" in
      raise_if ((cpus <? 1) || (memory <? 512 * 2 ^ 20) || negb ((1 <=? timeout) && (timeout <=? 3600))
                || negb ((4096 <=? frame) && (frame <=? 16 * 2 ^ 20)))
        ValueError "host configuration numeric field is outside the v1 bounds" ;;
      let! ids := getitem value (str "forbidden_apic_ids") in
      let! bad := apic_ids_invalid ids in
      raise_if bad ValueError "forbidden APIC IDs are invalid"
  | _ => raise ValueError "host configuration fields or version mismatch"
  end.

(** ** Deployment identity *)

Definition digest (data : bytes) : pystr := sha256 data.

Definition files_t : Type := list (pystr * bytes).

(** [name.encode() + b"\0" + digest.encode() + b"\n"] *)
Definition identity_line (name : pystr) (d : pystr) : res bytes :=
  let! raw := utf8_encode Strict name in
  let! dr := utf8_encode Strict d in
  Ok (raw ++ [x00] ++ dr ++ [x0a]).

Definition identifier (files : files_t) : res pystr :=
  let! lines := map_res (fun name => identity_line name (digest (default [] (alookup name files))))
    (sorted_strs (map fst files)) in
  Ok (sha256 (concat lines)).

(** ** Links *)

Definition link_target (destination : path) (internal : pystr) : pystr :=
  relpath (BASE ++ [str "current"] ++ rel_path internal) (removelast destination).

Section system.
Context `{machine}.

(** The files of the repository the script runs from. *)
Variable repo : path.

Definition secure_input (p : path) (limit : Z) : M bytes :=
  let* info := lstat p in
  let* unsafe := (if negb (s_isreg (st_mode info)) then mret true
                  else
                    let* l := is_symlink p in
                    mret (l || negb (st_nlink info =? 1) || negb (st_uid info =? euid me) || (limit <? st_size info))) in
  mraise_if unsafe ValueError "unsafe deployment input" ;;;
  let* data := read_bytes p in
  let* after := lstat p in
  mraise_if ((limit <? zlen data) ||
             negb (bool_decide ((st_dev info, st_ino info, st_size info, st_mtime_ns info, st_ctime_ns info)
                                = (st_dev after, st_ino after, st_size after, st_mtime_ns after, st_ctime_ns after))))
    ValueError "deployment input changed while reading" ;;;
  mret data.

Definition INPUT_LIMIT : Z := 2 ^ 20.

Definition deployment_files (runtime_env host_config : path) : M files_t :=
  let* assets := mmap (fun a : pystr * pystr =>
                   let* d := secure_input (repo ++ rel_path a.2) INPUT_LIMIT in mret (a.1, d)) ASSETS in
  let* e := secure_input runtime_env (64 * 2 ^ 10) in
  let* h := secure_input host_config INPUT_LIMIT in
  lift (validate_environment e) ;;;
  lift (validate_host_config h) ;;;
  mret (assets ++ [(str "runtime.env", e); (str "mkruntime/config.json", h)]).

Definition sync_directory (p : path) : M unit :=
  let* descriptor := open_ false true p in mfinally (fsync descriptor) (close descriptor).

Definition temporary_link (p : path) : path :=
  removelast p ++ [str "." ++ List.last p [] ++ str ".multikernel-" ++ int_repr getpid].

Definition atomic_symlink (target : pystr) (p : path) : M unit :=
  mkdir_parents 0x1FF (rev (removelast p)) ;;;
  let temporary := temporary_link p in
  let* e := lexists temporary in
  mraise_if e ValueError "temporary deployment link exists" ;;;
  symlink target temporary ;;;
  mcatch (rename temporary p ;;; sync_directory (removelast p))
    (fun e => ignore_not_found (unlink temporary) ;;; reraise e).

Definition managed_link (root destination : path) (internal : pystr) : M bool :=
  let p := rooted root destination in
  let* l := is_symlink p in
  if l then let* t := readlink p in mret (t =s link_target destination internal) else mret false.

(** The loop of [safe_directory]: [true] is its early [return]. *)
Fixpoint safe_components (current : path) (components : path) (create : bool) : M unit :=
  match components with
  | [] => mret tt
  | c :: t =>
      let current := current ++ [c] in
      let* present := lexists current in
      if negb present && negb create then mret tt
      else
        (if negb present then mkdir 0x1ED current else mret tt) ;;;
        let* info := lstat current in
        let* bad := (if negb (s_isdir (st_mode info)) then mret true
                     else let* l := is_symlink current in
                          mret (l || negb (st_uid info =? euid me) || negb (Z.land (st_mode info) 0x12 =? 0))) in
        mraise_if bad ValueError "unsafe deployment directory" ;;;
        safe_components current t create
  end.

Definition safe_directory (root absolute : path) (create : bool) : M unit := safe_components root absolute create.

(** ** Verifying an installed deployment *)

Definition keys_of (v : pyval) : list pystr := match v with VDict d => keys d | _ => [] end.

Definition writable_mode (mode : Z) : bool := negb (Z.land mode 0x12 =? 0).

Definition verify_file (root : path) (deployment_id : pystr) (files : dict) (acc : bytes) (name : pystr) : M bytes :=
  let directory := rooted root (BASE ++ [str "deployments"; deployment_id]) in
  let* expected := lift (getitem (VDict files) name) in
  match expected with
  | VStr e =>
      mraise_if (negb (fullmatch HEX64 e)) ValueError "installed deployment file hash is malformed" ;;;
      let* line := lift (identity_line name e) in
      safe_directory root (BASE ++ [str "deployments"; deployment_id] ++ removelast (rel_path name)) false ;;;
      let* info := lstat (directory ++ rel_path name) in
      mraise_if (writable_mode (st_mode info)) ValueError "installed deployment file is writable" ;;;
      let* data := secure_input (directory ++ rel_path name) INPUT_LIMIT in
      mraise_if (negb (digest data =s e)) ValueError "installed deployment file hash mismatch" ;;;
      mret (acc ++ line)
  | _ => mraise ValueError "installed deployment file hash is malformed"
  end.

Definition known_file_set (files : dict) : bool :=
  existsb (fun known => set_eq (keys files) known) KNOWN_FILE_SETS.

Definition manifest_identity_bad (manifest : pyval) (deployment_id : pystr) : res bool :=
  or_else (set_differs manifest (strs ["schema_version"; "deployment"; "files"]))
    (or_else (let! v := getitem manifest (str "schema_version") in Ok (negb (v == VInt 1)))
             (let! d := getitem manifest (str "deployment") in Ok (negb (d == VStr deployment_id)))).

Definition verify_deployment (root : path) (deployment_id : pystr) : M dict :=
  mraise_if (negb (fullmatch HEX64 deployment_id)) ValueError "invalid deployment identity" ;;;
  safe_directory root (BASE ++ [str "deployments"]) false ;;;
  let directory := rooted root (BASE ++ [str "deployments"; deployment_id]) in
  let* d := is_dir directory in
  let* unavailable := (if negb d then mret true else is_symlink directory) in
  mraise_if unavailable ValueError "installed deployment is unavailable" ;;;
  safe_directory root (BASE ++ [str "deployments"; deployment_id]) false ;;;
  let manifest_path := directory ++ [str "deployment-manifest.json"] in
  let* info := lstat manifest_path in
  mraise_if (writable_mode (st_mode info)) ValueError "installed deployment manifest is writable" ;;;
  let* data := secure_input manifest_path INPUT_LIMIT in
  let* manifest := lift (strict_json_bytes data) in
  let* bad := lift (manifest_identity_bad manifest deployment_id) in
  mraise_if bad ValueError "installed deployment manifest identity mismatch" ;;;
  let* files := lift (getitem manifest (str "files")) in
  match files with
  | VDict fd =>
      mraise_if (negb (known_file_set fd)) ValueError "installed deployment manifest file set mismatch" ;;;
      let* lines := mfor_each (verify_file root deployment_id fd) [] (sorted_strs (keys fd)) in
      mraise_if (negb (sha256 lines =s deployment_id)) ValueError "installed deployment content identity mismatch" ;;;
      mret fd
  | _ => mraise ValueError "installed deployment manifest file set mismatch"
  end.

Definition SELECTOR : re := Cat (Lit "deployments/") HEX64.

(** [text.split("/", 1)[1]] *)
Definition after_slash (s : pystr) : res pystr :=
  match split_once SLASH s with Some (_, b) => Ok b | None => raise IndexError "list index out of range" end.

Definition preflight_link (root : path) (create_parents : bool) (u : unit) (l : path * pystr) : M unit :=
  let '(destination, internal) := l in
  safe_directory root (removelast destination) create_parents ;;;
  let* present := lexists (rooted root destination) in
  let* managed := (if present then managed_link root destination internal else mret true) in
  mraise_if (negb managed) ValueError "refuse unrelated deployment path".

Definition preflight_links (root : path) (create_parents : bool) : M unit :=
  safe_directory root BASE create_parents ;;;
  let current := rooted root (BASE ++ [str "current"]) in
  let* present := lexists current in
  (if present then
     let* l := is_symlink current in
     let* unmanaged := (if negb l then mret true
                        else let* t := readlink current in mret (negb (fullmatch SELECTOR t))) in
     mraise_if unmanaged ValueError "deployment current selector is unmanaged" ;;;
     let* t := readlink current in
     let* id := lift (after_slash t) in
     verify_deployment root id ;;; mret tt
   else mret tt) ;;;
  mfor_each (preflight_link root create_parents) tt LINKS.

(** ** Activation *)

(** What the rollback has to undo. *)
Record changes := Changes { created : list path; removed : list (path * pystr) }.

Definition activate_link (root : path) (files : dict) (c : changes) (l : path * pystr) : M changes :=
  let '(destination, internal) := l in
  let p := rooted root destination in
  let wanted := has_key internal files in
  let* managed := managed_link root destination internal in
  if wanted && negb managed then
    atomic_symlink (link_target destination internal) p ;;;
    mret (Changes (created c ++ [p]) (removed c))
  else if negb wanted && managed then
    unlink p ;;; sync_directory (removelast p) ;;;
    mret (Changes (created c) (removed c ++ [(p, link_target destination internal)]))
  else mret c.

Definition rollback (c : changes) : M unit :=
  mfor_each (fun _ p => ignore_not_found (unlink p ;;; sync_directory (removelast p))) tt (rev (created c)) ;;;
  mfor_each (fun _ pt => atomic_symlink pt.2 pt.1) tt (rev (removed c)).

Definition activate (root : path) (deployment_id : pystr) : M unit :=
  preflight_links root false ;;;
  let* files := verify_deployment root deployment_id in
  preflight_links root true ;;;
  let* r := mfor_until (activate_link root files) (Changes [] []) LINKS in
  match r with
  | (c, Some e) => rollback c ;;; reraise e
  | (c, None) =>
      mcatch (atomic_symlink (str "deployments/" ++ deployment_id) (rooted root (BASE ++ [str "current"])))
        (fun e => rollback c ;;; reraise e)
  end.

(** ** Installation *)

Definition file_mode (modes : option (list (pystr * Z))) (name : pystr) : res Z :=
  match modes with
  | Some m => match alookup name m with Some x => Ok x | None => raise KeyError "" end
  | None => Ok (if mem name (strs ["runtime.env"; "mkruntime/config.json"]) then 0x180
                else if mem name EXECUTABLES then 0x1ED else 0x1A4)
  end.

Definition stage_file (staging : path) (modes : option (list (pystr * Z))) (u : unit) (f : pystr * bytes) : M unit :=
  let '(name, data) := f in
  let output := staging ++ rel_path name in
  mkdir_parents 0x1ED (rev (removelast output)) ;;;
  let* mode := lift (file_mode modes name) in
  let* descriptor := create_excl mode output in
  mfinally (write_fd descriptor data ;;; fsync descriptor) (close descriptor).

Definition deployment_manifest (deployment_id : pystr) (files : files_t) : pyval :=
  VDict [(str "schema_version", VInt 1);
         (str "deployment", VStr deployment_id);
         (str "files", VDict (map (fun n => (n, VStr (digest (default [] (alookup n files)))))
                               (sorted_strs (map fst files))))].

Definition mode_differs (destination : path) (b : bool) (m : pystr * Z) : M bool :=
  if b then mret true
  else let* info := lstat (destination ++ rel_path m.1) in mret (negb (s_imode (st_mode info) =? m.2)).

Definition stage_deployment (deployments : path) (deployment_id : pystr) (files : files_t)
    (modes : option (list (pystr * Z))) : M unit :=
  let staging := deployments ++ [str "." ++ deployment_id ++ str ".staging-" ++ int_repr getpid] in
  mkdir 0x1ED staging ;;;
  mcatch
    (mfor_each (stage_file staging modes) tt files ;;;
     let text := dumps no_floats indented (deployment_manifest deployment_id files) ++ [10] in
     write_bytes (staging ++ [str "deployment-manifest.json"]) (ascii_bytes text) ;;;
     chmod (staging ++ [str "deployment-manifest.json"]) 0x180 ;;;
     rename staging (deployments ++ [deployment_id]) ;;;
     sync_directory deployments)
    (fun e => ignore_errors (rmtree staging) ;;; reraise e).

Definition install_files (root : path) (files : files_t) (modes : option (list (pystr * Z)))
    (expected_active : option pystr) : M pystr :=
  preflight_links root false ;;;
  let* deployment_id := lift (identifier files) in
  preflight_links root true ;;;
  let deployments := rooted root (BASE ++ [str "deployments"]) in
  safe_directory root (BASE ++ [str "deployments"]) true ;;;
  let destination := deployments ++ [deployment_id] in
  let* present := exists_ destination in
  (if present then verify_deployment root deployment_id ;;; mret tt
   else
     stage_deployment deployments deployment_id files modes ;;;
     verify_deployment root deployment_id ;;; mret tt) ;;;
  (match modes with
   | Some m =>
       let* differs := mfor_each (mode_differs destination) false m in
       mraise_if differs ValueError "installed deployment modes differ from the cloned generation"
   | None => mret tt
   end) ;;;
  (match expected_active with
   | Some expected =>
       let* t := readlink (rooted root (BASE ++ [str "current"])) in
       mraise_if (negb (t =s expected)) ValueError "active deployment changed while preparing the storage binding"
   | None => mret tt
   end) ;;;
  activate root deployment_id ;;;
  mret deployment_id.

Definition install (root runtime_env host_config : path) : M pystr :=
  preflight_links root false ;;;
  let* files := deployment_files runtime_env host_config in
  install_files root files None None.

(** ** Updating the storage size *)

(** The lines of a byte string with their offsets; [^] and [$] of a multi-line
    pattern are their ends. *)
Fixpoint byte_lines (off : nat) (cur : bytes) (l : bytes) : list (nat * bytes) :=
  match l with
  | [] => [((off - length cur)%nat, rev cur)]
  | b :: t => if byte_eqb b x0a then ((off - length cur)%nat, rev cur) :: byte_lines (S off) [] t
              else byte_lines (S off) (b :: cur) t
  end.

Fixpoint span_bytes (p : byte -> bool) (l : bytes) : bytes * bytes :=
  match l with
  | b :: t => if p b then let '(a, r) := span_bytes p t in (b :: a, r) else ([], l)
  | [] => ([], [])
  end.
Definition is_blank_byte (b : byte) : bool := byte_eqb b x20 || byte_eqb b x09.
Definition is_digit_byte (b : byte) : bool := is_ascii_digit (b2z b).

(** One line against [\[ \t\]*MKRUNTIME_STORAGE_BYTES=(\[0-9\]+)\[ \t\]*\r?]: where the
    number begins in the line, and its digits. *)
Definition match_storage_line (line : bytes) : option (nat * bytes) :=
  let key := bstr "MKRUNTIME_STORAGE_BYTES=" in
  let '(blank, rest) := span_bytes is_blank_byte line in
  if startswith rest key then
    let '(digits, tail) := span_bytes is_digit_byte (drop (length key) rest) in
    let '(_, last) := span_bytes is_blank_byte tail in
    if negb (bool_decide (digits = [])) && (bool_decide (last = []) || bool_decide (last = [x0d]))
    then Some ((length blank + length key)%nat, digits) else None
  else None.

Definition storage_matches (environment : bytes) : list (nat * bytes) :=
  omap (fun ol => match match_storage_line ol.2 with Some (k, d) => Some ((ol.1 + k)%nat, d) | None => None end)
    (byte_lines 0 [] environment).

Definition replace_storage_size (environment : bytes) (expected_bytes new_bytes : Z) : res bytes :=
  match storage_matches environment with
  | [(start, digits)] =>
      let! old := int_of_digits (map b2z digits) in
      raise_if (negb (old =? expected_bytes)) ValueError "active storage byte binding differs from expected old value" ;;
      Ok (take start environment ++ ascii_bytes (int_repr new_bytes) ++ drop (start + length digits) environment)
  | _ => raise ValueError "active storage byte binding differs from expected old value"
  end.

Definition changed_files (files : files_t) (manifest_files : dict) : res (list pystr) :=
  let! flags := map_res (fun f : pystr * bytes =>
    let! d := getitem (VDict manifest_files) f.1 in Ok (f.1, negb (VStr (digest f.2) == d))) files in
  Ok (map fst (List.filter snd flags)).

Definition update_storage_size (root : path) (expected_bytes new_bytes : Z) : M pyval :=
  mraise_if (negb ((0 <? expected_bytes) && (expected_bytes <? new_bytes) && (new_bytes <=? 2 ^ 63))
             || negb (expected_bytes mod 512 =? 0) || negb (new_bytes mod 512 =? 0))
    ValueError "storage binding update requires a sector-aligned growth" ;;;
  preflight_links root false ;;;
  let selector := rooted root (BASE ++ [str "current"]) in
  let* l := is_symlink selector in
  mraise_if (negb l) ValueError "no active deployment for storage binding update" ;;;
  let* previous := readlink selector in
  let* previous_id := lift (after_slash previous) in
  let* manifest_files := verify_deployment root previous_id in
  let directory := rooted root (BASE ++ rel_path previous) in
  let* files := mmap (fun name => let* d := secure_input (directory ++ rel_path name) INPUT_LIMIT in mret (name, d))
                  (keys manifest_files) in
  let* modes := mmap (fun f : pystr * bytes =>
                  let* info := lstat (directory ++ rel_path f.1) in mret (f.1, s_imode (st_mode info))) files in
  mraise_if (existsb (fun m : pystr * Z => writable_mode m.2) modes) ValueError "active deployment has writable files" ;;;
  let* environment := lift (match alookup (str "runtime.env") files with Some e => Ok e | None => raise KeyError "" end) in
  lift (validate_environment environment) ;;;
  let* updated := lift (replace_storage_size environment expected_bytes new_bytes) in
  let files := aset (str "runtime.env") updated files in
  lift (validate_environment updated) ;;;
  let* changed := lift (changed_files files manifest_files) in
  mraise_if (negb (bool_decide (changed = [str "runtime.env"]))) ValueError
    "storage binding update changed unexpected deployment files" ;;;
  let* selected := install_files root files (Some modes) (Some previous) in
  mret (VDict [(str "previous", VStr previous_id); (str "active", VStr selected);
               (str "changed_files", VList (map VStr changed));
               (str "old_bytes", VInt expected_bytes); (str "new_bytes", VInt new_bytes);
               (str "disk_resize_performed", VBool false); (str "service_restart_required", VBool true)]).

(** ** Inspection and removal *)

Definition inspection (root : path) : M dict :=
  preflight_links root false ;;;
  let base := rooted root BASE in
  let current := base ++ [str "current"] in
  let deployments := base ++ [str "deployments"] in
  safe_directory root (BASE ++ [str "deployments"]) false ;;;
  let* l := is_symlink current in
  let* active := (if l then let* t := readlink current in mret (VStr t) else mret VNone) in
  let* d := is_dir deployments in
  let* listed := (if d then
      let* entries := listdir deployments in
      mfor_each (fun acc name =>
        let* sub := is_dir (deployments ++ [name]) in
        mret (if sub && negb (startswith name (str ".")) then acc ++ [name] else acc)) [] entries
    else mret []) in
  let* links := mmap (fun pi : path * pystr =>
                  let* m := managed_link root pi.1 pi.2 in mret (path_text pi.1, VBool m)) LINKS in
  mret [(str "active", active);
        (str "deployments", VList (map VStr (sorted_strs listed)));
        (str "links", VDict links);
        (str "activation_required", VList (map VStr (strs ["systemctl daemon-reload";
           "systemctl enable --now sys-fs-multikernel.mount mkruntimed.service mknetd.service"])))].

Definition uninstall_link (root : path) (u : unit) (l : path * pystr) : M unit :=
  let '(destination, internal) := l in
  let p := rooted root destination in
  let* managed := managed_link root destination internal in
  if managed then unlink p ;;; sync_directory (removelast p) else mret tt.

Definition uninstall (root : path) (apply : bool) : M dict :=
  let* report := inspection root in
  let report := dset (str "applied") (VBool apply) (dset (str "operation") (VStr (str "uninstall")) report) in
  if negb apply then mret report
  else
    preflight_links root false ;;;
    mfor_each (uninstall_link root) tt LINKS ;;;
    let current := rooted root (BASE ++ [str "current"]) in
    let* l := is_symlink current in
    (if l then unlink current ;;; sync_directory (removelast current) else mret tt) ;;;
    let* final := inspection root in
    mret (dset (str "preserved_deployments") (get final (str "deployments")) report).

Definition remove_deployment (root : path) (deployment_id : pystr) (apply : bool) : M dict :=
  verify_deployment root deployment_id ;;;
  let current := rooted root (BASE ++ [str "current"]) in
  let* l := is_symlink current in
  let* active := (if l then let* t := readlink current in mret (t =s (str "deployments/" ++ deployment_id))
                  else mret false) in
  mraise_if active ValueError "refuse to remove the active deployment" ;;;
  (if apply then
     let directory := rooted root (BASE ++ [str "deployments"; deployment_id]) in
     rmtree directory ;;; sync_directory (removelast directory)
   else mret tt) ;;;
  mret [(str "operation", VStr (str "remove-deployment")); (str "deployment", VStr deployment_id);
        (str "applied", VBool apply)].

(** ** The command line *)

Inductive command :=
  | Inspect
  | Install (runtime_env host_config : path)
  | UpdateStorageSize (expected_bytes new_bytes : Z)
  | Activate (deployment : pystr)
  | Uninstall (apply : bool)
  | RemoveDeployment (deployment : pystr) (apply : bool).

Definition mutation (c : command) : bool :=
  match c with
  | Install _ _ | Activate _ | UpdateStorageSize _ _ => true
  | Uninstall apply | RemoveDeployment _ apply => apply
  | Inspect => false
  end.

Definition run_command (root : path) (c : command) : M pyval :=
  mraise_if (mutation c && bool_decide (root = []) && negb (euid me =? 0)) PermissionError
    "system mutation requires root" ;;;
  match c with
  | Inspect => let* r := inspection root in mret (VDict r)
  | Install e h => let* id := install root e h in mret (VDict [(str "installed_and_active", VStr id)])
  | UpdateStorageSize a b => update_storage_size root a b
  | Activate d => activate root d ;;; mret (VDict [(str "active", VStr d)])
  | Uninstall a => let* r := uninstall root a in mret (VDict r)
  | RemoveDeployment d a => let* r := remove_deployment root d a in mret (VDict r)
  end.

(** The exit status and the report, or the exception that escapes. *)
Definition main (root : path) (c : command) : M (Z * option pystr) :=
  mcatch (let* r := run_command root c in mret (0, Some (dumps no_floats indented r)))
    (fun e => if is_os_error (exn_cls e) || is_value_error (exn_cls e)
                 || bool_decide (exn_cls e ∈ [KeyError; TypeError])
              then mret (1, None) else reraise e).
End system.
End Deployment.
