(* ===== verification/DeploymentSafe.v ===== *)
(** * What the deployment manager guarantees

    A deployment that verifies is named by the digest of what it holds; activation
    changes nothing but the links it manages, and selects what it verified. *)
From Stdlib Require Import ZArith Lia Sorting.Sorted.
From Stdlib Require Import Init.Byte.
From stdpp Require Import base list sets strings option gmap.
From S2P Require Import Prelude PyStr PyVal Bytes Json JsonTrip Sys FsRules Links Deployment.

Open Scope string_scope.
Open Scope list_scope.
Open Scope Z_scope.

Module DeploymentSafe.
Import Deployment.



Section verified.
Context `{machine} (Hquiet : quiet).

(** ** Verified files *)

(** The path names a regular file of the caller, without other names, with content [d]. *)
Definition trusted (f : fs) (p : path) (limit : Z) (d : bytes) : Prop :=
  exists ino n, node_of f p ino n /\ i_kind n = KFile d /\ i_nlink n = 1 /\ i_uid n = euid me /\ zlen d <= limit.

Lemma obs_secure_input f p limit : observes f (secure_input p limit) (trusted f p limit).
Proof.
  unfold secure_input. eapply obs_bind; [by apply obs_query|]. intros info Hi. cbv beta in Hi.
  apply stat_node in Hi as (ino & n & Hn & ->).
  eapply (obs_bind f _ (fun b => b = false -> s_isreg (st_mode (stat_of ino n)) = true /\ i_nlink n = 1
            /\ i_uid n = euid me)).
  { destruct (s_isreg _) eqn:Hreg; simpl; [|by apply obs_ret].
    eapply obs_bind; [by apply obs_is_symlink|]. intros b _. apply obs_ret. intros Hb. bool_prop. simpl in *.
    split; [done|]. split; lia. }
  intros unsafe Hu. obs_step. specialize (Hu H0) as (Hreg & Hl & Hown).
  eapply obs_bind; [by apply obs_read_bytes|]. intros d (fd & Ho & Hd). repeat obs_step. apply obs_ret.
  exists ino, n. bool_prop.
  repeat split; try done. by eapply read_regular.
Qed.
Hint Resolve obs_secure_input : reads.

Definition deployment_path (root : path) (id : pystr) : path := rooted root (BASE ++ [str "deployments"; id]).

(** A file of an installed deployment: as the manifest says, and not writable by
    others. *)
Definition installed (f : fs) (root : path) (id : pystr) (files : dict) (c : pystr * bytes) : Prop :=
  let p := deployment_path root id ++ rel_path c.1 in
  trusted f p INPUT_LIMIT c.2 /\ dget c.1 files = Some (VStr (digest c.2)) /\
  exists ino n, node_of f p ino n /\ writable_mode (st_mode (stat_of ino n)) = false.

Lemma obs_safe_components f current components : observes f (safe_components current components false) (fun _ => True).
Proof.
  revert current; induction components as [|c t IH]; intros current; cbn [safe_components]; [by apply obs_ret|].
  eapply obs_bind; [by apply obs_lexists|]. intros b _. destruct b; cbn [negb andb]; [|by apply obs_ret].
  eapply obs_bind; [by apply (obs_ret f tt (fun _ => True))|]. intros ? ?. eapply obs_bind; [by apply obs_query|]. intros info _.
  eapply (obs_bind f _ (fun _ => True)).
  { destruct (negb _); [by apply obs_ret|]. eapply obs_bind; [by apply obs_is_symlink|]. intros; by apply obs_ret. }
  intros bad _. eapply obs_bind; [apply obs_raise_if|]. intros ? ?. apply IH.
Qed.
Hint Resolve obs_safe_components : reads.

Lemma obs_verify_file f root id files acc name :
  observes f (verify_file root id files acc name) (fun acc' => exists d line,
    installed f root id files (name, d) /\ identity_line name (digest d) = Ok line /\ acc' = acc ++ line).
Proof.
  unfold verify_file. eapply obs_bind; [apply obs_lift|]. intros expected He. cbv beta in He.
  destruct expected as [| | | |e| |]; try apply obs_raise.
  obs_step. eapply obs_bind; [apply obs_lift|]. intros line Hline. cbv beta in Hline. obs_step.
  eapply obs_bind; [by apply obs_query|]. intros info Hi. apply stat_node in Hi as (ino & n & Hn & ->).
  eapply obs_bind; [apply obs_raise_if|]. intros ? Hw. cbv beta in Hw.
  eapply obs_bind; [by apply obs_secure_input|]. intros d Hd. eapply obs_bind; [apply obs_raise_if|]. intros ? He'.
  apply obs_ret. cbv beta in He'. bool_prop. str_prop. subst e. exists d, line. split; [|done].
  split; [done|]. split; [|by exists ino, n]. unfold getitem in He. cbn [fst snd]. destruct (dget name files); [congruence|done].
Qed.

(** ** The content of a verified deployment *)

Definition lines_of (contents : files_t) : res (list bytes) :=
  map_res (fun c : pystr * bytes => identity_line c.1 (digest c.2)) contents.

Lemma map_res_app {A B} (g : A -> res B) l1 l2 y1 y2 :
  map_res g l1 = Ok y1 -> map_res g l2 = Ok y2 -> map_res g (l1 ++ l2) = Ok (y1 ++ y2).
Proof.
  revert y1; induction l1 as [|x l1 IH]; simpl; intros y1 H1 H2; inv_ok; [done|]. rewrite (IH _ eq_refl H2). done.
Qed.

Lemma installed_functional f root id files n d1 d2 :
  installed f root id files (n, d1) -> installed f root id files (n, d2) -> d1 = d2.
Proof.
  intros ((i & m & Hn & Hk & _) & _) ((j & m' & Hn' & Hk' & _) & _).
  destruct (node_of_functional _ _ _ _ _ _ Hn Hn') as [-> ->]. simpl in *. congruence.
Qed.

Lemma identifier_lines f root id files contents ls :
  Forall (installed f root id files) contents -> map fst contents = sorted_strs (keys files) ->
  lines_of contents = Ok ls -> identifier contents = Ok (sha256 (concat ls)).
Proof.
  intros Hi Hs Hl. unfold identifier. rewrite Hs, sorted_strs_id, <-Hs by apply sorted_strs_sorted.
  assert (forall sub, sub ⊆ contents ->
    map_res (fun name => identity_line name (digest (default [] (alookup name contents)))) (map fst sub) = lines_of sub) as Hsub.
  { unfold lines_of. induction sub as [|[n d] sub IH]; intros Hin; simpl; [done|]. rewrite IH by set_solver.
    replace (default [] (alookup n contents)) with d; [done|].
    destruct (alookup n contents) as [d'|] eqn:Hd; simpl.
    - apply alookup_elem in Hd. rewrite list.Forall_forall in Hi. eapply installed_functional; apply Hi; [|done].
      apply Hin. left.
    - apply alookup_none in Hd. destruct Hd. apply list_elem_of_fmap. exists (n, d). split; [done|]. apply Hin. left. }
  rewrite Hsub by done. by rewrite Hl.
Qed.

Lemma obs_verify_deployment f root id :
  observes f (verify_deployment root id) (fun files => known_file_set files = true /\ exists contents,
    map fst contents = sorted_strs (keys files) /\ Forall (installed f root id files) contents /\
    identifier contents = Ok id).
Proof.
  unfold verify_deployment, safe_directory. do 2 obs_step. eapply obs_bind; [by apply obs_is_dir|]. intros d _.
  eapply (obs_bind f _ (fun _ => True)).
  { destruct (negb d); [by apply obs_ret|]. eapply obs_any. by apply obs_is_symlink. }
  intros unavailable _. do 8 obs_step. eapply obs_bind; [apply obs_lift|].
  intros [| | | | | |l] Hl; try apply obs_raise.
  eapply obs_bind; [apply obs_raise_if|]. intros ? Hk. clear Hl. cbv beta in Hk.
  eapply (obs_bind f _ (fun acc => exists contents ls, map fst contents = sorted_strs (keys l) /\
    Forall (installed f root id l) contents /\ lines_of contents = Ok ls /\ acc = concat ls)).
  { apply (obs_for_each f (fun names acc => exists contents ls, map fst contents = names /\
    Forall (installed f root id l) contents /\ lines_of contents = Ok ls /\ acc = concat ls)); [by exists [], []|].
    intros don x rest acc _ (cs & ls & Hf & Hc & Hl & ->). eapply obs_conseq; [apply obs_verify_file|].
    intros acc' (dd & line & Hin & Hline & ->). exists (cs ++ [(x, dd)]), (ls ++ [line]).
    split; [by rewrite map_app, Hf|]. split; [apply Forall_app; by split; [|constructor]|].
    split; [|rewrite concat_app; simpl; by rewrite app_nil_r].
    apply map_res_app; [done|]. simpl. by rewrite Hline. }
  intros acc (cs & ls & Hf & Hc & Hl & ->). eapply obs_bind; [apply obs_raise_if|]. intros ? Hid. apply obs_ret.
  cbv beta in Hid. bool_prop. str_prop. split; [done|]. exists cs. split; [done|]. split; [done|].
  subst id. by eapply identifier_lines.
Qed.
End verified.

(** ** Links *)

Section links.
Context `{machine} (Hquiet : quiet).

(** ** Directories *)

Definition ancestor (base d k : path) : Prop := exists pre, pre `prefix_of` d /\ k = base ++ pre.

Lemma safe_components_triple f1 cur comps create : fresh_ok f1 -> plain_path (cur ++ comps) -> real_dir f1 cur ->
  triple (fun x => x = f1) (safe_components cur comps create)
    (fun _ f => changes_only (ancestor cur comps) f1 f /\ (create = true -> real_dir f (cur ++ comps)))
    (changes_only (ancestor cur comps) f1).
Proof.
  destruct create; cycle 1.
  { intros Hf _ _. eapply triple_conseq; [apply (obs_safe_components Hquiet f1)|done|..].
    - intros _ f [-> _]. split; [by apply changes_only_refl|done].
    - intros f ->. by apply changes_only_refl. }
  revert f1 cur; induction comps as [|c t IH]; intros f1 cur Hf Hp Hr; cbn [safe_components].
  { apply triple_ret. intros f ->. rewrite app_nil_r. split; [by apply changes_only_refl|done]. }
  assert (plain_path (cur ++ [c])) as Hpc.
  { eapply plain_prefix; [|exact Hp]. exists t. by rewrite <-app_assoc. }
  set (S := ancestor cur (c :: t)).
  assert (S (cur ++ [c])) as HS by (exists [c]; split; [by exists t|done]).
  assert (forall A (m : M A) f phi, changes_only S f1 f -> observes f m phi ->
    triple (fun x => x = f) m (fun a x => x = f /\ phi a) (changes_only S f1)) as Hobs.
  { intros A m f phi Hc Hm. eapply triple_conseq; [apply Hm|done|done|]. by intros x ->. }
  pose proof (changes_only_refl S f1 Hf) as Hrefl.
  eapply triple_bind; [by eapply Hobs, obs_lexists|]. intros b. rewrite andb_false_r.
  eapply (triple_bind _ _ (fun _ => changes_only S f1)).
  { destruct b; [apply triple_ret; by intros f [-> _]|]. apply (triple_change Hquiet); [by intros f [-> _]|].
    intros f f' [-> _] Hm. inv_ok. rename E into Hcr. destruct a as [ino g].
    destruct (create_changes _ _ _ _ _ _ _ _ Hf (locate_child _ _ _ Hpc Hr) Hcr) as (Hc & _).
    eapply changes_only_mono; [|done]. by intros k ->. }
  intros ?. apply triple_pre. intros f2 Hc2.
  eapply triple_bind; [by eapply Hobs, obs_query|]. intros info.
  eapply (triple_bind _ _ (fun bad x => x = f2 /\ (bad = false -> is_dir_at f2 (cur ++ [c]) = true))).
  { apply triple_pre. intros ? [-> Hi]. eapply Hobs; [done|]. apply stat_node in Hi as (ino & n & (loc & Hl & Hn) & ->).
    rewrite resolve_child in Hl by (done || by eapply changes_only_real). injection Hl as <-.
    destruct (s_isdir _) eqn:Hd; cbn [negb]; [|by apply obs_ret]. eapply obs_bind; [by apply obs_is_symlink|].
    intros l _. apply obs_ret. intros _. unfold is_dir_at. rewrite Hn. by rewrite (s_isdir_kind _ _ Hd). }
  intros bad. eapply (triple_bind _ _ (fun _ x => x = f2 /\ is_dir_at f2 (cur ++ [c]) = true)).
  { apply triple_pre. intros ? [-> Hb]. eapply triple_conseq; [apply (obs_raise_if f2)|done|naive_solver|by intros ? ->]. }
  intros ?. apply triple_pre. intros ? [-> Hd].
  assert (forall k, ancestor (cur ++ [c]) t k -> S k) as Hsub.
  { intros k (pre & [r ->] & ->). exists (c :: pre). split; [by exists r|]. by rewrite <-app_assoc. }
  eapply triple_conseq; [apply (IH f2 (cur ++ [c]))|..].
  - apply (co_fresh _ _ _ Hc2).
  - by rewrite <-app_assoc.
  - apply real_snoc; [by eapply changes_only_real|done].
  - done.
  - intros _ f [Hc Hreal]. rewrite <-app_assoc in Hreal. split; [|done].
    eapply changes_only_trans; [done|]. by eapply changes_only_mono.
  - intros f Hc. eapply changes_only_trans; [done|]. by eapply changes_only_mono.
Qed.

(** ** What activation manages *)

Definition CURRENT : path := BASE ++ [str "current"].
Definition LINK_DIRS : list path := BASE :: map (fun l : path * pystr => removelast l.1) LINKS.
Definition SELECTED : list path := CURRENT :: map fst LINKS.

(** The names activation may change: the links, their temporary names, and the
    directories that lead to them. *)
Definition leading (root k : path) : Prop := exists d, d ∈ LINK_DIRS /\ ancestor root d k.
Definition managed (root k : path) : Prop := leading root k \/ (exists p, p ∈ SELECTED /\ own_link (root ++ p) k).

Definition dirs_real (root : path) (f : fs) : Prop := forall d, d ∈ LINK_DIRS -> real_dir f (root ++ d).

Lemma selected_split p : p ∈ SELECTED -> exists d c, p = d ++ [c] /\ d ∈ LINK_DIRS /\ startswith c (str ".") = false.
Proof.
  assert (Forall (fun p => p = removelast p ++ [List.last p []] /\ removelast p ∈ LINK_DIRS /\
            startswith (List.last p []) (str ".") = false) SELECTED) as Hall.
  { apply list.Forall_forall. intros q Hq.
    assert (forallb (fun p => bool_decide (p = removelast p ++ [List.last p []]) && bool_decide (removelast p ∈ LINK_DIRS)
              && negb (startswith (List.last p []) (str "."))) SELECTED = true) as Hc by (vm_compute; reflexivity).
    rewrite forallb_forall in Hc. apply list_elem_of_In, Hc in Hq. bool_prop. done. }
  intros Hp. rewrite list.Forall_forall in Hall. destruct (Hall p Hp) as (He & Hd & Hs). eauto.
Qed.

Lemma link_dirs_plain d : d ∈ LINK_DIRS -> plain_path d.
Proof.
  assert (forallb (forallb plain_name) LINK_DIRS = true) as Hc by (vm_compute; reflexivity).
  rewrite forallb_forall in Hc. intros Hd%list_elem_of_In%Hc. rewrite forallb_forall in Hd.
  apply list.Forall_forall. intros x Hx. apply Hd. by apply list_elem_of_In.
Qed.

Lemma selected_plain p : p ∈ SELECTED -> plain_path p.
Proof.
  assert (forallb (forallb plain_name) SELECTED = true) as Hc by (vm_compute; reflexivity).
  rewrite forallb_forall in Hc. intros Hd%list_elem_of_In%Hc. rewrite forallb_forall in Hd.
  apply list.Forall_forall. intros x Hx. apply Hd. by apply list_elem_of_In.
Qed.

(** A managed link is never another one's temporary name. *)
Lemma own_link_selected root p q : p ∈ SELECTED -> q ∈ SELECTED -> own_link (root ++ p) (root ++ q) -> q = p.
Proof.
  intros Hp Hq [He|He]; [by apply app_inv_head in He|].
  apply selected_split in Hp as (d & c & -> & _ & _). apply selected_split in Hq as (d' & c' & -> & _ & Hc').
  rewrite !app_assoc, temporary_link_snoc in He. apply app_inj_tail in He as [_ ->]. done.
Qed.

Section root.
Variable root : path.
Hypothesis root_plain : plain_path root.

Lemma safe_directory_frame f1 d create : fresh_ok f1 -> real_dir f1 root -> d ∈ LINK_DIRS ->
  triple (fun x => x = f1) (safe_directory root d create)
    (fun _ f => changes_only (leading root) f1 f /\ (create = true -> real_dir f (root ++ d)))
    (changes_only (leading root) f1).
Proof.
  intros Hf Hr Hd. assert (forall k, ancestor root d k -> leading root k) as Hs by (intros k Hk; exists d; eauto).
  eapply triple_conseq; [apply (safe_components_triple f1 root d create)|..]; try done.
  - apply plain_app. split; [done|]. by apply link_dirs_plain.
  - intros ? f [Hc Hreal]. split; [|done]. by eapply changes_only_mono.
  - intros f Hc. by eapply changes_only_mono.
Qed.

Lemma atomic_symlink_frame f1 target p : fresh_ok f1 -> dirs_real root f1 -> p ∈ SELECTED ->
  triple (fun x => x = f1) (atomic_symlink target (root ++ p))
    (fun _ f => changes_only (own_link (root ++ p)) f1 f /\ linked f (root ++ p) target)
    (replaced f1 (root ++ p) target).
Proof.
  intros Hf Hd Hp. pose proof (selected_plain p Hp) as Hpl. apply selected_split in Hp as (d & c & -> & Hdir & _).
  rewrite app_assoc. change (@atomic_symlink H) with (@swap_link H "temporary deployment link exists").
  apply (swap_link_triple Hquiet); [done| |by apply Hd].
  rewrite <-app_assoc. apply plain_app. by split.
Qed.

Lemma obs_managed_link f dest internal : dirs_real root f -> dest ∈ SELECTED ->
  observes f (managed_link root dest internal) (fun b => b = true -> linked f (root ++ dest) (link_target dest internal)).
Proof.
  intros Hd Hs. unfold managed_link, rooted. eapply obs_bind; [by apply obs_is_symlink|]. intros l _.
  destruct l; [|by apply obs_ret]. eapply obs_bind; [by apply obs_query|]. intros t Ht. cbv beta in Ht. apply obs_ret.
  intros Hb. str_prop. subst t. unfold fs_readlink in Ht.
  pose proof (selected_plain _ Hs) as Hpl. destruct (selected_split _ Hs) as (d & c & -> & Hdir & _).
  rewrite app_assoc in Ht |- *. rewrite resolve_child in Ht; [|rewrite <-app_assoc; apply plain_app; by split|by apply Hd].
  simpl in Ht. destruct (node_at f _) as [[ino n]|] eqn:Hn; [|done]. destruct (i_kind n) eqn:Hk; try done.
  injection Ht as ->. exists ino, n. by split.
Qed.

Lemma obs_managed_any f dest internal : observes f (managed_link root dest internal) (fun _ => True).
Proof.
  unfold managed_link. eapply obs_bind; [by apply obs_is_symlink|]. intros l _. destruct l; [|by apply obs_ret].
  eapply obs_bind; [by apply obs_query|]. intros t _. by apply obs_ret.
Qed.

Lemma obs_selector f (present : bool) : observes f
  (if present then
     let* l := is_symlink (rooted root (BASE ++ [str "current"])) in
     let* unmanaged := (if negb l then mret true
                        else let* t := readlink (rooted root (BASE ++ [str "current"])) in mret (negb (fullmatch SELECTOR t))) in
     mraise_if unmanaged ValueError "deployment current selector is unmanaged" ;;;
     let* t := readlink (rooted root (BASE ++ [str "current"])) in
     let* id := lift (after_slash t) in
     verify_deployment root id ;;; mret tt
   else mret tt) (fun _ => True).
Proof.
  destruct present; [|by apply obs_ret].
  eapply obs_bind; [by apply obs_is_symlink|]. intros l _. eapply (obs_bind f _ (fun _ => True)).
  { destruct (negb l); [by apply obs_ret|]. eapply obs_bind; [by apply obs_query|]. intros; by apply obs_ret. }
  intros u _. eapply obs_bind; [apply obs_raise_if|]. intros ? _. eapply obs_bind; [by apply obs_query|]. intros t _.
  eapply obs_bind; [apply obs_lift|]. intros id _. eapply obs_bind; [by apply obs_verify_deployment|]. intros; by apply obs_ret.
Qed.

Lemma link_selected l : l ∈ LINKS -> l.1 ∈ SELECTED.
Proof. intros Hl. right. apply list_elem_of_fmap. by exists l. Qed.

Lemma link_dir l : l ∈ LINKS -> removelast l.1 ∈ LINK_DIRS.
Proof. intros Hl. right. apply list_elem_of_fmap. by exists l. Qed.

Lemma preflight_links_triple f1 create : fresh_ok f1 -> real_dir f1 root ->
  triple (fun x => x = f1) (preflight_links root create)
    (fun _ f => changes_only (leading root) f1 f /\ (create = true -> dirs_real root f))
    (changes_only (leading root) f1).
Proof.
  intros Hf Hr. unfold preflight_links. eapply triple_bind; [apply safe_directory_frame; [done|done|left]|]. intros ?.
  eapply triple_bind; [apply obs_keep; intros; by eapply obs_any, obs_lexists|]. intros present.
  eapply triple_bind; [apply obs_keep; intros; apply obs_selector|].
  intros ?. eapply (triple_conseq _ (fun f => changes_only (leading root) f1 f /\
    (create = true -> real_dir f (root ++ BASE) /\ forall l : path * pystr, l ∈ [] -> real_dir f (root ++ removelast l.1)))).
  { apply (triple_for_each_done (fun don (_ : unit) f => changes_only (leading root) f1 f /\
      (create = true -> real_dir f (root ++ BASE) /\ forall l : path * pystr, l ∈ don -> real_dir f (root ++ removelast l.1)))).
    intros don [dest internal] rest u Hl. apply triple_frame. intros f Hc Hd. unfold preflight_link.
    assert ((dest, internal) ∈ LINKS) as Hin by (rewrite Hl; set_solver).
    eapply (triple_bind _ _ (fun _ g => changes_only (leading root) f g /\
      (create = true -> real_dir g (root ++ BASE) /\ forall l, l ∈ don ++ [(dest, internal)] -> real_dir g (root ++ removelast l.1)))).
    - eapply triple_conseq; [apply (safe_directory_frame f)|done|..].
      + apply (co_fresh _ _ _ Hc).
      + by eapply changes_only_real.
      + by apply (link_dir _ Hin).
      + intros ? g [Hg Hreal]. split; [done|]. intros Hcr. destruct (Hd Hcr) as [Hb Hds].
        split; [by eapply changes_only_real|]. intros l [Hl'|Hl']%elem_of_app; [eapply changes_only_real; [done|auto]|].
        apply list_elem_of_singleton in Hl' as ->. auto.
      + done.
    - intros ?. eapply triple_bind; [apply obs_keep; intros; by eapply obs_any, obs_lexists|]. intros b.
      eapply triple_bind; [apply obs_keep; intros g; destruct b; [apply obs_managed_any|by apply obs_ret]|]. intros mg.
      apply obs_keep. intros g. eapply obs_any, obs_raise_if. }
  - intros f [Hc Hb]. split; [done|]. intros Hcr. split; [auto|set_solver].
  - intros ? f [Hc Hb]. split; [done|]. intros Hcr d Hd. destruct (Hb Hcr) as [HB Hl].
    apply elem_of_cons in Hd as [->|Hd]; [done|]. apply list_elem_of_fmap in Hd as (l & -> & Hin). auto.
  - done.
Qed.

Lemma obs_preflight f : observes f (preflight_links root false) (fun _ => True).
Proof.
  unfold preflight_links, safe_directory. eapply obs_bind; [by apply obs_safe_components|]. intros ? _.
  eapply obs_bind; [by apply obs_lexists|]. intros b _. eapply obs_bind; [apply obs_selector|]. intros ? _.
  apply (obs_for_each f (fun _ _ => True)); [done|]. intros don [dest internal] rest s _ _.
  unfold preflight_link, safe_directory. eapply obs_bind; [by apply obs_safe_components|]. intros ? _.
  eapply obs_bind; [by apply obs_lexists|]. intros p _. eapply (obs_bind f _ (fun _ => True)).
  { destruct p; [apply obs_managed_any|by apply obs_ret]. }
  intros m _. eapply obs_any, obs_raise_if.
Qed.

Lemma current_not_leading : ~ leading root (root ++ CURRENT).
Proof.
  intros (d & Hd & pre & Hpre & He). apply app_inv_head in He. subst pre.
  assert (forallb (fun d => negb (below CURRENT d)) LINK_DIRS = true) as Hall by (vm_compute; reflexivity).
  rewrite forallb_forall in Hall. apply list_elem_of_In, Hall in Hd. unfold below in Hd. bool_prop. done.
Qed.

(** ** Activation *)

Section run.
Variables (id : pystr) (f0 : fs).

(** Where the loop over the links may stand: within the frame, the selector as it
    was, and only managed links to roll back. *)
Definition midway (c : changes) (f : fs) : Prop :=
  changes_only (managed root) f0 f /\ dirs_real root f /\
  names f !! (root ++ CURRENT) = names f0 !! (root ++ CURRENT) /\
  (forall p, p ∈ created c -> exists l, l ∈ LINKS /\ p = root ++ l.1) /\
  (forall pt, pt ∈ removed c -> exists l, l ∈ LINKS /\ pt.1 = root ++ l.1).

Definition links_set (files : dict) (don : list (path * pystr)) (f : fs) : Prop :=
  forall l, l ∈ don -> has_key l.2 files = true -> linked f (root ++ l.1) (link_target l.1 l.2).

(** A change of one managed link other than the selector. *)
Lemma midway_step l c f g : l ∈ LINKS -> midway c f -> changes_only (own_link (root ++ l.1)) f g -> midway c g.
Proof.
  intros Hl (Hc & Hd & Hn & Hcr & Hrm) Hg.
  assert (~ own_link (root ++ l.1) (root ++ CURRENT)) as Hne.
  { intros Ho. apply own_link_selected in Ho; [|by apply link_selected|by left].
    assert (forallb (fun l => negb (bool_decide (CURRENT = l.1))) LINKS = true) as Hall by (vm_compute; reflexivity).
    rewrite forallb_forall in Hall. apply list_elem_of_In, Hall in Hl. bool_prop. done. }
  split; [|split; [|split; [|done]]].
  - eapply changes_only_trans; [done|]. eapply changes_only_mono; [|done]. intros k Hk. right. exists l.1.
    split; [by apply link_selected|done].
  - intros d Hdd. eapply changes_only_real; [done|]. by apply Hd.
  - by rewrite (co_names _ _ _ Hg).
Qed.

Lemma links_set_step files don l f g : l ∈ LINKS -> don ⊆ LINKS -> ~ l.1 ∈ map fst don ->
  links_set files don f -> changes_only (own_link (root ++ l.1)) f g -> links_set files don g.
Proof.
  intros Hl Hdon Hni Hs Hg l' Hl' Hk. eapply changes_only_linked; [done| |by apply Hs].
  intros Ho. apply own_link_selected in Ho; [|by apply link_selected|by apply link_selected, Hdon].
  destruct Hni. rewrite <-Ho. apply list_elem_of_fmap. eauto.
Qed.

Lemma midway_dirs c f : midway c f -> dirs_real root f /\ fresh_ok f.
Proof. intros (Hc & Hd & _). split; [done|]. apply (co_fresh _ _ _ Hc). Qed.

Lemma midway_created c p f l : l ∈ LINKS -> p = root ++ l.1 -> midway c f -> midway (Changes (created c ++ [p]) (removed c)) f.
Proof.
  intros Hl -> (Hc & Hd & Hn & Hcr & Hrm). split; [done|]. split; [done|]. split; [done|]. split; [|done].
  intros p [Hp|Hp]%elem_of_app; [auto|]. apply list_elem_of_singleton in Hp as ->. eauto.
Qed.

Lemma midway_removed c p t f l : l ∈ LINKS -> p = root ++ l.1 -> midway c f -> midway (Changes (created c) (removed c ++ [(p, t)])) f.
Proof.
  intros Hl -> (Hc & Hd & Hn & Hcr & Hrm). split; [done|]. split; [done|]. split; [done|]. split; [done|].
  intros pt [Hp|Hp]%elem_of_app; [auto|]. apply list_elem_of_singleton in Hp as ->. eauto.
Qed.

(** Removing a managed link. *)
Lemma unlink_triple f l : l ∈ LINKS -> fresh_ok f -> dirs_real root f ->
  triple (fun x => x = f) (unlink (root ++ l.1) ;;; sync_directory (removelast (root ++ l.1)))
    (fun _ => changes_only (own_link (root ++ l.1)) f) (changes_only (own_link (root ++ l.1)) f).
Proof.
  intros Hl Hf Hd. eapply (triple_bind _ _ (fun _ => changes_only (own_link (root ++ l.1)) f)).
  - apply (triple_change Hquiet); [intros x ->; by apply changes_only_refl|]. intros x f' -> Hu.
    pose proof (selected_plain _ (link_selected _ Hl)) as Hpl.
    destruct (selected_split _ (link_selected _ Hl)) as (d & c & He & Hdir & _).
    eapply changes_only_mono; [|eapply unlink_changes; [done| |done]]; [intros k ->; by left|].
    rewrite He, app_assoc. apply locate_child; [|by apply Hd]. rewrite <-app_assoc, <-He. apply plain_app. by split.
  - intros ?. eapply triple_conseq; [apply (obs_triple (changes_only (own_link (root ++ l.1)) f) _ (fun _ _ => True))|..];
      [intros; by apply obs_sync|done|by intros ? ? []|done].
Qed.

(** One turn of the loop. *)
Lemma activate_link_triple files don l c : l ∈ LINKS -> don ⊆ LINKS -> ~ l.1 ∈ map fst don ->
  triple (fun f => midway c f /\ links_set files don f) (activate_link root files c l)
    (fun c' f => midway c' f /\ links_set files (don ++ [l]) f) (midway c).
Proof.
  intros Hl Hdon Hni. apply triple_pre. intros f [Hm Hs]. destruct (midway_dirs _ _ Hm) as [Hd Hf].
  destruct l as [dest internal]. unfold activate_link, rooted.
  assert (forall g, changes_only (own_link (root ++ dest)) f g -> midway c g) as Hstep.
  { intros g Hg. by apply (midway_step (dest, internal) c f g). }
  assert (forall g c', midway c' g -> links_set files don g ->
    (has_key internal files = true -> linked g (root ++ dest) (link_target dest internal)) ->
    midway c' g /\ links_set files (don ++ [(dest, internal)]) g) as Hend.
  { intros g c' Hg Hsg Hlk. split; [done|]. intros l' [Hl'|Hl']%elem_of_app; [by apply Hsg|].
    apply list_elem_of_singleton in Hl' as ->. done. }
  eapply (triple_bind _ _ (fun b x => x = f /\ (b = true -> linked f (root ++ dest) (link_target dest internal)))).
  { eapply triple_conseq; [apply (obs_managed_link f dest internal Hd (link_selected _ Hl))|done|done|by intros ? ->]. }
  intros b. apply triple_pre. intros ? [-> Hb]. destruct (has_key internal files) eqn:Hk, b; cbn [andb negb].
  - apply triple_ret. intros g ->. apply Hend; auto.
  - eapply (triple_bind _ _ (fun _ g => changes_only (own_link (root ++ dest)) f g /\ linked g (root ++ dest) (link_target dest internal))).
    + eapply triple_conseq; [apply (atomic_symlink_frame f _ dest Hf Hd (link_selected _ Hl))|done|done|]. intros g [Hg _]. auto.
    + intros ?. apply triple_ret. intros g [Hg Hlk]. apply Hend; [|by eapply (links_set_step files don (dest, internal))|done].
      apply (midway_created _ _ _ (dest, internal)); auto.
  - eapply (triple_conseq _ (fun x => x = f) _ _ (fun c' g => c' = Changes (created c) (removed c ++ [(root ++ dest, link_target dest internal)])
      /\ changes_only (own_link (root ++ dest)) f g) _ (changes_only (own_link (root ++ dest)) f)); [|done|..].
    + pose proof (unlink_triple f (dest, internal) Hl Hf Hd) as Hu. simpl in Hu.
      intros w Hw. specialize (Hu w Hw). unfold mbind in *. simpl in *.
      destruct (unlink (root ++ dest) w) as [[u|e] w1]; [|done].
      destruct (sync_directory (removelast (root ++ dest)) w1) as [[u2|e] w2]; done.
    + intros c' g [-> Hg]. apply Hend; [|by eapply (links_set_step files don (dest, internal))|done].
      apply (midway_removed _ _ _ _ (dest, internal)); auto.
    + auto.
  - apply triple_ret. intros g ->. apply Hend; [done|done|]. intros; congruence.
Qed.

Lemma links_nodup : NoDup (map fst LINKS).
Proof.
  assert (bool_decide (NoDup (map fst LINKS)) = true) as Hn by (vm_compute; reflexivity). by apply bool_decide_eq_true in Hn.
Qed.

Lemma activate_loop_triple files :
  triple (fun f => midway (Changes [] []) f) (mfor_until (activate_link root files) (Changes [] []) LINKS)
    (fun r f => match r.2 with None => midway r.1 f /\ links_set files LINKS f | Some _ => midway r.1 f end) (fun _ => False).
Proof.
  eapply triple_conseq; [apply (triple_until (fun don c f => midway c f /\ links_set files don f) midway)|..].
  - intros don x rest c Hl. apply activate_link_triple; [rewrite Hl; set_solver|rewrite Hl; set_solver|].
    pose proof links_nodup as Hn. rewrite Hl, map_app, list.NoDup_app in Hn. destruct Hn as (_ & Hn & _).
    intros Hx. apply (Hn _ Hx). left.
  - intros f Hf. split; [done|]. intros l Hl. by apply elem_of_nil in Hl.
  - done.
  - done.
Qed.

(** ** Rolling back *)

(** The state after activation failed: the selector is as it was or selects [id]. *)
Definition failed (f : fs) : Prop :=
  changes_only (managed root) f0 f /\ dirs_real root f /\
  (names f !! (root ++ CURRENT) = names f0 !! (root ++ CURRENT) \/ linked f (root ++ CURRENT) (str "deployments/" ++ id)).

Lemma failed_step l f g : l ∈ LINKS -> failed f -> changes_only (own_link (root ++ l.1)) f g -> failed g.
Proof.
  intros Hl (Hc & Hd & Hn) Hg.
  assert (~ own_link (root ++ l.1) (root ++ CURRENT)) as Hne.
  { intros Ho. apply own_link_selected in Ho; [|by apply link_selected|by left].
    assert (forallb (fun l => negb (bool_decide (CURRENT = l.1))) LINKS = true) as Hall by (vm_compute; reflexivity).
    rewrite forallb_forall in Hall. apply list_elem_of_In, Hall in Hl. bool_prop. done. }
  split; [|split].
  - eapply changes_only_trans; [done|]. eapply changes_only_mono; [|done]. intros k Hk. right. exists l.1.
    split; [by apply link_selected|done].
  - intros d Hdd. eapply changes_only_real; [done|]. by apply Hd.
  - destruct Hn as [Hn|Hn]; [left; by rewrite (co_names _ _ _ Hg)|right; by eapply changes_only_linked].
Qed.

Lemma rollback_triple c :
  (forall p, p ∈ created c -> exists l, l ∈ LINKS /\ p = root ++ l.1) ->
  (forall pt, pt ∈ removed c -> exists l, l ∈ LINKS /\ pt.1 = root ++ l.1) ->
  triple failed (rollback c) (fun _ => failed) failed.
Proof.
  intros Hc Hr. unfold rollback. eapply (triple_bind _ _ (fun _ => failed)).
  - apply (triple_for_each_done (fun _ _ => failed)). intros don p rest u Hl.
    destruct (Hc p) as (l & Hin & ->); [apply elem_of_reverse; unfold reverse; rewrite <-rev_alt, Hl; set_solver|].
    apply triple_pre. intros f Hf. pose proof Hf as (Hco & Hd & _).
    eapply (triple_catch _ _ _ _ failed); [|intros e; case_bool_decide; [by apply triple_ret|by apply triple_reraise]].
    eapply triple_conseq; [apply (unlink_triple f l Hin (co_fresh _ _ _ Hco) Hd)|done|..]; intros; by eapply failed_step.
  - intros ?. apply (triple_for_each_done (fun _ _ => failed)). intros don [p t] rest u Hl.
    destruct (Hr (p, t)) as (l & Hin & He); [apply elem_of_reverse; unfold reverse; rewrite <-rev_alt, Hl; set_solver|].
    simpl in He. subst p. apply triple_pre. intros f Hf. pose proof Hf as (Hco & Hd & _). simpl.
    eapply triple_conseq; [apply (atomic_symlink_frame f t l.1 (co_fresh _ _ _ Hco) Hd (link_selected _ Hin))|done|..].
    + intros ? g [Hg _]. by eapply failed_step.
    + intros g [Hg _]. by eapply failed_step.
Qed.

Lemma midway_failed c f : midway c f -> failed f.
Proof. intros (Hc & Hd & Hn & _). split; [done|]. split; [done|by left]. Qed.

(** What a successful activation leaves. *)
Definition selected (files : dict) (f : fs) : Prop :=
  links_set files LINKS f /\ linked f (root ++ CURRENT) (str "deployments/" ++ id).

(** The verified content of deployment [id] in the initial state. *)
Definition content (files : dict) : Prop := known_file_set files = true /\ exists contents,
  map fst contents = sorted_strs (keys files) /\ Forall (installed f0 root id files) contents /\ identifier contents = Ok id.

Lemma activate_triple : fresh_ok f0 -> real_dir f0 root ->
  triple (fun f => f = f0) (activate root id)
    (fun _ f => changes_only (managed root) f0 f /\ exists files, content files /\ selected files f)
    (fun f => changes_only (managed root) f0 f /\
      (names f !! (root ++ CURRENT) = names f0 !! (root ++ CURRENT) \/ linked f (root ++ CURRENT) (str "deployments/" ++ id))).
Proof.
  intros Hf Hr. unfold activate.
  set (E := fun f => changes_only (managed root) f0 f /\
      (names f !! (root ++ CURRENT) = names f0 !! (root ++ CURRENT) \/ linked f (root ++ CURRENT) (str "deployments/" ++ id))).
  assert (E f0) as HE by (split; [by apply changes_only_refl|by left]).
  assert (forall f, changes_only (leading root) f0 f -> E f) as HlE.
  { intros f Hc. split; [eapply changes_only_mono; [|done]; by left|]. left. apply (co_names _ _ _ Hc), current_not_leading. }
  eapply (triple_bind _ _ (fun _ f => f = f0)).
  { eapply triple_conseq; [apply (obs_preflight f0)|done|naive_solver|by intros f ->]. }
  intros ?. eapply (triple_bind _ _ (fun files f => f = f0 /\ content files)).
  { eapply triple_conseq; [apply (obs_verify_deployment Hquiet f0)|done|naive_solver|by intros f ->]. }
  intros files. apply triple_pre. intros ? [-> Hfiles].
  eapply (triple_bind _ _ (fun _ => midway (Changes [] []))).
  { eapply triple_conseq; [by apply (preflight_links_triple f0 true)|done|..].
    - intros ? f [Hc Hd]. destruct (HlE f Hc) as [Hm _]. split; [done|]. split; [auto|]. split.
      + apply (co_names _ _ _ Hc), current_not_leading.
      + split; intros x Hx; by apply elem_of_nil in Hx.
    - done. }
  intros ?. eapply triple_bind; [eapply triple_conseq; [apply activate_loop_triple|done|done|done]|].
  intros [c [e|]]; simpl; cbv beta.
  - apply triple_pre. intros f Hm. pose proof Hm as (_ & _ & _ & Hcr & Hrm).
    eapply (triple_bind _ _ (fun _ => failed)).
    + eapply triple_conseq; [by apply (rollback_triple c)| |done|]; [intros ? ->; by eapply midway_failed|].
      intros g (Hg & _ & Hg'). by split.
    + intros ?. apply triple_reraise. intros g (Hg & _ & Hg'). by split.
  - apply triple_pre. intros f [Hm Hls]. pose proof Hm as (Hc & Hd & Hn & Hcr & Hrm).
    assert (forall g, changes_only (own_link (root ++ CURRENT)) f g -> changes_only (managed root) f0 g /\ dirs_real root g) as Hframe.
    { intros g Hg. split.
      - eapply changes_only_trans; [done|]. eapply changes_only_mono; [|done]. intros k Hk. right. exists CURRENT.
        split; [by left|done].
      - intros d Hdd. eapply changes_only_real; [done|]. by apply Hd. }
    eapply (triple_catch _ _ _ _ failed).
    + eapply triple_conseq; [apply (atomic_symlink_frame f _ CURRENT (co_fresh _ _ _ Hc) Hd); by left|done|..].
      * intros ? g [Hg Hlk]. split; [by apply Hframe|]. exists files. split; [done|]. split; [|done].
        intros l Hl Hk. eapply changes_only_linked; [done| |by apply Hls]. intros Ho.
        apply own_link_selected in Ho; [|by left|by apply link_selected].
        assert (forallb (fun l => negb (bool_decide (l.1 = CURRENT))) LINKS = true) as Hall by (vm_compute; reflexivity).
        rewrite forallb_forall in Hall. apply list_elem_of_In, Hall in Hl. bool_prop. done.
      * intros g [Hg Hor]. destruct (Hframe g Hg) as [H1 H2]. split; [done|]. split; [done|].
        destruct Hor as [Hor|Hor]; [left; congruence|by right].
    + intros e. eapply (triple_bind _ _ (fun _ => failed)).
      * eapply triple_conseq; [by apply (rollback_triple c)|done|done|]. intros g (Hg & _ & Hg'). by split.
      * intros ?. apply triple_reraise. intros g (Hg & _ & Hg'). by split.
Qed.
End run.

(** The deployments themselves are out of activation's reach. *)
Lemma deployments_not_managed k : below (root ++ BASE ++ [str "deployments"]) k = true -> ~ managed root k.
Proof.
  unfold below. intros Hb Hm. bool_prop. destruct Hb as [r ->].
  assert (forall q, (BASE ++ [str "deployments"]) `prefix_of` q -> ~ q ∈ SELECTED /\ ~ exists d, d ∈ LINK_DIRS /\ q `prefix_of` d) as Hno.
  { assert (forallb (fun q => negb (below (BASE ++ [str "deployments"]) q)) (SELECTED ++ LINK_DIRS) = true) as Hall by (vm_compute; reflexivity).
    rewrite forallb_forall in Hall. unfold below in Hall. intros q Hq. split; [intros Hin|intros (d & Hin & Hd)].
    - assert (q ∈ SELECTED ++ LINK_DIRS) as Hq' by (apply elem_of_app; by left). apply list_elem_of_In, Hall in Hq'. bool_prop. done.
    - assert (d ∈ SELECTED ++ LINK_DIRS) as Hd' by (apply elem_of_app; by right). apply list_elem_of_In, Hall in Hd'. bool_prop.
      apply Hd'. by etrans. }
  destruct Hm as [(d & Hd & pre & Hpre & He)|(p & Hp & [He|He])].
  - rewrite <-!app_assoc in He. apply app_inv_head in He. destruct (Hno pre) as [_ Hn]; [by exists r; rewrite <-app_assoc|]. eauto.
  - rewrite <-!app_assoc in He. apply app_inv_head in He. destruct (Hno p) as [Hn _]; [by exists r; rewrite <-app_assoc|]. done.
  - apply selected_split in Hp as (d & c & -> & Hd & _). rewrite (app_assoc root d [c]), temporary_link_snoc in He.
    destruct r as [|x r _] using rev_ind.
    + rewrite app_nil_r, app_assoc in He. apply app_inj_tail in He as [_ He]. apply (f_equal head) in He. discriminate He.
    + rewrite app_assoc in He. apply app_inj_tail in He as [He _]. rewrite <-!app_assoc in He. apply app_inv_head in He.
      destruct (Hno d) as [_ Hn]; [by exists r; rewrite <-app_assoc|]. destruct Hn. by exists d.
Qed.
End root.
End links.

(** C14. A deployment that verifies is named by its content: every file of the
    manifest, whose names are one of the known file sets, is a regular file of the
    caller with a single name and no write permission for others, with the digest the
    manifest records, and the deployment's identity is the one [identifier] computes
    from these contents.  Verification changes nothing, whichever system call fails. *)
Theorem verified_deployment_is_content_addressed `{machine} root id w : quiet ->
  match verify_deployment root id w with
  | (Ok files, w') => w_fs w' = w_fs w /\ known_file_set files = true /\ exists contents,
      map fst contents = sorted_strs (keys files) /\ Forall (installed (w_fs w) root id files) contents /\
      identifier contents = Ok id
  | (Err _, w') => w_fs w' = w_fs w
  end.
Proof. intros Hq. by apply (obs_run (w_fs w) _ _ w (obs_verify_deployment Hq (w_fs w) root id)). Qed.

(** C15. Activation with any pattern of failing system calls, from a root without
    symbolic links: no file's content changes, no directory disappears, and only the
    managed links, their temporary names and the directories leading to them can
    change, so that every name below [deployments] stays.  When it returns, deployment
    [id] verified, the selector names it, and every link whose file it holds is in
    place; when it raises, the selector is as it was or names [id]. *)
Theorem activate_selects `{machine} root id w : quiet -> plain_path root -> real_dir (w_fs w) root -> fresh_ok (w_fs w) ->
  let f0 := w_fs w in
  let outcome := activate root id w in
  let f := w_fs outcome.2 in
  changes_only (managed root) f0 f /\
  (forall k, below (root ++ BASE ++ [str "deployments"]) k = true -> names f !! k = names f0 !! k) /\
  match outcome.1 with
  | Ok _ => exists files, content root id f0 files /\ selected root id files f
  | Err _ => names f !! (root ++ CURRENT) = names f0 !! (root ++ CURRENT)
             \/ linked f (root ++ CURRENT) (str "deployments/" ++ id)
  end.
Proof.
  intros Hq Hp Hr Hf f0 outcome f. pose proof (activate_triple Hq root Hp id f0 Hf Hr w eq_refl) as Ht.
  fold outcome in Ht. subst f. destruct outcome as [[u|e] w'] eqn:Ho; simpl in *; destruct Ht as [Hc Hout].
  all: split; [done|]; split; [|done]; intros k Hk; apply (co_names _ _ _ Hc); by apply deployments_not_managed.
Qed.
End DeploymentSafe.
