(* ===== verification/DeploymentRun.v ===== *)
(** * A deployment, activated

    The deployment manager run on a concrete file system that holds one deployment:
    its verification, its activation, and its activation when the directory of the
    selector cannot be synchronized. *)
From Stdlib Require Import ZArith Lia.
From Stdlib Require Import Init.Byte.
From stdpp Require Import base list sets strings option gmap.
From S2P Require Import Prelude PyStr PyVal Bytes Json Sys FsRules Links Deployment DeploymentSafe.

Open Scope string_scope.
Open Scope list_scope.
Open Scope Z_scope.

Module DeploymentRun.
Import Deployment DeploymentSafe.

Definition result_id (r : res pystr) : pystr := match r with Ok i => i | Err _ => [] end.

(** A deployment of empty files, with its manifest. *)
Definition sample_files : files_t := map (fun l : path * pystr => (l.2, [] : bytes)) LINKS.
Definition sample_id : pystr := Eval vm_compute in result_id (identifier sample_files).
Definition sample_manifest : bytes := Eval vm_compute in
  ascii_bytes (dumps no_floats indented (deployment_manifest sample_id sample_files)).
Definition sample_directory : path := BASE ++ [str "deployments"; sample_id].

(** A host that holds it, and nothing else. *)
Definition sample_host : fs := foldl plant_file empty_fs
  ((sample_directory ++ [str "deployment-manifest.json"], sample_manifest)
   :: map (fun f : pystr * bytes => (sample_directory ++ rel_path f.1, f.2)) sample_files).

Definition start : world := World sample_host 0.

Definition succeeded {A} (r : res A) : bool := match r with Ok _ => true | Err _ => false end.

(** How many links of the deployment are in place, and what the selector reads. *)
Definition links_in_place (f : fs) : nat :=
  length (List.filter (fun l : path * pystr => match names f !! l.1 with Some _ => true | None => false end) LINKS).
Definition link_at (n : option (Z * inode)) : option pystr :=
  match n with Some (_, n) => match i_kind n with KLink t => Some t | _ => None end | None => None end.
Definition selector (f : fs) : option pystr := link_at (node_at f CURRENT).

Lemma start_wf : is_dir_at (w_fs start) [] && fresh_okb (w_fs start) = true.
Proof. vm_cast_no_check (@eq_refl bool true). Qed.

Lemma run_verify_ok : succeeded (@verify_deployment (lone_machine superuser []) [] sample_id start).1 = true.
Proof. vm_cast_no_check (@eq_refl bool true). Qed.

Lemma run_activate_ok : succeeded (@activate (lone_machine superuser []) [] sample_id start).1 = true.
Proof. vm_cast_no_check (@eq_refl bool true). Qed.

Lemma verified_deployment_is_content_addressed_witness : exists files,
  known_file_set files = true /\ exists contents, map fst contents = sorted_strs (keys files) /\
    Forall (@installed (lone_machine superuser []) (w_fs start) [] sample_id files) contents /\
    identifier contents = Ok sample_id.
Proof.
  generalize run_verify_ok. generalize start as w. generalize sample_id as id. intros id w Hv.
  pose proof (@verified_deployment_is_content_addressed (lone_machine superuser []) [] id w (lone_quiet _ _)) as Ht.
  destruct (@verify_deployment (lone_machine superuser []) [] id w) as [[files|e] w']; [|discriminate Hv].
  destruct Ht as (_ & Hk & Hc). exists files. exact (conj Hk Hc).
Defined.

Lemma activate_selects_witness : exists files,
  @selected [] sample_id files (w_fs (@activate (lone_machine superuser []) [] sample_id start).2).
Proof.
  generalize run_activate_ok, start_wf. generalize start as w. generalize sample_id as id. intros id w Ha Hwf.
  apply andb_true_iff in Hwf as [Hd Hf].
  assert (real_dir (w_fs w) []) as Hr by (intros q Hq; apply prefix_nil_inv in Hq as ->; exact Hd).
  pose proof (@activate_selects (lone_machine superuser []) [] id w (lone_quiet _ _)
                (list.Forall_nil_2 _) Hr (fresh_okb_ok _ Hf)) as (_ & _ & Ho).
  destruct (@activate (lone_machine superuser []) [] id w) as [[u|e] w']; [|discriminate Ha].
  destruct Ho as (files & _ & Hsel). exists files. exact Hsel.
Defined.

(** When the last [fsync] of the selector's directory fails, activation raises and
    takes back the links it created, but the selector stays: it was replaced before
    the failure, and the rollback does not know it. *)
Definition half_done (run : res unit * world) : bool :=
  negb (succeeded run.1) && bool_decide (links_in_place (w_fs run.2) = 0%nat)
  && bool_decide (selector (w_fs run.2) = Some (str "deployments/" ++ sample_id)).

Theorem selector_survives_rollback :
  half_done (@activate (lone_machine superuser [1171%nat]) [] sample_id start) = true.
Proof. vm_cast_no_check (@eq_refl bool true). Qed.
End DeploymentRun.
