(* ===== verification/ReleaseManifest.v ===== *)
(** * Release manifests (scripts/runtime-release-manifest.py)

    The manifest of a release: the version, size and digest of each of its seven
    executables.  What an executable prints when it is started with [--version] is a
    parameter. *)
From Stdlib Require Import ZArith Lia.
From Stdlib Require Import Init.Byte.
From stdpp Require Import base list sets strings option gmap.
From S2P Require Import Prelude PyStr PyVal Bytes Json Sys.

Open Scope string_scope.
Open Scope list_scope.
Open Scope Z_scope.

Module ReleaseManifest.

Definition COMPONENTS : list pystr := strs
  ["containerd-shim-multikernel-v2"; "mk-agent"; "mk-agentctl"; "mk-cni"; "mk-host-check"; "mknetd"; "mkruntimed"].

(** [IDENTITY]: the name, the version and the revision a component prints.  A name and a
    version hold no blank, so that the blanks separate the three. *)
Definition NAME : re :=
  Cat (Cls (fun c => in_range 97 122 c || is_ascii_digit c))
      (Star (Cls (fun c => in_range 97 122 c || is_ascii_digit c || one_of ".-" c))).
Definition VERSION_TEXT : re := Plus (Cls (fun c => negb (is_py_space c))).
Definition REVISION : re := Rep LOWER_HEX 40 40.
Definition identity_match (s : pystr) : option (pystr * pystr * pystr) :=
  match split_once 32 s with
  | Some (name, rest) =>
      match strip_prefix "version=" rest with
      | Some rest =>
          match split_once 32 rest with
          | Some (version, rest) =>
              match strip_prefix "revision=" rest with
              | Some rest =>
                  let revision := take 40 rest in
                  if fullmatch NAME name && fullmatch VERSION_TEXT version && fullmatch REVISION revision
                     && (drop 40 rest =s [10])
                  then Some (name, version, revision) else None
              | None => None
              end
          | None => None
          end
      | None => None
      end
  | None => None
  end.

(** What running a component with [--version] gives. *)
Record completed := Completed { returncode : Z; stdout : pystr; stderr : pystr }.

Section create.
Context `{machine}.

(** [subprocess.run(\[path, "--version"\], timeout=10)] *)
Variable version_command : fs -> path -> res completed.

Definition run_version (p : path) : M completed := query (fun f => version_command f p).

Definition digest (p : path) : M pystr := let* data := read_bytes p in mret (sha256 data).

Definition inspect (p : path) (expected_version expected_revision : pystr) : M pyval :=
  let* info := lstat p in
  mraise_if (negb (s_isreg (st_mode info)) || s_islnk (st_mode info)) ValueError
    "component must be a regular non-symlink file" ;;;
  mraise_if (Z.land (st_mode info) 0x49 =? 0) ValueError "component is not executable" ;;;
  let* result := run_version p in
  mraise_if (negb (returncode result =? 0) || negb (stderr result =s [])) ValueError "version command failed" ;;;
  match identity_match (stdout result) with
  | Some (name, version, revision) =>
      mraise_if (negb (name =s List.last p [])) ValueError "malformed component identity" ;;;
      mraise_if (negb (version =s expected_version)) ValueError "version does not match" ;;;
      mraise_if (negb (revision =s expected_revision)) ValueError "revision does not match" ;;;
      let* d := digest p in
      mret (VDict [(str "name", VStr (List.last p [])); (str "version", VStr version); (str "revision", VStr revision);
                   (str "size_bytes", VInt (st_size info)); (str "sha256", VStr d)])
  | None => mraise ValueError "malformed component identity"
  end.

Definition version_char (c : Z) : bool := is_alnum c || one_of ".+_-" c.
Definition VERSION : re := Cat (Cls is_alnum) (Rep (Cls version_char) 0 127).

(** [re.fullmatch(pattern, value)] of a value that may not be a string. *)
Definition match_value (r : re) (v : pyval) : res bool :=
  match v with VStr s => Ok (fullmatch r s) | _ => raise TypeError "expected string or bytes-like object" end.

Definition create (binary_dir : path) (expected_version expected_revision : pyval) : M pyval :=
  let* v := lift (match_value VERSION expected_version) in
  mraise_if (negb v) ValueError "expected version has an unsafe or empty value" ;;;
  let* r := lift (match_value REVISION expected_revision) in
  mraise_if (negb r) ValueError "expected revision must be a lowercase 40-hex commit" ;;;
  match expected_version, expected_revision with
  | VStr version, VStr revision =>
      let* components := mmap (fun name => inspect (binary_dir ++ [name]) version revision) COMPONENTS in
      mret (VDict [(str "schema_version", VInt 1); (str "runtime", VStr (str "io.containerd.multikernel.v2"));
                   (str "version", expected_version); (str "revision", expected_revision);
                   (str "components", VList components)])
  | _, _ => mraise TypeError "expected string or bytes-like object"
  end.

Definition payload (manifest : pyval) : bytes := ascii_bytes (dumps no_floats indented manifest ++ [10]).

Definition write_manifest (output : path) (manifest : pyval) : M unit :=
  let* descriptor := create_excl 0x1A4 output in
  mfinally (write_fd descriptor (payload manifest) ;;; fsync descriptor) (close descriptor).

Definition main (binary_dir output : path) (expected_version expected_revision : pystr) : M Z :=
  mcatch (let* manifest := create binary_dir (VStr expected_version) (VStr expected_revision) in
          write_manifest output manifest ;;; mret 0)
    (fun e => if is_os_error (exn_cls e) || is_value_error (exn_cls e) || bool_decide (exn_cls e = SubprocessError)
              then mret 1 else reraise e).
End create.
End ReleaseManifest.
