(* ===== verification/Binaries.v ===== *)
(** * Installed releases (scripts/manage-runtime-binaries.py)

    A release is a directory of executables with their manifest; the selector
    [current] and six command links make it active.  The whole program is modelled. *)
From Stdlib Require Import ZArith Lia.
From Stdlib Require Import Init.Byte.
From stdpp Require Import base list sets strings option gmap.
From S2P Require Import Prelude PyStr PyVal Bytes Json Sys ReleaseManifest.

Open Scope string_scope.
Open Scope list_scope.
Open Scope Z_scope.

Module Binaries.
Import ReleaseManifest.

Definition BASE : path := abs_path "/usr/local/lib/multikernel".
Definition LINKS : list (pystr * path) :=
  [(str "containerd-shim-multikernel-v2", abs_path "/usr/local/bin/containerd-shim-multikernel-v2");
   (str "mk-agentctl", abs_path "/usr/local/bin/mk-agentctl");
   (str "mk-host-check", abs_path "/usr/local/bin/mk-host-check");
   (str "mkruntimed", abs_path "/usr/local/sbin/mkruntimed");
   (str "mknetd", abs_path "/usr/local/sbin/mknetd");
   (str "mk-cni", abs_path "/opt/cni/bin/multikernel")].

Definition RELEASE_ID : re :=
  Cat (Cls is_alnum) (Cat (Rep (Cls version_char) 0 127) (Cat (Lit "-") (Rep LOWER_HEX 40 40))).

Definition rooted (root absolute : path) : path := root ++ absolute.

(** [f"{manifest['version']}-{manifest['revision']}"]; a verified manifest holds strings. *)
Definition release_id (manifest : pyval) : res pystr :=
  let! version := getitem manifest (str "version") in
  let! revision := getitem manifest (str "revision") in
  match version, revision with
  | VStr v, VStr r =>
      let value := v ++ str "-" ++ r in
      raise_if (negb (fullmatch RELEASE_ID value)) ValueError "manifest does not produce a safe release identity" ;;
      Ok value
  | _, _ => raise ValueError "manifest does not produce a safe release identity"
  end.

Definition expected_target (link : path) (component : pystr) : pystr :=
  let current_binary := BASE ++ [str "current"; str "bin"; component] in
  if startswith (path_text link) (str "/usr/local/") then relpath current_binary (removelast link)
  else path_text current_binary.

Section system.
Context `{machine}.
Variable version_command : fs -> path -> res completed.

(** [json.load] of a text file: decoded, then scanned. *)
Definition strict_json (p : path) : M pyval :=
  let* data := read_bytes p in
  let* text := lift (utf8_decode Strict data) in
  lift (loads (strict_pairs ValueError "duplicate JSON key" []) float_constant text).

Definition managed_link (p : path) (expected : pystr) : M bool :=
  let* l := is_symlink p in
  if l then let* t := readlink p in mret (t =s expected) else mret false.

Definition preflight_link (root : path) (u : unit) (cl : pystr * path) : M unit :=
  let '(component, link) := cl in
  let* present := lexists (rooted root link) in
  let* managed := (if present then managed_link (rooted root link) (expected_target link component) else mret true) in
  mraise_if (negb managed) ValueError "refuse unrelated existing command path".

Definition preflight_links (root : path) : M unit :=
  let current := rooted root (BASE ++ [str "current"]) in
  let* present := lexists current in
  let* bad := (if present then let* l := is_symlink current in mret (negb l) else mret false) in
  mraise_if bad ValueError "refuse non-symlink runtime activation path" ;;;
  mfor_each (preflight_link root) tt LINKS.

Definition require_directory (p : path) : M unit :=
  mcatch (lstat p ;;; mret tt)
    (fun e => if bool_decide (exn_cls e = FileNotFoundError) then mraise ValueError "missing directory" else reraise e) ;;;
  let* d := is_dir p in
  let* bad := (if negb d then mret true else is_symlink p) in
  mraise_if bad ValueError "must be a non-symlink directory".

Definition verify_release_input (manifest_path binary_dir : path) : M pyval :=
  require_directory binary_dir ;;;
  let* info := lstat manifest_path in
  let* bad := (if negb (s_isreg (st_mode info)) then mret true else is_symlink manifest_path) in
  mraise_if bad ValueError "release manifest must be a regular non-symlink file" ;;;
  let* manifest := strict_json manifest_path in
  let* version := lift (getitem manifest (str "version")) in
  let* revision := lift (getitem manifest (str "revision")) in
  let* observed := create version_command binary_dir version revision in
  mraise_if (negb (manifest == observed)) ValueError
    "manifest content differs from verified component identities and hashes" ;;;
  mret manifest.

Definition sync_directory (p : path) : M unit :=
  let* descriptor := open_ false true p in mfinally (fsync descriptor) (close descriptor).

Definition temporary_link (p : path) : path :=
  removelast p ++ [str "." ++ List.last p [] ++ str ".multikernel-" ++ int_repr getpid].

Definition atomic_symlink (target : pystr) (p : path) : M unit :=
  mkdir_parents 0x1FF (rev (removelast p)) ;;;
  let temporary := temporary_link p in
  let* e := lexists temporary in
  mraise_if e ValueError "temporary activation path already exists" ;;;
  symlink target temporary ;;;
  mcatch (rename temporary p ;;; sync_directory (removelast p))
    (fun e => ignore_not_found (unlink temporary) ;;; reraise e).

Definition verify_installed (root : path) (identifier : pystr) : M pyval :=
  mraise_if (negb (fullmatch RELEASE_ID identifier)) ValueError "invalid release identity" ;;;
  let directory := rooted root (BASE ++ [str "releases"; identifier]) in
  require_directory directory ;;;
  let* manifest := verify_release_input (directory ++ [str "release-manifest.json"]) (directory ++ [str "bin"]) in
  let* id := lift (release_id manifest) in
  mraise_if (negb (id =s identifier)) ValueError "installed release directory and manifest identity differ" ;;;
  mret manifest.

Definition activate_link (root : path) (created : list path) (cl : pystr * path) : M (list path) :=
  let '(component, link) := cl in
  let p := rooted root link in
  let expected := expected_target link component in
  let* managed := managed_link p expected in
  if managed then mret created else atomic_symlink expected p ;;; mret (created ++ [p]).

Definition rollback (created : list path) : M unit :=
  mfor_each (fun _ p => ignore_not_found (unlink p ;;; sync_directory (removelast p))) tt (rev created).

Definition activate (root : path) (identifier : pystr) : M unit :=
  preflight_links root ;;;
  verify_installed root identifier ;;;
  let* r := mfor_until (activate_link root) [] LINKS in
  match r with
  | (created, Some e) => rollback created ;;; reraise e
  | (created, None) =>
      mcatch (atomic_symlink (str "releases/" ++ identifier) (rooted root (BASE ++ [str "current"])))
        (fun e => rollback created ;;; reraise e)
  end.

(** [Path.mkdir(parents=True, mode=mode)] of a path that must not exist. *)
Definition mkdir_new_parents (perm : Z) (p : path) : M unit :=
  mcatch (mkdir perm p) (fun e =>
    if bool_decide (exn_cls e = FileNotFoundError) then
      mkdir_parents 0x1FF (rev (removelast p)) ;;; mkdir perm p
    else reraise e).

(** [shutil.copyfile(source, destination, follow_symlinks=False)] *)
Definition copyfile (source destination : path) : M unit :=
  let* l := is_symlink source in
  if l then let* t := readlink source in symlink t destination
  else
    let* input := open_ false false source in
    mfinally
      (let* output := open_truncate destination in
       mfinally (let* data := read_fd input in write_fd output data) (close output))
      (close input).

Definition stage_component (binary_dir output_bin : path) (u : unit) (component : pystr) : M unit :=
  let output := output_bin ++ [component] in
  let* descriptor := create_excl 0x1ED output in
  let* input := open_ false false (binary_dir ++ [component]) in
  mfinally
    (mfinally (let* data := read_fd input in write_fd descriptor data ;;; fsync descriptor) (close descriptor))
    (close input) ;;;
  chmod output 0x1ED.

Definition stage_release (releases : path) (identifier : pystr) (manifest_path binary_dir : path) : M unit :=
  let staging := releases ++ [str "." ++ identifier ++ str ".staging-" ++ int_repr getpid] in
  mkdir 0x1ED staging ;;;
  mcatch
    (let output_bin := staging ++ [str "bin"] in
     mkdir 0x1ED output_bin ;;;
     mfor_each (stage_component binary_dir output_bin) tt COMPONENTS ;;;
     copyfile manifest_path (staging ++ [str "release-manifest.json"]) ;;;
     chmod (staging ++ [str "release-manifest.json"]) 0x1A4 ;;;
     sync_directory output_bin ;;;
     sync_directory staging ;;;
     let* staged_manifest := verify_release_input (staging ++ [str "release-manifest.json"]) output_bin in
     let* id := lift (release_id staged_manifest) in
     mraise_if (negb (id =s identifier)) ValueError "staged release and manifest identity differ" ;;;
     rename staging (releases ++ [identifier]) ;;;
     sync_directory releases)
    (fun e => ignore_errors (rmtree staging) ;;; reraise e).

(** An existing directory, or a new one. *)
Definition ensure_directory (p : path) (make : M unit) : M unit :=
  let* present := lexists p in if present then require_directory p else make.

Definition install (root manifest_path binary_dir : path) : M pystr :=
  preflight_links root ;;;
  let* manifest := verify_release_input manifest_path binary_dir in
  let* identifier := lift (release_id manifest) in
  let base := rooted root BASE in
  ensure_directory base (mkdir_new_parents 0x1ED base) ;;;
  let releases := base ++ [str "releases"] in
  ensure_directory releases (mkdir 0x1ED releases) ;;;
  let destination := releases ++ [identifier] in
  let* present := lexists destination in
  (if present then
     let* installed_manifest := verify_installed root identifier in
     mraise_if (negb (installed_manifest == manifest)) ValueError
       "release identity already exists with different manifest content"
   else
     stage_release releases identifier manifest_path binary_dir ;;;
     mcatch (verify_installed root identifier ;;; mret tt)
       (fun e => ignore_errors (rmtree destination) ;;; sync_directory releases ;;; reraise e)) ;;;
  activate root identifier ;;;
  mret identifier.

Definition require_present (p : path) : M unit :=
  let* present := lexists p in if present then require_directory p else mret tt.

Definition link_report (root : path) (cl : pystr * path) : M (pystr * pyval) :=
  let '(component, link) := cl in
  let p := rooted root link in
  let* present := lexists p in
  let* managed := managed_link p (expected_target link component) in
  let* l := is_symlink p in
  let* target := (if l then let* t := readlink p in mret (VStr t) else mret VNone) in
  mret (path_text link, VDict [(str "present", VBool present); (str "managed", VBool managed); (str "target", target)]).

Definition inspection (root : path) : M dict :=
  let base := rooted root BASE in
  let current := base ++ [str "current"] in
  let releases := base ++ [str "releases"] in
  require_present base ;;;
  require_present releases ;;;
  let* l := is_symlink current in
  let* active := (if l then let* t := readlink current in mret (VStr t) else mret VNone) in
  let* d := is_dir releases in
  let* listed := (if d then
      let* entries := listdir releases in
      mfor_each (fun acc name =>
        let* sub := is_dir (releases ++ [name]) in
        mret (if sub && negb (startswith name (str ".")) then acc ++ [name] else acc)) [] entries
    else mret []) in
  let* links := mmap (link_report root) LINKS in
  mret [(str "active", active); (str "releases", VList (map VStr (sorted_strs listed))); (str "links", VDict links)].

Definition uninstall_link (root : path) (u : unit) (cl : pystr * path) : M unit :=
  let '(component, link) := cl in
  let p := rooted root link in
  let* managed := managed_link p (expected_target link component) in
  if managed then unlink p ;;; sync_directory (removelast p) else mret tt.

Definition uninstall (root : path) (apply : bool) : M dict :=
  let* report := inspection root in
  let report := dset (str "applied") (VBool apply) (dset (str "operation") (VStr (str "uninstall")) report) in
  if negb apply then mret report
  else
    preflight_links root ;;;
    mfor_each (uninstall_link root) tt LINKS ;;;
    let current := rooted root (BASE ++ [str "current"]) in
    let* l := is_symlink current in
    (if l then unlink current ;;; sync_directory (removelast current) else mret tt) ;;;
    let* final := inspection root in
    mret (dset (str "preserved_releases") (get final (str "releases")) report).

Definition remove_release (root : path) (identifier : pystr) (apply : bool) : M dict :=
  let* manifest := verify_installed root identifier in
  let current := rooted root (BASE ++ [str "current"]) in
  let* l := is_symlink current in
  let* active := (if l then let* t := readlink current in mret (t =s (str "releases/" ++ identifier)) else mret false) in
  mraise_if active ValueError "refuse to remove the active release" ;;;
  let* version := lift (getitem manifest (str "version")) in
  let report := [(str "operation", VStr (str "remove-release")); (str "release", VStr identifier);
                 (str "version", version); (str "applied", VBool apply)] in
  (if apply then
     let directory := rooted root (BASE ++ [str "releases"; identifier]) in
     rmtree directory ;;; sync_directory (removelast directory)
   else mret tt) ;;;
  mret report.

Inductive command :=
  | Inspect
  | Install (manifest binary_dir : path)
  | Activate (release : pystr)
  | Uninstall (apply : bool)
  | RemoveRelease (release : pystr) (apply : bool).

Definition mutation (c : command) : bool :=
  match c with
  | Install _ _ | Activate _ => true
  | Uninstall apply | RemoveRelease _ apply => apply
  | Inspect => false
  end.

Definition require_privilege (root : path) (mutation : bool) : M unit :=
  mraise_if (mutation && bool_decide (root = []) && negb (euid me =? 0)) PermissionError "system mutation requires root".

Definition run_command (root : path) (c : command) : M pyval :=
  require_privilege root (mutation c) ;;;
  match c with
  | Inspect => let* r := inspection root in mret (VDict r)
  | Install m b => let* id := install root m b in mret (VDict [(str "installed_and_active", VStr id)])
  | Activate r => activate root r ;;; mret (VDict [(str "active", VStr r)])
  | Uninstall a => let* r := uninstall root a in mret (VDict r)
  | RemoveRelease r a => let* d := remove_release root r a in mret (VDict d)
  end.

(** The exit status and the report, or the exception that escapes. *)
Definition main (root : path) (c : command) : M (Z * option pystr) :=
  mcatch (let* r := run_command root c in mret (0, Some (dumps no_floats indented r)))
    (fun e => if is_os_error (exn_cls e) || is_value_error (exn_cls e)
                 || bool_decide (exn_cls e ∈ [KeyError; TypeError])
              then mret (1, None) else reraise e).
End system.
End Binaries.
