(* ===== verification/BinariesSafe.v ===== *)
(** * What the release manager guarantees

    A release that verifies holds the executables its manifest describes; a manifest
    the manifest program creates verifies; activation changes nothing but the links
    it manages. *)
From Stdlib Require Import ZArith Lia.
From Stdlib Require Import Init.Byte.
From stdpp Require Import base list sets strings option gmap.
From S2P Require Import Prelude PyStr PyVal Bytes Json JsonTrip Sys FsRules Links ReleaseManifest Binaries.

Open Scope string_scope.
Open Scope list_scope.
Open Scope Z_scope.

Module BinariesSafe.
Import ReleaseManifest Binaries.

Section verified.
Context `{machine} (Hquiet : quiet).
Variable version_command : fs -> path -> res completed.

(** ** Components *)

Definition entry_of (name version revision : pystr) (data : bytes) : pyval :=
  VDict [(str "name", VStr name); (str "version", VStr version); (str "revision", VStr revision);
         (str "size_bytes", VInt (zlen data)); (str "sha256", VStr (sha256 data))].

(** The executable [name] in [binary_dir] is a regular file that says it is [version]
    and [revision], and [entry] describes its content. *)
Definition component (f : fs) (binary_dir : path) (version revision name : pystr) (entry : pyval) : Prop :=
  exists ino n data c, node_of f (binary_dir ++ [name]) ino n /\ i_kind n = KFile data /\
    Z.land (st_mode (stat_of ino n)) 0x49 <> 0 /\
    version_command f (binary_dir ++ [name]) = Ok c /\ returncode c = 0 /\ stderr c = [] /\
    identity_match (stdout c) = Some (name, version, revision) /\
    entry = entry_of name version revision data.

Lemma obs_inspect f binary_dir name version revision :
  observes f (inspect version_command (binary_dir ++ [name]) version revision)
    (component f binary_dir version revision name).
Proof.
  unfold inspect. eapply obs_bind; [by apply obs_query|]. intros info Hi. apply stat_node in Hi as (ino & n & Hn & ->).
  eapply obs_bind; [apply obs_raise_if|]. intros ? Hreg. cbv beta in Hreg. bool_prop.
  eapply obs_bind; [apply obs_raise_if|]. intros ? Hx. cbv beta in Hx.
  eapply obs_bind; [by apply obs_query|]. intros c Hc. cbv beta in Hc.
  eapply obs_bind; [apply obs_raise_if|]. intros ? Hrc. cbv beta in Hrc. bool_prop. str_prop.
  destruct (identity_match (stdout c)) as [[[name' v'] r']|] eqn:Hid; [|apply obs_raise]. rewrite !last_last.
  do 3 (eapply obs_bind; [apply obs_raise_if|]; intros ? ?; cbv beta in *). bool_prop. str_prop. subst.
  eapply (obs_bind f _ (fun d => exists data, i_kind n = KFile data /\ d = sha256 data)).
  { eapply obs_bind; [by apply obs_read_bytes|]. intros data (fd & Ho & Hr). apply obs_ret. exists data.
    split; [|done]. by eapply read_regular. }
  intros d (data & Hk & ->). apply obs_ret. exists ino, n, data, c. repeat split; try done.
  unfold entry_of. cbn [st_size stat_of]. by rewrite Hk.
Qed.

Definition release (version revision : pystr) (components : list pyval) : pyval :=
  VDict [(str "schema_version", VInt 1); (str "runtime", VStr (str "io.containerd.multikernel.v2"));
         (str "version", VStr version); (str "revision", VStr revision); (str "components", VList components)].

(** What [create] saw. *)
Definition described (f : fs) (binary_dir : path) (version revision : pyval) (manifest : pyval) : Prop :=
  exists v r components, version = VStr v /\ revision = VStr r /\
    fullmatch VERSION v = true /\ fullmatch REVISION r = true /\
    Forall2 (component f binary_dir v r) COMPONENTS components /\ manifest = release v r components.

Lemma obs_create f binary_dir version revision :
  observes f (create version_command binary_dir version revision) (described f binary_dir version revision).
Proof.
  unfold create. eapply obs_bind; [apply obs_lift|]. intros bv Hv. eapply obs_bind; [apply obs_raise_if|]. intros ? Hbv.
  eapply obs_bind; [apply obs_lift|]. intros br Hr. eapply obs_bind; [apply obs_raise_if|]. intros ? Hbr. cbv beta in *.
  destruct version as [| | | |v| |]; try done. destruct revision as [| | | |r| |]; try done.
  simpl in Hv, Hr. inv_ok. bool_prop.
  eapply obs_bind; [apply (obs_mmap f (component f binary_dir v r)); intros; apply obs_inspect|].
  intros components Hc. apply obs_ret. exists v, r, components. done.
Qed.

Lemma obs_require_directory f p : observes f (require_directory p) (fun _ => True).
Proof.
  unfold require_directory. eapply (obs_bind f _ (fun _ => True)).
  { apply obs_catch; [|intros e; case_bool_decide; [apply obs_raise|apply obs_reraise]].
    eapply obs_bind; [by apply obs_query|]. intros ? _. by apply obs_ret. }
  intros ? _. eapply obs_bind; [by apply obs_is_dir|]. intros d _. eapply (obs_bind f _ (fun _ => True)).
  { destruct (negb d); [by apply obs_ret|]. eapply obs_any. by apply obs_is_symlink. }
  intros b _. eapply obs_any, obs_raise_if.
Qed.

Lemma obs_strict_json f p : observes f (strict_json p) (fun _ => True).
Proof.
  unfold strict_json. eapply obs_bind; [by apply obs_read_bytes|]. intros d _. eapply obs_bind; [apply obs_lift|].
  intros t _. eapply obs_any, obs_lift.
Qed.

Lemma obs_verify_release_input f manifest_path binary_dir :
  observes f (verify_release_input version_command manifest_path binary_dir) (fun manifest =>
    exists version revision observed, getitem manifest (str "version") = Ok version /\
      getitem manifest (str "revision") = Ok revision /\ described f binary_dir version revision observed /\
      (manifest == observed)%py = true).
Proof.
  unfold verify_release_input. eapply obs_bind; [apply obs_require_directory|]. intros ? _.
  eapply obs_bind; [by apply obs_query|]. intros info _. eapply (obs_bind f _ (fun _ => True)).
  { destruct (negb _); [by apply obs_ret|]. eapply obs_any. by apply obs_is_symlink. }
  intros bad _. eapply obs_bind; [apply obs_raise_if|]. intros ? _.
  eapply obs_bind; [apply obs_strict_json|]. intros manifest _.
  eapply obs_bind; [apply obs_lift|]. intros version Hv. eapply obs_bind; [apply obs_lift|]. intros revision Hr.
  eapply obs_bind; [apply obs_create|]. intros observed Ho. eapply obs_bind; [apply obs_raise_if|]. intros ? He.
  apply obs_ret. cbv beta in *. bool_prop. eauto 10.
Qed.

Definition release_directory (root : path) (id : pystr) : path := rooted root (BASE ++ [str "releases"; id]).

(** A verified release. *)
Definition installed_release (f : fs) (root : path) (id : pystr) (manifest : pyval) : Prop :=
  exists v r components, id = v ++ str "-" ++ r /\
    Forall2 (component f (release_directory root id ++ [str "bin"]) v r) COMPONENTS components /\
    (manifest == release v r components)%py = true.

Lemma obs_verify_installed f root id :
  observes f (verify_installed version_command root id) (installed_release f root id).
Proof.
  unfold verify_installed. eapply obs_bind; [apply obs_raise_if|]. intros ? _.
  eapply obs_bind; [apply obs_require_directory|]. intros ? _.
  eapply obs_bind; [apply obs_verify_release_input|].
  intros manifest (version & revision & observed & Hv & Hr & (v & r & cs & -> & -> & _ & _ & Hc & ->) & He).
  eapply obs_bind; [apply obs_lift|]. intros id' Hid. eapply obs_bind; [apply obs_raise_if|]. intros ? Heq.
  apply obs_ret. cbv beta in *. bool_prop. str_prop. subst id'. unfold release_id in Hid. rewrite Hv in Hid. simpl in Hid.
  rewrite Hr in Hid. simpl in Hid. inv_ok. by exists v, r, cs.
Qed.
End verified.

(** C16. A release that verifies is what its manifest says: its name is the version and
    the revision, each of the seven executables is a regular executable file that
    reports that version and revision about itself, and the manifest equals the one
    their names, sizes and digests determine.  Verification changes nothing, whichever
    system call fails. *)
Theorem verified_release `{machine} version_command root id w : quiet ->
  match verify_installed version_command root id w with
  | (Ok manifest, w') => w_fs w' = w_fs w /\ installed_release version_command (w_fs w) root id manifest
  | (Err _, w') => w_fs w' = w_fs w
  end.
Proof. intros Hq. by apply (obs_run (w_fs w) _ _ w (obs_verify_installed Hq version_command (w_fs w) root id)). Qed.

(** ** A created manifest verifies *)

Lemma version_chars v : fullmatch VERSION v = true -> text_ok v = true.
Proof.
  intros Hv. apply ascii_text_ok. revert Hv. apply fullmatch_chars. cbn [re_chars VERSION].
  split; intros c; unfold version_char, is_alnum, in_range; [lia|]. intros Hc.
  apply orb_true_iff in Hc as [Hc|Hc]; [lia|]. unfold one_of, has_char in Hc. bool_prop. change (c ∈ [46; 43; 95; 45]) in Hc.
  repeat (apply elem_of_cons in Hc as [->|Hc]; [lia|]). by apply elem_of_nil in Hc.
Qed.

Lemma revision_chars r : fullmatch REVISION r = true -> text_ok r = true.
Proof.
  intros Hr. apply ascii_text_ok. revert Hr. apply fullmatch_chars. cbn [re_chars REVISION LOWER_HEX].
  intros c. unfold is_lower_hex, in_range. lia.
Qed.

(** Files have sizes below 2^63. *)
Definition sized (f : fs) : Prop := forall ino n d, nodes f !! ino = Some n -> i_kind n = KFile d -> zlen d < 2 ^ 63.

Section created.
Context `{machine} (Hok : faultless).
Variable version_command : fs -> path -> res completed.
Variable f : fs.
Hypothesis f_sized : sized f.

Lemma component_jsonable binary_dir v r name entry : fullmatch VERSION v = true -> fullmatch REVISION r = true ->
  text_ok name = true -> component version_command f binary_dir v r name entry -> jsonable entry = true.
Proof.
  intros Hv Hr Hname (ino & n & data & c & (loc & _ & Hn) & Hk & _ & _ & _ & _ & _ & ->).
  apply node_at_nodes in Hn as [_ Hn]. pose proof (f_sized _ _ _ Hn Hk) as Hs.
  assert (jsonable (VInt (zlen data)) = true) as Hi.
  { apply int_jsonable. assert (2 ^ 63 < 2 ^ 4000) by (apply Z.pow_lt_mono_r; lia). unfold zlen in *. lia. }
  cbn [jsonable] in Hi. unfold entry_of. cbn [jsonable forallb snd fst map]. rewrite Hi, Hname, (version_chars v Hv), (revision_chars r Hr).
  unfold sha256. rewrite hex_of_text_ok. vm_compute. reflexivity.
Qed.

Lemma described_jsonable binary_dir version revision m : described version_command f binary_dir version revision m -> jsonable m = true.
Proof.
  intros (v & r & cs & -> & -> & Hv & Hr & Hc & ->).
  assert (forallb jsonable cs = true) as Hcs.
  { assert (Forall (fun n => text_ok n = true) COMPONENTS) as Hnames by (repeat constructor).
    revert Hnames. induction Hc as [|n e ns es He _ IH]; intros Hnames; simpl; [done|].
    apply Forall_cons_iff in Hnames as [Hn Hns]. rewrite IH by done. by erewrite component_jsonable. }
  unfold release. cbn [jsonable forallb snd fst map]. rewrite Hcs, (version_chars v Hv), (revision_chars r Hr).
  vm_compute. reflexivity.
Qed.

Lemma canon_release v r cs : canon indented (release v r cs) =
  VDict [(str "components", VList (map (canon indented) cs)); (str "revision", VStr r);
         (str "runtime", VStr (str "io.containerd.multikernel.v2")); (str "schema_version", VInt 1); (str "version", VStr v)].
Proof. reflexivity. Qed.

Lemma runs_is_symlink p s : fs_stat false f p = Ok s -> runs (is_symlink p) f (Ok (s_islnk (st_mode s))) f.
Proof.
  intros Hs. apply (runs_catch _ _ f (s_islnk (st_mode s)) f). eapply runs_bind; [by apply (runs_query Hok _ _ (Ok s))|].
  apply runs_ret.
Qed.

Lemma stat_nonlink p ino n : node_of f p ino n -> not_link (i_kind n) ->
  fs_stat false f p = Ok (stat_of ino n) /\ fs_stat true f p = Ok (stat_of ino n).
Proof.
  intros (loc & Hl & Hn) Hk. unfold fs_stat. rewrite Hl, (resolve_nonlink _ _ _ _ _ Hl Hn Hk). simpl. by rewrite Hn.
Qed.

Lemma runs_require_directory p ino n : node_of f p ino n -> i_kind n = KDir -> runs (require_directory p) f (Ok tt) f.
Proof.
  intros Hn Hk. destruct (stat_nonlink p ino n Hn) as [Hs Hs']; [by rewrite Hk|].
  unfold require_directory. eapply runs_bind.
  { apply (runs_catch _ _ f tt f). eapply runs_bind; [by apply (runs_query Hok _ _ (Ok (stat_of ino n)))|]. apply runs_ret. }
  eapply runs_bind.
  { apply (runs_catch _ _ f true f). eapply runs_bind; [by apply (runs_query Hok _ _ (Ok (stat_of ino n)))|].
    rewrite (s_isdir_stat ino n Hk). apply runs_ret. }
  cbn [negb]. eapply runs_bind; [by apply (runs_is_symlink p (stat_of ino n))|].
  unfold s_islnk. rewrite s_ifmt_stat, Hk. apply runs_lift.
Qed.

Lemma runs_read_bytes p ino n d : node_of f p ino n -> i_kind n = KFile d -> runs (read_bytes p) f (Ok d) f.
Proof.
  intros Hn Hk. pose proof Hn as (loc & Hl & Ha). unfold read_bytes.
  eapply runs_bind.
  { apply (runs_query Hok _ _ (Ok ino)). unfold fs_open. cbn [negb].
    rewrite (resolve_nonlink _ _ _ _ _ Hl Ha ltac:(by rewrite Hk)). simpl. by rewrite Ha, Hk. }
  eapply runs_bind.
  { apply (runs_query Hok _ _ (Ok d)). unfold fs_read. apply node_at_nodes in Ha as [_ Ha]. by rewrite Ha, Hk. }
  eapply runs_bind; [by apply (runs_query Hok _ _ (Ok tt))|]. apply runs_ret.
Qed.

(** C17. A manifest that [create] makes and the manifest program writes, kept beside the
    same executables, verifies: the text it is stored as decodes to an equal manifest,
    and the second inspection finds the same components. *)
Theorem created_manifest_verifies binary_dir manifest_path version revision manifest bi bn mi mn :
  runs (create version_command binary_dir (VStr version) (VStr revision)) f (Ok manifest) f ->
  node_of f binary_dir bi bn -> i_kind bn = KDir ->
  node_of f manifest_path mi mn -> i_kind mn = KFile (payload manifest) ->
  runs (verify_release_input version_command manifest_path binary_dir) f (Ok (canon indented manifest)) f
  /\ (canon indented manifest == manifest)%py = true.
Proof.
  intros Hc Hb Hbk Hm Hmk.
  assert (described version_command f binary_dir (VStr version) (VStr revision) manifest) as Hd.
  { destruct (Hc O) as [c' Hrun].
    pose proof (obs_create (proj1 Hok) version_command f binary_dir (VStr version) (VStr revision) (World f O) eq_refl) as Ho.
    rewrite Hrun in Ho. apply Ho. }
  pose proof (described_jsonable _ _ _ _ Hd) as Hj. pose proof (py_same_canon indented manifest Hj) as Hsame.
  assert ((canon indented manifest == manifest)%py = true) as Heq.
  { destruct Hd as (v & r & cs & _ & _ & _ & _ & _ & ->). unfold py_eq. rewrite canon_release in Hsame |- *. exact Hsame. }
  split; [|done]. unfold verify_release_input. eapply runs_bind; [by eapply runs_require_directory|].
  destruct (stat_nonlink manifest_path mi mn Hm) as [Hs _]; [by rewrite Hmk|].
  eapply runs_bind; [by apply (runs_query Hok _ _ (Ok (stat_of mi mn)))|].
  eapply (runs_bind _ _ f false f).
  { unfold s_isreg. rewrite s_ifmt_stat, Hmk. cbn [negb Z.eqb]. replace false with (s_islnk (st_mode (stat_of mi mn))).
    - by apply runs_is_symlink.
    - unfold s_islnk. by rewrite s_ifmt_stat, Hmk. }
  eapply runs_bind; [apply runs_lift|].
  eapply (runs_bind _ _ f (canon indented manifest) f).
  { unfold strict_json. eapply runs_bind; [by eapply runs_read_bytes|].
    destruct (utf8_decode Strict (payload manifest)) as [text|e] eqn:Ht.
    - eapply runs_bind; [apply runs_lift|]. unfold payload in Ht.
      erewrite <-(loads_utf8_dumps no_floats indented (strict_pairs ValueError "duplicate JSON key" []) float_constant manifest [10] text);
        [apply runs_lift|done| |done|done|done].
      intros d Hnd. apply strict_pairs_ok; [constructor|done].
    - unfold payload in Ht. rewrite utf8_decode_ascii in Ht; [done|].
      assert (printable (dumps no_floats indented manifest ++ [10])) as Hp.
      { apply printable_app; [|by repeat constructor]. unfold dumps. rewrite dumps_canon.
        apply dumps_printable; [done|done|by apply jsonable_canon]. }
      eapply list.Forall_impl; [exact Hp|]. simpl. lia. }
  pose proof Hd as (v & r & cs & [= ->] & [= ->] & _ & _ & _ & Hman).
  eapply (runs_bind _ _ f (VStr v) f); [rewrite Hman, canon_release; apply runs_lift|].
  eapply (runs_bind _ _ f (VStr r) f); [rewrite Hman, canon_release; apply runs_lift|].
  eapply runs_bind; [exact Hc|]. rewrite Heq. eapply runs_bind; [apply runs_lift|]. apply runs_ret.
Qed.
End created.

(** ** Activation *)

Definition CURRENT : path := BASE ++ [str "current"].
Definition SELECTED : list path := CURRENT :: map snd LINKS.
Definition LINK_DIRS : list path := map (@removelast pystr) SELECTED.

Section activation.
Context `{machine} (Hquiet : quiet).
Variable version_command : fs -> path -> res completed.
Variable root : path.
Hypothesis root_plain : plain_path root.

(** The names activation may change in [f]: the links and their temporary names, and the
    directories that lead to a link and do not exist yet. *)
Definition leading (k : path) : Prop := exists d, d ∈ LINK_DIRS /\ k `prefix_of` root ++ d.
Definition own (k : path) : Prop := exists p, p ∈ SELECTED /\ own_link (root ++ p) k.
Definition managed (f : fs) (k : path) : Prop := own k \/ (leading k /\ names f !! k = None).

(** No link and no file stands on the way to a link's directory: each part of it is a
    directory or is missing. *)
Definition dirs_clear (f : fs) : Prop := forall d, d ∈ LINK_DIRS -> way f (root ++ d).

Lemma selected_facts p : p ∈ SELECTED -> exists d c, p = d ++ [c] /\ d ∈ LINK_DIRS /\ plain_path (d ++ [c]) /\
  startswith c (str ".") = false.
Proof.
  intros Hp.
  assert (forallb (fun p => bool_decide (p = removelast p ++ [List.last p []]) && forallb plain_name p
            && negb (startswith (List.last p []) (str "."))) SELECTED = true) as Hc by (vm_compute; reflexivity).
  rewrite forallb_forall in Hc. pose proof Hp as Hin. apply list_elem_of_In, Hc in Hin. bool_prop.
  exists (removelast p), (List.last p []). split; [done|]. split; [apply list_elem_of_fmap; eauto|].
  rewrite <-H0. split; [|done]. rewrite forallb_forall in H2. apply list.Forall_forall. intros x Hx. by apply H2, list_elem_of_In.
Qed.

Lemma own_link_other p q : p ∈ SELECTED -> q ∈ SELECTED -> p <> q -> ~ own_link (root ++ p) (root ++ q).
Proof.
  intros Hp Hq Hne [He|He]; [by apply app_inv_head in He|].
  apply selected_facts in Hp as (d & c & -> & _). apply selected_facts in Hq as (d' & c' & -> & _ & _ & Hc').
  rewrite !app_assoc, temporary_link_snoc in He. apply app_inj_tail in He as [_ ->]. done.
Qed.

(** The directories that lead to the links are none of the managed names. *)
Lemma leading_not_own k : leading k -> ~ own k.
Proof.
  intros (d & Hd & Hk) (p & Hp & Ho).
  assert (forall c : pystr, root ++ removelast p ++ [c] = k ->
    existsb (below (removelast p ++ [c])) LINK_DIRS = true) as Hin.
  { intros c <-. apply existsb_exists. exists d. split; [by apply list_elem_of_In|]. unfold below. apply bool_decide_eq_true.
    destruct Hk as [r Hr]. rewrite <-app_assoc in Hr. apply app_inv_head in Hr. by exists r. }
  pose proof Hp as (d' & c & -> & _ & _ & Hdot)%selected_facts. rewrite removelast_last in Hin. destruct Ho as [->| ->].
  - specialize (Hin c eq_refl).
    assert (forallb (fun p => negb (existsb (below p) LINK_DIRS)) SELECTED = true) as Hall by (vm_compute; reflexivity).
    rewrite forallb_forall in Hall. apply list_elem_of_In, Hall in Hp. cbv beta in Hp. by rewrite Hin in Hp.
  - rewrite app_assoc, temporary_link_snoc, <-app_assoc in Hin. specialize (Hin (temporary_name c) eq_refl).
    apply existsb_exists in Hin as (e & He & Hb). unfold below in Hb. bool_prop. destruct Hb as [r ->].
    assert (forallb (forallb (fun x => negb (startswith x (str ".")))) LINK_DIRS = true) as Hall by (vm_compute; reflexivity).
    rewrite forallb_forall in Hall. apply Hall in He. rewrite forallb_forall in He.
    assert (In (temporary_name c) ((d' ++ [temporary_name c]) ++ r)) as Hx by (rewrite !in_app_iff; simpl; tauto).
    apply He in Hx. done.
Qed.

(** One replaced link: directories made on the way to it, then its own names. *)
Definition step (p : path) (f g : fs) : Prop :=
  exists m, grown (root ++ removelast p) f m /\ changes_only (own_link (root ++ p)) m g.

Lemma replace_frame f1 target p : fresh_ok f1 -> dirs_clear f1 -> p ∈ SELECTED ->
  triple (fun x => x = f1) (atomic_symlink target (root ++ p))
    (fun _ f => step p f1 f /\ linked f (root ++ p) target)
    (fun f => step p f1 f /\ (names f !! (root ++ p) = names f1 !! (root ++ p) \/ linked f (root ++ p) target)).
Proof.
  intros Hf Hd Hp. apply selected_facts in Hp as (d & c & -> & Hdir & Hpl & _). unfold step.
  rewrite removelast_last, app_assoc. change (@atomic_symlink H) with (@swap_link H "temporary activation path already exists").
  apply (swap_link_made Hquiet); [done| |by apply Hd]. rewrite <-app_assoc. apply plain_app. by split.
Qed.

Lemma step_linked p q f g t : p ∈ SELECTED -> q ∈ SELECTED -> p <> q -> step p f g ->
  linked f (root ++ q) t -> linked g (root ++ q) t.
Proof.
  intros Hp Hq Hne (m & Hm & Hg) Hl. eapply changes_only_linked; [exact Hg|by apply own_link_other|].
  by eapply grown_linked.
Qed.

Lemma step_names p q f g : p ∈ SELECTED -> q ∈ SELECTED -> p <> q -> step p f g ->
  names g !! (root ++ q) = names f !! (root ++ q).
Proof.
  intros Hp Hq Hne (m & Hm & Hg). rewrite (co_names _ _ _ Hg) by (by apply own_link_other).
  apply (co_names _ _ _ (gr_changes _ _ _ Hm)). intros [Hpre _]. apply (leading_not_own (root ++ q)).
  - apply selected_facts in Hp as (d & c & -> & Hd & _). rewrite removelast_last in Hpre. by exists d.
  - exists q. split; [done|by left].
Qed.

Lemma link_is_selected cl : cl ∈ LINKS -> cl.2 ∈ SELECTED /\ cl.2 <> CURRENT.
Proof.
  intros Hl. split; [right; apply list_elem_of_fmap; eauto|].
  assert (forallb (fun l => negb (bool_decide (l.2 = CURRENT))) LINKS = true) as Hall by (vm_compute; reflexivity).
  rewrite forallb_forall in Hall. apply list_elem_of_In, Hall in Hl. bool_prop. done.
Qed.

Lemma obs_managed f p expected : observes f (managed_link p expected) (fun _ => True).
Proof.
  unfold managed_link. eapply obs_bind; [by apply obs_is_symlink|]. intros l _. destruct l; [|by apply obs_ret].
  eapply obs_bind; [by apply obs_query|]. intros t _. by apply obs_ret.
Qed.

Lemma obs_managed_selected f p expected : dirs_clear f -> p ∈ SELECTED ->
  observes f (managed_link (root ++ p) expected) (fun b => b = true -> linked f (root ++ p) expected).
Proof.
  intros Hd Hs. unfold managed_link. eapply obs_bind; [by apply obs_is_symlink|]. intros l _.
  destruct l; [|by apply obs_ret]. eapply obs_bind; [by apply obs_query|]. intros t Ht. cbv beta in Ht. apply obs_ret.
  intros Hb. str_prop. subst t. unfold fs_readlink in Ht. apply selected_facts in Hs as (d & c & -> & Hdir & Hpl & _).
  rewrite app_assoc in Ht |- *. destruct (resolve f false _) as [loc|] eqn:Hl; [|done].
  apply resolve_below in Hl as [-> _]; [|rewrite <-app_assoc; apply plain_app; by split|by apply Hd].
  simpl in Ht. destruct (node_at f _) as [[ino n]|] eqn:Hn; [|done]. destruct (i_kind n) eqn:Hk; try done.
  injection Ht as ->. exists ino, n. by split.
Qed.

Lemma obs_preflight_binaries f : observes f (preflight_links root) (fun _ => True).
Proof.
  unfold preflight_links. eapply obs_bind; [by apply obs_lexists|]. intros b _. eapply (obs_bind f _ (fun _ => True)).
  { destruct b; [|by apply obs_ret]. eapply obs_bind; [by apply obs_is_symlink|]. intros; by apply obs_ret. }
  intros bad _. eapply obs_bind; [apply obs_raise_if|]. intros ? _.
  apply (obs_for_each f (fun _ _ => True)); [done|]. intros don [component link] rest u _ _. unfold preflight_link.
  eapply obs_bind; [by apply obs_lexists|]. intros p _. eapply (obs_bind f _ (fun _ => True)).
  { destruct p; [apply obs_managed|by apply obs_ret]. }
  intros m _. eapply obs_any, obs_raise_if.
Qed.

Section run.
Variables (id : pystr) (f0 : fs).
Hypotheses (f0_fresh : fresh_ok f0) (f0_dirs : dirs_clear f0).

(** Within the frame; the selector is as it was, or selects the release. *)
Definition framed (f : fs) : Prop := changes_only (managed f0) f0 f /\ dirs_clear f.
Definition selector_kept (f : fs) : Prop := names f !! (root ++ CURRENT) = names f0 !! (root ++ CURRENT).
Definition outcome (f : fs) : Prop := framed f /\ (selector_kept f \/ linked f (root ++ CURRENT) (str "releases/" ++ id)).

Definition links_set (don : list (pystr * path)) (f : fs) : Prop :=
  forall cl, cl ∈ don -> linked f (root ++ cl.2) (expected_target cl.2 cl.1).
Definition ours (created : list path) : Prop := forall p, p ∈ created -> exists cl, cl ∈ LINKS /\ p = root ++ cl.2.

Lemma framed_refl : framed f0.
Proof. split; [by apply changes_only_refl|done]. Qed.

Lemma framed_dirs f : framed f -> dirs_clear f /\ fresh_ok f.
Proof. intros [Hc Hd]. split; [done|apply (co_fresh _ _ _ Hc)]. Qed.

(** Changing the names of a managed link stays in the frame. *)
Lemma framed_own p f g : p ∈ SELECTED -> framed f -> changes_only (own_link (root ++ p)) f g -> framed g.
Proof.
  intros Hp [Hc Hd] Hg. split.
  - eapply changes_only_trans; [done|]. eapply changes_only_mono; [|done]. intros k Hk. left. by exists p.
  - intros d Hin q Hq. destruct (Hd d Hin q Hq) as [Hx|Hx]; [left; by apply (co_dirs _ _ _ Hg)|right].
    rewrite (co_names _ _ _ Hg); [done|]. intros Ho. apply (leading_not_own q); [by exists d|by exists p].
Qed.

(** So does making a missing directory on the way to one. *)
Lemma framed_grown d f g : d ∈ LINK_DIRS -> framed f -> grown (root ++ d) f g -> framed g.
Proof.
  intros Hd [Hc Hw] Hg. split; [|intros e He; by eapply grown_way, Hw].
  eapply changes_only_trans; [exact Hc|]. eapply changes_only_mono; [|exact (gr_changes _ _ _ Hg)].
  intros k [Hk Hn]. right. assert (leading k) as Hl by (by exists d). split; [done|].
  destruct (names f0 !! k) eqn:H0; [|done]. rewrite (co_names _ _ _ Hc) in Hn; [congruence|].
  intros [Ho|[_ Hx]]; [by apply (leading_not_own k)|congruence].
Qed.

Lemma framed_step p f g : p ∈ SELECTED -> framed f -> step p f g -> framed g.
Proof.
  intros Hp Hf (m & Hm & Hg). eapply framed_own; [exact Hp| |exact Hg]. eapply framed_grown; [|exact Hf|exact Hm].
  apply list_elem_of_fmap. by exists p.
Qed.

Lemma kept_step cl f g : cl ∈ LINKS -> selector_kept f -> step cl.2 f g -> selector_kept g.
Proof.
  intros [Hs Hne]%link_is_selected Hk Hg. unfold selector_kept in *. rewrite (step_names cl.2 CURRENT f g); [done|done|left|done|done].
Qed.

Lemma outcome_own cl f g : cl ∈ LINKS -> outcome f -> changes_only (own_link (root ++ cl.2)) f g -> outcome g.
Proof.
  intros Hl [Hf Ho] Hg. pose proof (link_is_selected _ Hl) as [Hs Hne]. split; [by eapply framed_own|].
  assert (~ own_link (root ++ cl.2) (root ++ CURRENT)) as Hx by (apply own_link_other; [done|left|done]).
  destruct Ho as [Ho|Ho]; [left|right; by eapply changes_only_linked].
  unfold selector_kept in *. by rewrite (co_names _ _ _ Hg).
Qed.

(** One turn of the loop. *)
Lemma activate_link_step don cl created : cl ∈ LINKS -> don ⊆ LINKS -> cl.2 ∉ map snd don -> ours created ->
  triple (fun f => framed f /\ selector_kept f /\ links_set don f) (activate_link root created cl)
    (fun created' f => (framed f /\ selector_kept f /\ links_set (don ++ [cl]) f) /\ ours created')
    (fun f => framed f /\ selector_kept f).
Proof.
  intros Hl Hdon Hni Hours. apply triple_pre. intros f (Hf & Hk & Hs). destruct (framed_dirs f Hf) as [Hd Hfr].
  pose proof (link_is_selected _ Hl) as [Hsel _]. destruct cl as [component link]. unfold activate_link, rooted. simpl in Hsel.
  assert (forall g, linked g (root ++ link) (expected_target link component) -> links_set don g -> links_set (don ++ [(component, link)]) g) as Hend.
  { intros g Hg Hsg cl [Hc|Hc]%elem_of_app; [by apply Hsg|]. apply list_elem_of_singleton in Hc as ->. done. }
  eapply (triple_bind _ _ (fun b x => x = f /\ (b = true -> linked f (root ++ link) (expected_target link component)))).
  { eapply triple_conseq; [by apply (obs_managed_selected f link)|done|done|by intros ? ->]. }
  intros b. apply triple_pre. intros ? [-> Hb]. destruct b.
  - apply triple_ret. intros g ->. split; [|done]. split; [done|]. split; [done|]. apply Hend; auto.
  - eapply (triple_bind _ _ (fun _ g => step link f g /\ linked g (root ++ link) (expected_target link component))).
    + eapply triple_conseq; [by apply (replace_frame f)|done|done|]. intros g [Hg _].
      split; [by eapply framed_step|by eapply (kept_step (component, link))].
    + intros ?. apply triple_ret. intros g [Hg Hlk]. split; [split; [by eapply framed_step|split; [by eapply (kept_step (component, link))|]]|].
      * apply Hend; [done|]. intros cl Hc. eapply step_linked; [exact Hsel|by apply link_is_selected, Hdon| |exact Hg|by apply Hs].
        intros Heq. destruct Hni. simpl. rewrite Heq. apply list_elem_of_fmap. by exists cl.
      * intros p [Hp|Hp]%elem_of_app; [by apply Hours|]. apply list_elem_of_singleton in Hp as ->. by exists (component, link).
Qed.

Lemma activate_loop :
  triple (fun f => framed f /\ selector_kept f) (mfor_until (activate_link root) [] LINKS)
    (fun r f => ours r.1 /\ framed f /\ selector_kept f /\ (r.2 = None -> links_set LINKS f)) (fun _ => False).
Proof.
  assert (NoDup (map snd LINKS)) as Hnd.
  { assert (bool_decide (NoDup (map snd LINKS)) = true) as Hn by (vm_compute; reflexivity). by apply bool_decide_eq_true in Hn. }
  eapply triple_conseq; [apply (triple_until
    (fun don created f => (framed f /\ selector_kept f /\ links_set don f) /\ ours created)
    (fun created f => (framed f /\ selector_kept f) /\ ours created))|..].
  - intros don cl rest created Hl. apply triple_pre. intros f [Hf Ho].
    assert (cl.2 ∉ map snd don) as Hni.
    { rewrite Hl, map_app, list.NoDup_app in Hnd. destruct Hnd as (_ & Hn & _). intros Hx. apply (Hn _ Hx). left. }
    eapply triple_conseq; [apply (activate_link_step don cl created)|..]; try done; try (rewrite Hl; set_solver).
    by intros ? ->.
  - intros f [Hf Hk]. split; [split; [done|split; [done|]]|].
    + intros cl Hc. by apply elem_of_nil in Hc.
    + intros p Hp. by apply elem_of_nil in Hp.
  - intros [created [e|]] f; simpl; [intros [[Hf Hk] Ho]|intros [(Hf & Hk & Hs) Ho]]; (split; [done|]; split; [done|]; split; [done|]; done).
  - done.
Qed.

Lemma rollback_outcome created : ours created -> triple outcome (rollback created) (fun _ => outcome) outcome.
Proof.
  intros Hc. apply (triple_for_each_done (fun _ _ => outcome)). intros don p rest u Hl.
  destruct (Hc p) as (cl & Hin & ->); [apply elem_of_reverse; unfold reverse; rewrite <-rev_alt, Hl; set_solver|].
  apply triple_pre. intros f Hf. pose proof Hf as [Hfr _]. destruct (framed_dirs f Hfr) as [Hd Hfresh].
  pose proof (link_is_selected _ Hin) as [Hsel _].
  eapply (triple_catch _ _ _ _ outcome); [|intros e; case_bool_decide; [by apply triple_ret|by apply triple_reraise]].
  eapply (triple_bind _ _ (fun _ => outcome)).
  - apply (triple_change Hquiet); [by intros x ->|]. intros x f' -> Hu.
    eapply outcome_own; [exact Hin|exact Hf|]. destruct (selected_facts _ Hsel) as (d & c & He & Hdir & Hpl & _).
    destruct (locate f (root ++ cl.2)) as [loc|] eqn:Hl'; [|unfold fs_unlink in Hu; by rewrite Hl' in Hu].
    pose proof Hl' as Hloc. rewrite He, app_assoc in Hloc.
    apply locate_below in Hloc as [-> _]; [|rewrite <-app_assoc; apply plain_app; by split|by apply Hd].
    rewrite <-app_assoc, <-He in Hl'.
    eapply changes_only_mono; [|by eapply unlink_changes]. intros k ->. by left.
  - intros ?. eapply triple_conseq; [apply (obs_triple outcome _ (fun _ _ => True)); intros; by apply obs_sync|done|by intros ? ? []|done].
Qed.

Lemma activate_outcome :
  triple (fun f => f = f0) (activate version_command root id)
    (fun _ f => framed f /\ (exists manifest, installed_release version_command f0 root id manifest) /\
       links_set LINKS f /\ linked f (root ++ CURRENT) (str "releases/" ++ id))
    outcome.
Proof.
  assert (outcome f0) as H0 by (split; [apply framed_refl|by left]).
  unfold activate. eapply (triple_bind _ _ (fun _ f => f = f0)).
  { eapply triple_conseq; [apply (obs_preflight_binaries f0)|done|naive_solver|by intros f ->]. }
  intros ?. eapply (triple_bind _ _ (fun m f => f = f0 /\ installed_release version_command f0 root id m)).
  { eapply triple_conseq; [apply (obs_verify_installed Hquiet version_command f0)|done|naive_solver|by intros f ->]. }
  intros manifest. apply triple_pre. intros ? [-> Hman].
  eapply triple_bind; [eapply triple_conseq; [apply activate_loop| |done|done]; intros ? ->; split; [apply framed_refl|done]|].
  intros [created [e|]]; cbv beta; apply triple_pre; intros f (Ho & Hf & Hk & Hs); simpl in Ho.
  - eapply (triple_bind _ _ (fun _ => outcome)); [|intros ?; by apply triple_reraise].
    eapply triple_conseq; [by apply (rollback_outcome created)| |done|done]. intros ? ->. split; [done|by left].
  - destruct (framed_dirs f Hf) as [Hd Hfresh]. eapply (triple_catch _ _ _ _ outcome).
    + eapply triple_conseq; [apply (replace_frame f _ CURRENT Hfresh Hd); left|done|..].
      * intros ? g [Hg Hlk]. split; [eapply framed_step; [|done|done]; left|]. split; [eauto|]. split; [|done].
        intros cl Hc. pose proof (link_is_selected _ Hc) as [Hsel Hne].
        eapply step_linked; [left|exact Hsel|done|exact Hg|by apply Hs].
      * intros g [Hg Hor]. split; [eapply framed_step; [|done|done]; left|].
        destruct Hor as [Hor|Hor]; [left; unfold selector_kept in *; congruence|by right].
    + intros e. eapply (triple_bind _ _ (fun _ => outcome)); [by apply rollback_outcome|]. intros ?. by apply triple_reraise.
Qed.
End run.
End activation.

(** C18. Activation of a release with any pattern of failing system calls, where on the
    way to each managed link there are only directories, of which any may be missing
    ([dirs_clear]): no file's content changes, and the only names that can change are the
    six command links, the selector, their temporary names, and missing directories on
    the way to them, which activation makes.  When it returns, the release verified,
    every command link leads to it and the selector names it; when it raises, the
    selector is as it was or names the release.  A symbolic link on the way, which
    would redirect a managed name, is excluded; running a component's executable with
    [--version] is a query and changes nothing. *)
Theorem activate_release `{machine} version_command root id w :
  quiet -> plain_path root -> fresh_ok (w_fs w) -> dirs_clear root (w_fs w) ->
  let result := activate version_command root id w in
  changes_only (managed root (w_fs w)) (w_fs w) (w_fs result.2) /\
  match result.1 with
  | Ok _ => (exists manifest, installed_release version_command (w_fs w) root id manifest) /\
      links_set root LINKS (w_fs result.2) /\ linked (w_fs result.2) (root ++ CURRENT) (str "releases/" ++ id)
  | Err _ => names (w_fs result.2) !! (root ++ CURRENT) = names (w_fs w) !! (root ++ CURRENT)
             \/ linked (w_fs result.2) (root ++ CURRENT) (str "releases/" ++ id)
  end.
Proof.
  intros Hq Hp Hf Hd result. pose proof (activate_outcome Hq version_command root Hp id (w_fs w) Hf Hd w eq_refl) as Ht.
  fold result in Ht. destruct result as [[u|e] w']; simpl in *; destruct Ht as [[Hc _] Ho]; split; done.
Qed.
End BinariesSafe.
