(* ===== verification/BinariesRun.v ===== *)
(** * A release, activated

    The release manager on a concrete file system that holds one release of empty
    executables. *)
From Stdlib Require Import ZArith Lia.
From Stdlib Require Import Init.Byte.
From stdpp Require Import base list sets strings option gmap.
From S2P Require Import Prelude PyStr PyVal Bytes Json JsonTrip Sys FsRules Links ReleaseManifest Binaries BinariesSafe.

Open Scope string_scope.
Open Scope list_scope.
Open Scope Z_scope.

Module BinariesRun.
Import ReleaseManifest Binaries BinariesSafe.

Definition sample_version : pystr := str "0.4.1".
Definition sample_revision : pystr := str "0123456789abcdef0123456789abcdef01234567".
Definition sample_release : pystr := sample_version ++ str "-" ++ sample_revision.

(** Executables that report their own name. *)
Definition honest (f : fs) (p : path) : res completed :=
  Ok (Completed 0 (List.last p [] ++ str " version=" ++ sample_version ++ str " revision=" ++ sample_revision ++ [10]) []).

Definition sample_manifest : pyval := Eval vm_compute in
  release sample_version sample_revision (map (fun n => entry_of n sample_version sample_revision []) COMPONENTS).

Definition sample_bin : path := BASE ++ [str "releases"; sample_release; str "bin"].
Definition sample_manifest_path : path := BASE ++ [str "releases"; sample_release; str "release-manifest.json"].

Definition plant_executable (f : fs) (name : pystr) : fs := plant (sample_bin ++ [name]) (KFile []) 0x1ED f.
Definition sample_host : fs :=
  foldl plant_executable
    (plant_file (plant_dirs [] (abs_path "/usr/local/sbin")
      (plant_dirs [] (abs_path "/usr/local/bin") (plant_dirs [] sample_bin empty_fs)))
      (sample_manifest_path, payload sample_manifest))
    COMPONENTS.

Definition start : world := World sample_host 0.
Definition succeeded {A} (r : res A) : bool := match r with Ok _ => true | Err _ => false end.

(** The directories of the links, one prefix at a time; [/opt/cni/bin] is missing. *)
Definition prefixes (p : path) : list path := map (fun n => take n p) (seq 0 (S (length p))).
Definition missing (f : fs) (q : path) : bool := match names f !! q with None => true | Some _ => false end.
Definition clearb (f : fs) (p : path) : bool := forallb (fun q => is_dir_at f q || missing f q) (prefixes p).

Lemma clearb_ok f p : clearb f p = true -> way f p.
Proof.
  unfold clearb, prefixes. rewrite forallb_forall. intros Hp q [r ->].
  assert (In q (map (fun n => take n (q ++ r)) (seq 0 (S (length (q ++ r)))))) as Hq.
  { apply in_map_iff. exists (length q). split; [by rewrite take_app_length|]. apply in_seq. rewrite length_app. lia. }
  apply Hp, orb_true_iff in Hq as [Hq|Hq]; [by left|right]. unfold missing in Hq. by destruct (names f !! q).
Qed.

Lemma binaries_start_wf : fresh_okb (w_fs start) && forallb (clearb (w_fs start)) LINK_DIRS
  && missing (w_fs start) (abs_path "/opt") = true.
Proof. vm_cast_no_check (@eq_refl bool true). Qed.

Lemma start_dirs : dirs_clear [] (w_fs start).
Proof.
  pose proof binaries_start_wf as [[_ Hd]%andb_true_iff _]%andb_true_iff. rewrite forallb_forall in Hd.
  intros d Hin. apply clearb_ok, Hd. by apply list_elem_of_In.
Qed.

Lemma binaries_verify_ok : succeeded (@verify_installed (lone_machine superuser []) honest [] sample_release start).1 = true.
Proof. vm_cast_no_check (@eq_refl bool true). Qed.

Lemma binaries_activate_ok : succeeded (@activate (lone_machine superuser []) honest [] sample_release start).1 = true.
Proof. vm_cast_no_check (@eq_refl bool true). Qed.

Lemma verified_release_witness : exists manifest, installed_release honest (w_fs start) [] sample_release manifest.
Proof.
  generalize binaries_verify_ok. generalize start as w. intros w Hv.
  pose proof (@verified_release (lone_machine superuser []) honest [] sample_release w (lone_quiet _ _)) as Ht.
  destruct (@verify_installed (lone_machine superuser []) honest [] sample_release w) as [[m|e] w']; [|discriminate Hv].
  destruct Ht as [_ Ht]. exists m. exact Ht.
Defined.

Lemma activate_release_witness :
  links_set [] LINKS (w_fs (@activate (lone_machine superuser []) honest [] sample_release start).2).
Proof.
  generalize binaries_activate_ok, binaries_start_wf, start_dirs. generalize start as w. intros w Ha Hwf Hd.
  apply andb_true_iff in Hwf as [Hwf _]. apply andb_true_iff in Hwf as [Hf _].
  pose proof (@activate_release (lone_machine superuser []) honest [] sample_release w (lone_quiet _ _)
                (list.Forall_nil_2 _) (fresh_okb_ok _ Hf) Hd) as [_ Ho].
  destruct (@activate (lone_machine superuser []) honest [] sample_release w) as [[u|e] w']; [|discriminate Ha].
  exact (proj1 (proj2 Ho)).
Defined.

(** *** A created manifest, verified *)

Definition sizedb (f : fs) : bool :=
  forallb (fun kv => match i_kind kv.2 with KFile d => zlen d <? 2 ^ 63 | _ => true end) (map_to_list (nodes f)).

Lemma sizedb_ok f : sizedb f = true -> sized f.
Proof.
  unfold sizedb. rewrite forallb_forall. intros Hf ino n d Hn Hk. apply elem_of_map_to_list, list_elem_of_In in Hn.
  apply Hf in Hn. simpl in Hn. rewrite Hk in Hn. lia.
Qed.

Lemma lone_faultless u : @faultless (lone_machine u []).
Proof. split; done. Qed.

Definition node_is (f : fs) (p : path) (ok : kind -> bool) : bool :=
  match resolve f false p with Ok loc => match node_at f loc with Some (_, n) => ok (i_kind n) | None => false end | Err _ => false end.

Lemma node_is_ok f p ok : node_is f p ok = true -> exists ino n, node_of f p ino n /\ ok (i_kind n) = true.
Proof.
  unfold node_is. destruct (resolve f false p) as [loc|] eqn:Hl; [|done]. destruct (node_at f loc) as [[ino n]|] eqn:Hn; [|done].
  intros Hk. exists ino, n. split; [by exists loc|done].
Qed.

Definition is_directory (k : kind) : bool := match k with KDir => true | _ => false end.
Definition is_file (d : bytes) (k : kind) : bool := match k with KFile d' => bool_decide (d' = d) | _ => false end.

Lemma sample_nodes : sizedb sample_host && node_is sample_host sample_bin is_directory
  && node_is sample_host sample_manifest_path (is_file (payload sample_manifest)) = true.
Proof. vm_cast_no_check (@eq_refl bool true). Qed.

Lemma sample_result c : (@create (lone_machine superuser []) honest sample_bin (VStr sample_version) (VStr sample_revision)
  (World sample_host c)).1 = Ok sample_manifest.
Proof. vm_cast_no_check (@eq_refl (res pyval) (Ok sample_manifest)). Qed.

Lemma sample_created : @runs pyval (@create (lone_machine superuser []) honest sample_bin (VStr sample_version) (VStr sample_revision))
  sample_host (Ok sample_manifest) sample_host.
Proof.
  intros c. generalize (sample_result c). generalize sample_manifest as m. generalize sample_host as f. intros f m Hr.
  pose proof (@obs_create (lone_machine superuser []) (lone_quiet _ _) honest f sample_bin (VStr sample_version)
                (VStr sample_revision) (World f c) eq_refl) as Ho.
  destruct (@create (lone_machine superuser []) honest sample_bin _ _ (World f c)) as [r [f' c']]. simpl in Hr. subst r.
  simpl in Ho. destruct Ho as [-> _]. by exists c'.
Qed.

Lemma created_manifest_verifies_witness :
  @runs pyval (@verify_release_input (lone_machine superuser []) honest sample_manifest_path sample_bin)
    sample_host (Ok (canon indented sample_manifest)) sample_host.
Proof.
  generalize sample_created, sample_nodes. generalize sample_manifest as m. generalize sample_host as f. intros f m Hc Hn.
  apply andb_true_iff in Hn as [Hn Hm]. apply andb_true_iff in Hn as [Hs Hb].
  apply node_is_ok in Hm as (mi & mn & Hm & Hmk). apply node_is_ok in Hb as (bi & bn & Hb & Hbk).
  refine (proj1 (created_manifest_verifies (lone_faultless superuser) honest f (sizedb_ok f Hs) sample_bin sample_manifest_path
            sample_version sample_revision m bi bn mi mn Hc Hb _ Hm _)).
  - destruct (i_kind bn); [reflexivity|discriminate Hbk..].
  - destruct (i_kind mn); try discriminate Hmk. simpl in Hmk. apply bool_decide_eq_true in Hmk. by subst.
Defined.

(** A component that does not answer within ten seconds: the exception is neither an
    [OSError] nor a [ValueError], and leaves [main] as a traceback. *)
Definition hanging (f : fs) (p : path) : res completed := raise SubprocessError "timed out".
Theorem timeout_escapes :
  (@main (lone_machine superuser []) hanging [] (Activate sample_release) start).1 = Err (Exn SubprocessError "timed out").
Proof. vm_compute. reflexivity. Qed.
End BinariesRun.
