(* ===== verification/Bootstrap.v ===== *)
(** * Bootstrap artifacts (scripts/validate-runtime-bootstrap.py)

    The validator of an approved manifest: every artifact is read through one
    descriptor whose digest and identity are checked, the kernel's ELF image carries
    the release banner, the boot archive holds the approved components, and the
    modules belong to the release.  The whole program is modelled; [zlib]'s decoder and
    [modinfo] are parameters. *)
From Stdlib Require Import ZArith Lia.
From Stdlib Require Import Init.Byte.
From stdpp Require Import base list sets strings option gmap.
From S2P Require Import Prelude PyStr PyVal Bytes Json Sys.

Open Scope string_scope.
Open Scope list_scope.
Open Scope Z_scope.

Module Bootstrap.

Definition PINNED_MULTIKERNEL : pystr := str "3bdd35b64413da0b4e089ce931bfc2e8b031cbf7".
Definition PINNED_KERF : pystr := str "8b72b3e9b266f8d32e707e2c1743ad7afc50b1ec".

Definition strict_object (pairs : dict) : res dict := strict_pairs ValueError "duplicate JSON field" [] pairs.

Definition exact_fields (value : pyval) (required optional : list pystr) : res dict :=
  match value with
  | VDict d =>
      raise_if (negb (keys_within d (required ++ optional)) || negb (forallb (fun f => has_key f d) required))
        ValueError "manifest fields mismatch" ;;
      Ok d
  | _ => raise ValueError "manifest object expected"
  end.

Definition file_identity (info : stat_result) : Z * Z * Z * Z * Z * Z * Z * Z :=
  (st_dev info, st_ino info, st_mode info, st_uid info, st_gid info, st_size info, st_mtime_ns info, st_ctime_ns info).
Definition same_identity (a b : stat_result) : bool := bool_decide (file_identity a = file_identity b).

(** A digest is a string of 64 lowercase hexadecimal digits. *)
Definition digest_ok (digest : pyval) : bool := match digest with VStr s => fullmatch HEX64 s | _ => false end.
Definition digest_acceptable (allow_unhashed : bool) (digest : pyval) : bool :=
  match digest with VNone => allow_unhashed | _ => digest_ok digest end.

(** ** The kernel image *)

(** [read] of [kernel_identity]: a range of the file, whole. *)
Definition read_range (data : bytes) (size offset length : Z) : res bytes :=
  raise_if ((offset <? 0) || (length <? 0) || (size <? offset) || (size - offset <? length))
    ValueError "kernel ELF range is outside the file" ;;
  let chunk := slice offset (offset + length) data in
  raise_if (negb (zlen chunk =? length)) ValueError "kernel ELF range is truncated" ;;
  Ok chunk.

(** One entry of the section table, [<IIQQQQIIQQ]. *)
Record section := Section_ {
  sh_name : Z; sh_type : Z; sh_flags : Z; sh_addr : Z; sh_offset : Z; sh_size : Z; sh_link : Z; sh_info : Z;
  sh_addralign : Z; sh_entsize : Z }.
Definition section_at (raw : bytes) (i : Z) : res section :=
  let o := i * 64 in
  unpack raw (o + 64)
    (Section_ (u32 o raw) (u32 (o + 4) raw) (u64 (o + 8) raw) (u64 (o + 16) raw) (u64 (o + 24) raw) (u64 (o + 32) raw)
       (u32 (o + 40) raw) (u32 (o + 44) raw) (u64 (o + 48) raw) (u64 (o + 56) raw)).

(** One symbol, [<IBBHQQ]. *)
Record symbol := Symbol {
  sym_name : Z; sym_info : Z; sym_other : Z; sym_section : Z; sym_address : Z; sym_length : Z }.
Definition symbol_at (symbols : bytes) (o : Z) : res symbol :=
  unpack symbols (o + 24)
    (Symbol (u32 o symbols) (u8 (o + 4) symbols) (u8 (o + 5) symbols) (u16 (o + 6) symbols) (u64 (o + 8) symbols)
       (u64 (o + 16) symbols)).

Definition MAX_TABLE : Z := 32 * 2 ^ 20.

(** [strings.find(b"\0", name, min(len(strings), name + 4096)) >= 0] *)
Definition terminated (strings : bytes) (name : Z) : bool :=
  existsb (fun b => byte_eqb b x00) (slice name (Z.min (zlen strings) (name + 4096)) strings).

Definition name_in_bounds (strings : bytes) (name : Z) : bool := (name <? zlen strings) && terminated strings name.

Definition check_section_name (strings : bytes) (u : unit) (s : section) : res unit :=
  raise_if (negb (name_in_bounds strings (sh_name s))) ValueError "kernel section name is out of bounds".

Definition banner_symbol (symbols strings : bytes) (banners : list symbol) (o : Z) : res (list symbol) :=
  let! s := symbol_at symbols o in
  raise_if (negb (name_in_bounds strings (sym_name s))) ValueError "kernel symbol name is out of bounds" ;;
  Ok (if bytes_eqb (slice (sym_name s) (sym_name s + 13) strings) (bstr "linux_banner" ++ [x00]) then banners ++ [s] else banners).

(** [release.encode("ascii")] *)
Definition encode_ascii (s : pystr) : res bytes :=
  if forallb (in_range 0 127) s then Ok (ascii_bytes s) else raise UnicodeError "ordinal not in range(128)".

Definition kernel_banner (data : bytes) (size : Z) (release : pystr) : res unit :=
  let read := read_range data size in
  let! header := read 0 64 in
  let! ident := unpack header 24 (u16 16 header, u16 18 header, u32 20 header) in
  let! ehsize := unpack header 54 (u16 52 header) in
  raise_if (negb (bytes_eqb (slice 0 7 header) ([x7f] ++ bstr "ELF" ++ [x02; x01; x01]))
            || negb (bool_decide (ident = (2, 62, 1))) || negb (ehsize =? 64))
    ValueError "kernel ELF architecture or type is incompatible" ;;
  let! section_offset := unpack header 48 (u64 40 header) in
  let! (section_size, section_count) := unpack header 62 (u16 58 header, u16 60 header) in
  raise_if (negb (section_size =? 64) || negb ((0 <? section_count) && (section_count <? 0xff00)))
    ValueError "kernel section table is incompatible" ;;
  let! raw := read section_offset (section_count * 64) in
  let! sections := map_res (section_at raw) (zrange section_count) in
  let! name_index := unpack header 64 (u16 62 header) in
  raise_if (negb ((0 <? name_index) && (name_index <? section_count))) ValueError "kernel section names are incompatible" ;;
  let! section_names := pyindex name_index sections in
  raise_if (negb (sh_type section_names =? 3) || flag (sh_flags section_names) 0x800
            || negb ((0 <? sh_size section_names) && (sh_size section_names <=? MAX_TABLE)))
    ValueError "kernel section names are incompatible" ;;
  let! section_strings := read (sh_offset section_names) (sh_size section_names) in
  for_each (check_section_name section_strings) tt sections ;;
  let! (program_size, program_count) := unpack header 58 (u16 54 header, u16 56 header) in
  raise_if ((program_count =? 0xffff) || negb (program_count =? 0) && negb (program_size =? 56))
    ValueError "kernel program table is incompatible" ;;
  (if negb (program_count =? 0) then
     let! program_offset := unpack header 40 (u64 32 header) in
     let! _ := read program_offset (program_count * 56) in Ok tt
   else Ok tt) ;;
  match List.filter (fun s => sh_type s =? 2) sections with
  | [table] =>
      raise_if (flag (sh_flags table) 0x800 || negb (sh_entsize table =? 24)
                || negb ((0 <? sh_size table) && (sh_size table <=? MAX_TABLE))
                || negb (sh_size table mod 24 =? 0) || (section_count <=? sh_link table))
        ValueError "kernel symbol table has unsafe type or size" ;;
      let! names := pyindex (sh_link table) sections in
      raise_if (negb (sh_type names =? 3) || flag (sh_flags names) 0x800
                || negb ((0 <? sh_size names) && (sh_size names <=? MAX_TABLE)))
        ValueError "kernel symbol names have unsafe type or size" ;;
      let! symbols := read (sh_offset table) (sh_size table) in
      let! strings := read (sh_offset names) (sh_size names) in
      raise_if (negb (bytes_eqb (slice 0 24 symbols) (repeat x00 24))) ValueError "kernel reserved symbol is incompatible" ;;
      let! banners := for_each (banner_symbol symbols strings) [] (zrange_step 24 (zlen symbols) 24) in
      match banners with
      | [b] =>
          raise_if (negb (sym_info b =? 0x11)
                    || negb ((0 <? sym_section b) && (sym_section b <? Z.min section_count 0xff00))
                    || negb ((0 <? sym_length b) && (sym_length b <=? 4096)))
            ValueError "kernel release symbol is incompatible" ;;
          let! s := pyindex (sym_section b) sections in
          raise_if (negb (sh_type s =? 1) || negb (flag (sh_flags s) 2) || flag (sh_flags s) 0x800
                    || (sym_address b <? sh_addr s) || (sh_size s <? sym_address b - sh_addr s)
                    || (sh_size s - (sym_address b - sh_addr s) <? sym_length b))
            ValueError "kernel release section or symbol range is incompatible" ;;
          raise_if ((size <? sh_offset s) || (size - sh_offset s <? sh_size s))
            ValueError "kernel release section is outside its file" ;;
          let! banner := read (sh_offset s + sym_address b - sh_addr s) (sym_length b) in
          let! release_bytes :=
            (if negb (endswith banner [x00]) || existsb (fun b => byte_eqb b x00) (removelast banner)
             then Ok [] else encode_ascii release) in
          raise_if (negb (endswith banner [x00]) || existsb (fun b => byte_eqb b x00) (removelast banner)
                    || negb (startswith banner (bstr "Linux version " ++ release_bytes ++ bstr " ")))
            ValueError "kernel embedded release is incompatible"
      | _ => raise ValueError "kernel release symbol is missing or ambiguous"
      end
  | _ => raise ValueError "kernel symbol table is missing or ambiguous"
  end.

(** ** The boot archive *)

Section archive.

(** [zlib.decompressobj(16 + zlib.MAX_WBITS)]: its state, [decompress(data, max_length)]
    with the bytes it left over, and whether the stream has ended. *)
Context {D : Type}.
Variable decoder_start : D.
Variable decompress : D -> bytes -> Z -> res (bytes * D).
Variables (eof : D -> bool) (unconsumed_tail unused_data : D -> bytes).

Definition MAXIMUM : Z := 512 * 2 ^ 20.

(** The generator [chunks]: the decoder, the encoded bytes at hand, the decoded total
    and what is left of the source. *)
Record chunks := Chunks { decoder : D; pending : bytes; total : Z; source : bytes; finished : bool }.

Definition BLOCK : Z := 64 * 2 ^ 10.

(** A turn of its loop: a chunk is yielded, or the loop goes on, or it ends. *)
Inductive yielded := Yield (chunk : bytes) (g : chunks) | End (g : chunks).

Definition chunks_turn (g : chunks) : res (chunks + yielded) :=
  if finished g then Ok (inr (End g))
  else if eof (decoder g) then
    raise_if (negb (bytes_eqb (unused_data (decoder g)) []) || negb (bytes_eqb (pending g) [])
              || negb (bytes_eqb (take 1 (source g)) []))
      ValueError "boot archive has trailing encoded data" ;;
    Ok (inr (End (Chunks (decoder g) (pending g) (total g) (source g) true)))
  else
    let '(waiting, rest) := (if bytes_eqb (pending g) [] then (slice 0 BLOCK (source g), drop (Z.to_nat BLOCK) (source g))
                             else (pending g, source g)) in
    match decompress (decoder g) waiting (2 ^ 20) with
    | Err e => if bool_decide (exn_cls e = ZlibError) then raise ValueError "invalid boot archive gzip" else Err e
    | Ok (chunk, d) =>
        let total' := total g + zlen chunk in
        raise_if (MAXIMUM <? total') ValueError "boot archive exceeds decompressed limit" ;;
        if negb (bytes_eqb chunk []) then Ok (inr (Yield chunk (Chunks d (unconsumed_tail d) total' rest false)))
        else if bytes_eqb (unconsumed_tail d) [] && negb (eof d) then
          let waiting := slice 0 BLOCK rest in
          raise_if (bytes_eqb waiting []) ValueError "truncated boot archive gzip" ;;
          Ok (inl (Chunks d waiting total' (drop (Z.to_nat BLOCK) rest) false))
        else Ok (inl (Chunks d (unconsumed_tail d) total' rest false))
    end.

(** [next(blocks)] *)
Definition next_chunk (g : chunks) : res yielded := while chunks_turn g.

(** The reader's state: the generator and what it yielded but [read] did not take. *)
Record reader := Reader { blocks : chunks; buffered : bytes }.

Definition read_turn (length : Z) (s : bytes * reader) : res ((bytes * reader) + (bytes * reader)) :=
  let '(result, r) := s in
  if length <=? zlen result then Ok (inr s)
  else
    let! r := (if bytes_eqb (buffered r) [] then
                 let! y := next_chunk (blocks r) in
                 match y with
                 | Yield chunk g => Ok (Reader g chunk)
                 | End _ => raise ValueError "truncated boot archive record"
                 end
               else Ok r) in
    let count := Z.min (length - zlen result) (zlen (buffered r)) in
    Ok (inl (result ++ slice 0 count (buffered r), Reader (blocks r) (drop (Z.to_nat count) (buffered r)))).

Definition read (length : Z) (r : reader) : res (bytes * reader) :=
  raise_if (negb ((0 <=? length) && (length <=? 2 ^ 20))) ValueError "boot archive read exceeds bound" ;;
  while (read_turn length) ([], r).

Definition padding (length : Z) (r : reader) : res reader :=
  let! (data, r) := read length r in
  raise_if (any_byte data) ValueError "nonzero boot archive alignment" ;;
  Ok r.

(** The rest of the archive after the trailer. *)
Definition drain_turn (g : chunks) : res (chunks + unit) :=
  let! y := next_chunk g in
  match y with
  | Yield chunk g => raise_if (any_byte chunk) ValueError "boot archive has data after trailer" ;; Ok (inl g)
  | End _ => Ok (inr tt)
  end.

(** The approved components: digest, and whether they are executable. *)
Definition required_t : Type := list (pystr * (pyval * bool)).
Definition seen_t : Type := list (pystr * (Z * Z * Z)).

Definition ifmt (mode : Z) : Z := Z.land mode 0xF000.

Definition critical_unsafe (mode uid gid links : Z) (executable : bool) : bool :=
  negb (ifmt mode =? 0x8000) || negb (Z.land mode 0xE12 =? 0) || negb (uid =? 0) || negb (gid =? 0)
  || negb (links =? 1) || (Z.land mode 0x100 =? 0) || (executable && (Z.land mode 0x40 =? 0)).

Definition path_unsafe (name : pystr) : bool :=
  (name =s []) || (name =s str "..") || startswith name (str "/") || startswith name (str "../")
  || has_char 92 name || negb (normpath name =s name).

(** The data of a record, in reads of at most a mebibyte; the hash is of all of it. *)
Definition data_turn (s : Z * bytes * reader) : res ((Z * bytes * reader) + (bytes * reader)) :=
  let '(remaining, data, r) := s in
  if remaining =? 0 then Ok (inr (data, r))
  else
    let! (chunk, r) := read (Z.min remaining (2 ^ 20)) r in
    Ok (inl (remaining - zlen chunk, data ++ chunk, r)).

Definition header_ok (header : bytes) : bool :=
  bytes_eqb (slice 0 6 header) (bstr "070701")
  && (zlen (drop 6 header) =? 104) && forallb (fun b => is_hex (b2z b)) (drop 6 header).
Definition header_field (header : bytes) (i : Z) : res Z := int16 (slice (6 + i * 8) (14 + i * 8) header).

(** [raw\[:-1\].decode("utf-8").removeprefix("./")] *)
Definition entry_name (raw : bytes) : res pystr :=
  match utf8_decode Strict (removelast raw) with
  | Ok text => Ok (if startswith text (str "./") then drop 2 text else text)
  | Err _ => raise ValueError "invalid boot archive UTF-8 name"
  end.

Record archive_state := Archive { input : reader; seen : seen_t; found : list pystr }.

(** One record: the loop goes on, or the trailer ended it. *)
Definition entry_turn (required : required_t) (s : archive_state) : res (archive_state + archive_state) :=
  let! (header, r) := read 110 (input s) in
  raise_if (negb (header_ok header)) ValueError "boot archive must use valid newc without CRC" ;;
  let! fields := map_res (header_field header) (zrange 13) in
  let at_ i := nth i fields 0 in
  let mode := at_ 1%nat in let uid := at_ 2%nat in let gid := at_ 3%nat in let links := at_ 4%nat in
  let size := at_ 6%nat in let namesize := at_ 11%nat in
  raise_if (negb ((0 <? namesize) && (namesize <=? 4096)) || (MAXIMUM <? size) || negb (at_ 12%nat =? 0))
    ValueError "invalid boot archive name, size or checksum" ;;
  let! (raw, r) := read namesize r in
  raise_if (negb (endswith raw [x00]) || existsb (fun b => byte_eqb b x00) (removelast raw))
    ValueError "invalid boot archive name" ;;
  let! name := entry_name raw in
  let! r := padding ((- (110 + namesize)) mod 4) r in
  if name =s str "TRAILER!!!" then
    raise_if (negb (bytes_eqb (removelast raw) (bstr "TRAILER!!!"))) ValueError "noncanonical boot archive trailer" ;;
    raise_if (negb (size =? 0)) ValueError "boot archive trailer has data" ;;
    raise_if (any_byte (buffered r)) ValueError "boot archive has data after trailer" ;;
    while drain_turn (blocks r) ;;
    Ok (inr (Archive r (seen s) (found s)))
  else
    raise_if (path_unsafe name) ValueError "unsafe boot archive path" ;;
    raise_if (bool_decide (name ∈ map fst (seen s))) ValueError "duplicate normalized boot archive path" ;;
    let seen' := seen s ++ [(name, (mode, uid, gid))] in
    let critical := alookup name required in
    raise_if (match critical with Some (_, executable) => critical_unsafe mode uid gid links executable | None => false end)
      ValueError "boot component has unsafe metadata" ;;
    let! (data, r) := while data_turn (size, [], r) in
    let! found' := (match critical with
                    | Some (digest, _) =>
                        raise_if (negb (VStr (sha256 data) == digest)) ValueError
                          "boot component digest differs from approved artifact" ;;
                        Ok (found s ++ [name])
                    | None => Ok (found s)
                    end) in
    let! r := padding ((- size) mod 4) r in
    Ok (inl (Archive r seen' found')).

(** The directories above a component, up to the archive's root. *)
Definition parent_of (name : pystr) : pystr := let d := dirname name in if d =s [] then str "." else d.
Definition ancestor_unsafe (entry : option (Z * Z * Z)) (parent : pystr) : bool :=
  match entry with
  | None => negb (parent =s str ".")
  | Some (mode, uid, gid) => negb (ifmt mode =? 0x4000) || negb (Z.land mode 0xE12 =? 0) || negb (uid =? 0) || negb (gid =? 0)
  end.
Definition ancestor_turn (seen : seen_t) (parent : pystr) : res (pystr + unit) :=
  raise_if (ancestor_unsafe (alookup parent seen) parent) ValueError "boot component has unsafe ancestor" ;;
  if parent =s str "." then Ok (inr tt) else Ok (inl (parent_of parent)).
Definition check_ancestors (seen : seen_t) (u : unit) (name : pystr) : res unit :=
  while (ancestor_turn seen) (parent_of name).

(** [for _ in range(131072)] *)
Definition entries (required : required_t) (s : archive_state) : res archive_state :=
  match loop 17 (entry_turn required) s with
  | Ok (inr s) => Ok s
  | Ok (inl _) => raise ValueError "boot archive entry limit"
  | Err e => Err e
  end.

Definition verify_boot_components (archive : bytes) (required : required_t) : res unit :=
  let! s := entries required (Archive (Reader (Chunks decoder_start [] 0 archive false) []) [] []) in
  raise_if (negb (set_eq (found s) (map fst required))) ValueError "boot archive lacks required components" ;;
  for_each (check_ancestors (seen s)) tt (found s).
End archive.

(** ** Verified files *)

Section system.
Context `{machine}.

Definition IDENTITY_ERROR : string := "artifact identity changed while opening".

(** A parent directory of an artifact. *)
Definition check_parent (required_uid : Z) (current : path) (component : pystr) : M path :=
  let current := current ++ [component] in
  let* info := lstat current in
  mraise_if (s_islnk (st_mode info) || negb (s_isdir (st_mode info))) ValueError "unsafe artifact parent" ;;;
  mraise_if (negb ((st_uid info =? 0) || (st_uid info =? required_uid)) || flag (st_mode info) 0x12) ValueError
    "artifact parent has unsafe owner or mode" ;;;
  mret current.

(** [with verified_file(...) as stream: body]: the body gets the descriptor. *)
Definition verified_file {A} (file : pyval) (digest : pyval) (required_uid : Z) (skip_parent_safety : bool) (maximum : Z)
    (allow_unhashed : bool) (body : Z -> M A) : M A :=
  match file with
  | VStr text =>
      let candidate := pp_comps (pure_path text) in
      mraise_if (pp_root (pure_path text) =s []) ValueError "artifact path is not absolute" ;;;
      (if skip_parent_safety then mret [] else mfor_each (check_parent required_uid) [] (removelast candidate)) ;;;
      let* before := lstat candidate in
      mraise_if (negb (s_isreg (st_mode before)) || negb (st_uid before =? required_uid) || flag (st_mode before) 0x12
                 || negb ((0 <? st_size before) && (st_size before <=? maximum)))
        ValueError "artifact has unsafe type, owner, mode, or size" ;;;
      mraise_if (negb (digest_acceptable allow_unhashed digest)) ValueError "artifact digest is malformed" ;;;
      let* descriptor := open_ true false candidate in
      mfinally
        (let* opened := fstat descriptor in
         mraise_if (negb (same_identity before opened)) ValueError IDENTITY_ERROR ;;;
         (match digest with
          | VStr expected =>
              let* data := read_fd descriptor in
              mraise_if (maximum <? zlen data) ValueError "artifact exceeds bounded read" ;;;
              mraise_if (negb (sha256 data =s expected)) ValueError "artifact digest mismatch"
          | _ => mret tt
          end) ;;;
         let* hashed := fstat descriptor in
         mraise_if (negb (same_identity before hashed)) ValueError "artifact changed while hashing" ;;;
         mfinally (body descriptor)
           (let* after := fstat descriptor in
            mraise_if (negb (same_identity before after)) ValueError "artifact changed during verified read"))
        (close descriptor)
  | _ => mraise TypeError "argument should be a str or an os.PathLike object"
  end.

Definition DEFAULT_MAXIMUM : Z := 16 * 2 ^ 30.

Definition secure_regular (file digest : pyval) (required_uid : Z) (skip_parent_safety : bool) : M unit :=
  verified_file file digest required_uid skip_parent_safety DEFAULT_MAXIMUM false (fun _ => mret tt).

Definition artifact (value : pyval) (required_uid : Z) (skip_parent_safety : bool) : M pyval :=
  let* d := lift (exact_fields value (strs ["path"; "sha256"]) []) in
  secure_regular (get d (str "path")) (get d (str "sha256")) required_uid skip_parent_safety ;;;
  mret (get d (str "path")).

Definition x86_64_elf (value : pyval) (required_uid : Z) (skip_parent_safety : bool) : M unit :=
  let* file := lift (getitem value (str "path")) in
  let* digest := lift (getitem value (str "sha256")) in
  let* header := verified_file file digest required_uid skip_parent_safety DEFAULT_MAXIMUM false
                   (fun fd => let* data := read_fd fd in mret (slice 0 20 data)) in
  mraise_if ((zlen header <? 20) || negb (bytes_eqb (slice 0 5 header) ([x7f] ++ bstr "ELF" ++ [x02]))
             || negb (le_int (slice 18 20 header) =? 62))
    ValueError "artifact is not an x86-64 ELF image".

Definition kernel_identity (value : pyval) (release : pystr) (required_uid : Z) (skip_parent_safety : bool) : M unit :=
  let* file := lift (getitem value (str "path")) in
  let* digest := lift (getitem value (str "sha256")) in
  verified_file file digest required_uid skip_parent_safety DEFAULT_MAXIMUM false (fun fd =>
    let* info := fstat fd in
    let* data := read_fd fd in
    lift (kernel_banner data (st_size info) release)).

Definition RELEASE : re := Cat (Cls is_alnum) (Rep (Cls (fun c => is_alnum c || one_of "._+-" c)) 0 127).

Definition config_identity (info : stat_result) : Z * Z * Z * Z * Z :=
  (st_dev info, st_ino info, st_size info, st_mtime_ns info, st_ctime_ns info).

Definition CONFIG_MAXIMUM : Z := 16 * 2 ^ 20.

Definition check_config_line (lines : list pystr) (u : unit) (line : pystr) : res unit :=
  raise_if (negb (mem line lines)) ValueError "kernel config is missing a line".

(** [kernel] is the path [artifact] has accepted. *)
Definition kernel_config (kernel : pystr) (release required : pyval) (required_uid : Z) : M pystr :=
  match release with
  | VStr name =>
      mraise_if (negb (fullmatch RELEASE name)) ValueError "kernel release is not a safe filename component" ;;;
      match (match required with VList l => strs_of l | _ => None end) with
      | Some wanted =>
          let* descriptor := open_ true false (removelast (pp_comps (pure_path kernel)) ++ [str "config-" ++ name]) in
          let* data := mfinally
            (let* before := fstat descriptor in
             mraise_if (negb (s_isreg (st_mode before)) || negb (st_uid before =? required_uid) || flag (st_mode before) 0x12
                        || negb ((0 <? st_size before) && (st_size before <=? CONFIG_MAXIMUM)))
               ValueError "kernel config has unsafe type, owner, mode, or size" ;;;
             let* data := read_fd descriptor in
             let* after := fstat descriptor in
             mraise_if ((CONFIG_MAXIMUM <? zlen data) || negb (bool_decide (config_identity before = config_identity after)))
               ValueError "kernel config changed during bounded verification" ;;;
             mret data)
            (close descriptor) in
          let* text := lift (utf8_decode Strict data) in
          lift (for_each (check_config_line (map strip (splitlines text))) tt wanted) ;;;
          mret name
      | None => mraise ValueError "required kernel config must be a list of strings"
      end
  | _ => mraise ValueError "kernel release is not a safe filename component"
  end.

(** ** The whole manifest *)

Context {D : Type}.
Variable decoder_start : D.
Variable decompress : D -> bytes -> Z -> res (bytes * D).
Variables (eof : D -> bool) (unconsumed_tail unused_data : D -> bytes).

(** What [modinfo -F field path] prints, or how it fails. *)
Variable modinfo : fs -> string -> pystr -> res pystr.
Definition run_modinfo (field : string) (file : pystr) : M pystr := query (fun f => modinfo f field file).

Definition digest_in (manifest : pyval) (keys : list string) : res pyval :=
  let! v := for_each (fun v k => getitem v (str k)) manifest keys in getitem v (str "sha256").

Definition initramfs_identity (manifest : pyval) (required_uid : Z) (skip_parent_safety : bool) : M unit :=
  let* agent := lift (digest_in manifest ["agent"]) in
  let* relay := lift (digest_in manifest ["relay"]) in
  let* module := lift (digest_in manifest ["transport"; "module"]) in
  let required := [(str "mk-agent", (agent, true)); (str "mkvsock-relay", (relay, true)); (str "mk_transport.ko", (module, false))] in
  let* value := lift (getitem manifest (str "initramfs")) in
  let* file := lift (getitem value (str "path")) in
  let* digest := lift (getitem value (str "sha256")) in
  verified_file file digest required_uid skip_parent_safety (512 * 2 ^ 20 + 2 ^ 20) false (fun fd =>
    let* data := read_fd fd in
    lift (verify_boot_components decoder_start decompress eof unconsumed_tail unused_data data required)).

Definition BUSYBOX : bytes := bstr "#!/bin/busybox sh" ++ [x0a].

(** The path of an artifact [artifact] accepted is a string. *)
Definition as_text (v : pyval) : res pystr :=
  match v with VStr s => Ok s | _ => raise TypeError "expected str, bytes or os.PathLike object" end.

Definition docker_module (release : pystr) (required_uid : Z) (skip_parent_safety skip_modinfo : bool) (u : unit)
    (m : pystr * pyval) : M unit :=
  let '(name, selected) := m in
  let* p := artifact selected required_uid skip_parent_safety in
  if skip_modinfo then mret tt
  else
    let* file := lift (as_text p) in
    let* observed := run_modinfo "name" file in
    let* vermagic := run_modinfo "vermagic" file in
    mraise_if (negb (observed =s (name ++ [10])) || negb (endswith vermagic [10]) || has_char 10 (removelast vermagic)
               || has_char 13 vermagic || negb (startswith vermagic (release ++ str " ")))
      ValueError "Docker guest module differs from its approved name or child release".

Definition docker_guest_profile (value : pyval) (release : pystr) (required_uid : Z) (skip_parent_safety skip_modinfo : bool) : M pyval :=
  let* d := lift (exact_fields value (strs ["kind"; "rootfs_manifest_sha256"; "bootstrap"; "modules"]) []) in
  mraise_if (negb (get d (str "kind") == VStr (str "docker-rootless-offline-v1"))
             || negb (digest_ok (get d (str "rootfs_manifest_sha256"))))
    ValueError "Docker guest kind or root filesystem approval is invalid" ;;;
  let* bootstrap := lift (exact_fields (get d (str "bootstrap")) (strs ["path"; "sha256"]) []) in
  verified_file (get bootstrap (str "path")) (get bootstrap (str "sha256")) required_uid skip_parent_safety (4 * 2 ^ 20) false
    (fun fd => let* data := read_fd fd in
               mraise_if (negb (bytes_eqb (slice 0 (zlen BUSYBOX) data) BUSYBOX)) ValueError
                 "Docker guest bootstrap must use the fixed guest BusyBox interpreter") ;;;
  let* modules := lift (exact_fields (get d (str "modules")) (strs ["llc"; "stp"; "bridge"; "veth"]) []) in
  mfor_each (docker_module release required_uid skip_parent_safety skip_modinfo) tt modules ;;;
  mret value.

Definition MANIFEST_FIELDS : list pystr := strs
  ["schema_version"; "name"; "architecture"; "kernel_release"; "compatibility"; "kernel"; "initramfs"; "agent"; "relay";
   "transport"; "protocol"; "required_config"; "oci_features"].

Definition COMPATIBILITY : pyval := VDict
  [(str "multikernel_revision", VStr PINNED_MULTIKERNEL); (str "kerf_version", VStr (str "v0.2.0"));
   (str "kerf_revision", VStr PINNED_KERF)].

Definition EXPECTED_TRANSPORT : dict :=
  [(str "module_name", VStr (str "mk_transport")); (str "socket_option", VInt 9); (str "transport_id", VInt 1);
   (str "primary_role", VStr (str "server")); (str "child_role", VStr (str "client"))].

Definition transport_differs (transport : dict) : bool :=
  existsb (fun kv => negb (get transport kv.1 == kv.2)) EXPECTED_TRANSPORT.

Definition check_module (release : pystr) (module : pystr) (u : unit) (selected : pystr) : M unit :=
  let* raw_name := run_modinfo "name" selected in
  let* raw_vermagic := run_modinfo "vermagic" selected in
  let name := strip raw_name in
  let vermagic := strip raw_vermagic in
  mraise_if ((selected =s module) && negb (name =s str "mk_transport") || (name =s []) || has_char 10 name
             || has_char 10 vermagic || negb (startswith vermagic (release ++ str " ")))
    ValueError "module name or kernel release is incompatible".

Definition MANIFEST_MAXIMUM : Z := 2 ^ 20.

Definition read_manifest (manifest_path : pystr) (required_uid : Z) (skip_parent_safety : bool) : M bytes :=
  verified_file (VStr manifest_path) VNone required_uid skip_parent_safety MANIFEST_MAXIMUM true (fun fd =>
    let* data := read_fd fd in
    mraise_if (MANIFEST_MAXIMUM <? zlen data) ValueError "manifest exceeds bounded read" ;;;
    mret data).

(** The checks that read nothing. *)
Definition manifest_checks (manifest : pyval) (expected_name : pystr) : res dict :=
  let! m := exact_fields manifest MANIFEST_FIELDS (strs ["modules"; "docker_guest"]) in
  raise_if (negb (get m (str "schema_version") == VInt 1) || negb (get m (str "name") == VStr expected_name)
            || negb (get m (str "architecture") == VStr (str "amd64")))
    ValueError "manifest identity or architecture is incompatible" ;;
  let! _ := exact_fields (get m (str "compatibility")) (strs ["multikernel_revision"; "kerf_version"; "kerf_revision"]) [] in
  raise_if (negb (get m (str "compatibility") == COMPATIBILITY)) ValueError "manifest compatibility pins are incompatible" ;;
  let! protocol := exact_fields (get m (str "protocol")) (strs ["min"; "max"]) [] in
  let! unsupported := or_else (py_gt (get protocol (str "min")) 1) (py_lt (get protocol (str "max")) 1) in
  raise_if unsupported ValueError "manifest does not support protocol v1" ;;
  Ok m.

Record arguments := Arguments {
  manifest_argument : pystr; expected_name : pystr; required_uid : Z; skip_modinfo : bool; skip_parent_safety : bool }.

Definition validate (a : arguments) : M pyval :=
  let uid := required_uid a in
  let skip := skip_parent_safety a in
  let* manifest_bytes := read_manifest (manifest_argument a) uid skip in
  let* manifest := lift (loads_bytes strict_object float_constant manifest_bytes) in
  let* m := lift (manifest_checks manifest (expected_name a)) in
  let* kernel := artifact (get m (str "kernel")) uid skip in
  let* kernel_text := lift (as_text kernel) in
  let* release := kernel_config kernel_text (get m (str "kernel_release")) (get m (str "required_config")) uid in
  kernel_identity (get m (str "kernel")) release uid skip ;;;
  let* initramfs := artifact (get m (str "initramfs")) uid skip in
  let* agent := artifact (get m (str "agent")) uid skip in
  let* relay := artifact (get m (str "relay")) uid skip in
  let* transport := lift (exact_fields (get m (str "transport"))
    (strs ["module"; "module_name"; "socket_option"; "transport_id"; "primary_role"; "child_role"]) []) in
  mraise_if (transport_differs transport) ValueError
    "transport module, socket option, ID, or direction is incompatible" ;;;
  let* module := artifact (get transport (str "module")) uid skip in
  let* extra_values := lift (iterate (get_or m (str "modules") (VList []))) in
  let* extras := mmap (fun extra => artifact extra uid skip) extra_values in
  mfor_each (fun _ e => x86_64_elf e uid skip) tt [get m (str "agent"); get m (str "relay")] ;;;
  let* module_text := lift (as_text module) in
  let* selected := lift (map_res as_text (module :: extras)) in
  (if skip_modinfo a then mret tt else mfor_each (check_module release module_text) tt selected) ;;;
  initramfs_identity manifest uid skip ;;;
  let result :=
    [(str "manifest", VStr (as_posix (pure_path (manifest_argument a)))); (str "manifest_sha256", VStr (sha256 manifest_bytes));
     (str "architecture", get m (str "architecture")); (str "kernel_release", get m (str "kernel_release"));
     (str "required_config", get m (str "required_config")); (str "oci_features", get m (str "oci_features"));
     (str "kernel", kernel); (str "initramfs", initramfs); (str "agent", agent); (str "relay", relay); (str "module", module)] in
  if has_key (str "docker_guest") m then
    let* guest := docker_guest_profile (get m (str "docker_guest")) release uid skip (skip_modinfo a) in
    mret (VDict (result ++ [(str "docker_guest", guest)]))
  else mret (VDict result).

(** The exit status and the line printed. *)
Definition main (float_repr : pyfloat -> pystr) (a : arguments) : M (Z * option pystr) :=
  mcatch (let* r := validate a in mret (0, Some (dumps float_repr spaced r)))
    (fun e => if is_os_error (exn_cls e) || is_value_error (exn_cls e) || bool_decide (exn_cls e = SubprocessError)
              then mret (1, None) else reraise e).
End system.
End Bootstrap.
