(* ===== verification/BootstrapSafe.v ===== *)
(** * What the bootstrap validator guarantees *)
From Stdlib Require Import ZArith Lia.
From Stdlib Require Import Init.Byte.
From stdpp Require Import base list sets strings option gmap.
From S2P Require Import Prelude PyStr PyVal Bytes Json Sys FsRules Bootstrap.

Open Scope string_scope.
Open Scope list_scope.
Open Scope Z_scope.

Module BootstrapSafe.
Import Bootstrap.

(** ** The kernel image *)

Lemma refuses_read_range data size off len : refuses (read_range data size off len)
  (fun c => 0 <= off /\ 0 <= len /\ off + len <= size /\ c = slice off (off + len) data /\ zlen c = len).
Proof.
  unfold read_range. eapply refuses_bind_unit; [apply refuses_raise_if|]. intros Hr. bool_prop.
  eapply refuses_bind_unit; [apply refuses_raise_if|]. intros Hl. bool_prop. apply refuses_ok.
  split; [lia|]. split; [lia|]. split; [lia|]. done.
Qed.

(** The range of the banner in the image: inside the file, it begins with the release
    and ends with its only NUL. *)
Definition banner_at (data : bytes) (size : Z) (release : pystr) (offset length : Z) : Prop :=
  0 <= offset /\ 0 < length <= 4096 /\ offset + length <= size /\
  exists tail, slice offset (offset + length) data = bstr "Linux version " ++ ascii_bytes release ++ bstr " " ++ tail ++ [x00]
    /\ x00 ∉ tail.

(** A symbol of the image that names the banner, in a section that is loaded from the
    file. *)
Definition names_banner (strings : bytes) (s : symbol) : Prop :=
  slice (sym_name s) (sym_name s + 13) strings = bstr "linux_banner" ++ [x00].

Lemma refuses_banner_symbol symbols strings banners o : o + 24 <= zlen symbols ->
  Forall (names_banner strings) banners -> refuses (banner_symbol symbols strings banners o) (Forall (names_banner strings)).
Proof.
  intros Ho Hb. unfold banner_symbol. eapply refuses_bind; [by apply refuses_unpack|]. intros s <-.
  eapply refuses_bind_unit; [apply refuses_raise_if|]. intros _. apply refuses_ok.
  case_match eqn:He; [|done]. apply bool_decide_eq_true in He. apply Forall_app. split; [done|]. by constructor.
Qed.

(** A banner that passes the last check. *)
Lemma banner_text banner release release_bytes : endswith banner [x00] = true ->
  existsb (fun b => byte_eqb b x00) (removelast banner) = false ->
  encode_ascii release = Ok release_bytes ->
  startswith banner (bstr "Linux version " ++ release_bytes ++ bstr " ") = true ->
  exists tail, banner = bstr "Linux version " ++ ascii_bytes release ++ bstr " " ++ tail ++ [x00] /\ x00 ∉ tail.
Proof.
  intros [r ->]%endswith_exists Hn Hr [t Ht]%startswith_exists. unfold encode_ascii in Hr.
  destruct (forallb _ release); [|done]. injection Hr as <-. rewrite removelast_last in Hn.
  rewrite existsb_false_iff in Hn. destruct t as [|x t _] using rev_ind.
  - rewrite app_nil_r in Ht. apply (f_equal (fun l => List.last l x01)) in Ht. rewrite last_last in Ht.
    rewrite app_assoc in Ht. change (bstr " ") with [x20] in Ht. rewrite last_last in Ht. done.
  - rewrite app_assoc in Ht. apply app_inj_tail in Ht as [Hr <-]. exists t. split.
    + rewrite Hr, <-!app_assoc. done.
    + intros Hx. specialize (Hn x00). rewrite Hr in Hn. unfold byte_eqb in Hn. rewrite bool_decide_true in Hn by done.
      discriminate Hn. set_solver.
Qed.

Lemma section_link raw i : refuses (section_at raw i) (fun s => 0 <= sh_link s) \/ zlen raw < i * 64 + 64.
Proof.
  destruct (Z_lt_le_dec (zlen raw) (i * 64 + 64)); [by right|left]. unfold section_at.
  eapply refuses_conseq; [by apply refuses_unpack|]. intros s <-. apply le_field_nonneg.
Qed.

(** The last part of the check: the banner's symbol leads to the text. *)
Lemma refuses_banner_range data size release (sections : list section) (b : symbol) :
  zlen sections <= 0xff00 ->
  refuses
    (raise_if (negb (sym_info b =? 0x11)
               || negb ((0 <? sym_section b) && (sym_section b <? Z.min (zlen sections) 0xff00))
               || negb ((0 <? sym_length b) && (sym_length b <=? 4096)))
       ValueError "kernel release symbol is incompatible" ;;
     let! s := pyindex (sym_section b) sections in
     raise_if (negb (sh_type s =? 1) || negb (flag (sh_flags s) 2) || flag (sh_flags s) 0x800
               || (sym_address b <? sh_addr s) || (sh_size s <? sym_address b - sh_addr s)
               || (sh_size s - (sym_address b - sh_addr s) <? sym_length b))
       ValueError "kernel release section or symbol range is incompatible" ;;
     raise_if ((size <? sh_offset s) || (size - sh_offset s <? sh_size s))
       ValueError "kernel release section is outside its file" ;;
     let! banner := read_range data size (sh_offset s + sym_address b - sh_addr s) (sym_length b) in
     let! release_bytes :=
       (if negb (endswith banner [x00]) || existsb (fun b => byte_eqb b x00) (removelast banner)
        then Ok [] else encode_ascii release) in
     raise_if (negb (endswith banner [x00]) || existsb (fun b => byte_eqb b x00) (removelast banner)
               || negb (startswith banner (bstr "Linux version " ++ release_bytes ++ bstr " ")))
       ValueError "kernel embedded release is incompatible")
    (fun _ => exists offset length, banner_at data size release offset length).
Proof.
  intros Hn. eapply refuses_bind_unit; [apply refuses_raise_if|]. intros Hb. bool_prop.
  eapply refuses_bind; [apply refuses_pyindex; lia|]. intros s _.
  eapply refuses_bind_unit; [apply refuses_raise_if|]. intros _.
  eapply refuses_bind_unit; [apply refuses_raise_if|]. intros _.
  eapply refuses_bind; [apply refuses_read_range|]. intros banner (Hoff & Hlen0 & Hend & Hslice & Hlen).
  eapply (refuses_bind _ _ (fun rb => endswith banner [x00] = true ->
    existsb (fun b => byte_eqb b x00) (removelast banner) = false -> encode_ascii release = Ok rb)).
  { destruct (negb (endswith banner [x00]) || _) eqn:E; [|].
    - apply refuses_ok. intros He Hx. rewrite He, Hx in E. done.
    - unfold encode_ascii. destruct (forallb _ release); [|done]. by apply refuses_ok. }
  intros rb Hrb. eapply refuses_conseq; [apply refuses_raise_if|]. intros ? Hc. cbv beta in Hc. bool_prop.
  exists (sh_offset s + sym_address b - sh_addr s), (sym_length b). split; [lia|]. split; [lia|]. split; [lia|].
  rewrite <-Hslice. eapply banner_text; try done. by apply Hrb.
Qed.

Lemma refuses_kernel_banner data size release :
  refuses (kernel_banner data size release) (fun _ => exists offset length, banner_at data size release offset length).
Proof.
  unfold kernel_banner. eapply refuses_bind; [apply refuses_read_range|]. intros header (_ & _ & _ & _ & Hh).
  eapply refuses_bind; [apply refuses_unpack; lia|]. intros ident _.
  eapply refuses_bind; [apply refuses_unpack; lia|]. intros ehsize _.
  eapply refuses_bind_unit; [apply refuses_raise_if|]. intros _.
  eapply refuses_bind; [apply refuses_unpack; lia|]. intros soff _.
  eapply refuses_bind; [apply refuses_unpack; lia|]. intros [ssize scount] _.
  eapply refuses_bind_unit; [apply refuses_raise_if|]. intros Hcount. bool_prop.
  eapply refuses_bind; [apply refuses_read_range|]. intros raw (_ & _ & _ & _ & Hraw).
  eapply refuses_bind.
  { apply (refuses_map_res _ (fun _ s => 0 <= sh_link s)). intros i Hi%elem_zrange. destruct (section_link raw i); [done|lia]. }
  intros sections Hsec. pose proof (Forall2_length _ _ _ Hsec) as Hlen.
  assert (zlen sections = scount) as Hns by (unfold zlen in *; rewrite <-Hlen; apply zrange_length; lia).
  eapply refuses_bind; [apply refuses_unpack; lia|]. intros nidx _.
  eapply refuses_bind_unit; [apply refuses_raise_if|]. intros Hidx. bool_prop.
  eapply refuses_bind; [apply refuses_pyindex; lia|]. intros snames _.
  eapply refuses_bind_unit; [apply refuses_raise_if|]. intros _.
  eapply refuses_bind; [apply refuses_read_range|]. intros sstrings _.
  eapply (refuses_bind_unit _ _ True).
  { apply (refuses_for_each _ (fun _ => True)); [done|].
    intros ? s _ _. eapply refuses_conseq; [apply refuses_raise_if|done]. }
  intros _. eapply refuses_bind; [apply refuses_unpack; lia|]. intros [psize pcount] _.
  eapply refuses_bind_unit; [apply refuses_raise_if|]. intros _. eapply (refuses_bind_unit _ _ True).
  { destruct (negb _); [|done]. eapply refuses_bind; [apply refuses_unpack; lia|]. intros poff _.
    eapply refuses_bind; [apply refuses_read_range|]. done. }
  intros _. destruct (List.filter _ sections) as [|table [|]] eqn:Htab; [apply refuses_raise| |apply refuses_raise].
  assert (0 <= sh_link table) as Hlink.
  { assert (In table (List.filter (fun s => sh_type s =? 2) sections)) as Hin by (rewrite Htab; by left).
    apply filter_In in Hin as [Hin _]. apply list_elem_of_In, list_elem_of_lookup in Hin as [k Hk].
    destruct (Forall2_lookup_r _ _ _ _ _ Hsec Hk) as (x & _ & ?). done. }
  eapply refuses_bind_unit; [apply refuses_raise_if|]. intros Ht. bool_prop.
  eapply refuses_bind; [apply refuses_pyindex; lia|]. intros names _.
  eapply refuses_bind_unit; [apply refuses_raise_if|]. intros _.
  eapply refuses_bind; [apply refuses_read_range|]. intros symbols (_ & _ & _ & _ & Hsym).
  eapply refuses_bind; [apply refuses_read_range|]. intros strings _.
  eapply refuses_bind_unit; [apply refuses_raise_if|]. intros _.
  eapply refuses_bind.
  { apply (refuses_for_each _ (Forall (names_banner strings))); [constructor|]. intros bs o Ho Hbs.
    apply elem_zrange_step in Ho as (k & -> & Hk & Hlt); [|lia]. apply refuses_banner_symbol; [|done].
    assert (sh_size table = 24 * (sh_size table / 24)) by (pose proof (Z.div_mod (sh_size table) 24); lia). lia. }
  intros banners _. destruct banners as [|b [|]]; [apply refuses_raise| |apply refuses_raise].
  rewrite <-Hns. apply refuses_banner_range. lia.
Qed.

(** The check of the kernel image on any bytes: it ends, raising nothing but
    [ValueError] (never an index or a [struct] error, however the tables overlap or lie
    about their sizes), and when it accepts, the image holds, within the file, a text
    that begins with [Linux version], the approved release and a blank, and whose only
    NUL is its last byte. *)
Theorem kernel_banner_found data size release :
  match kernel_banner data size release with
  | Ok _ => exists offset length, banner_at data size release offset length
  | Err e => is_value_error (exn_cls e) = true
  end.
Proof. exact (refuses_kernel_banner data size release). Qed.

(** ** The boot archive *)

Section archive.
Context {D : Type}.
Variable decoder_start : D.
Variable decompress : D -> bytes -> Z -> res (bytes * D).
Variables (eof : D -> bool) (unconsumed_tail unused_data : D -> bytes).

Abbreviation next_chunk := (next_chunk decompress eof unconsumed_tail unused_data).
Abbreviation read := (read decompress eof unconsumed_tail unused_data).
Abbreviation padding := (padding decompress eof unconsumed_tail unused_data).
Abbreviation entry_turn := (entry_turn decompress eof unconsumed_tail unused_data).

(** The generator yields these bytes on the way from one state to another. *)
Inductive pulled : chunks -> bytes -> chunks -> Prop :=
  | pulled_nil g : pulled g [] g
  | pulled_next g c g1 bs g2 : next_chunk g = Ok (Yield c g1) -> pulled g1 bs g2 -> pulled g (c ++ bs) g2.

Lemma pulled_app g1 a g2 b g3 : pulled g1 a g2 -> pulled g2 b g3 -> pulled g1 (a ++ b) g3.
Proof. induction 1 as [|g c g1 bs g2 Hn _ IH]; intros Hb; [done|]. rewrite <-app_assoc. econstructor; eauto. Qed.

(** The decoded total never exceeds the limit. *)
Definition counted (t : Z) (y : @yielded D) : Prop :=
  match y with Yield c g => total g = t + zlen c /\ total g <= MAXIMUM | End _ => True end.

Lemma chunks_turn_total g t : total g = t ->
  match chunks_turn decompress eof unconsumed_tail unused_data g with
  | Ok (inl g') => total g' = t
  | Ok (inr y) => counted t y
  | Err _ => True
  end.
Proof.
  intros <-. unfold chunks_turn. destruct (finished g); [done|]. destruct (eof (decoder g)).
  { unfold raise_if. by destruct (_ || _). }
  destruct (if bytes_eqb (pending g) [] then _ else _) as [waiting rest].
  destruct (decompress (decoder g) waiting (2 ^ 20)) as [[chunk d]|e]; [|by destruct (bool_decide _)].
  unfold raise_if. destruct (MAXIMUM <? total g + zlen chunk) eqn:Hm; [done|]. apply Z.ltb_ge in Hm.
  destruct (bytes_eqb chunk []) eqn:Hc; cbn [negb]; [|done].
  apply bool_decide_eq_true in Hc as ->.
  destruct (bytes_eqb (unconsumed_tail d) [] && negb (eof d)); [|apply Z.add_0_r].
  destruct (bytes_eqb _ []); [done|]. apply Z.add_0_r.
Qed.

Lemma next_chunk_total g c g' : next_chunk g = Ok (Yield c g') -> total g' = total g + zlen c /\ total g' <= MAXIMUM.
Proof.
  pose proof (while_inv (chunks_turn decompress eof unconsumed_tail unused_data) (fun g' => total g' = total g)
    (counted (total g)) (fun _ => True) g (fun h Hh => chunks_turn_total h (total g) Hh) I eq_refl) as Hw.
  unfold Bootstrap.next_chunk. intros Hn. rewrite Hn in Hw. exact Hw.
Qed.

Lemma pulled_total g bs g' : pulled g bs g' -> total g' = total g + zlen bs /\ (total g <= MAXIMUM -> total g' <= MAXIMUM).
Proof.
  induction 1 as [g|g c g1 bs g2 Hn _ [IH1 IH2]]; [unfold zlen; simpl; lia|].
  apply next_chunk_total in Hn as [Ht Hm]. rewrite zlen_app. lia.
Qed.

(** The reader hands out these bytes on the way from one state to another. *)
Definition takes (r : reader) (data : bytes) (r' : reader) : Prop :=
  exists p, pulled (blocks r) p (blocks r') /\ buffered r ++ p = data ++ buffered r'.

Lemma takes_nil r : takes r [] r.
Proof. exists []. split; [constructor|by rewrite app_nil_r]. Qed.

Lemma takes_app r1 a r2 b r3 : takes r1 a r2 -> takes r2 b r3 -> takes r1 (a ++ b) r3.
Proof.
  intros (p & Hp & He) (q & Hq & Hf). exists (p ++ q). split; [by eapply pulled_app|].
  rewrite app_assoc, He, <-app_assoc, Hf, app_assoc. done.
Qed.

Lemma read_takes n r data r' : read n r = Ok (data, r') -> zlen data = n /\ takes r data r'.
Proof.
  unfold Bootstrap.read. intros Hr. inv_ok. bool_prop.
  pose proof (while_inv (read_turn decompress eof unconsumed_tail unused_data n)
    (fun s => zlen s.1 <= n /\ takes r s.1 s.2) (fun s => zlen s.1 = n /\ takes r s.1 s.2) (fun _ => True) ([], r)) as Hw.
  rewrite Hr in Hw. apply Hw; [|done|split; [unfold zlen; simpl; lia|apply takes_nil]].
  clear Hr Hw. intros [result r1] [Hlen Ht]. unfold read_turn. destruct (n <=? zlen result) eqn:Hn.
  { simpl in *. split; [lia|done]. }
  bool_prop. simpl in Hlen, Ht.
  assert (forall r2, takes r result r2 ->
    let count := Z.min (n - zlen result) (zlen (buffered r2)) in
    zlen (result ++ slice 0 count (buffered r2)) <= n /\
    takes r (result ++ slice 0 count (buffered r2)) (Reader (blocks r2) (drop (Z.to_nat count) (buffered r2)))) as Hgo.
  { intros r2 H2 count. pose proof (zlen_nonneg (buffered r2)).
    assert (0 <= count <= zlen (buffered r2)) as Hc by (unfold count; lia). split.
    - rewrite zlen_app, zlen_take by lia. unfold count. lia.
    - eapply takes_app; [exact H2|]. exists []. split; [constructor|]. simpl. by rewrite slice_drop, app_nil_r. }
  destruct (bytes_eqb (buffered r1) []) eqn:Hb; [|by apply Hgo].
  apply bool_decide_eq_true in Hb. destruct (next_chunk (blocks r1)) as [[c g|g]|e] eqn:Hnext; [|done|done].
  apply (Hgo (Reader g c)). destruct Ht as (p & Hp & He). exists (p ++ c). simpl. split.
  - eapply pulled_app; [exact Hp|]. rewrite <-(app_nil_r c). econstructor; [done|constructor].
  - rewrite app_assoc, He, Hb, app_nil_r. done.
Qed.

Lemma padding_takes n r r' : padding n r = Ok r' -> takes r (repeat x00 (Z.to_nat n)) r'.
Proof.
  unfold Bootstrap.padding. intros Hp. inv_ok. destruct a as [data r1]. inv_ok.
  apply read_takes in E as [Hl Ht]. apply any_byte_zeros in E0.
  assert (Z.to_nat n = length data) as -> by (unfold zlen in Hl; lia). by rewrite <-E0.
Qed.

Lemma data_takes size r data r' : while (data_turn decompress eof unconsumed_tail unused_data) (size, [], r) = Ok (data, r') ->
  zlen data = size /\ takes r data r'.
Proof.
  intros Hw. pose proof (while_inv (data_turn decompress eof unconsumed_tail unused_data)
    (fun s => let '(remaining, d, r1) := s in zlen d + remaining = size /\ takes r d r1)
    (fun s => zlen s.1 = size /\ takes r s.1 s.2) (fun _ => True) (size, [], r)) as Hi.
  rewrite Hw in Hi. apply Hi; [|done|split; [unfold zlen; simpl; lia|apply takes_nil]].
  intros [[remaining d] r1] [Hl Ht]. unfold data_turn. destruct (Z.eqb_spec remaining 0) as [->|Hne]; [split; [simpl; lia|done]|].
  destruct (read _ r1) as [[chunk r2]|e] eqn:Hr; [|done]. apply read_takes in Hr as [Hc Hr].
  rewrite zlen_app. split; [lia|]. by eapply takes_app.
Qed.

(** *** Records *)

Record record := Record_ { rec_header : bytes; rec_raw : bytes; rec_name : pystr; rec_data : bytes }.

Definition zeros (n : Z) : bytes := repeat x00 (Z.to_nat n).
Definition record_bytes (e : record) : bytes :=
  rec_header e ++ rec_raw e ++ zeros ((- (110 + zlen (rec_raw e))) mod 4) ++ rec_data e ++ zeros ((- zlen (rec_data e)) mod 4).

Definition field (e : record) (i : Z) : Z := match header_field (rec_header e) i with Ok v => v | Err _ => 0 end.

(** A newc record: its header's name and size fields are those of the name and the
    data, its checksum field is zero, and its name ends with its only NUL. *)
Definition newc (e : record) : Prop :=
  header_ok (rec_header e) = true /\ zlen (rec_header e) = 110 /\
  field e 11 = zlen (rec_raw e) /\ field e 6 = zlen (rec_data e) /\ field e 12 = 0 /\
  zlen (rec_raw e) <= 4096 /\ endswith (rec_raw e) [x00] = true /\ x00 ∉ removelast (rec_raw e) /\
  entry_name (rec_raw e) = Ok (rec_name e).

Definition is_trailer (e : record) : Prop :=
  newc e /\ rec_raw e = bstr "TRAILER!!!" ++ [x00] /\ rec_data e = [].

(** A record of an approved component has its digest and safe metadata. *)
Definition component_ok (e : record) (digest : pyval) (executable : bool) : Prop :=
  critical_unsafe (field e 1) (field e 2) (field e 3) (field e 4) executable = false /\
  (VStr (sha256 (rec_data e)) == digest)%py = true.

Definition entry_ok (required : required_t) (e : record) : Prop :=
  newc e /\ path_unsafe (rec_name e) = false /\
  forall digest executable, alookup (rec_name e) required = Some (digest, executable) -> component_ok e digest executable.

Definition seen_as (e : record) : pystr * (Z * Z * Z) := (rec_name e, (field e 1, field e 2, field e 3)).

(** The records read so far account for the bytes taken and for the loop's two tables. *)
Definition parsed (required : required_t) (r0 : reader) (s : archive_state) : Prop :=
  exists es, takes r0 (concat (map record_bytes es)) (input s) /\ Forall (entry_ok required) es /\
    seen s = map seen_as es /\ NoDup (map rec_name es) /\
    forall n, n ∈ found s <-> (n ∈ map rec_name es /\ n ∈ map fst required).

(** After the trailer nothing but zeros is left, and the stream ends. *)
Definition ended (required : required_t) (r0 : reader) (s : archive_state) : Prop :=
  exists mid trailer zs g g', parsed required r0 (Archive mid (seen s) (found s)) /\
    is_trailer trailer /\ takes mid (record_bytes trailer) (input s) /\
    pulled (blocks (input s)) zs g /\ any_byte (buffered (input s) ++ zs) = false /\ next_chunk g = Ok (End g').

Lemma drain_pulled g : while (drain_turn decompress eof unconsumed_tail unused_data) g = Ok tt ->
  exists zs g1 g2, pulled g zs g1 /\ any_byte zs = false /\ next_chunk g1 = Ok (End g2).
Proof.
  intros Hw. pose proof (while_inv (drain_turn decompress eof unconsumed_tail unused_data)
    (fun h => exists zs, pulled g zs h /\ any_byte zs = false)
    (fun _ => exists zs g1 g2, pulled g zs g1 /\ any_byte zs = false /\ next_chunk g1 = Ok (End g2)) (fun _ => True) g) as Hi.
  rewrite Hw in Hi. apply Hi; [|done|exists []; split; [constructor|done]].
  intros h (zs & Hp & Hz). unfold drain_turn. destruct (next_chunk h) as [[c h'|h']|e] eqn:Hn; [|by exists zs, h, h'|done].
  unfold raise_if. destruct (any_byte c) eqn:Hc; [done|]. exists (zs ++ c). rewrite any_byte_app, Hz, Hc. split; [|done].
  eapply pulled_app; [exact Hp|]. rewrite <-(app_nil_r c). econstructor; [done|constructor].
Qed.

Lemma fields_at header fields : map_res (header_field header) (zrange 13) = Ok fields ->
  forall i, (i < 13)%nat -> header_field header (Z.of_nat i) = Ok (nth i fields 0).
Proof.
  intros Hf%map_res_ok i Hi. destruct (Forall2_lookup_l _ _ _ i (Z.of_nat i) Hf) as (v & Hv & Hh).
  - unfold zrange. rewrite list_lookup_fmap, lookup_seq_lt by lia. done.
  - by rewrite (nth_lookup_Some fields i 0 v Hv).
Qed.

(** The next record is added to those read. *)
Lemma parsed_snoc required r0 s e r : parsed required r0 s -> takes (input s) (record_bytes e) r -> entry_ok required e ->
  rec_name e ∉ map fst (seen s) ->
  parsed required r0 (Archive r (seen s ++ [seen_as e])
    (match alookup (rec_name e) required with Some _ => found s ++ [rec_name e] | None => found s end)).
Proof.
  intros (es & Ht & He & Hs & Hd & Hf) Hr Hok Hn. rewrite Hs in Hn. exists (es ++ [e]). simpl.
  rewrite !map_app, concat_app, Hs. simpl. rewrite app_nil_r. split; [by eapply takes_app|].
  split; [apply Forall_app; split; [done|by constructor]|]. split; [done|].
  assert (rec_name e ∉ map rec_name es) as Hn'.
  { intros Hin. apply Hn. rewrite map_map. exact Hin. }
  split.
  { apply NoDup_app. split; [done|]. split; [|apply NoDup_singleton]. intros x Hx ->%list_elem_of_singleton. done. }
  intros n. destruct (alookup (rec_name e) required) as [v|] eqn:Ha.
  - apply alookup_elem in Ha. assert (rec_name e ∈ map fst required) by (apply list_elem_of_fmap; by exists (rec_name e, v)).
    rewrite !elem_of_app, Hf, list_elem_of_singleton. naive_solver.
  - apply alookup_none in Ha. rewrite Hf, elem_of_app, list_elem_of_singleton. naive_solver.
Qed.

#[local] Opaque while loop zrange.

Lemma entry_turn_parsed required r0 s : parsed required r0 s ->
  match entry_turn required s with
  | Ok (inl s') => parsed required r0 s'
  | Ok (inr s') => ended required r0 s'
  | Err _ => True
  end.
Proof.
  intros Hp. destruct (entry_turn required s) as [o|] eqn:Ho; [|done]. unfold Bootstrap.entry_turn in Ho.
  inv_ok. destruct a as [header r1]. apply read_takes in E as [Hh Ht1]. inv_ok. cbv zeta in Ho.
  bool_prop. destruct a2 as [raw r2]. apply read_takes in E2 as [Hraw Ht2]. inv_ok.
  rename a3 into name, a4 into r3. bool_prop. apply padding_takes in E3.
  assert (forall i, (i < 13)%nat -> forall raw name data, field (Record_ header raw name data) (Z.of_nat i) = nth i a0 0) as Hfields.
  { intros i Hi raw' name' data'. unfold field. cbn [rec_header]. by rewrite (fields_at _ _ E0 i Hi). }
  assert (forall data, zlen data = nth 6 a0 0 -> newc (Record_ header raw name data)) as Hnewc.
  { intros data Hd. unfold newc. rewrite (Hfields 11%nat), (Hfields 6%nat), (Hfields 12%nat) by lia.
    simpl. rewrite Hraw, Hd. repeat (split; [done|]). split; [|done].
    rewrite existsb_false_iff in H4. intros Hx%H4. done. }
  assert (forall data pad r4, zlen data = nth 6 a0 0 -> takes r3 (data ++ pad) r4 -> pad = zeros ((- nth 6 a0 0) mod 4) ->
    takes (input s) (record_bytes (Record_ header raw name data)) r4) as Htakes.
  { intros data pad r4 Hd Hr ->. unfold record_bytes. simpl. rewrite Hraw, Hd.
    do 3 (eapply takes_app; [done|]). done. }
  clear E0. destruct (name =s str "TRAILER!!!") eqn:Hname.
  - inv_ok. bool_prop. destruct a6. apply drain_pulled in E5 as (zs & g1 & g2 & Hd & Hz & Hn).
    exists (input s), (Record_ header raw name []), zs, g1, g2. destruct s as [r sn fd]. simpl.
    split; [done|]. split; [|split; [apply (Htakes [] []); [done|apply takes_nil|by rewrite E1]|]].
    + split; [by apply Hnewc; rewrite E1|]. split; [|done]. simpl. apply endswith_exists in H3 as [x ->].
      rewrite removelast_last in E0. apply bool_decide_eq_true in E0. by rewrite E0.
    + rewrite any_byte_app. by rewrite E4, Hz.
  - inv_ok. destruct a6 as [data r4]. inv_ok. bool_prop. apply padding_takes in E7. apply data_takes in E5 as [Hd Htd].
    pose proof (parsed_snoc required r0 s (Record_ header raw name data) a7 Hp) as Hs.
    unfold seen_as in Hs. rewrite (Hfields 1%nat), (Hfields 2%nat), (Hfields 3%nat) in Hs by lia. cbn [rec_name] in Hs.
    assert (forall digest executable, alookup name required = Some (digest, executable) ->
      component_ok (Record_ header raw name data) digest executable) as Hc.
    { intros digest executable Ha. rewrite Ha in E4, E6. inv_ok. bool_prop. unfold component_ok.
      rewrite (Hfields 1%nat), (Hfields 2%nat), (Hfields 3%nat), (Hfields 4%nat) by lia. done. }
    replace a6 with (match alookup name required with Some _ => found s ++ [name] | None => found s end).
    2: { destruct (alookup name required) as [[??]|]; by inv_ok. }
    apply Hs; [|split; [by apply Hnewc|done]|done].
    eapply Htakes; [done| |reflexivity]. by eapply takes_app.
Qed.

(** *** The whole archive *)

(** Every directory above the component is in the archive, owned by root and writable
    by nobody else; the archive's root itself may be left out. *)
Inductive guarded (seen : seen_t) : pystr -> Prop :=
  | guarded_root : ancestor_unsafe (alookup (str ".") seen) (str ".") = false -> guarded seen (str ".")
  | guarded_below parent : ancestor_unsafe (alookup parent seen) parent = false -> guarded seen (parent_of parent) ->
      guarded seen parent.

Lemma check_ancestors_guarded seen name : check_ancestors seen tt name = Ok tt -> guarded seen (parent_of name).
Proof.
  unfold check_ancestors. intros Hw.
  pose proof (while_inv (ancestor_turn seen) (fun p => guarded seen p -> guarded seen (parent_of name))
    (fun _ => guarded seen (parent_of name)) (fun _ => True) (parent_of name)) as Hi.
  rewrite Hw in Hi. apply Hi; [|done|done]. intros p Hp. unfold ancestor_turn, raise_if.
  destruct (ancestor_unsafe (alookup p seen) p) eqn:Hu; [done|]. destruct (p =s str ".") eqn:Hd.
  - apply bool_decide_eq_true in Hd as ->. apply Hp. by constructor.
  - intros Hg. apply Hp. by apply guarded_below.
Qed.

(** The stream decodes to these bytes, and to its end. *)
Definition decodes (archive content : bytes) : Prop :=
  exists g g', pulled (Chunks decoder_start [] 0 archive false) content g /\ next_chunk g = Ok (End g').

Definition archive_of (es : list record) (trailer : record) (pad : bytes) : bytes :=
  concat (map record_bytes es) ++ record_bytes trailer ++ pad.

(** What an accepted archive is. *)
Definition approved_archive (archive : bytes) (required : required_t) : Prop :=
  exists es trailer pad,
    decodes archive (archive_of es trailer pad) /\ zlen (archive_of es trailer pad) <= MAXIMUM /\
    is_trailer trailer /\ any_byte pad = false /\
    Forall (entry_ok required) es /\ NoDup (map rec_name es) /\
    forall name digest executable, alookup name required = Some (digest, executable) ->
      exists e, e ∈ es /\ rec_name e = name /\ component_ok e digest executable /\
        guarded (map seen_as es) (parent_of name).

Lemma boot_archive_checked archive required :
  verify_boot_components decoder_start decompress eof unconsumed_tail unused_data archive required = Ok tt ->
  approved_archive archive required.
Proof.
  unfold verify_boot_components. intros Hv. inv_ok. destruct a0. unfold entries in E. bool_prop.
  set (r0 := Reader _ _) in E.
  assert (parsed required r0 (Archive r0 [] [])) as H0.
  { exists []. split; [apply takes_nil|]. split; [constructor|]. split; [done|]. split; [constructor|]. set_solver. }
  pose proof (loop_inv (entry_turn required) 17 (parsed required r0) (ended required r0) (fun _ => True) (Archive r0 [] [])
    (entry_turn_parsed required r0) H0) as Hl. destruct (loop 17 _ _) as [[s|s]|e]; try discriminate E. injection E as ->.
  destruct Hl as (mid & trailer & zs & g & g' & (es & Ht & He & Hs & Hd & Hf) & Htr & Htt & Hz & Hb & Hn).
  simpl in Ht, Hs, Hf. pose proof (takes_app _ _ _ _ _ Ht Htt) as (p & Hp & Hpe). simpl in Hpe.
  exists es, trailer, (buffered (input a) ++ zs).
  assert (pulled (blocks r0) (archive_of es trailer (buffered (input a) ++ zs)) g) as Hall.
  { unfold archive_of. replace (_ ++ _ ++ _ ++ zs) with (p ++ zs) by (rewrite Hpe, <-!app_assoc; done). by eapply pulled_app. }
  split; [by exists g, g'|]. split.
  { apply pulled_total in Hall as [Htot Hmax]. simpl in Htot, Hmax. unfold MAXIMUM in *. lia. }
  split; [done|]. split; [done|]. split; [done|]. split; [done|].
  intros name digest executable Ha. unfold set_eq in E0. apply andb_true_iff in E0 as [_ Hsub].
  assert (name ∈ found a) as Hfound.
  { apply subset_spec in Hsub. apply Hsub, list_elem_of_fmap. exists (name, (digest, executable)).
    split; [done|by apply alookup_elem]. }
  apply Hf in Hfound as Hin. destruct Hin as [(e & -> & Hin)%list_elem_of_fmap _]. exists e.
  split; [done|]. split; [done|]. split.
  - rewrite list.Forall_forall in He. apply (He e Hin). done.
  - rewrite <-Hs. apply check_ancestors_guarded. by eapply for_each_check.
Qed.

(** An archive is accepted only if its gzip stream decodes, to its end and to at
    most 512 MiB, to newc records, a trailer and zeros; the records have safe paths, no
    two the same; and every approved component is one of them, with its digest, safe
    metadata and safe directories above it.  No other record can stand in for a
    component: the names are those the guest's kernel extracts. *)
Theorem boot_archive_approved archive required :
  verify_boot_components decoder_start decompress eof unconsumed_tail unused_data archive required = Ok tt ->
  exists es trailer pad,
    decodes archive (archive_of es trailer pad) /\ zlen (archive_of es trailer pad) <= MAXIMUM /\
    is_trailer trailer /\ any_byte pad = false /\
    Forall (entry_ok required) es /\ NoDup (map rec_name es) /\
    forall name digest executable, alookup name required = Some (digest, executable) ->
      exists e, e ∈ es /\ rec_name e = name /\ component_ok e digest executable /\
        guarded (map seen_as es) (parent_of name).
Proof. apply boot_archive_checked. Qed.

(** *** It ends, and refuses by [ValueError]

    What [zlib] documents of a decoder: its errors are [zlib.error], and it keeps
    encoded bytes back only when the output's limit stops it. *)
Hypothesis decompress_errors : forall d data limit e, decompress d data limit = Err e -> exn_cls e = ZlibError.
Hypothesis decompress_consumes : forall d data limit chunk d',
  decompress d data limit = Ok (chunk, d') -> zlen chunk < limit -> unconsumed_tail d' = [].

Definition left_over (g : @chunks D) : Z := zlen (source g).
Definition small (g : @chunks D) : Prop := left_over g < 2 ^ 63 /\ 0 <= total g <= MAXIMUM.

Definition next_ok (g : @chunks D) (y : @yielded D) : Prop :=
  match y with
  | Yield c g' => c <> [] /\ small g' /\ total g' = total g + zlen c
  | End _ => True
  end.

#[local] Opaque Z.to_nat.

Lemma refuses_chunks_turn g : small g ->
  refuses (chunks_turn decompress eof unconsumed_tail unused_data g) (fun r =>
    match r with
    | inl g' => small g' /\ total g' = total g /\
        0 <= (if eof (decoder g') then 0 else 1 + left_over g') < (if eof (decoder g) then 0 else 1 + left_over g)
    | inr y => next_ok g y
    end).
Proof.
  intros [Hl Ht]. unfold chunks_turn. destruct (finished g); [done|]. pose proof (zlen_nonneg (source g)).
  destruct (eof (decoder g)); [eapply refuses_bind_unit; [apply refuses_raise_if|done]|].
  destruct (if bytes_eqb (pending g) [] then _ else _) as [waiting rest] eqn:Hw.
  assert (0 <= zlen rest <= left_over g) as Hrest.
  { pose proof (zlen_nonneg rest). unfold left_over. destruct (bytes_eqb (pending g) []); injection Hw as <- <-; [|lia].
    rewrite zlen_drop by done. unfold BLOCK in *. lia. }
  destruct (decompress (decoder g) waiting (2 ^ 20)) as [[chunk d]|e] eqn:Hd.
  2: { by rewrite bool_decide_true by by eapply decompress_errors. }
  eapply refuses_bind_unit; [apply refuses_raise_if|]. intros Hm. bool_prop.
  destruct (bytes_eqb chunk []) eqn:Hc; cbn [negb].
  2: { apply bool_decide_eq_false in Hc. apply refuses_ok. pose proof (zlen_nonneg chunk). unfold next_ok, small, left_over in *.
    cbn [source total decoder]. split; [done|lia]. }
  apply bool_decide_eq_true in Hc as ->. apply decompress_consumes in Hd; [|by unfold zlen]. rewrite Hd.
  unfold small, left_over in *. change (zlen (@nil byte)) with 0 in *.
  destruct (eof d) eqn:He; cbn [negb andb bytes_eqb].
  - rewrite andb_false_r. apply refuses_ok. cbn [source total decoder]. rewrite He. lia.
  - rewrite andb_true_r. unfold bytes_eqb at 1. rewrite bool_decide_true by done.
    eapply refuses_bind_unit; [apply refuses_raise_if|]. intros Hb. apply bool_decide_eq_false in Hb. apply refuses_ok.
    cbn [source total decoder]. rewrite He.
    rewrite zlen_drop by done. assert (0 < zlen rest); [|unfold BLOCK; lia].
    destruct rest; [|unfold zlen; simpl; lia]. destruct Hb. unfold slice. by rewrite drop_nil, take_nil.
Qed.

Lemma refuses_next_chunk g : small g -> refuses (next_chunk g) (next_ok g).
Proof.
  intros Hs. apply (refuses_while _ (fun g' => small g' /\ total g' = total g) _
    (fun g => if eof (decoder g) then 0 else 1 + left_over g)); [|done|].
  - intros h [Hh Ht]. eapply refuses_conseq; [by apply refuses_chunks_turn|]. intros [h'|y]; [naive_solver congruence|].
    unfold next_ok. rewrite Ht. done.
  - destruct Hs. destruct (eof _); lia.
Qed.

Lemma refuses_read n r : small (blocks r) -> refuses (read n r) (fun x => zlen x.1 = n /\ small (blocks x.2)).
Proof.
  intros Hs. unfold Bootstrap.read. eapply refuses_bind_unit; [apply refuses_raise_if|]. intros Hn. bool_prop.
  apply (refuses_while _ (fun x => zlen x.1 <= n /\ small (blocks x.2)) _ (fun x => n - zlen x.1));
    [|split; [exact H|done]|unfold zlen; simpl; lia].
  intros [result r1] [Hl H1]. unfold read_turn. destruct (n <=? zlen result) eqn:Hd; bool_prop.
  { apply refuses_ok. simpl in *. split; [lia|done]. }
  simpl in Hl, H1. eapply (refuses_bind _ _ (fun r2 => small (blocks r2) /\ 0 < zlen (buffered r2))).
  - destruct (bytes_eqb (buffered r1) []) eqn:Hb.
    + eapply refuses_bind; [by apply refuses_next_chunk|]. intros [c g|g] Hy; [|apply refuses_raise].
      apply refuses_ok. destruct Hy as (Hc & Hg & _). split; [done|]. destruct c; [done|]. unfold zlen. simpl. lia.
    + apply bool_decide_eq_false in Hb. apply refuses_ok. split; [done|]. destruct (buffered r1); [done|]. unfold zlen. simpl. lia.
  - intros r2 [H2 Hb]. apply refuses_ok. cbn [fst snd blocks]. rewrite zlen_app, zlen_take by lia. split; [|lia]. split; [lia|done].
Qed.

Lemma refuses_padding n r : small (blocks r) -> refuses (padding n r) (fun r' => small (blocks r')).
Proof.
  intros Hs. unfold Bootstrap.padding. eapply refuses_bind; [by apply refuses_read|]. intros [data r1] [_ H1].
  eapply refuses_bind_unit; [apply refuses_raise_if|]. done.
Qed.

Lemma refuses_data size r : size <= MAXIMUM -> small (blocks r) ->
  refuses (while (data_turn decompress eof unconsumed_tail unused_data) (size, [], r)) (fun x => small (blocks x.2)).
Proof.
  intros Hm Hs. apply (refuses_while _ (fun x => x.1.1 <= MAXIMUM /\ small (blocks x.2)) _ (fun x => Z.max 0 x.1.1));
    [|done|unfold MAXIMUM in *; simpl; lia].
  intros [[remaining data] r1] [Hr H1]. unfold data_turn. simpl in Hr, H1. destruct (Z.eqb_spec remaining 0); [by apply refuses_ok|].
  destruct (Z_lt_le_dec remaining 0) as [Hneg|Hpos].
  - unfold Bootstrap.read. replace (negb _) with true by lia. done.
  - eapply refuses_bind; [by apply refuses_read|]. intros [chunk r2] [Hc H2]. apply refuses_ok. simpl in *. split; [|lia]. split; [lia|done].
Qed.

Lemma refuses_drain g : small g -> refuses (while (drain_turn decompress eof unconsumed_tail unused_data) g) (fun _ => True).
Proof.
  intros Hs. apply (refuses_while _ small _ (fun g => MAXIMUM - total g)); [|done|].
  - intros h Hh. unfold drain_turn. eapply refuses_bind; [by apply refuses_next_chunk|]. intros [c h'|h'] Hy; [|by apply refuses_ok].
    eapply refuses_bind_unit; [apply refuses_raise_if|]. intros _. apply refuses_ok. destruct Hy as (Hc & Hh' & Ht).
    split; [done|]. rewrite Ht. destruct Hh' as [_ Hh']. destruct c; [done|]. unfold zlen in *. simpl length in *. lia.
  - destruct Hs as [_ Hs]. unfold MAXIMUM in *. lia.
Qed.

(** What the loop keeps: the names in the table are safe and short. *)
Definition name_ok (name : pystr) : Prop := path_unsafe name = false /\ zlen name <= 4096.
Definition going (s : archive_state) : Prop := 
  small (blocks (input s)) /\ Forall name_ok (map fst (seen s)) /\ Forall name_ok (found s).

Lemma entry_name_length raw name : entry_name raw = Ok name -> zlen name <= zlen raw.
Proof.
  unfold entry_name. destruct (utf8_decode Strict (removelast raw)) as [text|] eqn:Hd; [|done]. intros [= <-].
  apply utf8_decode_length in Hd. assert (zlen (removelast raw) <= zlen raw).
  { rewrite removelast_firstn_len. unfold zlen. rewrite length_take. lia. }
  destruct (startswith text _); [|lia]. unfold zlen in *. rewrite length_drop. lia.
Qed.

Lemma refuses_entry_name raw : refuses (entry_name raw) (fun name => zlen name <= zlen raw).
Proof.
  pose proof (entry_name_length raw) as Hn. unfold entry_name in *. destruct (utf8_decode _ _); [|done]. by apply Hn.
Qed.

Lemma refuses_header_field header i : refuses (header_field header i) (fun _ => True).
Proof. unfold header_field, int16. by destruct (int16_signed _). Qed.

Lemma refuses_entry_turn required s : going s ->
  refuses (entry_turn required s) (fun o => match o with inl s' => going s' | inr s' => going s' end).
Proof.
  intros (Hs & Hn & Hfound). unfold Bootstrap.entry_turn.
  eapply refuses_bind; [by apply refuses_read|]. intros [header r1] [_ R1].
  eapply refuses_bind_unit; [apply refuses_raise_if|]. intros _.
  eapply refuses_bind; [apply (refuses_map_res _ (fun _ _ => True)); intros; apply refuses_header_field|]. intros fields _.
  cbv zeta. eapply refuses_bind_unit; [apply refuses_raise_if|]. intros Hf. bool_prop.
  eapply refuses_bind; [by apply refuses_read|]. intros [raw r2] [Hraw R2].
  eapply refuses_bind_unit; [apply refuses_raise_if|]. intros _.
  eapply refuses_bind; [apply refuses_entry_name|]. intros name Hname. cbv beta in Hname. simpl in Hraw.
  eapply refuses_bind; [by apply refuses_padding|]. intros r3 R3. destruct (name =s str "TRAILER!!!").
  - do 3 (eapply refuses_bind_unit; [apply refuses_raise_if|]; intros _).
    eapply refuses_bind; [by apply refuses_drain|]. intros _ _. apply refuses_ok. done.
  - eapply refuses_bind_unit; [apply refuses_raise_if|]. intros Hu.
    do 2 (eapply refuses_bind_unit; [apply refuses_raise_if|]; intros _).
    eapply refuses_bind; [by apply refuses_data|]. intros [data r4] R4.
    assert (name_ok name) as Hok by (split; [done|lia]).
    eapply (refuses_bind _ _ (Forall name_ok)).
    { destruct (alookup name required) as [[??]|]; [|done]. eapply refuses_bind_unit; [apply refuses_raise_if|]. intros _.
      apply refuses_ok, Forall_app. split; [done|by constructor]. }
    intros found' Hf'. eapply refuses_bind; [by apply refuses_padding|]. intros r5 R5. apply refuses_ok. split; [done|].
    split; [|done]. simpl. rewrite map_app. apply Forall_app. split; [done|by constructor].
Qed.

Lemma refuses_ancestors seen name : Forall name_ok (map fst seen) -> zlen name <= 4096 ->
  refuses (check_ancestors seen tt name) (fun _ => True).
Proof.
  intros Hn Hl. unfold check_ancestors.
  apply (refuses_while _ (fun _ => True) _ (fun p => if p =s str "." then 0 else 1 + zlen p)); [|done|].
  - intros p _. unfold ancestor_turn. eapply refuses_bind_unit; [apply refuses_raise_if|]. intros Hu.
    destruct (p =s str ".") eqn:Hp; [by apply refuses_ok|]. apply refuses_ok. split; [done|].
    assert (name_ok p) as [Hsafe _].
    { destruct (alookup p seen) eqn:Ha; [|by simpl in Hu; rewrite Hp in Hu]. apply alookup_elem in Ha.
      rewrite list.Forall_forall in Hn. apply Hn, list_elem_of_fmap. by exists (p, p0). }
    unfold path_unsafe in Hsafe. bool_prop. pose proof (dirname_shorter p) as Hd.
    unfold parent_of. destruct (dirname p =s []) eqn:He; [simpl; pose proof (zlen_nonneg p); lia|].
    pose proof (zlen_nonneg (dirname p)). pose proof (zlen_nonneg p).
    assert (zlen (dirname p) < zlen p) by (apply Hd; [|done]; exact (proj1 (bool_decide_eq_false _) H)). destruct (dirname p =s str "."); lia.
  - unfold parent_of. pose proof (dirname_length name). destruct (dirname name =s []); [done|]. destruct (_ =s _); lia.
Qed.

(** C21. The check of the archive ends on every file of less than 2^63 bytes: it
    accepts or it raises [ValueError], whatever the stream's decoder yields; a header
    cannot make it loop, nor can a name, nor a directory. *)
Theorem boot_archive_refused_or_accepted archive required : zlen archive < 2 ^ 63 ->
  match verify_boot_components decoder_start decompress eof unconsumed_tail unused_data archive required with
  | Ok _ => True
  | Err e => is_value_error (exn_cls e) = true
  end.
Proof.
  intros Ha. enough (refuses (verify_boot_components decoder_start decompress eof unconsumed_tail unused_data archive required)
    (fun _ => True)) as Hr by (by destruct (verify_boot_components _ _ _ _ _ _ _)).
  unfold verify_boot_components. set (s0 := Archive _ _ _).
  assert (going s0) as H0 by (split; [split; [done|by vm_compute]|split; constructor]).
  eapply (refuses_bind _ _ going).
  - unfold entries. pose proof (loop_inv (entry_turn required) 17 going going (fun e => is_value_error (exn_cls e) = true) s0) as Hl.
    destruct (loop 17 _ s0) as [[s|s]|e]; [done|apply Hl; [|done]|apply Hl; [|done]];
      intros x Hx; pose proof (refuses_entry_turn required x Hx) as Ht; by destruct (entry_turn required x) as [[|]|].
  - intros s (_ & Hs & Hf). eapply refuses_bind_unit; [apply refuses_raise_if|]. intros _.
    apply refuses_for_each; [done|]. intros [] n Hin _. apply refuses_ancestors; [done|].
    rewrite list.Forall_forall in Hf. apply Hf, Hin.
Qed.
End archive.

(** ** A stored stream

    A decoder whose encoding of a content is the content, of a length it knows: what is
    left to decode, the bytes kept back and those after the end. *)
Definition stored : Type := Z * bytes * bytes.
Definition stored_decompress (d : stored) (data : bytes) (limit : Z) : res (bytes * stored) :=
  let k := Z.min d.1.1 (Z.min (zlen data) limit) in
  let rest := drop (Z.to_nat k) data in
  Ok (slice 0 k data, if d.1.1 - k =? 0 then (0, [], rest) else (d.1.1 - k, rest, [])).
Definition stored_eof (d : stored) : bool := d.1.1 =? 0.
Definition stored_tail (d : stored) : bytes := d.1.2.
Definition stored_unused (d : stored) : bytes := d.2.

Lemma stored_errors (d : stored) data limit e : stored_decompress d data limit = Err e -> exn_cls e = ZlibError.
Proof. done. Qed.

Lemma stored_consumes (d : stored) data limit chunk d' :
  stored_decompress d data limit = Ok (chunk, d') -> zlen chunk < limit -> stored_tail d' = [].
Proof.
  unfold stored_decompress, stored_tail. intros [= <- <-] Hl. set (k := Z.min d.1.1 _) in *.
  pose proof (zlen_nonneg (slice 0 k data)). pose proof (zlen_nonneg data).
  destruct (Z.eqb_spec (d.1.1 - k) 0); [done|]. simpl. apply drop_ge.
  destruct (Z_lt_le_dec limit (zlen data)); [|unfold zlen in *; lia].
  rewrite zlen_take in Hl by lia. lia.
Qed.

(** A component of one byte and a trailer. *)
Definition hex_fields (l : list Z) : bytes := ascii_bytes (concat (map hex08 l)).
Definition sample_record : record :=
  Record_ (bstr "070701" ++ hex_fields [1; 0x81A4; 0; 0; 1; 0; 1; 0; 0; 0; 0; 2; 0]) (bstr "a" ++ [x00]) (str "a") [x78].
Definition sample_trailer : record :=
  Record_ (bstr "070701" ++ hex_fields [0; 0; 0; 0; 1; 0; 0; 0; 0; 0; 0; 11; 0]) (bstr "TRAILER!!!" ++ [x00]) (str "TRAILER!!!") [].
Definition sample_archive : bytes := archive_of [sample_record] sample_trailer [x00].
Definition sample_required : required_t := [(str "a", (VStr (sha256 [x78]), false))].

Definition stored_check (archive : bytes) (required : required_t) : res unit :=
  verify_boot_components (zlen archive, [], []) stored_decompress stored_eof stored_tail stored_unused archive required.

Lemma sample_accepted : stored_check sample_archive sample_required = Ok tt.
Proof. vm_compute. reflexivity. Qed.

Lemma boot_archive_approved_witness : exists es trailer pad,
  zlen (archive_of es trailer pad) <= MAXIMUM /\ is_trailer trailer /\
  exists e, e ∈ es /\ rec_name e = str "a".
Proof.
  generalize sample_accepted. unfold stored_check. generalize (zlen sample_archive, [] : bytes, [] : bytes) as d.
  generalize sample_archive as archive. intros archive d H.
  destruct (boot_archive_approved d stored_decompress stored_eof stored_tail stored_unused archive sample_required H)
    as (es & trailer & pad & _ & Hm & Ht & _ & _ & _ & Hall).
  exists es, trailer, pad. split; [exact Hm|]. split; [exact Ht|].
  destruct (Hall (str "a") (VStr (sha256 [x78])) false) as (e & He & Hn & _); [reflexivity|]. exists e. split; [exact He|exact Hn].
Defined.

(** On a cut archive the check refuses. *)
Lemma boot_archive_refused_or_accepted_witness :
  match stored_check (slice 0 8 sample_archive) [] with
  | Ok _ => False
  | Err e => is_value_error (exn_cls e) = true
  end.
Proof.
  pose proof (boot_archive_refused_or_accepted (zlen (slice 0 8 sample_archive), [], []) stored_decompress stored_eof stored_tail
    stored_unused stored_errors stored_consumes (slice 0 8 sample_archive) [] ltac:(by vm_compute)) as H.
  unfold stored_check.
  assert (exists e, verify_boot_components (zlen (slice 0 8 sample_archive), [], []) stored_decompress stored_eof stored_tail
    stored_unused (slice 0 8 sample_archive) [] = Err e) as [e He] by (eexists; vm_compute; reflexivity).
  rewrite He in *. exact H.
Defined.
End BootstrapSafe.
