(* ===== verification/BootstrapChain.v ===== *)
(** * The boot chain of an approved manifest *)
From Stdlib Require Import ZArith Lia.
From Stdlib Require Import Init.Byte.
From stdpp Require Import base list sets strings option gmap.
From S2P Require Import Prelude PyStr PyVal Bytes Json Sys FsRules Bootstrap BootstrapSafe.

Open Scope string_scope.
Open Scope list_scope.
Open Scope Z_scope.

Module BootstrapChain.
Import Bootstrap BootstrapSafe.

(** ** Verified files *)

Section system.
Context `{machine} (Hquiet : quiet).

(** A directory that only root or the required user can change. *)
Definition safe_parent (f : fs) (uid : Z) (p : path) : Prop :=
  exists ino n, node_of f p ino n /\ i_kind n = KDir /\
    (st_uid (stat_of ino n) = 0 \/ st_uid (stat_of ino n) = uid) /\ flag (st_mode (stat_of ino n)) 0x12 = false.

(** The text is an absolute path of a regular file of the user's, which nobody else can
    write, with this content; so are the directories above it, unless the check was
    skipped. *)
Record trusted (f : fs) (uid : Z) (skip : bool) (text : pystr) (data : bytes) : Prop := {
  trusted_absolute : pp_root (pure_path text) <> [];
  trusted_file : exists ino n, node_of f (pp_comps (pure_path text)) ino n /\ i_kind n = KFile data /\
    st_uid (stat_of ino n) = uid /\ flag (st_mode (stat_of ino n)) 0x12 = false;
  trusted_parents : skip = false -> forall pre, pre <> [] -> pre `prefix_of` removelast (pp_comps (pure_path text)) -> safe_parent f uid pre }.

Lemma obs_check_parents f uid comps : observes f (mfor_each (check_parent uid) [] comps)
  (fun _ => forall pre, pre <> [] -> pre `prefix_of` comps -> safe_parent f uid pre).
Proof.
  eapply obs_conseq; [apply (obs_for_each f (fun don cur => cur = don /\ forall pre, pre <> [] -> pre `prefix_of` don -> safe_parent f uid pre))|].
  - split; [done|]. intros pre Hne Hp. by apply prefix_nil_inv in Hp.
  - intros don x rest cur _ [-> Hd]. unfold check_parent. eapply obs_bind; [by apply obs_query|]. intros info Hi.
    apply stat_node in Hi as (ino & n & Hn & ->). eapply obs_bind; [apply obs_raise_if|]. intros ? Hk. cbv beta in Hk.
    eapply obs_bind; [apply obs_raise_if|]. intros ? Ho. cbv beta in Ho. bool_prop. apply obs_ret. split; [done|].
    intros pre Hne [k Hk]. destruct k as [|y k _] using rev_ind.
    + rewrite app_nil_r in Hk. subst pre. exists ino, n. split; [done|]. split; [by eapply s_isdir_kind|]. split; [|done].
      apply orb_true_iff in H0 as [E|E]; apply Z.eqb_eq in E; auto.
    + rewrite app_assoc in Hk. apply app_inj_tail in Hk as [-> ->]. apply Hd; [done|by exists k].
  - intros cur [_ Hp]. done.
Qed.

(** The body reads the content that was hashed. *)
Lemma obs_verified_file {A} f file digest uid skip maximum allow (body : Z -> M A) (psi : bytes -> A -> Prop) :
  (forall fd n data, nodes f !! fd = Some n -> i_kind n = KFile data -> observes f (body fd) (psi data)) ->
  observes f (verified_file file digest uid skip maximum allow body) (fun a => exists text data,
    file = VStr text /\ trusted f uid skip text data /\ 0 < zlen data <= maximum /\
    (if allow then True else digest = VStr (sha256 data)) /\ psi data a).
Proof.
  intros Hbody. unfold verified_file. destruct file as [| | | |text| |]; try apply obs_raise.
  eapply obs_bind; [apply obs_raise_if|]. intros ? Habs. cbv beta in Habs.
  eapply (obs_bind f _ (fun _ => skip = false -> forall pre, pre <> [] -> pre `prefix_of` removelast (pp_comps (pure_path text)) -> safe_parent f uid pre)).
  { destruct skip; [by apply obs_ret|]. eapply obs_conseq; [apply obs_check_parents|]. auto. }
  intros ? Hpar. eapply obs_bind; [by apply obs_query|]. intros info Hi. apply stat_node in Hi as (ino & n & Hn & ->).
  eapply obs_bind; [apply obs_raise_if|]. intros ? Hsafe. cbv beta in Hsafe. bool_prop.
  eapply obs_bind; [apply obs_raise_if|]. intros ? Hdig. cbv beta in Hdig.
  destruct (s_isreg_kind ino n) as [data Hdata]; [done|].
  eapply obs_bind; [by apply obs_query|]. intros fd Hfd. cbv beta in Hfd.
  assert (fd = ino) as -> by (eapply open_nofollow; [exact Hn|exact Hfd]).
  assert (nodes f !! ino = Some n) as Hino. { destruct Hn as (loc & _ & Hn). by apply node_at_nodes in Hn as [_ Hn]. }
  apply obs_finally; [|by eapply obs_any, obs_query].
  eapply obs_bind; [by apply obs_query|]. intros opened _. eapply obs_bind; [apply obs_raise_if|]. intros ? _.
  eapply (obs_bind f _ (fun _ => digest = VNone \/ digest = VStr (sha256 data))).
  { destruct digest; try (apply obs_ret; by destruct allow).
    - apply obs_ret. by left.
    - eapply obs_bind; [by apply obs_query|]. intros d Hd. cbv beta in Hd. unfold fs_read in Hd. rewrite Hino, Hdata in Hd.
      injection Hd as <-. eapply obs_bind; [apply obs_raise_if|]. intros ? _. eapply obs_conseq; [apply obs_raise_if|].
      intros ? He. cbv beta in He. bool_prop. str_prop. subst. by right. }
  intros ? Hd. eapply obs_bind; [by apply obs_query|]. intros hashed _. eapply obs_bind; [apply obs_raise_if|]. intros ? _.
  eapply obs_conseq; [apply obs_finally; [by eapply Hbody|]|].
  { eapply obs_bind; [by apply obs_query|]. intros after _. eapply obs_any, obs_raise_if. }
  intros result Ha. cbv beta in Ha. exists text, data. split; [done|]. split; [|split; [|split; [|done]]].
  - split; [by intros E; rewrite E in Habs| |done]. exists ino, n. done.
  - cbn [st_size stat_of] in *. rewrite Hdata in *. done.
  - destruct allow; [done|]. destruct Hd as [->|]; done.
Qed.

Lemma obs_read_fd f fd n data : nodes f !! fd = Some n -> i_kind n = KFile data -> observes f (read_fd fd) (eq data).
Proof.
  intros Hn Hk. eapply obs_conseq; [by apply obs_query|]. intros d Hd. cbv beta in Hd. unfold fs_read in Hd.
  rewrite Hn, Hk in Hd. by injection Hd.
Qed.

(** An entry of the manifest that names a trusted file by its path and its digest. *)
Definition approved (f : fs) (uid : Z) (skip : bool) (value : pyval) (data : bytes) : Prop :=
  exists d text, value = VDict d /\ get d (str "path") = VStr text /\ get d (str "sha256") = VStr (sha256 data) /\
    trusted f uid skip text data.

Definition path_of (value path : pyval) : Prop := getitem value (str "path") = Ok path.

Lemma exact_fields_ok value required optional d : exact_fields value required optional = Ok d ->
  value = VDict d /\ forall k, k ∈ required -> has_key k d = true.
Proof.
  unfold exact_fields. destruct value as [| | | | | |l]; try done. intros Hv. inv_ok. bool_prop. split; [done|].
  rewrite forallb_elem in *. done.
Qed.

Lemma getitem_present d k : has_key k d = true -> getitem (VDict d) k = Ok (get d k).
Proof. intros [v Hv]%has_key_dget. unfold get. simpl. by rewrite Hv. Qed.

Lemma obs_artifact f value uid skip : observes f (artifact value uid skip)
  (fun p => path_of value p /\ exists data, approved f uid skip value data).
Proof.
  unfold artifact. eapply obs_bind; [apply obs_lift|]. intros d Hd. apply exact_fields_ok in Hd as [-> Hk].
  eapply obs_bind; [apply (obs_verified_file f _ _ _ _ _ _ _ (fun _ _ => True)); intros; by apply obs_ret|].
  intros ? (text & data & Hp & Ht & _ & Hdig & _). apply obs_ret.
  split; [apply getitem_present, Hk; left|]. exists data, d, text. done.
Qed.

Lemma approved_intro f uid skip value text data : getitem value (str "path") = Ok (VStr text) ->
  getitem value (str "sha256") = Ok (VStr (sha256 data)) -> trusted f uid skip text data -> approved f uid skip value data.
Proof.
  destruct value as [| | | | | |d]; try done. simpl. intros Hp Hd Ht. exists d, text. unfold get.
  destruct (dget (str "path") d); [|done]. destruct (dget (str "sha256") d); [|done]. by injection Hp as ->; injection Hd as ->.
Qed.

Lemma obs_x86_64_elf f value uid skip : observes f (x86_64_elf value uid skip) (fun _ => True).
Proof.
  unfold x86_64_elf. do 2 (eapply obs_bind; [apply obs_lift|]; intros ? _).
  eapply obs_bind; [|intros ? _; eapply obs_any, obs_raise_if].
  apply (obs_verified_file f _ _ _ _ _ _ _ (fun _ _ => True)). intros fd n data Hn Hk.
  eapply obs_bind; [by eapply obs_read_fd|]. intros ? _. by apply obs_ret.
Qed.

(** The banner is in the approved kernel. *)
Lemma obs_kernel_identity f value release uid skip :
  observes f (kernel_identity value release uid skip) (fun _ => exists kernel, approved f uid skip value kernel /\
    exists offset length, banner_at kernel (zlen kernel) release offset length).
Proof.
  unfold kernel_identity. eapply obs_bind; [apply obs_lift|]. intros file Hfile. cbv beta in Hfile.
  eapply obs_bind; [apply obs_lift|]. intros digest Hdig. cbv beta in Hdig.
  eapply obs_conseq.
  { apply (obs_verified_file f _ _ _ _ _ _ _ (fun kernel _ => exists offset length, banner_at kernel (zlen kernel) release offset length)).
    intros fd n data Hn Hk. eapply obs_bind; [by apply obs_query|]. intros info Hi. cbv beta in Hi. unfold fs_fstat in Hi.
    rewrite Hn in Hi. injection Hi as <-. eapply obs_bind; [by eapply obs_read_fd|]. intros ? <-.
    eapply obs_conseq; [apply obs_lift|]. intros u Hu. cbv beta in Hu. cbn [st_size stat_of] in Hu. rewrite Hk in Hu.
    change (kernel_banner data (zlen data) release = Ok u) in Hu. pose proof (refuses_kernel_banner data (zlen data) release) as Hr. by rewrite Hu in Hr. }
  intros ? (text & kernel & -> & Ht & _ & -> & Hb). exists kernel. split; [by eapply approved_intro|done].
Qed.

(** ** The manifest *)

Context {D : Type}.
Variable decoder_start : D.
Variable decompress : D -> bytes -> Z -> res (bytes * D).
Variables (eof : D -> bool) (unconsumed_tail unused_data : D -> bytes).
Variable modinfo : fs -> string -> pystr -> res pystr.

Abbreviation initramfs_identity := (initramfs_identity decoder_start decompress eof unconsumed_tail unused_data).
Abbreviation validate := (validate decoder_start decompress eof unconsumed_tail unused_data modinfo).

(** The boot archive holds each component once, with the digest and the metadata it is
    approved for. *)
Definition carries (initramfs : bytes) (components : list (string * pyval * bool)) : Prop :=
  exists es trailer pad, decodes decoder_start decompress eof unconsumed_tail unused_data initramfs (archive_of es trailer pad) /\
    NoDup (map rec_name es) /\
    Forall (fun c : string * pyval * bool => let '(name, digest, executable) := c in
      exists e, e ∈ es /\ rec_name e = str name /\ component_ok e digest executable) components.

Lemma obs_initramfs_identity f manifest uid skip : observes f (initramfs_identity manifest uid skip) (fun _ =>
  exists value agent relay module data, getitem manifest (str "initramfs") = Ok value /\
    digest_in manifest ["agent"] = Ok agent /\ digest_in manifest ["relay"] = Ok relay /\
    digest_in manifest ["transport"; "module"] = Ok module /\ approved f uid skip value data /\
    carries data [("mk-agent", agent, true); ("mkvsock-relay", relay, true); ("mk_transport.ko", module, false)]).
Proof.
  unfold Bootstrap.initramfs_identity.
  eapply obs_bind; [apply obs_lift|]. intros agent Ha. eapply obs_bind; [apply obs_lift|]. intros relay Hr.
  eapply obs_bind; [apply obs_lift|]. intros module Hm. cbv zeta. eapply obs_bind; [apply obs_lift|]. intros value Hv.
  eapply obs_bind; [apply obs_lift|]. intros file Hfile. eapply obs_bind; [apply obs_lift|]. intros digest Hd.
  eapply obs_conseq.
  { apply (obs_verified_file f _ _ _ _ _ _ _ (fun data _ =>
      carries data [("mk-agent", agent, true); ("mkvsock-relay", relay, true); ("mk_transport.ko", module, false)])).
    intros fd n data Hn Hk. eapply obs_bind; [by eapply obs_read_fd|]. intros ? <-.
    eapply obs_conseq; [apply obs_lift|]. intros [] Hok. cbv beta in Hok.
    apply boot_archive_checked in Hok as (es & trailer & pad & Hdec & _ & _ & _ & _ & Hnd & Hall).
    exists es, trailer, pad. split; [done|]. split; [done|].
    destruct (Hall (str "mk-agent") agent true) as (e1 & ? & ? & ? & _); [reflexivity|].
    destruct (Hall (str "mkvsock-relay") relay true) as (e2 & ? & ? & ? & _); [reflexivity|].
    destruct (Hall (str "mk_transport.ko") module false) as (e3 & ? & ? & ? & _); [reflexivity|].
    apply Forall_cons_2; [by exists e1|]. apply Forall_cons_2; [by exists e2|]. apply Forall_cons_2; [by exists e3|constructor]. }
  intros ? (text & data & -> & Ht & _ & -> & Hc). exists value, agent, relay, module, data.
  pose proof (approved_intro f uid skip value text data Hfile Hd Ht). done.
Qed.

Lemma obs_kernel_config f kernel release required uid :
  observes f (kernel_config kernel release required uid) (fun name => release = VStr name).
Proof.
  unfold kernel_config. destruct release as [| | | |name| |]; try apply obs_raise.
  eapply obs_bind; [apply obs_raise_if|]. intros ? _. destruct (match required with VList l => strs_of l | _ => None end); [|apply obs_raise].
  eapply obs_bind; [by apply obs_query|]. intros fd _. eapply (obs_bind f _ (fun _ => True)).
  { apply obs_finally; [|eapply obs_any; by apply obs_query].
    eapply obs_bind; [by apply obs_query|]. intros before _. eapply obs_bind; [apply obs_raise_if|]. intros ? _.
    eapply obs_bind; [by apply obs_query|]. intros data _. eapply obs_bind; [by apply obs_query|]. intros after _.
    eapply obs_bind; [apply obs_raise_if|]. intros ? _. by apply obs_ret. }
  intros data _. eapply obs_bind; [apply obs_lift|]. intros text _. eapply obs_bind; [apply obs_lift|]. intros ? _.
  by apply obs_ret.
Qed.

Lemma obs_run_modinfo f field file : observes f (run_modinfo modinfo field file) (fun _ => True).
Proof. eapply obs_any. by apply obs_query. Qed.

Lemma obs_check_modules f release module l : observes f (mfor_each (check_module modinfo release module) tt l) (fun _ => True).
Proof.
  apply (obs_for_each f (fun _ _ => True)); [done|]. intros. unfold check_module.
  do 2 (eapply obs_bind; [apply obs_run_modinfo|]; intros ? _). eapply obs_any, obs_raise_if.
Qed.

Lemma obs_docker_guest_profile f value release uid skip skip_modinfo :
  observes f (docker_guest_profile modinfo value release uid skip skip_modinfo) (fun _ => True).
Proof.
  unfold docker_guest_profile. eapply obs_bind; [apply obs_lift|]. intros d _. eapply obs_bind; [apply obs_raise_if|]. intros ? _.
  eapply obs_bind; [apply obs_lift|]. intros b _. eapply obs_bind.
  { apply (obs_verified_file f _ _ _ _ _ _ _ (fun _ _ => True)). intros fd n data Hn Hk.
    eapply obs_bind; [by eapply obs_read_fd|]. intros ? _. eapply obs_any, obs_raise_if. }
  intros ? _. eapply obs_bind; [apply obs_lift|]. intros modules _. eapply (obs_bind f _ (fun _ => True)).
  { apply (obs_for_each f (fun _ _ => True)); [done|]. intros ? [name selected] ? ? _ _. unfold docker_module.
    eapply obs_bind; [apply obs_artifact|]. intros p _. destruct skip_modinfo; [by apply obs_ret|].
    eapply obs_bind; [apply obs_lift|]. intros file _. do 2 (eapply obs_bind; [apply obs_run_modinfo|]; intros ? _).
    eapply obs_any, obs_raise_if. }
  intros ? _. by apply obs_ret.
Qed.

(** The value under the key reports the path of the entry. *)
Definition reports (result : pyval) (key : string) (entry : pyval) : Prop :=
  exists p, path_of entry p /\ getitem result (str key) = Ok p.

(** The approved boot chain: what a manifest that validates says of the files. *)
Definition boot_chain (f : fs) (a : arguments) (result : pyval) : Prop :=
  let holds := approved f (required_uid a) (skip_parent_safety a) in
  exists text m t release kernel initramfs agent relay module,
    trusted f (required_uid a) (skip_parent_safety a) (manifest_argument a) text /\
    loads_bytes strict_object float_constant text = Ok (VDict m) /\
    getitem result (str "manifest_sha256") = Ok (VStr (sha256 text)) /\
    holds (get m (str "kernel")) kernel /\ reports result "kernel" (get m (str "kernel")) /\
    get m (str "kernel_release") = VStr release /\
    (exists offset length, banner_at kernel (zlen kernel) release offset length) /\
    holds (get m (str "initramfs")) initramfs /\ reports result "initramfs" (get m (str "initramfs")) /\
    holds (get m (str "agent")) agent /\ holds (get m (str "relay")) relay /\
    get m (str "transport") = VDict t /\ holds (get t (str "module")) module /\
    carries initramfs [("mk-agent", VStr (sha256 agent), true); ("mkvsock-relay", VStr (sha256 relay), true);
                       ("mk_transport.ko", VStr (sha256 module), false)].

Lemma digest_in_approved f uid skip m key data digest : approved f uid skip (get m (str key)) data ->
  digest_in (VDict m) [key] = Ok digest -> digest = VStr (sha256 data).
Proof.
  intros (d & text & Hd & Hp & Hs & _). unfold digest_in. simpl. unfold get in *. destruct (dget (str key) m) as [v|]; [|done].
  simpl in Hd. subst v. simpl. destruct (dget (str "sha256") d); [|done]. simpl in Hs. congruence.
Qed.

Lemma obs_validate f a : observes f (validate a) (boot_chain f a).
Proof.
  unfold Bootstrap.validate. cbv zeta. eapply obs_bind.
  { apply (obs_verified_file f _ _ _ _ _ _ _ (fun data bs => bs = data)). intros fd n data Hn Hk.
    eapply obs_bind; [by eapply obs_read_fd|]. intros ? <-. eapply obs_bind; [apply obs_raise_if|]. intros ? _. by apply obs_ret. }
  intros ? (mp & text & [= <-] & Htext & _ & _ & ->). eapply obs_bind; [apply obs_lift|]. intros manifest Hload. cbv beta in Hload.
  eapply obs_bind; [apply obs_lift|]. intros m Hm. unfold manifest_checks in Hm. inv_ok. clear E0 E1 E2 E3 E4.
  apply exact_fields_ok in E as [-> Hkeys].
  assert (forall k, mem (str k) MANIFEST_FIELDS = true -> getitem (VDict m) (str k) = Ok (get m (str k))) as Hget
    by (intros k Hk; by apply getitem_present, Hkeys, mem_elem).
  eapply obs_bind; [apply obs_artifact|]. intros kp [Hkp _]. eapply obs_bind; [apply obs_lift|]. intros kt _.
  eapply obs_bind; [apply obs_kernel_config|]. intros release Hrel.
  eapply obs_bind; [apply obs_kernel_identity|]. intros ? (kernel & Hkernel & Hbanner).
  eapply obs_bind; [apply obs_artifact|]. intros ip [Hip _].
  eapply obs_bind; [apply obs_artifact|]. intros ap [Hap (agent & Hagent)].
  eapply obs_bind; [apply obs_artifact|]. intros rp [Hrp (relay & Hrelay)].
  eapply obs_bind; [apply obs_lift|]. intros t Ht. apply exact_fields_ok in Ht as [Ht Htk].
  eapply obs_bind; [apply obs_raise_if|]. intros ? _.
  eapply obs_bind; [apply obs_artifact|]. intros mpath [_ (module & Hmodule)].
  eapply obs_bind; [apply obs_lift|]. intros extra_values _.
  eapply obs_bind; [apply (obs_mmap f (fun _ _ => True)); intros; eapply obs_any, obs_artifact|]. intros extras _.
  eapply (obs_bind f _ (fun _ => True)).
  { apply (obs_for_each f (fun _ _ => True)); [done|]. intros. apply obs_x86_64_elf. }
  intros ? _. eapply obs_bind; [apply obs_lift|]. intros mt _. eapply obs_bind; [apply obs_lift|]. intros selected _.
  eapply (obs_bind f _ (fun _ => True)). { destruct (skip_modinfo a); [by apply obs_ret|apply obs_check_modules]. }
  intros ? _. eapply obs_bind; [apply obs_initramfs_identity|].
  intros ? (value & da & dr & dm & initramfs & Hv & Ha & Hr & Hmod & Hinit & Hc).
  apply (digest_in_approved _ _ _ _ _ _ _ Hagent) in Ha as ->. apply (digest_in_approved _ _ _ _ _ _ _ Hrelay) in Hr as ->.
  assert (dm = VStr (sha256 module)) as ->.
  { destruct Hmodule as (d & x & Hd & _ & Hs & _). unfold digest_in in Hmod. cbn [for_each] in Hmod.
    rewrite Hget, Ht in Hmod by reflexivity. rewrite (getitem_present t) in Hmod by (apply Htk, mem_elem; reflexivity).
    rewrite Hd in Hmod. simpl in Hmod. unfold get in Hs. destruct (dget (str "sha256") d); [|done]. simpl in Hs. congruence. }
  assert (value = get m (str "initramfs")) as ->.
  { rewrite Hget in Hv by reflexivity. by injection Hv. }
  assert (forall extra, boot_chain f a (VDict (
     [(str "manifest", VStr (as_posix (pure_path (manifest_argument a)))); (str "manifest_sha256", VStr (sha256 text));
     (str "architecture", get m (str "architecture")); (str "kernel_release", get m (str "kernel_release"));
     (str "required_config", get m (str "required_config")); (str "oci_features", get m (str "oci_features"));
     (str "kernel", kp); (str "initramfs", ip); (str "agent", ap); (str "relay", rp); (str "module", mpath)] ++ extra))) as Hchain.
  { intros extra. exists text, m, t, release, kernel, initramfs, agent, relay, module.
    repeat (split; [done|]). split; [by exists kp|]. split; [done|]. split; [done|]. split; [done|]. split; [by exists ip|]. done. }
  destruct (has_key (str "docker_guest") m).
  - eapply obs_bind; [apply obs_docker_guest_profile|]. intros guest _. apply obs_ret, Hchain.
  - apply obs_ret. apply (Hchain []).
Qed.

(** C22. A manifest that validates vouches for the whole boot chain: it is a trusted
    file, its digest is the one reported, and the kernel, the archive, the agent, the
    relay and the transport module are trusted files with the digests it names; the
    kernel carries the release it names, and the archive, decoded to its end, carries
    exactly that agent, relay and module.  Validation changes nothing, whichever system
    call fails. *)
Theorem validated_boot_chain a w :
  match validate a w with
  | (Ok result, w') => w_fs w' = w_fs w /\ boot_chain (w_fs w) a result
  | (Err _, w') => w_fs w' = w_fs w
  end.
Proof. exact (obs_run (w_fs w) _ _ w (obs_validate (w_fs w) a) eq_refl). Qed.
End system.
End BootstrapChain.
