(* ===== verification/BootstrapRun.v ===== *)
(** * A manifest, validated

    The bootstrap validator run on a concrete host: a kernel image of four sections, a
    stored archive of three components, and the manifest that approves them. *)
From Stdlib Require Import ZArith Lia.
From Stdlib Require Import Init.Byte.
From stdpp Require Import base list sets strings option gmap.
From S2P Require Import Prelude PyStr PyVal Bytes Json Sys FsRules Bootstrap BootstrapSafe BootstrapChain.

Open Scope string_scope.
Open Scope list_scope.
Open Scope Z_scope.

Module BootstrapRun.
Import Bootstrap BootstrapSafe BootstrapChain.

(** [n] as [size] bytes, the least significant first. *)
Fixpoint le (size : nat) (n : Z) : bytes := match size with O => [] | S k => z2b (n mod 256) :: le k (n / 256) end.
Definition section_bytes (typ flags offset size link entsize : Z) : bytes :=
  le 4 0 ++ le 4 typ ++ le 8 flags ++ le 8 0 ++ le 8 offset ++ le 8 size ++ le 4 link ++ le 4 0 ++ le 8 0 ++ le 8 entsize.

Definition elf_magic : bytes := [x7f] ++ bstr "ELF" ++ [x02; x01; x01] ++ zeros 9.
Definition banner : bytes := bstr "Linux version 6 x" ++ [x00].
Definition kernel : bytes := Eval vm_compute in
  elf_magic ++ le 2 2 ++ le 2 62 ++ le 4 1 ++ zeros 16 ++ le 8 64 ++ le 4 0 ++ le 2 64 ++ le 2 0 ++ le 2 0 ++ le 2 64 ++ le 2 4 ++ le 2 1
  ++ section_bytes 0 0 0 0 0 0 ++ section_bytes 3 0 320 14 0 0 ++ section_bytes 2 0 334 48 1 24
  ++ section_bytes 1 2 382 (zlen banner) 0 0
  ++ [x00] ++ bstr "linux_banner" ++ [x00]
  ++ zeros 24 ++ le 4 1 ++ [x11; x00] ++ le 2 3 ++ le 8 0 ++ le 8 (zlen banner) ++ banner.
Definition program : bytes := Eval vm_compute in elf_magic ++ zeros 2 ++ le 2 62.
Definition module : bytes := [x6d].

Definition member (name : string) (mode : Z) (data : bytes) : record :=
  Record_ (bstr "070701" ++ hex_fields [1; mode; 0; 0; 1; 0; zlen data; 0; 0; 0; 0; zlen (bstr name) + 1; 0])
    (bstr name ++ [x00]) (str name) data.
Definition initramfs : bytes := Eval vm_compute in
  archive_of [member "mk-agent" 0x81ED program; member "mkvsock-relay" 0x81ED program; member "mk_transport.ko" 0x81A4 module]
    sample_trailer [].

Definition named (file : string) (data : bytes) : pyval := VDict [(str "path", VStr (str file)); (str "sha256", VStr (sha256 data))].
Definition manifest : pyval := VDict
  [(str "schema_version", VInt 1); (str "name", VStr (str "n")); (str "architecture", VStr (str "amd64"));
   (str "kernel_release", VStr (str "6")); (str "compatibility", COMPATIBILITY); (str "kernel", named "/k" kernel);
   (str "initramfs", named "/i" initramfs); (str "agent", named "/a" program); (str "relay", named "/a" program);
   (str "transport", VDict ((str "module", named "/m" module) :: EXPECTED_TRANSPORT));
   (str "protocol", VDict [(str "min", VInt 1); (str "max", VInt 1)]); (str "required_config", VList []);
   (str "oci_features", VList [])].
Definition manifest_bytes : bytes := Eval vm_compute in ascii_bytes (dumps no_floats compact manifest).

Definition host : fs := foldl plant_file empty_fs
  [([str "k"], kernel); ([str "config-6"], [x0a]); ([str "i"], initramfs); ([str "a"], program); ([str "m"], module);
   ([str "f"], manifest_bytes)].
Definition start : world := World host 0.
Definition request : arguments := Arguments (str "/f") (str "n") 0 true false.

Definition run (a : arguments) (w : world) : res pyval * world :=
  @validate (lone_machine superuser []) stored (zlen initramfs, [], []) stored_decompress stored_eof stored_tail stored_unused
    (fun _ _ _ => raise OSError "") a w.
Definition accepted (r : res pyval) : bool := match r with Ok _ => true | Err _ => false end.

Lemma validate_run_ok : accepted (run request start).1 = true.
Proof. vm_cast_no_check (@eq_refl bool true). Qed.

Lemma validated_boot_chain_witness : exists result,
  boot_chain (zlen initramfs, [], []) stored_decompress stored_eof stored_tail stored_unused (w_fs start) request result.
Proof.
  generalize validate_run_ok. unfold run. generalize start as w. generalize (zlen initramfs, [] : bytes, [] : bytes) as d.
  generalize request as a. intros a d w Hok.
  pose proof (@validated_boot_chain (lone_machine superuser []) (lone_quiet _ _) stored d stored_decompress stored_eof stored_tail
    stored_unused (fun _ _ _ => raise OSError "") a w) as Ht.
  destruct (@validate (lone_machine superuser []) stored d stored_decompress stored_eof stored_tail stored_unused
    (fun _ _ _ => raise OSError "") a w) as [[result|e] w']; [|discriminate Hok].
  exists result. exact (proj2 Ht).
Defined.
End BootstrapRun.
