(* ===== verification/DockerRoot.v ===== *)
(** * The Docker guest's root (scripts/validate-runtime-docker-root.py)

    What the approval decides without the file system: the approved root manifest and
    the copied inputs that may be laid over it, the dependencies an ELF helper names,
    the resolution of a path in the approved image, and the identity of a workload.
    [DockerOuter] holds the rest of the program. *)
From Stdlib Require Import ZArith Lia.
From Stdlib Require Import Init.Byte.
From stdpp Require Import base list sets strings option gmap.
From S2P Require Import Prelude PyStr PyVal Bytes Json.

Open Scope string_scope.
Open Scope list_scope.
Open Scope Z_scope.

Module DockerRoot.

Definition LIMIT : Z := 64 * 2 ^ 20.

Definition strict_object (pairs : dict) : res dict := strict_pairs ApprovalError "duplicate metadata field" [] pairs.
Definition load (data : bytes) : res pyval := loads_bytes strict_object float_constant data.

(** ** The approved root and the copied inputs *)

(** The entries of the manifest by path. *)
Definition paths_t : Type := list (pystr * dict).

Definition GUEST_KIND : pystr := str "docker-rootless-offline-v1".
Definition ENTRY_TYPES : list pystr := strs ["directory"; "regular"; "symlink"].

(** [str(PurePosixPath(text)) == text] and no [..] in it *)
Definition canonical (text : pystr) : bool :=
  (as_posix (pure_path text) =s text) && negb (mem (str "..") (pp_comps (pure_path text))).

Definition note_entry (paths : paths_t) (entry : pyval) : res paths_t :=
  match entry with
  | VDict d =>
      match get d (str "path") with
      | VStr path =>
          raise_if (bool_decide (path ∈ map fst paths)) ApprovalError "malformed source entries" ;;
          raise_if (startswith path (str "/") || has_char NUL path || (4096 <? zlen path) || negb (canonical path)
                    || negb (existsb (fun t => get d (str "type") == VStr t) ENTRY_TYPES))
            ApprovalError "noncanonical source entry" ;;
          Ok (paths ++ [(path, d)])
      | _ => raise ApprovalError "malformed source entries"
      end
  | _ => raise ApprovalError "malformed source entries"
  end.

Definition is_none (v : pyval) : bool := match v with VNone => true | _ => false end.
Definition is_symlink (d : dict) : bool := get d (str "type") == VStr (str "symlink").
Definition is_alias (d : dict) : bool := is_symlink d || negb (is_none (get d (str "hardlink"))).

Definition aliases_of (paths : paths_t) : list pystr :=
  sorted_strs (map fst (List.filter (fun e : pystr * dict => is_alias e.2) paths)).

(** [bisect.bisect_left(l, x)] *)
Definition bisect_turn (l : list pystr) (x : pystr) (s : Z * Z) : res (Z * Z + Z) :=
  let '(lo, hi) := s in
  if lo <? hi then
    let mid := (lo + hi) / 2 in
    let! y := pyindex mid l in
    Ok (inl (if negb (str_leb x y) then (mid + 1, hi) else (lo, mid)))
  else Ok (inr lo).
Definition bisect_left (l : list pystr) (x : pystr) : res Z := while (bisect_turn l x) (0, zlen l).

Definition SEEDS : list pystr := strs ["/etc/hosts"; "/etc/hostname"; "/etc/resolv.conf"].

(** An entry of the image at or above the destination. *)
Definition check_prefix (paths : paths_t) (parts : list pystr) (u : unit) (index : nat) : res unit :=
  match alookup (join_with SLASH (take index parts)) paths with
  | Some d => raise_if (is_alias d || ((index <? length parts)%nat && negb (get d (str "type") == VStr (str "directory"))))
                ApprovalError "copied input traverses an image alias"
  | None => Ok tt
  end.

Definition check_below (aliases parts : list pystr) : res unit :=
  let prefix := join_with SLASH parts ++ str "/" in
  let! index := bisect_left aliases prefix in
  let! inside := (if index <? zlen aliases then let! a := pyindex index aliases in Ok (startswith a prefix) else Ok false) in
  raise_if inside ApprovalError "copied-input tree contains an image alias".

Definition check_bind (paths : paths_t) (aliases : list pystr) (u : unit) (item : pyval) : res unit :=
  match item with
  | VDict d =>
      match get d (str "destination") with
      | VStr destination =>
          raise_if (negb (startswith destination (str "/")) || startswith destination (str "//") || has_char NUL destination
                    || (4096 <? zlen destination) || negb (canonical destination))
            ApprovalError "noncanonical copied-input destination" ;;
          let context := (destination =s str "/work") || startswith destination (str "/work/") in
          raise_if (negb context && negb (mem destination SEEDS)) ApprovalError
            "copied input can replace a trusted Docker dependency" ;;
          let parts := pp_comps (pure_path destination) in
          for_each (check_prefix paths parts) tt (seq 1 (length parts)) ;;
          check_below aliases parts
      | _ => raise ApprovalError "noncanonical copied-input destination"
      end
  | _ => raise ApprovalError "noncanonical copied-input destination"
  end.

Definition read_root (root_bytes : bytes) : res paths_t :=
  let! root := load root_bytes in
  match root with
  | VDict r =>
      match get r (str "entries") with
      | VList entries =>
          raise_if (negb (get r (str "schema_version") == VInt 1) || (131072 <? zlen entries)) ApprovalError
            "malformed source manifest" ;;
          for_each note_entry [] entries
      | _ => raise ApprovalError "malformed source manifest"
      end
  | _ => raise ApprovalError "malformed source manifest"
  end.

Definition validate (bootstrap : pyval) (root_bytes : bytes) (plan : pyval) : res dict :=
  let! profile := val_get bootstrap (str "docker_guest") in
  match profile with
  | VDict p =>
      raise_if (negb (get p (str "kind") == VStr GUEST_KIND)) ApprovalError "unsupported Docker approval" ;;
      let digest := sha256 root_bytes in
      raise_if (negb (VStr digest == get p (str "rootfs_manifest_sha256"))) ApprovalError
        "held source root differs from approved image" ;;
      let! paths := read_root root_bytes in
      let aliases := aliases_of paths in
      match plan with
      | VDict pl =>
          match get pl (str "readonly_binds") with
          | VList binds =>
              raise_if (negb (get pl (str "schema_version") == VInt 1) || (256 <? zlen binds)) ApprovalError
                "malformed copied-input plan" ;;
              for_each (check_bind paths aliases) tt binds ;;
              Ok [(str "schema_version", VInt 1); (str "source_bound", VBool true);
                  (str "rootfs_manifest_sha256", VStr digest); (str "copied_input_count", VInt (zlen binds))]
          | _ => raise ApprovalError "malformed copied-input plan"
          end
      | _ => raise ApprovalError "malformed copied-input plan"
      end
  | _ => raise ApprovalError "unsupported Docker approval"
  end.

(** ** ELF helpers *)

Definition HELPERS : list (pystr * Z) :=
  [(str "usr/bin/newuidmap", 0x9ED); (str "usr/bin/newgidmap", 0x9ED); (str "usr/local/bin/rootlesskit", 0x1ED);
   (str "usr/bin/nsenter", 0x1ED); (str "sbin/ip", 0x1ED)].
Definition LIB_DIRS : list pystr := strs
  ["lib"; "usr/local/lib"; "usr/lib"; "lib64"; "usr/lib64"; "lib/x86_64-linux-gnu"; "usr/lib/x86_64-linux-gnu"].
Definition INTERPRETERS : list pystr := strs
  ["lib/ld-musl-x86_64.so.1"; "lib64/ld-linux-x86-64.so.2"; "lib/ld-linux-x86-64.so.2";
   "lib/x86_64-linux-gnu/ld-linux-x86-64.so.2"].

Definition part (data : bytes) (offset size : Z) : res bytes :=
  raise_if ((offset <? 0) || (size <? 0) || (zlen data <? offset) || (zlen data - offset <? size)) ApprovalError
    "helper ELF range exceeds file" ;;
  Ok (slice offset (offset + size) data).

(** [struct.unpack], which wants all of the buffer. *)
Definition unpack_all {A} (data : bytes) (size : Z) (fields : A) : res A :=
  if zlen data =? size then Ok fields else raise StructError "unpack requires a buffer of another size".

Record load_segment := Load { l_address : Z; l_length : Z; l_offset : Z }.
Record program := Program { loads_of : list load_segment; dynamic : option bytes; interpreter : option pystr }.

Definition is_some {A} (o : option A) : bool := match o with Some _ => true | None => false end.
Definition has_nul (b : bytes) : bool := existsb (fun x => byte_eqb x x00) b.

(** One program header. *)
Definition segment (data : bytes) (phoff : Z) (p : program) (i : Z) : res program :=
  let! raw := part data (phoff + i * 56) 56 in
  let! (tag, offset, address, filesz, memsz) :=
    unpack_all raw 56 (u32 0 raw, u64 8 raw, u64 16 raw, u64 32 raw, u64 40 raw) in
  let! _ := part data offset filesz in
  if tag =? 1 then
    raise_if (memsz <? filesz) ApprovalError "helper ELF load size refused" ;;
    Ok (Program (loads_of p ++ [Load address filesz offset]) (dynamic p) (interpreter p))
  else if tag =? 2 then
    raise_if (is_some (dynamic p) || (128 * 2 ^ 10 <? filesz) || negb (filesz mod 16 =? 0)) ApprovalError
      "helper ELF dynamic table refused" ;;
    let! d := part data offset filesz in
    Ok (Program (loads_of p) (Some d) (interpreter p))
  else if tag =? 3 then
    let! text := part data offset filesz in
    raise_if (is_some (interpreter p) || negb ((2 <=? zlen text) && (zlen text <=? 4096)) || negb (endswith text [x00])
              || has_nul (removelast text))
      ApprovalError "helper ELF interpreter refused" ;;
    match ascii_decode (removelast text) with
    | Ok name =>
        raise_if (negb (mem (drop 1 name) INTERPRETERS) || negb (startswith name (str "/"))) ApprovalError
          "helper ELF interpreter is outside fixed loader policy" ;;
        Ok (Program (loads_of p) (dynamic p) (Some name))
    | Err e => if bool_decide (exn_cls e = UnicodeError) then raise ApprovalError "helper ELF interpreter refused" else Err e
    end
  else Ok p.

(** The dynamic table: once the terminator is met the rest is skipped. *)
Record table := Table { ended : bool; needed : list Z; strings : option Z; size : option Z }.

Definition SEARCH_TAGS : list Z := [15; 29; 0x6ffffefa; 0x6ffffefb; 0x6ffffefc; 0x7ffffffd; 0x7fffffff].

Definition dynamic_entry (d : bytes) (t : table) (i : Z) : res table :=
  if ended t then Ok t
  else
    let raw := slice i (i + 16) d in
    let! (tag, value) := unpack_all raw 16 (i64 0 raw, u64 8 raw) in
    if tag =? 0 then Ok (Table true (needed t) (strings t) (size t))
    else
      raise_if (bool_decide (tag ∈ SEARCH_TAGS)) ApprovalError "helper ELF custom loader search path refused" ;;
      let needed' := if tag =? 1 then needed t ++ [value] else needed t in
      raise_if ((tag =? 1) && (128 <? zlen needed')) ApprovalError "helper ELF dependency limit exceeded" ;;
      raise_if ((tag =? 5) && is_some (strings t)) ApprovalError "helper ELF string table is ambiguous" ;;
      raise_if ((tag =? 10) && is_some (size t)) ApprovalError "helper ELF string size is ambiguous" ;;
      Ok (Table false needed' (if tag =? 5 then Some value else strings t) (if tag =? 10 then Some value else size t)).

Definition dynamic_table (d : option bytes) : res table :=
  match d with
  | None => Ok (Table false [] None None)
  | Some d =>
      let! t := for_each (dynamic_entry d) (Table false [] None None) (zrange_step 0 (zlen d) 16) in
      raise_if (negb (ended t)) ApprovalError "helper ELF dynamic terminator missing" ;;
      Ok t
  end.

(** [table.find(b"\0", offset)] *)
Fixpoint find_nul (i : Z) (l : bytes) : Z :=
  match l with [] => -1 | b :: t => if byte_eqb b x00 then i else find_nul (i + 1) t end.
Definition find_from (l : bytes) (offset : Z) : Z := find_nul offset (drop (Z.to_nat offset) l).

Definition LIBRARY : re := Rep (Cls (fun c => is_alnum c || one_of "_.+-" c)) 1 255.

Definition dependency_name (names : bytes) (offset : Z) : res pystr :=
  raise_if (zlen names <=? offset) ApprovalError "helper ELF dependency name exceeds table" ;;
  let finish := find_from names offset in
  raise_if ((finish <? 0) || (255 <? finish - offset)) ApprovalError "helper ELF dependency name is unterminated" ;;
  match ascii_decode (slice offset finish names) with
  | Ok name =>
      raise_if (negb (fullmatch LIBRARY name) || mem name (strs ["."; ".."])) ApprovalError
        "helper ELF dependency name refused" ;;
      Ok name
  | Err e => if bool_decide (exn_cls e = UnicodeError) then raise ApprovalError "helper ELF dependency name refused" else Err e
  end.

Definition dependency_names (data : bytes) (segments : list load_segment) (t : table) : res (list pystr) :=
  match needed t with
  | [] => Ok []
  | _ =>
      match strings t, size t with
      | Some address, Some length =>
          raise_if (negb ((0 <? length) && (length <=? 2 ^ 20))) ApprovalError "helper ELF dependency strings missing" ;;
          let! tables := map_res (fun s => part data (l_offset s + address - l_address s) length)
            (List.filter (fun s => (l_address s <=? address) && (address - l_address s + length <=? l_length s)) segments) in
          match tables with
          | [names] => map_res (dependency_name names) (needed t)
          | _ => raise ApprovalError "helper ELF dependency mapping is ambiguous"
          end
      | _, _ => raise ApprovalError "helper ELF dependency strings missing"
      end
  end.

Definition elf_dependencies (data : bytes) : res (option pystr * list pystr) :=
  raise_if ((zlen data <? 64) || negb (bytes_eqb (slice 0 7 data) ([x7f] ++ bstr "ELF" ++ [x02; x01; x01]))) ApprovalError
    "helper is not Linux x86-64 ELF" ;;
  let! header := part data 16 48 in
  let! (kind, machine, version) := unpack_all header 48 (u16 0 header, u16 2 header, u32 4 header) in
  let phoff := u64 16 header in
  let phnum := u16 40 header in
  raise_if (negb ((kind =? 2) || (kind =? 3)) || negb (machine =? 62) || negb (version =? 1) || negb (u16 36 header =? 64)
            || negb (u16 38 header =? 56) || negb ((1 <=? phnum) && (phnum <=? 128)))
    ApprovalError "unsupported helper ELF headers" ;;
  let! p := for_each (segment data phoff) (Program [] None None) (zrange phnum) in
  raise_if (bool_decide (length (loads_of p) = 0%nat)) ApprovalError "helper ELF has no load segment" ;;
  let! t := dynamic_table (dynamic p) in
  let! names := dependency_names data (loads_of p) t in
  Ok (interpreter p, names).

(** ** Paths in the approved image *)

Record walking := Walking { todo : list pystr; walked : list pystr; links : Z }.

Definition resolve_turn (paths : paths_t) (s : walking) : res (walking + list pystr) :=
  match todo s with
  | [] => Ok (inr (walked s))
  | component :: rest =>
      if mem component (strs [""; "."]) then Ok (inl (Walking rest (walked s) (links s)))
      else if component =s str ".." then
        match walked s with
        | [] => raise ApprovalError "helper alias escapes image root"
        | _ => Ok (inl (Walking rest (removelast (walked s)) (links s)))
        end
      else
        match alookup (join_with SLASH (walked s ++ [component])) paths with
        | None => raise ApprovalError "required helper dependency is absent"
        | Some entry =>
            let! type := getitem (VDict entry) (str "type") in
            if type == VStr (str "symlink") then
              let links' := links s + 1 in
              raise_if (32 <? links') ApprovalError "helper alias depth exceeded" ;;
              match get entry (str "target") with
              | VStr target =>
                  raise_if ((target =s []) || has_char NUL target || (4096 <? zlen target)) ApprovalError
                    "helper alias target refused" ;;
                  Ok (inl (Walking (split_on SLASH target ++ rest) (if startswith target (str "/") then [] else walked s) links'))
              | _ => raise ApprovalError "helper alias target refused"
              end
            else
              raise_if (negb (bool_decide (rest = [])) && negb (type == VStr (str "directory"))) ApprovalError
                "helper path traverses non-directory" ;;
              Ok (inl (Walking rest (walked s ++ [component]) (links s)))
        end
  end.

Definition resolve_image_path (paths : paths_t) (requested : pystr) : res pystr :=
  let! parts := while (resolve_turn paths) (Walking (split_on SLASH requested) [] 0) in
  let final := join_with SLASH parts in
  raise_if (final =s []) ApprovalError "helper dependency is not regular" ;;
  match alookup final paths with
  | None => raise KeyError ""
  | Some entry =>
      let! type := getitem (VDict entry) (str "type") in
      raise_if (negb (type == VStr (str "regular"))) ApprovalError "helper dependency is not regular" ;;
      Ok final
  end.

(** ** The workload *)

Definition CAPABILITY_SETS : list pystr := strs ["bounding"; "effective"; "permitted"; "inheritable"; "ambient"].

Definition id_differs (v : pyval) : bool := negb (type_is_int v) || negb (v == VInt 1000).
Definition empty_list (v : pyval) : bool := match v with VList [] => true | _ => false end.

Definition validate_workload (config : pyval) : res unit :=
  let process := match config with VDict c => get c (str "process") | _ => VNone end in
  match process with
  | VDict p =>
      match get p (str "user") with
      | VDict user =>
          let! bad :=
            or_else (Ok (negb (type_is_int (get user (str "uid")))))
            (or_else (Ok (negb (type_is_int (get user (str "gid")))))
            (or_else (let! uid := getitem (VDict user) (str "uid") in Ok (negb (uid == VInt 1000)))
            (let! gid := getitem (VDict user) (str "gid") in Ok (negb (gid == VInt 1000))))) in
          raise_if bad ApprovalError "Docker guest workloads require UID and GID 1000" ;;
          match get_or user (str "additionalGids") (VList []) with
          | VList groups => raise_if (existsb id_differs groups) ApprovalError
              "Docker guest supplementary group is outside fixed identity"
          | _ => raise ApprovalError "Docker guest supplementary group is outside fixed identity"
          end ;;
          match get p (str "capabilities") with
          | VNone => Ok tt
          | VDict c => raise_if (negb (keys_within c CAPABILITY_SETS) || negb (forallb (fun kv => empty_list kv.2) c)) ApprovalError
              "Docker guest workloads may not request capability grants"
          | _ => raise ApprovalError "Docker guest workloads may not request capability grants"
          end ;;
          let! bad := and_then (Ok (has_key (str "noNewPrivileges") p))
            (let! value := getitem (VDict p) (str "noNewPrivileges") in
             Ok (match value with VBool true => false | _ => true end)) in
          raise_if bad ApprovalError "Docker guest workloads require no-new-privileges"
      | _ => raise ApprovalError "Docker guest workloads require UID and GID 1000"
      end
  | _ => raise ApprovalError "Docker guest workloads require UID and GID 1000"
  end.
End DockerRoot.
