(* ===== verification/DockerRootSafe.v ===== *)
(** * What the Docker approval guarantees *)
From Stdlib Require Import ZArith Lia Sorting.Sorted.
From Stdlib Require Import Init.Byte.
From stdpp Require Import base list sets strings option gmap.
From S2P Require Import Prelude PyStr PyVal Bytes Json DockerRoot.

Open Scope string_scope.
Open Scope list_scope.
Open Scope Z_scope.

Module DockerRootSafe.
Import DockerRoot.

(** ** Searching a sorted list *)

Abbreviation ordered := (StronglySorted (fun a b : pystr => str_leb a b = true)).

Lemma ordered_lookup l i j x y : ordered l -> l !! i = Some x -> l !! j = Some y -> (i <= j)%nat -> str_leb x y = true.
Proof.
  intros Hl. revert i j; induction Hl as [|z l Hl IH Hz]; intros i j; [done|].
  destruct i as [|i], j as [|j]; simpl; intros Hx Hy Hij; try lia.
  - injection Hx as ->. injection Hy as ->. clear. induction y as [|c y IH]; simpl; [done|]. by rewrite Z.eqb_refl.
  - injection Hx as ->. rewrite list.Forall_forall in Hz. apply Hz. by eapply list_elem_of_lookup_2.
  - eapply IH; [done..|lia].
Qed.

Lemma nth_error_is_lookup {A} (l : list A) i : nth_error l i = l !! i.
Proof. revert i; induction l as [|x l IH]; intros [|i]; simpl; auto. Qed.

Lemma pyindex_lookup {A} (l : list A) i x : 0 <= i -> pyindex i l = Ok x -> l !! Z.to_nat i = Some x.
Proof.
  intros Hi. unfold pyindex. destruct (Z.ltb_spec i 0); [lia|]. destruct (Z.ltb_spec i 0); [lia|].
  rewrite nth_error_is_lookup. destruct (l !! Z.to_nat i); [congruence|done].
Qed.

(** The index splits the list: smaller elements before it, the others from it on. *)
Definition splits (l : list pystr) (x : pystr) (i : Z) : Prop :=
  0 <= i <= zlen l /\ forall (j : nat) y, l !! j = Some y -> (Z.of_nat j < i <-> str_leb x y = false).

Lemma bisect_left_splits ok l x : ordered l -> zlen l < 2 ^ 63 -> refuses_as ok (bisect_left l x) (splits l x).
Proof.
  intros Hl Hn. pose proof (zlen_nonneg l). unfold bisect_left.
  apply (refuses_while _ (fun s : Z * Z => 0 <= s.1 <= s.2 /\ s.2 <= zlen l /\ forall (j : nat) y, l !! j = Some y ->
    (Z.of_nat j < s.1 -> str_leb x y = false) /\ (s.2 <= Z.of_nat j -> str_leb x y = true)) _ (fun s => s.2 - s.1));
    [|simpl; split; [lia|]; split; [lia|]; intros j y Hy; split; [lia|]; apply lookup_lt_Some in Hy; unfold zlen; lia|simpl; lia].
  intros [lo hi] (Hlo & Hhi & Hinv). unfold bisect_turn. simpl in *. destruct (Z.ltb_spec lo hi) as [Hlt|Hge].
  - assert (lo <= (lo + hi) / 2 < hi) as Hmid by (split; [apply Z.div_le_lower_bound|apply Z.div_lt_upper_bound]; lia).
    assert (refuses_as ok (pyindex ((lo + hi) / 2) l) (fun y => l !! Z.to_nat ((lo + hi) / 2) = Some y)) as Hp.
    { pose proof (refuses_pyindex (ok := fun _ => false) ((lo + hi) / 2) l ltac:(lia)) as Hr.
      destruct (pyindex _ l) as [y|e] eqn:Hy; [|done]. apply pyindex_lookup; [lia|done]. }
    eapply refuses_bind; [exact Hp|]. intros y Hy. cbv beta in Hy. apply refuses_ok.
    destruct (str_leb x y) eqn:Hxy; cbn [negb fst snd]; (split; [|lia]); (split; [lia|]); (split; [lia|]); intros j z Hz;
      specialize (Hinv j z Hz); (split; [|]); intros Hj; try (apply Hinv; lia).
    + pose proof (ordered_lookup l _ j y z Hl Hy Hz ltac:(lia)). by eapply str_leb_trans.
    + destruct (str_leb x z) eqn:Hxz; [|done].
      pose proof (ordered_lookup l j _ z y Hl Hz Hy ltac:(lia)). by rewrite (str_leb_trans x z y) in Hxy.
  - apply refuses_ok. split; [lia|]. intros j y Hy. specialize (Hinv j y Hy). destruct Hinv as [H1 H2]. split; [done|].
    intros Hf. destruct (Z_lt_le_dec (Z.of_nat j) lo); [done|]. rewrite H2 in Hf; [done|lia].
Qed.

(** Between a prefix and a string that has it lie only strings that have it. *)
Lemma leb_prefix p s : p `prefix_of` s -> str_leb p s = true.
Proof. intros [t ->]. induction p as [|c p IH]; simpl; [done|]. by rewrite Z.eqb_refl. Qed.

Lemma between_prefix p s t : str_leb p s = true -> str_leb s t = true -> p `prefix_of` t -> p `prefix_of` s.
Proof.
  revert s t; induction p as [|c p IH]; intros s t Hps Hst Hpt; [by eexists|].
  destruct Hpt as [r ->]. destruct s as [|d s]; [done|]. simpl in Hps, Hst.
  destruct (Z.eqb_spec c d) as [->|Hne].
  - rewrite Z.eqb_refl in Hst. destruct (IH s (p ++ r)) as [q ->]; [done..|by eexists|]. by exists q.
  - destruct (Z.eqb_spec d c); [lia|]. lia.
Qed.

(** ** The approved image *)

Definition entry_ok (e : pystr * dict) : Prop :=
  startswith e.1 (str "/") = false /\ canonical e.1 = true /\ zlen e.1 <= 4096 /\
  exists t, t ∈ ENTRY_TYPES /\ get e.2 (str "type") = VStr t.

Definition image_ok (paths : paths_t) : Prop := NoDup (map fst paths) /\ Forall entry_ok paths.

Lemma note_entry_ok paths entry paths' : note_entry paths entry = Ok paths' -> image_ok paths ->
  image_ok paths' /\ zlen paths' = zlen paths + 1.
Proof.
  unfold note_entry. destruct entry as [| | | | | |d]; try done. destruct (get d (str "path")) as [| | | |path| |] eqn:Hp; try done.
  intros Hn [Hd Hf]. inv_ok. bool_prop. rewrite zlen_app. split; [|done]. split.
  - rewrite map_app. apply NoDup_app. split; [done|]. split; [|apply NoDup_singleton].
    intros y Hy ->%list_elem_of_singleton. done.
  - apply Forall_app. split; [done|]. constructor; [|constructor]. split; [done|]. split; [done|]. split; [done|].
    apply existsb_exists in H0 as (t & Ht & He). exists t. split; [by apply list_elem_of_In|]. cbn [snd].
    by apply py_eq_str in He.
Qed.

Lemma read_root_ok root paths : read_root root = Ok paths -> image_ok paths /\ zlen paths <= 131072.
Proof.
  unfold read_root. intros Hr. inv_ok. destruct a as [| | | | | |r]; try done.
  destruct (get r (str "entries")) as [| | | | |entries|]; try done. inv_ok. bool_prop.
  assert (image_ok paths /\ zlen paths = zlen entries) as [? ->]; [|done].
  apply (for_each_inv _ (fun don ps => image_ok ps /\ zlen ps = zlen don) _ _ _ Hr).
  - split; [|done]. split; constructor.
  - intros pre x t s1 s2 _ [H1 Hl] H2. apply note_entry_ok in H2 as [H2 ->]; [|done]. split; [done|]. rewrite zlen_app, Hl. done.
Qed.

(** A canonical relative path is its components, or the root. *)
Lemma canonical_join path : startswith path (str "/") = false -> canonical path = true ->
  pp_comps (pure_path path) = [] \/ path = join_with SLASH (pp_comps (pure_path path)).
Proof.
  intros Hs Hc. unfold canonical in Hc. bool_prop. str_prop.
  assert (splitroot path = ([], path)) as Hr.
  { destruct path as [|c path]; [done|]. simpl. destruct (Z.eqb_spec c SLASH) as [->|]; [|done].
    destruct Hs. by exists path. }
  unfold pure_path in *. rewrite Hr in *. simpl in *. destruct (List.filter _ _) as [|c l] eqn:E; [by left|right].
  unfold as_posix in H. cbn [pp_root pp_comps app] in H. destruct (join_with SLASH (c :: l)) eqn:Hj; [|done].
  destruct l; simpl in Hj; [|by destruct c]. subst c. assert (In [] (List.filter real_component (split_on SLASH path))) as Hin
    by (rewrite E; by left). by apply filter_In in Hin as [_ Hin].
Qed.

(** Two paths of which neither is the other or above it. *)
Definition apart (a b : list pystr) : Prop := ~ a `prefix_of` b /\ ~ b `prefix_of` a.

(** ** Copied inputs *)

Lemma check_prefixes paths parts q d : for_each (check_prefix paths parts) tt (seq 1 (length parts)) = Ok tt ->
  q <> [] -> q `prefix_of` parts -> alookup (join_with SLASH q) paths = Some d ->
  is_alias d = false /\ (q <> parts -> get d (str "type") = VStr (str "directory")).
Proof.
  intros Hc Hq [r Hr] Ha. pose proof (for_each_check _ _ (length q) Hc) as Hx.
  assert (length q ∈ seq 1 (length parts)) as Hin.
  { apply elem_of_seq. rewrite Hr, length_app. destruct q; [done|]. simpl. lia. }
  specialize (Hx Hin). unfold check_prefix in Hx. rewrite Hr, take_app_length in Hx at 1. rewrite Ha in Hx. inv_ok. bool_prop.
  split; [done|]. intros Hne. apply andb_false_iff in H0 as [H0|H0].
  - apply Nat.ltb_ge in H0. rewrite Hr, length_app in H0. destruct r; [|simpl in H0; lia]. by rewrite app_nil_r in Hr.
  - bool_prop. by apply py_eq_str in H0.
Qed.

Lemma elem_insert_by {A} leb (x y : A) l : y ∈ insert_by leb x l <-> y = x \/ y ∈ l.
Proof. induction l as [|z l IH]; simpl; [set_solver|]. destruct (leb x z); set_solver. Qed.

Lemma elem_sorted_strs x l : x ∈ sorted_strs l <-> x ∈ l.
Proof.
  unfold sorted_strs, sort_by. induction l as [|y l IH]; simpl; [done|]. rewrite elem_insert_by, IH, elem_of_cons. done.
Qed.

Lemma length_sorted_strs l : length (sorted_strs l) = length l.
Proof.
  unfold sorted_strs, sort_by. induction l as [|y l IH]; simpl; [done|]. rewrite <-IH.
  generalize (foldr (insert_by str_leb) [] l) as m. induction m as [|z m IHm]; simpl; [done|]. destruct (str_leb y z); simpl; lia.
Qed.

Lemma no_alias_below aliases parts a : ordered aliases -> zlen aliases < 2 ^ 63 -> check_below aliases parts = Ok tt ->
  a ∈ aliases -> ~ (join_with SLASH parts ++ str "/") `prefix_of` a.
Proof.
  intros Ho Hn Hc Ha Hp. unfold check_below in Hc. set (prefix := _ ++ str "/") in *.
  pose proof (bisect_left_splits (fun _ => true) aliases prefix Ho Hn) as Hs.
  destruct (bisect_left aliases prefix) as [i|] eqn:Hb; [|done]. destruct Hs as [Hi Hs]. inv_ok.
  apply list_elem_of_lookup in Ha as [j Hj]. pose proof (Hs j a Hj) as Hja.
  assert (i <= Z.of_nat j) as Hij.
  { destruct (Z_lt_le_dec (Z.of_nat j) i); [|done]. apply Hja in l. by rewrite leb_prefix in l. }
  pose proof (lookup_lt_Some _ _ _ Hj). destruct (Z.ltb_spec i (zlen aliases)); [|unfold zlen in *; lia].
  destruct (pyindex i aliases) as [b|] eqn:Hpi; [|done]. apply pyindex_lookup in Hpi; [|lia]. injection E as E. rewrite Hc in E.
  apply bool_decide_eq_false in E. apply E. apply (between_prefix _ _ a); [|eapply ordered_lookup; [done..|lia]|done].
  specialize (Hs _ _ Hpi). destruct (str_leb prefix b); [done|]. assert (Z.of_nat (Z.to_nat i) < i) by by apply Hs. lia.
Qed.

(** What an admitted input may touch: its destination is canonical and either in the
    work tree or one of the three seeds, no alias of the image (a symbolic link or a
    second name of a file) is at, above or below it, and what the image has above it
    are directories. *)
Definition input_safe (paths : paths_t) (item : pyval) : Prop :=
  exists d destination, item = VDict d /\ get d (str "destination") = VStr destination /\
    let parts := pp_comps (pure_path destination) in
    startswith destination (str "/") = true /\ startswith destination (str "//") = false /\ canonical destination = true /\
    (destination = str "/work" \/ str "/work/" `prefix_of` destination \/ destination ∈ SEEDS) /\
    (forall path e, (path, e) ∈ paths -> is_alias e = true -> pp_comps (pure_path path) <> [] ->
       apart (pp_comps (pure_path path)) parts) /\
    (forall path e, (path, e) ∈ paths -> pp_comps (pure_path path) <> [] -> pp_comps (pure_path path) `prefix_of` parts ->
       pp_comps (pure_path path) <> parts -> get e (str "type") = VStr (str "directory")).

Lemma destination_parts destination : canonical destination = true -> startswith destination (str "/") = true ->
  destination = str "/work" \/ str "/work/" `prefix_of` destination \/ destination ∈ SEEDS ->
  pp_comps (pure_path destination) <> [].
Proof.
  intros Hc Hs Hd Hn. unfold canonical in Hc. bool_prop. str_prop.
  assert (as_posix (pure_path destination) = str "/" \/ as_posix (pure_path destination) = str "//") as Hp.
  { unfold as_posix. rewrite Hn. simpl. pose proof (splitroot_slash destination Hs) as Hr. unfold pure_path.
    destruct (splitroot destination) as [root rel]. simpl in *. destruct Hr as [-> | ->]; auto. }
  rewrite H in Hp. destruct Hd as [->|[[r ->]|Hd]]; [by destruct Hp..|].
  destruct Hp as [-> | ->]; by apply (mem_elem _ SEEDS) in Hd.
Qed.

Lemma check_bind_safe paths item : image_ok paths -> zlen paths <= 131072 -> check_bind paths (aliases_of paths) tt item = Ok tt ->
  input_safe paths item.
Proof.
  intros [Hnd Hok] Hlen Hc. unfold check_bind in Hc. destruct item as [| | | | | |d]; try done.
  destruct (get d (str "destination")) as [| | | |destination| |] eqn:Hd; try done. inv_ok. bool_prop. destruct a1.
  set (parts := pp_comps (pure_path destination)) in *.
  assert (destination = str "/work" \/ str "/work/" `prefix_of` destination \/ destination ∈ SEEDS) as Hwhere.
  { apply andb_false_iff in E0 as [E0|E0]; apply negb_false_iff in E0.
    - apply orb_true_iff in E0 as [E0|E0]; apply bool_decide_eq_true in E0; auto.
    - apply mem_elem in E0. auto. }
  assert (parts <> []) as Hparts by by apply destination_parts.
  exists d, destination. split; [done|]. split; [done|]. cbv zeta. fold parts.
  split; [done|]. split; [done|]. split; [done|]. split; [done|].
  assert (forall path e, (path, e) ∈ paths -> pp_comps (pure_path path) <> [] ->
    path = join_with SLASH (pp_comps (pure_path path)) /\ alookup path paths = Some e) as Hentry.
  { intros path e Hin Hne. rewrite list.Forall_forall in Hok. destruct (Hok _ Hin) as (Hs & Hcan & _).
    destruct (canonical_join path Hs Hcan); [done|]. split; [done|]. by apply alookup_nodup. }
  split.
  - intros path e Hin Halias Hne. destruct (Hentry path e Hin Hne) as [Hj Ha]. split; intros Hpre.
    + rewrite Hj in Ha. destruct (check_prefixes _ _ _ _ E1 Hne Hpre Ha) as [Hf _]. congruence.
    + destruct (extends_startswith parts (pp_comps (pure_path path)) [] Hparts Hpre) as [Heq|Hext]; simpl in *.
      * rewrite Hj, Heq in Ha. destruct (check_prefixes _ _ parts e E1 Hparts) as [Hf _]; [by exists []; rewrite app_nil_r|done|congruence].
      * rewrite <-Hj in Hext. revert Hext. apply (no_alias_below (aliases_of paths) parts path); try done.
        -- apply sorted_strs_sorted.
        -- unfold zlen, aliases_of. rewrite length_sorted_strs, length_map. pose proof (List.filter_length_le (fun e : pystr * dict => is_alias e.2) paths).
           unfold zlen in Hlen. lia.
        -- apply elem_sorted_strs, list_elem_of_fmap. exists (path, e). split; [done|]. apply list_elem_of_In, filter_In.
           split; [by apply list_elem_of_In|done].
  - intros path e Hin Hne Hpre Hneq. destruct (Hentry path e Hin Hne) as [Hj Ha]. rewrite Hj in Ha.
    by apply (check_prefixes _ _ _ _ E1 Hne Hpre Ha).
Qed.

(** C23. When the approval is given, the digest of the root's manifest is the approved
    one, and every copied input of the plan is safe in the image it describes: the
    binary search over the aliases misses none of them. *)
Theorem copied_inputs_safe bootstrap root_bytes plan result : validate bootstrap root_bytes plan = Ok result ->
  exists b p pl paths binds, bootstrap = VDict b /\ get b (str "docker_guest") = VDict p /\
    get p (str "rootfs_manifest_sha256") = VStr (sha256 root_bytes) /\
    read_root root_bytes = Ok paths /\ image_ok paths /\
    plan = VDict pl /\ get pl (str "readonly_binds") = VList binds /\ zlen binds <= 256 /\
    Forall (input_safe paths) binds.
Proof.
  unfold validate. intros Hv. inv_ok. destruct bootstrap as [| | | | | |b]; try done. injection E as Hb.
  destruct a as [| | | | | |p]; try done. inv_ok. bool_prop. rename a1 into paths.
  destruct plan as [| | | | | |pl]; try done. destruct (get pl (str "readonly_binds")) as [| | | | |binds|] eqn:Hbinds; try done.
  inv_ok. bool_prop. destruct (read_root_ok _ _ E1) as [Himg Hlen]. exists b, p, pl, paths, binds. destruct a2.
  split; [done|]. split; [done|]. split.
  { by apply str_py_eq. }
  repeat (split; [done|]). apply list.Forall_forall. intros item Hitem. apply check_bind_safe; [done..|].
  by eapply for_each_check.
Qed.

(** ** ELF helpers *)

Definition approval (c : exn_class) : bool := bool_decide (c = ApprovalError).
Abbreviation approves := (refuses_as approval).

Lemma approves_raise_if b m : approves (raise_if b ApprovalError m) (fun _ => b = false).
Proof. by destruct b. Qed.

(** [small] is a part of [whole]. *)
Definition inside (small whole : bytes) : Prop := exists pre post, whole = pre ++ small ++ post.

Lemma inside_slice {A} i j (l : list A) : exists pre post, l = pre ++ slice i j l ++ post.
Proof.
  exists (take (Z.to_nat i) l), (drop (Z.to_nat (j - i)) (drop (Z.to_nat i) l)). unfold slice. by rewrite !take_drop.
Qed.

Lemma inside_trans a b c : inside a b -> inside b c -> inside a c.
Proof. intros (p & q & ->) (r & s & ->). exists (r ++ p), (q ++ s). by rewrite <-!app_assoc. Qed.

Lemma approves_part data offset size : approves (part data offset size)
  (fun c => 0 <= size /\ zlen c = size /\ inside c data).
Proof.
  unfold part. eapply refuses_bind_unit; [apply approves_raise_if|]. intros Hr. bool_prop. apply refuses_ok.
  split; [lia|]. split; [rewrite slice_length; lia|]. apply inside_slice.
Qed.

Lemma approves_unpack_all {A} data size (fields : A) : zlen data = size -> approves (unpack_all data size fields) (eq fields).
Proof. intros <-. unfold unpack_all. by rewrite Z.eqb_refl. Qed.

Definition loader_ok (i : option pystr) : Prop := forall t, i = Some t -> exists n, n ∈ INTERPRETERS /\ t = str "/" ++ n.

Definition program_ok (p : program) : Prop :=
  loader_ok (interpreter p) /\ forall d, dynamic p = Some d -> zlen d mod 16 = 0.

Lemma approves_segment data phoff p i : program_ok p -> approves (segment data phoff p i) program_ok.
Proof.
  intros [Hi Hd]. unfold segment. eapply refuses_bind; [apply approves_part|]. intros raw (_ & Hraw & _).
  eapply refuses_bind; [by apply approves_unpack_all|]. intros [[[[tag offset] address] filesz] memsz] _.
  eapply refuses_bind; [apply approves_part|]. intros ? _. destruct (tag =? 1).
  { eapply refuses_bind_unit; [apply approves_raise_if|]. done. }
  destruct (tag =? 2).
  { eapply refuses_bind_unit; [apply approves_raise_if|]. intros Hf. bool_prop. eapply refuses_bind; [apply approves_part|].
    intros d (_ & Hl & _). apply refuses_ok. split; [done|]. simpl. intros ? [= <-]. by rewrite Hl. }
  destruct (tag =? 3); [|done]. eapply refuses_bind; [apply approves_part|]. intros text _.
  eapply refuses_bind_unit; [apply approves_raise_if|]. intros _. unfold ascii_decode.
  destruct (forallb _ _); [|done]. eapply refuses_bind_unit; [apply approves_raise_if|]. intros Hn. bool_prop.
  apply refuses_ok. split; [|done]. simpl. intros t [= <-]. apply startswith_exists in H0 as [r Hr]. rewrite Hr in H. apply mem_elem in H.
  exists r. rewrite Hr. done.
Qed.

(** The tag of an entry of the dynamic table. *)
Definition tag_at (d : bytes) (k : Z) : Z := i64 0 (slice (16 * k) (16 * k + 16) d).

(** The loader searches its default directories only: before the terminator no entry
    changes the search. *)
Definition default_search (d : bytes) : Prop :=
  exists k, 0 <= k /\ tag_at d k = 0 /\ forall j, 0 <= j < k -> tag_at d j ∉ SEARCH_TAGS.

(** After [n] entries of the table. *)
Definition needed_ok (t : table) : Prop := zlen (needed t) <= 128 /\ Forall (Z.le 0) (needed t).
Definition table_inv (d : bytes) (n : Z) (t : table) : Prop :=
  needed_ok t /\
  if ended t then default_search d else forall j, 0 <= j < n -> tag_at d j ∉ SEARCH_TAGS.

Lemma approves_dynamic_entry d t n : 0 <= n -> 16 * n + 16 <= zlen d -> table_inv d n t ->
  approves (dynamic_entry d t (16 * n)) (table_inv d (n + 1)).
Proof.
  intros Hn Hd [Hl Ht]. unfold dynamic_entry. destruct (ended t) eqn:He.
  { apply refuses_ok. split; [done|]. by rewrite He. }
  eapply refuses_bind; [apply approves_unpack_all; rewrite slice_length; lia|]. intros [tag value] [= <- <-].
  destruct (Z.eqb_spec (i64 0 (slice (16 * n) (16 * n + 16) d)) 0) as [H0|H0].
  { apply refuses_ok. split; [done|]. simpl. exists n. done. }
  eapply refuses_bind_unit; [apply approves_raise_if|]. intros Hs. apply bool_decide_eq_false in Hs.
  eapply refuses_bind_unit; [apply approves_raise_if|]. intros Hneed.
  do 2 (eapply refuses_bind_unit; [apply approves_raise_if|]; intros _).
  apply refuses_ok. split.
  - destruct Hl as [Hl Hp]. unfold needed_ok. simpl. destruct (i64 0 _ =? 1); [|done]. simpl in Hneed. bool_prop. split; [done|].
    apply Forall_app. split; [done|]. constructor; [apply le_field_nonneg|constructor].
  - simpl. intros j Hj. destruct (Z.eq_dec j n) as [->|]; [done|apply Ht; lia].
Qed.

Lemma approves_for_range {S} (f : S -> Z -> res S) (I : Z -> S -> Prop) (len : nat) s :
  I 0 s -> (forall n s, 0 <= n < Z.of_nat len -> I n s -> approves (f s (16 * n)) (I (n + 1))) ->
  approves (for_each f s (map (fun i => 0 + 16 * i) (zrange (Z.of_nat len)))) (I (Z.of_nat len)).
Proof.
  intros H0 Hf. unfold zrange. rewrite Nat2Z.id. induction len as [|len IH]; [done|].
  rewrite seq_S, !map_app, for_each_app. simpl map. rewrite Z.add_0_l.
  eapply refuses_bind; [apply IH; intros; apply Hf; [lia|done]|]. intros s' Hs'. cbv beta in Hs'. cbn [for_each].
  eapply refuses_bind; [apply Hf; [lia|done]|]. intros s2 H2. apply refuses_ok. replace (Z.of_nat (Datatypes.S len)) with (Z.of_nat len + 1) by lia. done.
Qed.

Lemma approves_dynamic_table o : (forall d, o = Some d -> zlen d mod 16 = 0) ->
  approves (dynamic_table o) (fun t => needed_ok t /\ forall d, o = Some d -> default_search d).
Proof.
  intros Ho. destruct o as [d|]; [|apply refuses_ok; split; [done|by intros]].
  specialize (Ho d eq_refl). unfold dynamic_table, zrange_step.
  pose proof (zlen_nonneg d). pose proof (Z.div_mod (zlen d) 16 ltac:(lia)) as Hdiv.
  assert ((zlen d - 0 + 16 - 1) / 16 = zlen d / 16) as ->.
  { rewrite Hdiv, Ho at 1. rewrite Z.add_0_r. replace (16 * (zlen d / 16) - 0 + 16 - 1) with (15 + (zlen d / 16) * 16) by lia.
    rewrite Z.div_add by lia. reflexivity. }
  pose proof (Z.div_pos (zlen d) 16 ltac:(lia) ltac:(lia)).
  rewrite <-(Z2Nat.id (zlen d / 16)) by lia. eapply refuses_bind.
  { apply (approves_for_range (dynamic_entry d) (table_inv d)).
    - split; [done|]. simpl. lia.
    - intros n t Hn Ht. apply approves_dynamic_entry; [lia|lia|done]. }
  intros t [Hl Ht]. eapply refuses_bind_unit; [apply approves_raise_if|]. intros He. bool_prop. apply refuses_ok.
  split; [done|]. intros ? [= <-]. by rewrite He in Ht.
Qed.

(** A library's name: it names no directory, and it is in the file, terminated. *)
Definition library_ok (data : bytes) (name : pystr) : Prop :=
  fullmatch LIBRARY name = true /\ name <> str "." /\ name <> str ".." /\ SLASH ∉ name /\ inside (ascii_bytes name ++ [x00]) data.

Lemma library_no_slash name : fullmatch LIBRARY name = true -> SLASH ∉ name.
Proof.
  intros Hm Hs. eapply (fullmatch_chars (fun c => c <> SLASH)) in Hm.
  - rewrite list.Forall_forall in Hm. by apply (Hm SLASH).
  - simpl. intros c Hc ->. by vm_compute in Hc.
Qed.

Lemma find_nul_spec i l : find_nul i l = -1 \/ exists pre post, l = pre ++ [x00] ++ post /\ find_nul i l = i + zlen pre.
Proof.
  revert i; induction l as [|b l IH]; intros i; simpl; [by left|]. unfold byte_eqb. case_bool_decide as Hb.
  - right. exists [], l. subst b. split; [done|]. unfold zlen. simpl. lia.
  - destruct (IH (i + 1)) as [->|(pre & post & -> & ->)]; [by left|right]. exists (b :: pre), post. split; [done|].
    unfold zlen. simpl. lia.
Qed.

Lemma ascii_round l name : ascii_decode l = Ok name -> ascii_bytes name = l.
Proof.
  unfold ascii_decode. destruct (forallb _ l); [|done]. intros [= <-]. unfold ascii_bytes. rewrite map_map.
  rewrite <-(map_id l) at 2. apply map_ext. intros b. by destruct b.
Qed.

Lemma approves_dependency_name data names offset : 0 <= offset -> inside names data ->
  approves (dependency_name names offset) (library_ok data).
Proof.
  intros Ho Hin. unfold dependency_name. eapply refuses_bind_unit; [apply approves_raise_if|]. intros Hlt. bool_prop.
  cbv zeta. eapply refuses_bind_unit; [apply approves_raise_if|]. intros Hf. bool_prop.
  unfold find_from in *. destruct (find_nul_spec offset (drop (Z.to_nat offset) names)) as [Hm|(pre & post & Hd & Hfin)]; [lia|].
  assert (slice offset (offset + zlen pre) names = pre) as Hsl.
  { unfold slice. rewrite Hd. replace (Z.to_nat (offset + zlen pre - offset)) with (length pre) by (unfold zlen; lia). by rewrite take_app_length. }
  rewrite Hfin, Hsl in *. destruct (ascii_decode pre) as [name|e] eqn:Ha.
  - eapply refuses_bind_unit; [apply approves_raise_if|]. intros Hn. bool_prop. apply mem_not_elem in H2. apply refuses_ok.
    split; [done|]. split; [set_solver|]. split; [set_solver|]. split; [by apply library_no_slash|].
    apply ascii_round in Ha as ->. eapply inside_trans; [|exact Hin]. exists (take (Z.to_nat offset) names), post.
    rewrite <-(take_drop (Z.to_nat offset) names) at 1. rewrite Hd. by rewrite <-app_assoc.
  - unfold ascii_decode in Ha. destruct (forallb _ pre); [done|]. by injection Ha as <-.
Qed.

Lemma approves_dependency_names data segments t : needed_ok t ->
  approves (dependency_names data segments t) (fun names => zlen names <= 128 /\ Forall (library_ok data) names).
Proof.
  intros [Hl Hn]. unfold dependency_names. destruct (needed t) as [|n0 ns] eqn:Hneed; [by apply refuses_ok|].
  destruct (strings t) as [address|]; [|done]. destruct (size t) as [len|]; [|done].
  eapply refuses_bind_unit; [apply approves_raise_if|]. intros _. eapply refuses_bind.
  { apply (refuses_map_res _ (fun _ c => inside c data)). intros sg _. eapply refuses_conseq; [apply approves_part|]. naive_solver. }
  intros tables Ht. destruct tables as [|names [|]]; [done| |done].
  assert (inside names data) as Hin. { inversion Ht; subst. done. }
  eapply refuses_conseq; [apply (refuses_map_res _ (fun _ => library_ok data))|].
  - intros o Ho. rewrite list.Forall_forall in Hn. apply approves_dependency_name; [by apply Hn|done].
  - intros l Hf. split; [|by eapply Forall2_Forall_r, Forall_true].
    unfold zlen in *. apply Forall2_length in Hf. lia.
Qed.

(** The program headers of the file. *)
Definition program_headers (data : bytes) : res program :=
  let! header := part data 16 48 in
  for_each (segment data (u64 16 header)) (Program [] None None) (zrange (u16 40 header)).

Lemma approves_elf_dependencies data : approves (elf_dependencies data) (fun r =>
  loader_ok r.1 /\ zlen r.2 <= 128 /\ Forall (library_ok data) r.2 /\
  exists p, program_headers data = Ok p /\ forall d, dynamic p = Some d -> default_search d).
Proof.
  unfold elf_dependencies. eapply refuses_bind_unit; [apply approves_raise_if|]. intros _.
  destruct (part data 16 48) as [header|e] eqn:Hpart; [|pose proof (approves_part data 16 48) as Hp; by rewrite Hpart in Hp].
  assert (zlen header = 48) as Hh by (pose proof (approves_part data 16 48) as Hp; rewrite Hpart in Hp; apply Hp).
  eapply refuses_bind; [by apply approves_unpack_all|]. intros [[kind mach] version] _. cbv zeta.
  eapply refuses_bind_unit; [apply approves_raise_if|]. intros _.
  assert (approves (for_each (segment data (u64 16 header)) (Program [] None None) (zrange (u16 40 header))) program_ok) as Hf
    by (apply refuses_for_each; [done|]; intros; by apply approves_segment).
  destruct (for_each (segment data (u64 16 header)) _ _) as [p|e] eqn:Hp; [|done]. destruct Hf as [Hload Hdyn].
  eapply refuses_bind_unit; [apply approves_raise_if|]. intros _.
  eapply refuses_bind; [by apply approves_dynamic_table|]. intros t [Hneed Hsearch].
  eapply refuses_bind; [by apply approves_dependency_names|]. intros names [Hn Hl]. apply refuses_ok.
  split; [done|]. split; [done|]. split; [done|]. exists p. split; [|done]. unfold program_headers. by rewrite Hpart.
Qed.

(** C24. The dependencies of a helper on any bytes: the reader ends, raising nothing
    but [ApprovalError], however the tables overlap or lie about their sizes.  When it
    accepts, the interpreter, if any, is one of the four fixed loaders, no entry of the
    dynamic table changes where the loader searches, and there are at most 128 library
    names, each a plain file name that stands terminated in the file. *)
Theorem elf_dependencies_sound data :
  match elf_dependencies data with
  | Ok (i, names) => loader_ok i /\ zlen names <= 128 /\ Forall (library_ok data) names /\
      exists p, program_headers data = Ok p /\ forall d, dynamic p = Some d -> default_search d
  | Err e => exn_cls e = ApprovalError
  end.
Proof.
  pose proof (approves_elf_dependencies data) as H.
  destruct (elf_dependencies data) as [[i names]|e]; [exact H|]. by apply bool_decide_eq_true in H.
Qed.

(** ** Paths in the image *)

(** Following a path in the image, from a directory: a symbolic link leads on through
    its target, [..] leads up, anything else one step down. *)
Inductive follows (paths : paths_t) : list pystr -> list pystr -> list pystr -> Prop :=
  | follows_end pre : follows paths pre [] pre
  | follows_skip pre c rest final : c = [] \/ c = str "." -> follows paths pre rest final -> follows paths pre (c :: rest) final
  | follows_up pre c rest final : follows paths pre rest final -> follows paths (pre ++ [c]) (str ".." :: rest) final
  | follows_down pre c rest d final : good_component c -> alookup (join_with SLASH (pre ++ [c])) paths = Some d ->
      is_symlink d = false -> follows paths (pre ++ [c]) rest final -> follows paths pre (c :: rest) final
  | follows_link pre c rest d target final : good_component c -> alookup (join_with SLASH (pre ++ [c])) paths = Some d ->
      is_symlink d = true -> get d (str "target") = VStr target ->
      follows paths (if startswith target (str "/") then [] else pre) (split_on SLASH target ++ rest) final ->
      follows paths pre (c :: rest) final.

Definition type_of (d : dict) : pyval := get d (str "type").

(** Everything walked through is a directory of the image; the last step may be a file. *)
Definition walked_ok (paths : paths_t) (todo walked : list pystr) : Prop :=
  Forall good_component walked /\
  forall q, q <> [] -> q `prefix_of` walked -> exists d, alookup (join_with SLASH q) paths = Some d /\
    (type_of d = VStr (str "directory") \/ q = walked /\ todo = []).

Definition walking_inv (paths : paths_t) (requested : pystr) (s : walking) : Prop :=
  walked_ok paths (todo s) (walked s) /\ Forall (fun c => SLASH ∉ c) (todo s) /\ 0 <= links s <= 32 /\
  forall final, follows paths (walked s) (todo s) final -> follows paths [] (split_on SLASH requested) final.

Definition remaining (s : walking) : Z := zlen (todo s) + (32 - links s) * 4098.

Lemma split_length c s : (length (split_on c s) <= S (length s))%nat.
Proof.
  induction s as [|x s IH]; simpl; [done|]. destruct (x =? c); simpl; [lia|]. destruct (split_on c s); simpl in *; lia.
Qed.

Lemma image_type paths name d : image_ok paths -> alookup name paths = Some d ->
  getitem (VDict d) (str "type") = Ok (type_of d).
Proof.
  intros [_ Hf] Ha%alookup_elem. rewrite list.Forall_forall in Hf. destruct (Hf _ Ha) as (_ & _ & _ & t & _ & Ht).
  simpl in Ht. unfold type_of, get in *. simpl. by destruct (dget (str "type") d).
Qed.

Lemma walked_up paths todo pre c rest : todo <> [] -> walked_ok paths todo (pre ++ [c]) -> walked_ok paths rest pre.
Proof.
  intros Ht [Hg Hw]. apply Forall_app in Hg as [Hg _]. split; [done|]. intros q Hq Hp.
  destruct (Hw q Hq ltac:(by apply prefix_app_r)) as (d & Ha & [Hd|[-> _]]).
  - exists d. auto.
  - exfalso. apply prefix_length in Hp. rewrite length_app in Hp. simpl in Hp. lia.
Qed.

Lemma walked_down paths c rest pre d : walked_ok paths (c :: rest) pre -> good_component c ->
  alookup (join_with SLASH (pre ++ [c])) paths = Some d -> rest = [] \/ type_of d = VStr (str "directory") ->
  walked_ok paths rest (pre ++ [c]).
Proof.
  intros [Hg Hw] Hc Ha Hd. split; [apply Forall_app; auto|]. intros q Hq [k Hk]. destruct k as [|y k _] using rev_ind.
  - rewrite app_nil_r in Hk. subst q. exists d. split; [done|]. destruct Hd; auto.
  - rewrite app_assoc in Hk. apply app_inj_tail in Hk as [-> ->]. destruct (Hw q Hq ltac:(by exists k)) as (d' & Ha' & [Hd'|[_ ?]]); [eauto|done].
Qed.

Lemma approves_resolve_turn paths requested s : image_ok paths -> walking_inv paths requested s ->
  approves (resolve_turn paths s) (fun o => match o with
    | inl s' => walking_inv paths requested s' /\ 0 <= remaining s' < remaining s
    | inr final => walked_ok paths [] final /\ follows paths [] (split_on SLASH requested) final
    end).
Proof.
  intros Himg (Hw & Hs & Hl & Hf). unfold resolve_turn, walking_inv, remaining. destruct s as [todo pre links]. cbn [DockerRoot.todo walked DockerRoot.links] in *.
  destruct todo as [|c rest]. { apply refuses_ok. split; [done|]. apply Hf. constructor. }
  apply Forall_cons_iff in Hs as [Hc Hs]. pose proof (zlen_nonneg rest). rewrite zlen_cons.
  destruct (mem c (strs [""; "."])) eqn:Hskip.
  { apply mem_elem in Hskip. apply refuses_ok; cbn [DockerRoot.todo walked DockerRoot.links]. split; [|lia]. split; [|split; [done|split; [done|]]].
    - destruct Hw as [Hg Hw]. split; [done|]. intros q Hq Hp. destruct (Hw q Hq Hp) as (d & Ha & [Hd|[_ ?]]); [eauto|done].
    - intros final Hfin. apply Hf, follows_skip; [|done]. set_solver. }
  apply mem_not_elem in Hskip. destruct (c =s str "..") eqn:Hup.
  { apply bool_decide_eq_true in Hup as ->. destruct pre as [|x pre _] using rev_ind; [done|].
    destruct (pre ++ [x]) eqn:Hpre; [by destruct pre|]. rewrite <-Hpre in *. rewrite removelast_last. apply refuses_ok; cbn [DockerRoot.todo walked DockerRoot.links]. split; [|lia].
    split; [eapply walked_up; [|exact Hw]; done|]. split; [done|]. split; [done|]. intros final Hfin. by apply Hf, follows_up. }
  apply bool_decide_eq_false in Hup. assert (good_component c) as Hgood by (repeat split; [set_solver..|done|done]).
  destruct (alookup _ paths) as [d|] eqn:Ha; [|done]. rewrite (image_type _ _ _ Himg Ha).
  destruct (type_of d == VStr (str "symlink")) eqn:Hlink.
  - eapply refuses_bind_unit; [apply approves_raise_if|]. intros Hmax. bool_prop.
    destruct (get d (str "target")) as [| | | |target| |] eqn:Ht; try done.
    eapply refuses_bind_unit; [apply approves_raise_if|]. intros Hlen. bool_prop. apply refuses_ok; cbn [DockerRoot.todo walked DockerRoot.links]. split.
    + split; [|split; [|split; [lia|]]].
      * destruct (startswith target (str "/")); [split; [constructor|]; intros q Hq Hp; by apply prefix_nil_inv in Hp|].
        destruct Hw as [Hg Hw]. split; [done|]. intros q Hq Hp. destruct (Hw q Hq Hp) as (d' & Ha' & [Hd|[_ ?]]); [eauto|done].
      * apply Forall_app. split; [apply split_on_sep_free|done].
      * intros final Hfin. apply Hf. by eapply follows_link.
    + pose proof (split_length SLASH target). rewrite zlen_app. unfold zlen in *. lia.
  - eapply refuses_bind_unit; [apply approves_raise_if|]. intros Hdir. apply refuses_ok; cbn [DockerRoot.todo walked DockerRoot.links]. split; [|lia].
    split; [|split; [done|split; [done|]]].
    + eapply walked_down; [done..|]. apply andb_false_iff in Hdir as [Hdir|Hdir]; bool_prop; [by left|right]. by apply py_eq_str.
    + intros final Hfin. apply Hf. by eapply follows_down.
Qed.

Lemma approves_resolve paths requested : image_ok paths -> zlen requested < 2 ^ 63 ->
  approves (resolve_image_path paths requested) (fun final => exists comps, final = join_with SLASH comps /\ comps <> [] /\
    follows paths [] (split_on SLASH requested) comps /\ Forall good_component comps /\
    (exists d, alookup final paths = Some d /\ type_of d = VStr (str "regular")) /\
    forall q, q <> [] -> q `prefix_of` comps -> q <> comps ->
      exists d, alookup (join_with SLASH q) paths = Some d /\ type_of d = VStr (str "directory")).
Proof.
  intros Himg Hreq. unfold resolve_image_path. eapply refuses_bind.
  { apply (refuses_while _ (walking_inv paths requested) (fun final => walked_ok paths [] final /\ follows paths [] (split_on SLASH requested) final) remaining).
    - intros s Hs. by apply approves_resolve_turn.
    - split; [split; [constructor|]; intros q Hq Hp; by apply prefix_nil_inv in Hp|]. split; [apply split_on_sep_free|]. split; [simpl; lia|done].
    - unfold remaining. cbn [todo links]. pose proof (split_length SLASH requested). unfold zlen in *. lia. }
  intros comps [[Hg Hw] Hf]. cbv zeta. eapply refuses_bind_unit; [apply approves_raise_if|]. intros Hne.
  assert (comps <> []) as Hc by by intros ->. destruct (Hw comps Hc ltac:(by exists []; rewrite app_nil_r)) as (d & Ha & _).
  rewrite Ha, (image_type _ _ _ Himg Ha). eapply refuses_bind_unit; [apply approves_raise_if|]. intros Hr. bool_prop.
  apply refuses_ok. exists comps. split; [done|]. split; [done|]. split; [done|]. split; [done|]. split.
  - exists d. split; [done|]. by apply py_eq_str.
  - intros q Hq Hp Hqc. destruct (Hw q Hq Hp) as (d' & Ha' & [Hd|[? _]]); [eauto|done].
Qed.

(** C25. In an image whose entries were admitted, resolving a path ends, raising
    nothing but [ApprovalError], whatever links the image holds; a result is the
    regular file that following the links leads to, inside the image, with every
    directory above it in the image: opening it component by component without
    following links opens that file. *)
Theorem resolve_image_path_follows paths requested : image_ok paths -> zlen requested < 2 ^ 63 ->
  match resolve_image_path paths requested with
  | Ok final => exists comps, final = join_with SLASH comps /\ comps <> [] /\
      follows paths [] (split_on SLASH requested) comps /\ Forall good_component comps /\
      (exists d, alookup final paths = Some d /\ type_of d = VStr (str "regular")) /\
      forall q, q <> [] -> q `prefix_of` comps -> q <> comps ->
        exists d, alookup (join_with SLASH q) paths = Some d /\ type_of d = VStr (str "directory")
  | Err e => exn_cls e = ApprovalError
  end.
Proof.
  intros Himg Hreq. pose proof (approves_resolve paths requested Himg Hreq) as H.
  destruct (resolve_image_path paths requested); [exact H|]. by apply bool_decide_eq_true in H.
Qed.

(** ** The workload *)

Lemma id_is v : id_differs v = false <-> v = VInt 1000.
Proof.
  split; [|by intros ->]. unfold id_differs. intros H. bool_prop.
  apply py_eq_int in H0 as [->|[(b & -> & _)|(m & e & -> & _)]]; done.
Qed.

(** What the code admits: user and group 1000 and no other group; no capability in any
    of the five sets; and, where the process says whether it may gain privileges, that
    it may not. *)
Definition confined (config : pyval) : Prop :=
  exists c p user, config = VDict c /\ get c (str "process") = VDict p /\ get p (str "user") = VDict user /\
    get user (str "uid") = VInt 1000 /\ get user (str "gid") = VInt 1000 /\
    (exists groups, get_or user (str "additionalGids") (VList []) = VList groups /\ Forall (eq (VInt 1000)) groups) /\
    (get p (str "capabilities") = VNone \/ exists caps, get p (str "capabilities") = VDict caps /\
       Forall (fun kv => kv.1 ∈ CAPABILITY_SETS /\ kv.2 = VList []) caps) /\
    (has_key (str "noNewPrivileges") p = true -> get p (str "noNewPrivileges") = VBool true).

(** The identity check, with its subscripts behind the checks of the types. *)
Lemma identity_check user :
  or_else (Ok (negb (type_is_int (get user (str "uid")))))
    (or_else (Ok (negb (type_is_int (get user (str "gid")))))
    (or_else (let! uid := getitem (VDict user) (str "uid") in Ok (negb (uid == VInt 1000)%py))
    (let! gid := getitem (VDict user) (str "gid") in Ok (negb (gid == VInt 1000)%py)))) =
  Ok (id_differs (get user (str "uid")) || id_differs (get user (str "gid"))).
Proof.
  unfold id_differs. set (uid := get user (str "uid")). set (gid := get user (str "gid")).
  destruct (type_is_int uid) eqn:Hu; [|done]. destruct (type_is_int gid) eqn:Hg; [|simpl; by rewrite orb_true_r].
  rewrite (getitem_get user (str "uid") uid), (getitem_get user (str "gid") gid) by (done || by intros He; rewrite He in *).
  simpl. by destruct (uid == VInt 1000)%py.
Qed.

Lemma privileges_check p :
  and_then (Ok (has_key (str "noNewPrivileges") p))
    (let! value := getitem (VDict p) (str "noNewPrivileges") in Ok (match value with VBool true => false | _ => true end)) =
  Ok (has_key (str "noNewPrivileges") p && match get p (str "noNewPrivileges") with VBool true => false | _ => true end).
Proof.
  unfold and_then, getitem, get. destruct (has_key (str "noNewPrivileges") p) eqn:Hk; [|done].
  apply has_key_dget in Hk as [v Hv]. by rewrite Hv.
Qed.

Lemma groups_check (groups : list pyval) : existsb id_differs groups = false <-> Forall (eq (VInt 1000)) groups.
Proof.
  rewrite existsb_false_iff, list.Forall_forall. split; intros Hg g Hin; [symmetry; by apply id_is, Hg|].
  apply id_is. symmetry. by apply Hg.
Qed.

Lemma capabilities_check (caps : dict) :
  negb (keys_within caps CAPABILITY_SETS) || negb (forallb (fun kv => empty_list kv.2) caps) = false <->
  Forall (fun kv => kv.1 ∈ CAPABILITY_SETS /\ kv.2 = VList []) caps.
Proof.
  rewrite orb_false_iff, !negb_false_iff, keys_within_spec, forallb_elem, list.Forall_forall. unfold keys. split.
  - intros [Hk He] [k v] Hin. specialize (He _ Hin). split; [apply Hk, list_elem_of_fmap; by exists (k, v)|].
    simpl in *. by destruct v as [| | | | |[]|].
  - intros Hc. split; [intros k (kv & -> & Hin)%list_elem_of_fmap; by apply Hc|].
    intros kv Hin. destruct (Hc kv Hin) as [_ ->]. done.
Qed.

(** A configuration of another shape. *)
Ltac refused :=
  split; [split; [done|intros (? & ? & ? & Hc' & Hp' & Hu' & _); congruence]|by intros e [= <-]].

(** C26. A workload is admitted exactly when it runs as user and group 1000, with no
    other group, no capability in any of the five sets, and no request to leave
    [noNewPrivileges] unset: the field may be absent, and where it is present it must
    be true ([confined]).  Any other configuration, of whatever shape, is refused with
    [ApprovalError]. *)
Theorem workload_confined config :
  (validate_workload config = Ok tt <-> confined config) /\
  (forall e, validate_workload config = Err e -> exn_cls e = ApprovalError).
Proof.
  unfold validate_workload, confined.
  destruct config as [| | | | | |c]; try refused.
  destruct (get c (str "process")) as [| | | | | |p] eqn:Hp; try refused.
  destruct (get p (str "user")) as [| | | | | |user] eqn:Hu; try refused.
  rewrite identity_check, privileges_check. split.
  - split.
    + intros H. inv_ok. bool_prop. exists c, p, user. repeat (split; [done|]). split; [by apply id_is|]. split; [by apply id_is|].
      split; [|split].
      * destruct (get_or user _ _) as [| | | | |groups|]; try done. inv_ok. exists groups. split; [done|]. by apply groups_check.
      * destruct (get p (str "capabilities")) as [| | | | | |caps]; try done; [by left|right]. inv_ok.
        exists caps. split; [done|]. by apply capabilities_check.
      * intros Hk. rewrite Hk in H. simpl in H. by destruct (get p (str "noNewPrivileges")) as [|[]| | | | |].
    + intros (c' & p' & user' & [= <-] & Hp' & Hu' & Huid & Hgid & (groups & Hgr & Hgs) & Hcap & Hn).
      rewrite Hp in Hp'. injection Hp' as <-. rewrite Hu in Hu'. injection Hu' as <-.
      apply id_is in Huid, Hgid. rewrite Huid, Hgid, Hgr. apply groups_check in Hgs as ->. simpl.
      assert (has_key (str "noNewPrivileges") p && match get p (str "noNewPrivileges") with VBool true => false | _ => true end = false) as ->.
      { destruct (has_key _ p); [|done]. by rewrite Hn. }
      destruct Hcap as [->|(caps & -> & Hcap)]; [done|]. apply capabilities_check in Hcap as ->. done.
  - intros e. destruct (id_differs _ || id_differs _); [by intros [= <-]|]. simpl.
    destruct (get_or user _ _) as [| | | | |groups|]; try by intros [= <-].
    destruct (existsb id_differs groups); [by intros [= <-]|]. simpl.
    destruct (get p (str "capabilities")) as [| | | | | |caps]; try by intros [= <-].
    + destruct (_ && _); [by intros [= <-]|done].
    + destruct (_ || _); [by intros [= <-]|]. simpl. destruct (_ && _); [by intros [= <-]|done].
Qed.

(** ** Examples *)

Definition sample_entry (path type : string) (more : dict) : pyval :=
  VDict ((str "path", VStr (str path)) :: (str "type", VStr (str type)) :: more).
Definition sample_root : pyval := VDict
  [(str "schema_version", VInt 1);
   (str "entries", VList [sample_entry "etc" "directory" []; sample_entry "bin" "symlink" [(str "target", VStr (str "usr/bin"))];
      sample_entry "usr" "directory" []; sample_entry "usr/bin" "directory" []; sample_entry "usr/bin/sh" "regular" []])].
Definition sample_root_bytes : bytes := Eval vm_compute in ascii_bytes (dumps no_floats compact sample_root).
Definition sample_bootstrap : pyval := VDict [(str "docker_guest", VDict
  [(str "kind", VStr GUEST_KIND); (str "rootfs_manifest_sha256", VStr (sha256 sample_root_bytes))])].
Definition sample_plan : pyval := VDict
  [(str "schema_version", VInt 1);
   (str "readonly_binds", VList [VDict [(str "destination", VStr (str "/work/src"))]; VDict [(str "destination", VStr (str "/etc/hosts"))]])].
Definition sample_paths : paths_t := match read_root sample_root_bytes with Ok p => p | Err _ => [] end.

Definition approved {A} (r : res A) : bool := match r with Ok _ => true | Err _ => false end.

Lemma sample_approved : approved (validate sample_bootstrap sample_root_bytes sample_plan) = true.
Proof. vm_cast_no_check (@eq_refl bool true). Qed.

Lemma copied_inputs_safe_witness : exists paths, read_root sample_root_bytes = Ok paths /\
  Forall (input_safe paths) [VDict [(str "destination", VStr (str "/work/src"))]; VDict [(str "destination", VStr (str "/etc/hosts"))]].
Proof.
  generalize sample_approved. generalize sample_bootstrap, sample_root_bytes. intros b r.
  destruct (validate b r sample_plan) as [result|e] eqn:Hv; [intros _|discriminate].
  destruct (copied_inputs_safe b r sample_plan result Hv) as (? & ? & pl & paths & binds & _ & _ & _ & Hr & _ & Hp & Hb & _ & Hf).
  exists paths. split; [exact Hr|]. injection Hp as <-. injection Hb as <-. exact Hf.
Defined.

(** Through the link [bin]. *)
Lemma sample_resolved : resolve_image_path sample_paths (str "bin/sh") = Ok (str "usr/bin/sh").
Proof. vm_compute. reflexivity. Qed.

Lemma sample_root_read : read_root sample_root_bytes = Ok sample_paths.
Proof. vm_compute. reflexivity. Qed.

Lemma resolve_image_path_follows_witness : exists comps,
  str "usr/bin/sh" = join_with SLASH comps /\ follows sample_paths [] [str "bin"; str "sh"] comps.
Proof.
  generalize sample_root_read, sample_resolved. generalize sample_paths. intros paths Hr Hf.
  pose proof (resolve_image_path_follows paths (str "bin/sh") (proj1 (read_root_ok _ _ Hr)) ltac:(reflexivity)) as Ht.
  rewrite Hf in Ht. destruct Ht as (comps & Hc & _ & Hfol & _). exists comps. split; [exact Hc|exact Hfol].
Defined.
End DockerRootSafe.
