(* ===== verification/DockerOuter.v ===== *)
(** * The Docker guest's outer root (scripts/validate-runtime-docker-root.py)

    The part of the program that works on the file system: reading generated metadata
    and approved files, the closure of the helpers' dependencies, the independent copy
    of it, the staging of the profile, and the command itself.  Command-line paths are
    paths from the root; a path in the metadata that is not absolute is one too. *)
From Stdlib Require Import ZArith Lia.
From Stdlib Require Import Init.Byte.
From stdpp Require Import base list sets strings option gmap.
From S2P Require Import Prelude PyStr PyVal Bytes Json Sys Publish DockerRoot.

Open Scope string_scope.
Open Scope list_scope.
Open Scope Z_scope.

Module DockerOuter.
Import DockerRoot.

Section system.
Context `{machine}.

(** ** Reading *)

Definition full_identity (s : stat_result) : Z * Z * Z * Z * Z * Z * Z * Z * Z :=
  (st_dev s, st_ino s, st_mode s, st_uid s, st_gid s, st_nlink s, st_size s, st_mtime_ns s, st_ctime_ns s).
Definition unchanged (a b : stat_result) : bool := bool_decide (full_identity a = full_identity b).

(** [stream.read(n)] of a stream with this content ahead *)
Definition at_most (n : Z) (data : bytes) : bytes := if zlen data <=? n then data else slice 0 n data.

(** [with os.fdopen(os.dup(fd), "rb") as stream: data = stream.read(limit + 1)] *)
Definition read_dup (fd limit : Z) : M bytes :=
  let* copy := Publish.dup fd in
  mfinally (let* data := read_fd copy in mret (at_most (limit + 1) data)) (close copy).

Definition read_metadata (p : path) : M bytes :=
  let* fd := open_ true false p in
  mfinally
    (let* before := fstat fd in
     mraise_if (negb (s_isreg (st_mode before)) || negb (st_uid before =? euid me) || negb (st_nlink before =? 1)
                || flag (st_mode before) 0x12 || negb ((0 <? st_size before) && (st_size before <=? LIMIT)))
       ApprovalError "unsafe generated metadata" ;;;
     let* data := read_dup fd LIMIT in
     let* after := fstat fd in
     mraise_if (negb (zlen data =? st_size before) || negb (unchanged before after)) ApprovalError
       "generated metadata changed during read" ;;;
     mret data)
    (close fd).

(** The integer a bit operation or a comparison sees. *)
Definition int_value (v : pyval) : res Z :=
  match v with VInt n => Ok n | VBool b => Ok (Z.b2z b) | _ => raise TypeError "unsupported operand type" end.

Definition ROOTLESSKIT : pystr := str "usr/local/bin/rootlesskit".

Definition helper_unsafe (entry : dict) (requested : pystr) (required_uid : Z) : res bool :=
  let source_uid := if requested =s ROOTLESSKIT then get entry (str "uid") else VInt required_uid in
  or_else (Ok (negb (match source_uid with VInt n => (0 <=? n) && (n <? 2 ^ 32) | _ => false end)))
    (or_else (Ok (negb (get entry (str "uid") == source_uid)))
      (or_else (let! mode := int_value (get_or entry (str "mode") (VInt 0)) in Ok (flag mode 0x12))
        (or_else (Ok (negb (is_int (get entry (str "size")))))
          (let! size := int_value (get entry (str "size")) in Ok (negb ((0 <? size) && (size <=? LIMIT))))))).

(** [value != entry[key]] *)
Definition differs (value : Z) (entry : dict) (key : string) : res bool :=
  let! v := getitem (VDict entry) (str key) in Ok (negb (VInt value == v)).

Definition helper_differs (entry : dict) (before : stat_result) : res bool :=
  or_else (Ok (negb (s_isreg (st_mode before))))
    (or_else (differs (st_uid before) entry "uid")
      (or_else (differs (st_gid before) entry "gid")
        (or_else (differs (st_mode before) entry "mode") (differs (st_size before) entry "size")))).

(** One directory down, without following a link. *)
Definition descend (directory : Z) (component : pystr) : M Z :=
  let* fd := openat true true directory component in
  close directory ;;;
  mret fd.

Definition read_image_file (rootfd : Z) (paths : paths_t) (requested : pystr) (required_uid : Z) : M bytes :=
  let* name := lift (resolve_image_path paths requested) in
  let* entry := lift (match alookup name paths with Some d => Ok d | None => raise KeyError "" end) in
  let* unsafe := lift (helper_unsafe entry requested required_uid) in
  mraise_if unsafe ApprovalError "unsafe approved helper metadata" ;;;
  let components := split_on SLASH name in
  let* directory := Publish.dup rootfd in
  let* (directory, failure) := mfor_until descend directory (removelast components) in
  let* fd := mfinally
    (match failure with Some e => reraise e | None => openat true false directory (List.last components []) end)
    (close directory) in
  mfinally
    (let* before := fstat fd in
     let* different := lift (helper_differs entry before) in
     mraise_if different ApprovalError "held helper metadata differs from approval" ;;;
     let* data := read_dup fd LIMIT in
     let* after := fstat fd in
     mraise_if (negb (zlen data =? st_size before) || negb (unchanged before after)
                || negb (VStr (sha256 data) == get entry (str "sha256")))
       ApprovalError "held helper content differs from approval" ;;;
     mret data)
    (close fd).

(** ** The closure of the helpers *)

(** [{entry["path"]: entry for entry in entries}]; a key that is no string is never
    looked up. *)
Definition by_path (paths : paths_t) (entry : pyval) : res paths_t :=
  let! key := getitem entry (str "path") in
  match key, entry with
  | VStr p, VDict d => Ok (aset p d paths)
  | (VList _ | VDict _), _ => raise TypeError "unhashable type"
  | _, _ => Ok paths
  end.

Definition image_paths (root_bytes : bytes) : res paths_t :=
  let! root := load root_bytes in
  let! entries := getitem root (str "entries") in
  let! l := iterate entries in
  for_each by_path [] l.

Record closure := Closure { pending : list pystr; queued : list pystr; files : list (pystr * bytes); total : Z }.

Definition enqueue (c : closure) (name : pystr) : res closure :=
  if bool_decide (name ∈ queued c) then Ok c
  else
    raise_if (256 <=? zlen (queued c)) ApprovalError "outer helper closure count exceeded" ;;
    Ok (Closure (pending c ++ [name]) (queued c ++ [name]) (files c) (total c)).

(** The default directories in which the library resolves. *)
Definition candidate (paths : paths_t) (library : pystr) (found : list pystr) (directory : pystr) : res (list pystr) :=
  let name := directory ++ str "/" ++ library in
  match resolve_image_path paths name with
  | Ok _ => Ok (found ++ [name])
  | Err e => if bool_decide (exn_cls e = ApprovalError) then Ok found else Err e
  end.

Definition add_library (paths : paths_t) (c : closure) (library : pystr) : res closure :=
  let! candidates := for_each (candidate paths library) [] LIB_DIRS in
  raise_if (bool_decide (candidates = [])) ApprovalError "required helper library is absent" ;;
  for_each enqueue c candidates.

Definition CLOSURE_LIMIT : Z := 128 * 2 ^ 20.

Definition closure_turn (rootfd : Z) (paths : paths_t) (required_uid : Z) (c : closure) : M (closure + closure) :=
  match pending c with
  | [] => mret (inr c)
  | name :: rest =>
      let c := Closure rest (queued c) (files c) (total c) in
      if bool_decide (name ∈ map fst (files c)) then mret (inl c)
      else
        mraise_if (256 <=? zlen (files c)) ApprovalError "outer helper closure count exceeded" ;;;
        let* data := read_image_file rootfd paths name required_uid in
        let total' := total c + zlen data in
        mraise_if (CLOSURE_LIMIT <? total') ApprovalError "outer helper closure bytes exceeded" ;;;
        let* (loader, libraries) := lift (elf_dependencies data) in
        let c := Closure (pending c) (queued c) (files c ++ [(name, data)]) total' in
        let* c := lift (match loader with Some text => if text =s [] then Ok c else enqueue c (drop 1 text) | None => Ok c end) in
        let* c := lift (for_each (add_library paths) c libraries) in
        mret (inl c)
  end.

Definition HELPER_NAMES : list pystr := map fst HELPERS.

Definition collect (rootfd : Z) (paths : paths_t) (required_uid : Z) : M closure :=
  mwhile (closure_turn rootfd paths required_uid) (Closure HELPER_NAMES HELPER_NAMES [] 0).

(** ** The independent copy *)

(** [with path.open("xb") as stream: stream.write(data)] *)
Definition write_new (p : path) (data : bytes) : M unit :=
  let* fd := create_excl 0x1B6 p in mfinally (write_fd fd data) (close fd).

Definition make_parent (directory : path) (component : pystr) : M path :=
  let directory := directory ++ [component] in
  mkdir_exist_ok 0x1ED directory ;;;
  chmod directory 0x1ED ;;;
  mret directory.

Definition copy_file (output : path) (u : unit) (file : pystr * bytes) : M unit :=
  let '(name, data) := file in
  let p := output ++ rel_path name in
  mfor_each make_parent output (removelast (rel_path name)) ;;;
  write_new p data ;;;
  chmod p (default 0x1ED (alookup name HELPERS)).

Definition NL : pystr := [10].
Definition ETC_FILES : list (pystr * pystr) :=
  [(str "passwd", str "root:x:0:0:root:/root:/bin/sh" ++ NL ++ str "rootless:x:1000:1000:rootless:/home/rootless:/bin/sh" ++ NL);
   (str "group", str "root:x:0:" ++ NL ++ str "rootless:x:1000:" ++ NL);
   (str "subuid", str "rootless:100000:65536" ++ NL);
   (str "subgid", str "rootless:100000:65536" ++ NL);
   (str "nsswitch.conf", str "passwd: files" ++ NL ++ str "group: files" ++ NL ++ str "subid: files" ++ NL)].

Definition write_etc (etc : path) (u : unit) (file : pystr * pystr) : M unit :=
  write_new (etc ++ [file.1]) (ascii_bytes file.2) ;;; chmod (etc ++ [file.1]) 0x1A4.

Definition STATE_DIRECTORIES (required_uid : Z) : list (pystr * (Z * Z * Z)) :=
  [(str "tmp", (0x3FF, required_uid, 0)); (str "home", (0x1ED, required_uid, 0));
   (str "home/rootless", (0x1C0, 1000, 1000)); (str "home/rootless/.local", (0x1C0, 1000, 1000));
   (str "home/rootless/.local/tmp", (0x1C0, 1000, 1000)); (str "run", (0x1ED, required_uid, 0));
   (str "run/user", (0x1ED, required_uid, 0)); (str "run/user/1000", (0x1C0, 1000, 1000));
   (str "run/user/1000/rootlesskit", (0x1C0, 1000, 1000))].

Definition make_state (output : path) (u : unit) (d : pystr * (Z * Z * Z)) : M unit :=
  let '(name, (mode, uid, gid)) := d in
  let p := output ++ rel_path name in
  mkdir mode p ;;;
  (if euid me =? 0 then chown p uid gid else mret tt) ;;;
  chmod p mode.

Definition prepare_outer (source : Publish.directory_ref) (root_bytes : bytes) (output : path) (required_uid : Z) : M pyval :=
  mraise_if (negb (euid me =? required_uid)) ApprovalError "outer helper preparation requires trusted ownership" ;;;
  let* paths := lift (image_paths root_bytes) in
  let* rootfd := Publish.open_directory_nofollow source in
  let* c := mfinally (collect rootfd paths required_uid) (close rootfd) in
  mkdir 0x1C0 output ;;;
  mfor_each (copy_file output) tt (files c) ;;;
  let etc := output ++ [str "etc"] in
  mkdir 0x1ED etc ;;;
  chmod etc 0x1ED ;;;
  mfor_each (write_etc etc) tt ETC_FILES ;;;
  mfor_each (make_state output) tt (STATE_DIRECTORIES required_uid) ;;;
  chmod output 0x1ED ;;;
  mret (VDict [(str "files", VInt (zlen (files c))); (str "bytes", VInt (total c)); (str "independent_code", VBool true);
               (str "file_sha256", VDict (map (fun e : pystr * bytes => (e.1, VStr (sha256 e.2)))
                  (sort_by (fun a b => str_leb a.1 b.1) (files c))))]).

(** ** Staging the profile *)

Definition PRIVATE : list pystr := strs
  ["home/rootless"; "home/rootless/.local"; "home/rootless/.local/tmp"; "run/user/1000"; "run/user/1000/rootlesskit"].

Record staged := Staged {
  directories : list (pystr * stat_result); staged_files : list (pystr * bytes * Z); staged_total : Z }.

(** One name below the prepared root. *)
Definition visit (outer : path) (required_uid : Z) (base : path) (s : staged) (name : pystr) : M staged :=
  let p := base ++ [name] in
  let relative := join_with SLASH (drop (length outer) p) in
  let* info := lstat p in
  if s_isdir (st_mode info) then
    let private := mem relative PRIVATE in
    let uid := if private && (required_uid =? 0) then 1000 else required_uid in
    let mode := if relative =s str "tmp" then 0x3FF else if private then 0x1C0 else 0x1ED in
    mraise_if (negb (st_uid info =? uid) || negb (s_imode (st_mode info) =? mode)) ApprovalError
      "prepared outer directory identity refused" ;;;
    mret (Staged (directories s ++ [(relative, info)]) (staged_files s) (staged_total s))
  else if s_isreg (st_mode info) then
    let* data := read_metadata p in
    let total' := staged_total s + zlen data in
    mraise_if ((256 <=? zlen (staged_files s)) || (CLOSURE_LIMIT <? total')) ApprovalError
      "prepared outer closure exceeds bound" ;;;
    mret (Staged (directories s) (staged_files s ++ [(relative, data, s_imode (st_mode info))]) total')
  else mraise ApprovalError "prepared outer alias refused".

(** [os.walk(outer, followlinks=False)]: a directory's names are split by what they
    lead to; a directory that cannot be listed is skipped; links are not entered. *)
Definition split_names (top : path) (s : list pystr * list pystr) (name : pystr) : M (list pystr * list pystr) :=
  let* d := is_dir (top ++ [name]) in
  mret (if d then (s.1 ++ [name], s.2) else (s.1, s.2 ++ [name])).
Definition enter (top : path) (stack : list path) (name : pystr) : M (list path) :=
  let* link := Sys.is_symlink (top ++ [name]) in
  mret (if link then stack else stack ++ [top ++ [name]]).

Definition walk_turn (outer : path) (required_uid : Z) (w : list path * staged) : M (list path * staged + staged) :=
  match w.1 with
  | [] => mret (inr w.2)
  | top :: rest =>
      let* listed := mcatch (let* l := listdir top in mret (Some l))
                       (fun e => if is_os_error (exn_cls e) then mret None else reraise e) in
      match listed with
      | None => mret (inl (rest, w.2))
      | Some l =>
          let* (names, leaves) := mfor_each (split_names top) ([], []) l in
          let names := sorted_strs names in
          let leaves := sorted_strs leaves in
          let* s := mfor_each (visit outer required_uid top) w.2 (names ++ leaves) in
          let* below := mfor_each (enter top) [] names in
          mret (inl (below ++ rest, s))
      end
  end.

Definition MODULES : list pystr := strs ["llc"; "stp"; "bridge"; "veth"].
Definition BUSYBOX : bytes := bstr "#!/bin/busybox sh" ++ [x0a].

(** The privileged artifacts the profile names. *)
Definition artifact_list (profile : pyval) : res (list (pystr * pyval)) :=
  let! bootstrap := getitem profile (str "bootstrap") in
  let! modules := map_res (fun name =>
    let! all := getitem profile (str "modules") in
    let! selected := getitem all name in
    Ok (str "bootstrap-modules/" ++ name ++ str ".ko", selected)) MODULES in
  Ok ((str "docker-bootstrap", bootstrap) :: modules).

Definition text_path (v : pyval) : res path :=
  match v with VStr s => Ok (rel_path s) | _ => raise TypeError "expected str, bytes or os.PathLike object" end.

Definition read_artifact (artifacts : list (pystr * bytes * Z)) (a : pystr * pyval) : M (list (pystr * bytes * Z)) :=
  let '(name, selected) := a in
  let bootstrap := name =s str "docker-bootstrap" in
  let* file := lift (let! v := getitem selected (str "path") in text_path v) in
  let* data := read_metadata file in
  let* digest := lift (getitem selected (str "sha256")) in
  mraise_if (negb (VStr (sha256 data) == digest)) ApprovalError "approved bootstrap artifact changed" ;;;
  mraise_if (bootstrap && negb (startswith data BUSYBOX)) ApprovalError "approved bootstrap interpreter changed" ;;;
  mret (artifacts ++ [(name, data, if bootstrap then 0x1ED else 0x1A4)]).

(** [(relative.count("/"), relative)] *)
Definition slashes (s : pystr) : Z := zlen (List.filter (Z.eqb SLASH) s).
Definition shallower (a b : pystr * stat_result) : bool :=
  (slashes a.1 <? slashes b.1) || ((slashes a.1 =? slashes b.1) && str_leb a.1 b.1).

Definition stage_directory (destination : path) (u : unit) (d : pystr * stat_result) : M unit :=
  let '(relative, info) := d in
  let p := destination ++ rel_path relative in
  mkdir_exist_ok 0x1FF p ;;;
  let* made := lstat p in
  mraise_if (negb (s_isdir (st_mode made))) ApprovalError "outer destination alias refused" ;;;
  (if euid me =? 0 then chown p (st_uid info) (st_gid info) else mret tt) ;;;
  chmod p (s_imode (st_mode info)).

Definition stage_metadata (destination : path) (required_uid : Z) (u : unit) (name : pystr) : M unit :=
  let p := destination ++ [name] in
  mkdir_exist_ok 0x1FF p ;;;
  let* made := lstat p in
  let* refused := (if negb (s_isdir (st_mode made)) then mret true
                   else let* info := stat p in mret (negb (st_uid info =? required_uid))) in
  mraise_if refused ApprovalError "outer metadata destination refused".

Definition stage_file (destination : path) (u : unit) (file : pystr * bytes * Z) : M unit :=
  let '(relative, data, mode) := file in
  let* fd := create_excl 0x1B6 (destination ++ rel_path relative) in
  mfinally (write_fd fd data ;;; fchmod fd mode) (close fd).

Definition MARKER : pystr * bytes * Z := (str ".multikernel/docker-guest", ascii_bytes GUEST_KIND ++ [x0a], 0x180).

Definition stage_profile (bootstrap : pyval) (source_manifest copied_manifest : bytes) (outer destination : path)
    (required_uid : Z) : M pyval :=
  mraise_if (negb (euid me =? required_uid)) ApprovalError "profile staging requires trusted ownership" ;;;
  mraise_if (negb (bytes_eqb source_manifest copied_manifest)) ApprovalError "copied root differs from approved source" ;;;
  let* profile := lift (getitem bootstrap (str "docker_guest")) in
  let* approved := lift (getitem profile (str "rootfs_manifest_sha256")) in
  mraise_if (negb (VStr (sha256 copied_manifest) == approved)) ApprovalError "copied root differs from approved image" ;;;
  mfor_each (fun _ selected => let* fd := Publish.open_directory_nofollow (Publish.AtPath selected) in close fd) tt
    [outer; destination] ;;;
  let* s := mwhile (walk_turn outer required_uid) ([outer], Staged [] [] 0) in
  let* listed := lift (artifact_list profile) in
  let* artifacts := mfor_each read_artifact [] listed in
  mfor_each (stage_directory destination) tt (sort_by shallower (directories s)) ;;;
  mfor_each (stage_metadata destination required_uid) tt (strs ["bootstrap-modules"; ".multikernel"]) ;;;
  mfor_each (stage_file destination) tt (staged_files s ++ artifacts ++ [MARKER]) ;;;
  mret (VDict [(str "copied_root_verified", VBool true); (str "independent_outer_files", VInt (zlen (staged_files s)));
               (str "module_count", VInt 4); (str "trusted_init_marker", VBool true)]).

(** ** The command *)

Record arguments := Arguments {
  bootstrap : path; manifest : path; bind_plan : path; prepare : option (Publish.directory_ref * path);
  workload_config : option path; stage : option (path * path); copied_manifest : option path }.

Definition read_json (p : path) : M pyval := let* data := read_metadata p in lift (load data).

Definition approve (a : arguments) : M dict :=
  let* approved := read_json (bootstrap a) in
  let* root := read_metadata (manifest a) in
  let* plan := read_json (bind_plan a) in
  let* result := lift (validate approved root plan) in
  let* result := (match workload_config a with
                  | Some p => let* config := read_json p in
                              lift (validate_workload config) ;;;
                              mret (dset (str "workload_identity_bound") (VBool true) result)
                  | None => mret result
                  end) in
  let* result := (match prepare a with
                  | Some (source, output) => let* helpers := prepare_outer source root output 0 in
                                             mret (dset (str "outer_helpers") helpers result)
                  | None => mret result
                  end) in
  match stage a with
  | Some (outer, destination) =>
      match copied_manifest a with
      | None => mraise ApprovalError "copied manifest required for profile staging"
      | Some p => let* copied := read_metadata p in
                  let* profile := stage_profile approved root copied outer destination 0 in
                  mret (dset (str "staged_profile") profile result)
      end
  | None => mret result
  end.

(** [except (ApprovalError, OSError, ValueError, TypeError, AttributeError)] *)
Definition reported (c : exn_class) : bool :=
  bool_decide (c = ApprovalError) || is_os_error c || is_value_error c || bool_decide (c = TypeError)
  || bool_decide (c = AttributeError).

(** The exit status and the line printed. *)
Definition main (float_repr : pyfloat -> pystr) (a : arguments) : M (Z * option pystr) :=
  mcatch (let* result := approve a in mret (0, Some (dumps float_repr spaced (VDict result))))
    (fun e => if reported (exn_cls e) then mret (1, None) else reraise e).
End system.
End DockerOuter.
