(* ===== verification/DockerOuterSafe.v ===== *)
(** * The closure of the Docker helpers is complete *)
From Stdlib Require Import ZArith Lia.
From Stdlib Require Import Init.Byte.
From stdpp Require Import base list sets strings option gmap.
From S2P Require Import Prelude PyStr PyVal Bytes Json Sys FsRules Totals Publish DockerRoot DockerRootSafe DockerOuter.

Open Scope string_scope.
Open Scope list_scope.
Open Scope Z_scope.

Module DockerOuterSafe.
Import DockerRoot DockerRootSafe DockerOuter.

(** ** Approved content *)

(** What the image approves under a name: the file the name resolves to has this
    content's digest. *)
Definition image_data (paths : paths_t) (name : pystr) (data : bytes) : Prop :=
  exists final d, resolve_image_path paths name = Ok final /\ alookup final paths = Some d /\
    get d (str "sha256") = VStr (sha256 data).

Section reads.
Context `{machine} (Hquiet : quiet) (f : fs).

Lemma obs_dup fd : observes f (Publish.dup fd) (fun _ => True).
Proof. eapply obs_any. by apply obs_query. Qed.

Lemma obs_read_dup fd limit : observes f (read_dup fd limit) (fun _ => True).
Proof.
  unfold read_dup. eapply obs_bind; [apply obs_dup|]. intros copy _. apply obs_finally; [|eapply obs_any; by apply obs_query].
  eapply obs_bind; [by apply obs_query|]. intros data _. by apply obs_ret.
Qed.

Lemma obs_read_image_file rootfd paths name uid :
  observes f (read_image_file rootfd paths name uid) (image_data paths name).
Proof.
  unfold read_image_file. eapply obs_bind; [apply obs_lift|]. intros final Hr. eapply obs_bind; [apply obs_lift|]. intros d Hd.
  eapply obs_bind; [apply obs_lift|]. intros unsafe _. eapply obs_bind; [apply obs_raise_if|]. intros ? _.
  cbv zeta. eapply obs_bind; [apply obs_dup|]. intros dir _. eapply obs_bind.
  { eapply obs_any, (obs_for_until _ (fun _ _ => True)); [|done]. intros. unfold descend. eapply obs_bind; [by apply obs_query|]. intros ? _.
    eapply obs_bind; [by apply obs_query|]. intros ? _. by apply obs_ret. }
  intros [dir' failure] _. eapply obs_bind.
  { apply obs_finally; [|eapply obs_any; by apply obs_query]. instantiate (1 := fun _ => True).
    destruct failure; [apply obs_reraise|]. eapply obs_any. by apply obs_query. }
  intros fd _. apply obs_finally; [|eapply obs_any; by apply obs_query].
  eapply obs_bind; [by apply obs_query|]. intros before _. eapply obs_bind; [apply obs_lift|]. intros different _.
  eapply obs_bind; [apply obs_raise_if|]. intros ? _. eapply obs_bind; [apply obs_read_dup|]. intros data _.
  eapply obs_bind; [by apply obs_query|]. intros after _. eapply obs_bind; [apply obs_raise_if|]. intros ? Hs. apply obs_ret.
  cbv beta in *. bool_prop. destruct (alookup final paths) as [d'|] eqn:Ha; [|done]. injection Hd as ->.
  exists final, d. split; [done|]. split; [done|]. by apply str_py_eq.
Qed.
End reads.

(** ** The closure *)

(** The candidates of a library: the default directories it resolves in. *)
Definition library_path (directory library : pystr) : pystr := directory ++ str "/" ++ library.
Definition resolves (paths : paths_t) (name : pystr) : Prop := exists final, resolve_image_path paths name = Ok final.

(** Everything the file's loader may load is in [names]: the interpreter, and every
    candidate of every library, of which there is one at least. *)
Definition satisfied (paths : paths_t) (names : list pystr) (data : bytes) : Prop :=
  exists loader libraries, elf_dependencies data = Ok (loader, libraries) /\
    (forall n, loader = Some (str "/" ++ n) -> n ∈ names) /\
    Forall (fun library => (exists dir, dir ∈ LIB_DIRS /\ resolves paths (library_path dir library)) /\
      forall dir, dir ∈ LIB_DIRS -> resolves paths (library_path dir library) -> library_path dir library ∈ names) libraries.

Lemma satisfied_mono paths names names' data : names ⊆ names' -> satisfied paths names data -> satisfied paths names' data.
Proof.
  intros Hn (l & ls & He & Hl & Hf). exists l, ls. split; [done|]. split; [auto|].
  eapply list.Forall_impl; [exact Hf|]. naive_solver.
Qed.

Definition sizes (l : list (pystr * bytes)) : Z := foldr (fun e n => zlen e.2 + n) 0 l.

Record closure_inv (paths : paths_t) (c : closure) : Prop := {
  inv_data : Forall (fun e => image_data paths e.1 e.2 /\ satisfied paths (queued c) e.2) (files c);
  inv_files : NoDup (map fst (files c)) /\ zlen (files c) <= 256;
  inv_helpers : HELPER_NAMES ⊆ queued c;
  inv_queue : queued c ⊆ pending c ++ map fst (files c);
  inv_bound : zlen (queued c) <= 256;
  inv_total : total c = sizes (files c) /\ total c <= CLOSURE_LIMIT }.

(** [enqueue] only adds, to both lists. *)
Definition grows (c c' : closure) : Prop :=
  exists new, pending c' = pending c ++ new /\ queued c' = queued c ++ new /\ files c' = files c /\ total c' = total c /\
    (zlen (queued c) <= 256 -> zlen (queued c') <= 256).

Lemma grows_refl c : grows c c.
Proof. exists []. by rewrite !app_nil_r. Qed.

Lemma grows_trans a b c : grows a b -> grows b c -> grows a c.
Proof.
  intros (n & Hp & Hq & Hf & Ht & Hb) (m & Hp' & Hq' & Hf' & Ht' & Hb'). exists (n ++ m).
  rewrite Hp', Hq', Hp, Hq, !app_assoc. repeat (split; [congruence|]). rewrite Hq', Hq in Hb'. rewrite Hq in Hb. auto.
Qed.

Lemma enqueue_grows c name c' : enqueue c name = Ok c' -> grows c c' /\ name ∈ queued c'.
Proof.
  unfold enqueue. case_bool_decide as Hq; intros He; inv_ok; [split; [apply grows_refl|done]|]. bool_prop.
  split; [|simpl; set_solver]. exists [name]. simpl. repeat (split; [done|]). intros _. rewrite zlen_app, zlen_cons.
  unfold zlen at 2. simpl. lia.
Qed.

Lemma enqueue_all c names c' : for_each enqueue c names = Ok c' -> grows c c' /\ names ⊆ queued c'.
Proof.
  intros He. apply (for_each_inv _ (fun don x => grows c x /\ don ⊆ queued x) _ _ _ He).
  - split; [apply grows_refl|set_solver].
  - intros pre x t s1 s2 _ [Hg Hs] H2. apply enqueue_grows in H2 as [Hg2 Hx]. split; [by eapply grows_trans|].
    destruct Hg2 as (new & _ & Hq & _). rewrite Hq in *. set_solver.
Qed.

Lemma candidates_are paths library cands : for_each (candidate paths library) [] LIB_DIRS = Ok cands ->
  forall name, name ∈ cands <-> exists dir, dir ∈ LIB_DIRS /\ name = library_path dir library /\ resolves paths name.
Proof.
  intros Hc. apply (for_each_inv _ (fun don found => forall name, name ∈ found <-> exists dir, dir ∈ don /\ name = library_path dir library /\ resolves paths name) _ _ _ Hc).
  - set_solver.
  - intros pre dir t s1 s2 _ Hs H2 name. unfold candidate in H2. fold (library_path dir library) in H2.
    destruct (resolve_image_path paths (library_path dir library)) as [final|e] eqn:Hr.
    + inv_ok. rewrite elem_of_app, Hs. setoid_rewrite elem_of_app. split.
      * intros [(d & Hd & Hn)|Hn]; [exists d; naive_solver|]. apply list_elem_of_singleton in Hn as ->. exists dir. split; [right; left|].
        split; [done|by exists final].
      * intros (d & [Hd|Hd] & -> & Hn); [left; eauto|right]. apply list_elem_of_singleton in Hd as ->. left.
    + destruct (bool_decide _); [|done]. inv_ok. rewrite Hs. split.
      * intros (d & Hd & Hn). exists d. set_solver.
      * intros (d & Hd & -> & final & Hn). apply elem_of_app in Hd as [Hd|Hd]; [exists d; split; [done|]; split; [done|by exists final]|].
        apply list_elem_of_singleton in Hd as ->. congruence.
Qed.

Definition library_satisfied (paths : paths_t) (names : list pystr) (library : pystr) : Prop :=
  (exists dir, dir ∈ LIB_DIRS /\ resolves paths (library_path dir library)) /\
  forall dir, dir ∈ LIB_DIRS -> resolves paths (library_path dir library) -> library_path dir library ∈ names.

Lemma add_library_satisfies paths c library c' : add_library paths c library = Ok c' ->
  grows c c' /\ library_satisfied paths (queued c') library.
Proof.
  unfold add_library. intros Ha. inv_ok. apply enqueue_all in Ha as [Hg Hs]. pose proof (candidates_are _ _ _ E) as Hc.
  split; [done|]. split.
  - apply bool_decide_eq_false in E0. destruct a as [|name a]; [done|]. destruct (proj1 (Hc name) ltac:(left)) as (dir & Hd & -> & Hr).
    by exists dir.
  - intros dir Hd Hr. apply Hs, Hc. by exists dir.
Qed.

Lemma add_libraries_satisfy paths c libraries c' : for_each (add_library paths) c libraries = Ok c' ->
  grows c c' /\ Forall (library_satisfied paths (queued c')) libraries.
Proof.
  intros Ha. apply (for_each_inv _ (fun don x => grows c x /\ Forall (library_satisfied paths (queued x)) don) _ _ _ Ha).
  - split; [apply grows_refl|constructor].
  - intros pre x t s1 s2 _ [Hg Hf] H2. apply add_library_satisfies in H2 as [Hg2 Hx]. split; [by eapply grows_trans|].
    apply Forall_app. split; [|by constructor]. destruct Hg2 as (new & _ & Hq & _).
    eapply list.Forall_impl; [exact Hf|]. rewrite Hq. intros lib [He Hl]. split; [done|]. intros dir Hd Hr.
    apply elem_of_app. left. auto.
Qed.

(** A file joins the closure once what it needs is queued. *)
Lemma closure_step paths name rest c data loader libraries c1 c2 :
  closure_inv paths c -> pending c = name :: rest -> name ∉ map fst (files c) -> zlen (files c) < 256 ->
  image_data paths name data -> total c + zlen data <= CLOSURE_LIMIT -> elf_dependencies data = Ok (loader, libraries) ->
  (match loader with
   | Some text => if text =s [] then Ok (Closure rest (queued c) (files c ++ [(name, data)]) (total c + zlen data))
                  else enqueue (Closure rest (queued c) (files c ++ [(name, data)]) (total c + zlen data)) (drop 1 text)
   | None => Ok (Closure rest (queued c) (files c ++ [(name, data)]) (total c + zlen data))
   end) = Ok c1 ->
  for_each (add_library paths) c1 libraries = Ok c2 -> closure_inv paths c2.
Proof.
  intros [Hdata [Hnd Hlen] Hh Hq Hb [Ht _]] Hp Hfresh Hroom Himg Hfit Hdep Hloader Hlibs.
  set (c0 := Closure rest (queued c) (files c ++ [(name, data)]) (total c + zlen data)) in *.
  assert (grows c0 c1 /\ forall n, loader = Some (str "/" ++ n) -> n ∈ queued c1) as [Hg1 Hl].
  { destruct loader as [text|]; [|inv_ok; split; [apply grows_refl|done]]. destruct (text =s []) eqn:He.
    - inv_ok. apply bool_decide_eq_true in He as ->. split; [apply grows_refl|done].
    - apply enqueue_grows in Hloader as [Hg Hin]. split; [done|]. intros n [= ->]. exact Hin. }
  apply add_libraries_satisfy in Hlibs as [Hg2 Hlib]. pose proof (grows_trans _ _ _ Hg1 Hg2) as (new & Hpc & Hqc & Hfc & Htc & Hbc).
  assert (queued c1 ⊆ queued c2) as H12. { destruct Hg2 as (? & _ & Hq2 & _). rewrite Hq2. clear. set_solver. }
  simpl in *. split.
  - rewrite Hfc. apply Forall_app. split.
    + eapply list.Forall_impl; [exact Hdata|]. intros e [Hi Hs]. split; [done|]. eapply satisfied_mono; [|exact Hs]. rewrite Hqc. clear. set_solver.
    + constructor; [|constructor]. split; [done|]. exists loader, libraries. split; [done|]. split; [|exact Hlib].
      intros n Hn. apply H12, Hl, Hn.
  - rewrite Hfc, map_app, zlen_app. split; [|unfold zlen at 2; simpl; lia]. apply NoDup_app. split; [done|].
    split; [|apply NoDup_singleton]. intros x Hx Hy%list_elem_of_singleton. simpl in Hy. by subst x.
  - rewrite Hqc. etrans; [exact Hh|]. clear. set_solver.
  - clear Hh. rewrite Hqc, Hpc, Hfc, map_app. rewrite Hp in Hq. simpl. set_solver.
  - auto.
  - rewrite Htc, Hfc. split; [|lia]. rewrite Ht. clear. unfold sizes. rewrite foldr_app. simpl.
    induction (files c) as [|e l IH]; simpl; lia.
Qed.

(** What a collected closure is. *)
Record closed (paths : paths_t) (l : list (pystr * bytes)) : Prop := {
  closed_helpers : HELPER_NAMES ⊆ map fst l;
  closed_approved : Forall (fun e => image_data paths e.1 e.2) l;
  closed_satisfied : Forall (fun e => satisfied paths (map fst l) e.2) l;
  closed_bounds : NoDup (map fst l) /\ zlen l <= 256 /\ sizes l <= CLOSURE_LIMIT }.

Lemma closure_done paths c : closure_inv paths c -> pending c = [] -> closed paths (files c) /\ total c = sizes (files c).
Proof.
  intros [Hdata [Hnd Hlen] Hh Hq Hb [Ht Hlim]] Hp. rewrite Hp in Hq. simpl in Hq. split; [|done]. split.
  - by etrans.
  - eapply list.Forall_impl; [exact Hdata|]. naive_solver.
  - eapply list.Forall_impl; [exact Hdata|]. intros e [_ Hs]. by eapply satisfied_mono.
  - rewrite <-Ht. done.
Qed.

Lemma closure_start paths : closure_inv paths (Closure HELPER_NAMES HELPER_NAMES [] 0).
Proof. split; cbn [files queued pending total]; [done|split; [apply NoDup_nil_2|done]|done|intros x Hx; by apply elem_of_app; left|done|done]. Qed.

Section collecting.
Context `{machine} (Hquiet : quiet) (f : fs).

Lemma obs_closure_turn rootfd paths uid c : closure_inv paths c ->
  observes f (closure_turn rootfd paths uid c) (fun o => match o with
    | inl c' => closure_inv paths c'
    | inr c' => closed paths (files c') /\ total c' = sizes (files c')
    end).
Proof.
  intros Hc. unfold closure_turn. destruct (pending c) as [|name rest] eqn:Hp; [apply obs_ret; by apply closure_done|].
  cbv zeta. cbn [files pending queued total]. case_bool_decide as Hin.
  { apply obs_ret. destruct Hc as [Hdata Hf Hh Hq Hb Ht]. split; simpl; try done. clear Hh. rewrite Hp in Hq. set_solver. }
  eapply obs_bind; [apply obs_raise_if|]. intros ? Hroom. cbv beta in Hroom. bool_prop.
  eapply obs_bind; [by apply obs_read_image_file|]. intros data Hdata. cbv beta in Hdata.
  eapply obs_bind; [apply obs_raise_if|]. intros ? Hfit. cbv beta in Hfit. bool_prop.
  eapply obs_bind; [apply obs_lift|]. intros [loader libraries] Hdep. eapply obs_bind; [apply obs_lift|]. intros c1 H1.
  eapply obs_bind; [apply obs_lift|]. intros c2 H2. apply obs_ret. cbv beta in *. by eapply closure_step.
Qed.

Lemma obs_collect rootfd paths uid :
  observes f (collect rootfd paths uid) (fun c => closed paths (files c) /\ total c = sizes (files c)).
Proof.
  unfold collect. apply (obs_while _ _ (closure_inv paths)); [intros c; apply obs_closure_turn|apply closure_start].
Qed.
End collecting.

(** ** It ends *)

(** [m] returns a value with [Q], or raises an exception other than the one by which a
    loop is cut off. *)
Definition ends {A} (m : M A) (Q : A -> Prop) : Prop :=
  forall w, match (m w).1 with Ok a => Q a | Err e => exn_cls e <> RuntimeError end.

Definition not_cut (c : exn_class) : bool := negb (bool_decide (c = RuntimeError)).

Section ending.
Context `{machine} (Hfault : forall n e, fault n = Some e -> is_os_error (exn_cls e) = true).

Lemma ends_ret {A} (a : A) (Q : A -> Prop) : Q a -> ends (mret a) Q.
Proof. by intros Ha w. Qed.

Lemma ends_lift {A} (r : res A) (Q : A -> Prop) : refuses_as not_cut r Q -> ends (lift r) Q.
Proof. intros Hr w. simpl. destruct r; [done|]. simpl in Hr. unfold not_cut in Hr. by bool_prop. Qed.

Lemma ends_raise_if b c m : c <> RuntimeError -> ends (mraise_if b c m) (fun _ => b = false).
Proof. intros Hc. apply ends_lift. destruct b; [|done]. simpl. unfold not_cut. by rewrite bool_decide_false. Qed.

Lemma ends_reraise {A} e (Q : A -> Prop) : exn_cls e <> RuntimeError -> ends (reraise e) Q.
Proof. by intros He w. Qed.

Lemma ends_bind {A B} (m : M A) (k : A -> M B) P Q : ends m P -> (forall a, P a -> ends (k a) Q) -> ends (mbind m k) Q.
Proof. intros Hm Hk w. specialize (Hm w). unfold mbind. destruct (m w) as [[a|e] w']; simpl in *; [by apply Hk|done]. Qed.

Lemma ends_finally {A} (m : M A) last Q : ends m Q -> ends last (fun _ => True) -> ends (mfinally m last) Q.
Proof.
  intros Hm Hl w. specialize (Hm w). unfold mfinally. destruct (m w) as [r w1]. specialize (Hl w1).
  destruct (last w1) as [[u|e] w2]; done.
Qed.

Lemma ends_query {A} (op : fs -> res A) : (forall f, raises_only is_os_error (op f)) -> ends (query op) (fun _ => True).
Proof.
  intros Ho w. unfold query, syscall. destruct (fault (w_clock w)) as [e|] eqn:Hf.
  - apply Hfault in Hf. simpl. by destruct (exn_cls e).
  - specialize (Ho (env (w_clock w) (w_fs w))). destruct (op _) as [a|e]; simpl in *; [done|]. by destruct (exn_cls e).
Qed.

Lemma ends_until {S A} (g : S -> A -> M S) s l : (forall s x, ends (g s x) (fun _ => True)) ->
  ends (mfor_until g s l) (fun r => match r.2 with Some e => exn_cls e <> RuntimeError | None => True end).
Proof.
  intros Hg. revert s; induction l as [|x l IH]; intros s w; simpl; [done|]. specialize (Hg s x w).
  destruct (g s x w) as [[s'|e] w']; [apply IH|done].
Qed.

Lemma mloop_measure {S A} depth (turn : S -> M (S + A)) (I : S -> Prop) (m : S -> Z) s :
  (forall s, I s -> ends (turn s) (fun r => match r with inl s' => I s' /\ 0 <= m s' < m s | inr _ => True end)) -> I s ->
  ends (mloop depth turn s) (fun r => match r with inl s' => I s' /\ 0 <= m s' /\ m s' + 2 ^ Z.of_nat depth <= m s | inr _ => True end).
Proof.
  intros Ht. revert s; induction depth as [|d IH]; intros s Hs; simpl mloop.
  - intros w. specialize (Ht s Hs w). destruct (turn s w) as [[[s'|a]|e] w']; simpl in *; [|done|done]. split; [naive_solver|lia].
  - eapply ends_bind; [by apply IH|]. intros [s'|a]; [|by intros _; apply ends_ret]. intros (Hs' & Hm & Hd) w. specialize (IH s' Hs' w).
    destruct (mloop d turn s' w) as [[[s2|a]|e] w']; simpl in *; [|done|done]. destruct IH as (H2 & Hm2 & Hd2). split; [done|].
    change (2 ^ Z.of_nat (Datatypes.S d))%Z with (2 ^ Z.of_nat (1 + d))%Z. rewrite Nat2Z.inj_add, Z.pow_add_r by lia. simpl (2 ^ Z.of_nat 1)%Z. lia.
Qed.

Lemma ends_while {S A} (turn : S -> M (S + A)) (I : S -> Prop) (m : S -> Z) s :
  (forall s, I s -> ends (turn s) (fun r => match r with inl s' => I s' /\ 0 <= m s' < m s | inr _ => True end)) -> I s -> m s < 2 ^ 64 ->
  ends (mwhile turn s) (fun _ => True).
Proof.
  intros Ht Hs Hm. unfold mwhile. eapply ends_bind; [by apply (mloop_measure 64 turn I m)|]. intros [s'|a].
  - intros (_ & ? & Hd). change (2 ^ Z.of_nat 64) with (2 ^ 64) in Hd. lia.
  - intros _. by apply ends_ret.
Qed.
End ending.

(** *** The calls raise the errors of the system *)

Lemma open_os nofollow directory f p : raises_only is_os_error (fs_open nofollow directory f p).
Proof.
  unfold fs_open. apply raises_bind; [apply resolve_os|]. intros loc _. destruct (node_at f loc) as [[ino n]|]; [|done].
  by destruct (i_kind n), directory.
Qed.

Lemma openat_os nofollow directory f fd name : raises_only is_os_error (fs_openat nofollow directory f fd name).
Proof.
  unfold fs_openat. destruct (nodes f !! fd) as [n|]; [|done]. destruct (i_kind n), (location_of f fd); try done. apply open_os.
Qed.

Lemma fstat_os f fd : raises_only is_os_error (fs_fstat f fd).
Proof. unfold fs_fstat. by destruct (nodes f !! fd). Qed.

Lemma read_os f fd : raises_only is_os_error (fs_read f fd).
Proof. unfold fs_read. destruct (nodes f !! fd) as [n|]; [|done]. by destruct (i_kind n). Qed.

Lemma refuses_not_cut {A} (r : res A) (Q : A -> Prop) : approves r Q -> refuses_as not_cut r Q.
Proof. destruct r as [a|e]; [done|]. simpl. intros He%bool_decide_eq_true. by rewrite He. Qed.

Lemma refuses_any {A} (r : res A) (P : A -> Prop) : refuses_as not_cut r P -> refuses_as not_cut r (fun _ => True).
Proof. by destruct r. Qed.

Lemma refuses_getitem v k : refuses_as not_cut (getitem v k) (fun _ => True).
Proof. destruct v; try done. simpl. by destruct (dget k d). Qed.

Lemma refuses_or_else a b : refuses_as not_cut a (fun _ => True) -> refuses_as not_cut b (fun _ => True) ->
  refuses_as not_cut (or_else a b) (fun _ => True).
Proof. destruct a as [[]|]; done. Qed.

Lemma refuses_helper_unsafe entry requested uid : refuses_as not_cut (helper_unsafe entry requested uid) (fun _ => True).
Proof.
  unfold helper_unsafe. repeat apply refuses_or_else; try done.
  - unfold int_value. by destruct (get_or entry _ _).
  - unfold int_value. by destruct (get entry _).
Qed.

Lemma refuses_helper_differs entry s : refuses_as not_cut (helper_differs entry s) (fun _ => True).
Proof.
  assert (forall v k, refuses_as not_cut (differs v entry k) (fun _ => True)) as Hd.
  { intros v k. unfold differs. eapply refuses_bind; [apply refuses_getitem|]. done. }
  unfold helper_differs. repeat apply refuses_or_else; done.
Qed.

Section collect_ends.
Context `{machine} (Hfault : forall n e, fault n = Some e -> is_os_error (exn_cls e) = true).
Variable paths : paths_t.
Hypothesis Himage : image_ok paths.

Lemma ends_fstat fd : ends (fstat fd) (fun _ => True).
Proof. apply ends_query; [done|]. intros f. apply fstat_os. Qed.

Lemma ends_close fd : ends (close fd) (fun _ => True).
Proof. by apply ends_query. Qed.

Lemma ends_dup fd : ends (Publish.dup fd) (fun _ => True).
Proof. apply ends_query; [done|]. intros f. apply raises_bind; [apply fstat_os|done]. Qed.

Lemma ends_read_dup fd limit : ends (read_dup fd limit) (fun _ => True).
Proof.
  unfold read_dup. eapply ends_bind; [apply ends_dup|]. intros copy _. apply ends_finally; [|apply ends_close].
  eapply ends_bind; [apply ends_query; [done|]; intros; apply read_os|]. intros data _. by apply ends_ret.
Qed.

Lemma ends_read_image_file rootfd name uid : zlen name < 2 ^ 63 -> ends (read_image_file rootfd paths name uid) (fun _ => True).
Proof.
  intros Hname. unfold read_image_file.
  eapply ends_bind; [apply ends_lift, refuses_not_cut, approves_resolve; [exact Himage|exact Hname]|]. intros final _.
  eapply (ends_bind _ _ (fun _ => True)); [apply ends_lift; by destruct (alookup final paths)|]. intros entry _.
  eapply ends_bind; [apply ends_lift, refuses_helper_unsafe|]. intros unsafe _. eapply ends_bind; [by apply ends_raise_if|]. intros ? _.
  cbv zeta. eapply ends_bind; [apply ends_dup|]. intros dir _. eapply ends_bind.
  { apply ends_until. intros. unfold descend. eapply ends_bind; [apply ends_query; [done|]; intros; apply openat_os|]. intros ? _.
    eapply ends_bind; [apply ends_close|]. intros ? _. by apply ends_ret. }
  intros [dir' failure] Hf. eapply (ends_bind _ _ (fun _ => True)).
  { apply ends_finally; [|apply ends_close]. destruct failure; [by apply ends_reraise|]. apply ends_query; [done|]. intros. apply openat_os. }
  intros fd _. apply ends_finally; [|apply ends_close]. eapply ends_bind; [apply ends_fstat|]. intros before _.
  eapply ends_bind; [apply ends_lift, refuses_helper_differs|]. intros different _. eapply ends_bind; [by apply ends_raise_if|]. intros ? _.
  eapply ends_bind; [apply ends_read_dup|]. intros data _. eapply ends_bind; [apply ends_fstat|]. intros after _.
  eapply ends_bind; [by apply ends_raise_if|]. intros ? _. by apply ends_ret.
Qed.

(** Every turn takes a name from the queue; a name enters it once. *)
Definition queue_ok (c : closure) : Prop := zlen (queued c) <= 256 /\ Forall (fun n => zlen n <= 4096) (pending c).
Definition left_to_do (c : closure) : Z := zlen (pending c) - zlen (queued c) + 256.
Definition carries_on (c c' : closure) : Prop := queue_ok c' /\ left_to_do c' = left_to_do c.

Lemma approves_enqueue c name : queue_ok c -> zlen name <= 4096 -> approves (enqueue c name) (carries_on c).
Proof.
  intros [Hq Hp] Hn. unfold enqueue. case_bool_decide; [by apply refuses_ok|].
  eapply refuses_bind_unit; [apply approves_raise_if|]. intros Hb. bool_prop. apply refuses_ok.
  unfold carries_on, queue_ok, left_to_do. cbn [pending queued]. rewrite !zlen_app. change (zlen [name]) with 1. split; [|lia].
  split; [lia|]. apply Forall_app. split; [done|by constructor].
Qed.

Lemma approves_enqueue_all c (names : list pystr) : queue_ok c -> Forall (fun n => zlen n <= 4096) names ->
  approves (for_each enqueue c names) (carries_on c).
Proof.
  intros Hc Hn. apply refuses_for_each; [done|]. intros c' x Hx [Hc' Hm]. rewrite list.Forall_forall in Hn.
  eapply refuses_conseq; [apply approves_enqueue; [done|by apply Hn]|]. intros c2 [H2 Hm2]. split; [done|congruence].
Qed.

Lemma library_length data name : library_ok data name -> zlen name <= 255.
Proof. intros [Hm _]. apply fullmatch_spec in Hm. apply matches_rep_cls in Hm as [_ Hl]. unfold zlen. lia. Qed.

Lemma lib_dirs_short : Forall (fun dir => zlen dir <= 100) LIB_DIRS.
Proof. repeat constructor; unfold zlen; simpl; lia. Qed.

Lemma approves_add_library c library : queue_ok c -> zlen library <= 255 -> approves (add_library paths c library) (carries_on c).
Proof.
  intros Hc Hl. unfold add_library. eapply (refuses_bind _ _ (Forall (fun n => zlen n <= 4096))).
  { apply refuses_for_each; [constructor|]. intros found dir Hdir Hf. unfold candidate.
    pose proof lib_dirs_short as Hs. rewrite list.Forall_forall in Hs. specialize (Hs dir Hdir).
    assert (zlen (dir ++ str "/" ++ library) <= 4096) as Hlen by (rewrite !zlen_app; change (zlen (str "/")) with 1; lia).
    pose proof (approves_resolve paths (dir ++ str "/" ++ library) Himage ltac:(lia)) as Hr.
    destruct (resolve_image_path paths _) as [x|e]; [apply Forall_app; auto|]. simpl in Hr. unfold approval in Hr. by rewrite Hr. }
  intros candidates Hf. eapply refuses_bind_unit; [apply approves_raise_if|]. intros _. by apply approves_enqueue_all.
Qed.

Lemma loader_length i text : loader_ok i -> i = Some text -> zlen (drop 1 text) <= 4096.
Proof.
  intros Hi He. destruct (Hi _ He) as (n & Hn & ->). change (zlen n <= 4096).
  assert (Forall (fun n => zlen n <= 4096) INTERPRETERS) as Hs by (repeat constructor; unfold zlen; simpl; lia).
  rewrite list.Forall_forall in Hs. auto.
Qed.

Lemma ends_closure_turn rootfd uid c : queue_ok c ->
  ends (closure_turn rootfd paths uid c) (fun o => match o with inl c' => queue_ok c' /\ 0 <= left_to_do c' < left_to_do c | inr _ => True end).
Proof.
  intros [Hq Hp]. unfold closure_turn, left_to_do. destruct (pending c) as [|name rest] eqn:Hpend; [by apply ends_ret|].
  apply Forall_cons_iff in Hp as [Hname Hrest]. cbv zeta. cbn [files queued pending total].
  assert (forall c', carries_on (Closure rest (queued c) (files c') (total c')) c' ->
    queue_ok c' /\ 0 <= zlen (pending c') - zlen (queued c') + 256 < zlen (name :: rest) - zlen (queued c) + 256) as Hdone.
  { intros c' [[Hq' Hp'] Hm]. unfold left_to_do in Hm. cbn [pending queued] in Hm. rewrite zlen_cons. split; [done|].
    pose proof (zlen_nonneg (pending c')). lia. }
  assert (forall fs t, queue_ok (Closure rest (queued c) fs t)) as Hok by done.
  case_bool_decide. { apply ends_ret. apply Hdone. split; [apply Hok|done]. }
  eapply ends_bind; [by apply ends_raise_if|]. intros ? _. eapply ends_bind; [apply ends_read_image_file; lia|]. intros data _.
  eapply ends_bind; [by apply ends_raise_if|]. intros ? _.
  eapply ends_bind; [apply ends_lift, refuses_not_cut, approves_elf_dependencies|]. intros [loader libraries] (Hl & _ & Hlibs & _). simpl in Hl, Hlibs.
  set (c0 := Closure rest (queued c) _ _). eapply (ends_bind _ _ (carries_on c0)).
  { apply ends_lift, refuses_not_cut. destruct loader as [text|]; [|by apply refuses_ok]. destruct (text =s []); [by apply refuses_ok|].
    apply approves_enqueue; [apply Hok|]. by eapply loader_length. }
  intros c1 [Hc1 Hm1]. eapply (ends_bind _ _ (carries_on c1)).
  { apply ends_lift, refuses_not_cut. apply refuses_for_each; [done|]. intros c2 lib Hin [H2 Hm2]. rewrite list.Forall_forall in Hlibs.
    eapply refuses_conseq; [apply approves_add_library; [done|by eapply library_length, Hlibs]|]. intros c3 [H3 Hm3]. split; [done|congruence]. }
  intros c2 [Hc2 Hm2]. apply ends_ret. apply Hdone. split; [done|]. rewrite Hm2, Hm1. done.
Qed.

Lemma ends_collect rootfd uid : ends (collect rootfd paths uid) (fun _ => True).
Proof.
  unfold collect. apply (ends_while _ queue_ok left_to_do); [intros c; apply ends_closure_turn| |done].
  split; [done|]. repeat constructor; unfold zlen; simpl; lia.
Qed.
End collect_ends.

(** C27. The closure that is collected is complete and approved: it holds the five
    helpers, every file in it has the digest the image approves for it, and whatever
    loader or library a file of it names is in it, under every default directory where
    it resolves; it has at most 256 files and 128 MiB.  Collecting it changes nothing,
    whichever system call fails. *)
Theorem collected_closure `{machine} rootfd paths uid w : quiet ->
  match collect rootfd paths uid w with
  | (Ok c, w') => w_fs w' = w_fs w /\ closed paths (files c) /\ total c = sizes (files c)
  | (Err _, w') => w_fs w' = w_fs w
  end.
Proof. intros Hq. exact (obs_run (w_fs w) _ _ w (obs_collect Hq (w_fs w) rootfd paths uid) eq_refl). Qed.

(** C28. Collecting the closure ends, whatever the image's files name each other: on
    any machine whose calls fail with errors of the system, however other processes
    change the files meanwhile, it returns a closure or raises an exception of its own,
    never running into the bound of the loop.  The listing of the image is one that
    [read_root] admits ([image_ok]: distinct canonical names of known types). *)
Theorem collecting_ends `{machine} rootfd paths uid w :
  (forall n e, fault n = Some e -> is_os_error (exn_cls e) = true) -> image_ok paths ->
  match (collect rootfd paths uid w).1 with Ok _ => True | Err e => exn_cls e <> RuntimeError end.
Proof. intros Hf Hi. exact (ends_collect Hf paths Hi rootfd uid w). Qed.
End DockerOuterSafe.
