(* ===== verification/DockerRun.v ===== *)
(** * A closure, collected

    The helpers' closure collected from a concrete image: five helpers, one of which
    names the musl loader. *)
From Stdlib Require Import ZArith Lia.
From Stdlib Require Import Init.Byte.
From stdpp Require Import base list sets strings option gmap.
From S2P Require Import Prelude PyStr PyVal Bytes Json Sys FsRules Publish DockerRoot DockerRootSafe DockerOuter DockerOuterSafe.

Open Scope string_scope.
Open Scope list_scope.
Open Scope Z_scope.

Module DockerRun.
Import DockerRoot DockerRootSafe DockerOuter DockerOuterSafe.

Fixpoint le (size : nat) (n : Z) : bytes := match size with O => [] | S k => z2b (n mod 256) :: le k (n / 256) end.
Definition header (phnum : Z) : bytes :=
  [x7f] ++ bstr "ELF" ++ [x02; x01; x01] ++ le 9 0 ++ le 2 2 ++ le 2 62 ++ le 4 1 ++ le 8 0 ++ le 8 64 ++ le 8 0 ++ le 4 0
  ++ le 2 64 ++ le 2 56 ++ le 2 phnum ++ le 6 0.
Definition segment_bytes (tag offset size : Z) : bytes :=
  le 4 tag ++ le 4 0 ++ le 8 offset ++ le 8 0 ++ le 8 0 ++ le 8 size ++ le 8 size ++ le 8 0.

Definition static_program : bytes := Eval vm_compute in header 1 ++ segment_bytes 1 0 64.
Definition loaded_program : bytes := Eval vm_compute in
  header 2 ++ segment_bytes 1 0 64 ++ segment_bytes 3 176 25 ++ bstr "/lib/ld-musl-x86_64.so.1" ++ [x00].

Definition LOADER : pystr := str "lib/ld-musl-x86_64.so.1".
Definition program_of (name : pystr) : bytes := if name =s str "sbin/ip" then loaded_program else static_program.

Definition file_entry (name : pystr) : pystr * dict :=
  (name, [(str "path", VStr name); (str "type", VStr (str "regular")); (str "uid", VInt 0); (str "gid", VInt 0); (str "mode", VInt 0x81A4);
          (str "size", VInt (zlen (program_of name))); (str "sha256", VStr (sha256 (program_of name)))]).
Definition directory_entry (name : pystr) : pystr * dict := (name, [(str "path", VStr name); (str "type", VStr (str "directory"))]).
Definition image : paths_t :=
  map directory_entry (strs ["lib"; "sbin"; "usr"; "usr/bin"; "usr/local"; "usr/local/bin"]) ++ map file_entry (HELPER_NAMES ++ [LOADER]).

Definition host : fs := foldl plant_file empty_fs (map (fun name => (str "r" :: rel_path name, program_of name)) (HELPER_NAMES ++ [LOADER])).
Definition start : world := World host 0.
Definition rootfd : Z := default 0 (names host !! [str "r"]).

Definition here : machine := lone_machine superuser [].
Definition run (w : world) : res closure * world := @collect here rootfd image 0 w.
Definition collected (r : res closure) : bool :=
  match r with Ok c => bool_decide (map fst (files c) = HELPER_NAMES ++ [LOADER]) | Err _ => false end.

Lemma collect_run_ok : collected (run start).1 = true.
Proof. vm_cast_no_check (@eq_refl bool true). Qed.

Lemma collected_closure_witness : exists l, map fst l = HELPER_NAMES ++ [LOADER] /\ closed image l.
Proof.
  generalize collect_run_ok. unfold run. generalize start as w, rootfd as fd, image as paths. intros w fd paths Hok.
  pose proof (@collected_closure here fd paths 0 w (lone_quiet _ _)) as Ht.
  destruct (@collect here fd paths 0 w) as [[c|e] w']; [|discriminate Hok].
  exists (files c). split; [exact (proj1 (bool_decide_eq_true _) Hok)|exact (proj1 (proj2 Ht))].
Defined.

Definition image_okb (paths : paths_t) : bool :=
  bool_decide (NoDup (map fst paths)) &&
  forallb (fun e => negb (startswith e.1 (str "/")) && canonical e.1 && (zlen e.1 <=? 4096)
                    && existsb (fun t => get e.2 (str "type") == VStr t) ENTRY_TYPES) paths.

Lemma image_okb_ok paths : image_okb paths = true -> image_ok paths.
Proof.
  unfold image_okb. intros Hb. bool_prop. split; [done|]. apply list.Forall_forall. intros e He. rewrite forallb_elem in H0.
  specialize (H0 e He). bool_prop. split; [done|]. split; [done|]. split; [done|].
  apply existsb_exists in H1 as (t & Ht & Heq). exists t. split; [by apply list_elem_of_In|]. by apply py_eq_str.
Qed.

Lemma image_fine : image_okb image = true.
Proof. vm_cast_no_check (@eq_refl bool true). Qed.

(** Where the first call fails. *)
Definition broken : machine := lone_machine superuser [O].

Lemma broken_faults n e : @fault broken n = Some e -> is_os_error (exn_cls e) = true.
Proof. simpl. case_bool_decide; [by intros [= <-]|done]. Qed.

Lemma collecting_ends_witness :
  match (@collect broken rootfd image 0 start).1 with Ok _ => True | Err e => exn_cls e <> RuntimeError end.
Proof.
  generalize image_fine. generalize start as w, rootfd as fd, image as paths. intros w fd paths Hi.
  exact (@collecting_ends broken fd paths 0 w broken_faults (image_okb_ok paths Hi)).
Defined.
End DockerRun.
